(* ===== verification/_CoqProject ===== *)
-Q . S2P
Prelude.v
Machine.v
Errno.v
Bytes.v
TlsfTypes.v
TlsfBul.v
TlsfHeap.v
TlsfAlloc.v
TlsfApi.v
TlsfFacts.v
TlsfHoare.v
TlsfTxn.v
TlsfOwners.v
TlsfOwnership.v
TlsfSpec.v
TlsfLists.v
TlsfTiling.v
TlsfBlocks.v
TlsfMalloc.v
TlsfFree.v
TlsfPool.v
TlsfWalk.v
TlsfRealloc.v
MpmcQueue.v
MpmcInv.v
MpmcSpec.v
MpmcAlone.v
ListSpin.v
Request.v
RequestSpec.v
Marshal.v
World.v
Shmem.v
Rpc.v
RpcSpec.v
Distribution.v
RpcCall.v
RpcCallSpec.v
RemoteCall.v
Stop.v
Wakeup.v
HazardGc.v
Registry.v
RegistrySpec.v
RegistryGrowth.v
Protocol.v
FixBlock.v
Trash.v
Proc.v
ProcSpec.v
ProcMemory.v
Gc.v
GcSpec.v
Collection.v
CollectionSpec.v
Deferred.v
Socket.v
Departure.v
Arrival.v
RequestBlock.v
Descriptors.v
Server.v
ServerSpec.v
Session.v
Client.v
Segment.v
SegmentSpec.v
Daemon.v
Wrapper.v
