(* ===== verification/Prelude.v ===== *)
(** * Verification of simplerpc

    simplerpc turns calls of C functions into calls of the functions of the same name
    in other processes.  A daemon creates a segment of shared memory that every
    process maps at the same address; requests, processes and the registry of
    executors are blocks of an allocator that lives in the segment.  A caller's stub
    puts the arguments in a request, enqueues it in the queues of the processes that
    implement the function, and waits on a semaphore; a worker thread of each
    takes it, calls the function, and publishes the answer in its response slot.
    A collector in the daemon frees what dead or finished parties leave behind.

    ** Files and the code they model (under src/)

    Foundations.  [Prelude]: machine words, bit lemmas, counting, tactics.
    [Machine]: the monad of C computations (result, undefined behaviour [Fault],
    no return [Hang], death of the process [Crash]), its weakest preconditions, and
    the robust mutex of glibc.  [Bytes]: objects as byte lists.
    [Errno]: libsrpc_errno.c.

    The allocator, libs/tlsf_txn.  [TlsfTypes] (tlsf_internal.h: layout, words,
    owners), [TlsfBul] (undo log, lock, recovery), [TlsfHeap] (classes, free lists,
    splitting, coalescing), [TlsfAlloc] (the internal allocation and release),
    [TlsfApi] (the public functions).  The pool is a store of 64-bit words; every
    store to it is a point where the process may die.  [TlsfFacts] is the size and bit
    arithmetic, [TlsfHoare] and [TlsfTxn] the program logic of transactions,
    [TlsfOwners] and [TlsfOwnership] the owner array, [TlsfSpec] the contract of
    ownership.  [TlsfLists] (free lists and bitmaps), [TlsfTiling] (the invariant
    [heap_ok]: blocks tile the heap, the lists hold the listed ones), [TlsfBlocks],
    [TlsfMalloc] and [TlsfFree] (each block operation on the sequence of blocks) lead to
    [TlsfPool], the contract of creation, allocation and release, to [TlsfRealloc], and
    to [TlsfWalk], the walk over the heap with a destructor that keeps to a contract
    ([obeys]).

    The queue, lf_mpmc_queue.c.  [MpmcQueue] has one step per atomic access,
    [MpmcInv] the invariant, [MpmcSpec] the refinement of a bounded FIFO,
    [MpmcAlone] the operations without interference.

    The lists, libsrpc_list_spin.c: [ListSpin].

    Requests, libsrpc_local.h: [Request] (the block as bytes, response slots) and
    [RequestSpec]; [Protocol] interleaves writers, timeouts and readers of one slot
    byte by byte.  [Marshal] is the code the argument macros of libsrpc.c expand to.

    The segment as the library sees it: [World] (the objects of the segment and the
    thread's variables, with the operations of the components above lifted to it),
    [Shmem] (libsrpc_shmem.c, and the substituted malloc of libsrpc.c),
    [Segment] and [SegmentSpec] (creation, mapping, removal).

    The remote call, libsrpc.c: [Rpc] (distribution, timeouts, wait, results, locks),
    [RpcCall] (request blocks, stub, worker, callback), [RpcSpec], [RpcCallSpec];
    [Distribution], the sending half of libsrpc_send_request as a whole (four modes, main
    cells and extension block); [RequestBlock], libsrpc_req_alloc on every branch; and
    [RemoteCall], which composes caller and worker.  [Wakeup] interleaves senders and
    sleeping workers, with the stop flag, interrupted waits and a process that leaves
    [RUN]; [Stop] the stopping of the workers; [HazardGc] workers of processes that may
    leave [RUN], owner and collector around one request.

    The registry of executors, libsrpc.c: [Registry], [RegistrySpec],
    [RegistryGrowth].

    The daemon: [FixBlock] (libsrpc_fixblockalloc.c), [Trash] (trash lists of
    libsrpc_shm_gc.c), [Proc], [ProcSpec] and [ProcMemory] (libsrpc_proc.c), [Gc] and
    [GcSpec] (the collector), [Collection] and [CollectionSpec] (the collector's passes over
    the allocator's heap), [Deferred] (the memory of a process that is gone while it holds
    locks), [Departure] and [Arrival] (the destruction and the creation of a process as a
    whole), [Socket] (the registration message), [Descriptors] (socket addresses,
    descriptors sent over a socket), [Server] and [ServerSpec] (the server of
    libsrpc_unix_socket.c), [Session] (a client from its connection to its end), [Daemon]
    (libsrpc_daemon.c: the daemon's start, its main function, its end; the constructor
    and destructor of the library).  The process's end
    of the connection is [Client], with the thread starter and the timeouts in [Wrapper]
    (libsrpc_pthread.c, libsrpc_wrapper.h).

    Definitions have the names of the C functions; a part of a function that is a
    definition of its own has a name of the kind [main_cell] or [finish_alloc].

    ** What the theorems show

    - A remote call returns what the function called returns, and the caller's
      allocation, the distribution, the worker and the wait do their parts
      ([RemoteCall], [RequestBlock], [Distribution], [RpcSpec], [RpcCallSpec], [Marshal],
      [RequestSpec]).
    - A connecting client ends up a listed process with a fresh uid, registered for
      exactly the functions it overrides; counts, cells and uids stay consistent; the
      created segment satisfies what the other theorems assume ([ServerSpec],
      [ProcSpec], [RegistrySpec], [RegistryGrowth], [SegmentSpec], [Client]).
    - The collector frees exactly what nobody points at ([GcSpec]), and a pass over the heap
      leaves exactly the blocks that are unmarked, shared or needed, though the walk goes on
      over headers that a release has merged into its neighbours ([CollectionSpec]).  What
      the collector asks is the processes in [RUN]: a request of a dead process is never
      freed under a worker of one of those, one released by a live owner may be, and any
      request may be freed under a worker of a process that stops ([HazardGc]).
    - Under every interleaving the queue is a FIFO and loses nothing ([MpmcSpec]), a
      response slot is decided once ([Protocol]), no wake-up is lost ([Wakeup]), and
      stopping ends when the workers were counted in time ([Stop]).
    - The allocator's heap is tiled by blocks whose free ones are those in the free lists;
      creation, allocation, release and a second owner keep it so, and allocation and release do to the sequence of blocks what [carve] and [give_back] say
      ([TlsfPool]); reallocation keeps the contents ([TlsfRealloc]).
    - The heap walk ends, and leaves nothing of a dead process but what the collector
      takes ([ProcMemory]); when the process held locks its memory is listed, and given
      back when the locks are gone ([Deferred]).  The whole destruction takes the process
      out of the registry and the list, cancels the calls that wait in its queue, and
      leaves segment and pool sound for the others ([Departure]); the creation leaves
      the state sound on every branch, and returns the block when it fails ([Arrival]).
      A client that connects and hangs up leaves the daemon as it was, but for the
      block of its process, and the loop ends with the last one ([Session]).
    - Ownership of blocks: results, owner lists, crash atomicity with recovery that may
      itself be interrupted ([TlsfSpec], [Shmem]).
    - Lists and the fixed-block allocator against sequences and sets ([ListSpin],
      [FixBlock]).
    - Failures of the code that modelling showed, each as a theorem about a concrete
      run or about all runs of a kind: [killed_malloc_loses_block],
      [undersized_block_taken], [free_reports_corruption], [live_release_races],
      [stopping_process_races], [growth_registers_garbage],
      [stop_may_hang], [failed_registration_leaks], and the lemmas [client_init_hangs],
      [client_init_null], [long_name_rejected], [long_names_collide], [pool_127_overlaps],
      [small_trash_overflows], [removal_truncates_reader], [capacity_one_overwrites],
      [slots_are_misaligned], [pthread_error_is_positive], [full_list_forgets].

    ** Conditions

    Four conditions recur, each of which the code needs and a theorem shows the failure of.
    No free block of a request's own size class is smaller than the request: the search
    takes the head of the class unseen ([small_requests_fit]: always so up to 896 bytes;
    [undersized_block_taken]).  [room]: a function has a free cell or an extension block not
    counted full, so that registration grows nothing ([growth_spec] says what growth does,
    [growth_registers_garbage] what it may register).  [library]: the daemon's malloc and
    realloc have memory for the list of a process that holds locks ([full_list_forgets]).
    [running]: a process is in [RUN] with its signature ([stopping_process_races]).  Each
    theorem that has such a condition says so in its comment.

    ** Conventions, bounds and fuel

    Words are integers with their wrap-around written out.  A pointer is its address.
    Objects of the segment that hold pointers or atomics (processes, extension blocks,
    list nodes) are records at their address; requests are byte lists, because the
    code addresses inside them.  What a system call, the C library or the function of an
    application answers is an argument of the definitions that use it.

    Loops with a bound in the code have that bound ([response_get_loop]: 1024 reads;
    [enqueue_retry]; the array sizes).  Queue operations run alone get
    [queue_fuel] = 4 * capacity + 8 steps, which [MpmcAlone] proves enough.  Traversals
    of lists take a [fuel] and hang without it; the theorems ask for more than the
    length of the list and conclude that the result is returned.  The heap walk takes a
    bound on its rounds, since the code restarts it while something was freed; more than
    one round and one step for every 128 bytes of heap are enough ([free_uid_blocks_run],
    [collection_run]).
    [wait_settles] bounds the turns of the wait by the number of wake-ups still to come
    before the deadline.  The liveness theorems ([stop_ends], [no_lost_wakeup]) are
    about all interleavings, without fuel.

    A step of [MpmcQueue], [Protocol], [Wakeup], [HazardGc] and [Stop] is one atomic
    access, in a sequentially consistent order: the C11 orders weaker than that are not
    distinguished.  In [HazardGc] the memory of a freed request is not handed out again.
    In the sequential definitions ([World] and its clients) an operation
    runs without interference, except where a parameter stands for the other parties
    ([pause], [sem_timedwait], the observations of [libsrpc_req_response_get]).

    ** Not modelled

    The machine code of the loader (embedded_loader.h), of which [Daemon] has the C
    source's result; the preprocessor library (macro.h, argfunc.h) and the application's
    list of functions, which is the argument [handler]; the thread-specific key whose
    destructor is [libsrpc_cleanup_data]; semaphores beyond their count; debug output;
    tests, benchmarks and examples, which are programs that use the library.  The walk is
    proved for the destructor of libsrpc_proc.c, with and without a list, and for the
    collector's when its array has room ([sweep_full] says what a full array does).  The theorems on the tiling are about runs
    that are not interrupted: allocation and release are not atomic under crashes, as
    [killed_malloc_loses_block] shows. *)
From stdpp Require Export base gmap list relations.
From Stdlib Require Export ZArith Lia.

#[global] Open Scope Z_scope.
#[export] Set Warnings "-clear-no-such-hyp".

(** ** Machine integers *)

Declare Scope machine_scope.
Delimit Scope machine_scope with mach.

Definition u64 (x : Z) : Z := x mod 2 ^ 64.
Definition u32 (x : Z) : Z := x mod 2 ^ 32.
Definition u16 (x : Z) : Z := x mod 2 ^ 16.
(** two's complement reading of a 64-bit word ([ptrdiff_t]) *)
Definition i64 (x : Z) : Z := let y := u64 x in if y <? 2 ^ 63 then y else y - 2 ^ 64.
(** two's complement reading of a 32-bit word ([int]) *)
Definition i32 (x : Z) : Z := let y := u32 x in if y <? 2 ^ 31 then y else y - 2 ^ 32.
(** C's [~x] on a 64-bit unsigned word *)
Definition not64 (x : Z) : Z := Z.lxor x (2 ^ 64 - 1).

(** C's bit operators on words, with C's spelling. *)
Notation "x '&' y" := (Z.land x y) (at level 40, left associativity) : machine_scope.
Notation "x '|||' y" := (Z.lor x y) (at level 50, left associativity) : machine_scope.
Notation "'!64' x" := (not64 x) (at level 30, right associativity) : machine_scope.
Abbreviation NULL := 0 (only parsing).

Create Rewrite HintDb word.
Create Rewrite HintDb bits.

Lemma u64_range x : 0 <= u64 x < 2 ^ 64.
Proof. unfold u64; apply Z.mod_pos_bound; lia. Qed.
Lemma u64_small x : 0 <= x < 2 ^ 64 -> u64 x = x.
Proof. intros; unfold u64; rewrite Z.mod_small; lia. Qed.
Lemma u64_idemp x : u64 (u64 x) = u64 x.
Proof. apply u64_small, u64_range. Qed.
Lemma i64_small x : - 2 ^ 63 <= x < 2 ^ 63 -> i64 x = x.
Proof.
  intros H; unfold i64, u64. destruct (Z.le_gt_cases 0 x).
  - rewrite Z.mod_small by lia. destruct (Z.ltb_spec x (2 ^ 63)); lia.
  - replace (x mod 2 ^ 64) with (x + 2 ^ 64)
      by (apply Z.mod_unique_pos with (-1); lia).
    destruct (Z.ltb_spec (x + 2 ^ 64) (2 ^ 63)); lia.
Qed.
Lemma i32_small x : - 2 ^ 31 <= x < 2 ^ 31 -> i32 x = x.
Proof.
  intros H; unfold i32, u32. destruct (Z.le_gt_cases 0 x).
  - rewrite Z.mod_small by lia. destruct (Z.ltb_spec x (2 ^ 31)); lia.
  - replace (x mod 2 ^ 32) with (x + 2 ^ 32)
      by (apply Z.mod_unique_pos with (-1); lia).
    destruct (Z.ltb_spec (x + 2 ^ 32) (2 ^ 31)); lia.
Qed.
#[export] Hint Rewrite u64_small i64_small i32_small using lia : word.

(** ** Bit-level reasoning *)

(** Bits of a word above its width are zero. *)
Lemma testbit_high n x i : 0 <= x < 2 ^ n -> 0 <= n -> n <= i -> Z.testbit x i = false.
Proof.
  intros Hx Hn Hi. rewrite <- (Z.mod_small x (2 ^ n)) by lia.
  apply Z.mod_pow2_bits_high; lia.
Qed.

(** [Z.testbit] of an all-ones mask, a single bit, and their complements. *)
Lemma testbit_mask n i : 0 <= n -> 0 <= i -> Z.testbit (2 ^ n - 1) i = (i <? n).
Proof.
  intros Hn Hi. replace (2 ^ n - 1) with (Z.ones n) by (rewrite Z.ones_equiv; lia).
  destruct (Z.ltb_spec i n).
  - apply Z.ones_spec_low; lia.
  - apply Z.ones_spec_high; lia.
Qed.
Lemma testbit_not64 x i : 0 <= i -> Z.testbit (not64 x) i = xorb (Z.testbit x i) (i <? 64).
Proof. intros. unfold not64. rewrite Z.lxor_spec, testbit_mask by lia. done. Qed.
Lemma testbit_pow2 n i : 0 <= n -> Z.testbit (2 ^ n) i = (i =? n).
Proof. intros. rewrite Z.pow2_bits_eqb by lia. apply Z.eqb_sym. Qed.

#[export] Hint Rewrite Z.land_spec Z.lor_spec Z.lxor_spec Z.shiftl_spec Z.shiftr_spec
  Z.bits_0 using lia : bits.
#[export] Hint Rewrite testbit_mask testbit_not64 testbit_pow2 using lia : bits.

(** Equality of words, bit by bit; the remaining goals speak of one bit [i]. *)
Ltac bit_intro i := apply Z.bits_inj'; intros i ?; autorewrite with bits.

Lemma land_low n x : 0 <= n -> Z.land x (2 ^ n - 1) = x mod 2 ^ n.
Proof. intros. rewrite <- Z.land_ones, Z.ones_equiv by lia. f_equal. Qed.

(** A word whose bits from [n] on are zero is below [2^n]. *)
Lemma bits_bound n z :
  0 <= n -> 0 <= z -> (forall i, n <= i -> Z.testbit z i = false) -> 0 <= z < 2 ^ n.
Proof.
  intros Hn Hz Hb. split; [done|].
  destruct (Z.eq_dec z 0) as [->|Hnz]; [lia|].
  apply Z.log2_lt_pow2; [lia|].
  destruct (Z.lt_ge_cases (Z.log2 z) n) as [|Hge]; [done|exfalso].
  specialize (Hb _ Hge). rewrite Z.bit_log2 in Hb; [done|lia].
Qed.

Lemma land_bound_r x m n : 0 <= m < 2 ^ n -> 0 <= n -> 0 <= Z.land x m < 2 ^ n.
Proof.
  intros Hm Hn. apply bits_bound; [done|apply Z.land_nonneg; lia|].
  intros i Hi. rewrite Z.land_spec, (testbit_high n m) by lia. apply andb_false_r.
Qed.

Lemma lor_bound x y n : 0 <= x < 2 ^ n -> 0 <= y < 2 ^ n -> 0 <= n -> 0 <= Z.lor x y < 2 ^ n.
Proof.
  intros Hx Hy Hn. apply bits_bound; [done|apply Z.lor_nonneg; lia|].
  intros i Hi. rewrite Z.lor_spec, !(testbit_high n) by lia. done.
Qed.

(** Disjoint bit ranges: [|] is [+]. *)
Lemma lor_add_low n h l : 0 <= n -> 0 <= l < 2 ^ n -> Z.lor (h * 2 ^ n) l = h * 2 ^ n + l.
Proof.
  intros Hn Hl. symmetry. apply Z.add_nocarry_lor. bit_intro i.
  rewrite Z.mul_pow2_bits by lia. destruct (Z.lt_ge_cases i n).
  - rewrite (Z.testbit_neg_r h (i - n)) by lia. done.
  - rewrite (testbit_high n l) by lia. apply andb_false_r.
Qed.

(** ** Results of C functions that search an array *)

(** Index of the first element satisfying [f], -1 when there is none. *)
Fixpoint find_index {A} (f : A -> bool) (l : list A) (i : Z) : Z :=
  match l with
  | [] => -1
  | x :: l => if f x then i else find_index f l (i + 1)
  end.

Lemma find_index_spec {A} (f : A -> bool) l i :
  (find_index f l i = -1 /\ Forall (fun x => f x = false) l) \/
  (exists n x, find_index f l i = i + Z.of_nat n /\ l !! n = Some x /\ f x = true /\
     Forall (fun x => f x = false) (take n l)).
Proof.
  revert i; induction l as [|y l IH]; intros i; simpl; [left; done|].
  destruct (f y) eqn:Hy.
  - right. exists 0%nat, y. repeat split; auto. lia.
  - destruct (IH (i + 1)) as [[-> ?]|(n & x & -> & ? & ? & ?)].
    + left; auto.
    + right. exists (S n), x. repeat split; simpl; auto. lia.
Qed.

(** ** Counting *)

(** How many elements of a list satisfy a test. *)
Fixpoint tally {A} (f : A -> bool) (l : list A) : Z :=
  match l with [] => 0 | x :: l => (if f x then 1 else 0) + tally f l end.
Lemma tally_insert {A} (f : A -> bool) l i x y : l !! i = Some x ->
  tally f (<[i := y]> l) = tally f l - (if f x then 1 else 0) + (if f y then 1 else 0).
Proof.
  revert i. induction l as [|z l IH]; intros [|i] E; try done.
  - injection E as ->. change (<[0%nat := y]> (x :: l)) with (y :: l). cbn [tally]. lia.
  - change (<[S i := y]> (z :: l)) with (z :: <[i := y]> l). cbn [tally]. rewrite (IH i) by done. lia.
Qed.
Lemma tally_bound {A} (f : A -> bool) l : 0 <= tally f l <= Z.of_nat (length l).
Proof. induction l as [|x l IH]; cbn; [lia|]. destruct (f x); lia. Qed.
Lemma tally_pos {A} (f : A -> bool) l x : x ∈ l -> f x = true -> 0 < tally f l.
Proof.
  intros H Hf. induction H as [x l|x z l _ IH]; cbn.
  - rewrite Hf. pose proof (tally_bound f l). lia.
  - specialize (IH Hf). destruct (f z); lia.
Qed.
Lemma tally_zero {A} (f : A -> bool) l : tally f l = 0 -> forall x, x ∈ l -> f x = false.
Proof. intros H x Hin. destruct (f x) eqn:E; [|done]. pose proof (tally_pos f l x Hin E). lia. Qed.

(** ** Small tactics *)

(** Case analysis on the Boolean test a C condition compiles to. *)
Ltac case_bool :=
  match goal with
  | |- context [if (?a =? ?b) then _ else _] => destruct (Z.eqb_spec a b)
  | |- context [if (?a <? ?b) then _ else _] => destruct (Z.ltb_spec a b)
  | |- context [if (?a <=? ?b) then _ else _] => destruct (Z.leb_spec a b)
  | |- context [if ?b then _ else _] => destruct b eqn:?
  end.
Ltac split_and_all := repeat match goal with |- _ /\ _ => split end.
