(* ===== verification/Machine.v ===== *)
(** The effects of the C code: a state monad whose outcomes also cover undefined
    behaviour, a computation that never returns, and the death of the process
    between two stores; its weakest-precondition calculus; and the glibc robust
    recursive mutex that the shared allocator relies on. *)
From S2P Require Import Prelude.

(** ** Outcomes *)

(** [Ret a s]: returns [a] with state [s].  [Fault]: access outside the memory
    the model maps (undefined behaviour in C).  [Hang]: waits forever on a lock,
    or a loop ran out of its fuel.  [Crash s]: the process died, [s] is the state
    the survivors see. *)
Inductive outcome (S A : Type) : Type :=
  | Ret (a : A) (s : S)
  | Fault
  | Hang
  | Crash (s : S).
Arguments Ret {S A}. Arguments Fault {S A}. Arguments Hang {S A}. Arguments Crash {S A}.

Definition M (S A : Type) : Type := S -> outcome S A.

#[global] Instance M_ret S : MRet (M S) := fun A a s => Ret a s.
#[global] Instance M_bind S : MBind (M S) := fun A B f m s =>
  match m s with
  | Ret a s' => f a s'
  | Fault => Fault
  | Hang => Hang
  | Crash s' => Crash s'
  end.

Definition get {S} : M S S := fun s => Ret s s.
Definition gets {S A} (f : S -> A) : M S A := fun s => Ret (f s) s.
Definition modify {S} (f : S -> S) : M S unit := fun s => Ret tt (f s).
Definition fault {S A} : M S A := fun _ => Fault.
Definition hang {S A} : M S A := fun _ => Hang.

(** C's [if (!c) return r; k] *)
Definition ensure {S A} (c : M S bool) (r k : M S A) : M S A :=
  b ← c; if (b : bool) then k else r.
Notation "'unless' c 'return' r ';;' k" := (ensure c r k)
  (at level 100, c at level 99, r at level 99, k at level 200, right associativity,
   format "'unless'  c  'return'  r  ';;' '//' k").

(** The value a run returns, when it returns. *)
Definition result {S A} (o : outcome S A) : option A :=
  match o with Ret a _ => Some a | _ => None end.
Definition final {S A} (o : outcome S A) : option S :=
  match o with Ret _ s => Some s | _ => None end.

(** ** Weakest preconditions *)

(** [wp m C Q s]: from [s] the run of [m] neither faults nor hangs; if it
    returns [a] in [s'] then [Q a s']; if the process dies in [s'] then [C s']. *)
Definition wp {S A} (m : M S A) (C : S -> Prop) (Q : A -> S -> Prop) (s : S) : Prop :=
  match m s with
  | Ret a s' => Q a s'
  | Crash s' => C s'
  | Fault | Hang => False
  end.

Section wp_rules.
Context {S : Type}.
Implicit Types (C : S -> Prop) (s : S).

Lemma wp_ret {A} (a : A) C (Q : A -> S -> Prop) s : Q a s -> wp (mret a) C Q s.
Proof. done. Qed.

Lemma wp_bind {A B} (m : M S A) (f : A -> M S B) C Q s :
  wp m C (fun a => wp (f a) C Q) s -> wp (m ≫= f) C Q s.
Proof. unfold wp, mbind, M_bind. by destruct (m s). Qed.

Lemma wp_mono {A} (m : M S A) C C' (Q Q' : A -> S -> Prop) s :
  wp m C Q s -> (forall s', C s' -> C' s') -> (forall a s', Q a s' -> Q' a s') ->
  wp m C' Q' s.
Proof. unfold wp. destruct (m s); auto. Qed.

Lemma wp_gets {A} (f : S -> A) C (Q : A -> S -> Prop) s : Q (f s) s -> wp (gets f) C Q s.
Proof. done. Qed.
Lemma wp_modify (f : S -> S) C (Q : unit -> S -> Prop) s : Q tt (f s) -> wp (modify f) C Q s.
Proof. done. Qed.

(** What a verified run that returned satisfies. *)
Lemma wp_returns {A} (m : M S A) C Q s a s' : wp m C Q s -> m s = Ret a s' -> Q a s'.
Proof. unfold wp. intros H E. by rewrite E in H. Qed.
Lemma wp_crashes {A} (m : M S A) C Q s s' : wp m C Q s -> m s = Crash s' -> C s'.
Proof. unfold wp. intros H E. by rewrite E in H. Qed.
End wp_rules.

(** ** The pthread mutex of the shared pool

    [PTHREAD_MUTEX_RECURSIVE], [PTHREAD_MUTEX_ROBUST], [PTHREAD_PROCESS_SHARED],
    as glibc documents it: relocking by the owner counts; when the owner dies the
    next locker gets [EOWNERDEAD] and the mutex stays inconsistent until
    [pthread_mutex_consistent]; unlocking it while inconsistent makes it
    unusable ([ENOTRECOVERABLE]). *)
Record pmutex := Mutex {
  mx_owner : Z;              (* 0: free *)
  mx_count : Z;
  mx_dead : bool;            (* previous owner died, state not yet consistent *)
  mx_unrecoverable : bool }.

Definition mutex_free : pmutex := Mutex 0 0 false false.

Definition EPERM := 1.
Definition EBUSY := 16.
Definition EINVAL := 22.
Definition EOWNERDEAD := 130.
Definition ENOTRECOVERABLE := 131.

(** [None]: the caller blocks. *)
Definition mutex_lock (self : Z) (m : pmutex) : option (Z * pmutex) :=
  if mx_unrecoverable m then Some (ENOTRECOVERABLE, m)
  else if mx_owner m =? self then
    Some (0, Mutex self (mx_count m + 1) (mx_dead m) false)
  else if mx_owner m =? 0 then
    Some (if mx_dead m then EOWNERDEAD else 0, Mutex self 1 (mx_dead m) false)
  else None.

Definition mutex_trylock (self : Z) (m : pmutex) : Z * pmutex :=
  match mutex_lock self m with
  | Some r => r
  | None => (EBUSY, m)
  end.

Definition mutex_consistent (self : Z) (m : pmutex) : Z * pmutex :=
  if (mx_owner m =? self) && mx_dead m
  then (0, Mutex (mx_owner m) (mx_count m) false (mx_unrecoverable m))
  else (EINVAL, m).

Definition mutex_unlock (self : Z) (m : pmutex) : Z * pmutex :=
  if negb (mx_owner m =? self) then (EPERM, m)
  else if 1 <? mx_count m then
    (0, Mutex (mx_owner m) (mx_count m - 1) (mx_dead m) (mx_unrecoverable m))
  else (0, Mutex 0 0 (mx_dead m) (mx_dead m)).

(** The kernel's robust list: what happens to a mutex when [pid] dies. *)
Definition mutex_owner_died (pid : Z) (m : pmutex) : pmutex :=
  if mx_owner m =? pid then Mutex 0 0 true (mx_unrecoverable m) else m.

Lemma mutex_lock_unlock self m m' :
  mx_owner m = 0 -> mx_count m = 0 -> mx_dead m = false -> mx_unrecoverable m = false ->
  self <> 0 -> mutex_lock self m = Some (0, m') -> mutex_unlock self m' = (0, m).
Proof.
  destruct m as [o c d u]; cbn; intros -> -> -> -> Hs.
  unfold mutex_lock; cbn [mx_unrecoverable mx_owner mx_count mx_dead].
  destruct (Z.eqb_spec 0 self); [congruence|]. intros H. injection H as <-.
  unfold mutex_unlock; cbn [mx_unrecoverable mx_owner mx_count mx_dead].
  by rewrite Z.eqb_refl.
Qed.
