(* ===== verification/Errno.v ===== *)
(** Error numbers: those of [errno.h] that the library uses, the library's own
    ([libsrpc_errno.h]) and their table of messages ([libsrpc_errno.c]). *)
From Stdlib Require Import String.
From S2P Require Import Prelude Machine.
#[local] Open Scope Z_scope.

(** ** Codes of the system (Linux, x86-64); [Machine] has those of the mutex *)

Definition EINTR := 4.
Definition EBADF := 9.
Definition EAGAIN := 11.
Definition ENOMEM := 12.
Definition EEXIST := 17.
Definition ENOSPC := 28.
Definition EBADMSG := 74.
Definition EBADFD := 77.
Definition EAFNOSUPPORT := 97.
Definition ETIMEDOUT := 110.
Definition EALREADY := 114.

(** ** The library's codes *)

Definition MAX_ERRNO := 4095.
Definition ELIBSRPC_START := MAX_ERRNO.
Definition ELIBNOINIT := ELIBSRPC_START + 1.
Definition ESHMNOINIT := ELIBSRPC_START + 2.
Definition ERPCDISABLE := ELIBSRPC_START + 3.
Definition ENOREGFUN := ELIBSRPC_START + 4.
Definition ERECURSIVE := ELIBSRPC_START + 5.
Definition ECANCELLED := ELIBSRPC_START + 6.
Definition ENOTAVAILABLE := ELIBSRPC_START + 7.
Definition ERPCWAITIMEDOUT := ELIBSRPC_START + 8.
Definition ENOTFOUND := ELIBSRPC_START + 9.
Definition EPROCDESTROYED := ELIBSRPC_START + 10.
Definition EINVALREQUEST := ELIBSRPC_START + 11.
Definition EINVALRESPONSE := ELIBSRPC_START + 12.
Definition EINVALPROC := ELIBSRPC_START + 13.
Definition LIBSRPC_ERRNO_MAX := ELIBSRPC_START + 14.

(** [SRPC_ERRNO_LIST]: the list both the enumeration and the table expand. *)
Definition SRPC_ERRNO_LIST : list (Z * string) :=
  [ (ELIBNOINIT, "libsrpc no init"%string);
    (ESHMNOINIT, "shared memory no init"%string);
    (ERPCDISABLE, "rpc disabled"%string);
    (ENOREGFUN, "no registered function"%string);
    (ERECURSIVE, "Recursive RPC calls are prohibited"%string);
    (ECANCELLED, "RPC call cancelled"%string);
    (ENOTAVAILABLE, "Not available"%string);
    (ERPCWAITIMEDOUT, "RPC wait timeout"%string);
    (ENOTFOUND, "Not found"%string);
    (EPROCDESTROYED, "Process destroyed"%string);
    (EINVALREQUEST, "Invalid request"%string);
    (EINVALRESPONSE, "Invalid response"%string);
    (EINVALPROC, "Invalid process"%string) ].

(** [errno2str_t] and the array built by designated initialisers: the entries no
    initialiser names are zero, with a NULL [str]. *)
Record errno2str_t := Errno2str { err : Z; str : option string }.
Definition errno2str : list errno2str_t :=
  foldr (fun '(ecod, estr) t => <[Z.to_nat (ecod - ELIBSRPC_START) := Errno2str ecod (Some estr)]> t)
    (replicate (S (length SRPC_ERRNO_LIST)) (Errno2str 0 None)) SRPC_ERRNO_LIST.

(** [libsrpc_strerror]; [strerror] is the C library's. [None] outside stands for a
    read past the array, [Some None] for a NULL pointer. *)
Definition libsrpc_strerror (strerror : Z -> string) (errnum : Z) : option (option string) :=
  if errnum <=? ELIBSRPC_START then Some (Some (strerror errnum))
  else if LIBSRPC_ERRNO_MAX <=? errnum then Some (Some "Unknown error code"%string)
  else str <$> errno2str !! Z.to_nat (errnum - ELIBSRPC_START).

(** ** The thread's error number *)

Definition libsrpc_errno_clear : M Z unit := modify (fun _ => 0).
Definition libsrpc_errno_set (errnum : Z) : M Z unit := modify (fun _ => errnum).
Definition libsrpc_errno_get : M Z Z := gets (fun e => e).

Lemma errno_list_range : Forall (fun x => MAX_ERRNO < x.1 < LIBSRPC_ERRNO_MAX) SRPC_ERRNO_LIST.
Proof. repeat constructor; done. Qed.

(** Every code of the list finds its own message in the table. *)
Lemma errno2str_entries :
  Forall (fun x => errno2str !! Z.to_nat (x.1 - ELIBSRPC_START) = Some (Errno2str x.1 (Some x.2)))
    SRPC_ERRNO_LIST.
Proof. repeat constructor; vm_compute; reflexivity. Qed.

(** The codes of the list are consecutive, so that the table has no hole. *)
Lemma errno_list_codes :
  (fun x => x.1) <$> SRPC_ERRNO_LIST = seqZ (ELIBSRPC_START + 1) (LIBSRPC_ERRNO_MAX - ELIBSRPC_START - 1).
Proof. vm_compute. reflexivity. Qed.

(** For every error number, of the library or not, [libsrpc_strerror] reads inside
    its table and returns a string, never NULL; for a code of the library it is
    the message the list declares for that code, and the codes are pairwise
    distinct, above every [errno] value. *)
Theorem strerror_total strerror e :
  exists s, libsrpc_strerror strerror e = Some (Some s) /\
    (e <= MAX_ERRNO -> s = strerror e) /\
    (MAX_ERRNO < e < LIBSRPC_ERRNO_MAX -> (e, s) ∈ SRPC_ERRNO_LIST) /\
    (forall s', (e, s') ∈ SRPC_ERRNO_LIST -> s' = s /\ MAX_ERRNO < e < LIBSRPC_ERRNO_MAX).
Proof.
  pose proof errno_list_range as Hr. rewrite Forall_forall in Hr.
  pose proof errno2str_entries as Ht. rewrite Forall_forall in Ht.
  assert (forall s', (e, s') ∈ SRPC_ERRNO_LIST -> libsrpc_strerror strerror e = Some (Some s')) as Hs.
  { intros s' Hs. specialize (Hr _ Hs). specialize (Ht _ Hs). simpl fst in *. unfold libsrpc_strerror.
    rewrite (proj2 (Z.leb_gt _ _)) by (unfold ELIBSRPC_START; lia).
    rewrite (proj2 (Z.leb_gt _ _)) by lia. by rewrite Ht. }
  destruct (decide (MAX_ERRNO < e < LIBSRPC_ERRNO_MAX)) as [He|He].
  - assert (e ∈ ((fun x => x.1) <$> SRPC_ERRNO_LIST)) as Hin.
    { rewrite errno_list_codes. apply elem_of_seqZ. unfold ELIBSRPC_START, MAX_ERRNO in *. lia. }
    apply list_elem_of_fmap in Hin as ([e' s] & -> & Hin). simpl in He |- *. exists s. split; [by apply Hs|].
    split; [lia|]. split; [done|]. intros s' Hs'. apply Hs in Hs'.
    rewrite (Hs s Hin) in Hs'. by injection Hs' as ->.
  - unfold libsrpc_strerror. destruct (Z.leb_spec e ELIBSRPC_START) as [H|H].
    + eexists. split; [done|]. split; [done|]. split; [lia|]. intros s' Hs'. apply Hr in Hs'. simpl in Hs'. lia.
    + rewrite (proj2 (Z.leb_le _ _)) by (unfold ELIBSRPC_START in H; lia).
      eexists. split; [done|]. unfold ELIBSRPC_START in H. split; [lia|]. split; [lia|].
      intros s' Hs'. apply Hr in Hs'. simpl in Hs'. lia.
Qed.
