(* ===== verification/Bytes.v ===== *)
(** Raw memory of an object as a list of bytes: C's [memcpy] into and out of a
    buffer and the little-endian words stored in it. *)
From S2P Require Import Prelude Machine.

(** ** Slices *)

(** The [n] bytes from offset [off] on. *)
Definition slice {A} (off n : nat) (b : list A) : list A := take n (drop off b).
(** [b] with the bytes from [off] on overwritten by [v]. *)
Definition splice {A} (off : nat) (v b : list A) : list A :=
  take off b ++ v ++ drop (off + length v) b.

Section slices.
Context {A : Type}.
Implicit Types (b v w : list A).

Lemma length_splice off v b : (off + length v <= length b)%nat -> length (splice off v b) = length b.
Proof. intros. unfold splice. rewrite !length_app, length_take, length_drop. lia. Qed.

Lemma lookup_splice off v b i :
  (off + length v <= length b)%nat ->
  splice off v b !! i =
    if decide (off <= i < off + length v)%nat then v !! (i - off)%nat else b !! i.
Proof.
  intros Hb. unfold splice. destruct (decide _) as [Hi|Hi].
  - rewrite lookup_app_r by (rewrite length_take; lia).
    rewrite lookup_app_l by (rewrite length_take; lia). f_equal. rewrite length_take. lia.
  - destruct (decide (i < off)%nat).
    + rewrite lookup_app_l by (rewrite length_take; lia). by rewrite lookup_take_lt by lia.
    + rewrite lookup_app_r by (rewrite length_take; lia).
      rewrite lookup_app_r by (rewrite length_take; lia).
      rewrite lookup_drop, length_take. f_equal. lia.
Qed.

Lemma lookup_slice off n b i :
  slice off n b !! i = if decide (i < n)%nat then b !! (off + i)%nat else None.
Proof.
  unfold slice. destruct (decide _); [by rewrite lookup_take_lt, lookup_drop by done|].
  apply lookup_take_ge. lia.
Qed.
Lemma length_slice off n b : (off + n <= length b)%nat -> length (slice off n b) = n.
Proof. intros. unfold slice. rewrite length_take, length_drop. lia. Qed.

(** What was copied in is what is read back. *)
Lemma slice_splice off v b n :
  (off + length v <= length b)%nat -> n = length v -> slice off n (splice off v b) = v.
Proof.
  intros Hb ->. apply list_eq. intros i. rewrite lookup_slice, lookup_splice by done.
  destruct (decide (i < length v)%nat) as [Hi|Hi].
  - rewrite decide_True by lia. f_equal. lia.
  - symmetry. apply lookup_ge_None. lia.
Qed.

(** A copy does not touch the bytes outside its target. *)
Lemma slice_splice_ne off v b off' n :
  (off + length v <= length b)%nat -> (off' + n <= off \/ off + length v <= off')%nat ->
  slice off' n (splice off v b) = slice off' n b.
Proof.
  intros Hb Hd. apply list_eq. intros i. rewrite !lookup_slice.
  destruct (decide (i < n)%nat); [|done]. rewrite lookup_splice by done.
  by rewrite decide_False by lia.
Qed.

(** Reading inside a copied region reads inside what was copied. *)
Lemma slice_slice off n off' n' b :
  (off' + n' <= n)%nat -> slice off' n' (slice off n b) = slice (off + off') n' b.
Proof.
  intros. apply list_eq. intros i. rewrite !lookup_slice.
  destruct (decide (i < n')%nat); [|done]. rewrite decide_True by lia. f_equal. lia.
Qed.
End slices.

(** ** Words *)

Definition word_bytes (n : nat) (v : Z) : list Z := Z_to_little_endian (Z.of_nat n) 8 v.
Definition word_at (n off : nat) (b : list Z) : Z := little_endian_to_Z 8 (slice off n b).
Definition set_word (n off : nat) (v : Z) (b : list Z) : list Z := splice off (word_bytes n v) b.

Lemma length_word_bytes n v : length (word_bytes n v) = n.
Proof. unfold word_bytes. pose proof (length_Z_to_little_endian (Z.of_nat n) 8 v). lia. Qed.


Lemma length_set_word n off v b : (off + n <= length b)%nat -> length (set_word n off v b) = length b.
Proof. intros. unfold set_word. apply length_splice. by rewrite length_word_bytes. Qed.

Lemma word_at_set n off v b :
  (off + n <= length b)%nat -> word_at n off (set_word n off v b) = v mod 2 ^ (8 * Z.of_nat n).
Proof.
  intros. unfold word_at, set_word. rewrite slice_splice; rewrite ?length_word_bytes; try done.
  unfold word_bytes. rewrite little_endian_to_Z_to_little_endian by lia. do 2 f_equal. lia.
Qed.
Lemma word_at_set_small n off v b :
  (off + n <= length b)%nat -> 0 <= v < 2 ^ (8 * Z.of_nat n) -> word_at n off (set_word n off v b) = v.
Proof. intros. rewrite word_at_set by done. by apply Z.mod_small. Qed.

Lemma word_at_set_ne n off v n' off' b :
  (off + n <= length b)%nat -> (off' + n' <= off \/ off + n <= off')%nat ->
  word_at n' off' (set_word n off v b) = word_at n' off' b.
Proof.
  intros. unfold word_at, set_word. f_equal. apply slice_splice_ne; by rewrite length_word_bytes.
Qed.
Lemma word_at_splice_ne v off n' off' b :
  (off + length v <= length b)%nat -> (off' + n' <= off \/ off + length v <= off')%nat ->
  word_at n' off' (splice off v b) = word_at n' off' b.
Proof. intros. unfold word_at. f_equal. by apply slice_splice_ne. Qed.
Lemma slice_set_word_ne n off v off' n' b :
  (off + n <= length b)%nat -> (off' + n' <= off \/ off + n <= off')%nat ->
  slice off' n' (set_word n off v b) = slice off' n' b.
Proof. intros. unfold set_word. apply slice_splice_ne; by rewrite length_word_bytes. Qed.

Lemma word_at_bound n off b : Forall (fun x => 0 <= x < 2 ^ 8) b -> (off + n <= length b)%nat ->
  0 <= word_at n off b < 2 ^ (8 * Z.of_nat n).
Proof.
  intros Hb Hl. unfold word_at. pose proof (length_slice off n b Hl) as El.
  pose proof (little_endian_to_Z_bound 8 (slice off n b)) as H. rewrite El in H.
  rewrite (Z.mul_comm 8). apply H; [lia|]. unfold slice. by apply Forall_take, Forall_drop.
Qed.
