(* ===== verification/TlsfTypes.v ===== *)
(** The data of the transactional TLSF allocator: constants and layout
    ([tlsf_txn.h], [tlsf_internal.h]), the control structure and the pool memory
    as a state record, block-header fields, the packed [sig_dc] word, the
    [uid[12]] owner array. *)
From S2P Require Import Prelude Machine.

(** ** Constants *)
Definition FLI_MAX := 41.
Definition SLI_COUNT := 4.
Definition SLI_SIZE := Z.shiftl 1 SLI_COUNT.
Definition ALIGN_SIZE := 64.
Definition MIN_USER_SIZE := 64.
Definition MIN_BLOCK_SZ := 128.
Definition MAX_BUL_ENTRIES := 64.
Definition MAX_POOL_SIZE := Z.shiftl 1 40.
Definition MIN_POOL_SIZE := 8 * 1024.
Definition TLSF_FORMAT_VERSION := 0x00040000.
Definition BLOCK_FREE := Z.shiftl 1 0.
Definition BLOCK_PREV_FREE := Z.shiftl 1 1.
Definition FLAG_MASK := 0x3.
Definition SIZE_MASK := not64 FLAG_MASK.
Definition TLSF_BLOCK_MAGIC48 := 0xA5C3E7F1B9D2.
Definition SIG_DC_SIG_SHIFT := 16.
Definition SIG_DC_DC_BIT := Z.shiftl 1 15.
Definition SIG_DC_TYPE_MASK := 0x7FFF.
Definition TLSF_MAX_OWNERS := 12.
(** [sizeof(block_header_t)], fixed by the [_Static_assert] of the source. *)
Definition HEADER_SIZE := 64.

Module Err.
Definition OK := 0.
Definition LOCK_FAILED := 1.
Definition CORRUPTION_UNRECOVERABLE := 2.
Definition BUL_OVERFLOW := 3.
Definition BLOCK_CORRUPTED := 4.
Definition INVALID_PTR := 5.
Definition OUT_OF_MEMORY := 6.
Definition POOL_TOO_SMALL := 7.
Definition UID_FULL := 8.
Definition UID_NOT_FOUND := 9.
Definition UID_INVALID := 10.
Definition NOT_ALLOCATED := 11.
Definition BUSY := 12.
Definition TOO_MANY_OWNERS := 13.
Definition UID_DUPLICATE := 14.
Definition FORMAT_MISMATCH := 15.
End Err.

(** x86-64 layout of [struct tlsf_ctrl]: the only control field whose address is
    ever logged in the BUL is [used_bytes], so its offset is part of the model. *)
Definition USED_BYTES_OFF := 6704.
Definition SIZEOF_TLSF_CTRL := 6720.

(** ** State *)

(** Fields fixed by [tlsf_create]. *)
Record geometry := Geometry {
  format_version : Z;
  pool_start : Z;
  pool_size : Z;
  heap_start : Z;
  heap_size : Z }.

(** The segregated free-list index; absent entries are zero ([memset] in
    [tlsf_create]). *)
Record index := Index {
  matrix : gmap (Z * Z) Z;
  fl_bitmap : Z;
  sl_bitmaps : gmap Z Z }.

(** [txn_context_t] and the [bul[]] array of [(addr, old_value)] records. *)
Record txn_context := Txn {
  stack_top : Z;
  owner_pid : Z;
  txn_epoch : Z;
  bul : gmap Z (Z * Z) }.

(** The calling thread: its thread-local [tlsf_errno], its identity, and the
    number of stores to shared memory it performs before it dies ([None]: it does
    not die). *)
Record thread := Thread {
  tlsf_errno : Z;
  self : Z;
  life : option nat }.

(** [mem] holds the 64-bit words of the pool by address; an absent word is 0. *)
Record tlsf := Tlsf {
  geo : geometry;
  idx : index;
  txn : txn_context;
  mutex : pmutex;
  mem : gmap Z Z;
  thr : thread }.

Definition set_geo g s := Tlsf g (idx s) (txn s) (mutex s) (mem s) (thr s).
Definition set_idx i s := Tlsf (geo s) i (txn s) (mutex s) (mem s) (thr s).
Definition set_txn t s := Tlsf (geo s) (idx s) t (mutex s) (mem s) (thr s).
Definition set_mutex x s := Tlsf (geo s) (idx s) (txn s) x (mem s) (thr s).
Definition set_mem m s := Tlsf (geo s) (idx s) (txn s) (mutex s) m (thr s).
Definition set_thr t s := Tlsf (geo s) (idx s) (txn s) (mutex s) (mem s) t.
Definition set_errno_st e s := set_thr (Thread e (self (thr s)) (life (thr s))) s.
Definition set_life l s := set_thr (Thread (tlsf_errno (thr s)) (self (thr s)) l) s.

Abbreviation TM := (M tlsf).

Definition rdm (m : gmap Z Z) (a : Z) : Z := default 0 (m !! a).
Definition rd (s : tlsf) (a : Z) : Z := rdm (mem s) a.
Definition used_addr (s : tlsf) : Z := pool_start (geo s) + USED_BYTES_OFF.
Definition pool_end (s : tlsf) : Z := pool_start (geo s) + pool_size (geo s).

(** The words the model maps: [used_bytes] and everything from the heap to the
    end of the pool, at aligned addresses. *)
Definition mapped (s : tlsf) (a : Z) : bool :=
  (a mod 8 =? 0) &&
  ((a =? used_addr s) || ((heap_start (geo s) <=? a) && (a + 8 <=? pool_end s))).

(** ** Memory accesses *)

(** One store to shared memory happens; a dying process stops here. *)
Definition tick : TM unit := fun s =>
  match life (thr s) with
  | Some O => Crash s
  | Some (S n) => Ret tt (set_life (Some n) s)
  | None => Ret tt s
  end.

Definition load (a : Z) : TM Z := fun s => if mapped s a then Ret (rd s a) s else Fault.
Definition put (a v : Z) : TM unit := fun s =>
  if mapped s a then Ret tt (set_mem (<[a := u64 v]> (mem s)) s) else Fault.
Definition store (a v : Z) : TM unit :=
  tick ;; put a v.
Definition upd_idx (f : index -> index) : TM unit :=
  tick ;; modify (fun s => set_idx (f (idx s)) s).
Definition upd_txn (f : txn_context -> txn_context) : TM unit :=
  tick ;; modify (fun s => set_txn (f (txn s)) s).
Definition set_errno (e : Z) : TM unit := modify (set_errno_st e).

(** ** Header fields *)
Definition OFF_size_flags := 0.
Definition OFF_sig_dc := 8.
Definition OFF_prev_free := 16.
Definition OFF_next_free := 24.
Definition OFF_uid := 32.
Definition OFF_prev_size := 56.

(** Addresses of header fields wrap like any C pointer computation would. *)
Definition fld (b off : Z) : Z := u64 (b + off).

Definition block_size (b : Z) : TM Z :=
  sf ← load (fld b OFF_size_flags); mret (Z.land sf SIZE_MASK).
Definition block_is_free (b : Z) : TM bool :=
  sf ← load (fld b OFF_size_flags); mret (negb (Z.land sf BLOCK_FREE =? 0)).
Definition block_prev_free (b : Z) : TM bool :=
  sf ← load (fld b OFF_size_flags); mret (negb (Z.land sf BLOCK_PREV_FREE =? 0)).
Definition block_set_size (b size : Z) : TM unit :=
  sf ← load (fld b OFF_size_flags);
  store (fld b OFF_size_flags) (Z.lor (Z.land sf FLAG_MASK) size).
Definition block_next (b : Z) : TM Z := sz ← block_size b; mret (u64 (b + sz)).
Definition block_footer_ptr (b : Z) : TM Z := sz ← block_size b; mret (u64 (b + sz - 8)).
Definition ptr_from_block (b : Z) : Z := u64 (b + HEADER_SIZE).
Definition block_from_ptr (p : Z) : Z := u64 (p - HEADER_SIZE).
Definition block_payload_size (b : Z) : TM Z := sz ← block_size b; mret (u64 (sz - HEADER_SIZE)).
Definition align_up (value alignment : Z) : Z :=
  Z.land (u64 (value + alignment - 1)) (not64 (alignment - 1)).

(** ** [sig_dc] *)
Definition make_sig_dc (dc : bool) (data_type : Z) : Z :=
  Z.lor (Z.lor (Z.shiftl TLSF_BLOCK_MAGIC48 SIG_DC_SIG_SHIFT) (if dc then SIG_DC_DC_BIT else 0))
        (Z.land data_type SIG_DC_TYPE_MASK).
Definition sig_ok (w : Z) : bool := Z.shiftr w SIG_DC_SIG_SHIFT =? TLSF_BLOCK_MAGIC48.
Definition sig_dc_flag (w : Z) : bool := negb (Z.land w SIG_DC_DC_BIT =? 0).
Definition sig_type (w : Z) : Z := u16 (Z.land w SIG_DC_TYPE_MASK).

Definition load_sig_dc (b : Z) : TM Z := load (fld b OFF_sig_dc).
Definition store_sig_dc (b v : Z) : TM unit := store (fld b OFF_sig_dc) v.
Definition check_signature (b : Z) : TM bool := w ← load_sig_dc b; mret (sig_ok w).
Definition get_dc (b : Z) : TM bool := w ← load_sig_dc b; mret (sig_dc_flag w).
Definition get_data_type (b : Z) : TM Z := w ← load_sig_dc b; mret (sig_type w).

(** ** [uid[12]]: four 16-bit slots per word *)
Definition uid_word_addr (b i : Z) : Z := fld b (OFF_uid + (i / 4) * 8).
Definition uid_slot (w i : Z) : Z := Z.land (Z.shiftr w (16 * (i mod 4))) 0xFFFF.
Definition uid_slot_set (w i u : Z) : Z :=
  Z.lor (Z.land w (not64 (Z.shiftl 0xFFFF (16 * (i mod 4)))))
        (Z.shiftl (u16 u) (16 * (i mod 4))).
Definition uid_get (b i : Z) : TM Z :=
  w ← load (uid_word_addr b i); mret (uid_slot w i).
Definition uid_set (b i u : Z) : TM unit :=
  w ← load (uid_word_addr b i); store (uid_word_addr b i) (uid_slot_set w i u).
(** [memset(block->uid, 0, sizeof(block->uid))] *)
Definition uid_clear (b : Z) : TM unit :=
  store (uid_word_addr b 0) 0 ;; store (uid_word_addr b 4) 0 ;; store (uid_word_addr b 8) 0.

(** [for (i = ...; i < 12; i++) if (p(uid[i])) return i; return -1;] *)
Fixpoint uid_scan (n : nat) (i : Z) (b : Z) (p : Z -> bool) : TM Z :=
  match n with
  | O => mret (-1)
  | S n => u ← uid_get b i; if p u then mret i else uid_scan n (i + 1) b p
  end.
Definition uid_find (b uid : Z) : TM Z := uid_scan 12 0 b (fun u => u =? uid).
Definition uid_find_empty (b : Z) : TM Z := uid_scan 12 0 b (fun u => u =? 0).
Fixpoint uid_count_loop (n : nat) (i b count : Z) : TM Z :=
  match n with
  | O => mret count
  | S n =>
      u ← uid_get b i;
      uid_count_loop n (i + 1) b (if negb (u =? 0) then count + 1 else count)
  end.
Definition uid_count (b : Z) : TM Z := uid_count_loop 12 0 b 0.
Fixpoint uid_get_first_loop (n : nat) (i b : Z) : TM Z :=
  match n with
  | O => mret 0
  | S n => u ← uid_get b i; if negb (u =? 0) then mret u else uid_get_first_loop n (i + 1) b
  end.
Definition uid_get_first (b : Z) : TM Z := uid_get_first_loop 12 0 b.
