(* ===== verification/TlsfBul.v ===== *)
(** The Binary Undo Log and the lock of the allocator ([tlsf_txn.c]): logging a
    word before it is changed, committing, rolling back, and entering the pool
    through the robust mutex with automatic recovery. *)
From S2P Require Import Prelude Machine TlsfTypes.

(** ** Operations *)

Definition set_stack_top v t := Txn v (owner_pid t) (txn_epoch t) (bul t).
Definition set_owner_pid v t := Txn (stack_top t) v (txn_epoch t) (bul t).
Definition incr_epoch t := Txn (stack_top t) (owner_pid t) (u64 (txn_epoch t + 1)) (bul t).
Definition bul_entry (t : txn_context) (i : Z) : Z * Z := default (0, 0) (bul t !! i).
Definition set_bul_addr i a t :=
  Txn (stack_top t) (owner_pid t) (txn_epoch t) (<[i := (a, (bul_entry t i).2)]> (bul t)).
Definition set_bul_old i v t :=
  Txn (stack_top t) (owner_pid t) (txn_epoch t) (<[i := ((bul_entry t i).1, v)]> (bul t)).

Definition validate_pointer_st (s : tlsf) (p : Z) : bool :=
  (pool_start (geo s) <=? p) && (p <? pool_end s).
Definition validate_pointer (p : Z) : TM bool := gets (fun s => validate_pointer_st s p).
Definition validate_control_integrity : TM bool := mret true.

(** The [while] loop of [bul_recover_internal] from [top = n] down to 0, and what
    follows it. *)
Fixpoint bul_rollback (n : nat) : TM bool :=
  match n with
  | O => upd_txn (set_stack_top 0) ;; validate_control_integrity
  | S k =>
      rec ← gets (fun s => bul_entry (txn s) (Z.of_nat k));
      ok ← validate_pointer rec.1;
      if negb ok then mret false
      else store rec.1 rec.2 ;; bul_rollback k
  end.

Definition bul_recover_internal : TM bool :=
  top ← gets (fun s => stack_top (txn s));
  if top =? 0 then mret true
  else if MAX_BUL_ENTRIES <=? top then mret false
  else bul_rollback (Z.to_nat top).

Definition bul_push (addr old_value : Z) : TM bool :=
  top ← gets (fun s => stack_top (txn s));
  if MAX_BUL_ENTRIES <=? top then
    _ ← bul_recover_internal;
    set_errno Err.BUL_OVERFLOW ;; mret false
  else
    upd_txn (set_bul_addr top addr) ;;
    upd_txn (set_bul_old top old_value) ;;
    upd_txn (set_stack_top (u32 (top + 1))) ;;
    mret true.

Definition bul_push_word (addr : Z) : TM bool := old ← load addr; bul_push addr old.

(** The logged word is the one of the three [uid] words that holds the slot. *)
Definition bul_push_uid_word (block uid_index : Z) : TM bool :=
  bul_push_word (u64 (block + (32 + (uid_index / 4) * 8))).

Definition bul_commit : TM unit := upd_txn (set_stack_top 0) ;; upd_txn incr_epoch.

(** ** The mutex, as the allocator calls it *)
Definition on_mutex (f : Z -> pmutex -> option (Z * pmutex)) : TM Z := fun s =>
  match f (self (thr s)) (mutex s) with
  | Some (rc, m) => Ret rc (set_mutex m s)
  | None => Hang
  end.
Definition pthread_mutex_lock : TM Z := tick ;; on_mutex mutex_lock.
Definition pthread_mutex_trylock : TM Z :=
  tick ;; on_mutex (fun me m => Some (mutex_trylock me m)).
Definition pthread_mutex_consistent : TM Z :=
  tick ;; on_mutex (fun me m => Some (mutex_consistent me m)).
Definition pthread_mutex_unlock : TM Z :=
  tick ;; on_mutex (fun me m => Some (mutex_unlock me m)).

Definition getpid : TM Z := gets (fun s => self (thr s)).

Definition lock_and_recover_end (rc : Z) : TM Z :=
  if negb (rc =? 0) then set_errno Err.LOCK_FAILED ;; mret Err.LOCK_FAILED
  else
    pid ← getpid;
    upd_txn (set_owner_pid pid) ;;
    set_errno Err.OK ;; mret Err.OK.

(** [lock_and_recover]: entry of every public operation. *)
Definition lock_and_recover : TM Z :=
  fmt ← gets (fun s => format_version (geo s));
  if negb (fmt =? TLSF_FORMAT_VERSION) then
    set_errno Err.FORMAT_MISMATCH ;; mret Err.FORMAT_MISMATCH
  else
    rc ← pthread_mutex_lock;
    if rc =? EOWNERDEAD then
      ok ← bul_recover_internal;
      if negb ok then
        pthread_mutex_unlock ;;
        set_errno Err.CORRUPTION_UNRECOVERABLE ;; mret Err.CORRUPTION_UNRECOVERABLE
      else
        rc ← pthread_mutex_consistent;
        lock_and_recover_end rc
    else lock_and_recover_end rc.

Definition tlsf_unlock (tlsf : Z) : TM Z :=
  if tlsf =? NULL then mret (- Err.INVALID_PTR)
  else
    rc ← pthread_mutex_unlock;
    if negb (rc =? 0) then mret (- Err.LOCK_FAILED) else mret 0.

Definition tlsf_lock_end (rc : Z) : TM Z :=
  if negb (rc =? 0) then set_errno Err.LOCK_FAILED ;; mret (- Err.LOCK_FAILED)
  else
    pid ← getpid;
    upd_txn (set_owner_pid pid) ;;
    set_errno Err.OK ;; mret 0.

Definition tlsf_lock (tlsf : Z) : TM Z :=
  if tlsf =? NULL then mret (- Err.INVALID_PTR)
  else
    fmt ← gets (fun s => format_version (geo s));
    if negb (fmt =? TLSF_FORMAT_VERSION) then mret (- Err.FORMAT_MISMATCH)
    else
      rc ← pthread_mutex_lock;
      if rc =? EOWNERDEAD then
        ok ← bul_recover_internal;
        if negb ok then
          pthread_mutex_unlock ;;
          set_errno Err.CORRUPTION_UNRECOVERABLE ;; mret (- Err.CORRUPTION_UNRECOVERABLE)
        else
          rc ← pthread_mutex_consistent;
          tlsf_lock_end rc
      else tlsf_lock_end rc.

(** [tlsf_bul_recover] and its non-blocking twin share everything after the
    lock attempt. *)
Definition bul_recover_locked (rc : Z) : TM Z :=
  if rc =? EOWNERDEAD then
    ok ← bul_recover_internal;
    if negb ok then pthread_mutex_unlock ;; mret (- Err.CORRUPTION_UNRECOVERABLE)
    else pthread_mutex_consistent ;; pthread_mutex_unlock ;; mret 0
  else if negb (rc =? 0) then mret (- Err.LOCK_FAILED)
  else
    top ← gets (fun s => stack_top (txn s));
    if 0 <? top then
      ok ← bul_recover_internal;
      if negb ok then pthread_mutex_unlock ;; mret (- Err.CORRUPTION_UNRECOVERABLE)
      else pthread_mutex_unlock ;; mret 0
    else pthread_mutex_unlock ;; mret 0.

Definition tlsf_bul_recover (tlsf : Z) : TM Z :=
  if tlsf =? NULL then mret (- Err.INVALID_PTR)
  else
    fmt ← gets (fun s => format_version (geo s));
    if negb (fmt =? TLSF_FORMAT_VERSION) then mret (- Err.FORMAT_MISMATCH)
    else rc ← pthread_mutex_lock; bul_recover_locked rc.

Definition tlsf_bul_recover_nb (tlsf : Z) : TM Z :=
  if tlsf =? NULL then mret (- Err.INVALID_PTR)
  else
    fmt ← gets (fun s => format_version (geo s));
    if negb (fmt =? TLSF_FORMAT_VERSION) then mret (- Err.FORMAT_MISMATCH)
    else
      rc ← pthread_mutex_trylock;
      if rc =? EBUSY then mret (- Err.BUSY) else bul_recover_locked rc.

Definition tlsf_get_bul_capacity : Z := MAX_BUL_ENTRIES.
Definition tlsf_get_bul_current_usage (tlsf : Z) : TM Z :=
  if tlsf =? NULL then mret 0 else gets (fun s => stack_top (txn s)).
