(* ===== verification/TlsfHeap.v ===== *)
(** The block-level engine of the TLSF allocator ([tlsf_txn.c]): size classes,
    segregated free lists, block footers, splitting and coalescing. *)
From S2P Require Import Prelude Machine TlsfTypes TlsfBul.

(** ** Size classes *)

(** [__builtin_clzl], [__builtin_ctzll] on a non-zero word *)
Definition clz64 (x : Z) : Z := 63 - Z.log2 x.
Fixpoint ctz_pos (p : positive) : Z :=
  match p with xO p => 1 + ctz_pos p | _ => 0 end.
Definition ctz64 (x : Z) : Z := match x with Zpos p => ctz_pos p | _ => 64 end.

Definition mapping_first_level (size : Z) : Z :=
  if size =? 0 then 0
  else
    let fl := 63 - clz64 size in
    if FLI_MAX <=? fl then FLI_MAX - 1 else fl.

Definition mapping_second_level (size fl : Z) : Z :=
  if fl <? SLI_COUNT then 0
  else Z.land (Z.shiftr size (fl - SLI_COUNT + 1)) (SLI_SIZE - 1).

Definition mapping_search (size : Z) : Z * Z :=
  let fl := mapping_first_level size in
  let sl := mapping_second_level size fl in
  (fl, sl).

Definition request_to_block_size (size : Z) : Z :=
  let payload := align_up size ALIGN_SIZE in
  let payload := if payload <? MIN_USER_SIZE then MIN_USER_SIZE else payload in
  let total := align_up (u64 (payload + HEADER_SIZE)) ALIGN_SIZE in
  if total <? MIN_BLOCK_SZ then MIN_BLOCK_SZ else total.

(** ** Free lists *)

Definition matrix_at (i : index) (fl sl : Z) : Z := default 0 (matrix i !! (fl, sl)).
Definition sl_bitmap_at (i : index) (fl : Z) : Z := default 0 (sl_bitmaps i !! fl).
Definition set_matrix fl sl b i := Index (<[(fl, sl) := b]> (matrix i)) (fl_bitmap i) (sl_bitmaps i).
Definition set_fl_bitmap w i := Index (matrix i) w (sl_bitmaps i).
Definition set_sl_bitmap fl w i := Index (matrix i) (fl_bitmap i) (<[fl := w]> (sl_bitmaps i)).

Definition get_matrix (fl sl : Z) : TM Z := gets (fun s => matrix_at (idx s) fl sl).
Definition get_sl_bitmap (fl : Z) : TM Z := gets (fun s => sl_bitmap_at (idx s) fl).
Definition get_fl_bitmap : TM Z := gets (fun s => fl_bitmap (idx s)).

Definition get_prev_free (b : Z) : TM Z := load (fld b OFF_prev_free).
Definition get_next_free (b : Z) : TM Z := load (fld b OFF_next_free).
Definition set_prev_free (b v : Z) : TM unit := store (fld b OFF_prev_free) v.
Definition set_next_free (b v : Z) : TM unit := store (fld b OFF_next_free) v.

Definition remove_from_free_list (block fl sl : Z) : TM unit :=
  prev ← get_prev_free block;
  (if negb (prev =? NULL) then
     next ← get_next_free block; set_next_free prev next
   else
     next ← get_next_free block; upd_idx (set_matrix fl sl next)) ;;
  next ← get_next_free block;
  (if negb (next =? NULL) then
     prev ← get_prev_free block; set_prev_free next prev
   else mret tt) ;;
  head ← get_matrix fl sl;
  if head =? NULL then
    slb ← get_sl_bitmap fl;
    upd_idx (set_sl_bitmap fl (Z.land slb (not64 (Z.shiftl 1 sl)))) ;;
    slb ← get_sl_bitmap fl;
    if slb =? 0 then
      flb ← get_fl_bitmap;
      upd_idx (set_fl_bitmap (Z.land flb (not64 (Z.shiftl 1 fl))))
    else mret tt
  else mret tt.

Definition insert_into_free_list (block fl sl : Z) : TM unit :=
  set_prev_free block NULL ;;
  head ← get_matrix fl sl;
  set_next_free block head ;;
  head ← get_matrix fl sl;
  (if negb (head =? NULL) then set_prev_free head block else mret tt) ;;
  upd_idx (set_matrix fl sl block) ;;
  slb ← get_sl_bitmap fl;
  upd_idx (set_sl_bitmap fl (Z.lor slb (Z.shiftl 1 sl))) ;;
  flb ← get_fl_bitmap;
  upd_idx (set_fl_bitmap (Z.lor flb (Z.shiftl 1 fl))).

(** Pure in the index: no store, no memory access. *)
Definition find_suitable_in (i : index) (fl sl : Z) : Z :=
  let sl_mask := Z.land (sl_bitmap_at i fl) (u64 (Z.shiftl (2 ^ 64 - 1) sl)) in
  if negb (sl_mask =? 0) then matrix_at i fl (ctz64 sl_mask)
  else
    let fl_mask := Z.land (fl_bitmap i) (u64 (Z.shiftl (2 ^ 64 - 1) (fl + 1))) in
    if fl_mask =? 0 then NULL
    else
      let fl := ctz64 fl_mask in
      let sl := ctz64 (sl_bitmap_at i fl) in
      matrix_at i fl sl.
Definition find_suitable_block (fl sl : Z) : TM Z := gets (fun s => find_suitable_in (idx s) fl sl).

(** ** Blocks *)

Definition get_size_flags (b : Z) : TM Z := load (fld b OFF_size_flags).
Definition set_size_flags (b v : Z) : TM unit := store (fld b OFF_size_flags) v.
(** [block->size_flags |= m] and [block->size_flags &= ~m] *)
Definition or_flags (b m : Z) : TM unit :=
  sf ← get_size_flags b; set_size_flags b (Z.lor sf m).
Definition clear_flags (b m : Z) : TM unit :=
  sf ← get_size_flags b; set_size_flags b (Z.land sf (not64 m)).
Definition get_prev_size (b : Z) : TM Z := load (fld b OFF_prev_size).
Definition set_prev_size (b v : Z) : TM unit := store (fld b OFF_prev_size) v.

Definition write_block_footer (b : Z) : TM unit :=
  footer ← block_footer_ptr b; sz ← block_size b; store footer sz.

Definition mark_block_free (b : Z) : TM unit := or_flags b BLOCK_FREE ;; write_block_footer b.
Definition mark_block_allocated (b : Z) : TM unit := clear_flags b BLOCK_FREE.

Definition get_pool_end : TM Z := gets pool_end.
Definition get_first_block : TM Z := gets (fun s => heap_start (geo s)).
Definition get_heap_end : TM Z := gets (fun s => heap_start (geo s) + heap_size (geo s)).

Definition split_block (block size : Z) : TM Z :=
  total ← block_size block;
  let remainder := u64 (block + size) in
  set_size_flags remainder (Z.lor (u64 (total - size)) BLOCK_FREE) ;;
  store_sig_dc remainder (make_sig_dc false 0) ;;
  set_prev_free remainder NULL ;;
  set_next_free remainder NULL ;;
  uid_clear remainder ;;
  set_prev_size remainder 0 ;;
  block_set_size block size ;;
  next ← block_next remainder;
  pend ← get_pool_end;
  (if next <? pend then
     or_flags next BLOCK_PREV_FREE ;;
     rsz ← block_size remainder;
     set_prev_size next rsz
   else mret tt) ;;
  write_block_footer remainder ;;
  rsz ← block_size remainder;
  let fl := mapping_first_level rsz in
  rsz ← block_size remainder;
  let sl := mapping_second_level rsz fl in
  insert_into_free_list remainder fl sl ;;
  mret remainder.

Definition coalesce_next (block : Z) : TM unit :=
  next ← block_next block;
  next_size ← block_size next;
  let fl := mapping_first_level next_size in
  let sl := mapping_second_level next_size fl in
  remove_from_free_list next fl sl ;;
  bsz ← block_size block;
  block_set_size block (u64 (bsz + next_size)) ;;
  clear_flags block BLOCK_PREV_FREE ;;
  after ← block_next block;
  pend ← get_pool_end;
  if after <? pend then
    or_flags after BLOCK_PREV_FREE ;;
    bsz ← block_size block;
    set_prev_size after bsz
  else mret tt.

Definition validate_prev_size (block : Z) : TM bool :=
  ps ← get_prev_size block;
  psz ← gets (fun s => pool_size (geo s));
  pst ← gets (fun s => pool_start (geo s));
  pend ← get_pool_end;
  if ps =? 0 then mret false
  else if negb (ps mod ALIGN_SIZE =? 0) then mret false
  else if psz <? ps then mret false
  else
    let prev_addr := u64 (block - ps) in
    if prev_addr <? pst then mret false
    else if pend <=? prev_addr then mret false
    else mret true.

Definition coalesce_prev (block : Z) : TM Z :=
  pf ← block_prev_free block;
  if negb pf then mret block
  else
    ok ← validate_prev_size block;
    if negb ok then set_errno Err.BLOCK_CORRUPTED ;; mret block
    else
      ps ← get_prev_size block;
      let prev := u64 (block - ps) in
      sg ← check_signature prev;
      if negb sg then set_errno Err.BLOCK_CORRUPTED ;; mret block
      else
        fr ← block_is_free prev;
        if negb fr then set_errno Err.BLOCK_CORRUPTED ;; mret block
        else
          psz ← block_size prev;
          let fl := mapping_first_level psz in
          let sl := mapping_second_level psz fl in
          remove_from_free_list prev fl sl ;;
          psz ← block_size prev;
          bsz ← block_size block;
          block_set_size prev (u64 (psz + bsz)) ;;
          mret prev.
