(* ===== verification/TlsfAlloc.v ===== *)
(** Allocation, release and in-place reallocation of a block ([tlsf_txn.c]); run
    under the lock, inside an uncommitted transaction. *)
From S2P Require Import Prelude Machine TlsfTypes TlsfBul TlsfHeap.

Definition get_used_bytes : TM Z := a ← gets used_addr; load a.
Definition set_used_bytes (v : Z) : TM unit := a ← gets used_addr; store a v.
Definition push_used_bytes : TM bool := a ← gets used_addr; bul_push_word a.
Definition addr_size_flags (b : Z) : Z := fld b OFF_size_flags.
Definition addr_prev_size (b : Z) : Z := fld b OFF_prev_size.
Definition addr_sig_dc (b : Z) : Z := fld b OFF_sig_dc.

(** The second half of [tlsf_malloc_internal]: the block is in its final shape;
    owner, type and accounting are recorded. *)
Definition malloc_finish (block uid data_type : Z) : TM Z :=
  unless bul_push_word (addr_sig_dc block) return mret NULL ;;
  store_sig_dc block (make_sig_dc false data_type) ;;
  uid_clear block ;;
  unless bul_push_uid_word block 0 return mret NULL ;;
  uid_set block 0 uid ;;
  useful ← block_payload_size block;
  unless push_used_bytes return mret NULL ;;
  used ← get_used_bytes;
  set_used_bytes (u64 (used + useful)) ;;
  mret (ptr_from_block block).

(** Flag and [prev_size] of the block after the allocated one. *)
Definition malloc_fix_next (block : Z) (did_split : bool) : TM bool :=
  next ← block_next block;
  hend ← get_heap_end;
  if next <? hend then
    unless bul_push_word (addr_size_flags next) return mret false ;;
    if did_split then
      or_flags next BLOCK_PREV_FREE ;;
      unless bul_push_word (addr_prev_size next) return mret false ;;
      bsz ← block_size block;
      set_prev_size next bsz ;;
      mret true
    else
      clear_flags next BLOCK_PREV_FREE ;; mret true
  else mret true.

Definition tlsf_malloc_internal (size uid data_type : Z) : TM Z :=
  if size =? 0 then mret NULL
  else
    let total := request_to_block_size size in
    let '(fl, sl) := mapping_search total in
    block ← find_suitable_block fl sl;
    if block =? NULL then set_errno Err.OUT_OF_MEMORY ;; mret NULL
    else
      sg ← check_signature block;
      if negb sg then set_errno Err.BLOCK_CORRUPTED ;; mret NULL
      else
        bsz ← block_size block;
        let block_fl := mapping_first_level bsz in
        bsz ← block_size block;
        let block_sl := mapping_second_level bsz block_fl in
        remove_from_free_list block block_fl block_sl ;;
        block_total ← block_size block;
        let did_split := MIN_BLOCK_SZ <=? u64 (block_total - total) in
        (if did_split then split_block block total ;; mret tt else mret tt) ;;
        mark_block_allocated block ;;
        unless malloc_fix_next block did_split return mret NULL ;;
        malloc_finish block uid data_type.

(** The loop that clears every slot equal to [uid], logging each one first. *)
Fixpoint uid_remove_loop (n : nat) (i block uid : Z) : TM bool :=
  match n with
  | O => mret true
  | S n =>
      u ← uid_get block i;
      if u =? uid then
        unless bul_push_uid_word block i return mret false ;;
        uid_set block i 0 ;;
        uid_remove_loop n (i + 1) block uid
      else uid_remove_loop n (i + 1) block uid
  end.
Definition uid_remove (block uid : Z) : TM bool := uid_remove_loop 12 0 block uid.

(** The last part of [tlsf_free_internal]: no owner is left, the block goes back
    to the pool, merged with its free neighbours. *)
Definition free_release (block : Z) : TM bool :=
  useful ← block_payload_size block;
  unless push_used_bytes return mret false ;;
  used ← get_used_bytes;
  set_used_bytes (u64 (used - useful)) ;;
  merged ← coalesce_prev block;
  next ← block_next merged;
  hend ← get_heap_end;
  fr ← (if next <? hend then block_is_free next else mret false);
  (if (fr : bool) then coalesce_next merged else mret tt) ;;
  mark_block_free merged ;;
  msz ← block_size merged;
  let fl := mapping_first_level msz in
  msz ← block_size merged;
  let sl := mapping_second_level msz fl in
  insert_into_free_list merged fl sl ;;
  after ← block_next merged;
  hend ← get_heap_end;
  if after <? hend then
    unless bul_push_word (addr_size_flags after) return mret false ;;
    or_flags after BLOCK_PREV_FREE ;;
    unless bul_push_word (addr_prev_size after) return mret false ;;
    msz ← block_size merged;
    set_prev_size after msz ;;
    mret true
  else mret true.

(** [validate_pointer(b) && validate_block_signature(b)] *)
Definition validate_block (block : Z) : TM bool :=
  ok ← validate_pointer block;
  if negb ok then mret false else check_signature block.

Definition tlsf_free_internal (ptr uid : Z) : TM bool :=
  if ptr =? NULL then mret false
  else
    let block := block_from_ptr ptr in
    ok ← validate_block block;
    if negb ok then set_errno Err.BLOCK_CORRUPTED ;; mret false
    else
      fr ← block_is_free block;
      if (fr : bool) then set_errno Err.NOT_ALLOCATED ;; mret false
      else
        i ← uid_find block uid;
        if i <? 0 then set_errno Err.UID_NOT_FOUND ;; mret false
        else
          unless uid_remove block uid return mret false ;;
          c ← uid_count block;
          if 0 <? c then mret true
          else free_release block.

(** Negative: a BUL push failed; 0: not possible in place; 1: done. *)
Definition realloc_try_inplace (block needed : Z) : TM Z :=
  cur ← block_size block;
  old_payload ← block_payload_size block;
  hend ← get_heap_end;
  if needed <=? cur then
    if MIN_BLOCK_SZ <=? u64 (cur - needed) then
      unless bul_push_word (addr_size_flags block) return mret (-1) ;;
      unless push_used_bytes return mret (-1) ;;
      split_block block needed ;;
      pl ← block_payload_size block;
      used ← get_used_bytes;
      set_used_bytes (u64 (used - u64 (old_payload - pl))) ;;
      mret 1
    else mret 1
  else
    next ← block_next block;
    if hend <=? next then mret 0
    else
      sg ← check_signature next;
      fr ← (if (sg : bool) then block_is_free next else mret false);
      if negb fr then mret 0
      else
        nsz ← block_size next;
        if (nsz =? 0) || negb (nsz mod ALIGN_SIZE =? 0) then mret 0
        else
          let combined := u64 (cur + nsz) in
          if combined <? needed then mret 0
          else
            let fl := mapping_first_level nsz in
            let sl := mapping_second_level nsz fl in
            remove_from_free_list next fl sl ;;
            unless bul_push_word (addr_size_flags block) return mret (-1) ;;
            unless push_used_bytes return mret (-1) ;;
            block_set_size block combined ;;
            unless
              (if MIN_BLOCK_SZ <=? u64 (combined - needed) then
                 split_block block needed ;; mret true
               else
                 after ← block_next block;
                 if after <? hend then
                   unless bul_push_word (addr_size_flags after) return mret false ;;
                   unless bul_push_word (addr_prev_size after) return mret false ;;
                   clear_flags after BLOCK_PREV_FREE ;; mret true
                 else mret true)
              return mret (-1) ;;
            pl ← block_payload_size block;
            used ← get_used_bytes;
            set_used_bytes (u64 (used + u64 (pl - old_payload))) ;;
            mret 1.
