(* ===== verification/TlsfApi.v ===== *)
(** The public operations of the TLSF allocator ([tlsf_txn.c], [tlsf_txn.h]). *)
From Stdlib Require Import String.
From S2P Require Import Prelude Machine TlsfTypes TlsfBul TlsfHeap TlsfAlloc.

(** [pthread_mutex_unlock(...); return r;] *)
Definition unlock_ret {A} (r : A) : TM A := pthread_mutex_unlock ;; mret r.
(** [tlsf_errno = e; pthread_mutex_unlock(...); return r;] *)
Definition fail_ret {A} (e : Z) (r : A) : TM A := set_errno e ;; unlock_ret r.

(** ** Creation *)

Definition tlsf_create (m size : Z) : TM Z :=
  if m =? NULL then mret NULL
  else if size <? MIN_POOL_SIZE then set_errno Err.POOL_TOO_SMALL ;; mret NULL
  else if MAX_POOL_SIZE <? size then set_errno Err.POOL_TOO_SMALL ;; mret NULL
  else
    let hs := u64 (m + SIZEOF_TLSF_CTRL) in
    let hs := Z.land (u64 (hs + ALIGN_SIZE - 1)) (not64 (ALIGN_SIZE - 1)) in
    let hsz := u64 (size - u64 (hs - m)) in
    let hsz := Z.land hsz (not64 (ALIGN_SIZE - 1)) in
    modify (fun s =>
      Tlsf (Geometry TLSF_FORMAT_VERSION m size hs hsz)
           (Index ∅ 0 ∅) (Txn 0 0 0 ∅) mutex_free ∅ (thr s)) ;;
    first ← get_first_block;
    set_size_flags first (Z.lor hsz BLOCK_FREE) ;;
    store_sig_dc first (make_sig_dc false 0) ;;
    set_prev_free first NULL ;;
    set_next_free first NULL ;;
    uid_clear first ;;
    set_prev_size first 0 ;;
    write_block_footer first ;;
    next ← block_next first;
    hend ← get_heap_end;
    (if next <? hend then
       set_size_flags next BLOCK_PREV_FREE ;;
       store_sig_dc next (make_sig_dc false 0) ;;
       fsz ← block_size first;
       set_prev_size next fsz
     else mret tt) ;;
    fsz ← block_size first;
    let fl := mapping_first_level fsz in
    fsz ← block_size first;
    let sl := mapping_second_level fsz fl in
    insert_into_free_list first fl sl ;;
    set_errno Err.OK ;;
    mret m.

(** [tlsf_destroy]: only the mutex is destroyed, and nobody may use the pool after. *)
Definition tlsf_destroy (tlsf : Z) : TM unit := mret tt.

(** ** Allocation *)

Definition tlsf_malloc (tlsf size uid data_type : Z) : TM Z :=
  if tlsf =? NULL then mret NULL
  else if uid =? 0 then set_errno Err.UID_INVALID ;; mret NULL
  else if size =? 0 then mret NULL
  else
    rc ← lock_and_recover;
    if negb (rc =? Err.OK) then mret NULL
    else
      ptr ← tlsf_malloc_internal size uid data_type;
      (if negb (ptr =? NULL) then bul_commit else mret tt) ;;
      unlock_ret ptr.

(** [memset(ptr, 0, n)]: whole words, then the low bytes of the last one. *)
Fixpoint zero_words (n : nat) (a : Z) : TM unit :=
  match n with
  | O => mret tt
  | S n => store a 0 ;; zero_words n (u64 (a + 8))
  end.
Definition memset_zero (a n : Z) : TM unit :=
  zero_words (Z.to_nat (n / 8)) a ;;
  if n mod 8 =? 0 then mret tt
  else
    let last := u64 (a + 8 * (n / 8)) in
    w ← load last;
    store last (Z.land w (not64 (2 ^ (8 * (n mod 8)) - 1))).

Definition tlsf_calloc (tlsf count size uid data_type : Z) : TM Z :=
  if 2 ^ 64 <=? count * size then set_errno Err.OUT_OF_MEMORY ;; mret NULL
  else
    let total_size := count * size in
    ptr ← tlsf_malloc tlsf total_size uid data_type;
    (if negb (ptr =? NULL) then memset_zero ptr total_size else mret tt) ;;
    mret ptr.

(** ** Release *)

Definition tlsf_free (tlsf ptr uid : Z) : TM unit :=
  if (tlsf =? NULL) || (ptr =? NULL) then mret tt
  else if uid =? 0 then set_errno Err.UID_INVALID
  else
    rc ← lock_and_recover;
    if negb (rc =? Err.OK) then mret tt
    else
      ok ← tlsf_free_internal ptr uid;
      (if (ok : bool) then bul_commit else mret tt) ;;
      unlock_ret tt.

Definition tlsf_free_nb (tlsf ptr uid : Z) : TM unit :=
  if (tlsf =? NULL) || (ptr =? NULL) then mret tt
  else if uid =? 0 then set_errno Err.UID_INVALID
  else
    ok ← tlsf_free_internal ptr uid;
    if (ok : bool) then bul_commit else mret tt.

Definition tlsf_free_dc (tlsf ptr uid : Z) : TM unit :=
  if (tlsf =? NULL) || (ptr =? NULL) then mret tt
  else if uid =? 0 then set_errno Err.UID_INVALID
  else
    rc ← lock_and_recover;
    if negb (rc =? Err.OK) then mret tt
    else
      let block := block_from_ptr ptr in
      ok ← validate_block block;
      if negb ok then fail_ret Err.BLOCK_CORRUPTED tt
      else
        fr ← block_is_free block;
        if (fr : bool) then fail_ret Err.NOT_ALLOCATED tt
        else
          i ← uid_find block uid;
          if i <? 0 then fail_ret Err.UID_NOT_FOUND tt
          else
            owners ← uid_count block;
            unless
              (if owners =? 1 then
                 unless bul_push_word (addr_sig_dc block) return mret false ;;
                 w ← load_sig_dc block;
                 store_sig_dc block (Z.lor w SIG_DC_DC_BIT) ;;
                 mret true
               else uid_remove block uid)
              return unlock_ret tt ;;
            bul_commit ;;
            unlock_ret tt.

(** ** The lock-free accessors of [sig_dc] *)

(** [inl rc]: refused with [rc]; [inr block]: accepted. *)
Definition dc_precheck (tlsf ptr : Z) : TM (Z + Z) :=
  if (tlsf =? NULL) || (ptr =? NULL) then mret (inl (- Err.INVALID_PTR))
  else
    fmt ← gets (fun s => format_version (geo s));
    if negb (fmt =? TLSF_FORMAT_VERSION) then mret (inl (- Err.FORMAT_MISMATCH))
    else
      let block := block_from_ptr ptr in
      ok ← validate_pointer block;
      if negb ok then mret (inl (- Err.INVALID_PTR))
      else
        sg ← check_signature block;
        if negb sg then mret (inl (- Err.BLOCK_CORRUPTED))
        else
          fr ← block_is_free block;
          if (fr : bool) then mret (inl (- Err.NOT_ALLOCATED))
          else mret (inr block).

Definition with_block (tlsf ptr : Z) (k : Z -> TM Z) : TM Z :=
  r ← dc_precheck tlsf ptr;
  match r with inl rc => mret rc | inr block => k block end.

Definition tlsf_setdc (tlsf ptr : Z) : TM Z :=
  with_block tlsf ptr (fun block =>
    w ← load_sig_dc block; store_sig_dc block (Z.lor w SIG_DC_DC_BIT) ;; mret 0).
Definition tlsf_cleardc (tlsf ptr : Z) : TM Z :=
  with_block tlsf ptr (fun block =>
    w ← load_sig_dc block; store_sig_dc block (Z.land w (not64 SIG_DC_DC_BIT)) ;; mret 0).
Definition tlsf_getdc (tlsf ptr : Z) : TM Z :=
  with_block tlsf ptr (fun block => d ← get_dc block; mret (if (d : bool) then 1 else 0)).
Definition tlsf_get_data_type (tlsf ptr : Z) : TM Z :=
  with_block tlsf ptr (fun block => get_data_type block).

(** ** Reallocation *)

(** [memcpy(dst, src, n)], word by word ([n] is a multiple of 64 for blocks of a
    well-formed heap). *)
Fixpoint copy_words (n : nat) (dst src : Z) : TM unit :=
  match n with
  | O => mret tt
  | S n => w ← load src; store dst w ;; copy_words n (u64 (dst + 8)) (u64 (src + 8))
  end.

Definition tlsf_realloc (tlsf ptr new_size uid : Z) : TM Z :=
  if tlsf =? NULL then mret NULL
  else if ptr =? NULL then tlsf_malloc tlsf new_size uid 0
  else if new_size =? 0 then tlsf_free tlsf ptr uid ;; mret NULL
  else if uid =? 0 then set_errno Err.UID_INVALID ;; mret NULL
  else
    rc ← lock_and_recover;
    if negb (rc =? Err.OK) then mret NULL
    else
      let block := block_from_ptr ptr in
      ok ← validate_block block;
      if negb ok then fail_ret Err.BLOCK_CORRUPTED NULL
      else
        fr ← block_is_free block;
        if (fr : bool) then fail_ret Err.NOT_ALLOCATED NULL
        else
          i ← uid_find block uid;
          if i <? 0 then fail_ret Err.UID_NOT_FOUND NULL
          else
            c ← uid_count block;
            if 1 <? c then fail_ret Err.TOO_MANY_OWNERS NULL
            else
              let needed := request_to_block_size new_size in
              ip ← realloc_try_inplace block needed;
              if ip <? 0 then unlock_ret NULL
              else if 0 <? ip then bul_commit ;; unlock_ret ptr
              else
                old_data_type ← get_data_type block;
                old_payload ← block_payload_size block;
                let new_payload := u64 (needed - HEADER_SIZE) in
                new_ptr ← tlsf_malloc_internal new_size uid old_data_type;
                if new_ptr =? NULL then unlock_ret NULL
                else
                  let copy_size := if old_payload <? new_payload then old_payload else new_payload in
                  copy_words (Z.to_nat (copy_size / 8)) new_ptr ptr ;;
                  ok ← tlsf_free_internal ptr uid;
                  if negb ok then
                    _ ← bul_recover_internal; unlock_ret NULL
                  else bul_commit ;; unlock_ret new_ptr.

Definition tlsf_get_block_size (tlsf ptr : Z) : TM Z :=
  if (tlsf =? NULL) || (ptr =? NULL) then set_errno Err.INVALID_PTR ;; mret 0
  else
    rc ← lock_and_recover;
    if negb (rc =? Err.OK) then mret 0
    else
      let block := block_from_ptr ptr in
      ok ← validate_block block;
      if negb ok then fail_ret Err.BLOCK_CORRUPTED 0
      else
        fr ← block_is_free block;
        if (fr : bool) then fail_ret Err.NOT_ALLOCATED 0
        else
          result ← block_payload_size block;
          set_errno Err.OK ;; unlock_ret result.

(** ** Ownership *)

Definition tlsf_link (tlsf ptr uid : Z) : TM Z :=
  if (tlsf =? NULL) || (ptr =? NULL) then mret (- Err.INVALID_PTR)
  else if uid =? 0 then mret (- Err.UID_INVALID)
  else
    rc ← lock_and_recover;
    if negb (rc =? Err.OK) then mret (- rc)
    else
      let block := block_from_ptr ptr in
      ok ← validate_block block;
      if negb ok then unlock_ret (- Err.BLOCK_CORRUPTED)
      else
        fr ← block_is_free block;
        if (fr : bool) then unlock_ret (- Err.NOT_ALLOCATED)
        else
          i ← uid_find block uid;
          if 0 <=? i then unlock_ret (- Err.UID_DUPLICATE)
          else
            slot ← uid_find_empty block;
            if slot <? 0 then unlock_ret (- Err.UID_FULL)
            else
              unless bul_push_uid_word block slot return unlock_ret (- Err.BUL_OVERFLOW) ;;
              uid_set block slot uid ;;
              bul_commit ;;
              unlock_ret 0.

Definition tlsf_check_uid (tlsf ptr uid : Z) : TM Z :=
  if (tlsf =? NULL) || (ptr =? NULL) then mret (- Err.INVALID_PTR)
  else if uid =? 0 then mret (- Err.UID_INVALID)
  else
    rc ← lock_and_recover;
    if negb (rc =? Err.OK) then mret (- rc)
    else
      let block := block_from_ptr ptr in
      ok ← validate_block block;
      if negb ok then unlock_ret (- Err.BLOCK_CORRUPTED)
      else
        fr ← block_is_free block;
        if (fr : bool) then unlock_ret (- Err.NOT_ALLOCATED)
        else
          i ← uid_find block uid;
          if 0 <=? i then unlock_ret 1 else unlock_ret 0.

(** ** Heap walk *)

(** A destructor sees the user pointer, the header, the uid matched, and a user
    context it may change. *)
Section walk.
Context {U : Type}.
Variable destructor : U -> Z -> Z -> Z -> TM (Z * U).

(** What the inner loop of [tlsf_free_uid_blocks] ended with. *)
Inductive walk_end :=
  | WDone                 (* reached the end of the heap *)
  | WRestart              (* the destructor changed the heap: [found = true] *)
  | WReturn (rc : Z).     (* [return rc], lock released *)

Fixpoint walk (fuel : nat) (uid block hend : Z) (user : U) : TM (walk_end * U) :=
  match fuel with
  | O => hang
  | S fuel =>
      if negb (block <? hend) then mret (WDone, user)
      else
        sg ← check_signature block;
        if negb sg then unlock_ret (WReturn (- Err.BLOCK_CORRUPTED), user)
        else
          bsz ← block_size block;
          let remaining := u64 (hend - block) in
          if (bsz =? 0) || (remaining <? bsz) then
            unlock_ret (WReturn (- Err.BLOCK_CORRUPTED), user)
          else
            fr ← block_is_free block;
            if (fr : bool) then walk fuel uid (u64 (block + bsz)) hend user
            else
              hit ← (if uid =? 0 then get_dc block
                     else i ← uid_find block uid; mret (0 <=? i));
              if (hit : bool) then
                uid_block ← (if uid =? 0 then uid_get_first block else mret uid);
                '(drc, user) ← destructor user (ptr_from_block block) block uid_block;
                if drc <? 0 then unlock_ret (WReturn drc, user)
                else if 0 <? drc then mret (WRestart, user)
                else walk fuel uid (u64 (block + bsz)) hend user
              else walk fuel uid (u64 (block + bsz)) hend user
  end.

(** The outer [do ... while (found)]; [rounds] bounds it, [fuel] each walk. *)
Fixpoint walk_rounds (rounds fuel : nat) (uid : Z) (user : U) : TM (Z * U) :=
  match rounds with
  | O => hang
  | S rounds =>
      block ← get_first_block;
      hend ← get_heap_end;
      '(r, user) ← walk fuel uid block hend user;
      match r with
      | WReturn rc => mret (rc, user)
      | WRestart => walk_rounds rounds fuel uid user
      | WDone => unlock_ret (0, user)
      end
  end.

End walk.

Definition tlsf_free_uid_blocks {U} (rounds fuel : nat) (tlsf uid : Z)
    (destructor : option (U -> Z -> Z -> Z -> TM (Z * U))) (user : U) : TM (Z * U) :=
  if tlsf =? NULL then mret (- Err.INVALID_PTR, user)
  else
    match destructor with
    | None => mret (- Err.INVALID_PTR, user)
    | Some destructor =>
        rc ← lock_and_recover;
        if negb (rc =? Err.OK) then mret (- rc, user)
        else walk_rounds destructor rounds fuel uid user
    end.

(** ** Statistics *)

Definition tlsf_get_used_size (tlsf : Z) : TM Z :=
  if tlsf =? NULL then mret 0
  else
    rc ← lock_and_recover;
    if negb (rc =? Err.OK) then mret 0
    else result ← get_used_bytes; unlock_ret result.

Definition tlsf_get_max_size (tlsf : Z) : TM Z :=
  if tlsf =? NULL then mret 0
  else
    rc ← lock_and_recover;
    if negb (rc =? Err.OK) then mret 0
    else result ← gets (fun s => pool_size (geo s)); unlock_ret result.

Definition tlsf_get_errno : TM Z := gets (fun s => tlsf_errno (thr s)).

(** ** Messages *)

Definition tlsf_strerror (err : Z) : string :=
  let err := if err <? 0 then - err else err in
  if err =? Err.OK then "OK"%string
  else if err =? Err.LOCK_FAILED then "Lock failed"%string
  else if err =? Err.CORRUPTION_UNRECOVERABLE then "Corruption unrecoverable"%string
  else if err =? Err.BUL_OVERFLOW then "BUL overflow"%string
  else if err =? Err.BLOCK_CORRUPTED then "Block corrupted"%string
  else if err =? Err.INVALID_PTR then "Invalid pointer"%string
  else if err =? Err.OUT_OF_MEMORY then "Out of memory"%string
  else if err =? Err.POOL_TOO_SMALL then "Pool too small"%string
  else if err =? Err.UID_FULL then "UID array full"%string
  else if err =? Err.UID_NOT_FOUND then "UID not found"%string
  else if err =? Err.UID_INVALID then "UID invalid (zero)"%string
  else if err =? Err.NOT_ALLOCATED then "Block not allocated"%string
  else if err =? Err.BUSY then "Mutex busy"%string
  else if err =? Err.TOO_MANY_OWNERS then "Too many owners"%string
  else if err =? Err.UID_DUPLICATE then "UID duplicate"%string
  else if err =? Err.FORMAT_MISMATCH then "Format version mismatch"%string
  else "Unknown error"%string.

(** The sixteen codes of [tlsf_txn.h] have sixteen different messages, and a result
    [-code] has the message of [code]. *)
Lemma strerror_distinct a b : 0 <= a <= 15 -> 0 <= b <= 15 -> tlsf_strerror a = tlsf_strerror (- b) -> a = b.
Proof.
  intros Ha Hb.
  assert (forall n, 0 <= n <= 15 -> n ∈ seqZ 0 16) as Hin by (intros n Hn; apply elem_of_seqZ; lia).
  pose proof (Hin a Ha) as Ia. pose proof (Hin b Hb) as Ib. clear Hin Ha Hb.
  assert (forallb (fun a => forallb (fun b => (a =? b) || negb (String.eqb (tlsf_strerror a) (tlsf_strerror (- b)))) (seqZ 0 16))
    (seqZ 0 16) = true) as H by (vm_compute; reflexivity).
  rewrite forallb_forall in H. specialize (H a (proj1 (list_elem_of_In _ _) Ia)). rewrite forallb_forall in H.
  specialize (H b (proj1 (list_elem_of_In _ _) Ib)). intros E. apply orb_true_iff in H as [H|H]; [by apply Z.eqb_eq|].
  rewrite E, String.eqb_refl in H. done.
Qed.
