(* ===== verification/TlsfFacts.v ===== *)
(** Size classes, request rounding, the [sig_dc] word and flag words: the pure
    arithmetic of the allocator. *)
From S2P Require Import Prelude Machine TlsfTypes TlsfBul TlsfHeap.

(** ** Flag words *)

Lemma FLAG_MASK_land x : Z.land x FLAG_MASK = x mod 4.
Proof. change FLAG_MASK with (2 ^ 2 - 1). by rewrite land_low. Qed.

Lemma SIZE_MASK_land x : 0 <= x < 2 ^ 64 -> Z.land x SIZE_MASK = x - x mod 4.
Proof.
  intros Hx. replace (x - x mod 4) with ((x / 2 ^ 2) * 2 ^ 2)
    by (pose proof (Z.div_mod x 4); change (2 ^ 2) with 4; lia).
  unfold SIZE_MASK, FLAG_MASK. change 3 with (2 ^ 2 - 1). bit_intro i.
  rewrite Z.mul_pow2_bits by lia.
  destruct (Z.ltb_spec i 2).
  - rewrite (Z.testbit_neg_r _ (i - 2)) by lia.
    destruct (Z.ltb_spec i 64); [|lia]. by rewrite andb_false_r.
  - rewrite Z.div_pow2_bits by lia. replace (i - 2 + 2) with i by lia.
    destruct (Z.ltb_spec i 64); [by rewrite andb_true_r|].
    by rewrite (testbit_high 64 x) by lia.
Qed.

(** A size that is a multiple of 4, tagged with two flag bits. *)
Lemma flags_size sz f : 0 <= sz < 2 ^ 64 -> sz mod 4 = 0 -> 0 <= f < 4 ->
  Z.land (sz + f) SIZE_MASK = sz.
Proof.
  intros. assert ((sz + f) mod 4 = f).
  { rewrite Z.add_mod, H0, Z.add_0_l, Z.mod_mod, Z.mod_small; lia. }
  rewrite SIZE_MASK_land by (pose proof (Z.div_mod sz 4); lia). lia.
Qed.

Lemma flags_free sz f : sz mod 4 = 0 -> 0 <= f < 4 ->
  Z.land (sz + f) BLOCK_FREE = f mod 2.
Proof.
  intros. change BLOCK_FREE with (2 ^ 1 - 1). rewrite land_low by lia.
  pose proof (Z.div_mod sz 4). rewrite Z.add_mod by lia.
  replace sz with (sz / 4 * 2 * 2) by lia. rewrite Z.mod_mul, Z.add_0_l by lia.
  apply Z.mod_mod; lia.
Qed.

Lemma flags_prev_free sz f : sz mod 4 = 0 -> 0 <= f < 4 ->
  Z.land (sz + f) BLOCK_PREV_FREE = f / 2 * 2.
Proof.
  intros Hs Hf. change BLOCK_PREV_FREE with (2 ^ 1).
  replace (sz + f) with (sz / 4 * 2 ^ 2 + f) by (pose proof (Z.div_mod sz 4); lia).
  rewrite <- lor_add_low by lia. bit_intro i.
  rewrite Z.mul_pow2_bits by lia. destruct (Z.eqb_spec i 1) as [->|].
  - rewrite (Z.testbit_neg_r (sz / 4)) by lia.
    assert (f = 0 \/ f = 1 \/ f = 2 \/ f = 3) as [->|[->|[->| ->]]] by lia; done.
  - rewrite andb_false_r.
    assert (f / 2 * 2 = 0 \/ f / 2 * 2 = 2 ^ 1) as [-> | ->].
    { pose proof (Z.div_mod f 2). pose proof (Z.mod_pos_bound f 2).
      change (2 ^ 1) with 2. lia. }
    + by rewrite Z.bits_0.
    + rewrite testbit_pow2 by lia. symmetry; by apply Z.eqb_neq.
Qed.

(** ** [sig_dc] *)

Lemma shiftr_lor_low n h l : 0 <= n -> 0 <= l < 2 ^ n ->
  Z.shiftr (Z.lor (Z.shiftl h n) l) n = h.
Proof.
  intros. bit_intro i. replace (i + n - n) with i by lia.
  rewrite (testbit_high n l) by lia. apply orb_false_r.
Qed.

Lemma make_sig_dc_low dc t :
  exists l, make_sig_dc dc t = Z.lor (Z.shiftl TLSF_BLOCK_MAGIC48 16) l /\ 0 <= l < 2 ^ 16 /\
    l = Z.lor (if dc then 2 ^ 15 else 0) (t mod 2 ^ 15).
Proof.
  exists (Z.lor (if dc then 2 ^ 15 else 0) (t mod 2 ^ 15)).
  unfold make_sig_dc, SIG_DC_SIG_SHIFT, SIG_DC_DC_BIT, SIG_DC_TYPE_MASK.
  change 0x7FFF with (2 ^ 15 - 1). rewrite land_low by lia.
  change (Z.shiftl 1 15) with (2 ^ 15). rewrite <- Z.lor_assoc. split; [done|split; [|done]].
  apply lor_bound; [by destruct dc|pose proof (Z.mod_pos_bound t (2 ^ 15)); lia|lia].
Qed.

Lemma low15_bits dc t i : 0 <= i ->
  Z.testbit (Z.lor (if (dc : bool) then 2 ^ 15 else 0) (t mod 2 ^ 15)) i =
  if i <? 15 then Z.testbit t i else (i =? 15) && dc.
Proof.
  intros Hi. autorewrite with bits.
  destruct (Z.ltb_spec i 15).
  - rewrite Z.mod_pow2_bits_low by lia. destruct dc; autorewrite with bits; [|done].
    destruct (Z.eqb_spec i 15); [lia|done].
  - rewrite Z.mod_pow2_bits_high by lia. rewrite orb_false_r.
    destruct dc; autorewrite with bits; [by rewrite andb_true_r|by rewrite andb_false_r].
Qed.

Lemma make_sig_dc_range dc t : 0 <= make_sig_dc dc t < 2 ^ 64.
Proof.
  destruct (make_sig_dc_low dc t) as (l & -> & Hl & _).
  apply lor_bound; [vm_compute; split; congruence| |lia].
  pose proof (Z.pow_lt_mono_r 2 16 64). lia.
Qed.

Lemma make_sig_ok dc t : sig_ok (make_sig_dc dc t) = true.
Proof.
  destruct (make_sig_dc_low dc t) as (l & -> & Hl & _). unfold sig_ok, SIG_DC_SIG_SHIFT.
  rewrite shiftr_lor_low by lia. by rewrite Z.eqb_refl.
Qed.

(** Bits of the low 16 of any [sig_dc] word. *)
Lemma sig_dc_flag_bit w : sig_dc_flag w = Z.testbit w 15.
Proof.
  unfold sig_dc_flag, SIG_DC_DC_BIT. change (Z.shiftl 1 15) with (2 ^ 15).
  destruct (Z.testbit w 15) eqn:E.
  - destruct (Z.eqb_spec (Z.land w (2 ^ 15)) 0) as [H|]; [|done].
    apply (f_equal (fun z => Z.testbit z 15)) in H. revert H. autorewrite with bits.
    rewrite E. done.
  - assert (Z.land w (2 ^ 15) = 0) as ->; [|done].
    bit_intro i. destruct (Z.eqb_spec i 15) as [->|]; [by rewrite E|apply andb_false_r].
Qed.
Lemma sig_type_mod w : sig_type w = w mod 2 ^ 15.
Proof.
  unfold sig_type, SIG_DC_TYPE_MASK. change 0x7FFF with (2 ^ 15 - 1). rewrite land_low by lia.
  unfold u16. apply Z.mod_small. pose proof (Z.mod_pos_bound w (2 ^ 15)). lia.
Qed.

Lemma make_sig_dc_bit dc t i : 0 <= i < 16 ->
  Z.testbit (make_sig_dc dc t) i = if i <? 15 then Z.testbit t i else dc.
Proof.
  intros Hi. destruct (make_sig_dc_low dc t) as (l & -> & _ & ->).
  rewrite Z.lor_spec, Z.shiftl_spec, (Z.testbit_neg_r _ (i - 16)) by lia.
  rewrite orb_false_l, low15_bits by lia.
  destruct (Z.ltb_spec i 15); [done|]. destruct (Z.eqb_spec i 15); [done|lia].
Qed.

Lemma make_sig_type dc t : sig_type (make_sig_dc dc t) = t mod 2 ^ 15.
Proof.
  rewrite sig_type_mod. bit_intro i. destruct (Z.ltb_spec i 15).
  - rewrite !Z.mod_pow2_bits_low, make_sig_dc_bit by lia.
    destruct (Z.ltb_spec i 15); [done|lia].
  - by rewrite !Z.mod_pow2_bits_high by lia.
Qed.
Lemma make_sig_flag dc t : sig_dc_flag (make_sig_dc dc t) = dc.
Proof. by rewrite sig_dc_flag_bit, make_sig_dc_bit. Qed.

(** Setting and clearing the dc bit in place leaves the rest of the word. *)
Lemma set_dc_word w : let w' := Z.lor w SIG_DC_DC_BIT in
  sig_dc_flag w' = true /\ sig_type w' = sig_type w /\ sig_ok w' = sig_ok w.
Proof.
  unfold SIG_DC_DC_BIT. change (Z.shiftl 1 15) with (2 ^ 15). simpl.
  rewrite sig_dc_flag_bit, !sig_type_mod. unfold sig_ok, SIG_DC_SIG_SHIFT. split_and_all.
  - autorewrite with bits. apply orb_true_r.
  - bit_intro i. destruct (Z.ltb_spec i 15).
    + rewrite !Z.mod_pow2_bits_low by lia. autorewrite with bits.
      destruct (Z.eqb_spec i 15); [lia|apply orb_false_r].
    + by rewrite !Z.mod_pow2_bits_high by lia.
  - f_equal. bit_intro i.
    destruct (Z.eqb_spec (i + 16) 15); [lia|apply orb_false_r].
Qed.
Lemma clear_dc_word w : 0 <= w < 2 ^ 64 -> let w' := Z.land w (not64 SIG_DC_DC_BIT) in
  sig_dc_flag w' = false /\ sig_type w' = sig_type w /\ sig_ok w' = sig_ok w.
Proof.
  intros Hw. unfold SIG_DC_DC_BIT. change (Z.shiftl 1 15) with (2 ^ 15). simpl.
  rewrite sig_dc_flag_bit, !sig_type_mod. unfold sig_ok, SIG_DC_SIG_SHIFT. split_and_all.
  - autorewrite with bits. apply andb_false_r.
  - bit_intro i. destruct (Z.ltb_spec i 15).
    + rewrite !Z.mod_pow2_bits_low by lia. autorewrite with bits.
      destruct (Z.eqb_spec i 15); [lia|]. destruct (Z.ltb_spec i 64); [apply andb_true_r|lia].
    + by rewrite !Z.mod_pow2_bits_high by lia.
  - f_equal. bit_intro i. 
    destruct (Z.eqb_spec (i + 16) 15); [lia|]. destruct (Z.ltb_spec (i + 16) 64).
    + apply andb_true_r.
    + by rewrite (testbit_high 64 w) by lia.
Qed.

(** ** Size classes *)

(** Bounds of the size class [(fl, sl)] of a size the index distinguishes. *)
Lemma mapping_first_level_log2 size : 0 < size < 2 ^ 41 -> mapping_first_level size = Z.log2 size.
Proof.
  intros H. unfold mapping_first_level, clz64.
  destruct (Z.eqb_spec size 0); [lia|].
  assert (Z.log2 size < 41) by (apply Z.log2_lt_pow2; lia).
  unfold FLI_MAX. destruct (Z.leb_spec 41 (63 - (63 - Z.log2 size))); lia.
Qed.

Lemma mapping_second_level_div size : 8 <= size < 2 ^ 41 ->
  mapping_second_level size (Z.log2 size) =
    if Z.log2 size <? 4 then 0 else size / 2 ^ (Z.log2 size - 3).
Proof.
  intros H. unfold mapping_second_level, SLI_COUNT, SLI_SIZE, SLI_COUNT.
  destruct (Z.ltb_spec (Z.log2 size) 4); [done|].
  change (Z.shiftl 1 4 - 1) with (2 ^ 4 - 1). rewrite land_low, Z.shiftr_div_pow2 by lia.
  replace (Z.log2 size - 4 + 1) with (Z.log2 size - 3) by lia.
  destruct (Z.log2_spec size) as [Hlo Hhi]; [lia|].
  apply Z.mod_small. split; [apply Z.div_pos; lia|].
  apply Z.div_lt_upper_bound; [lia|]. rewrite <- Z.pow_add_r by lia.
  by replace (Z.log2 size - 3 + 4) with (Z.succ (Z.log2 size)) by lia.
Qed.

(** The width of a class of first level [fl]. *)
Definition class_width (fl : Z) : Z := 2 ^ (fl - 3).

Lemma mapping_bounds size : 16 <= size < 2 ^ 41 ->
  let '(fl, sl) := mapping_search size in
  4 <= fl < FLI_MAX /\ 8 <= sl < SLI_SIZE /\
  sl * class_width fl <= size < (sl + 1) * class_width fl.
Proof.
  intros H. unfold mapping_search. rewrite mapping_first_level_log2 by lia.
  rewrite mapping_second_level_div by lia.
  assert (4 <= Z.log2 size) by (apply Z.log2_le_pow2; lia).
  assert (Z.log2 size < 41) by (apply Z.log2_lt_pow2; lia).
  destruct (Z.ltb_spec (Z.log2 size) 4); [lia|].
  unfold class_width, FLI_MAX. change SLI_SIZE with 16.
  destruct (Z.log2_spec size) as [Hlo Hhi]; [lia|].
  set (w := 2 ^ (Z.log2 size - 3)). assert (0 < w) by (apply Z.pow_pos_nonneg; lia).
  assert (2 ^ Z.log2 size = 8 * w) as E1.
  { replace (Z.log2 size) with (3 + (Z.log2 size - 3)) at 1 by lia.
    by rewrite Z.pow_add_r by lia. }
  assert (2 ^ Z.succ (Z.log2 size) = 16 * w) as E2 by (rewrite Z.pow_succ_r; lia).
  pose proof (Z.div_mod size w). pose proof (Z.mod_pos_bound size w).
  split_and_all; try lia; nia.
Qed.

(** Sizes up to 1023 that are multiples of 64 have a class of their own. *)
Lemma small_class_exact s1 s2 :
  64 <= s1 < 1024 -> 64 <= s2 < 2 ^ 41 -> s1 mod 64 = 0 -> s2 mod 64 = 0 ->
  mapping_search s1 = mapping_search s2 -> s1 = s2.
Proof.
  intros H1 H2 M1 M2 E.
  pose proof (mapping_bounds s1 ltac:(lia)) as B1.
  pose proof (mapping_bounds s2 ltac:(lia)) as B2. rewrite <- E in B2.
  unfold mapping_search in *. rewrite mapping_first_level_log2 in * by lia.
  destruct B1 as (F1 & S1 & C1), B2 as (_ & _ & C2).
  assert (Z.log2 s1 < 10) by (apply Z.log2_lt_pow2; lia).
  set (sl := mapping_second_level _ _) in *.
  assert (class_width (Z.log2 s1) <= 64) as Hw.
  { unfold class_width. change 64 with (2 ^ 6). apply Z.pow_le_mono_r; lia. }
  set (w := class_width _) in *.
  pose proof (Z.div_mod s1 64). pose proof (Z.div_mod s2 64). nia.
Qed.

(** The class order agrees with the size order. *)
Definition class_lt (c1 c2 : Z * Z) : Prop := c1.1 < c2.1 \/ (c1.1 = c2.1 /\ c1.2 < c2.2).

Lemma class_lt_size s1 s2 : 16 <= s1 < 2 ^ 41 -> 16 <= s2 < 2 ^ 41 ->
  class_lt (mapping_search s1) (mapping_search s2) -> s1 < s2.
Proof.
  intros H1 H2 Hlt.
  pose proof (mapping_bounds s1 H1) as B1. pose proof (mapping_bounds s2 H2) as B2.
  unfold class_lt, mapping_search in *. rewrite !mapping_first_level_log2 in * by lia.
  simpl in *. destruct Hlt as [Hlt|[Heq Hlt]].
  - destruct (Z.lt_ge_cases s1 s2) as [|Hge]; [done|].
    pose proof (Z.log2_le_mono s2 s1 Hge). lia.
  - rewrite <- Heq in B2. destruct B1 as (_ & _ & C1), B2 as (_ & _ & C2).
    rewrite <- Heq in Hlt.
    set (w := class_width _) in *.
    assert (0 < w) by (unfold w, class_width; apply Z.pow_pos_nonneg;
      assert (4 <= Z.log2 s1) by (apply Z.log2_le_pow2; lia); lia).
    nia.
Qed.

(** ** Request rounding *)

Lemma align_up_64 v : 0 <= v <= 2 ^ 64 - 64 -> align_up v 64 = (v + 63) / 64 * 64.
Proof.
  intros H. unfold align_up. replace (v + 64 - 1) with (v + 63) by lia.
  rewrite u64_small by lia. change (64 - 1) with (2 ^ 6 - 1).
  change ((v + 63) / 64 * 64) with ((v + 63) / 2 ^ 6 * 2 ^ 6). bit_intro i.
  rewrite Z.mul_pow2_bits by lia.
  destruct (Z.ltb_spec i 6).
  - rewrite (Z.testbit_neg_r _ (i - 6)) by lia. destruct (Z.ltb_spec i 64); [|lia].
    apply andb_false_r.
  - rewrite Z.div_pow2_bits by lia. replace (i - 6 + 6) with i by lia.
    destruct (Z.ltb_spec i 64); [apply andb_true_r|].
    by rewrite (testbit_high 64 (v + 63)) by lia.
Qed.
Lemma align_up_64_wrap v : 2 ^ 64 - 64 < v < 2 ^ 64 -> align_up v 64 = 0.
Proof.
  intros H. unfold align_up.
  replace (u64 (v + 64 - 1)) with (v + 63 - 2 ^ 64)
    by (unfold u64; apply Z.mod_unique_pos with 1; lia).
  assert (0 <= v + 63 - 2 ^ 64 < 2 ^ 6) by lia.
  set (x := v + 63 - 2 ^ 64) in *. change (64 - 1) with (2 ^ 6 - 1). bit_intro i.
  destruct (Z.ltb_spec i 6), (Z.ltb_spec i 64); try lia.
  - apply andb_false_r.
  - by rewrite (testbit_high 6 x) by lia.
  - by rewrite (testbit_high 6 x) by lia.
Qed.

Lemma request_to_block_size_fits size : 0 < size <= 2 ^ 64 - 128 ->
  request_to_block_size size = (size + 63) / 64 * 64 + 64.
Proof.
  intros H. unfold request_to_block_size, ALIGN_SIZE, MIN_USER_SIZE, MIN_BLOCK_SZ, HEADER_SIZE.
  rewrite (align_up_64 size) by lia.
  pose proof (Z.div_mod (size + 63) 64). pose proof (Z.mod_pos_bound (size + 63) 64).
  destruct (Z.ltb_spec ((size + 63) / 64 * 64) 64); [lia|].
  rewrite u64_small by lia. set (p := (size + 63) / 64) in *.
  rewrite align_up_64 by lia.
  replace ((p * 64 + 64 + 63) / 64) with (p + 1)
    by (apply Z.div_unique with 63; lia).
  destruct (Z.ltb_spec ((p + 1) * 64) 128); lia.
Qed.
Lemma request_to_block_size_wraps size : 2 ^ 64 - 128 < size < 2 ^ 64 ->
  request_to_block_size size = 128.
Proof.
  intros H. unfold request_to_block_size, ALIGN_SIZE, MIN_USER_SIZE, MIN_BLOCK_SZ, HEADER_SIZE.
  destruct (Z.le_gt_cases size (2 ^ 64 - 64)) as [Hle|Hgt].
  - rewrite (align_up_64 size) by lia.
    replace ((size + 63) / 64) with (2 ^ 58 - 1) by (apply Z.div_unique with (size + 63 - 64 * (2^58 - 1)); lia).
    reflexivity.
  - rewrite (align_up_64_wrap size) by lia. reflexivity.
Qed.

(** ** Count-trailing-zeros: the lowest set bit *)

Lemma ctz_pos_spec p : 0 <= ctz_pos p /\ Z.testbit (Zpos p) (ctz_pos p) = true /\
  forall i, 0 <= i < ctz_pos p -> Z.testbit (Zpos p) i = false.
Proof.
  induction p as [p IH|p (IH1 & IH2 & IH3)|]; cbn [ctz_pos].
  - split_and_all; try done. intros; lia.
  - split_and_all; [lia|..].
    + rewrite Pos2Z.inj_xO. replace (1 + ctz_pos p) with (Z.succ (ctz_pos p)) by lia.
      by rewrite Z.double_bits_succ.
    + intros i Hi. rewrite Pos2Z.inj_xO. destruct (Z.eq_dec i 0) as [->|].
      * by rewrite Z.testbit_even_0.
      * replace i with (Z.succ (Z.pred i)) by lia. rewrite Z.double_bits_succ. apply IH3; lia.
  - split_and_all; try done. intros; lia.
Qed.

Lemma ctz64_spec x : 0 < x -> 0 <= ctz64 x /\ Z.testbit x (ctz64 x) = true /\
  forall i, 0 <= i < ctz64 x -> Z.testbit x i = false.
Proof. destruct x; try lia. intros _. apply ctz_pos_spec. Qed.

(** The lowest set bit of [w] at or above position [k]. *)
Lemma ctz64_from w k : 0 <= w < 2 ^ 64 -> 0 <= k -> 
  let m := Z.land w (u64 (Z.shiftl (2 ^ 64 - 1) k)) in
  (m = 0 -> forall i, k <= i -> Z.testbit w i = false) /\
  (m <> 0 -> k <= ctz64 m /\ Z.testbit w (ctz64 m) = true /\
     forall i, k <= i < ctz64 m -> Z.testbit w i = false).
Proof.
  intros Hw Hk m.
  assert (forall i, 0 <= i -> Z.testbit m i = (k <=? i) && Z.testbit w i) as Hm.
  { intros i Hi. unfold m, u64. rewrite Z.land_spec.
    destruct (Z.lt_ge_cases i 64).
    - rewrite Z.mod_pow2_bits_low, Z.shiftl_spec by lia.
      destruct (Z.leb_spec k i).
      + rewrite testbit_mask by lia. destruct (Z.ltb_spec (i - k) 64); [apply andb_true_r|lia].
      + rewrite (Z.testbit_neg_r _ (i - k)) by lia. apply andb_false_r.
    - rewrite (testbit_high 64 w) by lia. by rewrite andb_false_r. }
  split.
  - intros E i Hi. specialize (Hm i ltac:(lia)). rewrite E, Z.bits_0 in Hm.
    destruct (Z.leb_spec k i); [done|lia].
  - intros Hnz. assert (0 <= m) by (apply Z.land_nonneg; lia).
    destruct (ctz64_spec m) as (H0 & H1 & H2); [lia|].
    rewrite Hm in H1 by done. apply andb_true_iff in H1 as [H1 H1'].
    apply Z.leb_le in H1. split_and_all; try done.
    intros i Hi. specialize (H2 i ltac:(lia)). rewrite Hm in H2 by lia.
    destruct (Z.leb_spec k i); [done|lia].
Qed.
