(* ===== verification/TlsfHoare.v ===== *)
(** Program logic of the allocator: weakest-precondition rules for its accesses,
    equality of pool memories up to absent words, and the transaction invariant
    of the undo log with the rules that maintain it, crashes included. *)
From S2P Require Import Prelude Machine TlsfTypes TlsfBul.

(** ** Memories: an absent word reads 0 *)

Definition mem_eq (m1 m2 : gmap Z Z) : Prop := forall a, rdm m1 a = rdm m2 a.
#[export] Instance mem_equiv : Equiv (gmap Z Z) := mem_eq.
#[export] Instance mem_eq_equivalence : Equivalence mem_eq.
Proof.
  split; [done|by intros m1 m2 H a; rewrite (H a)|].
  intros m1 m2 m3 H1 H2 a. by rewrite (H1 a).
Qed.

Lemma rdm_insert m a v b : rdm (<[a := v]> m) b = if decide (a = b) then v else rdm m b.
Proof. unfold rdm. rewrite lookup_insert. by destruct (decide (a = b)). Qed.
Lemma rdm_insert_eq m a v : rdm (<[a := v]> m) a = v.
Proof. rewrite rdm_insert. by destruct (decide (a = a)). Qed.
Lemma rdm_insert_ne m a v b : a <> b -> rdm (<[a := v]> m) b = rdm m b.
Proof. intros. rewrite rdm_insert. by destruct (decide (a = b)). Qed.

#[export] Instance insert_mem_proper a v : Proper (mem_eq ==> mem_eq) (insert a v : gmap Z Z -> gmap Z Z).
Proof. intros m1 m2 H b. rewrite !rdm_insert. by destruct (decide (a = b)). Qed.
Lemma mem_eq_insert_same m a : mem_eq (<[a := rdm m a]> m) m.
Proof. intros b. rewrite rdm_insert. by destruct (decide (a = b)) as [->|]. Qed.
Lemma mem_eq_insert_swap m a v b w :
  a <> b -> mem_eq (<[a := v]> (<[b := w]> m)) (<[b := w]> (<[a := v]> m)).
Proof. intros H. by rewrite insert_insert_ne. Qed.

(** Every word of the pool fits 64 bits. *)
Definition mem_ok (m : gmap Z Z) : Prop := forall a, 0 <= rdm m a < 2 ^ 64.
Lemma mem_ok_insert m a v : mem_ok m -> mem_ok (<[a := u64 v]> m).
Proof. intros H b. rewrite rdm_insert. destruct (decide (a = b)); [apply u64_range|apply H]. Qed.

(** ** States, up to the thread that runs *)

Definition ticked (s : tlsf) : tlsf :=
  match life (thr s) with Some (S n) => set_life (Some n) s | _ => s end.

Create HintDb tlsf.
Create Rewrite HintDb tlsf.
Lemma geo_ticked s : geo (ticked s) = geo s. Proof. unfold ticked. by repeat case_match. Qed.
Lemma idx_ticked s : idx (ticked s) = idx s. Proof. unfold ticked. by repeat case_match. Qed.
Lemma txn_ticked s : txn (ticked s) = txn s. Proof. unfold ticked. by repeat case_match. Qed.
Lemma mutex_ticked s : mutex (ticked s) = mutex s. Proof. unfold ticked. by repeat case_match. Qed.
Lemma mem_ticked s : mem (ticked s) = mem s. Proof. unfold ticked. by repeat case_match. Qed.
Lemma self_ticked s : self (thr (ticked s)) = self (thr s).
Proof. unfold ticked. by repeat case_match. Qed.
Lemma errno_ticked s : tlsf_errno (thr (ticked s)) = tlsf_errno (thr s).
Proof. unfold ticked. by repeat case_match. Qed.
Lemma life_ticked s : life (thr s) = None -> life (thr (ticked s)) = None.
Proof. unfold ticked. by intros H; rewrite H. Qed.
Lemma life_None_ticked s : life (thr s) = None -> ticked s = s.
Proof. unfold ticked. by intros ->. Qed.
#[export] Hint Resolve life_ticked : tlsf.
(** The process dies at the next store. *)
Abbreviation dies s := (life (thr s) = Some O).
#[export] Hint Rewrite geo_ticked idx_ticked txn_ticked mutex_ticked mem_ticked self_ticked
  errno_ticked : tlsf.

Lemma mapped_geo s s' a : geo s' = geo s -> mapped s' a = mapped s a.
Proof. unfold mapped, used_addr, pool_end. by intros ->. Qed.
Lemma mapped_ticked s a : mapped (ticked s) a = mapped s a.
Proof. apply mapped_geo, geo_ticked. Qed.

(** [frame s s']: only pool memory, undo log, [tlsf_errno] and remaining life may
    differ. *)
Definition frame (s s' : tlsf) : Prop :=
  geo s' = geo s /\ idx s' = idx s /\ mutex s' = mutex s /\ self (thr s') = self (thr s) /\
  (life (thr s) = None -> life (thr s') = None).
Lemma frame_refl s : frame s s. Proof. done. Qed.
Lemma frame_trans s1 s2 s3 : frame s1 s2 -> frame s2 s3 -> frame s1 s3.
Proof. unfold frame. intros (?&?&?&?&?) (?&?&?&?&?). split_and_all; try congruence; auto. Qed.
Lemma frame_ticked s : frame s (ticked s).
Proof.
  unfold frame. autorewrite with tlsf. split_and_all; try done. apply life_ticked.
Qed.
Lemma frame_mapped s s' a : frame s s' -> mapped s' a = mapped s a.
Proof. intros (?&_). by apply mapped_geo. Qed.
#[export] Hint Resolve frame_refl frame_ticked : tlsf.

(** As [frame], with the mutex free to change. *)
Definition same_world (s s' : tlsf) : Prop :=
  geo s' = geo s /\ idx s' = idx s /\ self (thr s') = self (thr s) /\
  (life (thr s) = None -> life (thr s') = None).
Lemma frame_world s s' : frame s s' -> same_world s s'.
Proof. intros (?&?&?&?&?). by split_and_all. Qed.
Lemma same_world_trans s1 s2 s3 : same_world s1 s2 -> same_world s2 s3 -> same_world s1 s3.
Proof. unfold same_world. intros (?&?&?&?) (?&?&?&?). split_and_all; try congruence; auto. Qed.

(** Projections of the states the rules build. *)
Ltac st_simpl :=
  repeat (progress (cbn [geo idx txn mutex mem thr set_geo set_idx set_txn set_mutex set_mem
            set_thr set_errno_st set_life life self tlsf_errno stack_top owner_pid txn_epoch bul
            set_stack_top set_owner_pid incr_epoch set_bul_addr set_bul_old]
          || autorewrite with tlsf)).
Ltac st_done :=
  solve [intros; unfold frame, same_world in *; st_simpl; split_and_all; st_simpl; try done;
    intros; repeat (apply life_ticked; st_simpl); auto].

(** ** Rules *)

Section rules.
Context (C : tlsf -> Prop).

Lemma wp_tick (Q : unit -> tlsf -> Prop) s :
  (dies s -> C s) -> Q tt (ticked s) -> wp tick C Q s.
Proof. unfold wp, tick, ticked. repeat case_match; auto. Qed.

Lemma wp_load a (Q : Z -> tlsf -> Prop) s :
  mapped s a = true -> Q (rd s a) s -> wp (load a) C Q s.
Proof. unfold wp, load. by intros ->. Qed.

Lemma wp_store a v (Q : unit -> tlsf -> Prop) s :
  mapped s a = true -> (dies s -> C s) ->
  Q tt (set_mem (<[a := u64 v]> (mem s)) (ticked s)) -> wp (store a v) C Q s.
Proof.
  intros Hm HC HQ. unfold store. apply wp_bind, wp_tick; [done|].
  unfold wp, put. rewrite mapped_ticked, Hm. by rewrite mem_ticked.
Qed.

Lemma wp_upd_txn f (Q : unit -> tlsf -> Prop) s :
  (dies s -> C s) -> Q tt (set_txn (f (txn s)) (ticked s)) -> wp (upd_txn f) C Q s.
Proof.
  intros HC HQ. apply wp_bind, wp_tick; [done|]. apply wp_modify. by rewrite txn_ticked.
Qed.

Lemma wp_upd_idx f (Q : unit -> tlsf -> Prop) s :
  (dies s -> C s) -> Q tt (set_idx (f (idx s)) (ticked s)) -> wp (upd_idx f) C Q s.
Proof.
  intros HC HQ. apply wp_bind, wp_tick; [done|]. apply wp_modify. by rewrite idx_ticked.
Qed.

Lemma wp_set_errno e (Q : unit -> tlsf -> Prop) s :
  Q tt (set_errno_st e s) -> wp (set_errno e) C Q s.
Proof. done. Qed.

Lemma wp_on_mutex f rc m (Q : Z -> tlsf -> Prop) s :
  f (self (thr s)) (mutex s) = Some (rc, m) -> (dies s -> C s) ->
  Q rc (set_mutex m (ticked s)) -> wp (tick ;; on_mutex f) C Q s.
Proof.
  intros Hf HC HQ. apply wp_bind, wp_tick; [done|]. unfold wp, on_mutex.
  by rewrite self_ticked, mutex_ticked, Hf.
Qed.

Lemma wp_ensure (c : TM bool) {A} (r k : TM A) Q s :
  wp c C (fun b s' => if b then wp k C Q s' else wp r C Q s') s -> wp (ensure c r k) C Q s.
Proof.
  intros H. apply wp_bind. eapply wp_mono; [exact H|done|]. by intros [] s'.
Qed.
End rules.

(** ** The undo log *)

(** The memory a rollback of the first [n] records would leave. *)
Fixpoint replay (b : txn_context) (n : nat) (m : gmap Z Z) : gmap Z Z :=
  match n with
  | O => m
  | S k => replay b k (<[(bul_entry b (Z.of_nat k)).1 := (bul_entry b (Z.of_nat k)).2]> m)
  end.

Definition logged (s : tlsf) (a : Z) : Prop :=
  exists k, 0 <= k < stack_top (txn s) /\ (bul_entry (txn s) k).1 = a.

#[export] Instance replay_proper b n : Proper (mem_eq ==> mem_eq) (replay b n).
Proof. induction n as [|n IH]; intros m1 m2 H; simpl; [done|]. apply IH. by rewrite H. Qed.

(** A record whose address is overwritten anyway can be written before. *)
Lemma replay_absorb b n m a v :
  (exists k, (k < n)%nat /\ (bul_entry b (Z.of_nat k)).1 = a) ->
  mem_eq (replay b n (<[a := v]> m)) (replay b n m).
Proof.
  revert m. induction n as [|n IH]; intros m (k & Hk & Ha); [lia|]. simpl.
  set (e := bul_entry b (Z.of_nat n)).
  destruct (decide (e.1 = a)) as [E|E].
  - by rewrite E, insert_insert_eq.
  - rewrite (insert_insert_ne _ e.1 a) by done. apply IH.
    exists k. split; [|done]. destruct (decide (k = n)) as [->|]; [done|lia].
Qed.

(** The invariant of an open transaction that started in memory [m0]. *)
Record in_txn (m0 : gmap Z Z) (s : tlsf) : Prop := InTxn {
  txn_top : 0 <= stack_top (txn s) < MAX_BUL_ENTRIES;
  txn_mem : mem_ok (mem s);
  txn_addr : forall k, 0 <= k < stack_top (txn s) ->
    mapped s (bul_entry (txn s) k).1 = true /\
    validate_pointer_st s (bul_entry (txn s) k).1 = true /\
    0 <= (bul_entry (txn s) k).2 < 2 ^ 64;
  txn_undo : mem_eq (replay (txn s) (Z.to_nat (stack_top (txn s))) (mem s)) m0 }.

(** Pool geometry under which every mapped word also passes [validate_pointer]. *)
Definition geo_ok (g : geometry) : Prop :=
  format_version g = TLSF_FORMAT_VERSION /\
  0 < pool_start g /\ pool_start g mod 64 = 0 /\
  pool_start g + SIZEOF_TLSF_CTRL <= heap_start g /\ heap_start g mod 64 = 0 /\
  0 < heap_size g /\ heap_size g mod 64 = 0 /\
  heap_start g + heap_size g <= pool_start g + pool_size g < 2 ^ 64.

Lemma mapped_valid s a : geo_ok (geo s) -> mapped s a = true -> validate_pointer_st s a = true.
Proof.
  intros (_ & G1 & G2 & G3 & G4 & G5 & G6 & G7) H. unfold mapped in H. unfold validate_pointer_st, used_addr, pool_end, USED_BYTES_OFF, SIZEOF_TLSF_CTRL in *.
  apply andb_true_iff in H as [_ H]. apply andb_true_iff.
  rewrite orb_true_iff, andb_true_iff, Z.eqb_eq, !Z.leb_le in H. rewrite Z.leb_le, Z.ltb_lt. lia.
Qed.

(** [bul_entry] after the stores of [bul_push]. *)
Lemma bul_entry_set_addr t i a k :
  bul_entry (set_bul_addr i a t) k = if decide (k = i) then (a, (bul_entry t i).2) else bul_entry t k.
Proof.
  unfold bul_entry, set_bul_addr; simpl. rewrite lookup_insert.
  destruct (decide (i = k)), (decide (k = i)); subst; done.
Qed.
Lemma bul_entry_set_old t i v k :
  bul_entry (set_bul_old i v t) k = if decide (k = i) then ((bul_entry t i).1, v) else bul_entry t k.
Proof.
  unfold bul_entry, set_bul_old; simpl. rewrite lookup_insert.
  destruct (decide (i = k)), (decide (k = i)); subst; done.
Qed.

Lemma replay_ext b b' n m :
  (forall k, 0 <= k < Z.of_nat n -> bul_entry b' k = bul_entry b k) -> replay b' n m = replay b n m.
Proof.
  revert m. induction n as [|n IH]; intros m H; simpl; [done|].
  rewrite H by lia. apply IH. intros; apply H; lia.
Qed.

(** Changes outside the live part of the log keep the invariant. *)
Lemma in_txn_ext m0 s s' :
  in_txn m0 s -> geo s' = geo s -> mem s' = mem s ->
  stack_top (txn s') = stack_top (txn s) ->
  (forall k, 0 <= k < stack_top (txn s) -> bul_entry (txn s') k = bul_entry (txn s) k) ->
  in_txn m0 s'.
Proof.
  intros [Ht Hm Ha Hu] Hg Hmem Htop He. split; rewrite ?Htop, ?Hmem; try done.
  - intros k Hk. rewrite He by done. rewrite (mapped_geo s) by done.
    unfold validate_pointer_st, pool_end in *. rewrite Hg. by apply Ha.
  - by rewrite (replay_ext (txn s)) by (intros; apply He; lia).
Qed.

Lemma in_txn_empty s : stack_top (txn s) = 0 -> mem_ok (mem s) -> in_txn (mem s) s.
Proof.
  intros Ht Hm. split; rewrite ?Ht; unfold MAX_BUL_ENTRIES; try done; try lia.
Qed.

Lemma in_txn_mem_eq m0 s : in_txn m0 s -> stack_top (txn s) = 0 -> mem_eq (mem s) m0.
Proof. intros [_ _ _ Hu] Ht. rewrite Ht in Hu. done. Qed.

(** Writing a logged word keeps the transaction undoable. *)
Lemma in_txn_store m0 s s' a v :
  in_txn m0 s -> logged s a -> geo s' = geo s -> txn s' = txn s ->
  mem s' = <[a := u64 v]> (mem s) -> in_txn m0 s'.
Proof.
  intros [Ht Hm Ha Hu] (k & Hk & Hka) Hg Htx Hmem. split; rewrite ?Htx, ?Hmem; try done.
  - by apply mem_ok_insert.
  - intros j Hj. rewrite (mapped_geo s) by done.
    unfold validate_pointer_st, pool_end in *. rewrite Hg. by apply Ha.
  - rewrite replay_absorb; [done|]. exists (Z.to_nat k). rewrite Z2Nat.id by lia.
    split; [lia|done].
Qed.

(** Recording the current value of a word, then making the record live. *)
Lemma in_txn_push m0 s s' a :
  in_txn m0 s -> stack_top (txn s) < MAX_BUL_ENTRIES - 1 ->
  mapped s a = true -> validate_pointer_st s a = true ->
  geo s' = geo s -> mem s' = mem s -> stack_top (txn s') = stack_top (txn s) + 1 ->
  (forall k, bul_entry (txn s') k =
     if decide (k = stack_top (txn s)) then (a, rd s a) else bul_entry (txn s) k) ->
  in_txn m0 s'.
Proof.
  intros [Ht Hm Ha Hu] Htop Hmp Hv Hg Hmem Hst He.
  split; rewrite ?Hst, ?Hmem; try done; [unfold MAX_BUL_ENTRIES in *; lia|..].
  - intros k Hk. rewrite He, (mapped_geo s) by done.
    unfold validate_pointer_st, pool_end in *. rewrite Hg.
    destruct (decide (k = stack_top (txn s))) as [->|]; [|apply Ha; lia].
    simpl. split_and_all; try done; apply Hm.
  - rewrite Z.add_1_r, Z2Nat.inj_succ by lia. simpl. rewrite Z2Nat.id by lia.
    rewrite He. destruct (decide (stack_top (txn s) = stack_top (txn s))) as [_|]; [simpl|done].
    rewrite (replay_ext (txn s)).
    + unfold rd. by rewrite mem_eq_insert_same.
    + intros k Hk. rewrite He. destruct (decide (k = stack_top (txn s))); [lia|done].
Qed.
