(* ===== verification/TlsfTxn.v ===== *)
(** Transactions: logging, committing and rolling back, as rules over the
    invariant [in_txn]; the lock; and what the next process finds after a crash. *)
From S2P Require Import Prelude Machine TlsfTypes TlsfBul TlsfHoare.

Lemma in_txn_mono m0 m0' s : mem_eq m0 m0' -> in_txn m0 s -> in_txn m0' s.
Proof. intros H [Ht Hm Ha Hu]. split; try done. by rewrite Hu. Qed.

Section txn_rules.
Context (C : tlsf -> Prop) (m0 : gmap Z Z).

(** The crash condition covers every state of the open transaction. *)
Definition covers (s : tlsf) : Prop := forall s', frame s s' -> in_txn m0 s' -> dies s' -> C s'.
Lemma covers_frame s s' : frame s s' -> covers s -> covers s'.
Proof. intros Hf Hc s'' Hf' Hi Hd. apply Hc; [by eapply frame_trans|done..]. Qed.

Lemma wp_bul_push a (Q : bool -> tlsf -> Prop) s :
  geo_ok (geo s) -> in_txn m0 s -> covers s ->
  stack_top (txn s) < MAX_BUL_ENTRIES - 1 -> mapped s a = true ->
  (forall s', frame s s' -> in_txn m0 s' -> mem s' = mem s -> logged s' a ->
     stack_top (txn s') = stack_top (txn s) + 1 ->
     (forall b, logged s b -> logged s' b) -> Q true s') ->
  wp (bul_push_word a) C Q s.
Proof.
  intros Hg Hi Hc Htop Hmp HQ. pose proof (txn_top _ _ Hi) as Ht.
  unfold MAX_BUL_ENTRIES in *.
  apply wp_bind, wp_load; [done|]. unfold bul_push. apply wp_bind, wp_gets.
  unfold MAX_BUL_ENTRIES. destruct (Z.leb_spec 64 (stack_top (txn s))); [lia|].
  set (T := stack_top (txn s)) in *.
  assert (forall s', frame s s' -> mem s' = mem s -> stack_top (txn s') = T ->
    (forall k, k < T -> bul_entry (txn s') k = bul_entry (txn s) k) -> in_txn m0 s') as Hext.
  { intros s' (Hg'&_) Hm' Ht' He'. eapply in_txn_ext; [done..|]. intros; apply He'; lia. }
  apply wp_bind, wp_upd_txn; [by apply Hc|].
  apply wp_bind, wp_upd_txn.
  { intros Hd. apply Hc; [st_done| |done]. apply Hext; [st_done..|].
    intros k Hk. st_simpl. rewrite bul_entry_set_addr.
    destruct (decide (k = T)); [lia|done]. }
  apply wp_bind, wp_upd_txn.
  { intros Hd. apply Hc; [st_done| |done]. apply Hext; [st_done..|].
    intros k Hk. st_simpl. rewrite bul_entry_set_old, !bul_entry_set_addr.
    destruct (decide (k = T)); [lia|done]. }
  apply wp_ret. 
  assert (u32 (T + 1) = T + 1) as E32.
  { unfold u32. rewrite Z.mod_small by lia. done. }
  assert (forall k t, bul_entry (set_stack_top (u32 (T + 1)) t) k = bul_entry t k) as Est by done.
  assert (forall k, bul_entry (set_stack_top (u32 (T + 1))
    (set_bul_old T (rd s a) (set_bul_addr T a (txn s)))) k =
    if decide (k = T) then (a, rd s a) else bul_entry (txn s) k) as He.
  { intros k. rewrite Est, bul_entry_set_old, !bul_entry_set_addr.
    destruct (decide (k = T)); [|done]. by destruct (decide (T = T)). }
  apply HQ.
  - st_done.
  - eapply (in_txn_push m0 s); unfold MAX_BUL_ENTRIES in *; st_simpl; try done; try lia.
    by apply mapped_valid.
  - st_done.
  - exists T. st_simpl. rewrite E32.
    split; [lia|]. specialize (He T). destruct (decide (T = T)); [|done].
    exact (f_equal fst He).
  - st_simpl. done.
  - intros b (k & Hk & Hb). exists k. st_simpl. rewrite E32.
    split; [lia|]. specialize (He k). destruct (decide (k = T)); [lia|].
    rewrite <- Hb. exact (f_equal fst He).
Qed.

Lemma wp_store_logged a v (Q : unit -> tlsf -> Prop) s :
  in_txn m0 s -> covers s -> mapped s a = true -> logged s a ->
  (forall s', frame s s' -> in_txn m0 s' -> mem s' = <[a := u64 v]> (mem s) ->
     txn s' = txn s -> Q tt s') ->
  wp (store a v) C Q s.
Proof.
  intros Hi Hc Hmp Hl HQ. apply wp_store; [done|by apply Hc|].
  apply HQ; st_simpl; try done.
  - st_done.
  - eapply in_txn_store; [done..| | | |]; st_done.
Qed.

Lemma wp_rollback n (Q : bool -> tlsf -> Prop) s :
  geo_ok (geo s) -> in_txn m0 s -> covers s -> Z.of_nat n <= stack_top (txn s) ->
  mem_eq (replay (txn s) n (mem s)) m0 ->
  (forall s', frame s s' -> in_txn m0 s' -> stack_top (txn s') = 0 -> Q true s') ->
  wp (bul_rollback n) C Q s.
Proof.
  revert s. induction n as [|n IH]; intros s Hg Hi Hc Hn Hr HQ; simpl.
  - apply wp_bind, wp_upd_txn; [by apply Hc|]. apply wp_ret. apply HQ; [| |done].
    + st_done.
    + eapply in_txn_mono; [exact Hr|]. simpl.
      match goal with |- in_txn _ ?s' => replace (mem s) with (mem s') end.
      2:{ st_done. }
      apply in_txn_empty; [done|]. st_simpl. apply (txn_mem _ _ Hi).
  - destruct (txn_addr _ _ Hi (Z.of_nat n)) as (Hmp & Hv & Hrng); [lia|].
    apply wp_bind, wp_gets. apply wp_bind, wp_gets. rewrite Hv. simpl.
    apply wp_bind, wp_store_logged; try done.
    { exists (Z.of_nat n). split; [lia|done]. }
    intros s' Hf Hi' Hm' Htx. apply IH; try done.
    + by destruct Hf as (-> & _).
    + by eapply covers_frame.
    + rewrite Htx. lia.
    + rewrite Htx, Hm', u64_small by done. exact Hr.
    + intros s'' Hf'. apply HQ. by eapply frame_trans.
Qed.

(** Rolling back an open transaction succeeds and restores its start, at
    whatever point the process dies on the way. *)
Lemma wp_recover (Q : bool -> tlsf -> Prop) s :
  geo_ok (geo s) -> in_txn m0 s -> covers s ->
  (forall s', frame s s' -> in_txn m0 s' -> stack_top (txn s') = 0 -> Q true s') ->
  wp bul_recover_internal C Q s.
Proof.
  intros Hg Hi Hc HQ. unfold bul_recover_internal. apply wp_bind, wp_gets.
  pose proof (txn_top _ _ Hi) as Ht.
  destruct (Z.eqb_spec (stack_top (txn s)) 0); [by apply wp_ret, HQ|].
  destruct (Z.leb_spec MAX_BUL_ENTRIES (stack_top (txn s))); [lia|].
  apply wp_rollback; try done; [lia|]. apply (txn_undo _ _ Hi).
Qed.

Lemma wp_commit (Q : unit -> tlsf -> Prop) s :
  in_txn m0 s -> covers s ->
  (forall s', frame s s' -> mem s' = mem s -> in_txn (mem s) s' -> stack_top (txn s') = 0 -> dies s' -> C s') ->
  (forall s', frame s s' -> mem s' = mem s -> in_txn (mem s) s' -> stack_top (txn s') = 0 -> Q tt s') ->
  wp bul_commit C Q s.
Proof.
  intros Hi Hc HC HQ. unfold bul_commit.
  assert (forall s', geo s' = geo s -> mem s' = mem s -> stack_top (txn s') = 0 ->
    in_txn (mem s) s') as Hempty.
  { intros s' Hg Hm Ht. rewrite <- Hm. apply in_txn_empty; [done|].
    rewrite Hm. apply (txn_mem _ _ Hi). }
  apply wp_bind, wp_upd_txn; [by apply Hc|].
  apply wp_upd_txn.
  - intros Hd. apply HC; [| |apply Hempty| |done]; st_done.
  - apply HQ; [| |apply Hempty|]; st_done.
Qed.
End txn_rules.
