(* ===== verification/TlsfOwners.v ===== *)
(** Block ownership: the [uid[12]] array as a list, the rules of the loops over
    it, the state a crashed process leaves, and recovery by the next one. *)
From S2P Require Import Prelude Machine TlsfTypes TlsfBul TlsfHeap TlsfAlloc TlsfFacts TlsfHoare TlsfTxn.

(** ** Headers *)

(** A header at [b] lies inside the heap. *)
Definition header_in (s : tlsf) (b : Z) : Prop :=
  b mod 8 = 0 /\ heap_start (geo s) <= b /\ b + HEADER_SIZE <= pool_end s.

Lemma fld_header s b off : geo_ok (geo s) -> header_in s b -> 0 <= off < 64 -> off mod 8 = 0 ->
  fld b off = b + off /\ mapped s (b + off) = true.
Proof.
  intros (_ & G1 & G2 & G3 & G4 & G5 & G6 & G7) (H1 & H2 & H3) Ho Hm.
  unfold pool_end, HEADER_SIZE, SIZEOF_TLSF_CTRL in *. split.
  - unfold fld. rewrite u64_small; lia.
  - unfold mapped, pool_end. rewrite Z.add_mod, H1, Hm by lia. simpl.
    apply orb_true_iff; right. apply andb_true_iff. rewrite !Z.leb_le.
    pose proof (Z.div_mod off 8). lia.
Qed.

Lemma header_in_frame s s' b : geo s' = geo s -> header_in s b -> header_in s' b.
Proof. unfold header_in, pool_end. by intros ->. Qed.

(** Slot [i] of the owner array of the block at [b]. *)
Definition uid_word (b i : Z) : Z := b + OFF_uid + i / 4 * 8.
Definition uid_at (m : gmap Z Z) (b i : Z) : Z := uid_slot (rdm m (uid_word b i)) i.
Definition slots : list Z := seqZ 0 12.
Definition uids (m : gmap Z Z) (b : Z) : list Z := uid_at m b <$> slots.

Lemma uid_word_addr_eq s b i : geo_ok (geo s) -> header_in s b -> 0 <= i < 12 ->
  uid_word_addr b i = uid_word b i /\ mapped s (uid_word b i) = true.
Proof.
  intros Hg Hh Hi. unfold uid_word_addr, uid_word, OFF_uid.
  replace (b + 32 + i / 4 * 8) with (b + (32 + i / 4 * 8)) by lia.
  assert (0 <= i / 4 <= 2).
  { split; [apply Z.div_pos; lia|]. apply Z.lt_succ_r, Z.div_lt_upper_bound; lia. }
  apply (fld_header s); try done; [lia|].
  replace (32 + i / 4 * 8) with ((4 + i / 4) * 8) by lia. apply Z.mod_mul; lia.
Qed.

Lemma uids_lookup m b i : 0 <= i < 12 -> uids m b !! Z.to_nat i = Some (uid_at m b i).
Proof.
  intros Hi. unfold uids, slots. rewrite list_lookup_fmap, lookup_seqZ_lt by lia.
  simpl. do 2 f_equal. lia.
Qed.
Lemma uids_length m b : length (uids m b) = 12%nat.
Proof. done. Qed.

(** Reading back a slot after writing one. *)
Lemma uid_slot_bits w i k : 0 <= i -> 0 <= k ->
  Z.testbit (uid_slot w i) k = (k <? 16) && Z.testbit w (k + 16 * (i mod 4)).
Proof.
  intros Hi Hk. unfold uid_slot. change 0xFFFF with (2 ^ 16 - 1).
  pose proof (Z.mod_pos_bound i 4 ltac:(lia)).
  rewrite Z.land_spec, testbit_mask, Z.shiftr_spec by lia. apply andb_comm.
Qed.
Lemma uid_slot_range w i : 0 <= uid_slot w i < 2 ^ 16.
Proof. unfold uid_slot. apply land_bound_r; lia. Qed.

Lemma uid_slot_set_bits w i u k : 0 <= w < 2 ^ 64 -> 0 <= i -> 0 <= k ->
  let sh := 16 * (i mod 4) in
  Z.testbit (uid_slot_set w i u) k =
    if (sh <=? k) && (k <? sh + 16) then Z.testbit (u16 u) (k - sh) else Z.testbit w k.
Proof.
  intros Hw Hi Hk sh. unfold uid_slot_set. fold sh. change 0xFFFF with (2 ^ 16 - 1).
  pose proof (Z.mod_pos_bound i 4 ltac:(lia)).
  assert (0 <= u16 u < 2 ^ 16) by (apply Z.mod_pos_bound; lia).
  rewrite Z.lor_spec, Z.land_spec, testbit_not64, !Z.shiftl_spec by lia.
  destruct (Z.leb_spec sh k); simpl.
  - rewrite testbit_mask by lia. destruct (Z.ltb_spec k (sh + 16)), (Z.ltb_spec (k - sh) 16); try lia.
    + destruct (Z.ltb_spec k 64); [|lia]. by rewrite andb_false_r.
    + rewrite (testbit_high 16 (u16 u)) by lia. rewrite orb_false_r.
      destruct (Z.ltb_spec k 64); [apply andb_true_r|]. by rewrite (testbit_high 64 w) by lia.
  - rewrite !(Z.testbit_neg_r _ (k - sh)) by lia. rewrite orb_false_r.
    destruct (Z.ltb_spec k 64); [apply andb_true_r|lia].
Qed.

Lemma uid_slot_set_range w i u : 0 <= w < 2 ^ 64 -> 0 <= i -> 0 <= uid_slot_set w i u < 2 ^ 64.
Proof.
  intros Hw Hi. pose proof (Z.mod_pos_bound i 4 ltac:(lia)).
  unfold uid_slot_set. apply lor_bound; [| |lia].
  - rewrite Z.land_comm. by apply land_bound_r.
  - unfold u16. pose proof (Z.mod_pos_bound u (2 ^ 16)).
    rewrite Z.shiftl_mul_pow2 by lia.
    assert (2 ^ (16 * (i mod 4)) <= 2 ^ 48) by (apply Z.pow_le_mono_r; lia).
    assert (0 < 2 ^ (16 * (i mod 4))) by (apply Z.pow_pos_nonneg; lia). nia.
Qed.

Lemma uid_slot_of_set w i u j : 0 <= w < 2 ^ 64 -> 0 <= i -> 0 <= j ->
  uid_slot (uid_slot_set w i u) j =
    if decide (j mod 4 = i mod 4) then u16 u else uid_slot w j.
Proof.
  intros Hw Hi Hj.
  pose proof (Z.mod_pos_bound i 4 ltac:(lia)). pose proof (Z.mod_pos_bound j 4 ltac:(lia)).
  assert (0 <= u16 u < 2 ^ 16) by (apply Z.mod_pos_bound; lia).
  apply Z.bits_inj'; intros k Hk.
  rewrite uid_slot_bits, uid_slot_set_bits by lia.
  destruct (decide (j mod 4 = i mod 4)) as [->|Hne].
  - destruct (Z.ltb_spec k 16); simpl; [|by rewrite (testbit_high 16 (u16 u)) by lia].
    destruct (Z.leb_spec (16 * (i mod 4)) (k + 16 * (i mod 4))); [|lia].
    destruct (Z.ltb_spec (k + 16 * (i mod 4)) (16 * (i mod 4) + 16)); [|lia].
    simpl. f_equal; lia.
  - rewrite uid_slot_bits by lia. destruct (Z.ltb_spec k 16); simpl; [|done].
    destruct (Z.leb_spec (16 * (i mod 4)) (k + 16 * (j mod 4)));
      destruct (Z.ltb_spec (k + 16 * (j mod 4)) (16 * (i mod 4) + 16)); simpl; try done; lia.
Qed.

(** The memory after [block->uid[i] = u]. *)
Definition mem_uid_set (m : gmap Z Z) (b i u : Z) : gmap Z Z :=
  <[uid_word b i := uid_slot_set (rdm m (uid_word b i)) i u]> m.

Lemma uid_at_set m b i u j : mem_ok m -> 0 <= i < 12 -> 0 <= j < 12 ->
  uid_at (mem_uid_set m b i u) b j = if decide (j = i) then u16 u else uid_at m b j.
Proof.
  intros Hm Hi Hj. unfold uid_at, mem_uid_set. rewrite rdm_insert.
  pose proof (Z.div_mod i 4). pose proof (Z.div_mod j 4).
  destruct (decide (uid_word b i = uid_word b j)) as [E|E].
  - unfold uid_word in E. rewrite uid_slot_of_set by (try apply Hm; lia).
    destruct (decide (j mod 4 = i mod 4)), (decide (j = i)); try done; try lia.
    unfold uid_word. by replace (j / 4) with (i / 4) by lia.
  - destruct (decide (j = i)) as [->|]; [done|done].
Qed.

Lemma uids_set m b i u : mem_ok m -> 0 <= i < 12 ->
  uids (mem_uid_set m b i u) b = <[Z.to_nat i := u16 u]> (uids m b).
Proof.
  intros Hm Hi. apply list_eq. intros n.
  destruct (decide (n < 12)%nat) as [Hn|Hn].
  - rewrite <- (Nat2Z.id n). rewrite uids_lookup by lia. rewrite uid_at_set by (try done; lia).
    destruct (decide (Z.of_nat n = i)) as [<-|Hne].
    + rewrite list_lookup_insert_eq; [done|rewrite uids_length; lia].
    + rewrite list_lookup_insert_ne by lia. by rewrite uids_lookup by lia.
  - rewrite !lookup_ge_None_2; [done|rewrite length_insert, uids_length; lia|rewrite uids_length; lia].
Qed.

(** ** Loops over the owner array *)

Section owner_rules.
Context (C : tlsf -> Prop) (s : tlsf) (b : Z).
Hypothesis Hgeo : geo_ok (geo s).
Hypothesis Hhdr : header_in s b.

Lemma wp_uid_get i (Q : Z -> tlsf -> Prop) :
  0 <= i < 12 -> Q (uid_at (mem s) b i) s -> wp (uid_get b i) C Q s.
Proof.
  intros Hi HQ. destruct (uid_word_addr_eq s b i) as [E Hm]; [done..|].
  unfold uid_get. rewrite E. apply wp_bind, wp_load; [done|]. by apply wp_ret.
Qed.

Lemma wp_uid_scan p n i (Q : Z -> tlsf -> Prop) :
  0 <= i -> i + Z.of_nat n = 12 ->
  Q (find_index p (drop (Z.to_nat i) (uids (mem s) b)) i) s -> wp (uid_scan n i b p) C Q s.
Proof.
  revert i. induction n as [|n IH]; intros i Hi Hn HQ; simpl.
  - rewrite drop_ge in HQ by (rewrite uids_length; lia). by apply wp_ret.
  - apply wp_bind, wp_uid_get; [lia|].
    erewrite drop_S in HQ by (apply uids_lookup; lia). simpl in HQ.
    destruct (p (uid_at (mem s) b i)); [by apply wp_ret|].
    apply IH; [lia..|]. by replace (Z.to_nat (i + 1)) with (S (Z.to_nat i)) by lia.
Qed.

Lemma wp_uid_find uid (Q : Z -> tlsf -> Prop) :
  Q (find_index (fun u => u =? uid) (uids (mem s) b) 0) s -> wp (uid_find b uid) C Q s.
Proof. intros. by apply wp_uid_scan. Qed.
Lemma wp_uid_find_empty (Q : Z -> tlsf -> Prop) :
  Q (find_index (fun u => u =? 0) (uids (mem s) b) 0) s -> wp (uid_find_empty b) C Q s.
Proof. intros. by apply wp_uid_scan. Qed.

(** Number of owners. *)
Lemma wp_uid_count_loop n i c (Q : Z -> tlsf -> Prop) :
  0 <= i -> i + Z.of_nat n = 12 ->
  Q (c + Z.of_nat (length (filter (fun u => u <> 0) (drop (Z.to_nat i) (uids (mem s) b))))) s ->
  wp (uid_count_loop n i b c) C Q s.
Proof.
  revert i c. induction n as [|n IH]; intros i c Hi Hn HQ; simpl.
  - rewrite drop_ge in HQ by (rewrite uids_length; lia). apply wp_ret.
    simpl in HQ. by rewrite Z.add_0_r in HQ.
  - apply wp_bind, wp_uid_get; [lia|].
    erewrite drop_S in HQ by (apply uids_lookup; lia). 
    apply IH; [lia..|]. replace (Z.to_nat (i + 1)) with (S (Z.to_nat i)) by lia.
    rewrite filter_cons in HQ.
    destruct (Z.eqb_spec (uid_at (mem s) b i) 0), (decide (uid_at (mem s) b i <> 0));
      simpl in *; try done.
    match goal with H : Q ?x s |- Q ?y s => replace y with x by lia; done end.
Qed.
Lemma wp_uid_count (Q : Z -> tlsf -> Prop) :
  Q (Z.of_nat (length (filter (fun u => u <> 0) (uids (mem s) b)))) s -> wp (uid_count b) C Q s.
Proof. intros H. apply wp_uid_count_loop; [lia|done|]. exact H. Qed.

(** A logged slot is overwritten. *)
Lemma wp_uid_set_logged m0 i u (Q : unit -> tlsf -> Prop) :
  in_txn m0 s -> covers C m0 s -> 0 <= i < 12 -> logged s (uid_word b i) ->
  (forall s', frame s s' -> in_txn m0 s' -> mem s' = mem_uid_set (mem s) b i u ->
     txn s' = txn s -> Q tt s') ->
  wp (uid_set b i u) C Q s.
Proof.
  intros Hi Hc Hr Hl HQ. destruct (uid_word_addr_eq s b i) as [E Hm]; [done..|].
  unfold uid_set. rewrite E. apply wp_bind, wp_load; [done|].
  eapply wp_store_logged; [done..|]. intros s' Hf Hi' Hm' Ht. apply HQ; try done.
  rewrite Hm'. unfold mem_uid_set. rewrite u64_small; [done|].
  apply uid_slot_set_range; [apply (txn_mem _ _ Hi)|lia].
Qed.
End owner_rules.

(** ** Crash and recovery *)

(** The lock as a process [me] inside an operation may leave it: when it is free
    and not marked dead, no transaction is open. *)
Definition lock_state (me top : Z) (m : pmutex) : Prop :=
  mx_unrecoverable m = false /\ (mx_owner m = 0 \/ mx_owner m = me) /\
  (mx_owner m = 0 -> mx_dead m = false -> top = 0).

(** What a process that dies inside an operation may leave: the lock free or held
    by it, and an undo log that leads back to a memory in [P]. *)
Definition crash_ok (P : gmap Z Z -> Prop) (s0 s : tlsf) : Prop :=
  dies s /\ same_world s0 s /\ (exists m, P m /\ in_txn m s) /\
  lock_state (self (thr s0)) (stack_top (txn s)) (mutex s).

(** The kernel releases the dead process's lock; process [q] runs next, and will
    itself live for [l] stores. *)
Definition reboot (q : Z) (l : option nat) (s : tlsf) : tlsf :=
  set_thr (Thread 0 q l) (set_mutex (mutex_owner_died (self (thr s)) (mutex s)) s).

Lemma wp_lock_and_recover C m0 (Q : Z -> tlsf -> Prop) s :
  geo_ok (geo s) -> in_txn m0 s -> self (thr s) <> 0 -> mx_owner (mutex s) = 0 ->
  lock_state 0 (stack_top (txn s)) (mutex s) ->
  (forall s', same_world s s' -> in_txn m0 s' ->
     lock_state (self (thr s)) (stack_top (txn s')) (mutex s') -> dies s' -> C s') ->
  (forall s', same_world s s' -> in_txn m0 s' -> stack_top (txn s') = 0 ->
     (mx_dead (mutex s) = false -> mem s' = mem s) ->
     mutex s' = Mutex (self (thr s)) 1 false false -> Q Err.OK s') ->
  wp lock_and_recover C Q s.
Proof.
  intros Hg Hi Hs Ho (Hu & _ & Htop) HC HQ. unfold lock_and_recover. apply wp_bind, wp_gets.
  rewrite (proj1 Hg), Z.eqb_refl. simpl.
  assert (forall s', same_world s s' -> in_txn m0 s' -> dies s' ->
    mx_owner (mutex s') = self (thr s) -> mx_unrecoverable (mutex s') = false -> C s') as HC'.
  { intros s' ??? E ?. apply HC; try done. unfold lock_state. split_and_all; [done|by right|].
    intros E'. congruence. }
  assert (forall s', same_world s s' ->
    mutex s' = Mutex (self (thr s)) 1 false false -> in_txn m0 s' -> stack_top (txn s') = 0 ->
    (mx_dead (mutex s) = false -> mem s' = mem s) ->
    wp (lock_and_recover_end 0) C Q s') as Hend.
  { intros s' Hw E4 Hi' Ht' Hm'. unfold lock_and_recover_end. simpl.
    apply wp_bind, wp_gets. apply wp_bind, wp_upd_txn.
    { intros ?. apply HC'; try done; by rewrite E4. }
    apply wp_bind, wp_set_errno. apply wp_ret. apply HQ; try st_done.
    - eapply same_world_trans; [exact Hw|]. st_done.
    - eapply in_txn_ext; [exact Hi'|..]; st_done. }
  apply wp_bind. eapply wp_on_mutex.
  { assert ((0 =? self (thr s)) = false) as E by (apply Z.eqb_neq; congruence).
    unfold mutex_lock. rewrite Hu, Ho, E. reflexivity. }
  { intros ?. apply HC; try done. unfold lock_state. split_and_all; auto. }
  set (s1 := set_mutex _ _).
  assert (same_world s s1) as Hw1 by (unfold s1; st_done).
  assert (in_txn m0 s1) as Hi1.
  { eapply in_txn_ext; [exact Hi|..]; unfold s1; st_done. }
  destruct (mx_dead (mutex s)) eqn:Hd; simpl.
  - assert (forall s', frame s1 s' -> same_world s s' /\
      mutex s' = Mutex (self (thr s)) 1 true false) as Hf1.
    { intros s' Hf. split; [by eapply same_world_trans, frame_world|].
      by destruct Hf as (_ & _ & -> & _). }
    apply wp_bind. eapply (wp_recover C m0); [by unfold s1; st_simpl|done|..].
    { intros s' Hf Hi' Hd'. apply Hf1 in Hf as [Hw Hmx]. apply HC'; try done; by rewrite Hmx. }
    intros s' Hf Hi' Ht'. apply Hf1 in Hf as [Hw Hmx]. simpl.
    apply wp_bind. eapply wp_on_mutex.
    { unfold mutex_consistent. destruct Hw as (_ & _ & -> & _). rewrite Hmx. simpl.
      rewrite Z.eqb_refl. reflexivity. }
    { intros ?. apply HC'; try done; by rewrite Hmx. }
    apply Hend; try st_done.
    + eapply same_world_trans; [exact Hw|]. st_done.
    + eapply in_txn_ext; [exact Hi'|..]; st_done.
  - apply Hend; unfold s1; st_done.
Qed.

(** The next process that takes the lock after a crash finds a memory in [P], an
    empty log, and holds the lock in a consistent state; if it dies in turn before
    it got there, it leaves what the first one left. *)
Lemma wp_recover_after_crash q l P s0 s :
  geo_ok (geo s0) -> q <> 0 -> crash_ok P s0 s ->
  wp lock_and_recover (crash_ok P (reboot q l s))
    (fun rc s' => rc = Err.OK /\ (exists m, P m /\ mem_eq (mem s') m) /\
       stack_top (txn s') = 0 /\ mutex s' = Mutex q 1 false false /\
       same_world (reboot q l s) s')
    (reboot q l s).
Proof.
  intros Hg Hq (_ & (Cg & _ & Cs & _) & (m & Hm & Him) & Cu & Co & Ch).
  assert (lock_state 0 (stack_top (txn s)) (mutex_owner_died (self (thr s)) (mutex s))) as Hl.
  { unfold mutex_owner_died, lock_state. rewrite Cs.
    destruct (Z.eqb_spec (mx_owner (mutex s)) (self (thr s0))); split_and_all; simpl; try done; auto.
    destruct Co; [by left|congruence]. }
  apply (wp_lock_and_recover _ m); try done.
  - by rewrite <- Cg in Hg.
  - eapply in_txn_ext; [exact Him|..]; done.
  - simpl. destruct Hl as (_ & [E|E] & _); done.
  - intros s' Hw Hi' Hl' Hd. split; [done|]. by eauto.
  - intros s' Hw Hi' Ht' _ Hmx. split_and_all; try done.
    exists m. split; [done|]. by eapply in_txn_mem_eq.
Qed.
Lemma recover_after_crash q P s0 s :
  geo_ok (geo s0) -> q <> 0 -> crash_ok P s0 s ->
  exists s' m, lock_and_recover (reboot q None s) = Ret Err.OK s' /\
    P m /\ mem_eq (mem s') m /\ stack_top (txn s') = 0 /\
    mutex s' = Mutex q 1 false false.
Proof.
  intros Hg Hq Hc. pose proof (wp_recover_after_crash q None P s0 s Hg Hq Hc) as Hwp.
  unfold wp in Hwp. destruct (lock_and_recover _) as [rc s'| | |s'].
  - destruct Hwp as (-> & (m & ? & ?) & ? & ? & _). by exists s', m.
  - done.
  - done.
  - destruct Hwp as (Hd & (_ & _ & _ & Hl) & _). rewrite Hl in Hd; done.
Qed.

(** Processes that die one after the other while they recover. *)
Inductive recoveries : tlsf -> tlsf -> Prop :=
  | recoveries_done s : recoveries s s
  | recoveries_dies q n s s' s'' :
      q <> 0 -> lock_and_recover (reboot q (Some n) s) = Crash s' ->
      recoveries s' s'' -> recoveries s s''.

Lemma recoveries_crash_ok P s s' s0 :
  geo_ok (geo s0) -> crash_ok P s0 s -> recoveries s s' ->
  exists s0', geo_ok (geo s0') /\ crash_ok P s0' s'.
Proof.
  intros Hg Hc Hr. revert s0 Hg Hc. induction Hr as [s|q n s s' s'' Hq E Hr IH]; intros s0 Hg Hc.
  - by exists s0.
  - apply (IH (reboot q (Some n) s)).
    + simpl. destruct Hc as (_ & (-> & _) & _). done.
    + eapply wp_crashes; [|exact E]. eapply wp_mono; [by apply (wp_recover_after_crash q (Some n) P s0)|done|].
      intros a s1 H. exact H.
Qed.

(** An operation that runs to its end when its process does not die. *)
Lemma wp_alive {A} (m : TM A) P Q s :
  life (thr s) = None -> wp m (crash_ok P s) Q s -> exists a s', m s = Ret a s' /\ Q a s'.
Proof.
  unfold wp. intros Hl H. destruct (m s) as [a s'| | |s']; try done; [by eauto|].
  destruct H as (Hd & (_ & _ & _ & Hl') & _). by rewrite Hl' in Hd.
Qed.
