(* ===== verification/TlsfOwnership.v ===== *)
(** The ownership operations of the allocator against their specification on the
    list of owners: [tlsf_link], [tlsf_check_uid], [tlsf_free] while other owners
    remain, [tlsf_free_dc], the dc accessors; and their atomicity under crashes. *)
From S2P Require Import Prelude Machine TlsfTypes TlsfBul TlsfHeap TlsfAlloc TlsfApi TlsfFacts TlsfHoare TlsfTxn TlsfOwners.

(** ** The specification: owners as a list of twelve slots, 0 for an empty one *)

(** [tlsf_link]: result code and new owners. *)
Definition link_model (us : list Z) (uid : Z) : Z * list Z :=
  if decide (uid ∈ us) then (- Err.UID_DUPLICATE, us)
  else
    let slot := find_index (fun u => u =? 0) us 0 in
    if slot <? 0 then (- Err.UID_FULL, us)
    else (0, <[Z.to_nat slot := uid]> us).

(** Dropping one owner. *)
Definition drop_owner (uid : Z) (us : list Z) : list Z :=
  (fun u => if u =? uid then 0 else u) <$> us.

(** Owners still registered. *)
Definition owners (us : list Z) : list Z := filter (fun u => u <> 0) us.

(** ** Quiet pools and live blocks *)

(** No operation in progress; the calling thread exists. *)
Definition quiet (s : tlsf) : Prop :=
  geo_ok (geo s) /\ mem_ok (mem s) /\ stack_top (txn s) = 0 /\ mutex s = mutex_free /\
  self (thr s) <> 0.

(** An allocated block with a valid header at [b]. *)
Definition live (s : tlsf) (b : Z) : Prop :=
  header_in s b /\ 0 < b /\ sig_ok (rd s (b + OFF_sig_dc)) = true /\
  Z.land (rd s (b + OFF_size_flags)) BLOCK_FREE = 0.

(** Only the owner array of [b] may differ. *)
Definition same_but_owners (b : Z) (m m' : gmap Z Z) : Prop :=
  forall a, ~ (b + OFF_uid <= a < b + OFF_prev_size) -> rdm m' a = rdm m a.

Lemma uid_word_range b i : 0 <= i < 12 -> b + OFF_uid <= uid_word b i < b + OFF_prev_size.
Proof.
  intros Hi. unfold uid_word, OFF_uid, OFF_prev_size.
  assert (0 <= i / 4 <= 2).
  { split; [apply Z.div_pos; lia|]. apply Z.lt_succ_r, Z.div_lt_upper_bound; lia. }
  lia.
Qed.
Lemma same_but_owners_set b m i u : 0 <= i < 12 -> same_but_owners b m (mem_uid_set m b i u).
Proof.
  intros Hi a Ha. unfold mem_uid_set. rewrite rdm_insert_ne; [done|].
  pose proof (uid_word_range b i Hi). lia.
Qed.
Lemma same_but_owners_trans b m1 m2 m3 :
  same_but_owners b m1 m2 -> same_but_owners b m2 m3 -> same_but_owners b m1 m3.
Proof. intros H1 H2 a Ha. by rewrite H2, H1. Qed.

Lemma live_frame s s' b : geo s' = geo s -> mem s' = mem s -> live s b -> live s' b.
Proof.
  unfold live, rd. intros Hg -> (H1 & H2). split; [by eapply header_in_frame|done].
Qed.

(** ** Rules for the checks every operation starts with *)
Section check_rules.
Context (C : tlsf -> Prop) (s : tlsf) (b : Z).
Hypothesis Hgeo : geo_ok (geo s).
Hypothesis Hhdr : header_in s b.

Lemma wp_load_field off (Q : Z -> tlsf -> Prop) :
  0 <= off < 64 -> off mod 8 = 0 -> Q (rd s (b + off)) s -> wp (load (fld b off)) C Q s.
Proof.
  intros. destruct (fld_header s b off) as [-> Hm]; [done..|]. by apply wp_load.
Qed.
Lemma wp_block_is_free (Q : bool -> tlsf -> Prop) :
  Q (negb (Z.land (rd s (b + OFF_size_flags)) BLOCK_FREE =? 0)) s -> wp (block_is_free b) C Q s.
Proof. intros. apply wp_bind, wp_load_field; [done..|]. by apply wp_ret. Qed.
Lemma wp_check_signature (Q : bool -> tlsf -> Prop) :
  Q (sig_ok (rd s (b + OFF_sig_dc))) s -> wp (check_signature b) C Q s.
Proof. intros. apply wp_bind, wp_load_field; [done..|]. by apply wp_ret. Qed.
Lemma wp_validate_block (Q : bool -> tlsf -> Prop) :
  Q (sig_ok (rd s (b + OFF_sig_dc))) s -> wp (validate_block b) C Q s.
Proof.
  intros. apply wp_bind, wp_gets.
  destruct (fld_header s b 0) as [_ Hm]; [done..|]. rewrite Z.add_0_r in Hm.
  rewrite mapped_valid by done. simpl. by apply wp_check_signature.
Qed.
End check_rules.

Lemma block_of_ptr s b : geo_ok (geo s) -> header_in s b -> 0 < b ->
  block_from_ptr (b + HEADER_SIZE) = b /\ b + HEADER_SIZE <> 0.
Proof.
  intros (_&?&?&?&?&?&?&?) (_ & ? & ?) ?. unfold block_from_ptr, pool_end, HEADER_SIZE in *.
  split; [|lia]. rewrite u64_small; lia.
Qed.

(** Leaving the operation. *)
Lemma wp_unlock_ret C {A} (r : A) (Q : A -> tlsf -> Prop) s :
  mutex s = Mutex (self (thr s)) 1 false false -> (dies s -> C s) ->
  Q r (set_mutex mutex_free (ticked s)) -> wp (unlock_ret r) C Q s.
Proof.
  intros Hm HC HQ. apply wp_bind. eapply wp_on_mutex; [|done|by apply wp_ret].
  unfold mutex_unlock. rewrite Hm. simpl. by rewrite Z.eqb_refl.
Qed.

Lemma find_index_elem (us : list Z) (uid : Z) :
  0 <= find_index (fun u => u =? uid) us 0 <-> uid ∈ us.
Proof.
  destruct (find_index_spec (fun u => u =? uid) us 0) as [[-> Hf]|(n & x & -> & Hl & Hx & _)].
  - split; [lia|]. intros Hin. rewrite Forall_forall in Hf. specialize (Hf _ Hin).
    apply Z.eqb_neq in Hf. done.
  - split; [|lia]. intros _. apply Z.eqb_eq in Hx as ->. by eapply list_elem_of_lookup_2.
Qed.

(** A slot found by a search of the owner array is one of the twelve. *)
Lemma find_index_slot p m b : 0 <= find_index p (uids m b) 0 ->
  0 <= find_index p (uids m b) 0 < 12.
Proof.
  destruct (find_index_spec p (uids m b) 0) as [[-> _]|(n & x & -> & Hl & _)]; [lia|].
  apply lookup_lt_Some in Hl. rewrite uids_length in Hl. lia.
Qed.

(** The crash condition of an operation covers its transaction. *)
Lemma crash_covers (P : gmap Z Z -> Prop) m0 s0 s :
  same_world s0 s -> P m0 -> mutex s = Mutex (self (thr s0)) 1 false false ->
  self (thr s0) <> 0 -> covers (crash_ok P s0) m0 s.
Proof.
  intros Hw HP Hm Hne s' Hf Hi Hd. split; [done|split; [|split; [by eauto|]]].
  - by eapply same_world_trans, frame_world.
  - destruct Hf as (_ & _ & -> & _). rewrite Hm. unfold lock_state; simpl.
    split_and_all; auto. congruence.
Qed.

(** ** The common prefix: lock, locate and validate the block *)

(** After a successful lock of a quiet pool the operation runs in a state that
    differs only in the lock, with an empty transaction open. *)
Lemma wp_locked C (Q : Z -> tlsf -> Prop) s :
  quiet s ->
  (forall s', same_world s s' -> in_txn (mem s) s' ->
     lock_state (self (thr s)) (stack_top (txn s')) (mutex s') -> dies s' -> C s') ->
  (forall s', same_world s s' -> in_txn (mem s) s' -> stack_top (txn s') = 0 ->
     mem s' = mem s -> mutex s' = Mutex (self (thr s)) 1 false false -> Q Err.OK s') ->
  wp lock_and_recover C Q s.
Proof.
  intros (Hg & Hm & Ht & Hx & Hs) HC HQ.
  apply (wp_lock_and_recover C (mem s)); try done.
  - by apply in_txn_empty.
  - by rewrite Hx.
  - rewrite Hx. unfold lock_state; simpl. auto.
  - intros s' Hw Hi Ht' Hm' Hx'. apply HQ; try done. apply Hm'. by rewrite Hx.
Qed.

(** Facts that survive taking the lock. *)
Lemma locked_block s s1 b :
  quiet s -> live s b -> same_world s s1 -> mem s1 = mem s ->
  geo_ok (geo s1) /\ header_in s1 b /\ live s1 b /\
  block_from_ptr (b + HEADER_SIZE) = b /\ (b + HEADER_SIZE =? NULL) = false.
Proof.
  intros (Hg & _) Hl (E & _) Hm. pose proof Hl as (Hh & Hb & _).
  destruct (block_of_ptr s b) as [E1 E2]; [done..|].
  rewrite E. split_and_all; try done.
  - by eapply header_in_frame.
  - by eapply live_frame.
  - by apply Z.eqb_neq.
Qed.

(** Ending quietly: what remains to show after the unlock. *)
Lemma quiet_after s0 s m :
  quiet s0 -> same_world s0 s -> in_txn m s -> stack_top (txn s) = 0 ->
  quiet (set_mutex mutex_free (ticked s)).
Proof.
  intros (Hg & _ & _ & _ & Hs) (E1 & _ & E2 & _) Hi Ht. unfold quiet. st_simpl.
  rewrite E1, E2. split_and_all; try done. apply (txn_mem _ _ Hi).
Qed.

(** The unlock that ends an operation whose transaction is empty. *)
Lemma wp_finish {A} (r : A) (P : gmap Z Z -> Prop) m (Q : A -> tlsf -> Prop) s0 s :
  quiet s0 -> same_world s0 s -> P m -> in_txn m s -> stack_top (txn s) = 0 ->
  mutex s = Mutex (self (thr s0)) 1 false false ->
  (quiet (set_mutex mutex_free (ticked s)) -> same_world s0 (set_mutex mutex_free (ticked s)) ->
     Q r (set_mutex mutex_free (ticked s))) ->
  wp (unlock_ret r) (crash_ok P s0) Q s.
Proof.
  intros Hq Hw Hm Hi Ht Hx HQ. apply wp_unlock_ret.
  - destruct Hw as (_ & _ & -> & _). done.
  - intros Hd. split; [done|split; [done|split; [by eauto|]]].
    rewrite Hx. unfold lock_state; simpl. split_and_all; auto.
  - apply HQ; [by eapply quiet_after|]. eapply same_world_trans; [exact Hw|st_done].
Qed.

(** ** [tlsf_link] *)

Definition link_slot (us : list Z) : Z := find_index (fun u => u =? 0) us 0.
(** The memory a completed link leaves. *)
Definition link_mem (m : gmap Z Z) (b uid : Z) : gmap Z Z :=
  if decide ((link_model (uids m b) uid).1 = 0) then mem_uid_set m b (link_slot (uids m b)) uid else m.

Lemma link_mem_uids m b uid : mem_ok m -> 0 < uid < 2 ^ 16 ->
  uids (link_mem m b uid) b = (link_model (uids m b) uid).2 /\ same_but_owners b m (link_mem m b uid).
Proof.
  intros Hm Hu. unfold link_mem, link_model. fold (link_slot (uids m b)).
  destruct (decide (uid ∈ uids m b)); simpl; [done|].
  destruct (Z.ltb_spec (link_slot (uids m b)) 0) as [|Hs]; simpl; [done|].
  pose proof (find_index_slot _ _ _ Hs) as Hr.
  rewrite uids_set by done. unfold u16. rewrite Z.mod_small by lia.
  split; [done|by apply same_but_owners_set].
Qed.

(** The three outcomes of [link_model] and their memories. *)
Lemma link_cases m b uid :
  let us := uids m b in let slot := link_slot us in
  ((uid ∈ us) /\ (link_model us uid).1 = - Err.UID_DUPLICATE /\ link_mem m b uid = m) \/
  ((uid ∉ us) /\ slot < 0 /\ (link_model us uid).1 = - Err.UID_FULL /\ link_mem m b uid = m) \/
  ((uid ∉ us) /\ 0 <= slot < 12 /\ (link_model us uid).1 = 0 /\
     link_mem m b uid = mem_uid_set m b slot uid).
Proof.
  unfold link_mem, link_model. fold (link_slot (uids m b)). cbv zeta.
  destruct (decide (uid ∈ uids m b)); simpl; [by left|].
  destruct (Z.ltb_spec (link_slot (uids m b)) 0) as [|Hs]; simpl; [by right; left|].
  pose proof (find_index_slot _ _ _ Hs). by right; right.
Qed.

(** The steps every operation on a live block shares, up to the search for the
    uid: lock, locate, validate, not free. *)
Ltac enter_live s b Hq Hl s1 Hw Hi Ht Hm Hx Hg1 Hh1 :=
  let E1 := fresh in let E2 := fresh in let Hsig := fresh in let Hfree := fresh in
  destruct (locked_block s s b) as (_ & _ & _ & E1 & E2); [done..|];
  rewrite E2; cbn [orb];
  apply wp_bind, wp_locked; [done| |];
  [let Hw := fresh in intros ? Hw ? ? ?; split; [done|split; [done|split; [by eauto|done]]]|];
  intros s1 Hw Hi Ht Hm Hx; rewrite Z.eqb_refl; cbn [negb]; rewrite ?E1;
  destruct (locked_block s s1 b) as (Hg1 & Hh1 & (_ & _ & Hsig & Hfree) & _); [done..|];
  try (unfold tlsf_free_internal; rewrite E2, E1; apply wp_bind);
  apply wp_bind, wp_validate_block; [done..|]; rewrite Hsig; cbn [negb];
  apply wp_bind, wp_block_is_free; [done..|]; rewrite Hfree; cbn [negb Z.eqb].

(** The states after a commit: the crash condition and the way out. *)
Lemma committed_crash (P : gmap Z Z -> Prop) m s0 s1 s :
  same_world s0 s1 -> mutex s1 = Mutex (self (thr s0)) 1 false false ->
  frame s1 s -> P m -> in_txn m s -> stack_top (txn s) = 0 -> dies s -> crash_ok P s0 s.
Proof.
  intros Hw Hx Hf HP Hi Ht Hd. split; [done|split; [|split; [by eauto|]]].
  - by eapply same_world_trans, frame_world.
  - destruct Hf as (_ & _ & -> & _). rewrite Hx, Ht. unfold lock_state; simpl. auto.
Qed.

(** Commit and leave. *)
Lemma wp_commit_finish {A} (r : A) (P : gmap Z Z -> Prop) m0 (Q : A -> tlsf -> Prop) s0 s1 s :
  quiet s0 -> same_world s0 s1 -> mutex s1 = Mutex (self (thr s0)) 1 false false ->
  frame s1 s -> in_txn m0 s -> P m0 -> P (mem s) ->
  (forall s', quiet s' -> same_world s0 s' -> mem s' = mem s -> Q r s') ->
  wp (bul_commit ;; unlock_ret r) (crash_ok P s0) Q s.
Proof.
  intros Hq Hw Hx Hf Hi HP0 HP HQ.
  assert (same_world s0 s) as Hw' by by eapply same_world_trans, frame_world.
  assert (mutex s = Mutex (self (thr s0)) 1 false false) as Hx' by by destruct Hf as (_&_&->&_).
  apply wp_bind, (wp_commit _ m0); [done| | |].
  - eapply crash_covers; try done. apply Hq.
  - intros s4 Hf4 Hm4 Hi4 Ht4 Hd4. by eapply committed_crash.
  - intros s4 Hf4 Hm4 Hi4 Ht4. apply (wp_finish _ _ (mem s)); try done.
    + by eapply same_world_trans, frame_world.
    + by destruct Hf4 as (_&_&->&_).
    + intros ??. apply HQ; try done. by st_simpl.
Qed.

Lemma wp_tlsf_link s h b uid :
  quiet s -> live s b -> h <> 0 -> 0 < uid < 2 ^ 16 ->
  wp (tlsf_link h (b + HEADER_SIZE) uid)
    (crash_ok (fun m => m = mem s \/ m = link_mem (mem s) b uid) s)
    (fun rc s' => quiet s' /\ same_world s s' /\ mem s' = link_mem (mem s) b uid /\
       rc = (link_model (uids (mem s) b) uid).1) s.
Proof.
  intros Hq Hl Hh Hu. unfold tlsf_link. rewrite (proj2 (Z.eqb_neq h 0)) by done.
  destruct (Z.eqb_spec uid 0); [lia|].
  pose proof (link_cases (mem s) b uid) as Hcases. cbv zeta in Hcases.
  set (m1 := link_mem (mem s) b uid) in *. set (P := fun m => m = mem s \/ m = m1).
  assert (P (mem s)) as HP0 by by left. assert (P m1) as HP1 by by right.
  enter_live s b Hq Hl s1 Hw Hi Ht Hm Hx Hg1 Hh1.
  assert (covers (crash_ok P s) (mem s) s1) as Hc by by (eapply crash_covers; try done; apply Hq).
  apply wp_bind, wp_uid_find; [done..|]. rewrite Hm.
  pose proof (find_index_elem (uids (mem s) b) uid) as Hfe.
  destruct Hcases as [(Hin & Hr & Em)|Hcases].
  { destruct (Z.leb_spec 0 (find_index (fun u => u =? uid) (uids (mem s) b) 0)) as [|Hlt].
    2:{ apply Hfe in Hin. lia. }
    apply (wp_finish _ _ (mem s)); try done. intros ??. rewrite Em. by st_simpl. }
  destruct (Z.leb_spec 0 (find_index (fun u => u =? uid) (uids (mem s) b) 0)) as [Hle|_].
  { apply Hfe in Hle. by destruct Hcases as [(? & _)|(? & _)]. }
  apply wp_bind, wp_uid_find_empty; [done..|]. rewrite Hm. fold (link_slot (uids (mem s) b)).
  set (i := link_slot (uids (mem s) b)) in *.
  destruct Hcases as [(_ & Hs & Hr & Em)|(_ & Hs & Hr & Em)]; destruct (Z.ltb_spec i 0); try lia.
  { apply (wp_finish _ _ (mem s)); try done. intros ??. rewrite Em. by st_simpl. }
  destruct (uid_word_addr_eq s1 b i) as [Ew Hmap]; [done..|].
  apply wp_ensure. unfold bul_push_uid_word.
  replace (u64 (b + (32 + i / 4 * 8))) with (uid_word b i) by exact (eq_sym Ew).
  apply (wp_bul_push _ (mem s)); try done; [rewrite Ht; unfold MAX_BUL_ENTRIES; lia|].
  intros s2 Hf2 Hi2 Hm2 Hl2 Ht2 _. cbn match.
  assert (geo s2 = geo s1) as Eg2 by apply Hf2.
  apply wp_bind, (wp_uid_set_logged _ s2 b) with (m0 := mem s); try done.
  { by rewrite Eg2. } { by eapply header_in_frame. } { by eapply covers_frame. }
  intros s3 Hf3 Hi3 Hm3 Ht3.
  assert (mem s3 = m1) as Em3 by by rewrite Hm3, Hm2, Hm, Em.
  eapply (wp_commit_finish _ P (mem s)); try done; rewrite ?Em3; try done.
  { by eapply frame_trans. }
Qed.

(** ** Removing an owner *)

Lemma wp_uid_remove_loop C m0 b uid n : forall i (Q : bool -> tlsf -> Prop) s,
  geo_ok (geo s) -> header_in s b -> in_txn m0 s -> covers C m0 s ->
  0 <= i -> i + Z.of_nat n = 12 -> stack_top (txn s) + Z.of_nat n < MAX_BUL_ENTRIES ->
  (forall s', frame s s' -> in_txn m0 s' ->
     uids (mem s') b = take (Z.to_nat i) (uids (mem s) b) ++
                       drop_owner uid (drop (Z.to_nat i) (uids (mem s) b)) ->
     same_but_owners b (mem s) (mem s') ->
     stack_top (txn s') <= stack_top (txn s) + Z.of_nat n -> Q true s') ->
  wp (uid_remove_loop n i b uid) C Q s.
Proof.
  induction n as [|n IH]; intros i Q s Hg Hh Hi Hc Hi0 Hn Htop HQ; simpl.
  - apply wp_ret, HQ; try done; try lia.
    rewrite drop_ge by (rewrite uids_length; lia).
    simpl. rewrite app_nil_r, take_ge; [done|rewrite uids_length; lia].
  - unfold MAX_BUL_ENTRIES in *. apply wp_bind, wp_uid_get; [done..|lia|].
    pose proof (uids_lookup (mem s) b i ltac:(lia)) as Hlk.
    assert (drop (Z.to_nat i) (uids (mem s) b) =
      uid_at (mem s) b i :: drop (Z.to_nat (i + 1)) (uids (mem s) b)) as Ed.
    { erewrite drop_S by done. do 2 f_equal. lia. }
    rewrite Ed in HQ. simpl in HQ.
    destruct (Z.eqb_spec (uid_at (mem s) b i) uid) as [Eu|Eu].
    + destruct (uid_word_addr_eq s b i) as [Ew Hmap]; [done..|lia|].
      apply wp_ensure. unfold bul_push_uid_word.
      replace (u64 (b + (32 + i / 4 * 8))) with (uid_word b i) by exact (eq_sym Ew).
      apply (wp_bul_push _ m0); try done; [unfold MAX_BUL_ENTRIES; lia|].
      intros s2 Hf2 Hi2 Hm2 Hl2 Ht2 _. cbn match.
      assert (geo s2 = geo s) as Eg2 by apply Hf2.
      apply wp_bind, (wp_uid_set_logged _ s2 b) with (m0 := m0); try done.
      { by rewrite Eg2. } { by eapply header_in_frame. } { by eapply covers_frame. } { lia. }
      intros s3 Hf3 Hi3 Hm3 Ht3.
      assert (frame s s3) as Hf13 by by eapply frame_trans.
      assert (geo s3 = geo s) as Eg3 by apply Hf13.
      rewrite Hm2 in Hm3.
      assert (uids (mem s3) b = <[Z.to_nat i := 0]> (uids (mem s) b)) as Eu3.
      { rewrite Hm3, uids_set; [done|apply (txn_mem _ _ Hi)|lia]. }
      apply IH; rewrite ?Eg3, ?Ht3, ?Ht2; try done; try lia.
      { by eapply header_in_frame. } { by eapply covers_frame. }
      intros s' Hf' Hi' Hu' Hs' Ht'. apply HQ; try done; try lia.
      * by eapply frame_trans.
      * rewrite Hu', Eu3. rewrite drop_insert_lt by lia.
        replace (Z.to_nat (i + 1)) with (S (Z.to_nat i)) by lia.
        erewrite take_S_r by (apply list_lookup_insert_eq; rewrite uids_length; lia).
        rewrite take_insert_ge by lia. by rewrite <- app_assoc.
      * eapply same_but_owners_trans; [|exact Hs']. rewrite Hm3.
        apply same_but_owners_set. lia.
    + apply IH; try done; try lia. intros s' Hf' Hi' Hu' Hs' Ht'.
      apply HQ; try done; try lia. rewrite Hu'.
      replace (Z.to_nat (i + 1)) with (S (Z.to_nat i)) by lia.
      erewrite take_S_r by done. rewrite <- app_assoc. simpl.
      do 3 f_equal.
Qed.

Lemma wp_uid_remove C m0 b uid (Q : bool -> tlsf -> Prop) s :
  geo_ok (geo s) -> header_in s b -> in_txn m0 s -> covers C m0 s ->
  stack_top (txn s) = 0 ->
  (forall s', frame s s' -> in_txn m0 s' ->
     uids (mem s') b = drop_owner uid (uids (mem s) b) ->
     same_but_owners b (mem s) (mem s') -> stack_top (txn s') <= 12 -> Q true s') ->
  wp (uid_remove b uid) C Q s.
Proof.
  intros Hg Hh Hi Hc Ht HQ. eapply wp_uid_remove_loop; try done.
  - rewrite Ht. unfold MAX_BUL_ENTRIES. lia.
  - intros s' ???? Ht'. apply HQ; try done. rewrite Ht in Ht'. lia.
Qed.

(** ** [tlsf_check_uid] *)
Lemma wp_tlsf_check_uid s h b uid :
  quiet s -> live s b -> h <> 0 -> uid <> 0 ->
  wp (tlsf_check_uid h (b + HEADER_SIZE) uid) (crash_ok (fun m => m = mem s) s)
    (fun rc s' => quiet s' /\ same_world s s' /\ mem s' = mem s /\
       rc = if decide (uid ∈ uids (mem s) b) then 1 else 0) s.
Proof.
  intros Hq Hl Hh Hu. unfold tlsf_check_uid. rewrite (proj2 (Z.eqb_neq h 0)) by done.
  destruct (Z.eqb_spec uid 0); [done|].
  enter_live s b Hq Hl s1 Hw Hi Ht Hm Hx Hg1 Hh1.
  apply wp_bind, wp_uid_find; [done..|]. rewrite Hm.
  pose proof (find_index_elem (uids (mem s) b) uid) as Hfe.
  destruct (Z.leb_spec 0 (find_index (fun u => u =? uid) (uids (mem s) b) 0)) as [Hle|Hlt];
    (apply (wp_finish _ _ (mem s)); try done); intros ??;
    split_and_all; try done; try st_done;
    destruct (decide (uid ∈ uids (mem s) b)) as [Hin|Hin]; try done.
  - by apply Hfe in Hle.
  - apply Hfe in Hin. lia.
Qed.

(** ** [tlsf_free], other owners remaining *)

Definition release_mem (m0 : gmap Z Z) (b uid : Z) (m : gmap Z Z) : Prop :=
  uids m b = drop_owner uid (uids m0 b) /\ same_but_owners b m0 m.

Lemma wp_tlsf_free_shared s h b uid :
  quiet s -> live s b -> h <> 0 -> uid <> 0 ->
  uid ∈ uids (mem s) b -> owners (drop_owner uid (uids (mem s) b)) <> [] ->
  wp (tlsf_free h (b + HEADER_SIZE) uid)
    (crash_ok (fun m => m = mem s \/ release_mem (mem s) b uid m) s)
    (fun _ s' => quiet s' /\ same_world s s' /\ release_mem (mem s) b uid (mem s')) s.
Proof.
  intros Hq Hl Hh Hu Hin Hown. unfold tlsf_free. rewrite (proj2 (Z.eqb_neq h 0)) by done.
  destruct (Z.eqb_spec uid 0); [done|].
  set (P := fun m => m = mem s \/ release_mem (mem s) b uid m).
  assert (P (mem s)) as HP0 by by left.
  enter_live s b Hq Hl s1 Hw Hi Ht Hm Hx Hg1 Hh1.
  assert (covers (crash_ok P s) (mem s) s1) as Hc by by (eapply crash_covers; try done; apply Hq).
  apply wp_bind, wp_uid_find; [done..|]. rewrite Hm.
  apply find_index_elem in Hin.
  destruct (Z.ltb_spec (find_index (fun u => u =? uid) (uids (mem s) b) 0) 0); [lia|].
  apply wp_ensure, (wp_uid_remove _ (mem s)); try done.
  intros s2 Hf2 Hi2 Hu2 Hs2 _. cbn match. rewrite Hm in Hu2, Hs2.
  apply wp_bind, wp_uid_count.
  { by rewrite (proj1 Hf2). } { eapply header_in_frame; [apply Hf2|done]. }
  rewrite Hu2. fold (owners (drop_owner uid (uids (mem s) b))).
  destruct (Z.ltb_spec 0 (Z.of_nat (length (owners (drop_owner uid (uids (mem s) b)))))) as [|Hz].
  2:{ destruct (owners (drop_owner uid (uids (mem s) b))); [done|simpl in Hz; lia]. }
  apply wp_ret. eapply (wp_commit_finish _ P (mem s)); try done; [by right|].
  intros s' ?? ->. done.
Qed.

(** ** [tlsf_free_dc] *)

(** A sole owner only marks the block for deferred cleaning; otherwise the owner
    is dropped. *)
Definition free_dc_mem (m0 : gmap Z Z) (b uid : Z) (m : gmap Z Z) : Prop :=
  if decide (length (owners (uids m0 b)) = 1%nat)
  then m = <[b + OFF_sig_dc := Z.lor (rdm m0 (b + OFF_sig_dc)) SIG_DC_DC_BIT]> m0
  else release_mem m0 b uid m.

Lemma dc_word_range w : 0 <= w < 2 ^ 64 -> 0 <= Z.lor w SIG_DC_DC_BIT < 2 ^ 64.
Proof. intros. apply lor_bound; [done|by vm_compute|done]. Qed.

Lemma wp_tlsf_free_dc s h b uid :
  quiet s -> live s b -> h <> 0 -> uid <> 0 -> uid ∈ uids (mem s) b ->
  wp (tlsf_free_dc h (b + HEADER_SIZE) uid)
    (crash_ok (fun m => m = mem s \/ free_dc_mem (mem s) b uid m) s)
    (fun _ s' => quiet s' /\ same_world s s' /\ free_dc_mem (mem s) b uid (mem s')) s.
Proof.
  intros Hq Hl Hh Hu Hin. unfold tlsf_free_dc. rewrite (proj2 (Z.eqb_neq h 0)) by done.
  destruct (Z.eqb_spec uid 0); [done|].
  set (P := fun m => m = mem s \/ free_dc_mem (mem s) b uid m).
  assert (P (mem s)) as HP0 by by left.
  enter_live s b Hq Hl s1 Hw Hi Ht Hm Hx Hg1 Hh1.
  assert (covers (crash_ok P s) (mem s) s1) as Hc by by (eapply crash_covers; try done; apply Hq).
  apply wp_bind, wp_uid_find; [done..|]. rewrite Hm.
  apply find_index_elem in Hin.
  destruct (Z.ltb_spec (find_index (fun u => u =? uid) (uids (mem s) b) 0) 0); [lia|].
  apply wp_bind, wp_uid_count; [done..|]. rewrite Hm. fold (owners (uids (mem s) b)).
  apply wp_ensure. unfold P, free_dc_mem in *. clear P.
  destruct (decide (length (owners (uids (mem s) b)) = 1%nat)) as [E|E].
  - rewrite E. cbn [Z.of_nat Pos.of_succ_nat Z.eqb Pos.eqb].
    destruct (fld_header s1 b OFF_sig_dc) as [Ef Hmap]; [done..|].
    apply wp_ensure. unfold addr_sig_dc. rewrite Ef. apply (wp_bul_push _ (mem s)); try done.
    { rewrite Ht. unfold MAX_BUL_ENTRIES. lia. }
    intros s2 Hf2 Hi2 Hm2 Hl2 Ht2 _. cbn match.
    unfold load_sig_dc, store_sig_dc. rewrite Ef.
    assert (mapped s2 (b + OFF_sig_dc) = true) as Hmap2 by by rewrite (frame_mapped s1).
    apply wp_bind, wp_load; [done|].
    apply wp_bind, (wp_store_logged _ (mem s)); try done; [by eapply covers_frame|].
    intros s3 Hf3 Hi3 Hm3 Ht3. apply wp_ret. cbn match.
    assert (mem s3 = <[b + OFF_sig_dc := Z.lor (rdm (mem s) (b + OFF_sig_dc)) SIG_DC_DC_BIT]> (mem s)) as Em3.
    { rewrite Hm3. unfold rd. rewrite Hm2, Hm, u64_small; [done|]. apply dc_word_range, Hq. }
    eapply (wp_commit_finish _ _ (mem s)); try done; rewrite ?Em3; auto.
    by eapply frame_trans.
  - destruct (Z.eqb_spec (Z.of_nat (length (owners (uids (mem s) b)))) 1); [lia|].
    apply (wp_uid_remove _ (mem s)); try done.
    intros s2 Hf2 Hi2 Hu2 Hs2 _. cbn match. rewrite Hm in Hu2, Hs2.
    eapply (wp_commit_finish _ _ (mem s)); try done; auto.
    + by right.
    + by intros s' ?? ->.
Qed.

(** ** The lock-free accessors *)

Lemma wp_dc_precheck C (Q : Z + Z -> tlsf -> Prop) s h b :
  geo_ok (geo s) -> live s b -> h <> 0 -> Q (inr b) s -> wp (dc_precheck h (b + HEADER_SIZE)) C Q s.
Proof.
  intros Hg (Hh & Hb & Hsig & Hfree) Hnz HQ. unfold dc_precheck.
  rewrite (proj2 (Z.eqb_neq h 0)) by done.
  destruct (block_of_ptr s b) as [E1 E2]; [done..|]. rewrite (proj2 (Z.eqb_neq _ 0) E2).
  simpl. apply wp_bind, wp_gets. rewrite (proj1 Hg). simpl. rewrite E1.
  apply wp_bind, wp_gets.
  destruct (fld_header s b 0) as [_ Hm]; [done..|]. rewrite Z.add_0_r in Hm.
  rewrite mapped_valid by done. simpl.
  apply wp_bind, wp_check_signature; [done..|]. rewrite Hsig. simpl.
  apply wp_bind, wp_block_is_free; [done..|]. rewrite Hfree. simpl. by apply wp_ret.
Qed.

(** [tlsf_setdc] and [tlsf_cleardc] change one bit of one word; [tlsf_getdc] and
    [tlsf_get_data_type] read it back. *)
Lemma wp_tlsf_setdc C s h b :
  geo_ok (geo s) -> mem_ok (mem s) -> live s b -> h <> 0 -> (dies s -> C s) ->
  wp (tlsf_setdc h (b + HEADER_SIZE)) C (fun rc s' => rc = 0 /\ frame s s' /\
    mem s' = <[b + OFF_sig_dc := Z.lor (rd s (b + OFF_sig_dc)) SIG_DC_DC_BIT]> (mem s)) s.
Proof.
  intros Hg Hm Hl Hh HC. apply wp_bind, wp_dc_precheck; [done..|].
  destruct Hl as (Hhd & _). destruct (fld_header s b OFF_sig_dc) as [Ef Hmap]; [done..|].
  unfold load_sig_dc, store_sig_dc. rewrite Ef. apply wp_bind, wp_load; [done|].
  apply wp_bind, wp_store; [done..|]. apply wp_ret.
  rewrite u64_small by (apply dc_word_range, Hm). split_and_all; [done|st_done|st_done].
Qed.
Lemma wp_tlsf_cleardc C s h b :
  geo_ok (geo s) -> mem_ok (mem s) -> live s b -> h <> 0 -> (dies s -> C s) ->
  wp (tlsf_cleardc h (b + HEADER_SIZE)) C (fun rc s' => rc = 0 /\ frame s s' /\
    mem s' = <[b + OFF_sig_dc := Z.land (rd s (b + OFF_sig_dc)) (not64 SIG_DC_DC_BIT)]> (mem s)) s.
Proof.
  intros Hg Hm Hl Hh HC. apply wp_bind, wp_dc_precheck; [done..|].
  destruct Hl as (Hhd & _). destruct (fld_header s b OFF_sig_dc) as [Ef Hmap]; [done..|].
  unfold load_sig_dc, store_sig_dc. rewrite Ef. apply wp_bind, wp_load; [done|].
  apply wp_bind, wp_store; [done..|]. apply wp_ret.
  rewrite u64_small. { split_and_all; [done|st_done|st_done]. }
  apply land_bound_r; [by vm_compute|done].
Qed.
Lemma wp_tlsf_getdc C s h b :
  geo_ok (geo s) -> live s b -> h <> 0 ->
  wp (tlsf_getdc h (b + HEADER_SIZE)) C (fun rc s' => s' = s /\
    rc = if sig_dc_flag (rd s (b + OFF_sig_dc)) then 1 else 0) s.
Proof.
  intros Hg Hl Hh. apply wp_bind, wp_dc_precheck; [done..|].
  destruct Hl as (Hhd & _). apply wp_bind, wp_bind, wp_load_field; [done..|].
  apply wp_ret, wp_ret. done.
Qed.
Lemma wp_tlsf_get_data_type C s h b :
  geo_ok (geo s) -> live s b -> h <> 0 ->
  wp (tlsf_get_data_type h (b + HEADER_SIZE)) C (fun rc s' => s' = s /\
    rc = sig_type (rd s (b + OFF_sig_dc))) s.
Proof.
  intros Hg Hl Hh. apply wp_bind, wp_dc_precheck; [done..|].
  destruct Hl as (Hhd & _). apply wp_bind, wp_load_field; [done..|]. by apply wp_ret.
Qed.
