(* ===== verification/TlsfSpec.v ===== *)
(** The contract of the ownership operations of the shared allocator, as its
    callers see it: results and owner lists of [tlsf_link], [tlsf_check_uid],
    [tlsf_free], [tlsf_free_dc]; their atomicity when the calling process is
    killed at any store; the undo log; the deferred-cleaning bit. *)
From S2P Require Import Prelude Machine TlsfTypes TlsfBul TlsfHeap TlsfAlloc TlsfApi TlsfFacts TlsfHoare TlsfTxn TlsfOwners TlsfOwnership.

(** ** What a crash leaves *)

(** Whatever processes die while they recover [s], the first one that completes
    [lock_and_recover] holds the lock in a consistent state, finds the undo log
    empty and the pool in a memory that satisfies [P]. *)
Definition recovers_to (P : gmap Z Z -> Prop) (s : tlsf) : Prop :=
  forall s1 q, recoveries s s1 -> q <> 0 ->
  exists s2 m, lock_and_recover (reboot q None s1) = Ret Err.OK s2 /\
    P m /\ mem_eq (mem s2) m /\ stack_top (txn s2) = 0 /\
    mutex s2 = Mutex q 1 false false.

Lemma crash_ok_recovers P s0 s : geo_ok (geo s0) -> crash_ok P s0 s -> recovers_to P s.
Proof.
  intros Hg Hc s1 q Hr Hq. destruct (recoveries_crash_ok P s s1 s0) as (s0' & ? & ?); [done..|].
  by apply (recover_after_crash q P s0').
Qed.

Lemma recovers_to_mono (P P' : gmap Z Z -> Prop) s :
  (forall m, P m -> P' m) -> recovers_to P s -> recovers_to P' s.
Proof.
  intros Hp H s1 q Hr Hq. destruct (H s1 q Hr Hq) as (s2 & m & ? & ? & ?).
  exists s2, m. auto.
Qed.

Lemma wp_crash_recovers {A} (m : TM A) P Q s s1 :
  geo_ok (geo s) -> wp m (crash_ok P s) Q s -> m s = Crash s1 -> recovers_to P s1.
Proof. intros Hg Hwp E. by eapply crash_ok_recovers, wp_crashes. Qed.

(** ** Concrete pools for the examples *)

Lemma mem_ok_check m : map_Forall (fun _ v => 0 <= v < 2 ^ 64) m -> mem_ok m.
Proof.
  intros H a. unfold rdm. destruct (m !! a) as [v|] eqn:E; [by apply (H a)|simpl; lia].
Qed.

Definition demo_pool : Z := 0x200000000000.
(** Process 1, before any pool exists. *)
Definition demo_start (l : option nat) : tlsf :=
  Tlsf (Geometry 0 0 0 0 0) (Index ∅ 0 ∅) (Txn 0 0 0 ∅) mutex_free ∅ (Thread 0 1 l).
Definition state_after {A} (m : TM A) (s : tlsf) : tlsf := default s (final (m s)).
(** An 8 KiB pool with one block of 100 bytes, owned by 7 and 9. *)
Definition demo_block : Z := demo_pool + 6720.
Definition demo : tlsf :=
  state_after
    (tlsf_create demo_pool 8192 ;; tlsf_malloc demo_pool 100 7 3 ;;
     tlsf_link demo_pool (demo_block + HEADER_SIZE) 9) (demo_start None).

(** [quiet] of a pool that computes. *)
Ltac quiet_compute :=
  unfold quiet; split_and_all; [vm_compute; done| |by vm_compute..];
  apply mem_ok_check; refine (bool_decide_unpack _ _); by vm_compute.
(** membership in the owner list of a pool that computes *)
Ltac owner_compute :=
  match goal with |- ?x ∈ ?l => let v := eval vm_compute in l in replace l with v by by vm_compute end;
  repeat first [apply list_elem_of_here | apply list_elem_of_further].

Lemma demo_quiet : quiet demo.
Proof. quiet_compute. Qed.
Lemma demo_live : live demo demo_block.
Proof. unfold live, header_in. vm_compute. done. Qed.
#[export] Hint Resolve demo_quiet demo_live : tlsf.

(** The same pool, the process about to die at its [n]-th store. *)
Definition dying (n : nat) (s : tlsf) : tlsf := set_life (Some n) s.
Lemma dying_quiet n s : quiet s -> quiet (dying n s). Proof. done. Qed.
Lemma dying_live n s b : live s b -> live (dying n s) b. Proof. done. Qed.
#[export] Hint Resolve dying_quiet dying_live : tlsf.
Definition crash_state {A} (m : TM A) (s : tlsf) : tlsf :=
  match m s with Crash s' => s' | _ => s end.

(** ** Linking a second owner *)

(** [tlsf_link] on a live block answers and changes the owner list exactly as
    [link_model]: duplicate refused, full refused, otherwise the uid is put in the
    first empty slot; nothing else of the pool changes and the lock is free again. *)
Theorem tlsf_link_spec s h b uid :
  quiet s -> life (thr s) = None -> live s b -> h <> 0 -> 0 < uid < 2 ^ 16 ->
  exists s', tlsf_link h (b + HEADER_SIZE) uid s = Ret (link_model (uids (mem s) b) uid).1 s' /\
    uids (mem s') b = (link_model (uids (mem s) b) uid).2 /\
    same_but_owners b (mem s) (mem s') /\ quiet s' /\ same_world s s'.
Proof.
  intros Hq Hn Hl Hh Hu. pose proof (link_mem_uids (mem s) b uid) as [Hu' Hs]; [apply Hq|done|].
  destruct (wp_alive _ _ _ s Hn (wp_tlsf_link s h b uid Hq Hl Hh Hu)) as (a & s' & E & ? & ? & Em & ->).
  exists s'. rewrite Em. by split_and_all.
Qed.

Lemma tlsf_link_spec_witness :
  exists s', tlsf_link demo_pool (demo_block + HEADER_SIZE) 11 demo = Ret 0 s' /\
    uids (mem s') demo_block = [7; 9; 11; 0; 0; 0; 0; 0; 0; 0; 0; 0].
Proof.
  destruct (tlsf_link_spec demo demo_pool demo_block 11) as (s' & E & Hu & _);
    [auto with tlsf|by vm_compute|auto with tlsf|by vm_compute|lia|].
  exists s'. split; [rewrite E; by vm_compute|rewrite Hu; by vm_compute].
Defined.

(** (C18) A process killed at any store inside [tlsf_link] leaves a pool from which
    recovery, itself interrupted any number of times, restores either the memory
    before the call or the one after it: the link is atomic. *)
Theorem tlsf_link_crash_atomic s h b uid s1 :
  quiet s -> live s b -> h <> 0 -> 0 < uid < 2 ^ 16 ->
  tlsf_link h (b + HEADER_SIZE) uid s = Crash s1 ->
  recovers_to (fun m => m = mem s \/
    uids m b = (link_model (uids (mem s) b) uid).2 /\ same_but_owners b (mem s) m) s1.
Proof.
  intros Hq Hl Hh Hu E. pose proof (link_mem_uids (mem s) b uid) as [Hu' Hs]; [apply Hq|done|].
  eapply recovers_to_mono; [|eapply wp_crash_recovers; [apply Hq|by apply wp_tlsf_link|exact E]].
  intros m [->| ->]; auto.
Qed.

Lemma tlsf_link_crash_atomic_witness :
  let s := dying 6 demo in
  let s1 := crash_state (tlsf_link demo_pool (demo_block + HEADER_SIZE) 11) s in
  stack_top (txn s1) = 1 /\ uids (mem s1) demo_block !! 2%nat = Some 11 /\
  recovers_to (fun m => m = mem s \/
    uids m demo_block = (link_model (uids (mem s) demo_block) 11).2 /\
    same_but_owners demo_block (mem s) m) s1.
Proof.
  intros s s1. split; [by vm_compute|]. split; [by vm_compute|].
  apply (tlsf_link_crash_atomic s demo_pool demo_block 11 s1).
  - apply dying_quiet, demo_quiet.
  - apply dying_live, demo_live.
  - discriminate.
  - lia.
  - vm_compute. reflexivity.
Defined.

(** ** Dropping an owner *)

Lemma same_but_owners_live b s s' :
  same_but_owners b (mem s) (mem s') -> geo s' = geo s -> live s b -> live s' b.
Proof.
  intros Hm Hg (Hh & Hb & Hs & Hf). unfold live, rd in *.
  rewrite !Hm by (unfold OFF_uid, OFF_prev_size, OFF_sig_dc, OFF_size_flags; lia).
  split_and_all; try done. by eapply header_in_frame.
Qed.

(** [tlsf_free] by one of several owners only takes that owner off the list: the
    block stays allocated with the remaining owners, the free lists and the
    accounting are untouched. *)
Theorem tlsf_free_shared_spec s h b uid :
  quiet s -> life (thr s) = None -> live s b -> h <> 0 -> uid <> 0 ->
  uid ∈ uids (mem s) b -> owners (drop_owner uid (uids (mem s) b)) <> [] ->
  exists s', tlsf_free h (b + HEADER_SIZE) uid s = Ret tt s' /\
    uids (mem s') b = drop_owner uid (uids (mem s) b) /\
    same_but_owners b (mem s) (mem s') /\ live s' b /\ quiet s' /\ same_world s s'.
Proof.
  intros Hq Hn Hl Hh Hu Hin Ho.
  destruct (wp_alive _ _ _ s Hn (wp_tlsf_free_shared s h b uid Hq Hl Hh Hu Hin Ho))
    as ([] & s' & E & ? & Hw & Hr & Hs).
  exists s'. split_and_all; try done. eapply same_but_owners_live; [done|apply Hw|done].
Qed.
Lemma tlsf_free_shared_spec_witness :
  exists s', tlsf_free demo_pool (demo_block + HEADER_SIZE) 7 demo = Ret tt s' /\
    uids (mem s') demo_block = [0; 9; 0; 0; 0; 0; 0; 0; 0; 0; 0; 0] /\ live s' demo_block.
Proof.
  destruct (tlsf_free_shared_spec demo demo_pool demo_block 7) as (s' & E & Hu & _ & Hl & _);
    [auto with tlsf|by vm_compute|auto with tlsf|by vm_compute|lia| |by vm_compute|].
  - owner_compute.
  - exists s'. split; [exact E|]. split; [rewrite Hu; by vm_compute|done].
Defined.

(** (C19) Killed at any store inside such a [tlsf_free], the process leaves a pool that
    recovers to the memory before the call or to the one without that owner. *)
Theorem tlsf_free_shared_crash_atomic s h b uid s1 :
  quiet s -> live s b -> h <> 0 -> uid <> 0 -> uid ∈ uids (mem s) b ->
  owners (drop_owner uid (uids (mem s) b)) <> [] ->
  tlsf_free h (b + HEADER_SIZE) uid s = Crash s1 ->
  recovers_to (fun m => m = mem s \/ release_mem (mem s) b uid m) s1.
Proof.
  intros Hq Hl Hh Hu Hin Ho E.
  exact (wp_crash_recovers _ _ _ s s1 (proj1 Hq) (wp_tlsf_free_shared s h b uid Hq Hl Hh Hu Hin Ho) E).
Qed.
Lemma tlsf_free_shared_crash_atomic_witness :
  let s := dying 6 demo in
  let s1 := crash_state (tlsf_free demo_pool (demo_block + HEADER_SIZE) 7) s in
  stack_top (txn s1) = 1 /\ uids (mem s1) demo_block !! 0%nat = Some 0 /\
  recovers_to (fun m => m = mem s \/ release_mem (mem s) demo_block 7 m) s1.
Proof.
  intros s s1. split; [by vm_compute|]. split; [by vm_compute|].
  apply (tlsf_free_shared_crash_atomic s demo_pool demo_block 7 s1).
  - apply dying_quiet, demo_quiet.
  - apply dying_live, demo_live.
  - discriminate.
  - discriminate.
  - owner_compute.
  - vm_compute. discriminate.
  - vm_compute. reflexivity.
Defined.

Lemma drop_owner_notin uid us : uid ∉ us -> drop_owner uid us = us.
Proof.
  induction us as [|u us IH]; intros Hn; [done|].
  apply not_elem_of_cons in Hn as [Hu Hn].
  change ((if u =? uid then 0 else u) :: drop_owner uid us = u :: us). rewrite IH by done.
  destruct (Z.eqb_spec u uid); [congruence|done].
Qed.

Lemma drop_linked us slot uid :
  uid ∉ us -> us !! slot = Some 0 -> drop_owner uid (<[slot := uid]> us) = us.
Proof.
  intros Hn Hs. unfold drop_owner. rewrite list_fmap_insert.
  change (<[slot := if uid =? uid then 0 else uid]> (drop_owner uid us) = us).
  rewrite Z.eqb_refl, drop_owner_notin by done. by apply list_insert_id.
Qed.

Lemma link_model_undo us uid :
  (link_model us uid).1 = 0 -> (uid ∈ (link_model us uid).2) /\ drop_owner uid (link_model us uid).2 = us.
Proof.
  unfold link_model. destruct (decide (uid ∈ us)) as [|Hn]; [done|].
  destruct (find_index_spec (fun u => u =? 0) us 0) as [[-> _]|(n & x & -> & Hl & Hx & _)]; [done|].
  rewrite Z.add_0_l. destruct (Z.ltb_spec (Z.of_nat n) 0); [lia|]. intros _. cbn [snd].
  rewrite Nat2Z.id. apply Z.eqb_eq in Hx as ->. split; [|by apply drop_linked].
  eapply list_elem_of_lookup_2, list_lookup_insert_eq, lookup_lt_Some, Hl.
Qed.

(** Linking a uid and freeing with it gives back the owners the block had: the
    reference taken by [tlsf_link] is the one released by [tlsf_free]. *)
Theorem tlsf_link_free_roundtrip s h b uid s1 :
  quiet s -> life (thr s) = None -> live s b -> h <> 0 -> 0 < uid < 2 ^ 16 ->
  owners (uids (mem s) b) <> [] ->
  tlsf_link h (b + HEADER_SIZE) uid s = Ret 0 s1 ->
  exists s2, tlsf_free h (b + HEADER_SIZE) uid s1 = Ret tt s2 /\
    uids (mem s2) b = uids (mem s) b /\ same_but_owners b (mem s) (mem s2) /\ live s2 b.
Proof.
  intros Hq Hn Hl Hh Hu Ho E.
  pose proof (link_mem_uids (mem s) b uid) as [Hu' Hs]; [apply Hq|done|].
  destruct (wp_alive _ _ _ s Hn (wp_tlsf_link s h b uid Hq Hl Hh Hu)) as (a & s' & E' & Hq1 & Hw & Em & Ea).
  rewrite E in E'. injection E' as <- <-. rewrite <- Em in Hu', Hs.
  destruct (link_model_undo (uids (mem s) b) uid) as [Hin Hd]; [done|].
  rewrite <- Hu' in Hin, Hd.
  assert (live s1 b) as Hl1 by (eapply same_but_owners_live; [done|apply Hw|done]).
  assert (life (thr s1) = None) as Hn1 by by apply Hw.
  rewrite <- Hd in Ho.
  destruct (wp_alive _ _ _ s1 Hn1 (wp_tlsf_free_shared s1 h b uid Hq1 Hl1 Hh ltac:(lia) Hin Ho))
    as ([] & s2 & E2 & Hq2 & Hw2 & Hr & Hs2).
  exists s2. rewrite Hr, Hd. split_and_all; try done.
  - by eapply same_but_owners_trans.
  - eapply same_but_owners_live; [done|apply Hw2|done].
Qed.
Lemma tlsf_link_free_roundtrip_witness :
  let s1 := state_after (tlsf_link demo_pool (demo_block + HEADER_SIZE) 11) demo in
  exists s2, tlsf_free demo_pool (demo_block + HEADER_SIZE) 11 s1 = Ret tt s2 /\
    uids (mem s2) demo_block = uids (mem demo) demo_block /\ live s2 demo_block.
Proof.
  intros s1.
  destruct (tlsf_link_free_roundtrip demo demo_pool demo_block 11 s1) as (s2 & E & Hu & _ & Hl);
    [auto with tlsf|by vm_compute|auto with tlsf|by vm_compute|lia|by vm_compute|by vm_compute|].
  exists s2. split; [exact E|]. split; [exact Hu|exact Hl].
Defined.

(** [tlsf_free_dc] takes the caller off a shared block, but when the caller is the
    sole owner the block keeps that owner and is only marked for deferred
    cleaning, for the collector to find. *)
Theorem tlsf_free_dc_spec s h b uid :
  quiet s -> life (thr s) = None -> live s b -> h <> 0 -> uid <> 0 -> uid ∈ uids (mem s) b ->
  exists s', tlsf_free_dc h (b + HEADER_SIZE) uid s = Ret tt s' /\ quiet s' /\ same_world s s' /\
    if decide (length (owners (uids (mem s) b)) = 1%nat)
    then mem s' = <[b + OFF_sig_dc := Z.lor (rd s (b + OFF_sig_dc)) SIG_DC_DC_BIT]> (mem s)
    else uids (mem s') b = drop_owner uid (uids (mem s) b) /\ same_but_owners b (mem s) (mem s').
Proof.
  intros Hq Hn Hl Hh Hu Hin.
  destruct (wp_alive _ _ _ s Hn (wp_tlsf_free_dc s h b uid Hq Hl Hh Hu Hin))
    as ([] & s' & E & ? & Hw & Hr). exists s'. by split_and_all.
Qed.
Lemma tlsf_free_dc_spec_witness :
  let s0 := state_after (tlsf_free demo_pool (demo_block + HEADER_SIZE) 9) demo in
  exists s', tlsf_free_dc demo_pool (demo_block + HEADER_SIZE) 7 s0 = Ret tt s' /\
    uids (mem s') demo_block = uids (mem s0) demo_block /\
    sig_dc_flag (rd s' (demo_block + OFF_sig_dc)) = true.
Proof.
  intros s0.
  destruct (tlsf_free_dc_spec s0 demo_pool demo_block 7) as (s' & E & _ & _ & Hm).
  - quiet_compute.
  - by vm_compute.
  - vm_compute. done.
  - discriminate.
  - discriminate.
  - owner_compute.
  - exists s'. split; [exact E|].
    replace (length (owners (uids (mem s0) demo_block))) with 1%nat in Hm by by vm_compute.
    cbn [decide] in Hm. destruct (decide (1%nat = 1%nat)) as [_|]; [|congruence].
    unfold rd at 1. rewrite Hm. split; by vm_compute.
Defined.

(** Killed inside [tlsf_free_dc], the process leaves a pool that recovers to the
    memory before the call or to the one after it. *)
Theorem tlsf_free_dc_crash_atomic s h b uid s1 :
  quiet s -> live s b -> h <> 0 -> uid <> 0 -> uid ∈ uids (mem s) b ->
  tlsf_free_dc h (b + HEADER_SIZE) uid s = Crash s1 ->
  recovers_to (fun m => m = mem s \/ free_dc_mem (mem s) b uid m) s1.
Proof.
  intros Hq Hl Hh Hu Hin E.
  exact (wp_crash_recovers _ _ _ s s1 (proj1 Hq) (wp_tlsf_free_dc s h b uid Hq Hl Hh Hu Hin) E).
Qed.
Lemma tlsf_free_dc_crash_atomic_witness :
  let s := dying 5 demo in
  let s1 := crash_state (tlsf_free_dc demo_pool (demo_block + HEADER_SIZE) 9) s in
  stack_top (txn s1) = 1 /\
  recovers_to (fun m => m = mem s \/ free_dc_mem (mem s) demo_block 9 m) s1.
Proof.
  intros s s1. split; [by vm_compute|].
  apply (tlsf_free_dc_crash_atomic s demo_pool demo_block 9 s1).
  - apply dying_quiet, demo_quiet.
  - apply dying_live, demo_live.
  - discriminate.
  - discriminate.
  - owner_compute.
  - vm_compute. reflexivity.
Defined.

(** [tlsf_check_uid] answers 1 exactly when the uid is among the owners of the
    block, 0 otherwise, and changes nothing. *)
Theorem tlsf_check_uid_spec s h b uid :
  quiet s -> life (thr s) = None -> live s b -> h <> 0 -> uid <> 0 ->
  exists s', tlsf_check_uid h (b + HEADER_SIZE) uid s =
      Ret (if decide (uid ∈ uids (mem s) b) then 1 else 0) s' /\
    quiet s' /\ same_world s s' /\ mem s' = mem s.
Proof.
  intros Hq Hn Hl Hh Hu.
  destruct (wp_alive _ _ _ s Hn (wp_tlsf_check_uid s h b uid Hq Hl Hh Hu)) as (a & s' & E & ? & ? & ? & ->).
  by exists s'.
Qed.
Lemma tlsf_check_uid_spec_witness :
  exists s', tlsf_check_uid demo_pool (demo_block + HEADER_SIZE) 9 demo = Ret 1 s' /\ mem s' = mem demo.
Proof.
  destruct (tlsf_check_uid_spec demo demo_pool demo_block 9) as (s' & E & _ & _ & Hm);
    [auto with tlsf|by vm_compute|auto with tlsf|by vm_compute|lia|].
  exists s'. split; [rewrite E; by vm_compute|done].
Defined.
