(* ===== verification/TlsfLists.v ===== *)
(** The free lists of the allocator: doubly linked lists through the headers of free
    blocks, one per size class, with the two levels of bitmaps that tell which are
    empty.  Insertion and removal ([tlsf_txn.c]) against lists of addresses. *)
From stdpp Require Import functions.
From S2P Require Import Prelude Machine TlsfTypes TlsfBul TlsfHeap TlsfFacts TlsfHoare TlsfOwners.

(** ** Words of headers *)

Definition node (a : Z) : Prop := a mod 64 = 0 /\ 0 < a < 2 ^ 64.
(** A word of a header is hit by a store to the same word of the same header only. *)
Lemma header_word_ne a o b p : a mod 64 = 0 -> b mod 64 = 0 -> 0 <= o < 64 -> 0 <= p < 64 ->
  a <> b \/ o <> p -> a + o <> b + p.
Proof. intros Ha Hb Ho Hp H E. pose proof (Z.div_mod a 64). pose proof (Z.div_mod b 64). lia. Qed.
Lemma rdm_header m a o v b p : a mod 64 = 0 -> b mod 64 = 0 -> 0 <= o < 64 -> 0 <= p < 64 ->
  rdm (<[a + o := v]> m) (b + p) = if decide (a = b /\ o = p) then v else rdm m (b + p).
Proof.
  intros. destruct (decide (a = b /\ o = p)) as [[-> ->]|H3]; [apply rdm_insert_eq|].
  apply rdm_insert_ne, header_word_ne; try done. destruct (decide (a = b)), (decide (o = p)); tauto.
Qed.

(** ** Segments *)

Definition hdd (L : list Z) (n : Z) : Z := match L with [] => n | x :: _ => x end.
Fixpoint lastd (p : Z) (L : list Z) : Z := match L with [] => p | x :: L => lastd x L end.

(** [L] is linked in [m]; [p] comes before its first and [n] after its last node. *)
Fixpoint dseg (m : gmap Z Z) (p : Z) (L : list Z) (n : Z) : Prop :=
  match L with
  | [] => True
  | b :: L => rdm m (b + OFF_prev_free) = p /\ rdm m (b + OFF_next_free) = hdd L n /\ dseg m b L n
  end.

Lemma lastd_snoc p L q : lastd p (L ++ [q]) = q.
Proof. revert p. induction L as [|x L IH]; intros p; simpl; [done|apply IH]. Qed.
Lemma lastd_in p L : L <> [] -> lastd p L ∈ L.
Proof.
  destruct L as [|x L] using rev_ind; [done|]. intros _. rewrite lastd_snoc. apply elem_of_app. right. by apply list_elem_of_here.
Qed.
Lemma hdd_app L1 L2 n : hdd (L1 ++ L2) n = hdd L1 (hdd L2 n).
Proof. by destruct L1. Qed.
Lemma dseg_app m p L1 L2 n : dseg m p (L1 ++ L2) n <-> dseg m p L1 (hdd L2 n) /\ dseg m (lastd p L1) L2 n.
Proof.
  revert p. induction L1 as [|b L1 IH]; intros p; simpl; [tauto|]. rewrite IH, hdd_app. tauto.
Qed.
Lemma dseg_ext m m' p L n :
  (forall b, b ∈ L -> rdm m' (b + OFF_prev_free) = rdm m (b + OFF_prev_free) /\
                      rdm m' (b + OFF_next_free) = rdm m (b + OFF_next_free)) ->
  dseg m p L n -> dseg m' p L n.
Proof.
  revert p. induction L as [|b L IH]; intros p H; simpl; [done|]. intros (E1 & E2 & H').
  destruct (H b) as [-> ->]; [apply list_elem_of_here|]. split_and!; try done. apply IH; [|done].
  intros c Hc. by apply H, list_elem_of_further.
Qed.

Definition set_next (m : gmap Z Z) (p n : Z) : gmap Z Z := if p =? NULL then m else <[p + OFF_next_free := n]> m.
Definition set_prev (m : gmap Z Z) (n p : Z) : gmap Z Z := if n =? NULL then m else <[n + OFF_prev_free := p]> m.

Ltac header_cases := unfold OFF_prev_free, OFF_next_free, OFF_size_flags, OFF_sig_dc, OFF_prev_size in *;
  repeat (rewrite rdm_header by (done || lia); destruct (decide _); try (by intuition lia)).

Lemma rdm_set_next m p n b o : p = NULL \/ node p -> node b -> 0 <= o < 64 ->
  rdm (set_next m p n) (b + o) = if decide (p = b /\ o = OFF_next_free) then n else rdm m (b + o).
Proof.
  intros Hp Hb Ho. unfold set_next. destruct (Z.eqb_spec p NULL) as [->|Hne].
  - destruct (decide _) as [[<- _]|]; [|done]. destruct Hb as [_ ?]. lia.
  - destruct Hp as [?|[Hp _]]; [done|]. rewrite rdm_header by (done || apply Hb || (unfold OFF_next_free; lia)).
    destruct (decide (p = b /\ OFF_next_free = o)), (decide (p = b /\ o = OFF_next_free)); try done; intuition congruence.
Qed.
Lemma rdm_set_prev m n p b o : n = NULL \/ node n -> node b -> 0 <= o < 64 ->
  rdm (set_prev m n p) (b + o) = if decide (n = b /\ o = OFF_prev_free) then p else rdm m (b + o).
Proof.
  intros Hp Hb Ho. unfold set_prev. destruct (Z.eqb_spec n NULL) as [->|Hne].
  - destruct (decide _) as [[<- _]|]; [|done]. destruct Hb as [_ ?]. lia.
  - destruct Hp as [?|[Hp _]]; [done|]. rewrite rdm_header by (done || apply Hb || (unfold OFF_prev_free; lia)).
    destruct (decide (n = b /\ OFF_prev_free = o)), (decide (n = b /\ o = OFF_prev_free)); try done; intuition congruence.
Qed.

(** Relinking the end of a list and the beginning of a segment. *)
Lemma dseg_set_next m L n n' : Forall node L -> NoDup L -> dseg m 0 L n ->
  dseg (set_next m (lastd 0 L) n') 0 L n'.
Proof.
  destruct L as [|q L _] using rev_ind; [done|]. rewrite Forall_app, NoDup_app, Forall_singleton. intros [HL Hq] (_ & Hnin & _) H.
  rewrite lastd_snoc. apply dseg_app in H as [H1 H2].
  apply dseg_app. simpl in *. destruct H2 as (E1 & E2 & _). split; [|split; [|split; [|done]]].
  - eapply dseg_ext; [|exact H1]. intros b Hb. rewrite Forall_forall in HL.
    assert (q <> b) by (intros ->; apply (Hnin b Hb); apply list_elem_of_here).
    rewrite !rdm_set_next by (auto || (unfold OFF_prev_free, OFF_next_free; lia)).
    by rewrite !decide_False by tauto.
  - rewrite rdm_set_next by (auto || (unfold OFF_prev_free, OFF_next_free; lia)). by rewrite decide_False by (intros [_ ?]; done).
  - rewrite rdm_set_next by (auto || (unfold OFF_prev_free, OFF_next_free; lia)). by rewrite decide_True.
Qed.
Lemma dseg_set_prev m p L n p' : Forall node L -> NoDup L -> dseg m p L n ->
  dseg (set_prev m (hdd L 0) p') p' L n.
Proof.
  destruct L as [|q L]; [done|]. rewrite Forall_cons, NoDup_cons. intros [Hq HL] [Hnin _] (E1 & E2 & H). simpl.
  rewrite !rdm_set_prev by (auto || (unfold OFF_prev_free, OFF_next_free; lia)).
  rewrite decide_True by done. rewrite decide_False by (intros [_ ?]; done). split_and!; try done.
  eapply dseg_ext; [|exact H]. intros b Hb. rewrite Forall_forall in HL.
  assert (q <> b) by (intros ->; done).
  rewrite !rdm_set_prev by (auto || (unfold OFF_prev_free, OFF_next_free; lia)). by rewrite !decide_False by tauto.
Qed.

(** ** Taking a node out and putting one in front *)

Definition unlink (m : gmap Z Z) (p n : Z) : gmap Z Z := set_prev (set_next m p n) n p.
Definition push (m : gmap Z Z) (b h : Z) : gmap Z Z :=
  set_prev (<[b + OFF_next_free := h]> (<[b + OFF_prev_free := 0]> m)) h b.

Lemma hdd_in L : L = [] \/ hdd L 0 ∈ L.
Proof. destruct L as [|x L]; [by left|right]. apply list_elem_of_here. Qed.
Lemma hdd_node L : Forall node L -> hdd L 0 = NULL \/ node (hdd L 0).
Proof. destruct L; [by left|]. rewrite Forall_cons. intros [? _]. by right. Qed.
Lemma lastd_node L : Forall node L -> lastd 0 L = NULL \/ node (lastd 0 L).
Proof.
  destruct L as [|x L]; [by left|]. rewrite Forall_forall. intros H. right. by apply H, lastd_in.
Qed.
Lemma node_nonnull a : node a -> a <> NULL. Proof. intros [_ ?] ->. lia. Qed.

(** Only the links of the neighbours change. *)
Lemma unlink_other m p n x : (p <> NULL -> x <> p + OFF_next_free) -> (n <> NULL -> x <> n + OFF_prev_free) ->
  rdm (unlink m p n) x = rdm m x.
Proof.
  unfold unlink, set_prev, set_next. intros Hp Hn.
  destruct (Z.eqb_spec n NULL), (Z.eqb_spec p NULL); rewrite ?rdm_insert_ne by (symmetry; auto); done.
Qed.
Lemma push_other m b h x : x <> b + OFF_prev_free -> x <> b + OFF_next_free -> (h <> NULL -> x <> h + OFF_prev_free) ->
  rdm (push m b h) x = rdm m x.
Proof.
  unfold push, set_prev. intros H1 H2 Hn. destruct (Z.eqb_spec h NULL); rewrite ?rdm_insert_ne by (symmetry; auto); done.
Qed.

Lemma dseg_unlink m L1 b L2 : Forall node (L1 ++ b :: L2) -> NoDup (L1 ++ b :: L2) -> dseg m 0 (L1 ++ b :: L2) 0 ->
  dseg (unlink m (lastd 0 L1) (hdd L2 0)) 0 (L1 ++ L2) 0.
Proof.
  rewrite Forall_app, Forall_cons. intros (H1 & Hb & H2) Hnd Hd. apply dseg_app in Hd as [D1 (_ & _ & D2)].
  apply NoDup_app in Hnd as (N1 & Hn & N2). apply NoDup_cons in N2 as [_ N2].
  assert (forall x, x ∈ L1 -> x ∈ L2 -> False) as Hdis.
  { intros x X1 X2. apply (Hn x X1). by apply list_elem_of_further. }
  pose proof (lastd_node L1 H1) as Hp. pose proof (hdd_node L2 H2) as Hh. rewrite Forall_forall in H1, H2.
  apply dseg_app. split.
  - unfold unlink. eapply dseg_ext; [|eapply dseg_set_next; [by apply Forall_forall|done|exact D1]].
    intros x Hx. rewrite !rdm_set_prev by (auto || (unfold OFF_prev_free, OFF_next_free; lia)).
    assert (hdd L2 0 <> x).
    { intros <-. destruct (hdd_in L2) as [->|Hin]; [by apply (node_nonnull _ (H1 _ Hx))|by apply (Hdis _ Hx)]. }
    by rewrite !decide_False by tauto.
  - eapply (dseg_set_prev _ b); [by apply Forall_forall|done|]. eapply dseg_ext; [|exact D2].
    intros x Hx. rewrite !rdm_set_next by (auto || (unfold OFF_prev_free, OFF_next_free; lia)).
    assert (lastd 0 L1 <> x).
    { intros E. destruct L1 as [|y L1]; [simpl in E; by apply (node_nonnull _ (H2 _ Hx))|].
      apply (Hdis x); [|done]. rewrite <- E. by apply lastd_in. }
    by rewrite !decide_False by tauto.
Qed.
Lemma dseg_push m b L : node b -> b ∉ L -> Forall node L -> NoDup L -> dseg m 0 L 0 ->
  dseg (push m b (hdd L 0)) 0 (b :: L) 0.
Proof.
  intros Hb Hnin HL Hnd Hd. pose proof (hdd_node L HL) as Hh. unfold push. set (m2 := insert _ _ _).
  assert (hdd L 0 <> b) as Hne.
  { intros E. destruct (hdd_in L) as [->|Hin]; [by apply (node_nonnull b)|congruence]. }
  assert (forall x o, node x -> 0 <= o < 64 -> x <> b \/ (o <> OFF_prev_free /\ o <> OFF_next_free) -> rdm m2 (x + o) = rdm m (x + o)) as Hm2.
  { intros x o [Hx _] Ho Hor. unfold m2, OFF_prev_free, OFF_next_free in *. rewrite !rdm_header by (done || apply Hb || lia).
    rewrite !decide_False by (intuition congruence). done. }
  simpl. rewrite !rdm_set_prev by (auto || (unfold OFF_prev_free, OFF_next_free; lia)). rewrite !decide_False by tauto.
  split; [|split].
  - unfold m2. rewrite rdm_insert_ne by (unfold OFF_prev_free, OFF_next_free; lia). apply rdm_insert_eq.
  - apply rdm_insert_eq.
  - eapply (dseg_set_prev _ 0); [done|done|]. eapply dseg_ext; [|exact Hd]. intros x Hx. rewrite Forall_forall in HL.
    rewrite !Hm2; try done; try (by apply HL); try (unfold OFF_prev_free, OFF_next_free; lia); left; by intros ->.
Qed.

(** ** The index of the lists *)

(** The lists by class. *)
Abbreviation lists_by_class := (Z * Z -> list Z).
Definition class_in (c : Z * Z) : Prop := 0 <= c.1 < 64 /\ 0 <= c.2 < 64.

Record index_ok (i : index) (F : lists_by_class) : Prop := IndexOk {
  ix_matrix : forall c, matrix_at i c.1 c.2 = hdd (F c) 0;
  ix_sl_range : forall f, 0 <= sl_bitmap_at i f < 2 ^ 64;
  ix_fl_range : 0 <= fl_bitmap i < 2 ^ 64;
  ix_sl : forall c, class_in c -> Z.testbit (sl_bitmap_at i c.1) c.2 = bool_decide (F c <> []);
  ix_fl : forall f, 0 <= f < 64 -> Z.testbit (fl_bitmap i) f = negb (sl_bitmap_at i f =? 0) }.

Definition clear_bit (w k : Z) : Z := Z.land w (not64 (Z.shiftl 1 k)).
Definition raise_bit (w k : Z) : Z := Z.lor w (Z.shiftl 1 k).
Lemma clear_bit_test w k j : 0 <= k < 64 -> 0 <= j < 64 -> Z.testbit (clear_bit w k) j = Z.testbit w j && negb (j =? k).
Proof.
  intros Hk Hj. unfold clear_bit. rewrite Z.land_spec, testbit_not64, Z.shiftl_1_l, testbit_pow2 by lia.
  destruct (Z.ltb_spec j 64); [|lia]. by rewrite xorb_true_r.
Qed.
Lemma raise_bit_test w k j : 0 <= k < 64 -> 0 <= j < 64 -> Z.testbit (raise_bit w k) j = Z.testbit w j || (j =? k).
Proof. intros Hk Hj. unfold raise_bit. by rewrite Z.lor_spec, Z.shiftl_1_l, testbit_pow2 by lia. Qed.
Lemma clear_bit_range w k : 0 <= w < 2 ^ 64 -> 0 <= clear_bit w k < 2 ^ 64.
Proof.
  intros Hw. unfold clear_bit. rewrite Z.land_comm. apply land_bound_r; lia.
Qed.
Lemma raise_bit_range w k : 0 <= w < 2 ^ 64 -> 0 <= k < 64 -> 0 <= raise_bit w k < 2 ^ 64.
Proof.
  intros Hw Hk. unfold raise_bit. apply lor_bound; [lia| |lia]. rewrite Z.shiftl_1_l. split; [apply Z.pow_nonneg; lia|apply Z.pow_lt_mono_r; lia].
Qed.
Lemma word_zero w : 0 <= w < 2 ^ 64 -> (forall j, 0 <= j < 64 -> Z.testbit w j = false) -> w = 0.
Proof.
  intros Hw H. apply Z.bits_inj'. intros j Hj. rewrite Z.bits_0. destruct (Z.lt_ge_cases j 64); [apply H; lia|by apply (testbit_high 64)].
Qed.

Lemma matrix_set i c v d : matrix_at (set_matrix c.1 c.2 v i) d.1 d.2 = if decide (c = d) then v else matrix_at i d.1 d.2.
Proof.
  unfold matrix_at, set_matrix. cbn. destruct c as [c1 c2], d as [d1 d2]. cbn. rewrite lookup_insert. by destruct (decide _).
Qed.
Lemma sl_set i f w g : sl_bitmap_at (set_sl_bitmap f w i) g = if decide (f = g) then w else sl_bitmap_at i g.
Proof. unfold sl_bitmap_at, set_sl_bitmap. cbn. rewrite lookup_insert. by destruct (decide _). Qed.

(** What [remove_from_free_list] and [insert_into_free_list] do to the index. *)
Definition unlink_idx (i : index) (c : Z * Z) (p n : Z) : index :=
  let i := if p =? NULL then set_matrix c.1 c.2 n i else i in
  if matrix_at i c.1 c.2 =? NULL then
    let i := set_sl_bitmap c.1 (clear_bit (sl_bitmap_at i c.1) c.2) i in
    if sl_bitmap_at i c.1 =? 0 then set_fl_bitmap (clear_bit (fl_bitmap i) c.1) i else i
  else i.
Definition push_idx (i : index) (c : Z * Z) (b : Z) : index :=
  let i := set_matrix c.1 c.2 b i in
  let i := set_sl_bitmap c.1 (raise_bit (sl_bitmap_at i c.1) c.2) i in
  set_fl_bitmap (raise_bit (fl_bitmap i) c.1) i.

Definition nonempty (L : list Z) : bool := bool_decide (L <> []).
Lemma nonempty_hdd L : Forall node L -> (hdd L 0 =? 0) = negb (nonempty L).
Proof.
  destruct L as [|x L]; [done|]. rewrite Forall_cons. intros [Hx _]. simpl.
  apply Z.eqb_neq. by apply node_nonnull.
Qed.

Lemma index_push i F c b : index_ok i F -> class_in c -> index_ok (push_idx i c b) (<[c := b :: F c]> F).
Proof.
  intros [Hm Hsr Hfr Hs Hf] [Hc1 Hc2]. unfold push_idx.
  set (i1 := set_matrix _ _ _ _). assert (forall f, sl_bitmap_at i1 f = sl_bitmap_at i f) as E1 by done.
  set (i2 := set_sl_bitmap _ _ _). assert (forall g, sl_bitmap_at i2 g = if decide (c.1 = g) then raise_bit (sl_bitmap_at i c.1) c.2 else sl_bitmap_at i g) as E2.
  { intros g. unfold i2. by rewrite sl_set. }
  split.
  - intros d. transitivity (matrix_at i1 d.1 d.2); [done|]. unfold i1. rewrite matrix_set.
    destruct (decide (c = d)) as [<-|Hne]; [by rewrite fn_lookup_insert|]. rewrite fn_lookup_insert_ne by done. apply Hm.
  - intros f. change (0 <= sl_bitmap_at i2 f < 2 ^ 64). rewrite E2. destruct (decide _); [|done]. apply raise_bit_range; [done|lia].
  - change (0 <= raise_bit (fl_bitmap i) c.1 < 2 ^ 64). apply raise_bit_range; [done|lia].
  - intros d Hd. change (Z.testbit (sl_bitmap_at i2 d.1) d.2 = nonempty (<[c := b :: F c]> F d)). rewrite E2.
    destruct (decide (c = d)) as [<-|Hne].
    + rewrite decide_True by done. rewrite raise_bit_test, Z.eqb_refl, orb_true_r by lia. by rewrite fn_lookup_insert.
    + rewrite fn_lookup_insert_ne by done. destruct Hd as [Hd1 Hd2]. destruct (decide (c.1 = d.1)) as [E|_]; [|by apply Hs].
      rewrite raise_bit_test by lia. rewrite E, (Hs d) by done. rewrite (proj2 (Z.eqb_neq d.2 c.2)); [apply orb_false_r|].
      intros E'. apply Hne. destruct c, d; simpl in *; congruence.
  - intros f Hf'. change (Z.testbit (raise_bit (fl_bitmap i) c.1) f = negb (sl_bitmap_at i2 f =? 0)). rewrite E2, raise_bit_test, (Hf f) by lia.
    destruct (decide (c.1 = f)) as [<-|Hne].
    + rewrite Z.eqb_refl, orb_true_r. symmetry. apply negb_true_iff, Z.eqb_neq. intros E0.
      assert (Z.testbit (raise_bit (sl_bitmap_at i c.1) c.2) c.2 = true) as Et by (rewrite raise_bit_test, Z.eqb_refl, orb_true_r by lia; done).
      by rewrite E0, Z.bits_0 in Et.
    + rewrite (proj2 (Z.eqb_neq f c.1)) by congruence. apply orb_false_r.
Qed.

Lemma index_unlink i F c b L1 L2 : index_ok i F -> class_in c -> F c = L1 ++ b :: L2 -> Forall node (F c) ->
  index_ok (unlink_idx i c (lastd 0 L1) (hdd L2 0)) (<[c := L1 ++ L2]> F).
Proof.
  intros [Hm Hsr Hfr Hs Hf] [Hc1 Hc2] EF Hn. unfold unlink_idx.
  assert (Forall node L1 /\ Forall node L2) as [HL1 HL2].
  { rewrite EF, Forall_app, Forall_cons in Hn. tauto. }
  set (i1 := if lastd 0 L1 =? NULL then _ else i).
  assert (forall f, sl_bitmap_at i1 f = sl_bitmap_at i f) as Es by (intros f; unfold i1; by destruct (_ =? _)).
  assert (fl_bitmap i1 = fl_bitmap i) as Ef by (unfold i1; by destruct (_ =? _)).
  assert (forall d, matrix_at i1 d.1 d.2 = hdd (<[c := L1 ++ L2]> F d) 0) as Em.
  { intros d. assert (matrix_at i1 c.1 c.2 = hdd (L1 ++ L2) 0) as Ec.
    { unfold i1. destruct L1 as [|x L1]; simpl.
      - rewrite matrix_set. by rewrite decide_True.
      - destruct (Z.eqb_spec (lastd x L1) NULL) as [E|_]; [|by rewrite Hm, EF].
        destruct (lastd_node (x :: L1) HL1) as [E'|E']; [|by apply node_nonnull in E']. exfalso.
        apply (node_nonnull (lastd 0 (x :: L1))); [|exact E]. rewrite Forall_forall in HL1. by apply HL1, lastd_in. }
    destruct (decide (c = d)) as [<-|Hne]; [by rewrite fn_lookup_insert|]. rewrite fn_lookup_insert_ne by done.
    rewrite <- Hm. unfold i1. destruct (_ =? _); [|done]. rewrite matrix_set. by rewrite decide_False. }
  assert ((matrix_at i1 c.1 c.2 =? NULL) = negb (nonempty (L1 ++ L2))) as ->.
  { rewrite Em, fn_lookup_insert. apply nonempty_hdd. by apply Forall_app. }
  assert (nonempty (F c) = true) as HFc by (rewrite EF; by destruct L1).
  destruct (nonempty (L1 ++ L2)) eqn:Ene; cbn [negb].
  - split; try done; try (by rewrite ?Ef); [intros f; by rewrite Es| |].
    + intros d Hd. rewrite Es, (Hs d Hd). destruct (decide (c = d)) as [<-|Hne]; [|by rewrite fn_lookup_insert_ne].
      rewrite fn_lookup_insert. unfold nonempty in *. congruence.
    + intros f Hf'. by rewrite Ef, Es, Hf.
  - set (i2 := set_sl_bitmap _ _ _). assert (forall g, sl_bitmap_at i2 g = if decide (c.1 = g) then clear_bit (sl_bitmap_at i c.1) c.2 else sl_bitmap_at i g) as E2.
    { intros g. unfold i2. by rewrite sl_set, !Es. }
    assert (forall d, class_in d -> Z.testbit (sl_bitmap_at i2 d.1) d.2 = bool_decide (<[c := L1 ++ L2]> F d <> [])) as Hs2.
    { intros d [Hd1 Hd2]. rewrite E2. destruct (decide (c = d)) as [<-|Hne].
      - rewrite decide_True by done. rewrite clear_bit_test, Z.eqb_refl, andb_false_r by lia. by rewrite fn_lookup_insert.
      - rewrite fn_lookup_insert_ne by done. destruct (decide (c.1 = d.1)) as [E|_]; [|by apply Hs].
        rewrite clear_bit_test by lia. rewrite E, (Hs d) by done. rewrite (proj2 (Z.eqb_neq d.2 c.2)); [apply andb_true_r|].
        intros E'. apply Hne. destruct c, d; simpl in *; congruence. }
    assert (forall f, 0 <= sl_bitmap_at i2 f < 2 ^ 64) as Hr2.
    { intros f. rewrite E2. destruct (decide _); [by apply clear_bit_range|done]. }
    destruct (Z.eqb_spec (sl_bitmap_at i2 c.1) 0) as [E0|E0].
    + split; try done.
      * change (0 <= clear_bit (fl_bitmap i1) c.1 < 2 ^ 64). rewrite Ef. by apply clear_bit_range.
      * intros f Hf'. change (Z.testbit (clear_bit (fl_bitmap i1) c.1) f = negb (sl_bitmap_at i2 f =? 0)).
        rewrite Ef, clear_bit_test, Hf by lia. destruct (Z.eqb_spec f c.1) as [->|Hne].
        -- rewrite E0. apply andb_false_r.
        -- rewrite andb_true_r, E2, decide_False by congruence. done.
    + split; try done; [by rewrite <- Ef in Hfr|]. intros f Hf'. change (Z.testbit (fl_bitmap i1) f = negb (sl_bitmap_at i2 f =? 0)).
      rewrite Ef, Hf by done. destruct (decide (c.1 = f)) as [<-|Hne]; [|by rewrite E2, decide_False].
      rewrite (proj2 (Z.eqb_neq _ _) E0). apply negb_true_iff, Z.eqb_neq. intros Ez.
      assert (Z.testbit (sl_bitmap_at i c.1) c.2 = true) as Et by (rewrite (Hs c) by done; exact HFc). by rewrite Ez, Z.bits_0 in Et.
Qed.

(** The search finds the first node of the first non-empty class from [c] on. *)
Lemma find_suitable_spec i F c : index_ok i F -> class_in c -> (forall d, F d <> [] -> class_in d) ->
  (find_suitable_in i c.1 c.2 = NULL /\ forall d, F d <> [] -> class_lt d c) \/
  (exists d, find_suitable_in i c.1 c.2 = hdd (F d) 0 /\ F d <> [] /\ ~ class_lt d c /\
     forall e, F e <> [] -> ~ class_lt e c -> ~ class_lt e d).
Proof.
  intros [Hm Hsr Hfr Hs Hf] [Hc1 Hc2] Hin. unfold find_suitable_in.
  assert (forall d, class_in d -> Z.testbit (sl_bitmap_at i d.1) d.2 = true -> F d <> []) as Hs'.
  { intros d Hd E. rewrite (Hs d Hd) in E. by apply bool_decide_eq_true in E. }
  assert (forall d, F d <> [] -> Z.testbit (sl_bitmap_at i d.1) d.2 = true) as Hs''.
  { intros d Hd. rewrite Hs by auto. by apply bool_decide_eq_true. }
  pose proof (ctz64_from (sl_bitmap_at i c.1) c.2 (Hsr _) ltac:(lia)) as [Z1 N1]. set (m1 := Z.land _ _) in *.
  assert (forall w k, 0 <= w < 2 ^ 64 -> Z.testbit w k = true -> 0 <= k < 64) as Hbit.
  { intros w k Hw E. destruct (Z.lt_ge_cases k 0); [by rewrite Z.testbit_neg_r in E|].
    destruct (Z.lt_ge_cases k 64); [lia|]. by rewrite (testbit_high 64) in E. }
  destruct (Z.eqb_spec m1 0) as [E1|E1]; cbn [negb].
  - assert (forall d, F d <> [] -> d.1 = c.1 -> d.2 < c.2) as Hsame.
    { intros d Hd E. destruct (Z.lt_ge_cases d.2 c.2) as [|Hge]; [done|]. specialize (Z1 E1 d.2 Hge).
      rewrite <- E, (Hs'' d Hd) in Z1. done. }
    pose proof (ctz64_from (fl_bitmap i) (c.1 + 1) Hfr ltac:(lia)) as [Z2 N2]. set (m2 := Z.land (fl_bitmap i) _) in *.
    assert (forall d, F d <> [] -> Z.testbit (fl_bitmap i) d.1 = true) as Hf'.
    { intros d Hd. destruct (Hin d Hd) as [Hd1 Hd2]. rewrite Hf by lia. apply negb_true_iff, Z.eqb_neq. intros E0.
      specialize (Hs'' d Hd). by rewrite E0, Z.bits_0 in Hs''. }
    destruct (Z.eqb_spec m2 0) as [E2|E2].
    + left. split; [done|]. intros d Hd. destruct (Z.lt_total d.1 c.1) as [?|[E|?]]; [by left|right; auto|].
      specialize (Z2 E2 d.1 ltac:(lia)). by rewrite (Hf' d Hd) in Z2.
    + right. destruct (N2 E2) as (K1 & K2 & K3). set (f := ctz64 m2) in *. pose proof (Hbit _ _ Hfr K2) as Kf.
      rewrite Hf in K2 by done. apply negb_true_iff, Z.eqb_neq in K2.
      destruct (ctz64_spec (sl_bitmap_at i f)) as (C1 & C2 & C3); [specialize (Hsr f); lia|]. set (l := ctz64 (sl_bitmap_at i f)) in *.
      pose proof (Hbit _ _ (Hsr f) C2) as Kl.
      exists (f, l). assert (F (f, l) <> []) as HF by (apply Hs'; [split; simpl; lia|done]).
      split; [by rewrite <- (Hm (f, l))|]. split; [done|]. split; [unfold class_lt; simpl; lia|].
      intros e He Hlt. unfold class_lt in *. simpl. intros [Hlt'|[E Hlt']].
      * assert (e.1 <> c.1) as Hne by (intros E; apply Hlt; right; auto).
        specialize (K3 e.1 ltac:(lia)). by rewrite (Hf' e He) in K3.
      * specialize (C3 e.2 ltac:(destruct (Hin e He); lia)). rewrite <- E, (Hs'' e He) in C3. done.
  - right. destruct (N1 E1) as (K1 & K2 & K3). set (l := ctz64 m1) in *. pose proof (Hbit _ _ (Hsr _) K2) as Kl.
    exists (c.1, l). assert (F (c.1, l) <> []) as HF by (apply Hs'; [split; simpl; lia|done]).
    split; [by rewrite <- (Hm (c.1, l))|]. split; [done|]. split; [unfold class_lt; simpl; lia|].
    intros e He Hlt. unfold class_lt in *. simpl. intros [?|[E Hlt']]; [tauto|].
    specialize (K3 e.2 ltac:(lia)). rewrite <- E, (Hs'' e He) in K3. done.
Qed.

(** ** The operations of the code *)

(** The calling thread does not die. *)
Definition alive (s : tlsf) : Prop := life (thr s) = None.

Section runs.
Context (C : tlsf -> Prop).
Implicit Types (s : tlsf).

Lemma wp_store_alive a v (Q : unit -> tlsf -> Prop) s : alive s -> mapped s a = true -> 0 <= v < 2 ^ 64 ->
  Q tt (set_mem (<[a := v]> (mem s)) s) -> wp (store a v) C Q s.
Proof.
  intros Ha Hm Hv HQ. apply wp_store; [done|by rewrite Ha|]. by rewrite life_None_ticked, u64_small.
Qed.
Lemma wp_upd_idx_alive f (Q : unit -> tlsf -> Prop) s : alive s -> Q tt (set_idx (f (idx s)) s) -> wp (upd_idx f) C Q s.
Proof. intros Ha HQ. apply wp_upd_idx; [by rewrite Ha|]. by rewrite life_None_ticked. Qed.

Lemma wp_load_fld b off (Q : Z -> tlsf -> Prop) s : geo_ok (geo s) -> header_in s b -> 0 <= off < 64 -> off mod 8 = 0 ->
  Q (rdm (mem s) (b + off)) s -> wp (load (fld b off)) C Q s.
Proof. intros Hg Hh Ho Hm HQ. destruct (fld_header s b off) as [-> Hmp]; [done..|]. by apply wp_load. Qed.
Lemma wp_store_fld b off v (Q : unit -> tlsf -> Prop) s : geo_ok (geo s) -> header_in s b -> 0 <= off < 64 -> off mod 8 = 0 ->
  alive s -> 0 <= v < 2 ^ 64 ->
  Q tt (set_mem (<[b + off := v]> (mem s)) s) -> wp (store (fld b off) v) C Q s.
Proof. intros Hg Hh Ho Hm Ha Hv HQ. destruct (fld_header s b off) as [-> Hmp]; [done..|]. by apply wp_store_alive. Qed.

(** A link is NULL or leads to another header. *)
Definition link_ok (s : tlsf) (b p : Z) : Prop := p = NULL \/ (node p /\ header_in s p /\ p <> b).
Lemma set_mem_id s : set_mem (mem s) s = s. Proof. by destruct s. Qed.
Lemma set_idx_id s : set_idx (idx s) s = s. Proof. by destruct s. Qed.

Lemma wp_set_next p n (Q : unit -> tlsf -> Prop) s : geo_ok (geo s) -> alive s -> node p -> header_in s p -> 0 <= n < 2 ^ 64 ->
  Q tt (set_mem (set_next (mem s) p n) s) -> wp (set_next_free p n) C Q s.
Proof.
  intros Hg Ha Hn Hp Hr HQ. apply wp_store_fld; try done. unfold set_next in HQ. by rewrite (proj2 (Z.eqb_neq _ _) (node_nonnull _ Hn)) in HQ.
Qed.
Lemma wp_set_prev n p (Q : unit -> tlsf -> Prop) s : geo_ok (geo s) -> alive s -> node n -> header_in s n -> 0 <= p < 2 ^ 64 ->
  Q tt (set_mem (set_prev (mem s) n p) s) -> wp (set_prev_free n p) C Q s.
Proof.
  intros Hg Ha Hn Hp Hr HQ. apply wp_store_fld; try done. unfold set_prev in HQ. by rewrite (proj2 (Z.eqb_neq _ _) (node_nonnull _ Hn)) in HQ.
Qed.
Lemma link_range s b p : link_ok s b p -> 0 <= p < 2 ^ 64.
Proof. intros [->|([_ ?] & _)]; lia. Qed.

Lemma wp_unlink_idx c (Q : unit -> tlsf -> Prop) s : alive s ->
  Q tt (set_idx (unlink_idx (idx s) c 1 0) s) ->
  wp (head ← get_matrix c.1 c.2;
      if head =? NULL then
        slb ← get_sl_bitmap c.1;
        upd_idx (set_sl_bitmap c.1 (Z.land slb (not64 (Z.shiftl 1 c.2)))) ;;
        slb ← get_sl_bitmap c.1;
        if slb =? 0 then
          flb ← get_fl_bitmap;
          upd_idx (set_fl_bitmap (Z.land flb (not64 (Z.shiftl 1 c.1))))
        else mret tt
      else mret tt) C Q s.
Proof.
  intros Ha HQ. unfold unlink_idx in HQ. change (1 =? NULL) with false in HQ. cbv zeta in HQ.
  apply wp_bind, wp_gets. destruct (matrix_at (idx s) c.1 c.2 =? NULL).
  - apply wp_bind, wp_gets. apply wp_bind, wp_upd_idx_alive; [done|]. apply wp_bind, wp_gets.
    unfold clear_bit in HQ. cbn [idx set_idx]. destruct (sl_bitmap_at (set_sl_bitmap _ _ _) c.1 =? 0).
    + apply wp_bind, wp_gets. apply wp_upd_idx_alive; [done|]. exact HQ.
    + apply wp_ret. exact HQ.
  - apply wp_ret. by rewrite set_idx_id in HQ.
Qed.

Lemma wp_remove_from_free_list b c (Q : unit -> tlsf -> Prop) s :
  geo_ok (geo s) -> alive s -> header_in s b -> node b ->
  let p := rdm (mem s) (b + OFF_prev_free) in let n := rdm (mem s) (b + OFF_next_free) in
  link_ok s b p -> link_ok s b n ->
  Q tt (set_idx (unlink_idx (idx s) c p n) (set_mem (unlink (mem s) p n) s)) ->
  wp (remove_from_free_list b c.1 c.2) C Q s.
Proof.
  intros Hg Ha Hb Hnb p n Hp Hn HQ. unfold remove_from_free_list. pose proof (link_range s b p Hp) as Rp. pose proof (link_range s b n Hn) as Rn.
  apply wp_bind, wp_load_fld; [done..|]. fold p.
  assert (forall m, m = mem s \/ m = set_next (mem s) p n -> rdm m (b + OFF_next_free) = n /\ rdm m (b + OFF_prev_free) = p) as Hrd.
  { intros m [-> | ->]; [done|]. rewrite !rdm_set_next; try done; try (unfold OFF_next_free, OFF_prev_free; lia);
      try (destruct Hp as [?|(? & _)]; [by left|by right]).
    rewrite !decide_False; [done|..]; intros [E' _]; (destruct Hp as [E|(_ & _ & ?)]; [apply (node_nonnull _ Hnb); congruence|done]). }
  set (s1 := set_idx (if p =? NULL then set_matrix c.1 c.2 n (idx s) else idx s) (set_mem (set_next (mem s) p n) s)).
  assert (mem s1 = set_next (mem s) p n) as Em1 by done.
  apply wp_bind. cut (wp (next ← get_next_free b;
     (if negb (next =? NULL) then prev ← get_prev_free b; set_prev_free next prev else mret tt) ;;
     head ← get_matrix c.1 c.2;
      if head =? NULL then
        slb ← get_sl_bitmap c.1;
        upd_idx (set_sl_bitmap c.1 (Z.land slb (not64 (Z.shiftl 1 c.2)))) ;;
        slb ← get_sl_bitmap c.1;
        if slb =? 0 then
          flb ← get_fl_bitmap;
          upd_idx (set_fl_bitmap (Z.land flb (not64 (Z.shiftl 1 c.1))))
        else mret tt
      else mret tt) C Q s1).
  { intros Hk. destruct (Z.eqb_spec p NULL) as [E|E]; cbn [negb].
    - apply wp_bind, wp_load_fld; [done..|]. fold n. apply wp_upd_idx_alive; [done|].
      replace (set_idx (set_matrix c.1 c.2 n (idx s)) s) with s1; [exact Hk|].
      unfold s1, set_next. rewrite (proj2 (Z.eqb_eq _ _) E). by rewrite set_mem_id.
    - apply wp_bind, wp_load_fld; [done..|]. fold n. destruct Hp as [?|(Np & Hp & _)]; [done|]. apply wp_set_next; try done.
  }
  apply wp_bind, wp_load_fld; [done..|]. destruct (Hrd (mem s1) ltac:(by right)) as [-> Hrp].
  apply wp_bind. assert (unlink_idx (idx s1) c 1 0 = unlink_idx (idx s) c p n) as Ei.
  { unfold unlink_idx. change (1 =? NULL) with false. done. }
  destruct (Z.eqb_spec n NULL) as [E|E]; cbn [negb].
  - apply wp_ret, wp_unlink_idx; [done|]. rewrite Ei. unfold unlink, set_prev in HQ. rewrite (proj2 (Z.eqb_eq _ _) E) in HQ. exact HQ.
  - apply wp_bind, wp_load_fld; [done..|]. rewrite Hrp. destruct Hn as [?|(Nn & Hn & _)]; [done|].
    apply wp_set_prev; try done. apply wp_unlink_idx; [done|]. cbn [idx set_mem]. rewrite Ei. exact HQ.
Qed.

Lemma wp_insert_into_free_list b c (Q : unit -> tlsf -> Prop) s :
  geo_ok (geo s) -> alive s -> header_in s b -> node b ->
  let h := matrix_at (idx s) c.1 c.2 in link_ok s b h ->
  Q tt (set_idx (push_idx (idx s) c b) (set_mem (push (mem s) b h) s)) ->
  wp (insert_into_free_list b c.1 c.2) C Q s.
Proof.
  intros Hg Ha Hb Hnb h Hh HQ. unfold insert_into_free_list. pose proof (link_range s b h Hh) as Rh.
  assert (0 <= b < 2 ^ 64) as Rb by (destruct Hnb; lia).
  apply wp_bind, wp_store_fld; try done. apply wp_bind, wp_gets. cbn [idx set_mem]. fold h.
  apply wp_bind, wp_store_fld; try done. apply wp_bind, wp_gets. cbn [idx set_mem mem]. fold h. apply wp_bind.
  set (s2 := set_mem (<[b + OFF_next_free := h]> _) _).
  cut (wp (upd_idx (set_matrix c.1 c.2 b) ;;
     slb ← get_sl_bitmap c.1;
     upd_idx (set_sl_bitmap c.1 (Z.lor slb (Z.shiftl 1 c.2))) ;;
     flb ← get_fl_bitmap;
     upd_idx (set_fl_bitmap (Z.lor flb (Z.shiftl 1 c.1)))) C Q (set_mem (set_prev (mem s2) h b) s2)).
  { intros Hk. destruct (Z.eqb_spec h NULL) as [E|E]; cbn [negb].
    - apply wp_ret. unfold set_prev in Hk. rewrite (proj2 (Z.eqb_eq _ _) E) in Hk. exact Hk.
    - destruct Hh as [?|(Nh & Hh & _)]; [done|]. apply wp_set_prev; done. }
  apply wp_bind, wp_upd_idx_alive; [done|]. apply wp_bind, wp_gets. apply wp_bind, wp_upd_idx_alive; [done|].
  apply wp_bind, wp_gets. apply wp_upd_idx_alive; [done|]. exact HQ.
Qed.
End runs.
