(* ===== verification/TlsfTiling.v ===== *)
(** The heap of the allocator as a sequence of blocks that tile it, and the free lists
    as the listed ones among them: the invariant of the pool, and what each block
    operation ([tlsf_txn.c]) does to the sequence. *)
From stdpp Require Import functions.
From S2P Require Import Prelude Machine TlsfTypes TlsfBul TlsfHeap TlsfAlloc TlsfFacts TlsfHoare TlsfTxn TlsfOwners TlsfOwnership TlsfLists.

(** ** Blocks *)

(** [bfree] and [bprev] are the flags of the header; [blisted] tells that the block is
    in a free list, [bstale] that its size has changed since the block after was told. *)
Record blk := Blk { baddr : Z; bsize : Z; bfree : bool; bprev : bool; blisted : bool; bstale : bool }.
Definition blk_word (x : blk) : Z := bsize x + (Z.b2z (bfree x) + 2 * Z.b2z (bprev x)).
#[export] Instance blk_eq_dec : EqDecision blk.
Proof. solve_decision. Defined.
Definition set_bsize v x := Blk (baddr x) v (bfree x) (bprev x) (blisted x) (bstale x).
Definition set_bfree v x := Blk (baddr x) (bsize x) v (bprev x) (blisted x) (bstale x).
Definition set_bprev v x := Blk (baddr x) (bsize x) (bfree x) v (blisted x) (bstale x).
Definition set_blisted v x := Blk (baddr x) (bsize x) (bfree x) (bprev x) v (bstale x).
Definition set_bstale v x := Blk (baddr x) (bsize x) (bfree x) (bprev x) (blisted x) v.
Definition blk_ok (x : blk) : Prop := 128 <= bsize x < 2 ^ 41 /\ bsize x mod 64 = 0.

Section words.
Context (x : blk) (Hx : blk_ok x).
Lemma blk_word_split : exists k, bsize x = 4 * k /\ 0 <= k < 2 ^ 39.
Proof. destruct Hx as [Hs Hm]. exists (16 * (bsize x / 64)). pose proof (Z.div_mod (bsize x) 64). lia. Qed.
Lemma flag_bits : 0 <= Z.b2z (bfree x) + 2 * Z.b2z (bprev x) < 4.
Proof. destruct (bfree x), (bprev x); simpl; lia. Qed.
Lemma blk_word_range : 0 <= blk_word x < 2 ^ 64.
Proof. destruct Hx as [Hs _]. pose proof flag_bits. unfold blk_word. lia. Qed.
Lemma blk_word_size : Z.land (blk_word x) SIZE_MASK = bsize x.
Proof. destruct blk_word_split as (k & Ek & Hk). apply flags_size; [lia| |apply flag_bits]. rewrite Ek, Z.mul_comm. by apply Z.mod_mul. Qed.
Lemma blk_word_free : negb (Z.land (blk_word x) BLOCK_FREE =? 0) = bfree x.
Proof.
  destruct blk_word_split as (k & Ek & Hk). unfold blk_word. rewrite flags_free; [|rewrite Ek, Z.mul_comm; by apply Z.mod_mul|apply flag_bits].
  by destruct (bfree x), (bprev x).
Qed.
Lemma blk_word_prev : negb (Z.land (blk_word x) BLOCK_PREV_FREE =? 0) = bprev x.
Proof.
  destruct blk_word_split as (k & Ek & Hk). unfold blk_word. rewrite flags_prev_free; [|rewrite Ek, Z.mul_comm; by apply Z.mod_mul|apply flag_bits].
  by destruct (bfree x), (bprev x).
Qed.
Lemma blk_word_or : forall g, 0 <= g < 4 -> Z.lor (blk_word x) g = bsize x + Z.lor (Z.b2z (bfree x) + 2 * Z.b2z (bprev x)) g.
Proof.
  intros g Hg. destruct blk_word_split as (k & Ek & Hk). unfold blk_word. rewrite Ek.
  replace (4 * k) with (k * 2 ^ 2) by lia. pose proof flag_bits.
  rewrite <- (lor_add_low 2 k) by lia. rewrite <- Z.lor_assoc. apply lor_add_low; [lia|]. apply lor_bound; lia.
Qed.
Lemma blk_word_clear : forall g, 0 <= g < 4 -> Z.land (blk_word x) (not64 g) = bsize x + Z.land (Z.b2z (bfree x) + 2 * Z.b2z (bprev x)) (3 - g).
Proof.
  intros g Hg. pose proof blk_word_range as Hr. destruct blk_word_split as (k & Ek & Hk). pose proof flag_bits as Hf.
  unfold blk_word in *. rewrite Ek in *. set (f := Z.b2z (bfree x) + _) in *.
  replace (4 * k) with (k * 2 ^ 2) by lia. replace (k * 2 ^ 2 + f) with (Z.lor (k * 2 ^ 2) f) by (by rewrite lor_add_low by lia).
  rewrite <- (lor_add_low 2 k (Z.land f (3 - g))); [|lia|apply land_bound_r; lia].
  bit_intro i. destruct (Z.ltb_spec i 64).
  - rewrite xorb_true_r. rewrite Z.mul_pow2_bits by lia. destruct (Z.ltb_spec i 2).
    + rewrite (Z.testbit_neg_r k) by lia. simpl. f_equal.
      assert (g = 0 \/ g = 1 \/ g = 2 \/ g = 3) as [->|[->|[->| ->]]] by lia; assert (i = 0 \/ i = 1) as [->| ->] by lia; done.
    + rewrite (testbit_high 2 g), (testbit_high 2 f) by lia. simpl. by rewrite andb_true_r.
  - rewrite Z.mul_pow2_bits, !(testbit_high 2 f), (testbit_high 39 k) by lia. done.
Qed.
End words.

(** ** Tilings *)

(** What the block after is expected to know: the size, or nothing when stale. *)
Definition told (x : blk) : option Z := if bstale x then None else Some (bsize x).
(** The block before, if there is one, and what it has told. *)
Definition knows (p : option (option Z)) (v : Z) : Prop :=
  match p with None => False | Some None => True | Some (Some q) => q = v end.

(** From [a] on the memory holds the headers of [bs], which end at [e]; [p] is the block
    before.  A block that claims to know the size of the block before it does know it. *)
Fixpoint tiled (m : gmap Z Z) (p : option (option Z)) (a : Z) (bs : list blk) (e : Z) : Prop :=
  match bs with
  | [] => a = e
  | x :: bs =>
      baddr x = a /\ 128 <= bsize x /\ bsize x mod 64 = 0 /\
      rdm m (a + OFF_size_flags) = blk_word x /\ sig_ok (rdm m (a + OFF_sig_dc)) = true /\
      (bprev x = true -> knows p (rdm m (a + OFF_prev_size))) /\
      tiled m (Some (told x)) (a + bsize x) bs e
  end.
Fixpoint tsize (bs : list blk) : Z := match bs with [] => 0 | x :: bs => bsize x + tsize bs end.
Fixpoint lastp (p : option (option Z)) (bs : list blk) : option (option Z) := match bs with [] => p | x :: bs => lastp (Some (told x)) bs end.

Lemma lastp_snoc p bs x : lastp p (bs ++ [x]) = Some (told x).
Proof. revert p. induction bs as [|y bs IH]; intros p; simpl; [done|apply IH]. Qed.
Lemma tsize_app l1 l2 : tsize (l1 ++ l2) = tsize l1 + tsize l2.
Proof. induction l1 as [|x l1 IH]; simpl; lia. Qed.

Lemma tiled_app m p a l1 l2 e : tiled m p a (l1 ++ l2) e <->
  tiled m p a l1 (a + tsize l1) /\ tiled m (lastp p l1) (a + tsize l1) l2 e.
Proof.
  revert p a. induction l1 as [|x l1 IH]; intros p a; simpl.
  - rewrite Z.add_0_r. tauto.
  - rewrite IH. replace (a + bsize x + tsize l1) with (a + (bsize x + tsize l1)) by lia. tauto.
Qed.
Lemma tiled_end m p a bs e : tiled m p a bs e -> e = a + tsize bs.
Proof.
  revert p a. induction bs as [|x bs IH]; intros p a; simpl; [lia|]. intros (_ & _ & _ & _ & _ & _ & H). apply IH in H. lia.
Qed.
Lemma tsize_nonneg m p a bs e : tiled m p a bs e -> 0 <= tsize bs.
Proof.
  revert p a. induction bs as [|x bs IH]; intros p a; simpl; [lia|]. intros (_ & ? & _ & _ & _ & _ & H). apply IH in H. lia.
Qed.
(** Where the blocks lie. *)
Lemma tiled_in m p a bs e x : tiled m p a bs e -> x ∈ bs -> a mod 64 = 0 ->
  a <= baddr x /\ 128 <= bsize x /\ baddr x + bsize x <= e /\ baddr x mod 64 = 0 /\ bsize x mod 64 = 0.
Proof.
  revert p a. induction bs as [|y bs IH]; intros p a; simpl; [by intros ? ?%not_elem_of_nil|].
  intros (<- & Hs & Hm & _ & _ & _ & H) Hin Ha. apply elem_of_cons in Hin as [->|Hin].
  - pose proof (tsize_nonneg _ _ _ _ _ H). apply tiled_end in H. lia.
  - apply IH in H; [lia|done|]. pose proof (Z.div_mod (baddr y) 64). pose proof (Z.div_mod (bsize y) 64).
    replace (baddr y + bsize y) with ((baddr y / 64 + bsize y / 64) * 64) by lia. by apply Z.mod_mul.
Qed.

(** The words of the headers that the tiling is about. *)
Definition hdr_off (o : Z) : Prop := o = OFF_size_flags \/ o = OFF_sig_dc \/ o = OFF_prev_size.
Lemma tiled_ext m m' p a bs e :
  (forall x o, x ∈ bs -> hdr_off o -> rdm m' (baddr x + o) = rdm m (baddr x + o)) -> tiled m p a bs e -> tiled m' p a bs e.
Proof.
  revert p a. induction bs as [|x bs IH]; intros p a He; simpl; [done|].
  intros (<- & Hs & Hm & E1 & E2 & E3 & H).
  rewrite !(He x) by (apply list_elem_of_here || (unfold hdr_off; tauto)). split_and!; try done.
  apply IH; [|done]. intros y o Hy. by apply He, list_elem_of_further.
Qed.

(** A block before that has told nothing is easily known. *)
Lemma tiled_stale m p a bs e : tiled m p a bs e -> p <> None -> tiled m (Some None) a bs e.
Proof. destruct bs as [|x bs]; [done|]. intros (? & ? & ? & ? & ? & ? & ?) _. by split_and!. Qed.

(** Whether a block is listed is not written in its header. *)
Lemma tiled_listed m p a l1 x l2 e v : tiled m p a (l1 ++ x :: l2) e -> tiled m p a (l1 ++ set_blisted v x :: l2) e.
Proof. rewrite !tiled_app. done. Qed.

(** Different blocks do not overlap. *)
Lemma tiled_split m p a l1 x l2 e : tiled m p a (l1 ++ x :: l2) e -> a mod 64 = 0 ->
  baddr x = a + tsize l1 /\ (forall y, y ∈ l1 -> baddr y + bsize y <= baddr x) /\
  (forall y, y ∈ l2 -> baddr x + bsize x <= baddr y).
Proof.
  rewrite tiled_app. intros [H1 H2] Ha. pose proof H2 as (E & _). split; [done|]. rewrite E. split.
  - intros y Hy. apply (tiled_in _ _ _ _ _ y) in H1; [lia|done|done].
  - intros y Hy. destruct H2 as (_ & Hs & Hm & _ & _ & _ & H2). apply (tiled_in _ _ _ _ _ y) in H2; [lia|done|].
    assert (x ∈ [x]) as Hx by apply list_elem_of_here.
    assert ((a + tsize l1) mod 64 = 0) as E0.
    { clear -H1 Ha. revert p a H1 Ha. induction l1 as [|z l1 IH]; intros p a; simpl; [by rewrite Z.add_0_r|].
      intros (_ & _ & Hm & _ & _ & _ & H) Ha. replace (a + (bsize z + tsize l1)) with (a + bsize z + tsize l1) in * by lia. eapply IH; [exact H|].
      rewrite Z.add_mod, Ha, Hm by lia. done. }
    rewrite Z.add_mod, E0, Hm by lia. done.
Qed.
Lemma tiled_addr_inj m p a bs e x y : tiled m p a bs e -> a mod 64 = 0 -> x ∈ bs -> y ∈ bs -> baddr x = baddr y -> x = y.
Proof.
  intros H Ha Hx Hy E. apply list_elem_of_split in Hx as (l1 & l2 & ->).
  destruct (tiled_split _ _ _ _ _ _ _ H Ha) as (_ & H1 & H2). pose proof (tiled_in _ _ _ _ _ y H Hy Ha) as (_ & Hsy & _).
  pose proof (tiled_in _ _ _ _ _ x H ltac:(apply elem_of_app; right; apply list_elem_of_here) Ha) as (_ & Hsx & _).
  apply elem_of_app in Hy as [Hy|Hy]; [apply H1 in Hy; lia|]. apply elem_of_cons in Hy as [->|Hy]; [done|]. apply H2 in Hy. lia.
Qed.

(** ** The invariant of the pool *)

(** The heap fills the pool, as for pools whose size is a multiple of 64. *)
Definition pool_geo (g : geometry) : Prop :=
  geo_ok g /\ heap_start g + heap_size g = pool_start g + pool_size g /\ pool_size g <= 2 ^ 40.

Definition class_of (x : blk) : Z * Z := mapping_search (bsize x).

Record heap_ok (s : tlsf) (bs : list blk) (F : lists_by_class) : Prop := HeapOk {
  hp_mem : mem_ok (mem s);
  hp_tiled : tiled (mem s) None (heap_start (geo s)) bs (heap_start (geo s) + heap_size (geo s));
  hp_index : index_ok (idx s) F;
  hp_linked : forall c, dseg (mem s) 0 (F c) 0;
  hp_nodup : forall c, NoDup (F c);
  hp_listed : forall c a, a ∈ F c <-> exists x, x ∈ bs /\ blisted x = true /\ baddr x = a /\ class_of x = c }.
(** Between operations the listed blocks are the free ones, and none is stale. *)
Definition settled_heap (bs : list blk) : Prop := forall x, x ∈ bs -> blisted x = bfree x /\ bstale x = false.

(** Everything but the heap and its index. *)
Definition same_but_heap (s s' : tlsf) : Prop :=
  geo s' = geo s /\ mutex s' = mutex s /\ thr s' = thr s /\
  (forall a, a < heap_start (geo s) -> rdm (mem s') a = rdm (mem s) a).
(** The words of a block that are its owner's: all but its size, flags and [prev_size]. *)
Definition kept (x : blk) (m m' : gmap Z Z) : Prop :=
  forall o, 8 <= o < bsize x -> o <> OFF_prev_size -> rdm m' (baddr x + o) = rdm m (baddr x + o).

Lemma kept_refl x m : kept x m m. Proof. done. Qed.
Lemma kept_trans x m1 m2 m3 : kept x m1 m2 -> kept x m2 m3 -> kept x m1 m3.
Proof. intros H1 H2 o Ho Hne. by rewrite H2, H1. Qed.
Lemma same_but_heap_trans s1 s2 s3 : same_but_heap s1 s2 -> same_but_heap s2 s3 -> same_but_heap s1 s3.
Proof.
  intros (G1 & M1 & T1 & A1) (G2 & M2 & T2 & A2). split_and!; try congruence. intros a Ha. rewrite A2, A1; congruence.
Qed.

Lemma tiled_disjoint m p a bs e x y : tiled m p a bs e -> a mod 64 = 0 -> x ∈ bs -> y ∈ bs -> baddr x <> baddr y ->
  baddr x + bsize x <= baddr y \/ baddr y + bsize y <= baddr x.
Proof.
  intros H Ha Hx Hy Hne. apply list_elem_of_split in Hx as (l1 & l2 & ->).
  destruct (tiled_split _ _ _ _ _ _ _ H Ha) as (_ & H1 & H2).
  apply elem_of_app in Hy as [Hy|Hy]; [right; by apply H1|]. apply elem_of_cons in Hy as [->|Hy]; [done|]. left; by apply H2.
Qed.

Section heap.
Context (s : tlsf) (bs : list blk) (F : lists_by_class).
Context (Hg : pool_geo (geo s)) (Hh : heap_ok s bs F).

Lemma start_aligned : heap_start (geo s) mod 64 = 0. Proof. by destruct Hg as [(? & ? & ? & ? & ? & _) _]. Qed.
Lemma block_facts x : x ∈ bs -> blk_ok x /\ node (baddr x) /\ header_in s (baddr x) /\
  heap_start (geo s) <= baddr x /\ baddr x + bsize x <= pool_end s.
Proof.
  intros Hx. destruct (tiled_in _ _ _ _ _ x (hp_tiled _ _ _ Hh) Hx start_aligned) as (H1 & H2 & H3 & H4 & H5).
  destruct Hg as [(_ & G1 & G2 & G3 & G4 & G5 & G6 & G7) [G8 G9]]. unfold SIZEOF_TLSF_CTRL in *.
  unfold blk_ok, node, header_in, pool_end, HEADER_SIZE. pose proof (Z.div_mod (baddr x) 64).
  assert (baddr x mod 8 = 0) by (pose proof (Z.div_mod (baddr x) 8); pose proof (Z.mod_pos_bound (baddr x) 8); lia).
  split_and!; lia.
Qed.
Lemma block_node x : x ∈ bs -> node (baddr x).
Proof. intros Hx. by destruct (block_facts x Hx) as (_ & ? & _). Qed.
Lemma block_reads x : x ∈ bs -> rdm (mem s) (baddr x + OFF_size_flags) = blk_word x /\ sig_ok (rdm (mem s) (baddr x + OFF_sig_dc)) = true.
Proof.
  intros Hx. pose proof (hp_tiled _ _ _ Hh) as Ht. apply list_elem_of_split in Hx as (l1 & l2 & E). rewrite E in Ht.
  apply tiled_app in Ht as [_ (<- & _ & _ & E1 & E2 & _)]. done.
Qed.
Lemma class_range x : x ∈ bs -> class_in (class_of x).
Proof.
  intros Hx. destruct (block_facts x Hx) as ([Hs Hm] & _). unfold class_of. pose proof (mapping_bounds (bsize x) ltac:(lia)) as Hb.
  destruct (mapping_search (bsize x)) as [fl sl]. unfold FLI_MAX in Hb. change SLI_SIZE with 16 in Hb. split; simpl; lia.
Qed.
Lemma listed_block c a : a ∈ F c -> exists x, x ∈ bs /\ blisted x = true /\ baddr x = a /\ class_of x = c.
Proof. apply (hp_listed _ _ _ Hh). Qed.
Lemma list_nodes c : Forall node (F c).
Proof.
  apply Forall_forall. intros a Ha. destruct (listed_block c a Ha) as (x & Hx & _ & <- & _). by destruct (block_facts x Hx) as (_ & ? & _).
Qed.
Lemma same_block x y : x ∈ bs -> y ∈ bs -> baddr x = baddr y -> x = y.
Proof. apply (tiled_addr_inj _ _ _ _ _ _ _ (hp_tiled _ _ _ Hh) start_aligned). Qed.

(** A list member other than [b] is a link to another header. *)
Lemma member_link c b a : a ∈ F c -> a <> b -> link_ok s b a.
Proof.
  intros Ha Hne. destruct (listed_block c a Ha) as (x & Hx & _ & <- & _). right. destruct (block_facts x Hx) as (_ & ? & ? & _). done.
Qed.
(** A store to the link of a listed block leaves headers and unlisted blocks alone. *)
Lemma link_store_hdr c a o x p : a ∈ F c -> o = OFF_prev_free \/ o = OFF_next_free -> x ∈ bs -> hdr_off p -> baddr x + p <> a + o.
Proof.
  intros Ha Ho Hx Hp. destruct (listed_block c a Ha) as (y & Hy & _ & <- & _).
  destruct (block_facts x Hx) as (_ & [Nx _] & _). destruct (block_facts y Hy) as (_ & [Ny _] & _).
  unfold hdr_off, OFF_prev_free, OFF_next_free, OFF_size_flags, OFF_sig_dc, OFF_prev_size in *.
  apply header_word_ne; try done; lia.
Qed.
Lemma link_store_kept c a o x p : a ∈ F c -> o = OFF_prev_free \/ o = OFF_next_free -> x ∈ bs -> baddr x <> a -> 0 <= p < bsize x ->
  baddr x + p <> a + o.
Proof.
  intros Ha Ho Hx Hne Hp. destruct (listed_block c a Ha) as (y & Hy & _ & <- & _).
  destruct (tiled_disjoint _ _ _ _ _ x y (hp_tiled _ _ _ Hh) start_aligned Hx Hy Hne);
    destruct (block_facts y Hy) as ([? _] & _); unfold OFF_prev_free, OFF_next_free in *; lia.
Qed.
Lemma link_store_outside c a o q : a ∈ F c -> o = OFF_prev_free \/ o = OFF_next_free -> q < heap_start (geo s) -> q <> a + o.
Proof.
  intros Ha Ho Hq. destruct (listed_block c a Ha) as (y & Hy & _ & <- & _).
  destruct (block_facts y Hy) as (_ & _ & _ & ? & _). unfold OFF_prev_free, OFF_next_free in *; lia.
Qed.
End heap.

Lemma mem_ok_put m a v : mem_ok m -> 0 <= v < 2 ^ 64 -> mem_ok (<[a := v]> m).
Proof. intros H Hv b. rewrite rdm_insert. by destruct (decide (a = b)). Qed.
Lemma mem_ok_unlink m p n : mem_ok m -> 0 <= p < 2 ^ 64 -> 0 <= n < 2 ^ 64 -> mem_ok (unlink m p n).
Proof. intros. unfold unlink, set_prev, set_next. destruct (_ =? _), (_ =? _); auto using mem_ok_put. Qed.
Lemma mem_ok_push m b h : mem_ok m -> 0 <= b < 2 ^ 64 -> 0 <= h < 2 ^ 64 -> mem_ok (push m b h).
Proof. intros. unfold push, set_prev. destruct (_ =? _); auto 6 using mem_ok_put with lia. Qed.

Section relink.
Context (s : tlsf) (l1 l2 : list blk) (x : blk) (F : lists_by_class).
Context (Hg : pool_geo (geo s)).

Lemma x_in v : x ∈ l1 ++ x :: l2 /\ set_blisted v x ∈ l1 ++ set_blisted v x :: l2.
Proof. split; apply elem_of_app; right; apply list_elem_of_here. Qed.
(** The other blocks do not depend on whether [x] is listed. *)
Lemma in_others v y : y ∈ l1 ++ set_blisted v x :: l2 <-> y = set_blisted v x \/ y ∈ l1 ++ l2.
Proof. rewrite !elem_of_app, elem_of_cons. tauto. Qed.
Lemma in_others' y : y ∈ l1 ++ x :: l2 <-> y = x \/ y ∈ l1 ++ l2.
Proof. rewrite !elem_of_app, elem_of_cons. tauto. Qed.
Lemma others_ne bs' m p a e : tiled m p a (l1 ++ x :: l2) e -> a mod 64 = 0 -> bs' = l1 ++ l2 -> forall y, y ∈ bs' -> baddr y <> baddr x.
Proof.
  intros H Ha -> y Hy. destruct (tiled_split _ _ _ _ _ _ _ H Ha) as (_ & H1 & H2).
  pose proof (tiled_in _ _ _ _ _ y H ltac:(by apply in_others'; right) Ha).
  pose proof (tiled_in _ _ _ _ _ x H ltac:(by apply in_others'; left) Ha).
  apply elem_of_app in Hy as [Hy|Hy]; [apply H1 in Hy|apply H2 in Hy]; lia.
Qed.

(** Taking a block out of its list. *)
Lemma heap_unlink L1 L2 : heap_ok s (l1 ++ x :: l2) F -> blisted x = true -> F (class_of x) = L1 ++ baddr x :: L2 ->
  let s' := set_idx (unlink_idx (idx s) (class_of x) (lastd 0 L1) (hdd L2 0)) (set_mem (unlink (mem s) (lastd 0 L1) (hdd L2 0)) s) in
  heap_ok s' (l1 ++ set_blisted false x :: l2) (<[class_of x := L1 ++ L2]> F) /\ same_but_heap s s' /\
  forall y, y ∈ l1 ++ set_blisted false x :: l2 -> blisted y = false -> kept y (mem s) (mem s').
Proof.
  intros Hh Hl EF s'. set (c := class_of x) in *. set (bs := l1 ++ x :: l2) in *.
  pose proof (proj1 (x_in false)) as Hx. fold bs in Hx.
  pose proof (list_nodes s bs F Hg Hh c) as Hn. rewrite EF in Hn.
  pose proof (hp_nodup _ _ _ Hh c) as Hnd. rewrite EF in Hnd.
  assert (lastd 0 L1 = 0 \/ lastd 0 L1 ∈ L1) as Hp.
  { destruct L1; [by left|right]. by apply lastd_in. }
  assert (hdd L2 0 = 0 \/ hdd L2 0 ∈ L2) as Hq.
  { destruct (hdd_in L2) as [->|]; auto. }
  assert (forall a, a ∈ L1 \/ a ∈ L2 -> a ∈ F c /\ a <> baddr x) as Hmem.
  { intros a Ha. rewrite EF. split; [rewrite elem_of_app, elem_of_cons; tauto|]. intros ->.
    apply NoDup_app in Hnd as (_ & N1 & N2). apply NoDup_cons in N2 as [N2 _].
    destruct Ha as [Ha|Ha]; [apply (N1 _ Ha); apply list_elem_of_here|done]. }
  assert (forall a, (forall b o, b ∈ L1 \/ b ∈ L2 -> o = OFF_prev_free \/ o = OFF_next_free -> a <> b + o) -> rdm (mem s') a = rdm (mem s) a) as Hsame.
  { intros a Ha. apply unlink_other; intros E; apply Ha; tauto. }
  split; [split|split].
  - apply mem_ok_unlink; [apply Hh|..].
    + destruct Hp as [->|Hp']; [lia|]. destruct (Hmem _ (or_introl Hp')) as [Hm _]. pose proof (list_nodes s bs F Hg Hh c) as Hn'. rewrite Forall_forall in Hn'. destruct (Hn' _ Hm). lia.
    + destruct Hq as [->|Hq']; [lia|]. destruct (Hmem _ (or_intror Hq')) as [Hm _]. pose proof (list_nodes s bs F Hg Hh c) as Hn'. rewrite Forall_forall in Hn'. destruct (Hn' _ Hm). lia.
  - apply tiled_listed. eapply tiled_ext; [|exact (hp_tiled _ _ _ Hh)]. intros y o Hy Ho. apply Hsame.
    intros b o' Hb Ho'. destruct (Hmem b Hb) as [Hb' _]. by eapply link_store_hdr.
  - apply (index_unlink _ F c (baddr x)); [apply Hh|by eapply class_range|done|by apply (list_nodes s bs)].
  - intros d. destruct (decide (c = d)) as [<-|Hne].
    + rewrite fn_lookup_insert. apply (dseg_unlink _ _ (baddr x)); [done|done|]. rewrite <- EF. apply Hh.
    + rewrite fn_lookup_insert_ne by done. eapply dseg_ext; [|apply (hp_linked _ _ _ Hh d)]. intros b Hb.
      destruct (listed_block s bs F Hh d b Hb) as (y & Hy & Hyl & <- & Hyc).
      assert (forall o, 0 <= o < 64 -> rdm (mem s') (baddr y + o) = rdm (mem s) (baddr y + o)) as He.
      { intros o Ho. apply Hsame. intros b' o' Hb' Ho'. destruct (Hmem b' Hb') as [Hb'' _].
        eapply (link_store_kept s bs F); try done; [|by destruct (block_facts s bs F Hg Hh y Hy) as ([? _] & _); lia].
        intros E. destruct (listed_block s bs F Hh c b' Hb'') as (z & Hz & _ & Ez & Ec). apply Hne. rewrite <- Ec, <- Hyc. f_equal.
        apply (same_block s bs F Hg Hh); congruence. }
      by rewrite !He by (unfold OFF_prev_free, OFF_next_free; lia).
  - intros d. destruct (decide (c = d)) as [<-|Hne]; [rewrite fn_lookup_insert|rewrite fn_lookup_insert_ne by done; apply Hh].
    apply NoDup_app in Hnd as (N1 & N2 & N3). apply NoDup_cons in N3 as [N3 N4]. apply NoDup_app. split_and!; try done.
    intros b Hb Hb'. apply (N2 b Hb). by apply list_elem_of_further.
  - intros d a. destruct (decide (c = d)) as [<-|Hne].
    + rewrite fn_lookup_insert. split.
      * intros Ha. apply elem_of_app in Ha. destruct (Hmem a Ha) as [Ha1 Ha2]. destruct (listed_block s bs F Hh c a Ha1) as (y & Hy & Hyl & <- & Hyc).
        exists y. split_and!; try done. apply in_others. apply in_others' in Hy as [->|Hy]; [done|by right].
      * intros (y & Hy & Hyl & <- & Hyc). apply in_others in Hy as [->|Hy]; [done|].
        assert (baddr y ∈ F c) as Hin by (apply (hp_listed _ _ _ Hh); exists y; split_and!; try done; by apply in_others'; right).
        rewrite EF in Hin. rewrite elem_of_app, elem_of_cons in Hin. apply elem_of_app.
        destruct Hin as [?|[E|?]]; [tauto| |tauto]. exfalso. by apply (others_ne _ _ _ _ _ (hp_tiled _ _ _ Hh) (start_aligned s Hg) eq_refl y Hy).
    + rewrite fn_lookup_insert_ne, (hp_listed _ _ _ Hh) by done. split; intros (y & Hy & Hyl & Hya & Hyc); exists y; split_and!; try done.
      * apply in_others. apply in_others' in Hy as [->|Hy]; [done|by right].
      * apply in_others'. apply in_others in Hy as [->|Hy]; [done|by right].
  - split_and!; try done. intros a Ha. apply Hsame. intros b o Hb Ho. destruct (Hmem b Hb) as [Hb' _]. by eapply link_store_outside.
  - intros y Hy Hyl o Ho _. apply Hsame. intros b o' Hb Ho'. destruct (Hmem b Hb) as [Hb' Hbx].
    apply in_others in Hy as [->|Hy].
    + eapply (link_store_kept s bs F Hg Hh c b o' x); try done. cbn in Ho. lia.
    + eapply (link_store_kept s bs F Hg Hh c b o' y); try done; [by apply in_others'; right| |lia].
      intros E. destruct (listed_block s bs F Hh c b Hb') as (z & Hz & Hzl & Ez & _).
      assert (y = z) as -> by (apply (same_block s bs F Hg Hh); [by apply in_others'; right|done|congruence]). congruence.
Qed.

(** Putting a block in front of its list. *)
Lemma heap_push : heap_ok s (l1 ++ x :: l2) F -> blisted x = false ->
  let h := matrix_at (idx s) (class_of x).1 (class_of x).2 in
  let s' := set_idx (push_idx (idx s) (class_of x) (baddr x)) (set_mem (push (mem s) (baddr x) h) s) in
  link_ok s (baddr x) h /\
  heap_ok s' (l1 ++ set_blisted true x :: l2) (<[class_of x := baddr x :: F (class_of x)]> F) /\ same_but_heap s s' /\
  forall y, y ∈ l1 ++ set_blisted true x :: l2 -> blisted y = false -> kept y (mem s) (mem s').
Proof.
  intros Hh Hl h s'. set (c := class_of x) in *. set (bs := l1 ++ x :: l2) in *.
  pose proof (proj1 (x_in true)) as Hx. fold bs in Hx.
  destruct (block_facts s bs F Hg Hh x Hx) as (Hxok & Hxn & Hxh & Hxs & Hxe).
  pose proof (list_nodes s bs F Hg Hh) as Hn. assert (h = hdd (F c) 0) as Eh by apply (ix_matrix _ _ (hp_index _ _ _ Hh)).
  assert (forall d, baddr x ∉ F d) as Hnin.
  { intros d Hin. destruct (listed_block s bs F Hh d _ Hin) as (y & Hy & Hyl & Ey & _).
    assert (y = x) as -> by (by apply (same_block s bs F Hg Hh)). congruence. }
  assert (h = 0 \/ h ∈ F c) as Hhin by (rewrite Eh; destruct (hdd_in (F c)) as [->|]; auto).
  assert (link_ok s (baddr x) h) as Hlink.
  { destruct Hhin as [?|Hhin]; [by left|]. apply (member_link s bs F Hg Hh c); [done|]. intros E. apply (Hnin c). congruence. }
  assert (forall a, a <> baddr x + OFF_prev_free -> a <> baddr x + OFF_next_free -> (h ∈ F c -> a <> h + OFF_prev_free) ->
    rdm (mem s') a = rdm (mem s) a) as Hsame.
  { intros a H1 H2 H3. apply push_other; try done. intros Hne. apply H3. tauto. }
  assert (forall y o, y ∈ l1 ++ l2 -> 0 <= o < bsize y -> baddr y <> h -> rdm (mem s') (baddr y + o) = rdm (mem s) (baddr y + o)) as Hblk.
  { intros y o Hy Ho Hne. assert (y ∈ bs) as Hyb by (by apply in_others'; right).
    assert (baddr y <> baddr x) as Hyx by (by apply (others_ne _ _ _ _ _ (hp_tiled _ _ _ Hh) (start_aligned s Hg) eq_refl)).
    destruct (tiled_disjoint _ _ _ _ _ y x (hp_tiled _ _ _ Hh) (start_aligned s Hg) Hyb Hx Hyx); destruct Hxok as [Hxok _];
      (apply Hsame; [unfold OFF_prev_free; lia|unfold OFF_next_free; lia|]; intros Hin; by apply (link_store_kept s bs F Hg Hh c _ OFF_prev_free); auto). }
  split; [done|]. split; [split|split].
  - apply mem_ok_push; [apply Hh|destruct Hxn; lia|by eapply link_range].
  - apply tiled_listed. eapply tiled_ext; [|exact (hp_tiled _ _ _ Hh)]. intros y o Hy Ho.
    destruct (block_facts s bs F Hg Hh y Hy) as (_ & Ny & _). apply Hsame.
    + apply header_word_ne; try apply Ny; try apply Hxn; unfold hdr_off, OFF_prev_free, OFF_size_flags, OFF_sig_dc, OFF_prev_size in *; lia.
    + apply header_word_ne; try apply Ny; try apply Hxn; unfold hdr_off, OFF_next_free, OFF_size_flags, OFF_sig_dc, OFF_prev_size in *; lia.
    + intros Hin. by apply (link_store_hdr s bs F Hg Hh c _ OFF_prev_free); auto.
  - apply index_push; [apply Hh|by eapply class_range].
  - intros d. destruct (decide (c = d)) as [<-|Hne].
    + rewrite fn_lookup_insert. change (mem s') with (push (mem s) (baddr x) h). rewrite Eh. apply dseg_push; [done|done|done|apply Hh|apply Hh].
    + rewrite fn_lookup_insert_ne by done. eapply dseg_ext; [|apply (hp_linked _ _ _ Hh d)]. intros b Hb.
      destruct (listed_block s bs F Hh d b Hb) as (y & Hy & Hyl & <- & Hyc).
      destruct (block_facts s bs F Hg Hh y Hy) as ([? _] & _). apply in_others' in Hy as [->|Hy]; [by rewrite Hl in Hyl|].
      assert (baddr y <> h).
      { intros E. destruct Hhin as [E0|Hin]; [apply (node_nonnull (baddr y)); [apply (block_node s bs F Hg Hh); by apply in_others'; right|congruence]|].
        destruct (listed_block s bs F Hh c h Hin) as (z & Hz & _ & Ez & Ec). apply Hne. rewrite <- Ec, <- Hyc. f_equal.
        apply (same_block s bs F Hg Hh); [done|by apply in_others'; right|congruence]. }
      by rewrite !Hblk by (done || (unfold OFF_prev_free, OFF_next_free; lia)).
  - intros d. destruct (decide (c = d)) as [<-|Hne]; [rewrite fn_lookup_insert|rewrite fn_lookup_insert_ne by done; apply Hh].
    apply NoDup_cons. split; [done|apply Hh].
  - intros d a. destruct (decide (c = d)) as [<-|Hne].
    + rewrite fn_lookup_insert, elem_of_cons. split.
      * intros [->|Ha]; [exists (set_blisted true x); split_and!; try done; by apply in_others; left|].
        destruct (listed_block s bs F Hh c a Ha) as (y & Hy & Hyl & <- & Hyc). exists y. split_and!; try done.
        apply in_others. apply in_others' in Hy as [->|Hy]; [by rewrite Hl in Hyl|by right].
      * intros (y & Hy & Hyl & <- & Hyc). apply in_others in Hy as [->|Hy]; [by left|right].
        apply (hp_listed _ _ _ Hh); exists y; split_and!; try done; by apply in_others'; right.
    + rewrite fn_lookup_insert_ne, (hp_listed _ _ _ Hh) by done. split; intros (y & Hy & Hyl & Hya & Hyc); exists y; split_and!; try done.
      * apply in_others. apply in_others' in Hy as [->|Hy]; [by rewrite Hl in Hyl|by right].
      * apply in_others'. apply in_others in Hy as [->|Hy]; [done|by right].
  - split_and!; try done. intros a Ha. apply Hsame; [unfold OFF_prev_free; lia|unfold OFF_next_free; lia|].
    intros Hin. by eapply (link_store_outside s bs F Hg Hh c); eauto.
  - intros y Hy Hyl o Ho _. apply in_others in Hy as [->|Hy]; [done|]. apply Hblk; [done|lia|].
    intros E. destruct Hhin as [E0|Hin].
    + apply (node_nonnull (baddr y)); [apply (block_node s bs F Hg Hh); by apply in_others'; right|congruence].
    + destruct (listed_block s bs F Hh c h Hin) as (z & Hz & Hzl & Ez & _).
      assert (y = z) as -> by (apply (same_block s bs F Hg Hh); [by apply in_others'; right|done|congruence]). congruence.
Qed.
End relink.

(** ** Rewriting a stretch of blocks *)

Definition listed_of (bs : list blk) : list (Z * Z) := (fun x => (baddr x, bsize x)) <$> filter (fun x => blisted x = true) bs.
Lemma listed_of_app l1 l2 : listed_of (l1 ++ l2) = listed_of l1 ++ listed_of l2.
Proof. unfold listed_of. by rewrite filter_app, fmap_app. Qed.
Lemma listed_of_in bs a n : (a, n) ∈ listed_of bs <-> exists x, x ∈ bs /\ blisted x = true /\ baddr x = a /\ bsize x = n.
Proof.
  unfold listed_of. rewrite list_elem_of_fmap. split.
  - intros (x & [= -> ->] & Hx). apply list_elem_of_filter in Hx as [? ?]. by exists x.
  - intros (x & ? & ? & <- & <-). exists x. split; [done|]. by apply list_elem_of_filter.
Qed.
Lemma listed_of_set_unlisted x l : blisted x = false -> listed_of (x :: l) = listed_of l.
Proof. intros E. unfold listed_of. rewrite filter_cons, decide_False by congruence. done. Qed.

(** Only the words of the stretch [mid] may change, links of listed blocks excepted. *)
Lemma heap_region s m' l1 mid mid' l2 F : pool_geo (geo s) -> heap_ok s (l1 ++ mid ++ l2) F -> mem_ok m' ->
  let a := heap_start (geo s) + tsize l1 in
  tiled m' (lastp None l1) a mid' (a + tsize mid) ->
  (l2 = [] \/ forall p, lastp p mid' = lastp p mid \/ (lastp p mid' = Some None /\ lastp p mid <> None)) ->
  (forall q, q < a \/ a + tsize mid <= q -> rdm m' q = rdm (mem s) q) ->
  listed_of mid' = listed_of mid ->
  (forall y o, y ∈ mid -> blisted y = true -> o = OFF_prev_free \/ o = OFF_next_free -> rdm m' (baddr y + o) = rdm (mem s) (baddr y + o)) ->
  heap_ok (set_mem m' s) (l1 ++ mid' ++ l2) F /\ same_but_heap s (set_mem m' s) /\
  forall y, y ∈ l1 ++ l2 -> kept y (mem s) m'.
Proof.
  intros Hg Hh Hm a Ht Hp Hq Hl Hk. set (bs := l1 ++ mid ++ l2) in *.
  pose proof (start_aligned s Hg) as Ha. pose proof (hp_tiled _ _ _ Hh) as Ht0. pose proof Ht0 as Ht1.
  apply tiled_app in Ht1 as [T1 T2]. apply tiled_app in T2 as [T2 T3]. fold a in T1, T2, T3.
  assert (forall y, y ∈ l1 ++ l2 -> baddr y + bsize y <= a \/ a + tsize mid <= baddr y) as Hpos.
  { intros y Hy. apply elem_of_app in Hy as [Hy|Hy].
    - left. by destruct (tiled_in _ _ _ _ _ y T1 Hy Ha) as (_ & _ & ? & _).
    - right. destruct l2 as [|z l2]; [by apply not_elem_of_nil in Hy|]. unfold bs in Ht0. rewrite app_assoc in Ht0.
      destruct (tiled_split _ _ _ _ _ _ _ Ht0 Ha) as (Ez & _ & Hz). rewrite tsize_app in Ez.
      apply elem_of_cons in Hy as [->|Hy]; [lia|]. specialize (Hz y Hy).
      assert (z ∈ bs) as Hzb by (unfold bs; rewrite !elem_of_app, elem_of_cons; tauto).
      destruct (tiled_in _ _ _ _ _ z (hp_tiled _ _ _ Hh) Hzb Ha) as (_ & ? & _). lia. }
  assert (forall y o, y ∈ l1 ++ l2 -> 0 <= o < bsize y -> rdm m' (baddr y + o) = rdm (mem s) (baddr y + o)) as Hsame.
  { intros y o Hy Ho. apply Hq. destruct (Hpos y Hy); lia. }
  assert (forall y, y ∈ l1 ++ l2 -> 128 <= bsize y) as Hbig.
  { intros y Hy. assert (y ∈ bs) as Hyb by (unfold bs; rewrite !elem_of_app in *; tauto).
    by destruct (tiled_in _ _ _ _ _ y (hp_tiled _ _ _ Hh) Hyb Ha) as (_ & ? & _). }
  assert (forall y o, y ∈ l1 ++ l2 -> hdr_off o -> rdm m' (baddr y + o) = rdm (mem s) (baddr y + o)) as Hhdr.
  { intros y o Hy Ho. apply Hsame; [done|]. specialize (Hbig y Hy). unfold hdr_off, OFF_size_flags, OFF_sig_dc, OFF_prev_size in Ho. lia. }
  assert (forall c d, d ∈ F c -> forall o, o = OFF_prev_free \/ o = OFF_next_free -> rdm m' (d + o) = rdm (mem s) (d + o)) as Hlinks.
  { intros c d Hd o Ho. destruct (listed_block s bs F Hh c d Hd) as (y & Hy & Hyl & <- & _).
    unfold bs in Hy. rewrite !elem_of_app in Hy.
    assert (y ∈ mid \/ y ∈ l1 ++ l2) as [Hm'|Hy'] by (rewrite elem_of_app; tauto); [by apply Hk|]. apply Hsame; [done|]. specialize (Hbig y Hy'). unfold OFF_prev_free, OFF_next_free in Ho. lia. }
  split; [split|split].
  - done.
  - cbn [mem set_mem geo]. apply tiled_app. fold a. split.
    { eapply tiled_ext; [|exact T1]. intros y o Hy. apply Hhdr, elem_of_app. by left. }
    apply tiled_app. pose proof (tiled_end _ _ _ _ _ Ht) as Ee. replace (a + tsize mid') with (a + tsize mid) by lia.
    split; [done|]. destruct Hp as [->|Hp]; [done|]. eapply (tiled_ext (mem s)); [intros y o Hy; apply Hhdr, elem_of_app; by right|].
    destruct (Hp (lastp None l1)) as [->|[-> Hne]]; [done|by eapply tiled_stale].
  - apply Hh.
  - intros c. eapply dseg_ext; [|apply (hp_linked _ _ _ Hh c)]. intros d Hd. split; by eapply Hlinks; auto.
  - apply Hh.
  - intros c d. rewrite (hp_listed _ _ _ Hh). fold bs.
    assert (forall b n, (b, n) ∈ listed_of bs <-> (b, n) ∈ listed_of (l1 ++ mid' ++ l2)) as He.
    { intros b n. unfold bs. by rewrite !listed_of_app, Hl. }
    split; intros (y & Hy & Hyl & <- & <-).
    + assert ((baddr y, bsize y) ∈ listed_of bs) as Hin by (apply listed_of_in; by exists y).
      apply He, listed_of_in in Hin as (z & ? & ? & ? & Ez). exists z. unfold class_of. rewrite Ez. done.
    + assert ((baddr y, bsize y) ∈ listed_of (l1 ++ mid' ++ l2)) as Hin by (apply listed_of_in; by exists y).
      apply He, listed_of_in in Hin as (z & ? & ? & ? & Ez). exists z. unfold class_of. rewrite Ez. done.
  - split_and!; try done. intros q Hlt. apply Hq. left. pose proof (tsize_nonneg _ _ _ _ _ T1). lia.
  - intros y Hy o Ho _. apply Hsame; [done|lia].
Qed.
