(* ===== verification/TlsfBlocks.v ===== *)
(** The block operations of the allocator ([tlsf_txn.c]) on the tiling of the heap:
    reading headers, taking a block out of its list and putting it back, splitting,
    changing flags, merging. *)
From stdpp Require Import functions.
From S2P Require Import Prelude Machine TlsfTypes TlsfBul TlsfHeap TlsfAlloc TlsfFacts TlsfHoare TlsfTxn TlsfOwners TlsfOwnership TlsfLists TlsfTiling.

(** A step that keeps the blocks in [P] and everything outside the heap. *)
Definition moves (P : blk -> Prop) (s s' : tlsf) : Prop :=
  same_but_heap s s' /\ txn s' = txn s /\ forall y, P y -> kept y (mem s) (mem s').
Lemma moves_trans P s1 s2 s3 : moves P s1 s2 -> moves P s2 s3 -> moves P s1 s3.
Proof.
  intros (A1 & T1 & K1) (A2 & T2 & K2). split; [by eapply same_but_heap_trans|]. split; [congruence|].
  intros y Hy. eapply kept_trans; [by apply K1|by apply K2].
Qed.
Lemma moves_weaken (P P' : blk -> Prop) s s' : (forall y, P' y -> P y) -> moves P s s' -> moves P' s s'.
Proof. intros H (A & T & K). split_and!; auto. Qed.
Lemma moves_alive P s s' : moves P s s' -> alive s -> alive s'.
Proof. intros ((_ & _ & E & _) & _) H. unfold alive in *. by rewrite E. Qed.
Lemma moves_geo P s s' : moves P s s' -> geo s' = geo s.
Proof. by intros ((E & _) & _). Qed.
(** The first two words of a header change only where a block of [bs] starts: headers
    left behind inside merged blocks stay readable. *)
Definition heads_kept (bs : list blk) (s s' : tlsf) : Prop :=
  forall a o, a mod 64 = 0 -> o = OFF_size_flags \/ o = OFF_sig_dc -> a ∉ baddr <$> bs -> rdm (mem s') (a + o) = rdm (mem s) (a + o).
(** The same, for headers in the heap. *)
Definition heads_stay (bs : list blk) (s s' : tlsf) : Prop :=
  forall a o, heap_start (geo s) <= a -> a mod 64 = 0 -> o = OFF_size_flags \/ o = OFF_sig_dc -> a ∉ baddr <$> bs ->
    rdm (mem s') (a + o) = rdm (mem s) (a + o).
Lemma heads_refl bs s s' : mem s' = mem s -> heads_kept bs s s'.
Proof. by intros E a o _ _ _; rewrite E. Qed.
Lemma heads_trans bs s1 s2 s3 : heads_kept bs s1 s2 -> heads_kept bs s2 s3 -> heads_kept bs s1 s3.
Proof. intros H1 H2 a o Ha Ho Hn. by rewrite H2, H1. Qed.
Lemma heads_weaken bs bs' s s' : (forall a, a ∈ baddr <$> bs -> a ∈ baddr <$> bs') -> heads_kept bs s s' -> heads_kept bs' s s'.
Proof. intros H H1 a o Ha Ho Hn. apply H1; auto. Qed.
(** A store to another word of a header, or to the header of a block of [bs]. *)
Lemma heads_store bs s s' b p v : mem s' = <[b + p := v]> (mem s) -> b mod 64 = 0 -> 0 <= p < 64 -> b ∈ baddr <$> bs \/ OFF_sig_dc < p ->
  heads_kept bs s s'.
Proof.
  intros E Hb Hp HW a o Ha Ho Hn. rewrite E. apply rdm_insert_ne. unfold OFF_size_flags, OFF_sig_dc in *. apply not_eq_sym, header_word_ne; try done; [lia|].
  destruct HW as [HW|HW]; [left; by intros ->|right; lia].
Qed.
(** The blocks of [bs] that are in use. *)
Definition in_use (bs : list blk) (y : blk) : Prop := y ∈ bs /\ blisted y = false.

(** The block after a free one knows it, and its size. *)
Definition flag_next (v : bool) (bs : list blk) : list blk :=
  match bs with [] => [] | y :: bs => set_bprev v y :: bs end.

(** Reads through the stores of an operation, by arithmetic on the addresses. *)
Ltac rd_simpl := repeat first [rewrite rdm_insert_ne by lia | rewrite rdm_insert_eq].
Ltac offs := unfold OFF_size_flags, OFF_sig_dc, OFF_prev_free, OFF_next_free, OFF_uid, OFF_prev_size in *.

Section reads.
Context (C : tlsf -> Prop) (s : tlsf) (bs : list blk) (F : lists_by_class) (x : blk).
Context (Hg : pool_geo (geo s)) (Hh : heap_ok s bs F) (Hx : x ∈ bs).

Lemma wp_read_flags (Q : Z -> tlsf -> Prop) : Q (blk_word x) s -> wp (load (fld (baddr x) OFF_size_flags)) C Q s.
Proof.
  intros HQ. destruct (block_facts s bs F Hg Hh x Hx) as (_ & _ & Hhdr & _). destruct (block_reads s bs F Hh x Hx) as [E _].
  apply wp_load_fld; [apply Hg|done|done|done|]. by rewrite E.
Qed.
Lemma wp_bsize (Q : Z -> tlsf -> Prop) : Q (bsize x) s -> wp (block_size (baddr x)) C Q s.
Proof.
  intros HQ. destruct (block_facts s bs F Hg Hh x Hx) as (Hok & _). apply wp_bind, wp_read_flags, wp_ret. by rewrite blk_word_size.
Qed.
Lemma wp_bfree (Q : bool -> tlsf -> Prop) : Q (bfree x) s -> wp (block_is_free (baddr x)) C Q s.
Proof.
  intros HQ. destruct (block_facts s bs F Hg Hh x Hx) as (Hok & _). apply wp_bind, wp_read_flags, wp_ret. by rewrite blk_word_free.
Qed.
Lemma wp_bprev (Q : bool -> tlsf -> Prop) : Q (bprev x) s -> wp (block_prev_free (baddr x)) C Q s.
Proof.
  intros HQ. destruct (block_facts s bs F Hg Hh x Hx) as (Hok & _). apply wp_bind, wp_read_flags, wp_ret. by rewrite blk_word_prev.
Qed.
Lemma wp_signed (Q : bool -> tlsf -> Prop) : Q true s -> wp (check_signature (baddr x)) C Q s.
Proof.
  intros HQ. destruct (block_facts s bs F Hg Hh x Hx) as (_ & _ & Hhdr & _). destruct (block_reads s bs F Hh x Hx) as [_ E].
  apply wp_bind, wp_load_fld; [apply Hg|done|done|done|]. apply wp_ret. by rewrite E.
Qed.
Lemma block_end_range : 0 <= baddr x + bsize x < 2 ^ 64.
Proof.
  destruct (block_facts s bs F Hg Hh x Hx) as ([Hs _] & [_ Hn] & _ & _ & He). destruct Hg as [(_ & G1 & G2 & G3 & G4 & G5 & G6 & G7) _].
  unfold pool_end in He. lia.
Qed.
Lemma wp_bnext (Q : Z -> tlsf -> Prop) : Q (baddr x + bsize x) s -> wp (block_next (baddr x)) C Q s.
Proof. intros HQ. apply wp_bind, wp_bsize, wp_ret. rewrite u64_small; [done|apply block_end_range]. Qed.
Lemma wp_bpayload (Q : Z -> tlsf -> Prop) : Q (bsize x - HEADER_SIZE) s -> wp (block_payload_size (baddr x)) C Q s.
Proof.
  intros HQ. destruct (block_facts s bs F Hg Hh x Hx) as ([Hs _] & _). apply wp_bind, wp_bsize, wp_ret. rewrite u64_small; [done|unfold HEADER_SIZE; lia].
Qed.
End reads.

(** ** Lists *)

Lemma in_split (l1 l2 : list blk) x : x ∈ l1 ++ x :: l2.
Proof. apply elem_of_app; right; apply list_elem_of_here. Qed.
Lemma in_mid (l1 l2 : list blk) x y : y ∈ l1 ++ x :: l2 <-> y = x \/ y ∈ l1 ++ l2.
Proof. rewrite !elem_of_app, elem_of_cons. tauto. Qed.

Lemma rest_apart s l1 x l2 F y : pool_geo (geo s) -> heap_ok s (l1 ++ x :: l2) F -> y ∈ l1 ++ l2 -> baddr y <> baddr x.
Proof.
  intros Hg Hh Hy E. destruct (tiled_split _ _ _ _ _ _ _ (hp_tiled _ _ _ Hh) (start_aligned s Hg)) as (_ & T1 & T2).
  destruct (block_facts s _ F Hg Hh y (proj2 (in_mid l1 l2 x y) (or_intror Hy))) as ([? _] & _).
  destruct (block_facts s _ F Hg Hh x (in_split l1 l2 x)) as ([? _] & _).
  apply elem_of_app in Hy as [Hy|Hy]; [apply T1 in Hy|apply T2 in Hy]; lia.
Qed.

Lemma wp_take C (Q : unit -> tlsf -> Prop) s l1 x l2 F : pool_geo (geo s) -> alive s -> heap_ok s (l1 ++ x :: l2) F -> blisted x = true ->
  (forall s' F', heap_ok s' (l1 ++ set_blisted false x :: l2) F' ->
     moves (in_use (l1 ++ set_blisted false x :: l2)) s s' -> heads_kept [] s s' -> Q tt s') ->
  wp (remove_from_free_list (baddr x) (class_of x).1 (class_of x).2) C Q s.
Proof.
  intros Hg Ha Hh Hl HQ. set (bs := l1 ++ x :: l2) in *. pose proof (in_split l1 l2 x) as Hx. fold bs in Hx.
  assert (baddr x ∈ F (class_of x)) as Hin by (apply (hp_listed _ _ _ Hh); by exists x).
  apply list_elem_of_split in Hin as (L1 & L2 & EF).
  pose proof (hp_nodup _ _ _ Hh (class_of x)) as Hnd. rewrite EF in Hnd.
  pose proof (hp_linked _ _ _ Hh (class_of x)) as Hd. rewrite EF in Hd. apply dseg_app in Hd as [_ (Ep & En & _)].
  destruct (block_facts s bs F Hg Hh x Hx) as (_ & Hn & Hhdr & _).
  assert (forall a, a ∈ L1 \/ a ∈ L2 -> link_ok s (baddr x) a) as Hlink.
  { intros a Hain. apply (member_link s bs F Hg Hh (class_of x)).
    - rewrite EF, elem_of_app, elem_of_cons. tauto.
    - intros ->. apply NoDup_app in Hnd as (_ & N1 & N2). apply NoDup_cons in N2 as [N2 _].
      destruct Hain as [Hain|Hain]; [apply (N1 _ Hain); apply list_elem_of_here|done]. }
  apply wp_remove_from_free_list; [apply Hg|done|done|done|..].
  - rewrite Ep. destruct L1 as [|q L1]; [by left|]. apply Hlink. left. by apply lastd_in.
  - rewrite En. destruct L2 as [|q L2]; [by left|]. apply Hlink. right. apply list_elem_of_here.
  - rewrite Ep, En. destruct (heap_unlink s l1 l2 x F Hg L1 L2 Hh Hl EF) as (H1 & H2 & H3). eapply HQ; [exact H1|..].
    { split; [exact H2|]. split; [done|]. intros y [Hy Hyl]. by apply H3. }
    assert (forall a, a = NULL \/ a ∈ L1 \/ a ∈ L2 -> a <> NULL -> a mod 64 = 0) as Hal.
    { intros a [?|Hain] Hnz; [done|]. destruct (Hlink a Hain) as [?|([? _] & _)]; done. }
    intros a o Ham Ho _. cbn [mem set_idx set_mem]. unfold OFF_size_flags, OFF_sig_dc in Ho.
    apply unlink_other; intros Hnz; apply header_word_ne; try done; try (unfold OFF_next_free, OFF_prev_free; lia); apply Hal; try done.
    + destruct L1 as [|q L1]; [by left|]. right; left. by apply lastd_in.
    + destruct L2 as [|q L2]; [by left|]. right; right. apply list_elem_of_here.
Qed.

Lemma wp_list C (Q : unit -> tlsf -> Prop) s l1 x l2 F : pool_geo (geo s) -> alive s -> heap_ok s (l1 ++ x :: l2) F -> blisted x = false ->
  (forall s' F', heap_ok s' (l1 ++ set_blisted true x :: l2) F' -> moves (in_use (l1 ++ l2)) s s' -> heads_kept [] s s' -> Q tt s') ->
  wp (insert_into_free_list (baddr x) (class_of x).1 (class_of x).2) C Q s.
Proof.
  intros Hg Ha Hh Hl HQ. destruct (heap_push s l1 l2 x F Hg Hh Hl) as (H0 & H1 & H2 & H3).
  destruct (block_facts s _ F Hg Hh x (in_split l1 l2 x)) as (_ & Hn & Hhdr & _).
  apply wp_insert_into_free_list; [apply Hg|done|done|done|done|]. eapply HQ; [exact H1|..].
  { split; [exact H2|]. split; [done|]. intros y [Hy Hyl]. apply H3; [|done]. rewrite elem_of_app, elem_of_cons in *. tauto. }
  intros a o Ham Ho _. cbn [mem set_idx set_mem]. unfold OFF_size_flags, OFF_sig_dc in Ho. pose proof Hn as [? _].
  apply push_other; [apply header_word_ne; try done; unfold OFF_prev_free; lia|apply header_word_ne; try done; unfold OFF_next_free; lia|].
  intros Hnz. destruct H0 as [?|([? _] & _)]; [done|]. apply header_word_ne; try done; unfold OFF_prev_free; lia.
Qed.

(** ** Splitting *)

(** Stores to the header of a block at [b], aligned and inside the pool. *)
Definition spot (s : tlsf) (b : Z) : Prop := header_in s b /\ node b.
Lemma wp_put C (Q : unit -> tlsf -> Prop) s b off v : pool_geo (geo s) -> alive s -> spot s b -> 0 <= off < 64 -> off mod 8 = 0 ->
  0 <= v < 2 ^ 64 -> Q tt (set_mem (<[b + off := v]> (mem s)) s) -> wp (store (fld b off) v) C Q s.
Proof. intros Hg Ha [Hh _] Ho Hm Hv HQ. apply wp_store_fld; try done. apply Hg. Qed.
Lemma wp_get C (Q : Z -> tlsf -> Prop) s b off : pool_geo (geo s) -> spot s b -> 0 <= off < 64 -> off mod 8 = 0 ->
  Q (rdm (mem s) (b + off)) s -> wp (load (fld b off)) C Q s.
Proof. intros Hg [Hh _] Ho Hm HQ. apply wp_load_fld; try done. apply Hg. Qed.

(** The memory after the header of the remainder is written and the block is resized. *)
Definition cut_mem (m : gmap Z Z) (x : blk) (size : Z) : gmap Z Z :=
  let r := baddr x + size in
  let m := <[r + OFF_size_flags := bsize x - size + 1]> m in
  let m := <[r + OFF_sig_dc := make_sig_dc false 0]> m in
  let m := <[r + OFF_prev_free := 0]> m in
  let m := <[r + OFF_next_free := 0]> m in
  let m := <[r + OFF_uid := 0]> m in
  let m := <[r + (OFF_uid + 8) := 0]> m in
  let m := <[r + (OFF_uid + 16) := 0]> m in
  let m := <[r + OFF_prev_size := 0]> m in
  <[baddr x + OFF_size_flags := blk_word (set_bsize size x)]> m.
(** [or_flags next BLOCK_PREV_FREE; set_prev_size next sz] on the block after. *)
Definition tell_next (m : gmap Z Z) (y : blk) (sz : Z) : gmap Z Z :=
  <[baddr y + OFF_prev_size := sz]> (<[baddr y + OFF_size_flags := blk_word (set_bprev true y)]> m).
Definition tell (m : gmap Z Z) (l : list blk) (sz : Z) : gmap Z Z :=
  match l with [] => m | y :: _ => tell_next m y sz end.

Lemma blk_word_set_prev y : blk_ok y -> Z.lor (blk_word y) BLOCK_PREV_FREE = blk_word (set_bprev true y).
Proof. intros Hy. rewrite (blk_word_or y Hy) by done. unfold blk_word. cbn. by destruct (bfree y), (bprev y). Qed.
Lemma blk_word_unset_prev y : blk_ok y -> Z.land (blk_word y) (not64 BLOCK_PREV_FREE) = blk_word (set_bprev false y).
Proof. intros Hy. rewrite (blk_word_clear y Hy) by done. unfold blk_word. cbn. by destruct (bfree y), (bprev y). Qed.
Lemma blk_word_set_free y : blk_ok y -> Z.lor (blk_word y) BLOCK_FREE = blk_word (set_bfree true y).
Proof. intros Hy. rewrite (blk_word_or y Hy) by done. unfold blk_word. cbn. by destruct (bfree y), (bprev y). Qed.
Lemma blk_word_unset_free y : blk_ok y -> Z.land (blk_word y) (not64 BLOCK_FREE) = blk_word (set_bfree false y).
Proof. intros Hy. rewrite (blk_word_clear y Hy) by done. unfold blk_word. cbn. by destruct (bfree y), (bprev y). Qed.
Lemma blk_word_resize y size : blk_ok y -> size mod 64 = 0 -> 0 <= size < 2 ^ 64 ->
  Z.lor (Z.land (blk_word y) FLAG_MASK) size = blk_word (set_bsize size y).
Proof.
  intros Hy Hm Hs. destruct (blk_word_split y Hy) as (k & Ek & Hk). rewrite FLAG_MASK_land. unfold blk_word. cbn. rewrite Ek.
  pose proof (flag_bits y) as Hf. set (f := Z.b2z (bfree y) + 2 * Z.b2z (bprev y)) in *.
  replace (4 * k + f) with (f + k * 4) by lia. rewrite Z.mod_add, Z.mod_small by lia. rewrite Z.lor_comm.
  replace size with (size / 64 * 16 * 2 ^ 2) by (change (2 ^ 2) with 4; pose proof (Z.div_mod size 64); lia).
  by apply lor_add_low.
Qed.

Lemma spot_of s bs F x : pool_geo (geo s) -> heap_ok s bs F -> x ∈ bs -> spot s (baddr x).
Proof. intros Hg Hh Hx. destruct (block_facts s bs F Hg Hh x Hx) as (_ & ? & ? & _). done. Qed.
(** A boundary inside a block, 64 bytes from its ends at least. *)
Lemma spot_inside s bs F x d : pool_geo (geo s) -> heap_ok s bs F -> x ∈ bs -> 0 <= d -> d mod 64 = 0 -> d + 64 <= bsize x -> spot s (baddr x + d).
Proof.
  intros Hg Hh Hx Hd Hm He. destruct (block_facts s bs F Hg Hh x Hx) as (_ & [N1 N2] & _ & Hs & Hen). pose proof (block_end_range s bs F x Hg Hh Hx).
  pose proof (Z.div_mod (baddr x) 64). pose proof (Z.div_mod d 64). unfold spot, header_in, node, HEADER_SIZE.
  replace (baddr x + d) with ((baddr x / 64 + d / 64) * 64) in * by lia. 
  assert (((baddr x / 64 + d / 64) * 64) mod 8 = 0).
  { replace ((baddr x / 64 + d / 64) * 64) with ((baddr x / 64 + d / 64) * 8 * 8) by lia. by apply Z.mod_mul. }
  split_and!; try lia. by apply Z.mod_mul.
Qed.

Lemma wp_block_set_size C (Q : unit -> tlsf -> Prop) s x size : pool_geo (geo s) -> alive s -> spot s (baddr x) -> blk_ok x ->
  size mod 64 = 0 -> 0 <= size < 2 ^ 41 -> rdm (mem s) (baddr x + OFF_size_flags) = blk_word x ->
  Q tt (set_mem (<[baddr x + OFF_size_flags := blk_word (set_bsize size x)]> (mem s)) s) -> wp (block_set_size (baddr x) size) C Q s.
Proof.
  intros Hg Ha Hsp Hok Hm Hs E HQ. apply wp_bind, wp_get; try done. rewrite E.
  pose proof (blk_word_resize x size Hok Hm ltac:(lia)) as Ew. rewrite Ew. apply wp_put; try done.
  pose proof (flag_bits x). unfold blk_word. cbn. lia.
Qed.
Lemma wp_or_flags C (Q : unit -> tlsf -> Prop) s b g w : pool_geo (geo s) -> alive s -> spot s b ->
  Z.lor (rdm (mem s) (b + OFF_size_flags)) g = w -> 0 <= w < 2 ^ 64 ->
  Q tt (set_mem (<[b + OFF_size_flags := w]> (mem s)) s) -> wp (or_flags b g) C Q s.
Proof. intros Hg Ha Hsp E Hw HQ. apply wp_bind, wp_get; try done. rewrite E. by apply wp_put. Qed.
Lemma wp_clear_flags C (Q : unit -> tlsf -> Prop) s b g w : pool_geo (geo s) -> alive s -> spot s b ->
  Z.land (rdm (mem s) (b + OFF_size_flags)) (not64 g) = w -> 0 <= w < 2 ^ 64 ->
  Q tt (set_mem (<[b + OFF_size_flags := w]> (mem s)) s) -> wp (clear_flags b g) C Q s.
Proof. intros Hg Ha Hsp E Hw HQ. apply wp_bind, wp_get; try done. rewrite E. by apply wp_put. Qed.
Lemma wp_size_of C (Q : Z -> tlsf -> Prop) s x : pool_geo (geo s) -> spot s (baddr x) -> blk_ok x ->
  rdm (mem s) (baddr x + OFF_size_flags) = blk_word x -> Q (bsize x) s -> wp (block_size (baddr x)) C Q s.
Proof. intros Hg Hsp Hok E HQ. apply wp_bind, wp_get; try done. rewrite E. apply wp_ret. by rewrite blk_word_size. Qed.

(** The block [z] and the blocks [l] after it, at the end of the heap in state [s]. *)
Definition followed (s : tlsf) (z : blk) (l : list blk) : Prop :=
  match l with
  | [] => baddr z + bsize z = pool_end s
  | y :: _ => baddr y = baddr z + bsize z /\ baddr y < pool_end s /\ spot s (baddr y) /\ blk_ok y
  end.
Lemma followed_of s l1 x l2 F : pool_geo (geo s) -> heap_ok s (l1 ++ x :: l2) F -> followed s x l2.
Proof.
  intros Hg Hh. pose proof (hp_tiled _ _ _ Hh) as Ht. apply tiled_app in Ht as [_ Ht]. destruct Ht as (Ex & Hs & _ & _ & _ & _ & Ht).
  destruct l2 as [|y l2]; simpl in *.
  - rewrite <- Ex in Ht. destruct Hg as (_ & Ee & _). unfold pool_end. lia.
  - destruct Ht as (Ey & _). assert (y ∈ l1 ++ x :: y :: l2) as Hy by (rewrite elem_of_app, !elem_of_cons; tauto).
    destruct (block_facts s _ F Hg Hh y Hy) as (Hok & Hn & Hhd & _ & He). split_and!; try done; [lia|]. destruct Hok. lia.
Qed.

Lemma wp_tell C (Q : unit -> tlsf -> Prop) s z l : pool_geo (geo s) -> alive s -> spot s (baddr z) -> blk_ok z ->
  rdm (mem s) (baddr z + OFF_size_flags) = blk_word z -> followed s z l ->
  (forall y l', l = y :: l' -> rdm (mem s) (baddr y + OFF_size_flags) = blk_word y) ->
  Q tt (set_mem (tell (mem s) l (bsize z)) s) ->
  wp (if baddr z + bsize z <? pool_end s then
        or_flags (baddr z + bsize z) BLOCK_PREV_FREE ;;
        rsz ← block_size (baddr z);
        set_prev_size (baddr z + bsize z) rsz
      else mret tt) C Q s.
Proof.
  intros Hg Ha Hsp Hok Ez Hf Hy HQ. pose proof Hok as [Hsz _]. destruct l as [|y l]; simpl in Hf, HQ.
  - rewrite Hf, Z.ltb_irrefl. apply wp_ret. by rewrite set_mem_id in HQ.
  - destruct Hf as (Ey & Hlt & Hspy & Hoky). rewrite <- Ey. rewrite (proj2 (Z.ltb_lt _ _) Hlt).
    apply wp_bind. eapply (wp_or_flags _ _ _ _ _ (blk_word (set_bprev true y))); try done.
    + rewrite (Hy y l eq_refl). by apply blk_word_set_prev.
    + apply blk_word_range. exact Hoky.
    + apply wp_bind. apply (wp_size_of _ _ _ z); try done.
      * cbn [mem set_mem]. rewrite rdm_insert_ne by (offs; lia). done.
      * apply wp_put; try done. lia.
Qed.

Lemma wp_uid_clear C (Q : unit -> tlsf -> Prop) s b : pool_geo (geo s) -> alive s -> spot s b ->
  Q tt (set_mem (<[b + (OFF_uid + 16) := 0]> (<[b + (OFF_uid + 8) := 0]> (<[b + OFF_uid := 0]> (mem s)))) s) -> wp (uid_clear b) C Q s.
Proof.
  intros Hg Ha Hsp HQ. unfold uid_clear, uid_word_addr. apply wp_bind. change (OFF_uid + 0 / 4 * 8) with OFF_uid. apply wp_put; try done.
  apply wp_bind. change (OFF_uid + 4 / 4 * 8) with (OFF_uid + 8). apply wp_put; try done.
  change (OFF_uid + 8 / 4 * 8) with (OFF_uid + 16). by apply wp_put.
Qed.

(** The footer of a block lies at its end. *)
Lemma wp_footer C (Q : unit -> tlsf -> Prop) s z : pool_geo (geo s) -> alive s -> spot s (baddr z) -> blk_ok z ->
  spot s (baddr z + bsize z - 64) -> rdm (mem s) (baddr z + OFF_size_flags) = blk_word z ->
  Q tt (set_mem (<[baddr z + bsize z - 8 := bsize z]> (mem s)) s) -> wp (write_block_footer (baddr z)) C Q s.
Proof.
  intros Hg Ha Hsp Hok Hspe Ez HQ. pose proof Hok as [Hsz _]. apply wp_bind. apply wp_bind.
  apply (wp_size_of _ _ _ z); try done. apply wp_ret. apply wp_bind. apply (wp_size_of _ _ _ z); try done.
  destruct (fld_header s (baddr z + bsize z - 64) 56) as [E Hm]; [apply Hg|apply Hspe|lia|done|].
  replace (u64 (baddr z + bsize z - 8)) with (baddr z + bsize z - 8).
  - replace (baddr z + bsize z - 64 + 56) with (baddr z + bsize z - 8) in Hm by lia. apply wp_store_alive; try done. lia.
  - destruct Hspe as [(_ & _ & He) [_ Hn]], Hsp as [_ [_ Hz]]. rewrite u64_small; [done|].
    destruct Hg as [(_ & ? & _ & _ & _ & _ & _ & ?) _]. unfold pool_end, HEADER_SIZE in *. lia.
Qed.

(** The memory after a split, but for the lists. *)
Definition split_mem (m : gmap Z Z) (x : blk) (size : Z) (l : list blk) : gmap Z Z :=
  <[baddr x + bsize x - 8 := bsize x - size]> (tell (cut_mem m x size) l (bsize x - size)).
Definition remainder_of (x : blk) (size : Z) : blk := Blk (baddr x + size) (bsize x - size) true false false false.

Ltac mem_ok_tac := repeat apply mem_ok_put; try done; try lia.

Lemma mod64_sub a b : a mod 64 = 0 -> b mod 64 = 0 -> (a - b) mod 64 = 0.
Proof. intros Ha Hb. rewrite Zminus_mod, Ha, Hb. done. Qed.
Lemma mod64_add a b : a mod 64 = 0 -> b mod 64 = 0 -> (a + b) mod 64 = 0.
Proof. intros Ha Hb. rewrite Z.add_mod, Ha, Hb by lia. done. Qed.
Lemma sum_assoc a b c d : a + b + (c - b) = d -> a + c = d. Proof. lia. Qed.

Lemma heap_split s l1 x l2 F size : pool_geo (geo s) -> heap_ok s (l1 ++ x :: l2) F -> blisted x = false ->
  128 <= size -> size mod 64 = 0 -> 128 <= bsize x - size ->
  let s' := set_mem (split_mem (mem s) x size l2) s in
  heap_ok s' (l1 ++ set_bsize size x :: remainder_of x size :: flag_next true l2) F /\
  moves (fun y => y = set_bsize size x \/ in_use (l1 ++ l2) y) s s'.
Proof.
  intros Hg Hh Hl Hs Hm Hr s'. pose proof (in_split l1 l2 x) as Hx.
  destruct (block_facts s _ F Hg Hh x Hx) as (Hok & Hn & Hhd & Hst & Hen). pose proof Hok as [Hsz Hmx].
  pose proof (hp_tiled _ _ _ Hh) as Ht. apply tiled_app in Ht as [_ Ht]. set (a := heap_start (geo s) + tsize l1) in *.
  destruct Ht as (Ea & _ & _ & Ew & Esig & Eprev & Ht).
  pose proof (followed_of s l1 x l2 F Hg Hh) as Hf. pose proof (make_sig_dc_range false 0) as Hsr. pose proof (make_sig_ok false 0) as Hso.
  assert (forall v, 0 <= v < 2 -> 0 <= blk_word (set_bsize size x) + 0 < 2 ^ 64) as Hw by (intros; unfold blk_word; cbn; pose proof (flag_bits x); lia).
  specialize (Hw 0 ltac:(lia)).
  assert (kept (set_bsize size x) (mem s) (mem s')) as Hkx.
  { intros o Ho Hne. cbn in *. unfold split_mem, tell, cut_mem, tell_next. cbn [baddr bsize]. offs.
    destruct l2 as [|y l]; cbn in Hf; rd_simpl; done. }
  destruct l2 as [|y l].
  - cbn in Hf. destruct (heap_region s (split_mem (mem s) x size []) l1 [x] [set_bsize size x; remainder_of x size] [] F) as (R1 & R2 & R3); try done.
    + unfold split_mem, tell, cut_mem. mem_ok_tac. apply Hh.
    + fold a. cbn [tiled tsize lastp baddr bsize bprev set_bsize remainder_of]. rewrite Ea.
      unfold split_mem, tell, cut_mem, blk_word. cbn [baddr bsize bfree bprev set_bsize remainder_of]. offs. rewrite Ea.
      split_and!; try done; try (rd_simpl; done || lia); try lia; try (by apply mod64_sub).
    + by left.
    + fold a. cbn [tsize]. intros q Hq. unfold split_mem, tell, cut_mem. offs. rd_simpl. done.
    + by rewrite !listed_of_set_unlisted by done.
    + intros y o Hy Hyl. apply list_elem_of_singleton in Hy as ->. congruence.
    + split; [exact R1|]. split; [done|]. split; [done|]. intros y [->|[Hy _]]; [done|by apply R3].
  - cbn in Hf, Ht. destruct Hf as (Ey & Hlt & Hspy & Hoky). destruct Ht as (_ & _ & _ & Eyw & Eys & _ & Ht). rewrite <- Ea, <- Ey in Eyw, Eys.
    pose proof Hoky as [Hsy Hmy].
    destruct (heap_region s (split_mem (mem s) x size (y :: l)) l1 [x; y] [set_bsize size x; remainder_of x size; set_bprev true y] l F) as (R1 & R2 & R3); try done.
    + unfold split_mem, tell, tell_next, cut_mem. pose proof (blk_word_range (set_bprev true y) Hoky). mem_ok_tac. apply Hh.
    + fold a. cbn [tiled tsize lastp baddr bsize bprev set_bsize remainder_of set_bprev]. rewrite Ea, Ey.
      unfold split_mem, tell, tell_next, cut_mem, blk_word. cbn [baddr bsize bfree bprev set_bsize remainder_of set_bprev]. offs. rewrite Ea, Ey in *.
      replace (a + size + (bsize x - size)) with (a + bsize x) by lia.
      split_and!; try done; try (intros; rd_simpl; done || lia); try lia; try (by apply mod64_sub).
      intros Hb. rd_simpl. by apply Eprev.
    + right. by left.
    + fold a. cbn [tsize]. intros q Hq. unfold split_mem, tell, tell_next, cut_mem. offs. rd_simpl. done.
    + unfold listed_of. rewrite !filter_cons. cbn [blisted set_bsize remainder_of set_bprev]. rewrite Hl. by destruct (blisted y).
    + intros z o Hz Hzl Ho. apply elem_of_cons in Hz as [->|Hz]; [congruence|]. apply list_elem_of_singleton in Hz as ->.
      unfold split_mem, tell, tell_next, cut_mem. offs. destruct Ho as [-> | ->]; rd_simpl; done.
    + split; [exact R1|]. split; [done|]. split; [done|]. intros z [->|[Hz Hzl]]; [done|].
      apply elem_of_app in Hz as [Hz|Hz]; [apply R3, elem_of_app; by left|]. apply elem_of_cons in Hz as [->|Hz]; [|apply R3, elem_of_app; by right].
      intros o Ho Hne. unfold s', split_mem, tell, tell_next, cut_mem. cbn [mem set_mem]. offs. rd_simpl. done.
Qed.

Lemma wp_split_block C (Q : Z -> tlsf -> Prop) s l1 x l2 F size : pool_geo (geo s) -> alive s -> heap_ok s (l1 ++ x :: l2) F ->
  blisted x = false -> 128 <= size -> size mod 64 = 0 -> 128 <= bsize x - size ->
  (forall s' F', heap_ok s' (l1 ++ set_bsize size x :: set_blisted true (remainder_of x size) :: flag_next true l2) F' ->
     moves (fun y => y = set_bsize size x \/ in_use (l1 ++ l2) y) s s' -> Q (baddr x + size) s') ->
  wp (split_block (baddr x) size) C Q s.
Proof.
  intros Hg Ha Hh Hl Hs Hm Hr HQ. pose proof (in_split l1 l2 x) as Hx.
  destruct (block_facts s _ F Hg Hh x Hx) as (Hok & Hn & Hhd & Hst & Hen). pose proof Hok as [Hsz Hmx]. pose proof Hn as [_ Hpos].
  pose proof (spot_of s _ F x Hg Hh Hx) as Hsp. pose proof (block_end_range s _ F x Hg Hh Hx) as Hend.
  pose proof (spot_inside s _ F x size Hg Hh Hx ltac:(lia) Hm ltac:(lia)) as Hspr.
  pose proof (spot_inside s _ F x (bsize x - 64) Hg Hh Hx ltac:(lia) ltac:(by apply mod64_sub) ltac:(lia)) as Hspe.
  pose proof (followed_of s l1 x l2 F Hg Hh) as Hf. pose proof (make_sig_dc_range false 0) as Hsr.
  destruct (block_reads s _ F Hh x Hx) as [Ew _]. set (rem := remainder_of x size). set (r := baddr x + size).
  assert (blk_ok rem) as Hokr by (split; [cbn; lia|by apply mod64_sub]).
  unfold split_block. apply wp_bind, (wp_bsize _ s _ F x Hg Hh Hx). cbv zeta. rewrite (u64_small (baddr x + size)) by lia. fold r.
  rewrite (u64_small (bsize x - size)) by lia.
  assert (Z.lor (bsize x - size) BLOCK_FREE = bsize x - size + 1) as ->.
  { transitivity (Z.lor (blk_word (Blk r (bsize x - size) false false false false)) BLOCK_FREE).
    - unfold blk_word. cbn. by rewrite Z.add_0_r.
    - rewrite blk_word_set_free by done. unfold blk_word. cbn. lia. }
  do 4 (apply wp_bind, wp_put; [done|done|done|done|done|lia|]). apply wp_bind, wp_uid_clear; [done..|].
  apply wp_bind, wp_put; [done|done|done|done|done|lia|].
  apply wp_bind, wp_block_set_size; [done|done|done|done|done|lia|cbn [mem set_mem]; subst r; offs; rd_simpl; exact Ew|].
  set (s1 := set_mem _ _). assert (s1 = set_mem (cut_mem (mem s) x size) s) as Es1 by done.
  assert (rdm (mem s1) (r + OFF_size_flags) = blk_word rem) as Er.
  { rewrite Es1. unfold cut_mem, blk_word. cbn [mem set_mem baddr bsize bfree bprev rem remainder_of]. subst r. offs. rd_simpl. simpl Z.b2z. lia. }
  apply wp_bind. apply wp_bind. change r with (baddr rem) at 1. apply (wp_size_of _ _ _ rem); [done..|]. apply wp_ret.
  replace (u64 (r + bsize rem)) with (baddr rem + bsize rem) by (cbn; rewrite u64_small; subst r; lia).
  apply wp_bind, wp_gets. change (pool_end s1) with (pool_end s1). apply wp_bind. change r with (baddr rem).
  apply (wp_tell _ _ s1 rem l2); [done|done|done|done|done| | |].
  - destruct l2 as [|y l]; cbn in Hf |- *; [change (pool_end s1) with (pool_end s); lia|]. destruct Hf as (Ey & H1 & H2 & H3). split_and!; try done. lia.
  - intros y l' ->. cbn in Hf. destruct Hf as (Ey & _ & _ & [Hsy _]).
    assert (rdm (mem s) (baddr y + OFF_size_flags) = blk_word y) as Eyw by (apply (block_reads s _ F Hh); rewrite elem_of_app, !elem_of_cons; tauto).
    rewrite Es1. unfold cut_mem. cbn [mem set_mem]. offs. rd_simpl. done.
  - set (s2 := set_mem _ _). assert (rdm (mem s2) (baddr rem + OFF_size_flags) = blk_word rem) as Er2.
    { destruct l2 as [|y l]; [exact Er|]. cbn in Hf. destruct Hf as (Ey & _). rewrite <- Er. unfold s2, tell, tell_next. cbn [mem set_mem].
      subst r. cbn [baddr rem remainder_of]. offs. rd_simpl. done. }
    apply wp_bind, wp_footer; [done|done|done|done| |exact Er2|].
    { replace (baddr rem + bsize rem - 64) with (baddr x + (bsize x - 64)) by (cbn; lia). exact Hspe. }
    set (s3 := set_mem _ _). assert (s3 = set_mem (split_mem (mem s) x size l2) s) as Es3.
    { unfold s3, s2. rewrite Es1. unfold split_mem. cbn [mem set_mem]. by replace (baddr rem + bsize rem - 8) with (baddr x + bsize x - 8) by (cbn; lia). }
    destruct (heap_split s l1 x l2 F size Hg Hh Hl Hs Hm Hr) as [H1 H2]. rewrite <- Es3 in H1, H2.
    set (bs3 := l1 ++ set_bsize size x :: rem :: flag_next true l2) in *.
    assert (rem ∈ bs3) as Hin by (unfold bs3; rewrite elem_of_app, !elem_of_cons; tauto).
    do 2 (apply wp_bind, (wp_bsize _ s3 bs3 F rem Hg H1 Hin)).
    apply wp_bind. change (mapping_first_level (bsize rem)) with (class_of rem).1. change (mapping_second_level (bsize rem) (class_of rem).1) with (class_of rem).2.
    unfold bs3 in H1. rewrite cons_middle, app_assoc in H1.
    apply (wp_list _ _ s3 (l1 ++ [set_bsize size x]) rem (flag_next true l2) F); [done|done|exact H1|done|]. intros s' F' H3 H4 _. apply wp_ret.
    rewrite <- app_assoc in H3. eapply HQ; [exact H3|]. eapply moves_trans; [exact H2|]. destruct H4 as (A & T & K). split; [done|]. split; [done|].
    intros y [->|[Hy Hyl]].
    + apply K. split; [|done]. rewrite !elem_of_app, elem_of_cons. tauto.
    + rewrite elem_of_app in Hy. destruct l2 as [|z l]; cbn in *.
      * apply K. split; [|done]. rewrite !elem_of_app. tauto.
      * rewrite elem_of_cons in Hy. destruct Hy as [Hy|[->|Hy]].
        -- apply K. split; [|done]. rewrite !elem_of_app. tauto.
        -- change (kept (set_bprev true z) (mem s3) (mem s')). apply K. split; [|done]. rewrite !elem_of_app, !elem_of_cons. tauto.
        -- apply K. split; [|done]. rewrite !elem_of_app, !elem_of_cons. tauto.
Qed.
