(* ===== verification/TlsfMalloc.v ===== *)
(** Allocation ([tlsf_malloc] of [tlsf_txn.c]) on the tiling of the heap: which block is
    taken, how it is cut, and that the invariant of the pool is kept. *)
From stdpp Require Import functions.
From S2P Require Import Prelude Machine TlsfTypes TlsfBul TlsfHeap TlsfAlloc TlsfApi TlsfFacts TlsfHoare TlsfTxn TlsfOwners TlsfOwnership TlsfLists TlsfTiling TlsfBlocks.

(** As [moves], with the undo log free to grow. *)
Definition steps (P : blk -> Prop) (s s' : tlsf) : Prop :=
  same_but_heap s s' /\ forall y, P y -> kept y (mem s) (mem s').
Lemma moves_steps P s s' : moves P s s' -> steps P s s'.
Proof. intros (A & _ & K). done. Qed.
Lemma steps_trans P s1 s2 s3 : steps P s1 s2 -> steps P s2 s3 -> steps P s1 s3.
Proof.
  intros (A1 & K1) (A2 & K2). split; [by eapply same_but_heap_trans|].
  intros y Hy. eapply kept_trans; [by apply K1|by apply K2].
Qed.
Lemma steps_weaken (P P' : blk -> Prop) s s' : (forall y, P' y -> P y) -> steps P s s' -> steps P' s s'.
Proof. intros H (A & K). split; auto. Qed.
Lemma steps_alive P s s' : steps P s s' -> alive s -> alive s'.
Proof. intros ((_ & _ & E & _) & _) H. unfold alive in *. by rewrite E. Qed.
Lemma steps_geo P s s' : steps P s s' -> geo s' = geo s.
Proof. by intros ((E & _) & _). Qed.

Lemma heap_ok_same s s' bs F : geo s' = geo s -> idx s' = idx s -> mem s' = mem s -> heap_ok s bs F -> heap_ok s' bs F.
Proof. intros Eg Ei Em [H1 H2 H3 H4 H5 H6]. split; rewrite ?Eg, ?Ei, ?Em; done. Qed.
Lemma steps_txn P t s : steps P s (set_txn t s). Proof. done. Qed.

Lemma wp_push_alive C (Q : bool -> tlsf -> Prop) s a : alive s -> mapped s a = true -> 0 <= stack_top (txn s) < MAX_BUL_ENTRIES ->
  (forall t, stack_top t = stack_top (txn s) + 1 -> Q true (set_txn t s)) -> wp (bul_push_word a) C Q s.
Proof.
  intros Ha Hm Ht HQ. apply wp_bind, wp_load; [done|]. unfold bul_push. apply wp_bind, wp_gets.
  rewrite (proj2 (Z.leb_gt _ _)) by lia.
  assert (forall s', alive s' -> ticked s' = s') as Htk by (intros s' Hs'; by apply life_None_ticked).
  do 3 (apply wp_bind, wp_upd_txn; [by intros Hd; unfold alive in *; cbn in Hd; rewrite ?Htk in Hd; cbn in Hd; congruence|rewrite Htk by done]).
  apply wp_ret. apply HQ. cbn. unfold u32, MAX_BUL_ENTRIES in *. rewrite Z.mod_small; lia.
Qed.
Lemma wp_push_spot C (Q : bool -> tlsf -> Prop) s b off : pool_geo (geo s) -> alive s -> spot s b -> 0 <= off < 64 -> off mod 8 = 0 ->
  0 <= stack_top (txn s) < MAX_BUL_ENTRIES ->
  (forall t, stack_top t = stack_top (txn s) + 1 -> Q true (set_txn t s)) -> wp (bul_push_word (fld b off)) C Q s.
Proof.
  intros Hg Ha [Hh _] Ho Hm Ht HQ. destruct (fld_header s b off) as [-> Hmp]; [apply Hg|done..|]. by apply wp_push_alive.
Qed.

(** ** Flags *)

(** The flags of one block change; a block that did not know the one before does not
    learn of it. *)
Lemma heap_set_flags s l1 x x' l2 F : pool_geo (geo s) -> heap_ok s (l1 ++ x :: l2) F ->
  baddr x' = baddr x -> told x' = told x -> bsize x' = bsize x -> blisted x' = blisted x -> (bprev x' = true -> bprev x = true) ->
  let s' := set_mem (<[baddr x + OFF_size_flags := blk_word x']> (mem s)) s in
  heap_ok s' (l1 ++ x' :: l2) F /\ moves (fun y => y ∈ l1 ++ x :: l2) s s'.
Proof.
  intros Hg Hh Ea Eto Es El Ep s'. pose proof (in_split l1 l2 x) as Hx.
  destruct (block_facts s _ F Hg Hh x Hx) as (Hok & Hn & _). pose proof Hok as [Hsz Hm].
  pose proof (hp_tiled _ _ _ Hh) as Ht. apply tiled_app in Ht as [_ Ht]. destruct Ht as (Eax & _ & _ & Ew & Esig & Eprev & Ht).
  destruct (heap_region s (<[baddr x + OFF_size_flags := blk_word x']> (mem s)) l1 [x] [x'] l2 F) as (R1 & R2 & R3); try done.
  - apply mem_ok_put; [apply Hh|]. apply blk_word_range. by split; rewrite Es.
  - cbn [tiled tsize lastp]. rewrite <- Eax, Ea, Es. offs. split_and!; try done; try lia; rd_simpl; try done.
    + by rewrite Eax.
    + intros Hb. rewrite Eax. by apply Eprev, Ep.
  - right. intros p. left. simpl. by rewrite Eto.
  - cbn [tsize]. intros q Hq. offs. rd_simpl. done.
  - unfold listed_of. rewrite !filter_cons, El. destruct (decide (blisted x = true)); [|done]. cbn. by rewrite Ea, Es.
  - intros y o Hy _ Ho. apply list_elem_of_singleton in Hy as ->. offs. destruct Ho as [-> | ->]; rd_simpl; done.
  - split; [exact R1|]. split; [done|]. split; [done|]. intros y Hy. apply in_mid in Hy as [->|Hy]; [|by apply R3].
    intros o Ho _. unfold s'. cbn [mem set_mem]. offs. rd_simpl. done.
Qed.

(** A block learns the size of the one before. *)
Lemma heap_tell s l1 x y l2 F : pool_geo (geo s) -> heap_ok s (l1 ++ x :: y :: l2) F ->
  let s' := set_mem (tell_next (mem s) y (bsize x)) s in
  heap_ok s' (l1 ++ set_bstale false x :: set_bprev true y :: l2) F /\ moves (fun z => z ∈ l1 ++ x :: y :: l2) s s'.
Proof.
  intros Hg Hh s'. assert (x ∈ l1 ++ x :: y :: l2 /\ y ∈ l1 ++ x :: y :: l2) as [Hx Hy] by (rewrite !elem_of_app, !elem_of_cons; tauto).
  destruct (block_facts s _ F Hg Hh y Hy) as (Hok & Hn & _). pose proof Hok as [Hsz Hm].
  destruct (block_facts s _ F Hg Hh x Hx) as ([Hsx _] & _).
  pose proof (hp_tiled _ _ _ Hh) as Ht. apply tiled_app in Ht as [_ Ht].
  destruct Ht as (Eax & _ & Hmx & Ewx & Esx & Epx & Eay & _ & _ & Ew & Esig & Eprev & Ht).
  destruct (heap_region s (tell_next (mem s) y (bsize x)) l1 [x; y] [set_bstale false x; set_bprev true y] l2 F) as (R1 & R2 & R3); try done.
  - unfold tell_next. apply mem_ok_put; [|lia]. apply mem_ok_put; [apply Hh|]. by apply blk_word_range.
  - cbn [tiled tsize lastp baddr bsize bprev set_bprev set_bstale told bstale knows]. unfold tell_next. rewrite <- Eax in *. rewrite <- Eay in *. offs.
    split_and!; try done; try lia; intros; rd_simpl; try done. by apply Epx.
  - right. by left.
  - cbn [tsize]. intros q Hq. unfold tell_next. offs. rd_simpl. done.
  - unfold listed_of. rewrite !filter_cons. cbn. by destruct (blisted x), (blisted y).
  - intros z o Hz _ Ho. apply elem_of_cons in Hz as [->|Hz]; [|apply list_elem_of_singleton in Hz as ->]; unfold tell_next; offs; destruct Ho as [-> | ->]; rd_simpl; done.
  - split; [exact R1|]. split; [done|]. split; [done|]. intros z Hz. apply in_mid in Hz as [->|Hz].
    { intros o Ho Hne. unfold s', tell_next. cbn [mem set_mem]. offs. rd_simpl. done. }
    apply elem_of_app in Hz as [Hz|Hz]; [apply R3, elem_of_app; by left|]. apply elem_of_cons in Hz as [->|Hz]; [|apply R3, elem_of_app; by right].
    intros o Ho Hne. unfold s', tell_next. cbn [mem set_mem]. offs. rd_simpl. done.
Qed.
(** There is no block after the last one. *)
Lemma heap_tell_end s l1 x F : pool_geo (geo s) -> heap_ok s (l1 ++ [x]) F -> heap_ok s (l1 ++ [set_bstale false x]) F.
Proof.
  intros Hg Hh. pose proof (hp_tiled _ _ _ Hh) as Ht. apply tiled_app in Ht as [_ Ht]. cbn in Ht.
  destruct (heap_region s (mem s) l1 [x] [set_bstale false x] [] F) as (R1 & _); try done; [apply Hh|cbn; intuition lia|by left| |by rewrite set_mem_id in R1].
  unfold listed_of. rewrite !filter_cons. cbn. by destruct (blisted x).
Qed.
Definition unstale (v : bool) (x : blk) : blk := if v then set_bstale false x else x.

(** ** Stores into a block and to the accounting word *)

(** Only the insides of [x] may differ: not its size and flags, nor its [prev_size]. *)
Definition only_inside (x : blk) (m m' : gmap Z Z) : Prop :=
  forall q, q < baddr x + OFF_sig_dc \/ q = baddr x + OFF_prev_size \/ baddr x + bsize x <= q -> rdm m' q = rdm m q.
Lemma heap_inside s bs F x m' : pool_geo (geo s) -> heap_ok s bs F -> x ∈ bs -> blisted x = false -> mem_ok m' ->
  only_inside x (mem s) m' -> sig_ok (rdm m' (baddr x + OFF_sig_dc)) = true ->
  heap_ok (set_mem m' s) bs F /\ moves (fun y => y ∈ bs /\ y <> x) s (set_mem m' s).
Proof.
  intros Hg Hh Hx Hl Hm' Hin Hsig. apply list_elem_of_split in Hx as (l1 & l2 & ->). pose proof (in_split l1 l2 x) as Hx. unfold only_inside in Hin.
  destruct (block_facts s _ F Hg Hh x Hx) as ([Hsz Hm] & _).
  pose proof (hp_tiled _ _ _ Hh) as Ht. apply tiled_app in Ht as [_ Ht]. destruct Ht as (Eax & _ & _ & Ew & Esig & Eprev & Ht).
  destruct (heap_region s m' l1 [x] [x] l2 F) as (R1 & R2 & R3); try done.
  - cbn [tiled tsize lastp]. rewrite <- Eax. offs. split_and!; try done; try lia; rewrite ?Hin by (offs; lia); by rewrite Eax.
  - right. by left.
  - cbn [tsize]. intros q Hq. apply Hin. offs. lia.
  - intros y o' Hy Hyl _. apply list_elem_of_singleton in Hy as ->. congruence.
  - split; [exact R1|]. split; [done|]. split; [done|]. intros y [Hy Hyx]. apply in_mid in Hy as [->|Hy]; [done|by apply R3].
Qed.
(** One word. *)
Lemma heap_word s bs F x o v : pool_geo (geo s) -> heap_ok s bs F -> x ∈ bs -> blisted x = false -> 8 <= o < bsize x ->
  o <> OFF_prev_size -> (o = OFF_sig_dc -> sig_ok v = true) -> 0 <= v < 2 ^ 64 ->
  let s' := set_mem (<[baddr x + o := v]> (mem s)) s in
  heap_ok s' bs F /\ moves (fun y => y ∈ bs /\ y <> x) s s'.
Proof.
  intros Hg Hh Hx Hl Ho Hne Hsig Hv. apply heap_inside; try done.
  - apply mem_ok_put; [apply Hh|done].
  - intros q Hq. offs. apply rdm_insert_ne. lia.
  - rewrite rdm_insert. destruct (decide _) as [E|_]; [apply Hsig; lia|]. by apply (block_reads s bs F Hh x Hx).
Qed.

(** A word before the heap. *)
Lemma heap_before s bs F a v : pool_geo (geo s) -> heap_ok s bs F -> a < heap_start (geo s) -> 0 <= v < 2 ^ 64 ->
  let s' := set_mem (<[a := v]> (mem s)) s in
  heap_ok s' bs F /\ forall y, y ∈ bs -> kept y (mem s) (mem s').
Proof.
  intros Hg Hh Ha Hv s'. assert (forall q, heap_start (geo s) <= q -> rdm (mem s') q = rdm (mem s) q) as Hs.
  { intros q Hq. apply rdm_insert_ne. lia. }
  assert (forall y o, y ∈ bs -> 0 <= o -> rdm (mem s') (baddr y + o) = rdm (mem s) (baddr y + o)) as Hb.
  { intros y o Hy Ho. apply Hs. destruct (block_facts s bs F Hg Hh y Hy) as (_ & _ & _ & ? & _). lia. }
  split; [|by intros y Hy o Ho _; apply Hb; [done|lia]]. destruct Hh as [H1 H2 H3 H4 H5 H6] eqn:E. split; try done.
  - by apply mem_ok_put.
  - eapply tiled_ext; [|exact H2]. intros x o Hx Ho. apply Hb; [done|]. unfold hdr_off in Ho. offs. lia.
  - intros c. eapply dseg_ext; [|apply H4]. intros b Hin. destruct (listed_block s bs F Hh c b Hin) as (y & Hy & _ & <- & _).
    split; apply Hb; try done; offs; lia.
Qed.

(** ** The parts of [tlsf_malloc_internal] *)

Section parts.
Context (C : tlsf -> Prop) (s : tlsf) (F : lists_by_class).
Context (Hg : pool_geo (geo s)) (Ha : alive s).

Lemma wp_mark_allocated (Q : unit -> tlsf -> Prop) l1 x l2 : heap_ok s (l1 ++ x :: l2) F -> 
  (forall s', heap_ok s' (l1 ++ set_bfree false x :: l2) F -> moves (fun y => y ∈ l1 ++ x :: l2) s s' -> Q tt s') ->
  wp (mark_block_allocated (baddr x)) C Q s.
Proof.
  intros Hh HQ. pose proof (in_split l1 l2 x) as Hx. destruct (block_facts s _ F Hg Hh x Hx) as (Hok & _).
  destruct (block_reads s _ F Hh x Hx) as [E _].
  eapply (wp_clear_flags _ _ _ _ _ (blk_word (set_bfree false x))); try done.
  - by eapply spot_of.
  - rewrite E. by apply blk_word_unset_free.
  - apply blk_word_range. exact Hok.
  - destruct (heap_set_flags s l1 x (set_bfree false x) l2 F) as [H1 H2]; try done. by apply HQ.
Qed.

Lemma wp_fix_next (Q : bool -> tlsf -> Prop) l1 x l2 (did_split : bool) : heap_ok s (l1 ++ x :: l2) F -> 
  0 <= stack_top (txn s) < 32 ->
  (forall s', heap_ok s' (l1 ++ unstale did_split x :: flag_next did_split l2) F -> steps (fun y => y ∈ l1 ++ x :: l2) s s' ->
     stack_top (txn s) <= stack_top (txn s') <= stack_top (txn s) + 2 -> heads_kept l2 s s' -> Q true s') ->
  wp (malloc_fix_next (baddr x) did_split) C Q s.
Proof.
  intros Hh Ht HQ. pose proof (in_split l1 l2 x) as Hx. unfold malloc_fix_next.
  apply wp_bind, (wp_bnext _ s _ F x Hg Hh Hx). apply wp_bind, wp_gets. pose proof Hg as (_ & Ee & _). rewrite Ee.
  change (pool_start (geo s) + pool_size (geo s)) with (pool_end s).
  pose proof (followed_of s l1 x l2 F Hg Hh) as Hf. destruct l2 as [|y l2]; cbn in Hf.
  - rewrite (proj2 (Z.ltb_ge _ _)) by lia. apply wp_ret. apply HQ; [|by apply moves_steps|lia|by apply heads_refl]. destruct did_split; [by apply heap_tell_end|done].
  - destruct Hf as (Ey & Hlt & Hsp & Hok). rewrite <- Ey, (proj2 (Z.ltb_lt _ _) Hlt).
    assert (y ∈ l1 ++ x :: y :: l2) as Hy by (rewrite elem_of_app, !elem_of_cons; tauto).
    destruct (block_reads s _ F Hh y Hy) as [Eyw _]. destruct (block_facts s _ F Hg Hh x Hx) as (Hokx & _). pose proof Hokx as [Hszx _].
    destruct (block_reads s _ F Hh x Hx) as [Exw _]. pose proof (spot_of s _ F x Hg Hh Hx) as Hspx.
    unfold addr_size_flags, addr_prev_size. pose proof (proj1 (proj2 Hsp)) as Hal.
    apply wp_ensure, wp_push_spot; try done; [unfold MAX_BUL_ENTRIES; lia|]. intros t Et. destruct did_split.
    + apply wp_bind. eapply (wp_or_flags _ _ _ _ _ (blk_word (set_bprev true y))); try done.
      { cbn [mem set_txn]. rewrite Eyw. by apply blk_word_set_prev. }
      { apply blk_word_range. exact Hok. }
      apply wp_ensure, wp_push_spot; try done; [cbn [txn set_txn set_mem]; unfold MAX_BUL_ENTRIES; lia|]. intros t' Et'. cbn [txn set_txn set_mem] in Et'.
      apply wp_bind, (wp_size_of _ _ _ x); try done.
      { cbn [mem set_txn set_mem]. rewrite rdm_insert_ne by (offs; lia). done. }
      apply wp_bind, wp_put; try done; [lia|]. apply wp_ret.
      destruct (heap_tell s l1 x y l2 F Hg Hh) as [H1 H2].
      apply HQ; [eapply heap_ok_same; [..|exact H1]; done|exact (moves_steps _ _ _ H2)|cbn; lia|].
        apply (heads_trans _ _ (set_mem (<[baddr y + OFF_size_flags := blk_word (set_bprev true y)]> (mem s)) s));
          (eapply heads_store; [reflexivity|exact Hal|offs; lia|left; apply list_elem_of_here]).
    + apply wp_bind. eapply (wp_clear_flags _ _ _ _ _ (blk_word (set_bprev false y))); try done.
      { cbn [mem set_txn]. rewrite Eyw. by apply blk_word_unset_prev. }
      { apply blk_word_range. exact Hok. }
      apply wp_ret. destruct (heap_set_flags s (l1 ++ [x]) y (set_bprev false y) l2 F) as [H1 H2]; try done.
      { by rewrite <- app_assoc. }
      rewrite <- !app_assoc in H1. apply HQ; [eapply heap_ok_same; [..|exact H1]; done| |cbn; lia|].
      { eapply (steps_weaken (fun z => z ∈ (l1 ++ [x]) ++ y :: l2)); [intros z; by rewrite <- app_assoc|]. exact (moves_steps _ _ _ H2). }
      eapply heads_store; [reflexivity|exact Hal|offs; lia|left; apply list_elem_of_here].
Qed.
End parts.

(** ** Recording the owner *)

Lemma uids_ext m m' b : (forall o, OFF_uid <= o < OFF_prev_size -> rdm m' (b + o) = rdm m (b + o)) -> uids m' b = uids m b.
Proof.
  intros H. apply list_fmap_ext. intros n k Hk. apply lookup_seqZ in Hk as [-> Hn].
  unfold uid_at. f_equal. pose proof (uid_word_range b (0 + Z.of_nat n) ltac:(lia)) as Hr.
  replace (uid_word b (0 + Z.of_nat n)) with (b + (uid_word b (0 + Z.of_nat n) - b)) in * by lia. apply H. lia.
Qed.
Lemma uids_zero m b : rdm m (b + OFF_uid) = 0 -> rdm m (b + (OFF_uid + 8)) = 0 -> rdm m (b + (OFF_uid + 16)) = 0 ->
  uids m b = replicate 12 0.
Proof.
  intros E0 E1 E2. transitivity ((fun _ : Z => 0) <$> slots); [|done]. apply list_fmap_ext. intros n k Hk.
  apply lookup_seqZ in Hk as [-> Hn]. unfold uid_at. replace (rdm m _) with 0; [unfold uid_slot; by rewrite Z.shiftr_0_l|].
  unfold uid_word. rewrite <- Z.add_assoc. assert ((0 + Z.of_nat n) / 4 = 0 \/ (0 + Z.of_nat n) / 4 = 1 \/ (0 + Z.of_nat n) / 4 = 2) as H.
  { pose proof (Z.div_mod (0 + Z.of_nat n) 4). pose proof (Z.mod_pos_bound (0 + Z.of_nat n) 4). lia. }
  offs. destruct H as [-> |[-> | ->]]; done.
Qed.

Definition ran (s s' : tlsf) : Prop := geo s' = geo s /\ mutex s' = mutex s /\ thr s' = thr s.
(** What recording the owner of [x] changes; the blocks in [P] are left alone. *)
Record handed_out (P : blk -> Prop) (s s' : tlsf) (x : blk) (uid data_type : Z) : Prop := HandedOut {
  ho_uids : uids (mem s') (baddr x) = u16 uid :: replicate 11 0;
  ho_sig : rdm (mem s') (baddr x + OFF_sig_dc) = make_sig_dc false data_type;
  ho_used : rdm (mem s') (used_addr s) = u64 (rdm (mem s) (used_addr s) + (bsize x - HEADER_SIZE));
  ho_outside : forall a, a < heap_start (geo s) -> a <> used_addr s -> rdm (mem s') a = rdm (mem s) a;
  ho_kept : forall y, P y -> kept y (mem s) (mem s') }.
Lemma steps_handed_out P s s1 s' x uid dt : pool_geo (geo s) -> steps P s s1 -> ran s1 s' -> handed_out P s1 s' x uid dt ->
  ran s s' /\ handed_out P s s' x uid dt.
Proof.
  intros Hg ((Eg & Em & Et & Ea) & K) (S1 & S2 & S3) [H2 H3 H4 H5 H6]. assert (used_addr s1 = used_addr s) as Eu by (unfold used_addr; by rewrite Eg).
  assert (used_addr s < heap_start (geo s)) as Hu.
  { destruct Hg as [(_ & _ & _ & ? & _) _]. unfold used_addr, USED_BYTES_OFF, SIZEOF_TLSF_CTRL in *. lia. }
  rewrite Eu, Eg in *. split; [by split_and!; congruence|]. split; try done.
  - by rewrite H4, Ea.
  - intros a Hlt Hne. by rewrite H5, Ea.
  - intros y Hy. eapply kept_trans; [by apply K|by apply H6].
Qed.
Lemma handed_out_weaken (P P' : blk -> Prop) s s' x uid dt : (forall y, P' y -> P y) -> handed_out P s s' x uid dt -> handed_out P' s s' x uid dt.
Proof. intros H [? ? ? ? K]. split; auto. Qed.

Definition finish_mem (m : gmap Z Z) (b uid data_type ua used : Z) : gmap Z Z :=
  let m := <[b + OFF_sig_dc := make_sig_dc false data_type]> m in
  let m := <[b + (OFF_uid + 16) := 0]> (<[b + (OFF_uid + 8) := 0]> (<[b + OFF_uid := 0]> m)) in
  let m := <[b + OFF_uid := uid_slot_set 0 0 uid]> m in
  <[ua := used]> m.

Section finish.
Context (C : tlsf -> Prop) (s : tlsf) (bs : list blk) (F : lists_by_class) (x : blk) (uid dt : Z).
Context (Hg : pool_geo (geo s)) (Ha : alive s) (Hh : heap_ok s bs F) (Hx : x ∈ bs) (Hl : blisted x = false).
Let ua := used_addr s.
Let used := u64 (rdm (mem s) ua + (bsize x - HEADER_SIZE)).

Lemma used_before : ua < heap_start (geo s) /\ ua < baddr x /\ mapped s ua = true.
Proof.
  destruct (block_facts s bs F Hg Hh x Hx) as (_ & _ & _ & ? & _). destruct Hg as [(_ & G1 & G2 & G3 & _) _].
  unfold ua, mapped, used_addr, USED_BYTES_OFF, SIZEOF_TLSF_CTRL in *. split_and!; try lia.
  rewrite Z.eqb_refl, orb_true_l, andb_true_r. apply Z.eqb_eq.
  pose proof (Z.div_mod (pool_start (geo s)) 64). replace (pool_start (geo s) + 6704) with ((pool_start (geo s) / 64 * 8 + 838) * 8) by lia. by apply Z.mod_mul.
Qed.

Lemma finish_heap : let s' := set_mem (finish_mem (mem s) (baddr x) uid dt ua used) s in
  heap_ok s' bs F /\ ran s s' /\ handed_out (fun y => y ∈ bs /\ y <> x) s s' x uid dt.
Proof.
  intros s'. destruct used_before as (U1 & U2 & _). destruct (block_facts s bs F Hg Hh x Hx) as ([Hsz _] & _).
  pose proof (make_sig_dc_range false dt) as Hsr. pose proof (make_sig_ok false dt) as Hso.
  pose proof (uid_slot_set_range 0 0 uid ltac:(lia) ltac:(lia)) as Hur.
  destruct (heap_word s bs F x OFF_sig_dc _ Hg Hh Hx Hl ltac:(offs; lia) ltac:(done) ltac:(done) Hsr) as [H1 M1]. set (s1 := set_mem _ _) in H1, M1.
  destruct (heap_word s1 bs F x OFF_uid 0 Hg H1 Hx Hl ltac:(offs; lia) ltac:(done) ltac:(done) ltac:(lia)) as [H2 M2]. set (s2 := set_mem _ _) in H2, M2.
  destruct (heap_word s2 bs F x (OFF_uid + 8) 0 Hg H2 Hx Hl ltac:(offs; lia) ltac:(done) ltac:(done) ltac:(lia)) as [H3 M3]. set (s3 := set_mem _ _) in H3, M3.
  destruct (heap_word s3 bs F x (OFF_uid + 16) 0 Hg H3 Hx Hl ltac:(offs; lia) ltac:(done) ltac:(done) ltac:(lia)) as [H4 M4]. set (s4 := set_mem _ _) in H4, M4.
  destruct (heap_word s4 bs F x OFF_uid (uid_slot_set 0 0 uid) Hg H4 Hx Hl ltac:(offs; lia) ltac:(done) ltac:(done) Hur) as [H5 M5]. set (s5 := set_mem _ _) in H5, M5.
  destruct (heap_before s5 bs F ua used Hg H5 U1 (u64_range _)) as [H6 K6].
  pose proof (moves_trans _ _ _ _ M1 (moves_trans _ _ _ _ M2 (moves_trans _ _ _ _ M3 (moves_trans _ _ _ _ M4 M5)))) as (_ & _ & K).
  split; [exact H6|]. split; [done|]. split; try done.
  - set (m := mem s). cbn [mem set_mem s']. unfold finish_mem. fold m. set (m1 := <[baddr x + (OFF_uid + 16) := 0]> _).
    transitivity (<[Z.to_nat 0 := u16 uid]> (uids m1 (baddr x))).
    + rewrite <- uids_set; [|exact (hp_mem _ _ _ H4)|lia]. apply uids_ext. intros o Ho. unfold mem_uid_set, uid_word. offs.
      rewrite rdm_insert_ne by lia. change (0 / 4 * 8) with 0. rewrite Z.add_0_r. replace (rdm m1 (baddr x + 32)) with 0; [done|].
      unfold m1. rd_simpl. done.
    + rewrite (uids_zero m1); [done|..]; unfold m1; offs; rd_simpl; done.
  - cbn [mem set_mem s']. unfold finish_mem. offs. rd_simpl. done.
  - cbn [mem set_mem s']. unfold finish_mem. rd_simpl. done.
  - intros a Hlt Hne. cbn [mem set_mem s']. unfold finish_mem. destruct (block_facts s bs F Hg Hh x Hx) as (_ & _ & _ & ? & _). offs. rd_simpl. done.
  - intros y [Hy Hyx]. eapply kept_trans; [by apply K|]. by apply K6.
Qed.

Lemma wp_malloc_finish (Q : Z -> tlsf -> Prop) : 0 <= stack_top (txn s) < 40 ->
  (forall s', heap_ok s' bs F -> ran s s' -> handed_out (fun y => y ∈ bs /\ y <> x) s s' x uid dt ->
     stack_top (txn s') = stack_top (txn s) + 3 -> Q (baddr x + HEADER_SIZE) s') ->
  wp (malloc_finish (baddr x) uid dt) C Q s.
Proof.
  intros Ht HQ. destruct used_before as (U1 & U2 & U3). pose proof (spot_of s bs F x Hg Hh Hx) as Hsp.
  destruct (block_facts s bs F Hg Hh x Hx) as (Hok & _). pose proof Hok as [Hsz _]. destruct (block_reads s bs F Hh x Hx) as [Ew _].
  pose proof (make_sig_dc_range false dt) as Hsr. pose proof (uid_slot_set_range 0 0 uid ltac:(lia) ltac:(lia)) as Hur.
  unfold malloc_finish, addr_sig_dc. apply wp_ensure, wp_push_spot; try done; [unfold MAX_BUL_ENTRIES; lia|]. intros t1 Et1.
  apply wp_bind, wp_put; try done. apply wp_bind, wp_uid_clear; try done.
  unfold bul_push_uid_word. change (32 + 0 / 4 * 8) with OFF_uid. change (u64 (baddr x + OFF_uid)) with (fld (baddr x) OFF_uid).
  apply wp_ensure, wp_push_spot; try done; [cbn [txn set_txn set_mem]; unfold MAX_BUL_ENTRIES; lia|]. intros t2 Et2. cbn [txn set_txn set_mem] in Et2.
  apply wp_bind. unfold uid_set, uid_word_addr. change (OFF_uid + 0 / 4 * 8) with OFF_uid. apply wp_bind, wp_get; try done. 
  cbn [mem set_txn set_mem]. replace (rdm _ (baddr x + OFF_uid)) with 0 by (offs; rd_simpl; done). apply wp_put; try done.
  apply wp_bind. apply wp_bind, (wp_size_of _ _ _ x); try done.
  { cbn [mem set_txn set_mem]. offs. rd_simpl. done. }
  apply wp_ret. apply wp_ensure. apply wp_bind, wp_gets. change (used_addr _) with ua. apply wp_push_alive; [done|done|cbn [txn set_txn set_mem]; unfold MAX_BUL_ENTRIES; lia|].
  intros t3 Et3. apply wp_bind. apply wp_bind, wp_gets. change (used_addr _) with ua. apply wp_load; [done|].
  replace (rd _ ua) with (rdm (mem s) ua) by (unfold rd; cbn [mem set_txn set_mem]; offs; rd_simpl; done).
  rewrite (u64_small (bsize x - HEADER_SIZE)) by (unfold HEADER_SIZE; lia).
  apply wp_bind. apply wp_bind, wp_gets. change (used_addr _) with ua. apply wp_store_alive; [done|done|apply u64_range|].
  apply wp_ret. unfold ptr_from_block. rewrite u64_small.
  - destruct finish_heap as (H1 & S1 & [S2 S3 S4 S5 S6]). apply HQ; [eapply heap_ok_same; [..|exact H1]; done|done|by split|].
    cbn [txn set_txn set_mem] in *. lia.
  - pose proof (block_end_range s bs F x Hg Hh Hx). destruct (block_facts s bs F Hg Hh x Hx) as (_ & [_ ?] & _). unfold HEADER_SIZE. lia.
Qed.
End finish.

(** ** [tlsf_malloc_internal] *)

(** What becomes of the block taken, and of the blocks after it. *)
Definition carve (x : blk) (total : Z) (l : list blk) : list blk :=
  if MIN_BLOCK_SZ <=? bsize x - total then
    Blk (baddr x) total false (bprev x) false false ::
    Blk (baddr x + total) (bsize x - total) true true true false :: flag_next true l
  else Blk (baddr x) (bsize x) false (bprev x) false false :: flag_next false l.
Definition carved (x : blk) (total : Z) : blk :=
  Blk (baddr x) (if MIN_BLOCK_SZ <=? bsize x - total then total else bsize x) false (bprev x) false false.
(** The block taken is free and of the first class, from [c] on, that has one. *)
Definition fits (c : Z * Z) (bs : list blk) (x : blk) : Prop :=
  bfree x = true /\ ~ class_lt (class_of x) c /\
  forall y, y ∈ bs -> bfree y = true -> ~ class_lt (class_of y) c -> ~ class_lt (class_of y) (class_of x).

(** Up to its flags, [y] is one of [l]. *)
Definition alike (y : blk) (l : list blk) : Prop := exists z, z ∈ l /\ baddr z = baddr y /\ bsize z = bsize y.
Lemma kept_alike y l m m' : alike y l -> (forall z, z ∈ l -> baddr z = baddr y -> kept z m m') -> kept y m m'.
Proof. intros (z & Hz & Ea & Es) H. specialize (H z Hz Ea). unfold kept in *. by rewrite <- Ea, <- Es. Qed.
Lemma alike_in y l : y ∈ l -> alike y l. Proof. by exists y. Qed.
Lemma alike_flag y v l : alike y l -> alike y (flag_next v l).
Proof.
  intros (z & Hz & E1 & E2). destruct l as [|u l]; [by apply not_elem_of_nil in Hz|].
  apply elem_of_cons in Hz as [->|Hz]; [exists (set_bprev v u)|exists z]; (split; [|done]); [apply list_elem_of_here|by apply list_elem_of_further].
Qed.
Lemma alike_skip y u l : alike y l -> alike y (u :: l).
Proof. intros (z & Hz & E). exists z. split; [by apply list_elem_of_further|done]. Qed.
Lemma alike_mid y l1 u l2 l3 : y ∈ l1 ++ l2 -> (y ∈ l2 -> alike y l3) -> alike y (l1 ++ u :: l3).
Proof.
  intros Hy H. apply elem_of_app in Hy as [Hy|Hy].
  - exists y. split; [|done]. apply elem_of_app. by left.
  - destruct (H Hy) as (z & Hz & E). exists z. split; [|done]. apply elem_of_app. right. by apply list_elem_of_further.
Qed.

Lemma wp_take_and_cut C (Q : Z -> tlsf -> Prop) s l1 x l2 F total uid dt : pool_geo (geo s) -> alive s -> heap_ok s (l1 ++ x :: l2) F ->
  blisted x = true -> bstale x = false -> 128 <= total <= bsize x -> total mod 64 = 0 -> stack_top (txn s) = 0 ->
  (forall s' F', heap_ok s' (l1 ++ carve x total l2) F' -> ran s s' -> handed_out (in_use (l1 ++ l2)) s s' (carved x total) uid dt ->
     0 <= stack_top (txn s') <= 5 -> Q (baddr x + HEADER_SIZE) s') ->
  wp (bsz ← block_size (baddr x);
      let block_fl := mapping_first_level bsz in
      bsz ← block_size (baddr x);
      let block_sl := mapping_second_level bsz block_fl in
      remove_from_free_list (baddr x) block_fl block_sl ;;
      block_total ← block_size (baddr x);
      let did_split := MIN_BLOCK_SZ <=? u64 (block_total - total) in
      (if did_split then split_block (baddr x) total ;; mret tt else mret tt) ;;
      mark_block_allocated (baddr x) ;;
      unless malloc_fix_next (baddr x) did_split return mret NULL ;;
      malloc_finish (baddr x) uid dt) C Q s.
Proof.
  intros Hg Ha Hh Hl Hsta Ht Hm Hst HQ. pose proof (in_split l1 l2 x) as Hx. destruct (block_facts s _ F Hg Hh x Hx) as ([Hsz Hmx] & _).
  do 2 (apply wp_bind, (wp_bsize _ s _ F x Hg Hh Hx)). cbv zeta. apply wp_bind.
  apply (wp_take _ _ s l1 x l2 F Hg Ha Hh Hl). intros s1 F1 H1 M1 _. set (x1 := set_blisted false x) in *.
  pose proof (in_split l1 l2 x1) as Hx1. change (baddr x) with (baddr x1).
  assert (pool_geo (geo s1)) as Hg1 by (by rewrite (moves_geo _ _ _ M1)). pose proof (moves_alive _ _ _ M1 Ha) as Ha1.
  apply wp_bind, (wp_bsize _ s1 _ F1 x1 Hg1 H1 Hx1). cbn [bsize x1 set_blisted]. rewrite (u64_small (bsize x - total)) by lia.
  assert (stack_top (txn s1) = 0) as Hst1 by (by destruct M1 as (_ & -> & _)).
  (* the split *)
  apply wp_bind. set (did := MIN_BLOCK_SZ <=? bsize x - total). set (x2 := if did then set_bsize total x1 else x1).
  set (l3 := if did then Blk (baddr x + total) (bsize x - total) true false true false :: flag_next true l2 else l2).
  cut (forall s2 F2, heap_ok s2 (l1 ++ x2 :: l3) F2 -> moves (fun y => y = x2 \/ in_use (l1 ++ l2) y) s1 s2 ->
    wp (mark_block_allocated (baddr x1) ;;
      unless malloc_fix_next (baddr x1) did return mret NULL ;;
      malloc_finish (baddr x1) uid dt) C Q s2).
  { intros Hk. unfold did in *. destruct (Z.leb_spec MIN_BLOCK_SZ (bsize x - total)) as [Hle|Hlt].
    - unfold MIN_BLOCK_SZ in Hle. apply wp_bind. apply (wp_split_block _ _ s1 l1 x1 l2 F1); [done|done|done|done|lia|done|exact Hle|]. intros s2 F2 H2 M2.
      apply wp_ret. by eapply Hk.
    - apply wp_ret. eapply Hk; [exact H1|]. done. }
  intros s2 F2 H2 M2. assert (pool_geo (geo s2)) as Hg2 by (by rewrite (moves_geo _ _ _ M2)). pose proof (moves_alive _ _ _ M2 Ha1) as Ha2.
  assert (baddr x2 = baddr x /\ bprev x2 = bprev x /\ blisted x2 = false /\ bsize x2 = if did then total else bsize x) as (E1 & E2 & E3 & E4) by (unfold x2; by destruct did).
  change (baddr x1) with (baddr x). rewrite <- E1. apply wp_bind. apply (wp_mark_allocated _ _ F2 Hg2 Ha2 _ l1 x2 l3 H2). intros s3 H3 M3.
  assert (pool_geo (geo s3)) as Hg3 by (by rewrite (moves_geo _ _ _ M3)). pose proof (moves_alive _ _ _ M3 Ha2) as Ha3.
  set (x3 := set_bfree false x2) in *. change (baddr x2) with (baddr x3).
  apply wp_ensure. apply (wp_fix_next _ s3 F2 Hg3 Ha3 _ l1 x3 l3); [done|destruct M2 as (_ & E & _), M3 as (_ & -> & _); rewrite E; lia|].
  intros s4 H4 S4 Ht4 _. assert (stack_top (txn s3) = 0) as Hst3 by (destruct M2 as (_ & E & _), M3 as (_ & -> & _); by rewrite E). assert (pool_geo (geo s4)) as Hg4 by (by rewrite (steps_geo _ _ _ S4)). pose proof (steps_alive _ _ _ S4 Ha3) as Ha4.
  assert (unstale did x3 = x3) as Ex3s by (unfold x3, x2, x1, unstale, set_bstale, set_bfree, set_bsize, set_blisted; destruct did; cbn; by rewrite ?Hsta).
  rewrite Ex3s in H4. apply (wp_malloc_finish _ s4 _ F2 x3 uid dt Hg4 Ha4 H4); [apply in_split|done|lia|]. intros s5 H5 R5 HO Ht5.
  change (baddr x3) with (baddr x2). rewrite E1.
  assert (x3 = carved x total) as Ex3.
  { unfold x3, carved, x2, x1. fold did. destruct did; unfold set_bfree, set_bsize, set_blisted; cbn; by rewrite Hsta. }
  rewrite <- Ex3 in HQ. cut (ran s s5 /\ handed_out (in_use (l1 ++ l2)) s s5 x3 uid dt); [intros [? ?]; apply (HQ s5 F2); try done; [|lia]|].
  - replace (carve x total l2) with (x3 :: flag_next did l3); [done|]. rewrite Ex3. unfold carve, carved, l3. fold did. by destruct did.
  - pose proof (fun y => rest_apart s l1 x l2 F y Hg Hh) as Hne.
    assert (forall y, y ∈ l2 -> alike y l3) as Hl3.
    { intros y Hy. unfold l3. destruct did; [apply alike_skip, alike_flag|]; by apply alike_in. }
    eapply (steps_handed_out _ s s4); [done| |exact R5|].
    + eapply steps_trans; [apply (moves_steps _ s s1), (moves_weaken _ _ _ _ (fun y H => conj (proj2 (in_mid l1 l2 x1 y) (or_intror (proj1 H))) (proj2 H)) M1)|].
      eapply steps_trans; [apply (moves_steps _ s1 s2), (moves_weaken _ _ _ _ (fun y H => or_intror H) M2)|].
      apply (steps_trans _ s2 s3).
      * destruct M3 as (A & _ & K). split; [done|]. intros y [Hy _]. eapply kept_alike; [exact (alike_mid y l1 x2 l2 l3 Hy (Hl3 y))|]. auto.
      * destruct S4 as (A & K). split; [done|]. intros y [Hy _]. eapply kept_alike; [exact (alike_mid y l1 x3 l2 l3 Hy (Hl3 y))|]. auto.
    + destruct HO as [O2 O3 O4 O5 O6]. split; [exact O2|exact O3|exact O4|exact O5|]. intros y [Hy _].
      eapply (kept_alike _ (l1 ++ x3 :: flag_next did l3)); [eapply alike_mid; [exact Hy|intros; by apply alike_flag, Hl3]|].
      intros z Hz E. apply O6. split; [done|]. intros ->. apply (Hne y Hy). rewrite <- E. exact E1.
Qed.

Lemma request_bounds size : 0 < size <= 2 ^ 64 - 128 -> let total := request_to_block_size size in
  128 <= total < 2 ^ 64 /\ total mod 64 = 0.
Proof.
  intros Hs total. unfold total. rewrite request_to_block_size_fits by done. pose proof (Z.div_mod (size + 63) 64). pose proof (Z.mod_pos_bound (size + 63) 64).
  split; [lia|]. replace ((size + 63) / 64 * 64 + 64) with (((size + 63) / 64 + 1) * 64) by lia. by apply Z.mod_mul.
Qed.
Lemma request_class n : 0 < n < 2 ^ 64 -> class_in (mapping_search n) /\ (2 ^ 40 <= n -> (mapping_search n).1 = 40).
Proof.
  intros Hn. unfold class_in, mapping_search. cbn [fst snd].
  assert (mapping_second_level n (mapping_first_level n) = 0 \/ 0 <= mapping_second_level n (mapping_first_level n) < 16) as H2.
  { unfold mapping_second_level. destruct (_ <? _); [by left|right]. change (SLI_SIZE - 1) with 15. change 16 with (2 ^ 4). apply land_bound_r; lia. }
  assert (Z.log2 n < 64) by (apply Z.log2_lt_pow2; lia). pose proof (Z.log2_nonneg n).
  unfold mapping_first_level, clz64, FLI_MAX in *. rewrite (proj2 (Z.eqb_neq _ _)) in * by lia.
  replace (63 - (63 - Z.log2 n)) with (Z.log2 n) in * by lia. split; [split; [destruct (Z.leb_spec 41 (Z.log2 n)); lia|lia]|].
  intros Hb. assert (40 <= Z.log2 n) by (apply Z.log2_le_pow2; lia). destruct (Z.leb_spec 41 (Z.log2 n)); lia.
Qed.

(** In a settled heap the search answers with a free block that fits. *)
Lemma find_fits s bs F n : pool_geo (geo s) -> heap_ok s bs F -> settled_heap bs -> 0 < n < 2 ^ 64 ->
  let b := find_suitable_in (idx s) (mapping_search n).1 (mapping_search n).2 in
  (b = NULL /\ forall y, y ∈ bs -> bfree y = true -> class_lt (class_of y) (mapping_search n)) \/
  exists x, x ∈ bs /\ b = baddr x /\ fits (mapping_search n) bs x.
Proof.
  intros Hg Hh Hs Hn b. destruct (request_class n Hn) as [Hc _].
  assert (forall y, y ∈ bs -> bfree y = true -> F (class_of y) <> []) as Hne.
  { intros y Hy Hf. rewrite <- (proj1 (Hs y Hy)) in Hf. assert (baddr y ∈ F (class_of y)) as Hin by (apply (hp_listed _ _ _ Hh); by exists y).
    intros E. rewrite E in Hin. by apply not_elem_of_nil in Hin. }
  destruct (find_suitable_spec (idx s) F (mapping_search n)) as [[E H]|(d & E & Hd & H1 & H2)]; [apply Hh|done| | |].
  - intros d Hd. destruct (F d) as [|a L] eqn:EF; [done|]. destruct (listed_block s bs F Hh d a) as (y & Hy & _ & _ & <-); [rewrite EF; apply list_elem_of_here|].
    by eapply class_range.
  - left. split; [done|]. intros y Hy Hf. by apply H, Hne.
  - right. destruct (F d) as [|a L] eqn:EF; [done|]. destruct (listed_block s bs F Hh d a) as (x & Hx & Hl & <- & <-); [rewrite EF; apply list_elem_of_here|].
    exists x. split; [done|]. split; [exact E|]. split; [by rewrite <- (proj1 (Hs x Hx))|]. split; [done|]. intros y Hy Hf Hlt. apply H2; [by apply Hne|done].
Qed.

(** Such a block is large enough, unless its class is that of the request. *)
Lemma fits_size s bs F n x : pool_geo (geo s) -> heap_ok s bs F -> 128 <= n < 2 ^ 64 -> x ∈ bs -> fits (mapping_search n) bs x ->
  (class_of x = mapping_search n -> n <= bsize x) -> n <= bsize x.
Proof.
  intros Hg Hh Hn Hx (_ & Hlt & _) He. destruct (block_facts s bs F Hg Hh x Hx) as ([Hs Hm] & _ & _ & Hst & Hen).
  assert (bsize x < 2 ^ 40) as Hsx.
  { destruct Hg as [(_ & G1 & G2 & G3 & _) [_ G9]]. unfold pool_end, SIZEOF_TLSF_CTRL in *. lia. }
  destruct (Z.lt_ge_cases n (2 ^ 40)) as [Hn'|Hn'].
  - unfold class_of in *. destruct (decide (mapping_search (bsize x) = mapping_search n)) as [E|E]; [auto|].
    apply Z.lt_le_incl, class_lt_size; [lia|lia|]. unfold class_lt in *.
    destruct (mapping_search (bsize x)) as [a1 a2], (mapping_search n) as [b1 b2]. cbn [fst snd] in *.
    destruct (Z.lt_total b1 a1) as [?|[->|?]]; [by left| |exfalso; apply Hlt; by left].
    right. split; [done|]. destruct (Z.lt_total b2 a2) as [?|[->|?]]; [done|done|exfalso; apply Hlt; by right].
  - exfalso. apply Hlt. left. destruct (request_class n ltac:(lia)) as [_ ->]; [|done].
    unfold class_of, mapping_search. cbn [fst]. rewrite mapping_first_level_log2 by lia. apply Z.log2_lt_pow2; lia.
Qed.

Lemma wp_malloc_internal C (Q : Z -> tlsf -> Prop) s bs F size uid dt : pool_geo (geo s) -> alive s -> heap_ok s bs F -> settled_heap bs ->
  stack_top (txn s) = 0 -> 0 < size <= 2 ^ 64 - 128 ->
  let total := request_to_block_size size in
  (forall y, y ∈ bs -> bfree y = true -> class_of y = mapping_search total -> total <= bsize y) ->
  ((forall y, y ∈ bs -> bfree y = true -> class_lt (class_of y) (mapping_search total)) -> Q NULL (set_errno_st Err.OUT_OF_MEMORY s)) ->
  (forall l1 x l2 s' F', bs = l1 ++ x :: l2 -> fits (mapping_search total) bs x -> total <= bsize x ->
     heap_ok s' (l1 ++ carve x total l2) F' -> ran s s' -> handed_out (in_use (l1 ++ l2)) s s' (carved x total) uid dt ->
     0 <= stack_top (txn s') <= 5 -> Q (baddr x + HEADER_SIZE) s') ->
  wp (tlsf_malloc_internal size uid dt) C Q s.
Proof.
  intros Hg Ha Hh Hset Ht Hs total Hexact HQ0 HQ. destruct (request_bounds size Hs) as [Hb Hm]. fold total in Hb, Hm.
  unfold tlsf_malloc_internal. rewrite (proj2 (Z.eqb_neq size 0)) by lia. fold total. cbv zeta.
  rewrite (surjective_pairing (mapping_search total)). apply wp_bind, wp_gets.
  destruct (find_fits s bs F total Hg Hh Hset ltac:(lia)) as [[-> Hnone]|(x & Hx & -> & Hfit)].
  - cbn. by apply HQ0.
  - pose proof (fits_size s bs F total x Hg Hh Hb Hx Hfit ltac:(by intros; apply Hexact; [done|apply Hfit|])) as Hle.
    destruct (block_facts s bs F Hg Hh x Hx) as (_ & Hnode & _). rewrite (proj2 (Z.eqb_neq _ _) (node_nonnull _ Hnode)).
    apply wp_bind, (wp_signed _ s bs F x Hg Hh Hx). cbn [negb].
    assert (blisted x = true) as Hl by (rewrite (proj1 (Hset x Hx)); apply Hfit). pose proof (proj2 (Hset x Hx)) as Hsta.
    apply list_elem_of_split in Hx as (l1 & l2 & E). rewrite E in Hh.
    apply (wp_take_and_cut _ _ s l1 x l2 F total uid dt Hg Ha Hh Hl Hsta); [lia|done|done|]. intros s' F' H1 H2 H3 H4.
    by eapply HQ.
Qed.
