(* ===== verification/TlsfFree.v ===== *)
(** Release of a block whose last owner leaves ([free_release] and the coalescing of
    [tlsf_txn.c]) on the tiling of the heap. *)
From stdpp Require Import functions.
From S2P Require Import Prelude Machine TlsfTypes TlsfBul TlsfHeap TlsfAlloc TlsfApi TlsfFacts TlsfHoare TlsfTxn TlsfOwners TlsfOwnership TlsfLists TlsfTiling TlsfBlocks TlsfMalloc.

(** ** The sequence of blocks after a release *)

(** [x] grows over [y]; the block after [y] is not told. *)
Definition join (x y : blk) : blk := set_bstale true (set_bsize (bsize x + bsize y) x).
(** [coalesce_prev] and [coalesce_next] *)
Definition merge_prev (l : list blk) (x : blk) : list blk * blk :=
  match reverse l with
  | p :: r => if bprev x && bfree p then (reverse r, join (set_blisted false p) x) else (l, x)
  | [] => (l, x)
  end.
Definition merge_next (x : blk) (l : list blk) : blk * list blk :=
  match l with
  | y :: r => if bfree y then (set_bprev false (join x y), r) else (x, l)
  | [] => (x, l)
  end.
(** The heap after the release of [x], which stands between [l1] and [l2]. *)
Definition give_back (l1 : list blk) (x : blk) (l2 : list blk) : list blk :=
  let '(l1, x) := merge_prev l1 x in
  let '(x, l2) := merge_next x l2 in
  l1 ++ Blk (baddr x) (bsize x) true (bprev x) true false :: flag_next true l2.

Lemma merge_prev_snoc l p x : merge_prev (l ++ [p]) x = if bprev x && bfree p then (l, join (set_blisted false p) x) else (l ++ [p], x).
Proof. unfold merge_prev. rewrite reverse_app. simpl. by rewrite reverse_involutive. Qed.

(** ** Merging two blocks *)

(** As [moves], with [tlsf_errno] free to change. *)
Definition calm (P : blk -> Prop) (s s' : tlsf) : Prop :=
  geo s' = geo s /\ mutex s' = mutex s /\ self (thr s') = self (thr s) /\ (alive s -> alive s') /\ txn s' = txn s /\
  (forall a, a < heap_start (geo s) -> rdm (mem s') a = rdm (mem s) a) /\ forall y, P y -> kept y (mem s) (mem s').
Lemma moves_calm P s s' : moves P s s' -> calm P s s'.
Proof. intros ((E1 & E2 & E3 & E4) & E5 & E6). unfold calm, alive. rewrite E3. by split_and!. Qed.
Lemma calm_refl P s : calm P s s.
Proof. by split_and!. Qed.
Lemma calm_trans P s1 s2 s3 : calm P s1 s2 -> calm P s2 s3 -> calm P s1 s3.
Proof.
  intros (G1 & M1 & T1 & L1 & X1 & A1 & K1) (G2 & M2 & T2 & L2 & X2 & A2 & K2). split_and!; try congruence; auto.
  - intros a Ha. rewrite A2, A1; congruence.
  - intros y Hy. eapply kept_trans; auto.
Qed.
Lemma calm_weaken (P P' : blk -> Prop) s s' : (forall y, P' y -> P y) -> calm P s s' -> calm P' s s'.
Proof. intros H (A & B & D & E & X & G & K). split_and!; auto. Qed.
Lemma calm_errno P e s : calm P s (set_errno_st e s).
Proof. by split_and!. Qed.

Lemma in_two (l1 l2 : list blk) x y : x ∈ l1 ++ x :: y :: l2 /\ y ∈ l1 ++ x :: y :: l2.
Proof. rewrite !elem_of_app, !elem_of_cons. tauto. Qed.
(** Two neighbours fit the pool together. *)
Lemma neighbours s l1 x y l2 F : pool_geo (geo s) -> heap_ok s (l1 ++ x :: y :: l2) F ->
  baddr y = baddr x + bsize x /\ blk_ok x /\ blk_ok y /\ bsize x + bsize y < 2 ^ 40 /\ (bsize x + bsize y) mod 64 = 0.
Proof.
  intros Hg Hh. destruct (in_two l1 l2 x y) as [Hx Hy].
  destruct (block_facts s _ F Hg Hh x Hx) as (Hox & _ & _ & Hsx & _). destruct (block_facts s _ F Hg Hh y Hy) as (Hoy & _ & _ & _ & Hey).
  pose proof (hp_tiled _ _ _ Hh) as Ht. apply tiled_app in Ht as [_ (Ex & _ & _ & _ & _ & _ & Ey & _)].
  destruct Hg as [(_ & G1 & G2 & G3 & _) [_ G9]]. unfold pool_end, SIZEOF_TLSF_CTRL in *.
  split; [lia|]. split; [done|]. split; [done|]. split; [lia|]. apply mod64_add; [apply Hox|apply Hoy].
Qed.

Lemma heap_join s l1 x y l2 F : pool_geo (geo s) -> heap_ok s (l1 ++ x :: y :: l2) F -> blisted x = false -> blisted y = false ->
  let s' := set_mem (<[baddr x + OFF_size_flags := blk_word (join x y)]> (mem s)) s in
  heap_ok s' (l1 ++ join x y :: l2) F /\ moves (fun z => z ∈ l1 ++ l2) s s'.
Proof.
  intros Hg Hh Hlx Hly s'. destruct (in_two l1 l2 x y) as [Hx Hy]. destruct (neighbours s l1 x y l2 F Hg Hh) as (Eyx & [Hsx Hmx] & [Hsy Hmy] & Hsum & Hmod).
  destruct (block_facts s _ F Hg Hh x Hx) as (_ & Hn & _).
  pose proof (hp_tiled _ _ _ Hh) as Ht. apply tiled_app in Ht as [_ Ht].
  destruct Ht as (Eax & _ & _ & Ewx & Esx & Epx & Eay & _ & _ & Ew & Esig & Eprev & Ht).
  destruct (heap_region s (<[baddr x + OFF_size_flags := blk_word (join x y)]> (mem s)) l1 [x; y] [join x y] l2 F) as (R1 & R2 & R3); try done.
  - apply mem_ok_put; [apply Hh|]. apply blk_word_range. split; cbn; [lia|done].
  - cbn [tiled tsize lastp baddr bsize bprev join set_bsize set_bstale]. rewrite <- Eax in *. offs. split_and!; try done; try lia; intros; rd_simpl; try done. by apply Epx.
  - right. intros p. right. cbn. done.
  - cbn [tsize]. intros q Hq. offs. rd_simpl. done.
  - unfold listed_of. rewrite !filter_cons. cbn [blisted join set_bsize set_bstale]. by rewrite Hlx, Hly.
  - intros z o Hz Hzl _. apply elem_of_cons in Hz as [->|Hz]; [congruence|]. apply list_elem_of_singleton in Hz as ->. congruence.
Qed.

Section free_parts.
Context (C : tlsf -> Prop).

Lemma wp_join (Q : unit -> tlsf -> Prop) s l1 x y l2 F : pool_geo (geo s) -> alive s -> heap_ok s (l1 ++ x :: y :: l2) F ->
  blisted x = false -> blisted y = false ->
  (forall s', heap_ok s' (l1 ++ join x y :: l2) F -> moves (fun z => z ∈ l1 ++ l2) s s' -> heads_kept [x] s s' -> Q tt s') ->
  wp (block_set_size (baddr x) (u64 (bsize x + bsize y))) C Q s.
Proof.
  intros Hg Ha Hh Hlx Hly HQ. destruct (in_two l1 l2 x y) as [Hx Hy]. destruct (neighbours s l1 x y l2 F Hg Hh) as (_ & Hox & Hoy & Hsum & Hmod).
  destruct Hox as [? ?], Hoy as [? ?]. rewrite u64_small by lia.
  destruct (heap_join s l1 x y l2 F Hg Hh Hlx Hly) as [J1 J2].
  apply wp_block_set_size; try done; [by eapply spot_of|lia|by apply (block_reads s _ F Hh x Hx)|]. apply HQ; [done|done|].
  eapply heads_store; [reflexivity|apply (block_node s _ F Hg Hh x Hx)|offs; lia|left; apply list_elem_of_here].
Qed.

Lemma wp_prev_size (Q : bool -> tlsf -> Prop) s l1 p x l2 F : pool_geo (geo s) -> heap_ok s ((l1 ++ [p]) ++ x :: l2) F -> bprev x = true -> bstale p = false ->
  (rdm (mem s) (baddr x + OFF_prev_size) = bsize p -> baddr x = baddr p + bsize p -> Q true s) -> wp (validate_prev_size (baddr x)) C Q s.
Proof.
  intros Hg Hh Hb Hst HQ. pose proof (in_split (l1 ++ [p]) l2 x) as Hx. pose proof (spot_of s _ F x Hg Hh Hx) as Hsp.
  pose proof (hp_tiled _ _ _ Hh) as Ht. apply tiled_app in Ht as [T1 T2]. destruct T2 as (Ex & _ & _ & _ & _ & Ep & _).
  apply tiled_app in T1 as [_ (Epp & _)]. rewrite tsize_app in Ex. cbn [tsize] in Ex. specialize (Ep Hb). rewrite lastp_snoc in Ep. unfold told in Ep. rewrite Hst in Ep. cbn in Ep.
  rewrite tsize_app in Ep. cbn [tsize] in Ep. rewrite <- Ex in Ep. 
  assert (p ∈ (l1 ++ [p]) ++ x :: l2) as Hp by (rewrite !elem_of_app; left; right; apply list_elem_of_here).
  destruct (block_facts s _ F Hg Hh p Hp) as ([Hsz Hm] & _ & _ & Hs & He). 
  pose proof Hg as [(_ & G1 & G2 & G3 & G4 & G5 & G6 & G7) [G8 G9]]. unfold pool_end, SIZEOF_TLSF_CTRL in *.
  assert (baddr x = baddr p + bsize p) as Exp by lia. specialize (HQ (eq_sym Ep) Exp).
  apply wp_bind, wp_get; [done|done|done|done|]. rewrite <- Ep. do 3 (apply wp_bind, wp_gets).
  rewrite (proj2 (Z.eqb_neq _ _)) by lia. rewrite (proj2 (Z.eqb_eq (bsize p mod ALIGN_SIZE) 0)) by exact Hm. cbn [negb].
  rewrite (proj2 (Z.ltb_ge _ _)) by lia. rewrite (u64_small (baddr x - bsize p)) by lia.
  rewrite (proj2 (Z.ltb_ge _ _)) by lia. rewrite (proj2 (Z.leb_gt _ _)) by (unfold pool_end; lia). by apply wp_ret.
Qed.

Definition calm_list (l : list blk) : Prop := forall y, y ∈ l -> blisted y = bfree y /\ bstale y = false.
Lemma in_use_rest l1 x y l2 z : in_use (l1 ++ l2) z -> in_use (l1 ++ x :: y :: l2) z.
Proof. intros [Hz Hl]. split; [|done]. rewrite !elem_of_app, ?elem_of_cons in *. tauto. Qed.

Lemma wp_coalesce_prev (Q : Z -> tlsf -> Prop) s l1 x l2 F : pool_geo (geo s) -> alive s -> heap_ok s (l1 ++ x :: l2) F ->
  calm_list l1 -> blisted x = false ->
  (forall s' F', let '(l1', x') := merge_prev l1 x in
     heap_ok s' (l1' ++ x' :: l2) F' -> calm (in_use (l1' ++ l2)) s s' -> heads_kept [x'] s s' -> Q (baddr x') s') ->
  wp (coalesce_prev (baddr x)) C Q s.
Proof.
  intros Hg Ha Hh Hset Hl HQ. pose proof (in_split l1 l2 x) as Hx. unfold coalesce_prev.
  apply wp_bind, (wp_bprev _ s _ F x Hg Hh Hx). destruct l1 as [|p l1 _] using rev_ind.
  { pose proof (hp_tiled _ _ _ Hh) as (_ & _ & _ & _ & _ & Ep & _). destruct (bprev x); [by specialize (Ep eq_refl)|].
    apply wp_ret. apply (HQ s F Hh); [apply calm_refl|by apply heads_refl]. }
  rewrite merge_prev_snoc in HQ. destruct (bprev x) eqn:Eb; cbn [negb andb] in *.
  2:{ apply wp_ret. apply (HQ s F Hh); [apply calm_refl|by apply heads_refl]. }
  assert (p ∈ (l1 ++ [p]) ++ x :: l2) as Hp by (rewrite !elem_of_app; left; right; apply list_elem_of_here).
  destruct (Hset p) as [Hlp Hsp]; [apply elem_of_app; right; apply list_elem_of_here|].
  apply wp_bind, (wp_prev_size _ s l1 p x l2 F); try done. intros Eps Exp. cbn [negb].
  apply wp_bind, wp_get; [done|by eapply spot_of|done|done|]. rewrite Eps.
  destruct (block_facts s _ F Hg Hh p Hp) as ([Hszp _] & [_ Hnp] & _). rewrite Exp.
  replace (u64 (baddr p + bsize p - bsize p)) with (baddr p) by (rewrite u64_small; lia).
  apply wp_bind, (wp_signed _ s _ F p Hg Hh Hp). cbn [negb]. apply wp_bind, (wp_bfree _ s _ F p Hg Hh Hp).
  destruct (bfree p) eqn:Ef; cbn [negb].
  2:{ rewrite <- Exp. apply wp_bind, wp_set_errno, wp_ret. apply (HQ _ F); [eapply heap_ok_same; [..|exact Hh]; done|apply calm_errno|by apply heads_refl]. }
  rewrite <- Exp. rewrite <- app_assoc in Hh, Hp, Hx. cbn [app] in Hh, Hp, Hx. apply wp_bind, (wp_bsize _ s _ F p Hg Hh Hp).
  cbv zeta. apply wp_bind. apply (wp_take _ _ s l1 p (x :: l2) F Hg Ha Hh Hlp). intros s1 F1 H1 M1 W1.
  assert (pool_geo (geo s1)) as Hg1 by (by rewrite (moves_geo _ _ _ M1)). pose proof (moves_alive _ _ _ M1 Ha) as Ha1.
  destruct (in_two l1 l2 (set_blisted false p) x) as [Hp1 Hx1]. change (baddr p) with (baddr (set_blisted false p)).
  apply wp_bind, (wp_bsize _ s1 _ F1 _ Hg1 H1 Hp1). apply wp_bind, (wp_bsize _ s1 _ F1 _ Hg1 H1 Hx1).
  apply wp_bind. apply (wp_join _ s1 l1 (set_blisted false p) x l2 F1); try done. intros s2 H2 M2 W2. apply wp_ret.
  apply (HQ s2 F1); [exact H2| |eapply heads_trans; [|exact W2]; eapply heads_weaken; [|exact W1]; intros a Hin; by apply not_elem_of_nil in Hin].
  eapply calm_trans; apply moves_calm.
  - eapply moves_weaken; [|exact M1]. intros z. apply in_use_rest.
  - eapply moves_weaken; [|exact M2]. by intros z [? _].
Qed.

(** The block after the merged one is told. *)
Lemma heap_tell_all s l1 x l2 F : pool_geo (geo s) -> heap_ok s (l1 ++ x :: l2) F ->
  let s' := set_mem (tell (mem s) l2 (bsize x)) s in
  heap_ok s' (l1 ++ set_bstale false x :: flag_next true l2) F /\ moves (fun z => z ∈ l1 ++ x :: l2) s s'.
Proof.
  intros Hg Hh. destruct l2 as [|y l2]; [|by apply heap_tell]. cbn. rewrite set_mem_id. split; [by apply heap_tell_end|done].
Qed.

Lemma heads_tell s s' l2 v : mem s' = tell (mem s) l2 v -> (forall y, y ∈ l2 -> baddr y mod 64 = 0) -> heads_kept l2 s s'.
Proof.
  intros E Hal. destruct l2 as [|y l2]; [by apply heads_refl|]. cbn [tell] in E.
  apply (heads_trans _ _ (set_mem (<[baddr y + OFF_size_flags := blk_word (set_bprev true y)]> (mem s)) s));
    (eapply heads_store; [done||exact E|apply Hal, list_elem_of_here|offs; lia|left; apply list_elem_of_here]).
Qed.
Lemma wp_coalesce_next (Q : unit -> tlsf -> Prop) s l1 x y l2 F : pool_geo (geo s) -> alive s -> heap_ok s (l1 ++ x :: y :: l2) F ->
  blisted x = false -> blisted y = true ->
  (forall s' F', heap_ok s' (l1 ++ set_bstale false (set_bprev false (join x y)) :: flag_next true l2) F' ->
     calm (in_use (l1 ++ l2)) s s' -> heads_kept (x :: l2) s s' -> Q tt s') ->
  wp (coalesce_next (baddr x)) C Q s.
Proof.
  intros Hg Ha Hh Hlx Hly HQ. destruct (in_two l1 l2 x y) as [Hx Hy]. destruct (neighbours s l1 x y l2 F Hg Hh) as (Eyx & Hox & Hoy & Hsum & Hmod).
  unfold coalesce_next. apply wp_bind, (wp_bnext _ s _ F x Hg Hh Hx). rewrite <- Eyx.
  apply wp_bind, (wp_bsize _ s _ F y Hg Hh Hy). cbv zeta. apply wp_bind.
  assert (heap_ok s ((l1 ++ [x]) ++ y :: l2) F) as Hh' by (by rewrite <- app_assoc).
  apply (wp_take _ _ s (l1 ++ [x]) y l2 F Hg Ha Hh' Hly). intros s1 F1 H1 M1 W1. rewrite <- !app_assoc in H1, M1. cbn [app] in H1, M1. set (y1 := set_blisted false y) in *.
  assert (pool_geo (geo s1)) as Hg1 by (by rewrite (moves_geo _ _ _ M1)). pose proof (moves_alive _ _ _ M1 Ha) as Ha1.
  destruct (in_two l1 l2 x y1) as [Hx1 Hy1]. apply wp_bind, (wp_bsize _ s1 _ F1 x Hg1 H1 Hx1). change (bsize y) with (bsize y1).
  apply wp_bind. apply (wp_join _ s1 l1 x y1 l2 F1); try done. intros s2 H2 M2 W2.
  assert (pool_geo (geo s2)) as Hg2 by (by rewrite (moves_geo _ _ _ M2)). pose proof (moves_alive _ _ _ M2 Ha1) as Ha2.
  change (join x y1) with (join x y) in *. set (z := join x y) in *. change (baddr x) with (baddr z).
  pose proof (in_split l1 l2 z) as Hz. destruct (block_facts s2 _ F1 Hg2 H2 z Hz) as (Hokz & _). destruct (block_reads s2 _ F1 H2 z Hz) as [Ez _].
  pose proof (spot_of s2 _ F1 z Hg2 H2 Hz) as Hspz.
  apply wp_bind. eapply (wp_clear_flags _ _ _ _ _ (blk_word (set_bprev false z))); try done.
  { rewrite Ez. by apply blk_word_unset_prev. }
  { apply blk_word_range. exact Hokz. }
  destruct (heap_set_flags s2 l1 z (set_bprev false z) l2 F1 Hg2 H2) as [H3 M3]; try done. set (s3 := set_mem _ s2) in *.
  assert (pool_geo (geo s3)) as Hg3 by done. assert (alive s3) as Ha3 by done. set (z3 := set_bprev false z) in *. change (baddr z) with (baddr z3).
  pose proof (in_split l1 l2 z3) as Hz3. destruct (block_reads s3 _ F1 H3 z3 Hz3) as [Ez3 _].
  apply wp_bind, (wp_bnext _ s3 _ F1 z3 Hg3 H3 Hz3). apply wp_bind, wp_gets.
  apply (wp_tell _ _ s3 z3 l2); try done; [by eapply followed_of| |].
  { intros w l' ->. apply (block_reads s3 _ F1 H3). apply in_two. }
  destruct (heap_tell_all s3 l1 z3 l2 F1 Hg3 H3) as [H4 M4]. apply (HQ _ F1); [exact H4|..].
  2:{ apply (heads_trans _ _ s1); [eapply heads_weaken; [|exact W1]; intros a Hin; by apply not_elem_of_nil in Hin|].
      apply (heads_trans _ _ s2); [eapply heads_weaken; [|exact W2]; intros a Hin; apply list_elem_of_singleton in Hin as ->; apply list_elem_of_here|].
      apply (heads_trans _ _ s3); [eapply heads_store; [reflexivity|apply Hspz|offs; lia|left; apply list_elem_of_here]|].
      eapply heads_weaken; [|eapply heads_tell; [reflexivity|]].
      - intros a Hin. by apply list_elem_of_further.
      - intros w Hw. apply (block_node s3 _ F1 Hg3 H3). apply in_mid. right. apply elem_of_app. by right. }
  apply (calm_trans _ _ s1); [apply moves_calm; eapply moves_weaken; [|exact M1]; intros w; apply in_use_rest|].
  apply (calm_trans _ _ s2); [apply moves_calm; eapply moves_weaken; [|exact M2]; by intros w [? _]|].
  apply (calm_trans _ _ s3); apply moves_calm; (eapply moves_weaken; [|eassumption]); intros w [Hw _]; apply in_mid; by right.
Qed.

(** The test and the merge, before what follows them in [free_release]. *)
Lemma wp_merge_next {A} (k : TM A) (Q : A -> tlsf -> Prop) s l1 x l2 F : pool_geo (geo s) -> alive s -> heap_ok s (l1 ++ x :: l2) F ->
  calm_list l2 -> blisted x = false ->
  (forall s' F' l3 x', let '(x2, l2') := merge_next x l2 in
     heap_ok s' (l1 ++ x' :: l3) F' -> set_bstale false x' = set_bstale false x2 -> flag_next true l3 = flag_next true l2' ->
     calm (in_use (l1 ++ l2')) s s' -> heads_kept (x2 :: l2') s s' -> wp k C Q s') ->
  wp (next ← block_next (baddr x);
      hend ← get_heap_end;
      fr ← (if next <? hend then block_is_free next else mret false);
      (if (fr : bool) then coalesce_next (baddr x) else mret tt) ;; k) C Q s.
Proof.
  intros Hg Ha Hh Hset Hl HQ. pose proof (in_split l1 l2 x) as Hx. 
  apply wp_bind, (wp_bnext _ s _ F x Hg Hh Hx). apply wp_bind, wp_gets. pose proof Hg as (_ & Ee & _). rewrite Ee.
  change (pool_start (geo s) + pool_size (geo s)) with (pool_end s).
  pose proof (followed_of s l1 x l2 F Hg Hh) as Hf. destruct l2 as [|y l2]; cbn in Hf.
  - rewrite (proj2 (Z.ltb_ge _ _)) by lia. apply wp_bind, wp_ret. apply wp_bind, wp_ret. by eapply (HQ s F [] x); [|done|done|apply calm_refl|apply heads_refl].
  - destruct Hf as (Ey & Hlt & Hsp & Hok). rewrite <- Ey, (proj2 (Z.ltb_lt _ _) Hlt). destruct (in_two l1 l2 x y) as [_ Hy].
    destruct (Hset y ltac:(apply list_elem_of_here)) as [Hly _].
    apply wp_bind, (wp_bfree _ s _ F y Hg Hh Hy). cbn [merge_next] in HQ. destruct (bfree y) eqn:Ef.
    + apply wp_bind. apply (wp_coalesce_next _ s l1 x y l2 F); try done. intros s' F' H1 K1 W1.
      eapply (HQ s' F' (flag_next true l2)); [exact H1|done| |exact K1|exact W1]. by destruct l2.
    + apply wp_bind, wp_ret. by eapply (HQ s F (y :: l2) x); [|done|done|apply calm_refl|apply heads_refl].
Qed.

Lemma wp_mark_free (Q : unit -> tlsf -> Prop) s l1 x l2 F : pool_geo (geo s) -> alive s -> heap_ok s (l1 ++ x :: l2) F -> blisted x = false ->
  (forall s', heap_ok s' (l1 ++ set_bfree true x :: l2) F -> moves (in_use (l1 ++ l2)) s s' -> heads_kept [x] s s' -> Q tt s') ->
  wp (mark_block_free (baddr x)) C Q s.
Proof.
  intros Hg Ha Hh Hl HQ. pose proof (in_split l1 l2 x) as Hx. destruct (block_facts s _ F Hg Hh x Hx) as (Hok & _). destruct (block_reads s _ F Hh x Hx) as [Ex _].
  pose proof (spot_of s _ F x Hg Hh Hx) as Hsp. pose proof Hok as [Hsz Hm].
  apply wp_bind. eapply (wp_or_flags _ _ _ _ _ (blk_word (set_bfree true x))); try done.
  { rewrite Ex. by apply blk_word_set_free. }
  { apply blk_word_range. exact Hok. }
  destruct (heap_set_flags s l1 x (set_bfree true x) l2 F Hg Hh) as [H1 M1]; try done. set (s1 := set_mem _ s) in *. set (x1 := set_bfree true x) in *.
  pose proof (in_split l1 l2 x1) as Hx1. destruct (block_reads s1 _ F H1 x1 Hx1) as [Ex1 _]. change (baddr x) with (baddr x1).
  apply wp_footer; try done.
  { replace (baddr x1 + bsize x1 - 64) with (baddr x1 + (bsize x1 - 64)) by lia. eapply spot_inside; try done; cbn; try lia. by apply mod64_sub. }
  replace (baddr x1 + bsize x1 - 8) with (baddr x1 + (bsize x1 - 8)) by lia.
  destruct (heap_word s1 _ F x1 (bsize x1 - 8) (bsize x1) Hg H1 Hx1 Hl) as [H2 M2]; cbn; offs; try lia.
  apply HQ; [exact H2| |].
  2:{ apply (heads_trans _ _ s1); [eapply heads_store; [reflexivity|apply Hsp|offs; lia|left; apply list_elem_of_here]|].
      apply (heads_store _ _ _ (baddr x1 + bsize x1 - 64) 56 (bsize x1)); [cbn [mem set_mem]; by replace (baddr x1 + bsize x1 - 64 + 56) with (baddr x1 + (bsize x1 - 8)) by lia| |lia|right; offs; lia].
      apply mod64_sub; [|done]. apply mod64_add; [apply Hsp|exact Hm]. }
  eapply moves_trans; (eapply moves_weaken; [|eassumption]); intros z [Hz _]; [apply in_mid; by right|].
  split; [apply in_mid; by right|]. intros ->. by apply (rest_apart s1 l1 x1 l2 F x1 Hg H1 Hz).
Qed.

(** What a release changes. *)
Record given_back (P : blk -> Prop) (s s' : tlsf) (x : blk) : Prop := GivenBack {
  gb_used : rdm (mem s') (used_addr s) = u64 (rdm (mem s) (used_addr s) - (bsize x - HEADER_SIZE));
  gb_outside : forall a, a < heap_start (geo s) -> a <> used_addr s -> rdm (mem s') a = rdm (mem s) a;
  gb_kept : forall y, P y -> kept y (mem s) (mem s') }.

Lemma merge_prev_uses l1 l2 x z : calm_list l1 -> in_use (l1 ++ l2) z -> in_use ((merge_prev l1 x).1 ++ l2) z.
Proof.
  intros Hset [Hz Hl]. split; [|done]. destruct l1 as [|p l1 _] using rev_ind; [done|]. rewrite merge_prev_snoc.
  destruct (bprev x && bfree p) eqn:E; [|done]. cbn. apply andb_true_iff in E as [_ E].
  destruct (Hset p) as [Hp _]; [apply elem_of_app; right; apply list_elem_of_here|]. rewrite !elem_of_app, list_elem_of_singleton in Hz.
  rewrite elem_of_app. destruct Hz as [[Hz| ->]|Hz]; [by left|congruence|by right].
Qed.
Lemma merge_next_uses l1 l2 x z : calm_list l2 -> in_use (l1 ++ l2) z -> in_use (l1 ++ (merge_next x l2).2) z.
Proof.
  intros Hset [Hz Hl]. split; [|done]. destruct l2 as [|y l2]; [done|]. cbn. destruct (bfree y) eqn:E; [|done]. cbn.
  destruct (Hset y) as [Hy _]; [apply list_elem_of_here|]. rewrite elem_of_app, elem_of_cons in Hz. rewrite elem_of_app.
  destruct Hz as [Hz|[->|Hz]]; [by left|congruence|by right].
Qed.

(** From [mark_block_free] to the end of [free_release]. *)
Lemma wp_relist (Q : bool -> tlsf -> Prop) s l1 x l2 F : pool_geo (geo s) -> alive s -> heap_ok s (l1 ++ x :: l2) F -> blisted x = false ->
  0 <= stack_top (txn s) < 32 ->
  (forall s' F', heap_ok s' (l1 ++ Blk (baddr x) (bsize x) true (bprev x) true false :: flag_next true l2) F' ->
     steps (in_use (l1 ++ l2)) s s' -> heads_kept (x :: l2) s s' -> Q true s') ->
  wp (mark_block_free (baddr x) ;;
      msz ← block_size (baddr x);
      let fl := mapping_first_level msz in
      msz ← block_size (baddr x);
      let sl := mapping_second_level msz fl in
      insert_into_free_list (baddr x) fl sl ;;
      malloc_fix_next (baddr x) true) C Q s.
Proof.
  intros Hg Ha Hh Hl Ht HQ. apply wp_bind. apply (wp_mark_free _ s l1 x l2 F Hg Ha Hh Hl). intros s1 H1 M1 W1. set (x1 := set_bfree true x) in *.
  assert (pool_geo (geo s1)) as Hg1 by (by rewrite (moves_geo _ _ _ M1)). pose proof (moves_alive _ _ _ M1 Ha) as Ha1.
  pose proof (in_split l1 l2 x1) as Hx1. change (baddr x) with (baddr x1). do 2 (apply wp_bind, (wp_bsize _ s1 _ F x1 Hg1 H1 Hx1)). cbv zeta.
  apply wp_bind. apply (wp_list _ _ s1 l1 x1 l2 F Hg1 Ha1 H1 Hl). intros s2 F2 H2 M2 W2. set (x2 := set_blisted true x1) in *.
  assert (pool_geo (geo s2)) as Hg2 by (by rewrite (moves_geo _ _ _ M2)). pose proof (moves_alive _ _ _ M2 Ha1) as Ha2. change (baddr x1) with (baddr x2).
  apply (wp_fix_next _ s2 F2 Hg2 Ha2 _ l1 x2 l2 true H2); [destruct M1 as (_ & E & _), M2 as (_ & -> & _); by rewrite E|].
  intros s3 H3 S3 _ W3. apply (HQ s3 F2); [exact H3|..].
  2:{ apply (heads_trans _ _ s1); [eapply heads_weaken; [|exact W1]; intros a Hin; apply list_elem_of_singleton in Hin as ->; apply list_elem_of_here|].
      apply (heads_trans _ _ s2); (eapply heads_weaken; [|eassumption]); intros a Hin; [by apply not_elem_of_nil in Hin|by apply list_elem_of_further]. }
  eapply steps_trans; [apply (moves_steps _ _ _ M1)|]. eapply steps_trans; [apply (moves_steps _ _ _ M2)|].
  eapply steps_weaken; [|exact S3]. intros z [Hz _]. apply in_mid. by right.
Qed.

Lemma in_use_flags l1 l3 l2 w : flag_next true l3 = flag_next true l2 -> in_use (l1 ++ l2) w ->
  exists z, in_use (l1 ++ l3) z /\ baddr z = baddr w /\ bsize z = bsize w.
Proof.
  intros E [Hw Hl]. apply elem_of_app in Hw as [Hw|Hw]; [exists w; split; [split; [apply elem_of_app; by left|done]|done]|].
  destruct l2 as [|u l2]; [by apply not_elem_of_nil in Hw|]. destruct l3 as [|v l3]; [done|]. unfold flag_next, set_bprev in E.
  injection E as Ea Es Ef Eli Est ->. apply elem_of_cons in Hw as [->|Hw].
  - exists v. split; [split; [apply elem_of_app; right; apply list_elem_of_here|congruence]|done].
  - exists w. split; [split; [apply elem_of_app; right; by apply list_elem_of_further|done]|done].
Qed.

Lemma starts_flag v l : baddr <$> flag_next v l = baddr <$> l.
Proof. by destruct l. Qed.
Lemma give_back_eq l1 x l2 x' l3 l1' : l1' = (merge_prev l1 x).1 ->
  set_bstale false x' = set_bstale false (merge_next (merge_prev l1 x).2 l2).1 -> flag_next true l3 = flag_next true (merge_next (merge_prev l1 x).2 l2).2 ->
  l1' ++ Blk (baddr x') (bsize x') true (bprev x') true false :: flag_next true l3 = give_back l1 x l2.
Proof.
  intros -> Ex El. unfold give_back. destruct (merge_prev l1 x) as [m1 y]. cbn in *. destruct (merge_next y l2) as [z m2]. cbn in *.
  rewrite El. unfold set_bstale in Ex. by injection Ex as -> -> _ -> _.
Qed.

Lemma wp_free_release (Q : bool -> tlsf -> Prop) s l1 x l2 F : pool_geo (geo s) -> alive s -> heap_ok s (l1 ++ x :: l2) F ->
  calm_list l1 -> calm_list l2 -> blisted x = false -> 0 <= stack_top (txn s) < 24 ->
  (forall s' F', heap_ok s' (give_back l1 x l2) F' -> given_back (in_use (l1 ++ l2)) s s' x -> heads_stay (give_back l1 x l2) s s' ->
     geo s' = geo s -> mutex s' = mutex s -> self (thr s') = self (thr s) -> alive s' -> Q true s') ->
  wp (free_release (baddr x)) C Q s.
Proof.
  intros Hg Ha Hh Hs1 Hs2 Hl Ht HQ. pose proof (in_split l1 l2 x) as Hx. destruct (block_facts s _ F Hg Hh x Hx) as ([Hsz _] & _).
  destruct (used_before s _ F x Hg Hh Hx) as (U1 & U2 & U3). set (ua := used_addr s) in *.
  unfold free_release. apply wp_bind, (wp_bpayload _ s _ F x Hg Hh Hx).
  apply wp_ensure. apply wp_bind, wp_gets. fold ua. apply wp_push_alive; [done|done|unfold MAX_BUL_ENTRIES; lia|]. intros t Et.
  apply wp_bind. apply wp_bind, wp_gets. change (used_addr (set_txn t s)) with ua. apply wp_load; [done|].
  apply wp_bind. apply wp_bind, wp_gets. change (used_addr (set_txn t s)) with ua. apply wp_store_alive; [done|done|apply u64_range|].
  set (used := u64 _). destruct (heap_before s _ F ua used Hg Hh U1 (u64_range _)) as [H1' K1]. set (s1 := set_mem _ (set_txn t s)).
  assert (heap_ok s1 (l1 ++ x :: l2) F) as H1 by (eapply heap_ok_same; [..|exact H1']; done). clear H1'.
  assert (pool_geo (geo s1) /\ alive s1) as [Hg1 Ha1] by done.
  apply wp_bind. apply (wp_coalesce_prev _ s1 l1 x l2 F); try done. intros s2 F2.
  pose proof (merge_prev_uses l1 l2 x) as U. pose proof (give_back_eq l1 x l2) as Egb.
  assert (calm_list (merge_prev l1 x).1 /\ blisted (merge_prev l1 x).2 = false) as [_ Hl2].
  { destruct l1 as [|p l1 _] using rev_ind; [done|]. rewrite merge_prev_snoc. destruct (_ && _); [|done]. split; [|done]. intros y Hy. apply Hs1, elem_of_app. by left. }
  destruct (merge_prev l1 x) as [m1 y]. cbn [fst snd] in *. intros H2 K2 W2.
  assert (pool_geo (geo s2) /\ alive s2) as [Hg2 Ha2]. { destruct K2 as (-> & _ & _ & L & _). auto. }
  apply (wp_merge_next _ _ s2 m1 y l2 F2); try done. intros s3 F3 l3 z.
  pose proof (merge_next_uses m1 l2 y) as U'. assert (blisted (merge_next y l2).1 = false) as Hl3 by (destruct l2 as [|w l2]; cbn; [done|]; by destruct (bfree w)).
  assert (baddr (merge_next y l2).1 = baddr y) as Ead by (destruct l2 as [|w l2]; cbn; [done|]; by destruct (bfree w)).
  destruct (merge_next y l2) as [y2 m2]. cbn [fst snd] in *. intros H3 Ez El3 K3 W3.
  assert (pool_geo (geo s3) /\ alive s3) as [Hg3 Ha3]. { destruct K3 as (-> & _ & _ & L & _). auto. }
  assert (baddr z = baddr y /\ blisted z = false) as [Eaz Hlz].
  { unfold set_bstale in Ez. injection Ez as -> _ _ _ ->. done. }
  rewrite <- Eaz. apply (wp_relist _ s3 m1 z l3 F3); try done; [destruct K2 as (_ & _ & _ & _ & E2 & _), K3 as (_ & _ & _ & _ & -> & _); rewrite E2; cbn; lia|].
  intros s4 F4 H4 S4 W4. rewrite (Egb z l3 m1) in H4 by done.
  destruct K2 as (G2 & X2 & T2 & L2 & _ & A2 & K2), K3 as (G3 & X3 & T3 & L3 & _ & A3 & K3), S4 as ((G4 & X4 & T4 & A4) & K4).
  assert (geo s4 = geo s) as G by (rewrite G4, G3, G2; done). change (heap_start (geo s1)) with (heap_start (geo s)) in A2.
  rewrite G3, G2 in A4. rewrite G2 in A3. change (heap_start (geo s1)) with (heap_start (geo s)) in A3, A4.
  apply (HQ s4 F4); [exact H4| | |done|rewrite X4, X3, X2; done|rewrite T4, T3, T2; done|unfold alive in *; by rewrite T4].
  2:{ rewrite <- (Egb z l3 m1) by done. intros a o Hst Hal Ho Hn. rewrite fmap_app, fmap_cons, starts_flag in Hn. cbn [baddr] in Hn.
      assert (baddr <$> m2 = baddr <$> l3) as Em by (rewrite <- (starts_flag true m2), <- (starts_flag true l3); by rewrite El3).
      rewrite elem_of_app, elem_of_cons in Hn. rewrite W4, W3, W2; try done; rewrite ?fmap_cons, ?elem_of_cons, ?Ead, ?Em, <- ?Eaz.
      - cbn [mem s1 set_mem]. apply rdm_insert_ne. unfold OFF_size_flags, OFF_sig_dc in Ho. lia.
      - intros [?|Hbad]; [tauto|by apply not_elem_of_nil in Hbad].
      - tauto.
      - tauto. }
  split.
  - fold ua. rewrite A4, A3, A2 by done. cbn [mem s1 set_mem]. by rewrite rdm_insert_eq.
  - intros a Hlt Hne. fold ua in Hne. rewrite A4, A3, A2 by done. cbn [mem s1 set_mem]. by rewrite rdm_insert_ne.
  - intros w Hw. eapply kept_trans; [apply (K1 w); destruct Hw as [Hw _]; apply in_mid; by right|].
    eapply kept_trans; [by apply K2, U|]. eapply kept_trans; [by apply K3, U', U|].
    destruct (in_use_flags m1 l3 m2 w El3 (U' w Hs2 (U w Hs1 Hw))) as (v & Hv & Ea & Es). specialize (K4 v Hv). unfold kept in *. by rewrite <- Ea, <- Es.
Qed.
End free_parts.
