(* ===== verification/TlsfPool.v ===== *)
(** The pool as its users see it: [tlsf_create] makes a heap of one free block,
    [tlsf_malloc] cuts a block out of it and [tlsf_free] gives it back; the heap stays
    tiled by its blocks, and the free ones are those in the lists. *)
From S2P Require Import Prelude Machine TlsfTypes TlsfBul TlsfHeap TlsfAlloc TlsfApi TlsfFacts TlsfHoare TlsfTxn TlsfOwners TlsfOwnership TlsfSpec TlsfLists TlsfTiling TlsfBlocks TlsfMalloc TlsfFree.

Definition never (s : tlsf) : Prop := False.
Lemma wp_never {A} (m : TM A) Q s : wp m never Q s -> exists a s', m s = Ret a s' /\ Q a s'.
Proof. unfold wp. destruct (m s) as [a s'| | |]; try done. by exists a, s'. Qed.
Lemma never_dies C s : alive s -> dies s -> C.
Proof. unfold alive. congruence. Qed.

(** Taking the lock of a quiet pool, by a thread that lives. *)
Lemma wp_enter (Q : Z -> tlsf -> Prop) s : quiet s -> alive s ->
  (forall s', geo s' = geo s -> idx s' = idx s -> mem s' = mem s -> self (thr s') = self (thr s) -> alive s' -> stack_top (txn s') = 0 ->
     mutex s' = Mutex (self (thr s)) 1 false false -> Q Err.OK s') ->
  wp lock_and_recover never Q s.
Proof.
  intros Hq Ha HQ. apply wp_locked; [done|..].
  - intros s' (_ & _ & _ & H) _ _. apply never_dies. by apply H.
  - intros s' (? & ? & ? & H) _ ? ? ?. apply HQ; try done. by apply H.
Qed.
Lemma wp_leave {A} (r : A) (Q : A -> tlsf -> Prop) s : alive s -> mutex s = Mutex (self (thr s)) 1 false false ->
  Q r (set_mutex mutex_free s) -> wp (unlock_ret r) never Q s.
Proof. intros Ha Hm HQ. apply wp_unlock_ret; [done|by apply never_dies|]. by rewrite life_None_ticked. Qed.
Lemma wp_commit_alive (Q : unit -> tlsf -> Prop) s : alive s ->
  (forall t, stack_top t = 0 -> Q tt (set_txn t s)) -> wp bul_commit never Q s.
Proof.
  intros Ha HQ. apply wp_bind, wp_upd_txn; [by apply never_dies|]. rewrite life_None_ticked by done.
  apply wp_upd_txn; [by apply never_dies|]. rewrite life_None_ticked by done. by apply HQ.
Qed.

Lemma carve_settled l1 x l2 total : settled_heap (l1 ++ x :: l2) -> settled_heap (l1 ++ carve x total l2).
Proof.
  intros H. assert (forall v, settled_heap (flag_next v l2)) as Hf.
  { intros v y Hy. destruct l2 as [|z l2]; [by apply not_elem_of_nil in Hy|]. apply elem_of_cons in Hy as [->|Hy].
    - change (blisted z = bfree z /\ bstale z = false). apply H. rewrite elem_of_app, !elem_of_cons. tauto.
    - apply H. rewrite elem_of_app, !elem_of_cons. tauto. }
  intros y Hy. apply elem_of_app in Hy as [Hy|Hy]; [apply H, elem_of_app; by left|]. unfold carve in Hy. destruct (_ <=? _).
  - apply elem_of_cons in Hy as [->|Hy]; [done|]. apply elem_of_cons in Hy as [->|Hy]; [done|]. by eapply Hf.
  - apply elem_of_cons in Hy as [->|Hy]; [done|]. by eapply Hf.
Qed.

(** The heap of a pool at rest. *)
Definition pool_ok (s : tlsf) (bs : list blk) : Prop := 
  quiet s /\ alive s /\ pool_geo (geo s) /\ settled_heap bs /\ exists F, heap_ok s bs F.

Lemma pool_ok_after s0 s bs0 bs F : pool_ok s0 bs0 -> geo s = geo s0 -> self (thr s) = self (thr s0) -> alive s -> stack_top (txn s) = 0 ->
  settled_heap bs -> heap_ok s bs F -> pool_ok (set_mutex mutex_free s) bs.
Proof.
  intros ((Q1 & _ & _ & _ & Q5) & _ & Hg & _) Eg Es Ha Ht Hset Hh. unfold pool_ok, quiet. cbn. rewrite Eg, Es.
  assert (heap_ok (set_mutex mutex_free s) bs F) by (eapply heap_ok_same; [..|exact Hh]; done).
  split; [split_and!; try done; apply Hh|]. do 3 (split; [done|]). by exists F.
Qed.

Lemma tlsf_malloc_run s bs h size uid data_type : pool_ok s bs -> h <> 0 -> 0 < uid < 2 ^ 16 -> 0 < size <= 2 ^ 64 - 128 ->
  let total := request_to_block_size size in
  (forall y, y ∈ bs -> bfree y = true -> class_of y = mapping_search total -> total <= bsize y) ->
  (exists s', tlsf_malloc h size uid data_type s = Ret NULL s' /\ pool_ok s' bs /\ mem s' = mem s /\ idx s' = idx s /\ geo s' = geo s /\
     forall y, y ∈ bs -> bfree y = true -> class_lt (class_of y) (mapping_search total)) \/
  (exists l1 x l2 s', tlsf_malloc h size uid data_type s = Ret (baddr x + HEADER_SIZE) s' /\
     bs = l1 ++ x :: l2 /\ fits (mapping_search total) bs x /\ total <= bsize x /\
     pool_ok s' (l1 ++ carve x total l2) /\ geo s' = geo s /\ handed_out (in_use (l1 ++ l2)) s s' (carved x total) uid data_type).
Proof.
  intros Hp Hnz Hu Hs total Hexact. pose proof Hp as (Hq & Ha & Hg & Hset & F & Hh).
  cut (wp (tlsf_malloc h size uid data_type) never (fun r s' =>
    (r = NULL /\ pool_ok s' bs /\ mem s' = mem s /\ idx s' = idx s /\ geo s' = geo s /\
       forall y, y ∈ bs -> bfree y = true -> class_lt (class_of y) (mapping_search total)) \/
    (exists l1 x l2, r = baddr x + HEADER_SIZE /\ bs = l1 ++ x :: l2 /\ fits (mapping_search total) bs x /\ total <= bsize x /\
       pool_ok s' (l1 ++ carve x total l2) /\ geo s' = geo s /\ handed_out (in_use (l1 ++ l2)) s s' (carved x total) uid data_type)) s).
  { intros H. apply wp_never in H as (r & s' & E & [(-> & H)|(l1 & x & l2 & -> & H)]); [left; by exists s'|right; by exists l1, x, l2, s']. }
  unfold tlsf_malloc. rewrite !(proj2 (Z.eqb_neq _ _)) by lia. apply wp_bind, wp_enter; [done|done|].
  intros s1 Eg Ei Em Es Ha1 Ht1 Emx. cbn [negb]. change (Err.OK =? Err.OK) with true. cbn [negb].
  apply wp_bind. apply (wp_malloc_internal _ _ s1 bs F); try done; [by rewrite Eg|eapply heap_ok_same; [..|exact Hh]; done| |].
  - intros Hnone. change (negb (NULL =? NULL)) with false. cbn match. apply wp_bind, wp_ret. apply wp_leave; [done|cbn; congruence|].
    left. split; [done|]. split; [|done]. eapply (pool_ok_after s); try done. eapply heap_ok_same; [..|exact Hh]; done.
  - intros l1 x l2 s2 F2 Ebs Hfit Hle H2 (R1 & R2 & R3) HO _. fold total in Hfit, Hle, H2, HO.
    assert (x ∈ bs) as Hx by (rewrite Ebs; apply in_split). destruct (block_facts s bs F Hg Hh x Hx) as (_ & [_ Hpos] & _).
    rewrite (proj2 (Z.eqb_neq _ _)) by (unfold HEADER_SIZE; lia). cbn [negb].
    assert (alive s2) as Ha2 by (unfold alive; by rewrite R3).
    apply wp_bind, wp_commit_alive; [done|]. intros t Et. apply wp_leave; [done|cbn; by rewrite R2, R3, Es|].
    right. exists l1, x, l2. do 4 (split; [done|]). split.
    + eapply (pool_ok_after s); [done|cbn; congruence|cbn; by rewrite R3|done|done| |eapply heap_ok_same; [..|exact H2]; done].
      apply carve_settled. by rewrite <- Ebs.
    + split; [cbn; congruence|]. destruct HO as [O1 O2 O3 O4 O5]. assert (used_addr s1 = used_addr s) as Eu by (unfold used_addr; by rewrite Eg).
      by rewrite Eu, Eg, Em in *.
Qed.

(** ** Release *)

Lemma settled_parts l1 x l2 : settled_heap (l1 ++ x :: l2) -> calm_list l1 /\ calm_list l2 /\ blisted x = bfree x /\ bstale x = false.
Proof.
  intros H. split; [|split]; [intros y Hy; apply H..|apply H]; rewrite elem_of_app, elem_of_cons; tauto.
Qed.
Lemma calm_flag v l : calm_list l -> calm_list (flag_next v l).
Proof.
  intros H y Hy. destruct l as [|z l]; [by apply not_elem_of_nil in Hy|]. apply elem_of_cons in Hy as [->|Hy].
  - change (blisted z = bfree z /\ bstale z = false). apply H, list_elem_of_here.
  - by apply H, list_elem_of_further.
Qed.
Lemma settled_build l1 x l2 : calm_list l1 -> calm_list l2 -> blisted x = bfree x -> bstale x = false -> settled_heap (l1 ++ x :: l2).
Proof. intros H1 H2 Hx Hs y Hy. rewrite elem_of_app, elem_of_cons in Hy. destruct Hy as [Hy|[->|Hy]]; auto. Qed.
Lemma give_back_settled l1 x l2 : settled_heap (l1 ++ x :: l2) -> settled_heap (give_back l1 x l2).
Proof.
  intros H. apply settled_parts in H as (H1 & H2 & _). unfold give_back.
  assert (calm_list (merge_prev l1 x).1) as M1.
  { destruct l1 as [|p l1 _] using rev_ind; [done|]. rewrite merge_prev_snoc. destruct (_ && _); [|done]. intros y Hy. apply H1, elem_of_app. by left. }
  destruct (merge_prev l1 x) as [m1 y]. assert (calm_list (merge_next y l2).2) as M2.
  { destruct l2 as [|z l2]; [done|]. cbn. destruct (bfree z); [|done]. intros w Hw. by apply H2, list_elem_of_further. }
  destruct (merge_next y l2) as [z m2]. by apply settled_build; [|apply calm_flag|..].
Qed.

(** Holding the lock between two operations on the heap. *)
Definition held (s0 s : tlsf) : Prop := geo s = geo s0 /\ mutex s = mutex s0 /\ self (thr s) = self (thr s0) /\ alive s.

(** [uid_remove] by a thread that lives, inside a transaction. *)
Lemma wp_uid_remove_alive C b uid n : forall i (Q : bool -> tlsf -> Prop) s,
  geo_ok (geo s) -> header_in s b -> alive s -> mem_ok (mem s) ->
  0 <= i -> i + Z.of_nat n = 12 -> 0 <= stack_top (txn s) -> stack_top (txn s) + Z.of_nat n < MAX_BUL_ENTRIES ->
  (forall s', frame s s' -> mem_ok (mem s') ->
     uids (mem s') b = take (Z.to_nat i) (uids (mem s) b) ++ drop_owner uid (drop (Z.to_nat i) (uids (mem s) b)) ->
     same_but_owners b (mem s) (mem s') -> 0 <= stack_top (txn s') <= stack_top (txn s) + Z.of_nat n -> Q true s') ->
  wp (uid_remove_loop n i b uid) C Q s.
Proof.
  induction n as [|n IH]; intros i Q s Hg Hh Ha Hm Hi0 Hn Ht0 Htop HQ; cbn [uid_remove_loop].
  - apply wp_ret, HQ; try done; try lia. rewrite drop_ge by (rewrite uids_length; lia). cbn. rewrite app_nil_r, take_ge; [done|rewrite uids_length; lia].
  - unfold MAX_BUL_ENTRIES in *. apply wp_bind, wp_uid_get; [done..|lia|]. pose proof (uids_lookup (mem s) b i ltac:(lia)) as Hlk.
    assert (drop (Z.to_nat i) (uids (mem s) b) = uid_at (mem s) b i :: drop (Z.to_nat (i + 1)) (uids (mem s) b)) as Ed.
    { erewrite drop_S by done. do 2 f_equal. lia. }
    rewrite Ed in HQ. change (drop_owner uid (?u :: ?l)) with ((if u =? uid then 0 else u) :: drop_owner uid l) in HQ.
    destruct (Z.eqb_spec (uid_at (mem s) b i) uid) as [Eu|Eu].
    + destruct (uid_word_addr_eq s b i) as [Ew Hmap]; [done..|lia|].
      apply wp_ensure. unfold bul_push_uid_word. replace (u64 (b + (32 + i / 4 * 8))) with (uid_word b i) by exact (eq_sym Ew).
      apply wp_push_alive; [done|done|unfold MAX_BUL_ENTRIES; lia|]. intros t Et. apply wp_bind. unfold uid_set.
      rewrite Ew. apply wp_bind, wp_load; [done|].
      apply wp_store_alive; [done|done|by apply uid_slot_set_range; [apply Hm|lia]|].
      change (<[uid_word b i := uid_slot_set (rd (set_txn t s) (uid_word b i)) i 0]> (mem (set_txn t s))) with (mem_uid_set (mem s) b i 0).
      pose proof (uids_set (mem s) b i 0 Hm ltac:(lia)) as Eus.
      apply IH; cbn [txn set_txn set_mem mem geo]; try done; try lia.
      { apply mem_ok_put; [done|]. apply uid_slot_set_range; [apply Hm|lia]. }
      intros s' Hf' Hm' Hu' Hs' Ht'. apply HQ; try done; try lia.
      * rewrite Hu', Eus. change (u16 0) with 0. rewrite drop_insert_lt by lia. replace (Z.to_nat (i + 1)) with (S (Z.to_nat i)) by lia.
        erewrite take_S_r by (apply list_lookup_insert_eq; rewrite uids_length; lia). rewrite take_insert_ge by lia. by rewrite <- app_assoc.
      * eapply same_but_owners_trans; [|exact Hs']. apply same_but_owners_set. lia.
    + apply IH; try done; try lia. intros s' Hf' Hm' Hu' Hs' Ht'. apply HQ; try done; try lia. rewrite Hu'.
      replace (Z.to_nat (i + 1)) with (S (Z.to_nat i)) by lia. erewrite take_S_r by done. by rewrite <- app_assoc.
Qed.

Lemma wp_free_internal (Q : bool -> tlsf -> Prop) s l1 x l2 F uid : pool_geo (geo s) -> alive s -> heap_ok s (l1 ++ x :: l2) F ->
  settled_heap (l1 ++ x :: l2) -> bfree x = false -> 0 <= stack_top (txn s) <= 8 -> uid ∈ uids (mem s) (baddr x) ->
  (forall s', held s s' -> owners (drop_owner uid (uids (mem s) (baddr x))) <> [] -> heap_ok s' (l1 ++ x :: l2) F ->
     uids (mem s') (baddr x) = drop_owner uid (uids (mem s) (baddr x)) -> same_but_owners (baddr x) (mem s) (mem s') -> Q true s') ->
  (forall s' F', held s s' -> owners (drop_owner uid (uids (mem s) (baddr x))) = [] -> heap_ok s' (give_back l1 x l2) F' ->
     given_back (in_use (l1 ++ l2)) s s' x -> heads_stay (give_back l1 x l2) s s' -> Q true s') ->
  wp (tlsf_free_internal (baddr x + HEADER_SIZE) uid) never Q s.
Proof.
  intros Hg Ha Hh Hset Hf Ht Hin HQ1 HQ2. apply settled_parts in Hset as (Hs1 & Hs2 & Hl & _). rewrite Hf in Hl. pose proof (in_split l1 l2 x) as Hx.
  destruct (block_facts s _ F Hg Hh x Hx) as ([Hsz _] & [_ Hpos] & Hhd & _). pose proof (proj1 Hg) as Hgo.
  destruct (block_of_ptr s (baddr x)) as [Eb Enz]; [done|done|lia|]. destruct (block_reads s _ F Hh x Hx) as [_ Esig].
  unfold tlsf_free_internal. rewrite (proj2 (Z.eqb_neq _ _)) by done. rewrite Eb. cbv zeta.
  apply wp_bind, wp_validate_block; [done|done|]. unfold rd. rewrite Esig. cbn [negb].
  apply wp_bind, (wp_bfree _ s _ F x Hg Hh Hx). rewrite Hf. apply wp_bind, wp_uid_find; [done|done|].
  pose proof Hin as Hi. apply find_index_elem in Hi. rewrite (proj2 (Z.ltb_ge _ _)) by done.
  apply wp_ensure, (wp_uid_remove_alive _ _ _ 12 0); [done|done|done|apply Hh|lia|lia|lia|unfold MAX_BUL_ENTRIES; lia|].
  intros s2 (G2 & I2 & X2 & T2 & L2) Hm2 Hu2 Hsame Ht2. change (uids (mem s2) (baddr x) = drop_owner uid (uids (mem s) (baddr x))) in Hu2. cbn match. specialize (L2 Ha).
  assert (header_in s2 (baddr x)) as Hhd2 by (by eapply header_in_frame).
  destruct (heap_inside s _ F x (mem s2) Hg Hh Hx Hl) as [H2' (_ & _ & K2)]; [done| | |].
  { intros q Hqq. apply Hsame. offs. lia. }
  { by rewrite Hsame by (offs; lia). }
  assert (heap_ok s2 (l1 ++ x :: l2) F) as H2 by (eapply heap_ok_same; [..|exact H2']; done).
  apply wp_bind, wp_uid_count; [by rewrite G2|done|]. rewrite Hu2. fold (owners (drop_owner uid (uids (mem s) (baddr x)))).
  destruct (owners _) as [|o os] eqn:Eo; cbn [length]; [|apply wp_ret; by apply HQ1].
  assert (pool_geo (geo s2)) as Hg2 by (by rewrite G2).
  apply (wp_free_release _ _ s2 l1 x l2 F); try done; [lia|].
  intros s3 F3 H3 [O1 O2 O3] W3 G3 X3 T3 L3. apply (HQ2 s3 F3); [by split_and!; congruence|done|done| |].
  2:{ intros a o Hst Hal Ho Hn. rewrite W3, Hsame; try done; [|by rewrite G2]. pose proof (block_node s _ F Hg Hh x Hx) as [Hbal _].
      pose proof (Z.div_mod a 64). pose proof (Z.div_mod (baddr x) 64). offs. lia. }
  assert (used_addr s2 = used_addr s /\ used_addr s < heap_start (geo s)) as [Eu Hlt].
  { unfold used_addr, USED_BYTES_OFF. rewrite G2. destruct Hg as [(_ & _ & _ & ? & _) _]. unfold SIZEOF_TLSF_CTRL in *. split; [done|lia]. }
  rewrite G2, Eu in *. destruct (block_facts s _ F Hg Hh x Hx) as (_ & _ & _ & Hst & _). split.
  - rewrite O1, Hsame by (offs; lia). done.
  - intros a Hla Hne. by rewrite O2, Hsame by (done || offs; lia).
  - intros y Hy. eapply kept_trans; [|by apply O3]. apply K2. split; [apply in_mid; right; apply Hy|].
    intros ->. by apply (rest_apart s l1 x l2 F x Hg Hh (proj1 Hy)).
Qed.

Lemma tlsf_free_run s l1 x l2 h uid : pool_ok s (l1 ++ x :: l2) -> bfree x = false -> h <> 0 -> uid <> 0 ->
  uid ∈ uids (mem s) (baddr x) -> owners (drop_owner uid (uids (mem s) (baddr x))) = [] ->
  exists s', tlsf_free h (baddr x + HEADER_SIZE) uid s = Ret tt s' /\
    pool_ok s' (give_back l1 x l2) /\ geo s' = geo s /\ given_back (in_use (l1 ++ l2)) s s' x.
Proof.
  intros Hp Hf Hnz Hu Hin Hlast. pose proof Hp as (Hq & Ha & Hg & Hset & F & Hh). pose proof (in_split l1 l2 x) as Hx.
  cut (wp (tlsf_free h (baddr x + HEADER_SIZE) uid) never (fun r s' => pool_ok s' (give_back l1 x l2) /\ geo s' = geo s /\ given_back (in_use (l1 ++ l2)) s s' x) s).
  { intros H. apply wp_never in H as ([] & s' & E & H). by exists s'. }
  destruct (block_facts s _ F Hg Hh x Hx) as (_ & [_ Hpos] & _).
  unfold tlsf_free. rewrite (proj2 (Z.eqb_neq h _)), (proj2 (Z.eqb_neq (_ + _) _)), (proj2 (Z.eqb_neq uid _)) by (done || unfold HEADER_SIZE; lia).
  cbn [orb]. apply wp_bind, wp_enter; [done|done|].
  intros s1 Eg Ei Em Es Ha1 Ht1 Emx. change (Err.OK =? Err.OK) with true. cbn [negb].
  assert (heap_ok s1 (l1 ++ x :: l2) F) as H1 by (eapply heap_ok_same; [..|exact Hh]; done).
  apply wp_bind, (wp_free_internal _ s1 l1 x l2 F); try done; [by rewrite Eg|lia|by rewrite Em|intros s' _ Ho; by rewrite Em in Ho|].
  intros s3 F3 (G3 & X3 & T3 & L3) _ H3 HG _. apply wp_bind, wp_commit_alive; [done|]. intros t Et.
  apply wp_leave; [done|cbn; by rewrite X3, T3, Es|]. split; [|split; [cbn; congruence|]].
  - eapply (pool_ok_after s); [done|cbn; congruence|cbn; congruence|done|done|by apply give_back_settled|eapply heap_ok_same; [..|exact H3]; done].
  - destruct HG as [O1 O2 O3]. assert (used_addr s1 = used_addr s) as Eu by (unfold used_addr; by rewrite Eg). by rewrite Eu, Eg, Em in *.
Qed.

(** ** Creation *)

Lemma align_down_64 v : 0 <= v < 2 ^ 64 -> v mod 64 = 0 -> Z.land v (not64 (ALIGN_SIZE - 1)) = v.
Proof.
  intros Hv Hm. change (ALIGN_SIZE - 1) with (2 ^ 6 - 1). bit_intro i. destruct (Z.ltb_spec i 64); [|by rewrite (testbit_high 64 v) by lia].
  destruct (Z.ltb_spec i 6); [|by rewrite xorb_false_l, andb_true_r].
  replace v with (v / 2 ^ 6 * 2 ^ 6) by (change (2 ^ 6) with 64; pose proof (Z.div_mod v 64); lia). rewrite Z.mul_pow2_bits_low by lia. done.
Qed.

Lemma index_empty : index_ok (Index ∅ 0 ∅) (fun _ => []).
Proof.
  split; unfold matrix_at, sl_bitmap_at; cbn; intros; rewrite ?lookup_empty; cbn; try done.
  - by rewrite Z.bits_0.
  - by rewrite Z.bits_0.
Qed.

Lemma wp_upd {A} (k : TM A) f Q s : wp k never Q (f s) -> wp (modify f ;; k) never Q s.
Proof. done. Qed.

(** The header of the first block is written and the block listed. *)
Definition fresh_mem (x : blk) : gmap Z Z :=
  let m : gmap Z Z := <[baddr x + OFF_size_flags := blk_word x]> ∅ in
  let m := <[baddr x + OFF_sig_dc := make_sig_dc false 0]> m in
  let m := <[baddr x + OFF_prev_free := 0]> m in
  let m := <[baddr x + OFF_next_free := 0]> m in
  let m := <[baddr x + (OFF_uid + 16) := 0]> (<[baddr x + (OFF_uid + 8) := 0]> (<[baddr x + OFF_uid := 0]> m)) in
  let m := <[baddr x + OFF_prev_size := 0]> m in
  <[baddr x + bsize x - 8 := bsize x]> m.
Lemma fresh_heap s x : pool_geo (geo s) -> idx s = Index ∅ 0 ∅ -> mem s = fresh_mem x -> baddr x = heap_start (geo s) -> bsize x = heap_size (geo s) ->
  blk_ok x -> bfree x = true -> bprev x = false -> blisted x = false -> heap_ok s [x] (fun _ => []).
Proof.
  intros Hg Ei Em Ea Es Hok Hf Hp Hl. pose proof Hok as [Hsz Hm]. pose proof (make_sig_dc_range false 0) as Hsr. pose proof (blk_word_range x Hok).
  split.
  - rewrite Em. unfold fresh_mem. repeat apply mem_ok_put; try done; try lia.
  - rewrite Em. cbn [tiled]. rewrite <- Ea, <- Es, Hp. unfold fresh_mem. offs. split_and!; try done; try lia; rd_simpl; [done|apply make_sig_ok].
  - rewrite Ei. apply index_empty.
  - done.
  - intros c. apply NoDup_nil_2.
  - intros c a. split; [by intros ?%not_elem_of_nil|]. intros (y & Hy & Hyl & _). apply list_elem_of_singleton in Hy as ->. congruence.
Qed.
Lemma wp_fresh_heap (Q : Z -> tlsf -> Prop) s x k : pool_geo (geo s) -> alive s -> idx s = Index ∅ 0 ∅ -> mem s = ∅ ->
  baddr x = heap_start (geo s) -> bsize x = heap_size (geo s) -> blk_ok x -> bfree x = true -> bprev x = false -> blisted x = false -> bstale x = false ->
  (forall s' F', heap_ok s' [set_blisted true x] F' -> geo s' = geo s /\ mutex s' = mutex s /\ thr s' = thr s /\ txn s' = txn s -> wp k never Q s') ->
  wp (first ← get_first_block;
      set_size_flags first (Z.lor (heap_size (geo s)) BLOCK_FREE) ;;
      store_sig_dc first (make_sig_dc false 0) ;;
      set_prev_free first NULL ;;
      set_next_free first NULL ;;
      uid_clear first ;;
      set_prev_size first 0 ;;
      write_block_footer first ;;
      next ← block_next first;
      hend ← get_heap_end;
      (if next <? hend then
         set_size_flags next BLOCK_PREV_FREE ;;
         store_sig_dc next (make_sig_dc false 0) ;;
         fsz ← block_size first;
         set_prev_size next fsz
       else mret tt) ;;
      fsz ← block_size first;
      let fl := mapping_first_level fsz in
      fsz ← block_size first;
      let sl := mapping_second_level fsz fl in
      insert_into_free_list first fl sl ;; k) never Q s.
Proof.
  intros Hg Ha Ei Em Ea Es Hok Hf Hp Hl Hst HQ. pose proof Hok as [Hsz Hm]. pose proof (make_sig_dc_range false 0) as Hsr. pose proof (blk_word_range x Hok) as Hwr.
  assert (spot s (baddr x) /\ spot s (baddr x + bsize x - 64)) as [Hsp Hspe].
  { set (s0 := set_mem (fresh_mem x) s). assert (heap_ok s0 [x] (fun _ => [])) as H0 by (by apply fresh_heap).
    assert (x ∈ [x]) as Hx by apply list_elem_of_here. split; [exact (spot_of s0 _ _ x Hg H0 Hx)|].
    replace (baddr x + bsize x - 64) with (baddr x + (bsize x - 64)) by lia. apply (spot_inside s0 _ _ x _ Hg H0 Hx); [lia|by apply mod64_sub|lia]. }
  apply wp_bind, wp_gets. rewrite <- Ea, <- Es.
  assert (Z.lor (bsize x) BLOCK_FREE = blk_word x) as ->.
  { transitivity (Z.lor (blk_word (set_bfree false x)) BLOCK_FREE).
    - unfold blk_word. cbn. by rewrite Hp, !Z.add_0_r.
    - rewrite blk_word_set_free by done. unfold set_bfree. cbn. unfold blk_word. cbn. by rewrite Hf. }
  do 4 (apply wp_bind, wp_put; [done|done|done|done|done|done|]). apply wp_bind, wp_uid_clear; [done..|]. apply wp_bind, wp_put; [done|done|done|done|done|done|].
  apply wp_bind, wp_footer; try done; [cbn [mem set_mem]; rewrite Em; offs; rd_simpl; done|]. cbn [mem set_mem]. rewrite Em. fold (fresh_mem x).
  set (s1 := set_mem _ _). assert (heap_ok s1 [x] (fun _ => [])) as H1 by (by apply fresh_heap).
  assert (x ∈ [x]) as Hx by apply list_elem_of_here. assert (pool_geo (geo s1)) as Hg1 by done.
  apply wp_bind, (wp_bnext _ s1 _ _ x Hg1 H1 Hx). apply wp_bind, wp_gets. change (geo s1) with (geo s). rewrite <- Ea, <- Es, Z.ltb_irrefl.
  apply wp_bind, wp_ret. do 2 (apply wp_bind, (wp_bsize _ s1 _ _ x Hg1 H1 Hx)). cbv zeta.
  apply wp_bind. apply (wp_list _ _ s1 [] x [] _ Hg1 Ha H1 Hl). intros s2 F2 H2 ((G2 & X2 & T2 & _) & E2 & _) _. by eapply HQ.
Qed.

Lemma tlsf_create_run s m size : alive s -> self (thr s) <> 0 -> 0 < m -> m mod 64 = 0 -> m + size < 2 ^ 64 -> size mod 64 = 0 ->
  MIN_POOL_SIZE <= size <= MAX_POOL_SIZE ->
  exists s', tlsf_create m size s = Ret m s' /\
    pool_ok s' [Blk (m + SIZEOF_TLSF_CTRL) (size - SIZEOF_TLSF_CTRL) true false true false] /\
    geo s' = Geometry TLSF_FORMAT_VERSION m size (m + SIZEOF_TLSF_CTRL) (size - SIZEOF_TLSF_CTRL).
Proof.
  intros Ha Hself Hm Hmm Hend Hsm Hs. unfold MIN_POOL_SIZE, MAX_POOL_SIZE in Hs. change (Z.shiftl 1 40) with (2 ^ 40) in Hs. change (8 * 1024) with 8192 in Hs.
  set (hs := m + SIZEOF_TLSF_CTRL). set (hsz := size - SIZEOF_TLSF_CTRL). set (g := Geometry TLSF_FORMAT_VERSION m size hs hsz).
  set (x := Blk hs hsz true false false false).
  cut (wp (tlsf_create m size) never (fun r s' => r = m /\ pool_ok s' [set_blisted true x] /\ geo s' = g) s).
  { intros H. apply wp_never in H as (r & s' & E & -> & H). by exists s'. }
  assert (hs mod 64 = 0 /\ hsz mod 64 = 0) as [Hhm Hhsm].
  { unfold hs, hsz, SIZEOF_TLSF_CTRL. split; [by apply mod64_add|by apply mod64_sub]. }
  unfold SIZEOF_TLSF_CTRL in hs, hsz.
  unfold tlsf_create. rewrite (proj2 (Z.eqb_neq _ _)) by lia. rewrite (proj2 (Z.ltb_ge size _)) by (unfold MIN_POOL_SIZE; lia).
  rewrite (proj2 (Z.ltb_ge _ size)) by (unfold MAX_POOL_SIZE; change (Z.shiftl 1 40) with (2 ^ 40); lia). cbv zeta.
  unfold SIZEOF_TLSF_CTRL. rewrite (u64_small (m + 6720)) by lia. fold hs.
  change (Z.land (u64 (hs + ALIGN_SIZE - 1)) (not64 (ALIGN_SIZE - 1))) with (align_up hs 64). rewrite align_up_64 by lia.
  replace ((hs + 63) / 64 * 64) with hs by (pose proof (Z.div_mod hs 64); pose proof (Z.div_mod (hs + 63) 64); pose proof (Z.mod_pos_bound (hs + 63) 64); lia).
  rewrite (u64_small (hs - m)) by lia. replace (size - (hs - m)) with hsz by lia. rewrite (u64_small hsz) by lia. rewrite align_down_64 by (done || lia).
  apply wp_upd. fold g. set (s1 := Tlsf g _ _ _ _ _).
  assert (pool_geo (geo s1)) as Hg1 by (unfold s1, g, pool_geo, geo_ok, SIZEOF_TLSF_CTRL; cbn; split_and!; try done; lia).
  apply (wp_fresh_heap _ s1 x); try done; [split; [cbn; lia|done]|]. intros s2 F2 H2 (E2 & X2 & T2 & Et2).
  apply wp_bind, wp_set_errno, wp_ret. split; [done|]. split; [|exact E2].
  set (s3 := set_errno_st Err.OK s2).
  assert (geo s3 = geo s1 /\ mutex s3 = mutex s1 /\ self (thr s3) = self (thr s) /\ alive s3 /\ txn s3 = txn s1) as (E3 & X3 & T3 & A3 & Et3).
  { unfold s3, alive. cbn. rewrite T2. done. }
  unfold pool_ok, quiet. rewrite E3, X3, T3, Et3. split; [split; [apply Hg1|split; [apply H2|done]]|]. split; [done|]. split; [done|].
  split; [by intros y ->%list_elem_of_singleton|]. exists F2. eapply heap_ok_same; [..|exact H2]; done.
Qed.

(** ** Concrete pools *)

Definition small_pool : list blk := [Blk demo_block 1472 true false true false].
Lemma fresh_pool : exists s, tlsf_create demo_pool 8192 (demo_start None) = Ret demo_pool s /\ pool_ok s small_pool.
Proof.
  destruct (tlsf_create_run (demo_start None) demo_pool 8192) as (s & E & H & _);
    [done|done|done|done|done|done|by vm_compute|]. by exists s.
Qed.

(** ** The properties *)

(** (C12) [tlsf_malloc] answers NULL with the heap untouched exactly when every free block
    is of a smaller class than the request; otherwise it takes a free block of the first
    class that has one, cuts the request off it, leaves the rest as a free block when
    that is 128 bytes or more, and hands the block out with one owner.  The heap is tiled
    again, with the free blocks in the lists, and no other block in use has changed.  The
    condition is that no free block of the request's own class is smaller than the
    request: always so up to 896 bytes ([small_requests_fit]), and when it fails the block
    taken may be too small ([undersized_block_taken]). *)
Theorem tlsf_malloc_spec s bs h size uid data_type : pool_ok s bs -> h <> 0 -> 0 < uid < 2 ^ 16 -> 0 < size <= 2 ^ 64 - 128 ->
  let total := request_to_block_size size in
  (forall y, y ∈ bs -> bfree y = true -> class_of y = mapping_search total -> total <= bsize y) ->
  (exists s', tlsf_malloc h size uid data_type s = Ret NULL s' /\ pool_ok s' bs /\ mem s' = mem s /\ idx s' = idx s /\ geo s' = geo s /\
     forall y, y ∈ bs -> bfree y = true -> class_lt (class_of y) (mapping_search total)) \/
  (exists l1 x l2 s', tlsf_malloc h size uid data_type s = Ret (baddr x + HEADER_SIZE) s' /\
     bs = l1 ++ x :: l2 /\ fits (mapping_search total) bs x /\ total <= bsize x /\
     pool_ok s' (l1 ++ carve x total l2) /\ geo s' = geo s /\ handed_out (in_use (l1 ++ l2)) s s' (carved x total) uid data_type).
Proof. apply tlsf_malloc_run. Qed.

(** The only block of the small pool is the one taken. *)
Lemma small_pool_split l1 x l2 : small_pool = l1 ++ x :: l2 -> l1 = [] /\ l2 = [] /\ x = Blk demo_block 1472 true false true false.
Proof. destruct l1 as [|y [|z l1]]; cbn; intros E; [|done..]. by injection E as <- <-. Qed.
Definition cut_pool : list blk := [Blk demo_block 192 false false false false; Blk (demo_block + 192) 1280 true true true false].

Lemma tlsf_malloc_spec_witness : exists s s', pool_ok s small_pool /\ tlsf_malloc demo_pool 100 7 3 s = Ret (demo_block + HEADER_SIZE) s' /\
  pool_ok s' cut_pool /\ uids (mem s') demo_block = [7; 0; 0; 0; 0; 0; 0; 0; 0; 0; 0; 0].
Proof.
  destruct fresh_pool as (s & _ & Hp). exists s.
  destruct (tlsf_malloc_spec s small_pool demo_pool 100 7 3) as [(s' & _ & _ & _ & _ & _ & H)|(l1 & x & l2 & s' & E & El & _ & _ & Hp' & _ & [Hu _ _ _ _])];
    [done|done|lia|lia|by intros y ->%list_elem_of_singleton _ _| |].
  - specialize (H _ (list_elem_of_here _ _) eq_refl). exfalso. revert H. unfold class_lt. vm_compute. naive_solver.
  - apply small_pool_split in El as (-> & -> & ->). exists s'. done.
Defined.

(** (C13) [tlsf_free] by the last owner gives the block back: it is merged with the block
    before, when that is known to be free, and with the block after, when that is free;
    the heap is tiled again, with the free blocks in the lists, and no other block in use
    has changed. *)
Theorem tlsf_free_spec s l1 x l2 h uid : pool_ok s (l1 ++ x :: l2) -> bfree x = false -> h <> 0 -> uid <> 0 ->
  uid ∈ uids (mem s) (baddr x) -> owners (drop_owner uid (uids (mem s) (baddr x))) = [] ->
  exists s', tlsf_free h (baddr x + HEADER_SIZE) uid s = Ret tt s' /\
    pool_ok s' (give_back l1 x l2) /\ geo s' = geo s /\ given_back (in_use (l1 ++ l2)) s s' x.
Proof. apply tlsf_free_run. Qed.

Lemma cut_pool_typed dt : exists s, pool_ok s cut_pool /\ uids (mem s) demo_block = [7; 0; 0; 0; 0; 0; 0; 0; 0; 0; 0; 0] /\
  rdm (mem s) (demo_block + OFF_sig_dc) = make_sig_dc false dt /\ heap_size (geo s) = 1472.
Proof.
  destruct fresh_pool as (s & Ec & Hp). assert (heap_size (geo s) = 1472) as Es.
  { destruct Hp as (_ & _ & _ & _ & F & Hh). pose proof (hp_tiled _ _ _ Hh) as T. apply tiled_end in T. cbn in T. lia. }
  destruct (tlsf_malloc_run s small_pool demo_pool 100 7 dt) as [(s' & _ & _ & _ & _ & _ & H)|(l1 & x & l2 & s' & E & El & _ & _ & Hp' & Eg & [Hu Hs _ _ _])];
    [done|done|lia|lia|by intros y ->%list_elem_of_singleton _ _| |].
  - specialize (H _ (list_elem_of_here _ _) eq_refl). exfalso. revert H. unfold class_lt. vm_compute. naive_solver.
  - apply small_pool_split in El as (-> & -> & ->). exists s'. split; [done|]. split; [done|]. split; [exact Hs|]. by rewrite Eg.
Qed.
Lemma cut_pool_reached : exists s, pool_ok s cut_pool /\ uids (mem s) demo_block = [7; 0; 0; 0; 0; 0; 0; 0; 0; 0; 0; 0].
Proof. destruct (cut_pool_typed 3) as (s & Hp & Hu & _). by exists s. Qed.

Lemma tlsf_free_spec_witness : exists s s', pool_ok s cut_pool /\ tlsf_free demo_pool (demo_block + HEADER_SIZE) 7 s = Ret tt s' /\
  pool_ok s' small_pool.
Proof.
  destruct cut_pool_reached as (s & Hp & Hu). exists s.
  destruct (tlsf_free_spec s [] (Blk demo_block 192 false false false false) [Blk (demo_block + 192) 1280 true true true false] demo_pool 7) as (s' & E & Hp' & _);
    [exact Hp|done|done|done|cbn [baddr]; rewrite Hu; apply list_elem_of_here|cbn [baddr]; by rewrite Hu|]. by exists s'.
Defined.

(** (C16) [tlsf_create] on memory whose address and size are multiples of 64 makes a pool
    at rest whose heap is one free block, listed, that fills all that follows the control
    structure. *)
Theorem tlsf_create_spec s m size : alive s -> self (thr s) <> 0 -> 0 < m -> m mod 64 = 0 -> m + size < 2 ^ 64 -> size mod 64 = 0 ->
  MIN_POOL_SIZE <= size <= MAX_POOL_SIZE ->
  exists s', tlsf_create m size s = Ret m s' /\
    pool_ok s' [Blk (m + SIZEOF_TLSF_CTRL) (size - SIZEOF_TLSF_CTRL) true false true false] /\
    geo s' = Geometry TLSF_FORMAT_VERSION m size (m + SIZEOF_TLSF_CTRL) (size - SIZEOF_TLSF_CTRL).
Proof. apply tlsf_create_run. Qed.
Lemma tlsf_create_spec_witness : exists s, tlsf_create demo_pool 8192 (demo_start None) = Ret demo_pool s /\ pool_ok s small_pool.
Proof.
  destruct (tlsf_create_spec (demo_start None) demo_pool 8192) as (s & E & H & _);
    [done|done|done|done|done|done|by vm_compute|]. by exists s.
Defined.

(** ** Allocation and release *)

(** Nothing is merged with [x] when the block before it is not marked as free or is in use. *)
Definition apart_before (l1 : list blk) (x : blk) : Prop := forall l p, l1 = l ++ [p] -> bprev x = true -> bfree p = false.

Lemma merge_prev_apart l1 x : apart_before l1 x -> merge_prev l1 x = (l1, x).
Proof.
  intros H. destruct l1 as [|p l _] using rev_ind; [done|]. rewrite merge_prev_snoc. specialize (H l p eq_refl).
  destruct (bprev x); [|done]. by rewrite (H eq_refl).
Qed.

(** The free block after the round: taking the remainder back clears its mark. *)
Definition restored (x : blk) (total : Z) : blk := if MIN_BLOCK_SZ <=? bsize x - total then set_bprev false x else x.

Lemma carve_undone l1 x l2 total : 128 <= total <= bsize x -> bfree x = true -> blisted x = true -> bstale x = false -> apart_before l1 x ->
  (bsize x - total < MIN_BLOCK_SZ -> forall y l, l2 = y :: l -> bfree y = false) ->
  exists l, carve x total l2 = carved x total :: l /\ give_back l1 (carved x total) l = l1 ++ restored x total :: flag_next true l2 /\
    forall y, in_use (l1 ++ l2) y -> exists z, in_use (l1 ++ l) z /\ baddr z = baddr y /\ bsize z = bsize y.
Proof.
  intros Ht Hf Hl Hs Hp Hn. unfold carve, carved, restored.
  assert (forall v, flag_next true (flag_next v l2) = flag_next true l2) as Ef by (intros v; by destruct l2).
  assert (Blk (baddr x) (bsize x) true (bprev x) true false = x) as Ex by (destruct x; cbn in *; by subst).
  assert (Blk (baddr x) (bsize x) true false true false = set_bprev false x) as Ep by (destruct x; cbn in *; by subst).
  destruct (Z.leb_spec MIN_BLOCK_SZ (bsize x - total)) as [Hm|Hm]; (eexists; split; [done|]); (split; [unfold give_back; rewrite merge_prev_apart by exact Hp|]).
  - cbn. rewrite Ef. replace (total + (bsize x - total)) with (bsize x) by lia. by rewrite Ep.
  - intros y Hy. destruct (in_use_flags l1 (flag_next true l2) l2 y (Ef true) Hy) as (z & [Hz Hzl] & E). exists z. split; [|done].
    split; [|done]. rewrite elem_of_app, elem_of_cons in *. tauto.
  - assert (merge_next (Blk (baddr x) (bsize x) false (bprev x) false false) (flag_next false l2) =
      (Blk (baddr x) (bsize x) false (bprev x) false false, flag_next false l2)) as ->.
    { destruct l2 as [|y l]; [done|]. cbn. by rewrite (Hn Hm y l). }
    cbn. by rewrite Ef, Ex.
  - intros y Hy. by apply (in_use_flags l1 (flag_next false l2) l2 y (Ef false)).
Qed.

Lemma drop_sole uid : uid <> 0 -> drop_owner uid (uid :: replicate 11 0) = replicate 12 0.
Proof. intros H. unfold drop_owner. rewrite fmap_cons, Z.eqb_refl, fmap_replicate. by rewrite (proj2 (Z.eqb_neq 0 uid)). Qed.

(** (C15) A block taken by [tlsf_malloc] and released with [tlsf_free] is again the free
    block it was cut from; the accounting is back where it was and the other blocks in use
    are untouched.  Two conditions: no free block of the class of the request is smaller
    than it ([small_requests_fit]: always so up to 896 bytes), and the free block that was
    taken stood between blocks in use, as it does when all neighbours were merged.  The
    mark that a free block precedes it may be stale, which it is after most splits: the
    release then finds the block before in use, merges nothing and clears the mark.  When the block was cut
    in two the block after it is of no account, because the release only takes the
    remainder back. *)
Theorem tlsf_malloc_free_roundtrip s bs h size uid data_type p s1 : pool_ok s bs -> h <> 0 -> 0 < uid < 2 ^ 16 -> 0 < size <= 2 ^ 64 - 128 ->
  (forall y, y ∈ bs -> bfree y = true -> class_of y = mapping_search (request_to_block_size size) -> request_to_block_size size <= bsize y) ->
  tlsf_malloc h size uid data_type s = Ret p s1 -> p <> NULL ->
  exists l1 x l2, bs = l1 ++ x :: l2 /\ p = baddr x + HEADER_SIZE /\
    (apart_before l1 x -> (bsize x - request_to_block_size size < MIN_BLOCK_SZ -> forall y l, l2 = y :: l -> bfree y = false) ->
     exists s2, tlsf_free h p uid s1 = Ret tt s2 /\ pool_ok s2 (l1 ++ restored x (request_to_block_size size) :: flag_next true l2) /\
       rdm (mem s2) (used_addr s) = rdm (mem s) (used_addr s) /\
       forall y, in_use (l1 ++ l2) y -> kept y (mem s) (mem s2)).
Proof.
  intros Hp Hnz Hu Hs Hex E Hne.
  destruct (tlsf_malloc_run s bs h size uid data_type Hp Hnz Hu Hs Hex) as [(s' & E' & _)|(l1 & x & l2 & s' & E' & Ebs & (Hf & _) & Hle & Hp' & Eg1 & HO)];
    rewrite E in E'; injection E' as -> <-; [done|]. exists l1, x, l2. split; [done|]. split; [done|]. intros Hpr Hn.
  set (total := request_to_block_size size) in *. destruct (request_bounds size Hs) as [Hb _]. fold total in Hb.
  pose proof Hp as (_ & _ & Hg & Hset & F & Hh). assert (x ∈ bs) as Hx by (rewrite Ebs; apply in_split). destruct (Hset x Hx) as [Hl Hst]. rewrite Hf in Hl.
  destruct (carve_undone l1 x l2 total) as (l & Ec & Eg & Hin); [lia|done|done|done|done|done|]. rewrite Ec in Hp'. destruct HO as [O1 O2 O3 O4 O5].
  assert (u16 uid = uid) as Eu by (apply Z.mod_small; lia). rewrite Eu in O1. change (baddr (carved x total)) with (baddr x) in O1.
  destruct (tlsf_free_run s1 l1 (carved x total) l h uid Hp') as (s2 & E2 & Hp2 & _ & [G1 G2 G3]); [done|done|lia|..].
  - cbn [baddr carved]. rewrite O1. apply list_elem_of_here.
  - cbn [baddr carved]. rewrite O1, drop_sole; [done|lia].
  - rewrite Eg in Hp2. exists s2. split; [exact E2|]. split; [exact Hp2|].
    assert (used_addr s1 = used_addr s) as Eua by (unfold used_addr; by rewrite Eg1). rewrite Eua in G1. split.
    + rewrite G1, O3. unfold u64. rewrite Zminus_mod_idemp_l, Z.add_simpl_r. apply Z.mod_small, (hp_mem _ _ _ Hh).
    + intros y Hy. eapply kept_trans; [by apply O5|]. destruct (Hin y Hy) as (z & Hz & Ea & Es). specialize (G3 z Hz). unfold kept in *. by rewrite <- Ea, <- Es.
Qed.
Lemma cut_pool_split l1 x l2 : cut_pool = l1 ++ x :: l2 -> bfree x = true ->
  l1 = [Blk demo_block 192 false false false false] /\ x = Blk (demo_block + 192) 1280 true true true false /\ l2 = [].
Proof. destruct l1 as [|y [|z [|u l1]]]; cbn; intros E; try done; by injection E as <- <-. Qed.

(** In the cut pool the free block carries the stale mark. *)
Lemma tlsf_malloc_free_roundtrip_witness : exists s s1 s2, pool_ok s cut_pool /\
  tlsf_malloc demo_pool 100 7 3 s = Ret (demo_block + 192 + HEADER_SIZE) s1 /\
  tlsf_free demo_pool (demo_block + 192 + HEADER_SIZE) 7 s1 = Ret tt s2 /\
  pool_ok s2 [Blk demo_block 192 false false false false; Blk (demo_block + 192) 1280 true false true false].
Proof.
  destruct cut_pool_reached as (s & Hp & _). exists s.
  assert (forall y, y ∈ cut_pool -> bfree y = true -> class_of y = mapping_search (request_to_block_size 100) -> request_to_block_size 100 <= bsize y) as Hx.
  { intros y [-> | ->%list_elem_of_singleton]%elem_of_cons _ _; by vm_compute. }
  destruct (tlsf_malloc_run s cut_pool demo_pool 100 7 3) as [(s' & _ & _ & _ & _ & _ & H)|(l1 & x & l2 & s1 & E & El & [Hf _] & _)];
    [done|done|lia|lia|exact Hx| |].
  - specialize (H (Blk (demo_block + 192) 1280 true true true false)). exfalso. revert H. unfold class_lt. vm_compute.
    intros H. destruct H as [?|[? ?]]; [apply list_elem_of_further, list_elem_of_here|done|done|done].
  - destruct (cut_pool_split _ _ _ El Hf) as (-> & -> & ->).
    destruct (tlsf_malloc_free_roundtrip s cut_pool demo_pool 100 7 3 (demo_block + 192 + HEADER_SIZE) s1 Hp) as (l1 & x & l2 & El' & Ep & H);
      [done|lia|lia|exact Hx|exact E|done|].
    assert (bfree x = true) as Hfx.
    { unfold cut_pool in El'. destruct l1 as [|y [|z [|u l1]]]; cbn in El'; try done; [injection El' as <- _; by vm_compute in Ep|by injection El' as _ <- _]. }
    destruct (cut_pool_split _ _ _ El' Hfx) as (-> & -> & ->).
    destruct H as (s2 & E2 & Hp2 & _); [by intros [|? [|? l]] p E0 _; [injection E0 as <-|..]|done|]. by exists s1, s2.
Defined.

(** ** Blocks in use *)

(** A block of the heap in use is what the ownership operations call live. *)
Lemma in_use_live s bs x : pool_ok s bs -> x ∈ bs -> bfree x = false -> live s (baddr x).
Proof.
  intros (Hq & Ha & Hg & Hset & F & Hh) Hx Hf. destruct (block_facts s bs F Hg Hh x Hx) as (Hok & [_ Hpos] & Hhd & _).
  destruct (block_reads s bs F Hh x Hx) as [Ew Es]. split; [done|]. split; [lia|]. split; [exact Es|].
  unfold rd. rewrite Ew. pose proof (blk_word_free x Hok) as E. rewrite Hf in E. by apply negb_false_iff, Z.eqb_eq in E.
Qed.
(** What happens inside a block in use does not touch the heap. *)
Lemma inside_keeps_pool s s' bs x : pool_ok s bs -> x ∈ bs -> bfree x = false -> quiet s' -> same_world s s' ->
  only_inside x (mem s) (mem s') -> sig_ok (rdm (mem s') (baddr x + OFF_sig_dc)) = true ->
  pool_ok s' bs /\ forall y, y ∈ bs -> y <> x -> kept y (mem s) (mem s').
Proof.
  intros (Hq & Ha & Hg & Hset & F & Hh) Hx Hf Hq' (G & I & T & L) Hin Hsig.
  destruct (heap_inside s bs F x (mem s') Hg Hh Hx) as [H1 (_ & _ & K)]; [by rewrite (proj1 (Hset x Hx))|apply Hq'|done|done|].
  split; [|intros y Hy Hne; by apply K]. split; [done|]. split; [by apply L|]. split; [by rewrite G|]. split; [done|].
  exists F. eapply heap_ok_same; [..|exact H1]; done.
Qed.
Lemma owners_keep_pool s s' bs x : pool_ok s bs -> x ∈ bs -> bfree x = false -> quiet s' -> same_world s s' ->
  same_but_owners (baddr x) (mem s) (mem s') -> pool_ok s' bs /\ forall y, y ∈ bs -> y <> x -> kept y (mem s) (mem s').
Proof.
  intros Hp Hx Hf Hq' Hw Hs. pose proof Hp as (_ & _ & Hg & _ & F & Hh). destruct (block_facts s bs F Hg Hh x Hx) as ([? _] & _).
  destruct (block_reads s bs F Hh x Hx) as [_ Es]. eapply inside_keeps_pool; try done.
  - intros q Hq. apply Hs. offs. lia.
  - by rewrite Hs by (offs; lia).
Qed.

(** Whatever the owner of a block writes to the memory it was given, the pool stays
    as it was, and so does every other block. *)
Theorem payload_writes_are_safe s bs x m' : pool_ok s bs -> x ∈ bs -> bfree x = false -> mem_ok m' ->
  (forall q, ~ (baddr x + HEADER_SIZE <= q < baddr x + bsize x) -> rdm m' q = rdm (mem s) q) ->
  pool_ok (set_mem m' s) bs /\ forall y, y ∈ bs -> y <> x -> kept y (mem s) m'.
Proof.
  intros Hp Hx Hf Hm Hw. pose proof Hp as (Hq & _ & Hg & _ & F & Hh). destruct (block_facts s bs F Hg Hh x Hx) as ([? _] & _).
  destruct (block_reads s bs F Hh x Hx) as [_ Es]. apply (inside_keeps_pool s (set_mem m' s) bs x); try done.
  - by destruct Hq as (? & _ & ?).
  - intros q Hq'. apply Hw. unfold HEADER_SIZE. offs. lia.
  - cbn [mem set_mem]. by rewrite Hw by (unfold HEADER_SIZE; offs; lia).
Qed.
Lemma payload_writes_are_safe_witness : exists s, pool_ok s cut_pool /\ pool_ok (set_mem (<[demo_block + 64 := 5]> (mem s)) s) cut_pool.
Proof.
  destruct cut_pool_reached as (s & Hp & _). exists s. split; [done|].
  apply (payload_writes_are_safe s cut_pool (Blk demo_block 192 false false false false)); [done|apply list_elem_of_here|done| |].
  - apply mem_ok_put; [apply Hp|lia].
  - intros q Hq. apply rdm_insert_ne. unfold HEADER_SIZE in Hq. cbn [baddr bsize] in Hq. lia.
Defined.

(** ** A block with two owners *)

Lemma link_second u1 u2 : 0 < u1 -> 0 < u2 -> u1 <> u2 -> link_model (u1 :: replicate 11 0) u2 = (0, u1 :: u2 :: replicate 10 0).
Proof.
  intros H1 H2 Hne. unfold link_model. rewrite decide_False.
  - cbn [find_index replicate]. rewrite (proj2 (Z.eqb_neq u1 0)) by lia. done.
  - rewrite elem_of_cons. intros [->|Hin]; [done|]. apply elem_of_replicate in Hin as [? _]. lia.
Qed.
Lemma drop_first u1 u2 : u1 <> 0 -> u1 <> u2 -> drop_owner u1 (u1 :: u2 :: replicate 10 0) = 0 :: u2 :: replicate 10 0.
Proof.
  intros H Hne. unfold drop_owner. rewrite !fmap_cons, Z.eqb_refl, fmap_replicate, (proj2 (Z.eqb_neq u2 u1)), (proj2 (Z.eqb_neq 0 u1)); [done|lia|lia].
Qed.
Lemma drop_second u : u <> 0 -> drop_owner u (0 :: u :: replicate 10 0) = replicate 12 0.
Proof. intros H. unfold drop_owner. rewrite !fmap_cons, Z.eqb_refl, fmap_replicate, (proj2 (Z.eqb_neq 0 u)); [done|lia]. Qed.
Lemma owner_second u : u <> 0 -> owners (0 :: u :: replicate 10 0) = [u].
Proof. intros H. unfold owners. rewrite !filter_cons, decide_False, decide_True by (done || intros E; by apply E). done. Qed.

(** (C14) The life of a shared block: a second owner links it, the first frees it and it
    stays where it is, untouched, with the second as its only owner; when the second frees
    it too it goes back to the heap.  The heap is well formed throughout. *)
Theorem shared_block_lifecycle s l1 x l2 h u1 u2 : pool_ok s (l1 ++ x :: l2) -> bfree x = false -> h <> 0 ->
  0 < u1 < 2 ^ 16 -> 0 < u2 < 2 ^ 16 -> u1 <> u2 -> uids (mem s) (baddr x) = u1 :: replicate 11 0 ->
  let p := baddr x + HEADER_SIZE in
  exists s1 s2 s3, tlsf_link h p u2 s = Ret 0 s1 /\ tlsf_free h p u1 s1 = Ret tt s2 /\ tlsf_free h p u2 s2 = Ret tt s3 /\
    pool_ok s1 (l1 ++ x :: l2) /\ pool_ok s2 (l1 ++ x :: l2) /\ pool_ok s3 (give_back l1 x l2) /\
    uids (mem s2) (baddr x) = 0 :: u2 :: replicate 10 0 /\ same_but_owners (baddr x) (mem s) (mem s2) /\
    forall y, in_use (l1 ++ l2) y -> kept y (mem s) (mem s3).
Proof.
  intros Hp Hf Hnz H1 H2 Hne Eu p. pose proof (in_split l1 l2 x) as Hx. pose proof Hp as (Hq & Ha & Hg & _ & F & Hh).
  pose proof (in_use_live s _ x Hp Hx Hf) as Hl. pose proof (link_mem_uids (mem s) (baddr x) u2) as [Hu1 Hs1]; [apply Hq|done|].
  rewrite Eu, link_second in Hu1 by lia. cbn [snd] in Hu1.
  destruct (wp_alive _ _ _ s Ha (wp_tlsf_link s h (baddr x) u2 Hq Hl Hnz H2)) as (a & s1 & E1 & Hq1 & Hw1 & Em1 & ->).
  rewrite Eu, link_second in E1 by lia. cbn [fst] in E1. rewrite <- Em1 in Hu1, Hs1.
  destruct (owners_keep_pool s s1 _ x Hp Hx Hf Hq1 Hw1 Hs1) as [Hp1 K1]. pose proof Hp1 as (_ & Ha1 & _).
  pose proof (in_use_live s1 _ x Hp1 Hx Hf) as Hl1.
  destruct (wp_alive _ _ _ s1 Ha1 (wp_tlsf_free_shared s1 h (baddr x) u1 Hq1 Hl1 Hnz ltac:(lia)
    ltac:(rewrite Hu1; apply list_elem_of_here) ltac:(by rewrite Hu1, drop_first, owner_second by lia)))
    as ([] & s2 & E2 & Hq2 & Hw2 & Hu2 & Hs2).
  rewrite Hu1, drop_first in Hu2 by lia. destruct (owners_keep_pool s1 s2 _ x Hp1 Hx Hf Hq2 Hw2 Hs2) as [Hp2 K2].
  destruct (tlsf_free_run s2 l1 x l2 h u2 Hp2 Hf Hnz ltac:(lia)) as (s3 & E3 & Hp3 & G3 & [_ _ K3]).
  { rewrite Hu2. apply list_elem_of_further, list_elem_of_here. }
  { by rewrite Hu2, drop_second by lia. }
  exists s1, s2, s3. do 7 (split; [done|]). split; [by eapply same_but_owners_trans|].
  intros y Hy. assert (y ∈ l1 ++ x :: l2 /\ y <> x) as [Hyb Hyx].
  { split; [apply in_mid; right; apply Hy|]. intros ->. by apply (rest_apart s l1 x l2 F x Hg Hh (proj1 Hy)). }
  eapply kept_trans; [by apply K1|]. eapply kept_trans; [by apply K2|by apply K3].
Qed.
Lemma shared_block_lifecycle_witness : exists s s1 s2 s3, pool_ok s cut_pool /\
  tlsf_link demo_pool (demo_block + HEADER_SIZE) 9 s = Ret 0 s1 /\ tlsf_free demo_pool (demo_block + HEADER_SIZE) 7 s1 = Ret tt s2 /\
  tlsf_free demo_pool (demo_block + HEADER_SIZE) 9 s2 = Ret tt s3 /\ pool_ok s2 cut_pool /\ pool_ok s3 small_pool.
Proof.
  destruct cut_pool_reached as (s & Hp & Hu). exists s.
  destruct (shared_block_lifecycle s [] (Blk demo_block 192 false false false false) [Blk (demo_block + 192) 1280 true true true false] demo_pool 7 9)
    as (s1 & s2 & s3 & E1 & E2 & E3 & _ & Hp2 & Hp3 & _); [exact Hp|done|done|lia|lia|lia|exact Hu|].
  exists s1, s2, s3. done.
Defined.

(** ** What goes wrong *)

(** From 1024 bytes on a class holds blocks of several sizes. *)
Lemma small_requests_fit bs s F size : pool_geo (geo s) -> heap_ok s bs F -> 0 < size <= 896 ->
  let total := request_to_block_size size in
  forall y, y ∈ bs -> bfree y = true -> class_of y = mapping_search total -> total <= bsize y.
Proof.
  intros Hg Hh Hs total y Hy _ E. destruct (block_facts s bs F Hg Hh y Hy) as ([? ?] & _). destruct (request_bounds size ltac:(lia)) as [Hb Hm].
  fold total in Hb, Hm. assert (total < 1024).
  { unfold total. rewrite request_to_block_size_fits by lia. pose proof (Z.div_mod (size + 63) 64). pose proof (Z.mod_pos_bound (size + 63) 64). lia. }
  rewrite (small_class_exact total (bsize y)); [lia|lia|lia|done|done|by symmetry].
Qed.

(** A request of 1536 bytes is of the class of a free block of that size, header
    included, which is too small for it: in a pool whose only block is that one,
    [tlsf_malloc] takes it and writes the header of a remainder behind the pool. *)
Theorem undersized_block_taken : exists s, tlsf_create demo_pool 8256 (demo_start None) = Ret demo_pool s /\
  pool_ok s [Blk demo_block 1536 true false true false] /\
  request_to_block_size 1536 = 1600 /\ tlsf_malloc demo_pool 1536 7 3 s = Fault.
Proof.
  destruct (tlsf_create_run (demo_start None) demo_pool 8256) as (s & E & H & _); [done|done|done|done|done|done|by vm_compute|].
  exists s. split; [done|]. split; [done|]. split; [done|]. replace s with (state_after (tlsf_create demo_pool 8256) (demo_start None)); [by vm_compute|].
  unfold state_after. by rewrite E.
Qed.

(** A process killed in [tlsf_malloc] after the block left its free list and before it
    is an owned one: nothing of that was logged, so the process that takes over finds
    nothing to undo, and the block is lost.  In the small pool no memory is left although
    none is in use. *)
Theorem killed_malloc_loses_block n : (3 <= n < 20)%nat -> exists s s1 s2,
  tlsf_create demo_pool 8192 (demo_start None) = Ret demo_pool s /\ tlsf_malloc demo_pool 100 7 3 (dying n s) = Crash s1 /\
  stack_top (txn s1) = 0 /\ tlsf_malloc demo_pool 64 8 3 (reboot 2 None s1) = Ret NULL s2 /\ rd s2 (used_addr s2) = 0.
Proof.
  intros Hn. set (s := state_after (tlsf_create demo_pool 8192) (demo_start None)). set (s1 := crash_state (tlsf_malloc demo_pool 100 7 3) (dying n s)).
  exists s, s1, (state_after (tlsf_malloc demo_pool 64 8 3) (reboot 2 None s1)). split; [by vm_compute|]. subst s1.
  do 20 (destruct n as [|n]; [first [lia|by vm_compute]|]). lia.
Qed.
Lemma killed_malloc_loses_block_witness : exists s s1 s2,
  tlsf_create demo_pool 8192 (demo_start None) = Ret demo_pool s /\ tlsf_malloc demo_pool 100 7 3 (dying 10 s) = Crash s1 /\
  stack_top (txn s1) = 0 /\ tlsf_malloc demo_pool 64 8 3 (reboot 2 None s1) = Ret NULL s2 /\ rd s2 (used_addr s2) = 0.
Proof. apply (killed_malloc_loses_block 10). lia. Defined.

(** The flag of a remainder whose predecessor is allocated: releasing it reports a
    corrupted block, although nothing is wrong and the release succeeds. *)
Lemma free_reports_corruption : exists s s',
  (tlsf_create demo_pool 8192 ;; tlsf_malloc demo_pool 100 7 3 ;; tlsf_malloc demo_pool 100 7 3) (demo_start None) =
    Ret (demo_block + 192 + HEADER_SIZE) s /\
  tlsf_free demo_pool (demo_block + 192 + HEADER_SIZE) 7 s = Ret tt s' /\ tlsf_errno (thr s') = Err.BLOCK_CORRUPTED /\
  rd s' (used_addr s') = rd s (used_addr s) - 128.
Proof.
  set (s := state_after (tlsf_create demo_pool 8192 ;; tlsf_malloc demo_pool 100 7 3 ;; tlsf_malloc demo_pool 100 7 3) (demo_start None)).
  exists s, (state_after (tlsf_free demo_pool (demo_block + 192 + HEADER_SIZE) 7) s). split_and!; by vm_compute.
Qed.
