(* ===== verification/TlsfWalk.v ===== *)
(** The walk over the heap ([tlsf_free_uid_blocks] of [tlsf_txn.c]) with a destructor
    that keeps to a contract: it ends, and leaves no block of the uid that the destructor
    does not spare. *)
From S2P Require Import Prelude Machine TlsfTypes TlsfBul TlsfHeap TlsfAlloc TlsfApi TlsfFacts TlsfHoare TlsfTxn TlsfOwners TlsfOwnership TlsfSpec TlsfLists TlsfTiling TlsfBlocks TlsfMalloc TlsfFree TlsfPool.

(** The heap while the lock is held and no transaction is open. *)
Record at_work (s : tlsf) (bs : list blk) : Prop := AtWork {
  aw_geo : pool_geo (geo s);
  aw_alive : alive s;
  aw_top : stack_top (txn s) = 0;
  aw_mutex : mutex s = Mutex (self (thr s)) 1 false false;
  aw_self : self (thr s) <> 0;
  aw_settled : settled_heap bs;
  aw_heap : exists F, heap_ok s bs F }.

(** The blocks in use, by address and size. *)
Definition used_of (bs : list blk) : list (Z * Z) := (fun x => (baddr x, bsize x)) <$> filter (fun x => bfree x = false) bs.
Lemma used_of_app l1 l2 : used_of (l1 ++ l2) = used_of l1 ++ used_of l2.
Proof. unfold used_of. by rewrite filter_app, fmap_app. Qed.
Lemma used_of_cons x l : used_of (x :: l) = (if bfree x then [] else [(baddr x, bsize x)]) ++ used_of l.
Proof. unfold used_of. rewrite filter_cons. by destruct (bfree x). Qed.
Lemma used_of_in bs a n : (a, n) ∈ used_of bs <-> exists x, x ∈ bs /\ bfree x = false /\ baddr x = a /\ bsize x = n.
Proof.
  unfold used_of. rewrite list_elem_of_fmap. split.
  - intros (x & [= -> ->] & Hx). apply list_elem_of_filter in Hx as [? ?]. by exists x.
  - intros (x & ? & ? & <- & <-). exists x. split; [done|]. by apply list_elem_of_filter.
Qed.
Lemma used_of_flag v l : used_of (flag_next v l) = used_of l.
Proof. destruct l as [|y l]; [done|]. cbn [flag_next]. by rewrite !used_of_cons. Qed.
(** A release takes one block out of use. *)
Lemma used_of_give_back l1 x l2 : used_of (give_back l1 x l2) = used_of l1 ++ used_of l2.
Proof.
  unfold give_back. assert (used_of (merge_prev l1 x).1 = used_of l1) as E1.
  { destruct l1 as [|p l1 _] using rev_ind; [done|]. rewrite merge_prev_snoc. destruct (bprev x && bfree p) eqn:E; [|done].
    apply andb_true_iff in E as [_ E]. cbn. rewrite used_of_app, used_of_cons, E. cbn. by rewrite app_nil_r. }
  destruct (merge_prev l1 x) as [m1 y]. assert (used_of (merge_next y l2).2 = used_of l2) as E2.
  { destruct l2 as [|z l2]; [done|]. cbn [merge_next]. destruct (bfree z) eqn:E; [|done]. cbn [snd]. by rewrite used_of_cons, E. }
  destruct (merge_next y l2) as [z m2]. cbn [fst snd] in *. by rewrite used_of_app, used_of_cons, used_of_flag, E1, E2.
Qed.

(** Those of [uid]. *)
Definition owned_by (uid : Z) (m : gmap Z Z) (l : list (Z * Z)) : list (Z * Z) := filter (fun p => uid ∈ uids m p.1) l.
Lemma owned_ext uid m m' l : (forall p, p ∈ l -> uids m' p.1 = uids m p.1) -> owned_by uid m' l = owned_by uid m l.
Proof.
  unfold owned_by. induction l as [|a l IH]; intros H; [done|]. rewrite !filter_cons, H, IH by (by intros; apply H, list_elem_of_further || apply list_elem_of_here).
  done.
Qed.

(** What blocks with owners besides [uid] keep: their place, their owners and what is
    written in them. *)
Definition spares_others (uid : Z) (s : tlsf) (bs : list blk) (s' : tlsf) (bs' : list blk) : Prop :=
  forall y v, y ∈ bs -> bfree y = false -> v ∈ uids (mem s) (baddr y) -> v <> 0 -> v <> uid ->
    exists y', y' ∈ bs' /\ bfree y' = false /\ baddr y' = baddr y /\ bsize y' = bsize y /\ v ∈ uids (mem s') (baddr y) /\
      forall o, HEADER_SIZE <= o < bsize y -> rdm (mem s') (baddr y + o) = rdm (mem s) (baddr y + o).
Lemma spares_refl uid s bs : spares_others uid s bs s bs.
Proof. intros y v ????. by exists y. Qed.
Lemma spares_trans uid s1 b1 s2 b2 s3 b3 : spares_others uid s1 b1 s2 b2 -> spares_others uid s2 b2 s3 b3 -> spares_others uid s1 b1 s3 b3.
Proof.
  intros H1 H2 y v Hy Hf Hv H0 Hu. destruct (H1 y v) as (z & Hz & Hfz & Ea & Es & Hvz & Hk); try done. rewrite <- Ea in Hvz.
  destruct (H2 z v) as (w & Hw & Hfw & Eaw & Esw & Hvw & Hkw); try done. exists w.
  split_and!; try done; [congruence|congruence|by rewrite <- Ea|]. intros o Ho. rewrite <- Hk by done. rewrite <- Ea. apply Hkw. lia.
Qed.

Definition same_place (s s' : tlsf) : Prop := geo s' = geo s /\ self (thr s') = self (thr s).
Lemma kept_uids x m m' : blk_ok x -> kept x m m' -> uids m' (baddr x) = uids m (baddr x).
Proof. intros [Hs _] K. apply uids_ext. intros o Ho. apply K; offs; lia. Qed.

(** A step of the walk stays in the heap. *)
Lemma walk_position s l1 x l2 : at_work s (l1 ++ x :: l2) -> let e := heap_start (geo s) + heap_size (geo s) in
  heap_start (geo s) + tsize l1 = baddr x /\ baddr x + bsize x = heap_start (geo s) + tsize (l1 ++ [x]) /\ baddr x + bsize x <= e < 2 ^ 64 /\ 0 < baddr x /\ blk_ok x.
Proof.
  intros Hw e. destruct (aw_heap _ _ Hw) as [F Hh]. pose proof (aw_geo _ _ Hw) as Hg. pose proof (in_split l1 l2 x) as Hx.
  destruct (block_facts s _ F Hg Hh x Hx) as (Hok & [_ Hpos] & _ & _ & Hend).
  pose proof (hp_tiled _ _ _ Hh) as T. apply tiled_app in T as [_ (Ex & _)]. rewrite tsize_app. cbn [tsize].
  destruct Hg as [(_ & _ & _ & _ & _ & _ & _ & Hlt) [He _]]. unfold pool_end in Hend. unfold e. split_and!; try apply Hok; lia.
Qed.
Lemma walk_at_end s l1 : at_work s l1 -> heap_start (geo s) + tsize l1 = heap_start (geo s) + heap_size (geo s).
Proof. intros Hw. destruct (aw_heap _ _ Hw) as [F Hh]. pose proof (hp_tiled _ _ _ Hh) as T. apply tiled_end in T. lia. Qed.

Lemma tiled_sizes m bs : forall p a e, tiled m p a bs e -> 128 * Z.of_nat (length bs) <= tsize bs.
Proof. induction bs as [|x bs IH]; intros p a e T; cbn [length tsize]; [lia|]. destruct T as (_ & ? & _ & _ & _ & _ & T). apply IH in T. lia. Qed.
Lemma blocks_bound s bs : at_work s bs -> 128 * Z.of_nat (length bs) <= heap_size (geo s).
Proof.
  intros Hw. destruct (aw_heap _ _ Hw) as [F Hh]. pose proof (hp_tiled _ _ _ Hh) as T. pose proof (tiled_end _ _ _ _ _ T) as E.
  pose proof (tiled_sizes _ _ _ _ _ T). lia.
Qed.
Lemma leave_pool s bs : at_work s bs -> pool_ok (set_mutex mutex_free s) bs.
Proof.
  intros [Hg Ha Ht _ Hself Hset [F Hh]]. split; [|split; [done|split; [done|split; [done|]]]].
  - split; [apply Hg|]. split; [apply Hh|done].
  - exists F. eapply heap_ok_same; [..|exact Hh]; done.
Qed.

Lemma fuel_enough s bs fuel : at_work s bs -> heap_size (geo s) / 128 < Z.of_nat fuel -> (length bs < fuel)%nat.
Proof.
  intros Hw Hf. pose proof (blocks_bound s bs Hw) as Hb. assert (Z.of_nat (length bs) <= heap_size (geo s) / 128) by (apply Z.div_le_lower_bound; lia). lia.
Qed.

(** One step of the walk for [uid]: the block is passed by, or handed to the destructor. *)
Lemma wp_walk_uid {U} (d : U -> Z -> Z -> Z -> TM (Z * U)) (Q : walk_end * U -> tlsf -> Prop) fuel uid s l1 x l2 u : uid <> 0 -> at_work s (l1 ++ x :: l2) ->
  let hend := heap_start (geo s) + heap_size (geo s) in let on := heap_start (geo s) + tsize (l1 ++ [x]) in
  (bfree x = true \/ uid ∉ uids (mem s) (baddr x) -> wp (walk d fuel uid on hend u) never Q s) ->
  (bfree x = false -> uid ∈ uids (mem s) (baddr x) ->
     wp ('(drc, u) ← d u (baddr x + HEADER_SIZE) (baddr x) uid;
         if drc <? 0 then unlock_ret (WReturn drc, u) else if 0 <? drc then mret (WRestart, u) else walk d fuel uid on hend u) never Q s) ->
  wp (walk d (S fuel) uid (heap_start (geo s) + tsize l1) hend u) never Q s.
Proof.
  intros Huid Hw hend on HQ1 HQ2. subst hend on. destruct (walk_position s l1 x l2 Hw) as (Ex & Exn & Hend & Hpos & Hok). pose proof Hok as [Hsz _]. pose proof (in_split l1 l2 x) as Hx.
  destruct (aw_heap _ _ Hw) as [F Hh]. pose proof (aw_geo _ _ Hw) as Hg. destruct (block_facts s _ F Hg Hh x Hx) as (_ & _ & Hhd & _).
  rewrite Ex. cbn [walk]. rewrite (proj2 (Z.ltb_lt _ _)) by lia. cbn [negb].
  apply wp_bind, (wp_signed _ s _ F x Hg Hh Hx). cbn [negb]. apply wp_bind, (wp_bsize _ s _ F x Hg Hh Hx). cbv zeta.
  rewrite (proj2 (Z.eqb_neq _ _)) by lia. rewrite (u64_small (_ - _)) by lia. rewrite (proj2 (Z.ltb_ge _ _)) by lia. cbn [orb].
  rewrite (u64_small (baddr x + bsize x)), Exn by lia.
  apply wp_bind, (wp_bfree _ s _ F x Hg Hh Hx). destruct (bfree x) eqn:Ef; [apply HQ1; by left|].
  rewrite (proj2 (Z.eqb_neq uid 0)) by done. apply wp_bind. apply wp_bind, wp_uid_find; [apply Hg|done|]. apply wp_ret.
  pose proof (find_index_elem (uids (mem s) (baddr x)) uid) as Hfe.
  destruct (Z.leb_spec 0 (find_index (fun u => u =? uid) (uids (mem s) (baddr x)) 0)) as [Hle|Hlt].
  - apply wp_bind, wp_ret. unfold ptr_from_block. rewrite u64_small by (unfold HEADER_SIZE; lia). apply HQ2; [done|by apply Hfe].
  - apply HQ1. right. intros Hu. apply Hfe in Hu. lia.
Qed.

Section contract.
Context {U : Type} (d : U -> Z -> Z -> Z -> TM (Z * U)) (uid : Z) (spared : Z -> Prop) (Inv : gmap Z Z -> list blk -> U -> Prop).
Hypothesis Huid : uid <> 0.

Definition count_owned (s : tlsf) (bs : list blk) : nat := length (owned_by uid (mem s) (used_of bs)).

(** The destructor sees a block [x] of [uid]: it answers 0 and has left the heap as it
    is, and [x] as one it spares; or it answers more and [uid] owns a block less. *)
Record left_it (s s' : tlsf) (l1 : list blk) (x : blk) (l2 : list blk) : Prop := LeftIt {
  li_work : at_work s' (l1 ++ x :: l2);
  li_spared : spared (rdm (mem s') (baddr x + OFF_sig_dc));
  li_uids : uids (mem s') (baddr x) = uids (mem s) (baddr x);
  li_payload : forall o, HEADER_SIZE <= o < bsize x -> rdm (mem s') (baddr x + o) = rdm (mem s) (baddr x + o);
  li_kept : forall y, in_use (l1 ++ l2) y -> kept y (mem s) (mem s') }.
Record took_it (s s' : tlsf) (bs bs' : list blk) : Prop := TookIt {
  ti_work : at_work s' bs';
  ti_less : (count_owned s' bs' < count_owned s bs)%nat;
  ti_spares : spares_others uid s bs s' bs' }.
Definition obeys : Prop := forall s l1 x l2 u, at_work s (l1 ++ x :: l2) -> Inv (mem s) (l1 ++ x :: l2) u -> bfree x = false ->
  uid ∈ uids (mem s) (baddr x) ->
  wp (d u (baddr x + HEADER_SIZE) (baddr x) uid) never (fun r s' => same_place s s' /\
    ((r.1 = 0 /\ left_it s s' l1 x l2 /\ Inv (mem s') (l1 ++ x :: l2) r.2) \/
     (0 < r.1 /\ exists bs', took_it s s' (l1 ++ x :: l2) bs' /\ Inv (mem s') bs' r.2))) s.
Hypothesis Hd : obeys.

(** Nothing of [uid] is left in [bs] but what is spared. *)
Definition swept (s : tlsf) (bs : list blk) : Prop :=
  forall y, y ∈ bs -> bfree y = false -> uid ∈ uids (mem s) (baddr y) -> spared (rdm (mem s) (baddr y + OFF_sig_dc)).

Lemma left_spares s s' l1 x l2 : at_work s (l1 ++ x :: l2) -> left_it s s' l1 x l2 -> spares_others uid s (l1 ++ x :: l2) s' (l1 ++ x :: l2).
Proof.
  intros Hw HL y v Hy Hf Hv H0 Hne. exists y. do 4 (split; [done|]). apply in_mid in Hy as Hy'. destruct Hy' as [->|Hy'].
  - split; [by rewrite (li_uids _ _ _ _ _ HL)|]. apply (li_payload _ _ _ _ _ HL).
  - assert (in_use (l1 ++ l2) y) as Hiu by (split; [done|]; by rewrite (proj1 (aw_settled _ _ Hw y Hy))).
    pose proof (li_kept _ _ _ _ _ HL y Hiu) as K. destruct (aw_heap _ _ Hw) as [F Hh].
    destruct (block_facts s _ F (aw_geo _ _ Hw) Hh y Hy) as (Hok & _). split; [by rewrite (kept_uids y _ _ Hok K)|].
    intros o Ho. apply K; unfold HEADER_SIZE in *; offs; lia.
Qed.
Lemma left_owned s s' l1 x l2 : at_work s (l1 ++ x :: l2) -> left_it s s' l1 x l2 -> count_owned s' (l1 ++ x :: l2) = count_owned s (l1 ++ x :: l2).
Proof.
  intros Hw HL. unfold count_owned. f_equal. apply owned_ext. intros [a n] Ha. apply used_of_in in Ha as (y & Hy & Hf & <- & _). cbn [fst]. destruct (aw_heap _ _ Hw) as [F Hh].
  destruct (block_facts s _ F (aw_geo _ _ Hw) Hh y Hy) as (Hok & _). apply in_mid in Hy as Hy'. destruct Hy' as [->|Hy']; [apply (li_uids _ _ _ _ _ HL)|].
  apply (kept_uids y _ _ Hok), (li_kept _ _ _ _ _ HL). split; [done|]. by rewrite (proj1 (aw_settled _ _ Hw y Hy)).
Qed.
Lemma left_swept s s' l1 x l2 : at_work s (l1 ++ x :: l2) -> left_it s s' l1 x l2 -> swept s l1 -> swept s' (l1 ++ [x]).
Proof.
  intros Hw HL Hs y Hy Hf Hu. apply elem_of_app in Hy as [Hy| ->%list_elem_of_singleton]; [|apply (li_spared _ _ _ _ _ HL)].
  assert (y ∈ l1 ++ x :: l2) as Hyb by (apply elem_of_app; by left). destruct (aw_heap _ _ Hw) as [F Hh].
  destruct (block_facts s _ F (aw_geo _ _ Hw) Hh y Hyb) as (Hok & _). pose proof Hok as [Hsz _].
  assert (kept y (mem s) (mem s')) as K.
  { apply (li_kept _ _ _ _ _ HL). split; [apply elem_of_app; by left|]. by rewrite (proj1 (aw_settled _ _ Hw y Hyb)). }
  rewrite (kept_uids y _ _ Hok K) in Hu. rewrite K by (offs; lia). by apply Hs.
Qed.

Lemma wp_walk (Q : walk_end * U -> tlsf -> Prop) g : forall fuel l2 l1 s u, geo s = g -> at_work s (l1 ++ l2) -> Inv (mem s) (l1 ++ l2) u -> swept s l1 ->
  (length l2 < fuel)%nat ->
  (forall s' u', at_work s' (l1 ++ l2) -> Inv (mem s') (l1 ++ l2) u' -> swept s' (l1 ++ l2) -> same_place s s' ->
     spares_others uid s (l1 ++ l2) s' (l1 ++ l2) -> Q (WDone, u') s') ->
  (forall s' bs' u', at_work s' bs' -> Inv (mem s') bs' u' -> (count_owned s' bs' < count_owned s (l1 ++ l2))%nat -> same_place s s' ->
     spares_others uid s (l1 ++ l2) s' bs' -> Q (WRestart, u') s') ->
  wp (walk d fuel uid (heap_start g + tsize l1) (heap_start g + heap_size g) u) never Q s.
Proof.
  induction fuel as [|fuel IH]; intros l2 l1 s u <- Hw HI Hs Hfuel HQ1 HQ2; [lia|]. cbn [walk]. destruct l2 as [|x l2].
  { rewrite app_nil_r in *. rewrite (walk_at_end s l1 Hw), Z.ltb_irrefl. apply wp_ret. apply HQ1; try done. apply spares_refl. }
  assert (l1 ++ x :: l2 = (l1 ++ [x]) ++ l2) as El by (by rewrite <- app_assoc). cbn [length] in Hfuel. apply (wp_walk_uid d Q fuel uid s l1 x l2 u Huid Hw).
  { intros Hpass. rewrite El in *. apply (IH l2 (l1 ++ [x])); try done; [|lia]. intros y Hy Hf Hu. apply elem_of_app in Hy as [Hy| ->%list_elem_of_singleton]; [by apply Hs|].
    destruct Hpass; [congruence|done]. }
  intros Ef Hin. apply wp_bind. eapply wp_mono; [by apply (Hd s l1 x l2 u)|done|].
  intros [rc u'] s' (Hpl & [(E & HL & HI')|(Hlt & bs' & [HW HC HS] & HI')]); cbn [fst snd] in *.
  - rewrite E, Z.ltb_irrefl. pose proof (left_spares s s' l1 x l2 Hw HL) as HS. pose proof (left_owned s s' l1 x l2 Hw HL) as HC.
    pose proof (left_swept s s' l1 x l2 Hw HL Hs) as Hs'. pose proof (li_work _ _ _ _ _ HL) as HW. rewrite El in *.
    apply (IH l2 (l1 ++ [x])); [apply Hpl|exact HW|exact HI'|exact Hs'|lia|..].
    + intros s2 u2 W2 I2 S2 P2 O2. apply HQ1; try done; [by destruct Hpl, P2; split; congruence|by eapply spares_trans].
    + intros s2 bs2 u2 W2 I2 C2 P2 O2. apply (HQ2 s2 bs2); try done; [lia|by destruct Hpl, P2; split; congruence|by eapply spares_trans].
  - rewrite (proj2 (Z.ltb_ge rc 0)), (proj2 (Z.ltb_lt 0 rc)) by lia. apply wp_ret. by apply (HQ2 s' bs').
Qed.

Lemma wp_walk_rounds (Q : Z * U -> tlsf -> Prop) fuel g : heap_size g / 128 < Z.of_nat fuel -> forall rounds s bs u,
  geo s = g -> at_work s bs -> Inv (mem s) bs u -> (count_owned s bs < rounds)%nat ->
  (forall s' bs' u', pool_ok (set_mutex mutex_free s') bs' -> Inv (mem s') bs' u' -> swept s' bs' -> same_place s s' -> spares_others uid s bs s' bs' ->
     Q (0, u') (set_mutex mutex_free s')) ->
  wp (walk_rounds d rounds fuel uid u) never Q s.
Proof.
  intros Hfuel. induction rounds as [|rounds IH]; intros s bs u Eg Hw HI Hc HQ; [lia|]. cbn [walk_rounds].
  apply wp_bind, wp_gets. apply wp_bind, wp_gets. rewrite Eg. apply wp_bind.
  replace (heap_start g) with (heap_start g + tsize []) at 1 by (cbn; lia).
  apply (wp_walk _ g fuel bs []); try done.
  - intros y Hy. by apply not_elem_of_nil in Hy.
  - eapply fuel_enough; [exact Hw|]. by rewrite Eg.
  - intros s' u' W' I' S' P' O'. apply wp_leave; [apply W'|apply W'|]. cbn [app] in *. apply (HQ s' bs); try done. by apply leave_pool.
  - intros s' bs' u' W' I' C' P' O'. cbn [app] in *. apply (IH s' bs'); [destruct P'; congruence|done|done|lia|].
    intros s2 bs2 u2 W2 I2 S2 P2 O2. apply (HQ s2 bs2); try done; [by destruct P', P2; split; congruence|by eapply spares_trans].
Qed.
End contract.

(** The operation on a pool at rest takes the lock and starts at the first block. *)
Lemma wp_walk_begin {U} (d : U -> Z -> Z -> Z -> TM (Z * U)) (Q : Z * U -> tlsf -> Prop) rounds fuel s bs h uid u : pool_ok s bs -> h <> 0 ->
  (forall s1, at_work s1 bs -> geo s1 = geo s -> mem s1 = mem s -> wp (walk_rounds d rounds fuel uid u) never Q s1) ->
  wp (tlsf_free_uid_blocks rounds fuel h uid (Some d) u) never Q s.
Proof.
  intros (Hq & Ha & Hg & Hset & F & Hh) Hnz HQ. unfold tlsf_free_uid_blocks. rewrite (proj2 (Z.eqb_neq h 0)) by done. apply wp_bind, wp_enter; [done|done|].
  intros s1 Eg Ei Em Es Ha1 Ht1 Emx. change (Err.OK =? Err.OK) with true. cbn [negb]. apply HQ; try done.
  split; [by rewrite Eg|done|done|by rewrite Es|rewrite Es; apply Hq|done|]. exists F. eapply heap_ok_same; [..|exact Hh]; done.
Qed.
Lemma wp_one_round {U} (d : U -> Z -> Z -> Z -> TM (Z * U)) (Q : Z * U -> tlsf -> Prop) rounds fuel s uid u : rounds <> 0%nat ->
  wp (walk d fuel uid (heap_start (geo s) + tsize []) (heap_start (geo s) + heap_size (geo s)) u) never
    (fun '(e, u') s' => match e with WDone => wp (unlock_ret (0, u')) never Q s' | WReturn r => Q (r, u') s' | WRestart => False end) s ->
  wp (walk_rounds d rounds fuel uid u) never Q s.
Proof.
  intros Hr H. destruct rounds as [|rounds]; [done|]. cbn [walk_rounds]. apply wp_bind, wp_gets. apply wp_bind, wp_gets. apply wp_bind.
  cbn [tsize] in H. rewrite Z.add_0_r in H. eapply wp_mono; [exact H|done|]. intros [e u'] s' HQ; destruct e; [exact HQ|done|by apply wp_ret].
Qed.

(** The whole operation, on a pool at rest. *)
Lemma free_uid_blocks_run {U} (d : U -> Z -> Z -> Z -> TM (Z * U)) uid spared Inv rounds fuel s bs h u :
  obeys d uid spared Inv -> pool_ok s bs -> h <> 0 -> uid <> 0 -> Inv (mem s) bs u ->
  heap_size (geo s) / 128 < Z.of_nat fuel -> heap_size (geo s) / 128 < Z.of_nat rounds ->
  exists s' bs' u', tlsf_free_uid_blocks rounds fuel h uid (Some d) u s = Ret (0, u') s' /\
    pool_ok s' bs' /\ Inv (mem s') bs' u' /\ swept uid spared s' bs' /\ spares_others uid s bs s' bs'.
Proof.
  intros Hd Hp Hnz Hu HI Hfuel Hrounds.
  cut (wp (tlsf_free_uid_blocks rounds fuel h uid (Some d) u) never (fun r s' => exists bs', r.1 = 0 /\ pool_ok s' bs' /\
    Inv (mem s') bs' r.2 /\ swept uid spared s' bs' /\ spares_others uid s bs s' bs') s).
  { intros H. apply wp_never in H as ([rc u'] & s' & E & bs' & Erc & H). cbn in Erc. subst rc. by exists s', bs', u'. }
  apply (wp_walk_begin d _ rounds fuel s bs h uid u Hp Hnz). intros s1 Hw Eg Em.
  apply (wp_walk_rounds d uid spared Inv Hu Hd _ fuel (geo s) Hfuel rounds s1 bs); try done; [by rewrite Em| |].
  - assert (count_owned uid s1 bs <= length bs)%nat as Hle.
    { unfold count_owned, owned_by, used_of. etrans; [apply length_filter|]. rewrite length_fmap. apply length_filter. }
    pose proof (blocks_bound s1 bs Hw) as Hb. rewrite Eg in Hb. assert (Z.of_nat (length bs) <= heap_size (geo s) / 128) by (apply Z.div_le_lower_bound; lia). lia.
  - intros s' bs' u' Hp' I' S' P' O'. exists bs'. split; [done|]. split; [done|]. split; [done|]. split; [done|].
    intros y v Hy Hf Hv H0 Hne. rewrite <- Em in Hv. destruct (O' y v Hy Hf Hv H0 Hne) as (z & K). exists z. cbn [mem set_mutex]. by rewrite Em in K.
Qed.

(** ** A destructor that only looks

    It answers 0 and leaves the blocks where they are, so that the walk comes by each of
    them once; [J] says what holds when the blocks before a place have been seen. *)
Section once.
Context {U : Type} (d : U -> Z -> Z -> Z -> TM (Z * U)) (uid : Z) (J : list blk -> list blk -> gmap Z Z -> U -> Prop).
Hypothesis Huid : uid <> 0.
Definition looks : Prop := forall s l1 x l2 u, at_work s (l1 ++ x :: l2) -> J l1 (x :: l2) (mem s) u -> bfree x = false -> uid ∈ uids (mem s) (baddr x) ->
  wp (d u (baddr x + HEADER_SIZE) (baddr x) uid) never (fun r s' => same_place s s' /\ r.1 = 0 /\ at_work s' (l1 ++ x :: l2) /\ J (l1 ++ [x]) l2 (mem s') r.2) s.
Definition passes_by : Prop := forall l1 x l2 m u, J l1 (x :: l2) m u -> bfree x = true \/ uid ∉ uids m (baddr x) -> J (l1 ++ [x]) l2 m u.
Hypothesis Hd : looks.
Hypothesis Hby : passes_by.

Lemma wp_walk_once (Q : walk_end * U -> tlsf -> Prop) : forall fuel l2 l1 s u, at_work s (l1 ++ l2) -> J l1 l2 (mem s) u -> (length l2 < fuel)%nat ->
  (forall s' u', at_work s' (l1 ++ l2) -> J (l1 ++ l2) [] (mem s') u' -> same_place s s' -> Q (WDone, u') s') ->
  wp (walk d fuel uid (heap_start (geo s) + tsize l1) (heap_start (geo s) + heap_size (geo s)) u) never Q s.
Proof.
  induction fuel as [|fuel IH]; intros l2 l1 s u Hw HJ Hfuel HQ; [lia|]. destruct l2 as [|x l2].
  { rewrite app_nil_r in *. rewrite (walk_at_end s l1 Hw). cbn [walk]. rewrite Z.ltb_irrefl. apply wp_ret. by apply HQ. }
  assert (l1 ++ x :: l2 = (l1 ++ [x]) ++ l2) as El by (by rewrite <- app_assoc). cbn [length] in Hfuel. apply (wp_walk_uid d Q fuel uid s l1 x l2 u Huid Hw).
  - intros Hpass. pose proof (Hby _ _ _ _ _ HJ Hpass) as HJ'. rewrite El in *. apply (IH l2 (l1 ++ [x])); [done|done|lia|exact HQ].
  - intros Ef Hin. apply wp_bind. eapply wp_mono; [by apply (Hd s l1 x l2 u)|done|].
    intros [rc u'] s' (Hpl & E & Hw' & HJ'). cbn [fst snd] in *. subst rc. rewrite !Z.ltb_irrefl. pose proof Hpl as [Eg _]. rewrite El, <- Eg in *.
    apply (IH l2 (l1 ++ [x])); [done|done|lia|]. intros s2 u2 W2 J2 P2. apply HQ; [done|done|by destruct Hpl, P2; split; congruence].
Qed.
Lemma free_uid_blocks_once rounds fuel s bs h u : pool_ok s bs -> h <> 0 -> J [] bs (mem s) u -> heap_size (geo s) / 128 < Z.of_nat fuel -> rounds <> 0%nat ->
  exists s' u', tlsf_free_uid_blocks rounds fuel h uid (Some d) u s = Ret (0, u') s' /\ pool_ok s' bs /\ J bs [] (mem s') u'.
Proof.
  intros Hp Hnz HJ Hfuel Hrounds.
  cut (wp (tlsf_free_uid_blocks rounds fuel h uid (Some d) u) never (fun r s' => r.1 = 0 /\ pool_ok s' bs /\ J bs [] (mem s') r.2) s).
  { intros H. apply wp_never in H as ([rc u'] & s' & E & Erc & H). cbn in Erc. subst rc. by exists s', u'. }
  apply (wp_walk_begin d _ rounds fuel s bs h uid u Hp Hnz). intros s1 Hw Eg Em. apply wp_one_round; [done|].
  apply (wp_walk_once _ fuel bs [] s1 u Hw); [by rewrite Em|by eapply fuel_enough; [|rewrite Eg]|].
  intros s' u' W' J' P'. apply wp_leave; [apply W'|apply W'|]. split; [done|]. split; [by apply leave_pool|exact J'].
Qed.
End once.

(** ** A destructor that frees *)

Lemma owned_drop uid m m' l a n : (a, n) ∈ l -> uid ∈ uids m a -> uid ∉ uids m' a ->
  (forall p, p ∈ l -> p.1 <> a -> uids m' p.1 = uids m p.1) -> (length (owned_by uid m' l) < length (owned_by uid m l))%nat.
Proof.
  intros Hin Hu Hnu Hsame. apply list_elem_of_split in Hin as (l1 & l2 & ->). unfold owned_by. rewrite !filter_app, !filter_cons, !length_app.
  rewrite decide_False, decide_True by done. cbn [length].
  assert (forall k, (forall p, p ∈ k -> p ∈ l1 ++ (a, n) :: l2) -> (length (filter (fun p => uid ∈ uids m' p.1) k) <= length (filter (fun p => uid ∈ uids m p.1) k))%nat) as H.
  { induction k as [|p k IH]; intros Hk; [done|]. rewrite !filter_cons. specialize (IH ltac:(intros q Hq; by apply Hk, list_elem_of_further)).
    specialize (Hk p (list_elem_of_here _ _)). destruct (decide (p.1 = a)) as [E|E].
    - rewrite (decide_False (P := uid ∈ uids m' p.1)) by (by rewrite E). destruct (decide _); cbn [length]; lia.
    - rewrite (Hsame p Hk E). destruct (decide _); cbn [length]; lia. }
  pose proof (H l1 ltac:(intros p Hp; apply elem_of_app; by left)). pose proof (H l2 ltac:(intros p Hp; apply elem_of_app; right; by apply list_elem_of_further)). lia.
Qed.
Lemma drop_owner_gone uid us : uid <> 0 -> uid ∉ drop_owner uid us.
Proof. intros H Hin. unfold drop_owner in Hin. apply list_elem_of_fmap in Hin as (u & E & _). destruct (Z.eqb_spec u uid); congruence. Qed.
Lemma drop_owner_stays uid v us : v <> uid -> v ∈ us -> v ∈ drop_owner uid us.
Proof. intros H Hin. unfold drop_owner. apply list_elem_of_fmap. exists v. by rewrite (proj2 (Z.eqb_neq v uid)). Qed.

(** [tlsf_free_nb] on a block of [uid], the lock held: the block keeps its other owners,
    or goes back to the heap. *)
Record nb_done (uid : Z) (s s' : tlsf) (l1 : list blk) (x : blk) (l2 bs' : list blk) : Prop := NbDone {
  nd_place : same_place s s';
  nd_work : at_work s' bs';
  nd_kept : forall y, y ∈ l1 ++ x :: l2 -> bfree y = false -> baddr y <> baddr x -> kept y (mem s) (mem s');
  nd_heads : heads_stay bs' s s';
  nd_block : let us := drop_owner uid (uids (mem s) (baddr x)) in
    (owners us <> [] /\ bs' = l1 ++ x :: l2 /\ uids (mem s') (baddr x) = us /\ same_but_owners (baddr x) (mem s) (mem s')) \/
    (owners us = [] /\ bs' = give_back l1 x l2) }.
Lemma others_in_use s l1 x l2 y : at_work s (l1 ++ x :: l2) -> y ∈ l1 ++ x :: l2 -> bfree y = false -> baddr y <> baddr x -> in_use (l1 ++ l2) y.
Proof.
  intros Hw Hy Hfy Hne. pose proof (proj1 (aw_settled _ _ Hw y Hy)) as Hly. apply in_mid in Hy as [->|Hy]; [done|]. split; [done|congruence].
Qed.
Lemma nb_run s l1 x l2 h uid : at_work s (l1 ++ x :: l2) -> bfree x = false -> h <> 0 -> uid <> 0 -> uid ∈ uids (mem s) (baddr x) ->
  wp (tlsf_free_nb h (baddr x + HEADER_SIZE) uid) never (fun _ s' => exists bs', nb_done uid s s' l1 x l2 bs') s.
Proof.
  intros Hw Hf Hnz Hu Hin. pose proof Hw as [Hg Ha Ht Hmx Hself Hset [F Hh]]. pose proof (in_split l1 l2 x) as Hx.
  destruct (block_facts s _ F Hg Hh x Hx) as ([Hsz _] & [Hal Hpos] & _).
  unfold tlsf_free_nb. rewrite (proj2 (Z.eqb_neq h _)), (proj2 (Z.eqb_neq (_ + _) _)), (proj2 (Z.eqb_neq uid _)) by (done || unfold HEADER_SIZE; lia). cbn [orb].
  apply wp_bind, (wp_free_internal _ s l1 x l2 F); try done; [lia|..].
  - intros s1 (G1 & X1 & T1 & L1) Ho H1 Hu1 Hs1. apply wp_commit_alive; [done|]. intros t Et. exists (l1 ++ x :: l2).
    destruct (heap_inside s _ F x (mem s1) Hg Hh Hx) as [_ (_ & _ & K)]; [by rewrite (proj1 (Hset x Hx))|apply H1|intros q Hq; apply Hs1; offs; lia| |].
    { rewrite Hs1 by (offs; lia). by apply (block_reads s _ F Hh x Hx). }
    split; [done| | | |by left].
    + split; cbn; try done; [by rewrite G1|by rewrite X1, T1|by rewrite T1|]. exists F. eapply heap_ok_same; [..|exact H1]; done.
    + intros y Hy _ Hne. apply K. split; [done|congruence].
    + intros a o _ Haa Ho' _. cbn [mem set_txn]. apply Hs1. pose proof (Z.div_mod a 64). pose proof (Z.div_mod (baddr x) 64). offs. lia.
  - intros s1 F1 (G1 & X1 & T1 & L1) Ho H1 [_ _ K] Wh. apply wp_commit_alive; [done|]. intros t Et. exists (give_back l1 x l2).
    split; [done| |intros y Hy Hfy Hne; by apply K, (others_in_use s l1 x l2)|done|by right].
    split; cbn; try done; [by rewrite G1|by rewrite X1, T1|by rewrite T1|by apply give_back_settled|]. exists F1. eapply heap_ok_same; [..|exact H1]; done.
Qed.

Section nb_took.
Context (uid : Z) (s s' : tlsf) (l1 : list blk) (x : blk) (l2 bs' : list blk).
Context (Hw : at_work s (l1 ++ x :: l2)) (Hf : bfree x = false) (Hu : uid <> 0) (Hin : uid ∈ uids (mem s) (baddr x)) (HD : nb_done uid s s' l1 x l2 bs').

Lemma others_uids y : y ∈ l1 ++ x :: l2 -> bfree y = false -> baddr y <> baddr x -> uids (mem s') (baddr y) = uids (mem s) (baddr y).
Proof.
  intros Hy Hfy Hne. destruct (aw_heap _ _ Hw) as [F Hh]. destruct (block_facts s _ F (aw_geo _ _ Hw) Hh y Hy) as (Hok & _).
  apply (kept_uids y _ _ Hok), (nd_kept _ _ _ _ _ _ _ HD); done.
Qed.
Lemma nb_used : (used_of bs' = used_of (l1 ++ x :: l2) /\ rdm (mem s') (baddr x + OFF_sig_dc) = rdm (mem s) (baddr x + OFF_sig_dc)) \/
  used_of bs' = used_of l1 ++ used_of l2.
Proof.
  destruct (nd_block _ _ _ _ _ _ _ HD) as [(_ & Eb & _ & Hs)|(_ & Eb)]; rewrite Eb; [left; split; [done|apply Hs; offs; lia]|right; apply used_of_give_back].
Qed.
Lemma nb_less : (count_owned uid s' bs' < count_owned uid s (l1 ++ x :: l2))%nat.
Proof.
  unfold count_owned. destruct (nd_block _ _ _ _ _ _ _ HD) as [(_ & Eb & Hu' & _)|(_ & Eb)]; rewrite Eb.
  - apply (owned_drop uid _ _ _ (baddr x) (bsize x)); [apply used_of_in; exists x; split; [apply in_split|done]|done|rewrite Hu'; by apply drop_owner_gone|].
    intros [b n] Hp Hne. apply used_of_in in Hp as (y & Hy & Hfy & <- & _). cbn [fst] in *. by apply others_uids.
  - rewrite used_of_give_back, (used_of_app l1), used_of_cons, Hf. cbn [app].
    assert (owned_by uid (mem s') (used_of l1 ++ used_of l2) = owned_by uid (mem s) (used_of l1 ++ used_of l2)) as ->.
    { apply owned_ext. intros [b n] Hp. rewrite <- used_of_app in Hp. apply used_of_in in Hp as (y & Hy & Hfy & <- & _). cbn [fst].
      destruct (aw_heap _ _ Hw) as [F Hh]. apply others_uids; [by apply in_mid; right|done|]. by apply (rest_apart s l1 x l2 F y (aw_geo _ _ Hw) Hh). }
    unfold owned_by. rewrite !filter_app, filter_cons, !length_app, decide_True by done. cbn [length]. lia.
Qed.
Lemma nb_spares : spares_others uid s (l1 ++ x :: l2) s' bs'.
Proof.
  intros y v Hy Hfy Hv H0 Hne. destruct (decide (baddr y = baddr x)) as [E|E].
  - destruct (nd_block _ _ _ _ _ _ _ HD) as [(_ & Eb & Hu' & Hs)|(Ho & _)].
    + rewrite Eb. exists y. do 4 (split; [done|]). rewrite E in *. split; [rewrite Hu'; by apply drop_owner_stays|]. intros o Hoo. apply Hs. unfold HEADER_SIZE in Hoo. offs. lia.
    + exfalso. assert (v ∈ owners (drop_owner uid (uids (mem s) (baddr x)))) as Hvo; [|rewrite Ho in Hvo; by apply not_elem_of_nil in Hvo].
      apply list_elem_of_filter. split; [done|]. apply drop_owner_stays; congruence.
  - pose proof (nd_kept _ _ _ _ _ _ _ HD y Hy Hfy E) as Ky. 
    assert ((baddr y, bsize y) ∈ used_of bs') as Hin'.
    { destruct nb_used as [[-> _]| ->]; [apply used_of_in; by exists y|]. rewrite <- used_of_app. apply used_of_in. exists y. split; [|done].
      by destruct (others_in_use s l1 x l2 y Hw Hy Hfy E). }
    apply used_of_in in Hin' as (z & Hz & Hfz & Ea & Es). exists z. do 4 (split; [done|]).
    split; [by rewrite others_uids|]. intros o Hoo. apply Ky; unfold HEADER_SIZE in Hoo; offs; lia.
Qed.
End nb_took.
Lemma nb_took s l1 x l2 h uid : at_work s (l1 ++ x :: l2) -> bfree x = false -> h <> 0 -> uid <> 0 -> uid ∈ uids (mem s) (baddr x) ->
  wp (tlsf_free_nb h (baddr x + HEADER_SIZE) uid) never (fun _ s' => same_place s s' /\ exists bs', took_it uid s s' (l1 ++ x :: l2) bs' /\
    ((used_of bs' = used_of (l1 ++ x :: l2) /\ rdm (mem s') (baddr x + OFF_sig_dc) = rdm (mem s) (baddr x + OFF_sig_dc)) \/ used_of bs' = used_of l1 ++ used_of l2) /\
    forall y, y ∈ l1 ++ x :: l2 -> bfree y = false -> baddr y <> baddr x -> kept y (mem s) (mem s')) s.
Proof.
  intros Hw Hf Hnz Hu Hin. eapply wp_mono; [by apply nb_run|done|]. intros [] s' (bs' & HD). split; [apply HD|]. exists bs'.
  split; [|split; [by eapply nb_used|apply HD]]. split; [apply HD|by eapply nb_less|by eapply nb_spares].
Qed.

(** ** Blocks that are left *)

Lemma live_block s bs x : at_work s bs -> x ∈ bs -> bfree x = false -> live s (baddr x).
Proof.
  intros Hw Hx Hf. destruct (aw_heap _ _ Hw) as [F Hh]. destruct (block_facts s _ F (aw_geo _ _ Hw) Hh x Hx) as (Hok & [_ Hpos] & Hhd & _).
  destruct (block_reads s _ F Hh x Hx) as [Ew Es]. split; [done|]. split; [lia|]. split; [done|]. unfold rd. rewrite Ew.
  pose proof (blk_word_free x Hok) as E. rewrite Hf in E. by apply negb_false_iff, Z.eqb_eq in E.
Qed.
Lemma left_as_is spared s l1 x l2 : at_work s (l1 ++ x :: l2) -> spared (rdm (mem s) (baddr x + OFF_sig_dc)) -> left_it spared s s l1 x l2.
Proof. by split. Qed.

(** [tlsf_setdc], the lock held. *)
Definition marked_mem (x : blk) (m : gmap Z Z) : gmap Z Z :=
  <[baddr x + OFF_sig_dc := Z.lor (rdm m (baddr x + OFF_sig_dc)) SIG_DC_DC_BIT]> m.
Lemma mark_left (spared : Z -> Prop) s l1 x l2 : at_work s (l1 ++ x :: l2) -> bfree x = false -> 
  spared (Z.lor (rdm (mem s) (baddr x + OFF_sig_dc)) SIG_DC_DC_BIT) -> left_it spared s (set_mem (marked_mem x (mem s)) s) l1 x l2.
Proof.
  intros [Hg Ha Ht Hmx Hself Hset [F Hh]] Hf Hsp. pose proof (in_split l1 l2 x) as Hx. destruct (block_facts s _ F Hg Hh x Hx) as ([Hsz _] & _).
  destruct (block_reads s _ F Hh x Hx) as [_ Esig].
  assert (mem_ok (marked_mem x (mem s))) as Hm by (apply mem_ok_put; [apply Hh|]; apply dc_word_range, Hh).
  assert (forall q, q <> baddr x + OFF_sig_dc -> rdm (marked_mem x (mem s)) q = rdm (mem s) q) as Hq by (intros q Hne; by apply rdm_insert_ne).
  assert (rdm (marked_mem x (mem s)) (baddr x + OFF_sig_dc) = Z.lor (rdm (mem s) (baddr x + OFF_sig_dc)) SIG_DC_DC_BIT) as Ew by apply rdm_insert_eq.
  destruct (heap_inside s _ F x (marked_mem x (mem s)) Hg Hh Hx) as [H' (_ & _ & K)]; [by rewrite (proj1 (Hset x Hx))|done| | |].
  { intros q Hqq. apply Hq. offs. lia. }
  { rewrite Ew. by rewrite (proj2 (proj2 (set_dc_word _))). }
  split.
  - split; cbn; try done. by exists F.
  - cbn. by rewrite Ew.
  - cbn. apply uids_ext. intros o Ho. apply Hq. offs. lia.
  - cbn. intros o Ho. apply Hq. unfold HEADER_SIZE in Ho. offs. lia.
  - intros y [Hy Hl]. apply K. split; [apply in_mid; by right|]. intros ->. by apply (rest_apart s l1 x l2 F x Hg Hh Hy).
Qed.
Lemma wp_mark (Q : Z -> tlsf -> Prop) s l1 x l2 h : at_work s (l1 ++ x :: l2) -> bfree x = false -> h <> 0 ->
  Q 0 (set_mem (marked_mem x (mem s)) s) -> wp (tlsf_setdc h (baddr x + HEADER_SIZE)) never Q s.
Proof.
  intros Hw Hf Hh HQ. pose proof (live_block s _ x Hw (in_split l1 l2 x) Hf) as Hl. pose proof (proj1 (aw_geo _ _ Hw)) as Hg.
  apply wp_bind, wp_dc_precheck; [done..|]. destruct Hl as (Hhd & _). destruct (aw_heap _ _ Hw) as [F Hhp].
  apply wp_bind, wp_load_fld; [done..|]. apply wp_bind, wp_store_fld; [done..|apply Hw|apply dc_word_range, Hhp|]. by apply wp_ret.
Qed.
