(* ===== verification/TlsfRealloc.v ===== *)
(** Reallocation ([tlsf_realloc] of [tlsf_txn.c]) on the tiling of the heap: a block is
    cut, grown over the free block after it, or moved; what its owner wrote in it is
    kept. *)
From stdpp Require Import functions.
From S2P Require Import Prelude Machine TlsfTypes TlsfBul TlsfHeap TlsfAlloc TlsfApi TlsfFacts TlsfHoare TlsfTxn TlsfOwners TlsfOwnership TlsfSpec TlsfLists TlsfTiling TlsfBlocks TlsfMalloc TlsfFree TlsfPool TlsfWalk.

(** What a change of the block [x] at its place keeps: the words it still has, and the
    other blocks in use. *)
Record resized (s s' : tlsf) (l1 : list blk) (x : blk) (l2 : list blk) (total : Z) : Prop := Resized {
  rz_held : held s s';
  rz_words : forall o, 8 <= o < Z.min (bsize x) total -> o <> OFF_prev_size -> rdm (mem s') (baddr x + o) = rdm (mem s) (baddr x + o);
  rz_kept : forall y, in_use (l1 ++ l2) y -> kept y (mem s) (mem s') }.
Lemma held_trans s1 s2 s3 : held s1 s2 -> held s2 s3 -> held s1 s3.
Proof. intros (A1 & B1 & C1 & _) (A2 & B2 & C2 & D2). unfold held. split_and!; congruence. Qed.
Lemma moves_held P s s' : alive s -> moves P s s' -> held s s'.
Proof. intros Ha M. pose proof (moves_alive _ _ _ M Ha). destruct M as ((E1 & E2 & E3 & _) & _). unfold held. by rewrite E1, E2, E3. Qed.

(** The accounting at the end of a change in place; the block at [a] has its new size. *)
Lemma wp_account (g : Z -> Z -> Z) (Q : Z -> tlsf -> Prop) s l1 z l2 F : pool_geo (geo s) -> alive s -> heap_ok s (l1 ++ z :: l2) F ->
  (forall s', heap_ok s' (l1 ++ z :: l2) F -> held s s' -> (forall a, a <> used_addr s -> rdm (mem s') a = rdm (mem s) a) -> Q 1 s') ->
  wp (pl ← block_payload_size (baddr z); used ← get_used_bytes; set_used_bytes (u64 (g used pl)) ;; mret 1) never Q s.
Proof.
  intros Hg Ha Hh HQ. pose proof (in_split l1 l2 z) as Hz. destruct (used_before s _ F z Hg Hh Hz) as (U1 & U2 & U3).
  apply wp_bind, (wp_bpayload _ s _ F z Hg Hh Hz). apply wp_bind. apply wp_bind, wp_gets. apply wp_load; [done|].
  apply wp_bind. apply wp_bind, wp_gets. apply wp_store_alive; [done|done|apply u64_range|]. apply wp_ret.
  destruct (heap_before s _ F (used_addr s) (u64 (g (rd s (used_addr s)) (bsize z - HEADER_SIZE))) Hg Hh U1 (u64_range _)) as [H1 _].
  apply HQ; [exact H1|done|]. intros a Hne. by apply rdm_insert_ne.
Qed.
Lemma wp_push_used (Q : bool -> tlsf -> Prop) s x bs F : pool_geo (geo s) -> alive s -> heap_ok s bs F -> x ∈ bs ->
  0 <= stack_top (txn s) < MAX_BUL_ENTRIES -> (forall t, stack_top t = stack_top (txn s) + 1 -> Q true (set_txn t s)) -> wp push_used_bytes never Q s.
Proof.
  intros Hg Ha Hh Hx Ht HQ. destruct (used_before s _ F x Hg Hh Hx) as (U1 & U2 & U3). apply wp_bind, wp_gets. by apply wp_push_alive.
Qed.
(** Words of the accounting are none of a block's. *)
Lemma account_kept s bs F y m m' : pool_geo (geo s) -> heap_ok s bs F -> y ∈ bs -> (forall a, a <> used_addr s -> rdm m' a = rdm m a) ->
  forall o, 0 <= o -> rdm m' (baddr y + o) = rdm m (baddr y + o).
Proof. intros Hg Hh Hy H o Ho. apply H. destruct (used_before s _ F y Hg Hh Hy) as (U1 & U2 & _). lia. Qed.

(** A block that grew and whose successor does not ask for its size is not stale. *)
Lemma heap_unstale s l1 z y l2 F : pool_geo (geo s) -> heap_ok s (l1 ++ z :: y :: l2) F -> bprev y = false ->
  heap_ok s (l1 ++ set_bstale false z :: y :: l2) F.
Proof.
  intros Hg Hh Hp. pose proof (hp_tiled _ _ _ Hh) as Ht. apply tiled_app in Ht as [_ Ht]. cbn in Ht.
  destruct (heap_region s (mem s) l1 [z; y] [set_bstale false z; y] l2 F) as (R1 & _); try done; [apply Hh| |by right; left| |by rewrite set_mem_id in R1].
  - cbn [tiled tsize]. cbn. destruct Ht as (E1 & E2 & E3 & E4 & E5 & E6 & E7 & E8 & E9 & E10 & E11 & E12 & E13). split_and!; try done; try lia. congruence.
  - unfold listed_of. rewrite !filter_cons. cbn. by destruct (blisted z), (blisted y).
Qed.

(** ** A block is cut *)

Lemma wp_shrink (Q : Z -> tlsf -> Prop) s l1 x l2 F total : pool_geo (geo s) -> alive s -> heap_ok s (l1 ++ x :: l2) F -> blisted x = false ->
  stack_top (txn s) = 0 -> 128 <= total -> total mod 64 = 0 -> 128 <= bsize x - total ->
  (forall s' F', heap_ok s' (l1 ++ set_bsize total x :: set_blisted true (remainder_of x total) :: flag_next true l2) F' -> resized s s' l1 x l2 total -> Q 1 s') ->
  wp (unless bul_push_word (addr_size_flags (baddr x)) return mret (-1) ;;
      unless push_used_bytes return mret (-1) ;;
      split_block (baddr x) total ;;
      pl ← block_payload_size (baddr x);
      used ← get_used_bytes;
      set_used_bytes (u64 (used - u64 (bsize x - HEADER_SIZE - pl))) ;;
      mret 1) never Q s.
Proof.
  intros Hg Ha Hh Hl Ht H1 H2 H3 HQ. pose proof (in_split l1 l2 x) as Hx. pose proof (spot_of s _ F x Hg Hh Hx) as Hsp.
  apply wp_ensure, wp_push_spot; try done; [unfold MAX_BUL_ENTRIES; lia|]. intros t1 E1.
  assert (heap_ok (set_txn t1 s) (l1 ++ x :: l2) F) as Hh1 by (eapply heap_ok_same; [..|exact Hh]; done).
  apply wp_ensure, (wp_push_used _ _ x (l1 ++ x :: l2) F); try done; [unfold MAX_BUL_ENTRIES; cbn; lia|]. intros t2 E2.
  change (set_txn t2 (set_txn t1 s)) with (set_txn t2 s). assert (heap_ok (set_txn t2 s) (l1 ++ x :: l2) F) as Hh2 by (eapply heap_ok_same; [..|exact Hh]; done).
  apply wp_bind, (wp_split_block _ _ (set_txn t2 s) l1 x l2 F); try done. intros s1 F1 Hs1 M1. pose proof (moves_held _ (set_txn t2 s) s1 Ha M1) as Hd.
  assert (pool_geo (geo s1) /\ alive s1) as [Hg1 Ha1] by (destruct Hd as (-> & _ & _ & ?); done).
  apply (wp_account (fun used pl => used - u64 (bsize x - HEADER_SIZE - pl)) _ s1 l1 (set_bsize total x) (set_blisted true (remainder_of x total) :: flag_next true l2) F1); [done|done|exact Hs1|].
  intros s' Hh' Hd' Hm. apply (HQ s' F1); [done|]. destruct M1 as (_ & _ & K).
  assert (forall y, y ∈ l1 ++ x :: l2 -> forall o, 0 <= o -> rdm (mem s') (baddr y + o) = rdm (mem s1) (baddr y + o)) as Hacc.
  { intros y Hy. eapply (account_kept s _ F y); [done|done|done|]. intros a Hne. apply Hm. unfold used_addr in *. by rewrite (proj1 Hd). }
  split; [exact (held_trans s s1 s' Hd Hd')| |].
  - intros o Ho Hne. rewrite (Hacc x Hx) by lia. apply (K (set_bsize total x)); [by left|cbn; lia|done].
  - intros y Hy o Ho Hne. rewrite Hacc by (try apply in_mid; try right; try apply Hy; lia). apply (K y); [by right|done|done].
Qed.

(** ** A block grows *)

(** The block at [a] and those after it, once it has its size. *)
Record grown (z : blk) (l2 : list blk) (total : Z) (z' : blk) (l3 : list blk) : Prop := Grown {
  gr_addr : baddr z' = baddr z;
  gr_free : bfree z' = bfree z;
  gr_listed : blisted z' = false;
  gr_stale : bstale z' = false;
  gr_size : total <= bsize z';
  gr_used : used_of l3 = used_of l2;
  gr_calm : calm_list l3 }.

Lemma wp_grow_end (Q : bool -> tlsf -> Prop) s l1 z l2 F total : pool_geo (geo s) -> alive s -> heap_ok s (l1 ++ z :: l2) F -> blisted z = false ->
  0 <= stack_top (txn s) < 8 -> 128 <= total <= bsize z -> total mod 64 = 0 -> calm_list l2 ->
  (forall s' z' l3 F', heap_ok s' (l1 ++ z' :: l3) F' -> grown z l2 total z' l3 -> held s s' ->
     (forall y, y = set_bsize total z \/ in_use (l1 ++ l2) y -> kept y (mem s) (mem s')) -> Q true s') ->
  wp (if MIN_BLOCK_SZ <=? u64 (bsize z - total) then split_block (baddr z) total ;; mret true
      else after ← block_next (baddr z);
           if after <? heap_start (geo s) + heap_size (geo s) then
             unless bul_push_word (addr_size_flags after) return mret false ;;
             unless bul_push_word (addr_prev_size after) return mret false ;;
             clear_flags after BLOCK_PREV_FREE ;; mret true
           else mret true) never Q s.
Proof.
  intros Hg Ha Hh Hl Ht Htot Hm Hcalm HQ. pose proof (in_split l1 l2 z) as Hz. destruct (block_facts s _ F Hg Hh z Hz) as ([Hsz _] & _).
  rewrite u64_small by lia. destruct (Z.leb_spec MIN_BLOCK_SZ (bsize z - total)) as [Hle|Hgt].
  - unfold MIN_BLOCK_SZ in Hle. apply wp_bind, (wp_split_block _ _ s l1 z l2 F); try done; [lia|]. intros s1 F1 H1 M1. apply wp_ret.
    apply heap_unstale in H1; [|by rewrite (moves_geo _ _ _ M1)|done].
    apply (HQ s1 (set_bstale false (set_bsize total z)) (set_blisted true (remainder_of z total) :: flag_next true l2) F1); [exact H1| |by eapply moves_held|apply M1].
    split; [done|done|exact Hl|done|cbn; lia|rewrite used_of_cons; apply used_of_flag|]. intros y [->|Hy]%elem_of_cons; [done|by apply (calm_flag true _ Hcalm)].
  - apply wp_bind, (wp_bnext _ s _ F z Hg Hh Hz). pose proof Hg as (_ & Ee & _). rewrite Ee. change (pool_start (geo s) + pool_size (geo s)) with (pool_end s).
    pose proof (followed_of s l1 z l2 F Hg Hh) as Hf. destruct l2 as [|y l2]; cbn in Hf.
    + rewrite (proj2 (Z.ltb_ge _ _)) by lia. apply wp_ret. apply (HQ s (set_bstale false z) [] F); [by apply heap_tell_end| |done|done]. by split; try done; cbn; lia.
    + destruct Hf as (Ey & Hlt & Hsp & Hok). rewrite <- Ey, (proj2 (Z.ltb_lt _ _) Hlt).
      assert (y ∈ l1 ++ z :: y :: l2) as Hy by apply in_two. destruct (block_reads s _ F Hh y Hy) as [Eyw _].
      apply wp_ensure, wp_push_spot; try done; [unfold MAX_BUL_ENTRIES; lia|]. intros t1 E1.
      apply wp_ensure, wp_push_spot; try done; [unfold MAX_BUL_ENTRIES; cbn; lia|]. intros t2 E2. change (set_txn t2 (set_txn t1 s)) with (set_txn t2 s).
      apply wp_bind. eapply (wp_clear_flags _ _ _ _ _ (blk_word (set_bprev false y))); try done.
      { cbn [mem set_txn]. rewrite Eyw. by apply blk_word_unset_prev. }
      { apply blk_word_range. exact Hok. }
      apply wp_ret. destruct (heap_set_flags s (l1 ++ [z]) y (set_bprev false y) l2 F) as [H1 M1]; try done.
      { by rewrite <- app_assoc. }
      rewrite <- !app_assoc in H1. apply heap_unstale in H1; [|done|done].
      apply (HQ _ (set_bstale false z) (set_bprev false y :: l2) F); [eapply heap_ok_same; [..|exact H1]; done| |done|].
      { split; [done|done|exact Hl|done|cbn; lia|exact (used_of_flag false (y :: l2))|exact (calm_flag false _ Hcalm)]. }
      destruct M1 as (_ & _ & K). intros w [->|[Hw _]].
      * assert (kept z (mem s) (<[baddr y + OFF_size_flags := blk_word (set_bprev false y)]> (mem s))) as Kz.
        { apply K. rewrite <- app_assoc. apply in_split. }
        intros o Ho Hne. cbn in Ho. apply Kz; [lia|done].
      * apply K. rewrite <- app_assoc. apply in_mid. by right.
Qed.

(** ** In place *)

(** What a success leaves. *)
Record in_place (s s' : tlsf) (l1 : list blk) (x : blk) (l2 : list blk) (total : Z) (z : blk) (l3 : list blk) : Prop := InPlace {
  ip_settled : settled_heap (l1 ++ z :: l3);
  ip_addr : baddr z = baddr x;
  ip_free : bfree z = false;
  ip_size : total <= bsize z;
  ip_used : used_of l3 = used_of l2;
  ip_resized : resized s s' l1 x l2 total }.

Lemma wp_grow (Q : Z -> tlsf -> Prop) s l1 x y l2 F total : pool_geo (geo s) -> alive s -> heap_ok s (l1 ++ x :: y :: l2) F ->
  settled_heap (l1 ++ x :: y :: l2) -> bfree x = false -> bfree y = true -> stack_top (txn s) = 0 ->
  128 <= total -> bsize x < total <= bsize x + bsize y -> total mod 64 = 0 ->
  (forall s' z l3 F', heap_ok s' (l1 ++ z :: l3) F' -> in_place s s' l1 x (y :: l2) total z l3 -> Q 1 s') ->
  wp (remove_from_free_list (baddr y) (class_of y).1 (class_of y).2 ;;
      unless bul_push_word (addr_size_flags (baddr x)) return mret (-1) ;;
      unless push_used_bytes return mret (-1) ;;
      block_set_size (baddr x) (bsize x + bsize y) ;;
      unless
        (if MIN_BLOCK_SZ <=? u64 (bsize x + bsize y - total) then split_block (baddr x) total ;; mret true
         else after ← block_next (baddr x);
              if after <? heap_start (geo s) + heap_size (geo s) then
                unless bul_push_word (addr_size_flags after) return mret false ;;
                unless bul_push_word (addr_prev_size after) return mret false ;;
                clear_flags after BLOCK_PREV_FREE ;; mret true
              else mret true)
      return mret (-1) ;;
      pl ← block_payload_size (baddr x);
      used ← get_used_bytes;
      set_used_bytes (u64 (used + u64 (pl - (bsize x - HEADER_SIZE)))) ;;
      mret 1) never Q s.
Proof.
  intros Hg Ha Hh Hset Hf Hfy Ht Ht0 Htot Hm HQ. destruct (in_two l1 l2 x y) as [Hx Hy]. pose proof (Hset x Hx) as [Hlx Hstx]. pose proof (Hset y Hy) as [Hly _].
  rewrite Hf in Hlx. rewrite Hfy in Hly. pose proof Hset as Hset'. apply settled_parts in Hset' as (Hs1 & Hs2 & _).
  assert (calm_list l2) as Hs2' by (intros w Hw; by apply Hs2, list_elem_of_further).
  assert (heap_ok s ((l1 ++ [x]) ++ y :: l2) F) as Hh' by (by rewrite <- app_assoc).
  apply wp_bind, (wp_take _ _ s (l1 ++ [x]) y l2 F Hg Ha Hh' Hly). intros s1 F1 H1 M1 _. rewrite <- !app_assoc in H1, M1. cbn [app] in H1, M1. set (y1 := set_blisted false y) in *.
  pose proof (moves_held _ _ _ Ha M1) as D1. assert (pool_geo (geo s1) /\ alive s1) as [Hg1 Ha1] by (destruct D1 as (-> & _ & _ & ?); done).
  destruct (in_two l1 l2 x y1) as [Hx1 Hy1]. pose proof (spot_of s1 _ F1 x Hg1 H1 Hx1) as Hsp1. assert (stack_top (txn s1) = 0) as Ht1 by (by rewrite (proj1 (proj2 M1))).
  apply wp_ensure, wp_push_spot; try done; [unfold MAX_BUL_ENTRIES; lia|]. intros t1 E1.
  assert (heap_ok (set_txn t1 s1) (l1 ++ x :: y1 :: l2) F1) as H1' by (eapply heap_ok_same; [..|exact H1]; done).
  apply wp_ensure, (wp_push_used _ (set_txn t1 s1) x (l1 ++ x :: y1 :: l2) F1); try done; [unfold MAX_BUL_ENTRIES; cbn; lia|]. intros t2 E2.
  change (set_txn t2 (set_txn t1 s1)) with (set_txn t2 s1). cbn [txn set_txn] in E2.
  assert (heap_ok (set_txn t2 s1) (l1 ++ x :: y1 :: l2) F1) as H2' by (eapply heap_ok_same; [..|exact H1]; done).
  destruct (neighbours _ l1 x y1 l2 F1 Hg1 H1) as (Eyx & Hokx & Hoky & Hsum & Hmod). cbn [bsize y1 set_blisted] in Hsum, Hmod. pose proof Hokx as [Hsx _]. pose proof Hoky as [Hsy _]. cbn in Hsy.
  apply wp_bind, wp_block_set_size; try done; [lia|by apply (block_reads s1 _ F1 H1 x Hx1)|].
  destruct (heap_join (set_txn t2 s1) l1 x y1 l2 F1 Hg1 H2' Hlx eq_refl) as [H2 M2]. set (s2 := set_mem _ (set_txn t2 s1)) in H2, M2.
  change (set_mem _ (set_txn t2 s1)) with s2. set (z := join x y1) in *.
  pose proof (moves_held _ (set_txn t2 s1) s2 Ha1 M2) as D2. assert (pool_geo (geo s2) /\ alive s2) as [Hg2 Ha2] by done.
  assert (geo s2 = geo s) as Eg2 by exact (proj1 D1). rewrite <- Eg2.
  apply wp_ensure. change (bsize x + bsize y) with (bsize z). change (baddr x) with (baddr z).
  apply (wp_grow_end _ s2 l1 z l2 F1); [done|done|done|done|cbn; lia|cbn; lia|done|done|]. intros s3 z' l3 F3 H3 [G1 G2 G3 G4 G5 G6 G7] D3 K3. cbn match.
  assert (pool_geo (geo s3) /\ alive s3) as [Hg3 Ha3] by (destruct D3 as (-> & _ & _ & ?); done). rewrite <- G1.
  apply (wp_account (fun used pl => used + u64 (pl - (bsize x - HEADER_SIZE))) _ s3 l1 z' l3 F3); [done|done|done|]. intros s4 H4 D4 Hm4.
  pose proof (held_trans _ _ _ D1 (held_trans _ _ _ D2 (held_trans _ _ _ D3 D4))) as D.
  assert (forall w, w ∈ l1 ++ x :: y :: l2 -> forall o, 0 <= o -> rdm (mem s4) (baddr w + o) = rdm (mem s3) (baddr w + o)) as Hacc.
  { intros w Hw. eapply (account_kept s (l1 ++ x :: y :: l2) F w); [done|done|done|]. intros a Hne. apply Hm4. unfold used_addr in *. rewrite (proj1 D3). change (geo s2) with (geo s1). by rewrite (proj1 D1). }
  apply (HQ s4 z' l3 F3 H4). split; [|by rewrite G1|by rewrite G2|done|rewrite G6, used_of_cons, Hfy; done|].
  { apply settled_build; try done. by rewrite G2, G3. }
  split; [done| |].
  - intros o Ho Hne. rewrite Z.min_l in Ho by lia. rewrite Hacc by (done || lia).
    rewrite (K3 (set_bsize total z) (or_introl eq_refl) o ltac:(cbn; lia) Hne : rdm (mem s3) (baddr x + o) = _).
    change (rdm (mem s2) (baddr (set_bsize total z) + o)) with (rdm (<[baddr x + OFF_size_flags := blk_word z]> (mem s1)) (baddr x + o)).
    rewrite rdm_insert_ne by (offs; lia). destruct M1 as (_ & _ & K1). apply K1; [by split|lia|done].
  - intros w [Hw Hlw] o Ho Hne. apply elem_of_app in Hw as Hw'. rewrite elem_of_cons in Hw'. destruct (decide (w = y)) as [->|Hny]; [congruence|].
    assert (w ∈ l1 ++ l2) as Hw2 by (rewrite elem_of_app; tauto).
    rewrite Hacc by (try (rewrite elem_of_app, !elem_of_cons; rewrite elem_of_app in Hw2; tauto); lia). rewrite (K3 w (or_intror (conj Hw2 Hlw)) o Ho Hne).
    destruct M2 as (_ & _ & K2). rewrite (K2 w Hw2 o Ho Hne : rdm (mem s2) _ = rdm (mem s1) _). destruct M1 as (_ & _ & K1). apply K1; [|done|done].
    split; [rewrite elem_of_app, !elem_of_cons; rewrite elem_of_app in Hw2; tauto|done].
Qed.

Lemma used_of_cut l1 z r l2 v : bfree z = false -> bfree r = true -> used_of (l1 ++ z :: r :: flag_next v l2) = used_of l1 ++ (baddr z, bsize z) :: used_of l2.
Proof. intros Hz Hr. by rewrite used_of_app, !used_of_cons, used_of_flag, Hz, Hr. Qed.

Lemma wp_try_inplace (Q : Z -> tlsf -> Prop) s l1 x l2 F total : pool_geo (geo s) -> alive s -> heap_ok s (l1 ++ x :: l2) F ->
  settled_heap (l1 ++ x :: l2) -> bfree x = false -> stack_top (txn s) = 0 -> 128 <= total < 2 ^ 64 -> total mod 64 = 0 ->
  (bsize x < total -> Q 0 s) -> (forall s' z l3 F', heap_ok s' (l1 ++ z :: l3) F' -> in_place s s' l1 x l2 total z l3 -> Q 1 s') ->
  wp (realloc_try_inplace (baddr x) total) never Q s.
Proof.
  intros Hg Ha Hh Hset Hf Ht Htot Hm HQ0 HQ. pose proof (in_split l1 l2 x) as Hx. destruct (block_facts s _ F Hg Hh x Hx) as ([Hsz Hmx] & _).
  pose proof (Hset x Hx) as [Hl Hst]. rewrite Hf in Hl. pose proof Hset as Hset'. apply settled_parts in Hset' as (Hs1 & Hs2 & _).
  unfold realloc_try_inplace. apply wp_bind, (wp_bsize _ s _ F x Hg Hh Hx). apply wp_bind, (wp_bpayload _ s _ F x Hg Hh Hx). apply wp_bind, wp_gets. cbv zeta.
  destruct (Z.leb_spec total (bsize x)) as [Hle|Hgt].
  - rewrite u64_small by lia. destruct (Z.leb_spec MIN_BLOCK_SZ (bsize x - total)) as [Hc|Hc].
    + unfold MIN_BLOCK_SZ in Hc. apply (wp_shrink _ s l1 x l2 F total); try done; [lia|]. intros s' F' H' R. eapply HQ; [exact H'|]. split; [|done|exact Hf|cbn; lia| |exact R].
      * apply settled_build; [done| |cbn; congruence|done]. intros y [->|Hy]%elem_of_cons; [done|by apply (calm_flag true _ Hs2)].
      * rewrite used_of_cons. apply used_of_flag.
    + apply wp_ret. apply (HQ s x l2 F); [done|]. by split.
  - apply wp_bind, (wp_bnext _ s _ F x Hg Hh Hx). pose proof Hg as (_ & Ee & _). rewrite Ee. change (pool_start (geo s) + pool_size (geo s)) with (pool_end s).
    pose proof (followed_of s l1 x l2 F Hg Hh) as Hfo. destruct l2 as [|y l2]; cbn in Hfo.
    { rewrite (proj2 (Z.leb_le _ _)) by lia. by apply wp_ret, HQ0. }
    destruct Hfo as (Ey & Hlt & Hsp & Hok). rewrite <- Ey, (proj2 (Z.leb_gt _ _)) by lia. assert (y ∈ l1 ++ x :: y :: l2) as Hy by apply in_two.
    apply wp_bind, (wp_signed _ s _ F y Hg Hh Hy). apply wp_bind, (wp_bfree _ s _ F y Hg Hh Hy). destruct (bfree y) eqn:Efy; [|by apply wp_ret, HQ0]. cbn [negb].
    apply wp_bind, (wp_bsize _ s _ F y Hg Hh Hy). pose proof Hok as [Hsy Hmy]. change ALIGN_SIZE with 64. rewrite Hmy, (proj2 (Z.eqb_neq (bsize y) 0)) by lia. cbn [negb orb Z.eqb].
    destruct (neighbours s l1 x y l2 F Hg Hh) as (_ & _ & _ & Hsum & _). cbv zeta. rewrite (u64_small (bsize x + bsize y)) by lia.
    destruct (Z.ltb_spec (bsize x + bsize y) total) as [Hs|Hs]; [by apply wp_ret, HQ0|].
    unfold pool_end. rewrite <- Ee. apply (wp_grow _ s l1 x y l2 F total); try done; [lia..].
Qed.

(** ** The copy *)

Lemma mod8_add a b : a mod 64 = 0 -> b mod 8 = 0 -> (a + b) mod 8 = 0.
Proof.
  intros Ha Hb. pose proof (Z.div_mod a 64). pose proof (Z.div_mod b 8). replace (a + b) with ((8 * (a / 64) + b / 8) * 8) by lia. by apply Z.mod_mul.
Qed.
Lemma mapped_inside s bs F x o : pool_geo (geo s) -> heap_ok s bs F -> x ∈ bs -> 0 <= o -> o + 8 <= bsize x -> o mod 8 = 0 ->
  TlsfTypes.mapped s (baddr x + o) = true /\ 0 < baddr x + o /\ baddr x + o + 8 < 2 ^ 64.
Proof.
  intros Hg Hh Hx Ho Hle Hm. destruct (block_facts s bs F Hg Hh x Hx) as (_ & [Hal Hpos] & _ & Hst & He). pose proof (block_end_range s bs F x Hg Hh Hx) as Hr.
  split; [|lia]. unfold mapped. rewrite (mod8_add _ _ Hal Hm), Z.eqb_refl. rewrite (proj2 (Z.leb_le (heap_start _) _)), (proj2 (Z.leb_le (_ + 8) _)) by lia. apply orb_true_r.
Qed.

(** Whole words of the block [w] to the block [z], from the offset [o] on. *)
Lemma wp_copy (Q : unit -> tlsf -> Prop) bs F z w n : forall o s, pool_geo (geo s) -> alive s -> heap_ok s bs F -> z ∈ bs -> w ∈ bs -> blisted z = false ->
  baddr z <> baddr w -> 64 <= o -> o mod 8 = 0 -> o + 8 * Z.of_nat n <= bsize z -> o + 8 * Z.of_nat n <= bsize w ->
  (forall s', heap_ok s' bs F -> moves (fun y => y ∈ bs /\ y <> z) s s' ->
     (forall q, o <= q < o + 8 * Z.of_nat n -> q mod 8 = 0 -> rdm (mem s') (baddr z + q) = rdm (mem s) (baddr w + q)) ->
     (forall q, q < o -> rdm (mem s') (baddr z + q) = rdm (mem s) (baddr z + q)) -> Q tt s') ->
  wp (copy_words n (baddr z + o) (baddr w + o)) never Q s.
Proof.
  induction n as [|n IH]; intros o s Hg Ha Hh Hz Hw Hl Hne Ho Hm Hle1 Hle2 HQ; cbn [copy_words].
  { apply wp_ret, HQ; [done|done|lia|done]. }
  destruct (mapped_inside s bs F z o Hg Hh Hz) as (Mz & ? & ?); [lia|lia|done|]. destruct (mapped_inside s bs F w o Hg Hh Hw) as (Mw & ? & ?); [lia|lia|done|].
  apply wp_bind, wp_load; [done|]. set (v := rd s (baddr w + o)). assert (0 <= v < 2 ^ 64) as Hv by apply (hp_mem _ _ _ Hh).
  apply wp_bind, wp_store_alive; [done|done|done|]. rewrite !u64_small by lia.
  destruct (heap_word s bs F z o v Hg Hh Hz Hl) as [Hh1 M1]; [lia|offs; lia|offs; lia|done|]. set (s1 := set_mem _ s) in *.
  assert (o + 8 + 8 * Z.of_nat n = o + 8 * Z.of_nat (S n)) as En by lia.
  replace (baddr z + o + 8) with (baddr z + (o + 8)) by lia. replace (baddr w + o + 8) with (baddr w + (o + 8)) by lia.
  assert ((o + 8) mod 8 = 0) as Hm8 by (rewrite Z.add_mod, Hm by lia; done).
  apply IH; try done; try lia. intros s' H' M' Hc Hk. apply HQ; [done|by eapply moves_trans| |].
  - intros q Hq Hqm. destruct (decide (q = o)) as [->|Hqo].
    + rewrite Hk by lia. apply rdm_insert_eq.
    + assert (o + 8 <= q) as Hoq.
      { pose proof (Z.div_mod q 8). pose proof (Z.div_mod o 8). lia. }
      rewrite Hc by (done || lia). apply rdm_insert_ne.
      pose proof (hp_tiled _ _ _ Hh) as T. destruct (tiled_disjoint _ _ _ _ _ z w T (start_aligned s Hg) Hz Hw Hne); lia.
  - intros q Hq. rewrite Hk by lia. apply rdm_insert_ne. lia.
Qed.

(** ** The whole operation *)

(** The block of size [n] at [a] has taken the place of [x]. *)
Record reallocated (s s' : tlsf) (l1 : list blk) (x : blk) (l2 : list blk) (total uid a n : Z) (bs' : list blk) : Prop := Reallocated {
  ra_place : total <= bsize x -> a = baddr x;
  ra_size : total <= n;
  ra_used : used_of bs' ≡ₚ (a, n) :: used_of (l1 ++ l2);
  ra_owner : owners (uids (mem s') a) = [uid];
  ra_type : sig_type (rdm (mem s') (a + OFF_sig_dc)) = sig_type (rdm (mem s) (baddr x + OFF_sig_dc));
  ra_words : forall o, HEADER_SIZE <= o < Z.min (bsize x) total -> o mod 8 = 0 -> rdm (mem s') (a + o) = rdm (mem s) (baddr x + o);
  ra_others : forall y, in_use (l1 ++ l2) y -> kept y (mem s) (mem s') }.

Lemma in_place_reallocated s s' l1 x l2 total uid z l3 : 128 <= total -> 128 <= bsize x -> owners (uids (mem s) (baddr x)) = [uid] ->
  in_place s s' l1 x l2 total z l3 -> reallocated s s' l1 x l2 total uid (baddr z) (bsize z) (l1 ++ z :: l3).
Proof.
  intros Ht Hx Ho [I1 I2 I3 I4 I5 [R1 R2 R3]]. rewrite I2. split; try done.
  - rewrite used_of_app, used_of_cons, I3, I2, I5, used_of_app. cbn. by rewrite Permutation_middle.
  - rewrite <- Ho. f_equal. apply uids_ext. intros o Hoo. apply R2; offs; lia.
  - by rewrite R2 by (offs; lia).
  - intros o Hoo _. apply R2; unfold HEADER_SIZE in Hoo; offs; lia.
Qed.

Lemma only_owner us uid : owners us = [uid] -> uid <> 0 /\ uid ∈ us /\ owners (drop_owner uid us) = [].
Proof.
  intros E. assert (uid ∈ owners us) as Hin by (rewrite E; apply list_elem_of_here). apply list_elem_of_filter in Hin as [Hne Hin].
  split; [done|]. split; [done|]. apply elem_of_nil_inv. intros v Hv. apply list_elem_of_filter in Hv as [Hv Hvin].
  apply list_elem_of_fmap in Hvin as (u & Eu & Hu). destruct (Z.eqb_spec u uid) as [Eq|Hnu]; [done|].
  rewrite Eu in Hv. assert (u ∈ owners us) as Hu' by (by apply list_elem_of_filter). rewrite E in Hu'. by apply list_elem_of_singleton in Hu'.
Qed.
Lemma used_of_carve l1 y l2 total : used_of (l1 ++ carve y total l2) = used_of l1 ++ (baddr (carved y total), bsize (carved y total)) :: used_of l2.
Proof. unfold carve, carved. destruct (_ <=? _); by rewrite used_of_app, !used_of_cons, used_of_flag. Qed.
Lemma carved_in l1 y l2 total : carved y total ∈ l1 ++ carve y total l2.
Proof. unfold carve, carved. destruct (_ <=? _); apply in_split. Qed.
Lemma carved_size y total : total <= bsize y -> total <= bsize (carved y total).
Proof. intros H. unfold carved. destruct (_ <=? _); cbn; lia. Qed.

Lemma copy_count a b : a mod 64 = 0 -> b mod 64 = 0 -> 64 <= a -> 64 <= b ->
  let c := if a - HEADER_SIZE <? b - HEADER_SIZE then a - HEADER_SIZE else b - HEADER_SIZE in
  HEADER_SIZE + 8 * Z.of_nat (Z.to_nat (c / 8)) = Z.min a b.
Proof.
  intros Ha Hb H1 H2 c. unfold HEADER_SIZE in *. assert (c = Z.min a b - 64) as Ec by (unfold c; destruct (Z.ltb_spec (a - 64) (b - 64)); lia).
  assert (Z.min a b mod 64 = 0) as Hm by (destruct (Z.min_spec a b) as [[_ ->]|[_ ->]]; done).
  pose proof (Z.div_mod (Z.min a b) 64). assert (c = (Z.min a b / 64 - 1) * 8 * 8) as E8 by lia.
  rewrite Z2Nat.id; [|apply Z.div_pos; lia]. rewrite E8 at 1. rewrite Z.div_mul by lia. lia.
Qed.

(** After the allocation: the contents move and the old block is given back. *)
Lemma wp_move {A} (k : bool -> TM A) (Q : A -> tlsf -> Prop) s s1 l1 x l2 F l1' y l2' F1 total uid : pool_geo (geo s) -> alive s ->
  heap_ok s (l1 ++ x :: l2) F -> settled_heap (l1 ++ x :: l2) -> bfree x = false -> owners (uids (mem s) (baddr x)) = [uid] ->
  l1 ++ x :: l2 = l1' ++ y :: l2' -> bfree y = true -> 128 <= total <= bsize y -> total mod 64 = 0 -> bsize x < total ->
  heap_ok s1 (l1' ++ carve y total l2') F1 -> ran s s1 -> 
  handed_out (in_use (l1' ++ l2')) s s1 (carved y total) uid (sig_type (rdm (mem s) (baddr x + OFF_sig_dc))) -> 0 <= stack_top (txn s1) <= 5 ->
  (forall s' F' bs', heap_ok s' bs' F' -> settled_heap bs' -> held s s' ->
     reallocated s s' l1 x l2 total uid (baddr y) (bsize (carved y total)) bs' -> wp (k true) never Q s') ->
  wp (copy_words (Z.to_nat ((if bsize x - HEADER_SIZE <? total - HEADER_SIZE then bsize x - HEADER_SIZE else total - HEADER_SIZE) / 8))
        (baddr y + HEADER_SIZE) (baddr x + HEADER_SIZE) ;;
      ok ← tlsf_free_internal (baddr x + HEADER_SIZE) uid; k ok) never Q s1.
Proof.
  intros Hg Ha Hh Hset Hf Hown Ebs Hfy Htot Hm Hlt H1 (R1 & R2 & R3) HO Ht HQ. set (z := carved y total) in *. set (bs1 := l1' ++ carve y total l2') in *.
  assert (pool_geo (geo s1) /\ alive s1) as [Hg1 Ha1] by (unfold alive; rewrite R1, R3; done).
  pose proof (in_split l1 l2 x) as Hx. destruct (block_facts s _ F Hg Hh x Hx) as (Hokx & _). pose proof Hokx as [Hsx Hmx].
  pose proof (only_owner _ _ Hown) as (Hu & Hin & Hlast).
  assert (x ∈ l1' ++ l2') as Hx'. { rewrite Ebs in Hx. apply in_mid in Hx as [->|Hx]; [congruence|done]. }
  assert (in_use (l1' ++ l2') x) as Hxu by (split; [done|by rewrite (proj1 (Hset x Hx))]).
  pose proof (used_of_carve l1' y l2' total) as Eu1. fold bs1 z in Eu1. assert (settled_heap bs1) as Hset1 by (apply carve_settled; by rewrite <- Ebs).
  assert (forall w, in_use (l1' ++ l2') w -> exists w', w' ∈ bs1 /\ bfree w' = false /\ baddr w' = baddr w /\ bsize w' = bsize w) as Hcarry.
  { intros w [Hw Hlw]. apply (used_of_in bs1). rewrite Eu1, elem_of_app, elem_of_cons. assert ((baddr w, bsize w) ∈ used_of (l1' ++ l2')) as H.
    { apply used_of_in. exists w. split; [done|]. split; [|done]. assert (w ∈ l1 ++ x :: l2) as Hwb by (rewrite Ebs; apply in_mid; by right). by rewrite <- (proj1 (Hset w Hwb)). }
    rewrite used_of_app, elem_of_app in H. tauto. }
  destruct (Hcarry x Hxu) as (x' & Hx1 & Hfx' & Eax & Esx).
  assert (z ∈ bs1) as Hz by apply carved_in. assert (baddr z = baddr y) as Eaz by done. assert (blisted z = false) as Hlz by done.
  destruct (block_facts s1 _ F1 Hg1 H1 z Hz) as (Hokz & _).
  assert (baddr z <> baddr x') as Hne. { rewrite Eax, Eaz. intros E. rewrite Ebs in Hh. by apply (rest_apart s l1' y l2' F x Hg Hh Hx'). }
  pose proof (carved_size y total ltac:(lia)) as Hsz. fold z in Hsz. rewrite <- Eax, <- Eaz. rewrite <- Esx in *.
  pose proof (copy_count (bsize x') total Hmx Hm ltac:(lia) ltac:(lia)) as Hcc. cbv zeta in Hcc. set (n := Z.to_nat _) in Hcc |- *.
  apply wp_bind, (wp_copy _ bs1 F1 z x' n HEADER_SIZE); try done; [unfold HEADER_SIZE in *; lia..|]. intros s2 H2 M2 Hc Hk.
  pose proof (moves_held _ _ _ Ha1 M2) as D2. assert (held s s1) as D1 by (unfold held; by rewrite R1, R2, R3).
  assert (pool_geo (geo s2) /\ alive s2) as [Hg2 Ha2] by (destruct D2 as (-> & _ & _ & ?); done). destruct M2 as ((G2 & X2 & T2 & A2) & E2 & K2).
  assert (x' <> z) as Hxz by (by intros ->). pose proof (K2 x' (conj Hx1 Hxz)) as Kx2. pose proof (ho_kept _ _ _ _ _ _ HO x Hxu) as Kx1.
  assert (kept x (mem s1) (mem s2)) as Kx2' by (unfold kept in *; by rewrite <- Eax, <- Esx).
  assert (uids (mem s2) (baddr x') = uids (mem s) (baddr x)) as Eux.
  { rewrite Eax, (kept_uids x _ _ Hokx Kx2'). by apply (kept_uids x). }
  assert (used_of bs1 ≡ₚ (baddr z, bsize z) :: (baddr x, bsize x) :: used_of (l1 ++ l2)) as Eperm.
  { rewrite Eu1, <- Permutation_middle. apply Permutation_skip. rewrite <- used_of_app.
    assert (used_of (l1' ++ l2') = used_of (l1' ++ y :: l2')) as -> by (by rewrite !used_of_app, used_of_cons, Hfy).
    rewrite <- Ebs, !used_of_app, used_of_cons, Hf. symmetry. apply Permutation_middle. }
  apply list_elem_of_split in Hx1 as (k1 & k2 & Ek). rewrite Ek in *.
  apply wp_bind, (wp_free_internal _ s2 k1 x' k2 F1); try done; [rewrite E2; lia|by rewrite Eux|intros s3 _ Ho; by rewrite Eux, Hlast in Ho|].
  intros s3 F3 D3 _ H3 [_ _ K3] _. apply (HQ s3 F3 (give_back k1 x' k2)); [done|by apply give_back_settled|by eapply held_trans; [|eapply held_trans]|].
  assert (forall w, w ∈ k1 ++ x' :: k2 -> bfree w = false -> baddr w <> baddr x' -> kept w (mem s2) (mem s3)) as K3'.
  { intros w Hw Hfw Hnw. apply K3. split; [by apply in_mid in Hw as [->|Hw]|by rewrite (proj1 (Hset1 w Hw))]. }
  pose proof (K3' z Hz eq_refl Hne) as Kz. rewrite <- Eaz. split.
  - lia.
  - done.
  - rewrite used_of_give_back. apply (Permutation_cons_inv (a := (baddr x, bsize x))). rewrite Permutation_middle.
    rewrite used_of_app, used_of_cons, Hfx', Eax, Esx in Eperm. cbn [app] in Eperm. rewrite Eperm. apply Permutation_swap.
  - rewrite (kept_uids z _ _ Hokz Kz). assert (uids (mem s2) (baddr z) = uids (mem s1) (baddr z)) as ->.
    { apply uids_ext. intros o Ho. apply Hk. unfold HEADER_SIZE. offs. lia. }
    rewrite (ho_uids _ _ _ _ _ _ HO). assert (u16 uid = uid) as ->.
    { apply list_elem_of_fmap in Hin as (i & -> & _). unfold u16. apply Z.mod_small, uid_slot_range. }
    unfold owners. rewrite filter_cons, decide_True by done. done.
  - rewrite (Kz OFF_sig_dc) by (offs; lia). rewrite Hk by (unfold HEADER_SIZE; offs; lia). rewrite (ho_sig _ _ _ _ _ _ HO), make_sig_type, sig_type_mod.
    apply Z.mod_mod. lia.
  - intros o Ho Hom. unfold HEADER_SIZE in Ho. rewrite Kz by (offs; lia). rewrite Hc by (unfold HEADER_SIZE in *; done || lia). rewrite Eax. apply Kx1; offs; lia.
  - intros w [Hw Hlw]. assert (in_use (l1' ++ l2') w) as Hwu.
    { split; [|done]. assert (w ∈ l1 ++ x :: l2) as Hwb by (apply in_mid; by right). rewrite Ebs in Hwb. apply in_mid in Hwb as [->|Hwb]; [|done].
      rewrite (proj1 (Hset y ltac:(rewrite Ebs; apply in_split))) in Hlw. congruence. }
    destruct (Hcarry w Hwu) as (w' & Hw1 & Hfw' & Eaw & Esw). assert (kept w' (mem s2) (mem s3)) as L3.
    { apply K3'; [done|done|]. rewrite Eaw, Eax. by apply (rest_apart s l1 x l2 F w Hg Hh). }
    assert (kept w' (mem s1) (mem s2)) as L2.
    { apply K2. split; [done|]. intros ->. rewrite Ebs in Hh. apply (rest_apart s l1' y l2' F w Hg Hh); [apply Hwu|]. by rewrite <- Eaw. }
    eapply kept_trans; [by apply (ho_kept _ _ _ _ _ _ HO)|]. unfold kept in *. rewrite <- Eaw, <- Esw. by eapply kept_trans.
Qed.

Lemma tlsf_realloc_run s l1 x l2 h uid size : pool_ok s (l1 ++ x :: l2) -> bfree x = false -> h <> 0 -> owners (uids (mem s) (baddr x)) = [uid] ->
  0 < size <= 2 ^ 64 - 128 -> let total := request_to_block_size size in
  (forall y, y ∈ l1 ++ x :: l2 -> bfree y = true -> class_of y = mapping_search total -> total <= bsize y) ->
  (exists s', tlsf_realloc h (baddr x + HEADER_SIZE) size uid s = Ret NULL s' /\ pool_ok s' (l1 ++ x :: l2) /\ mem s' = mem s /\ bsize x < total /\
     forall y, y ∈ l1 ++ x :: l2 -> bfree y = true -> class_lt (class_of y) (mapping_search total)) \/
  (exists a n bs' s', tlsf_realloc h (baddr x + HEADER_SIZE) size uid s = Ret (a + HEADER_SIZE) s' /\ pool_ok s' bs' /\
     reallocated s s' l1 x l2 total uid a n bs').
Proof.
  intros Hp Hf Hnz Hown Hs total Hexact. set (bs := l1 ++ x :: l2) in *. pose proof Hp as (Hq & Ha & Hg & Hset & F & Hh). pose proof (in_split l1 l2 x) as Hx. fold bs in Hx.
  cut (wp (tlsf_realloc h (baddr x + HEADER_SIZE) size uid) never (fun r s' =>
    (r = NULL /\ pool_ok s' bs /\ mem s' = mem s /\ bsize x < total /\ forall y, y ∈ bs -> bfree y = true -> class_lt (class_of y) (mapping_search total)) \/
    (exists a n bs', r = a + HEADER_SIZE /\ pool_ok s' bs' /\ reallocated s s' l1 x l2 total uid a n bs')) s).
  { intros H. apply wp_never in H as (r & s' & E & [(-> & H)|(a & n & bs' & -> & H)]); [left; by exists s'|right; by exists a, n, bs', s']. }
  destruct (only_owner _ _ Hown) as (Hu & Hin & _). destruct (block_facts s _ F Hg Hh x Hx) as ([Hsz _] & [_ Hpos] & Hhd & _). pose proof (proj1 Hg) as Hgo.
  destruct (block_of_ptr s (baddr x)) as [Eb Enz]; [done|done|lia|]. destruct (block_reads s _ F Hh x Hx) as [_ Esig]. destruct (request_bounds size Hs) as [Hb Hm]. fold total in Hb, Hm.
  unfold tlsf_realloc. rewrite (proj2 (Z.eqb_neq h _)), (proj2 (Z.eqb_neq (baddr x + _) _)), (proj2 (Z.eqb_neq size _)), (proj2 (Z.eqb_neq uid _)) by (done || lia).
  apply wp_bind, wp_enter; [done|done|]. intros s1 Eg Ei Em Es Ha1 Ht1 Emx. change (Err.OK =? Err.OK) with true. cbn [negb]. rewrite Eb. cbv zeta.
  assert (pool_geo (geo s1)) as Hg1 by (by rewrite Eg). assert (heap_ok s1 bs F) as H1 by (eapply heap_ok_same; [..|exact Hh]; done).
  assert (header_in s1 (baddr x)) as Hhd1 by (by eapply header_in_frame). assert (held s1 s1) as D0 by done.
  apply wp_bind, wp_validate_block; [by rewrite Eg|done|]. unfold rd. rewrite Em, Esig. cbn [negb].
  apply wp_bind, (wp_bfree _ s1 _ F x Hg1 H1 Hx). rewrite Hf. apply wp_bind, wp_uid_find; [by rewrite Eg|done|]. rewrite Em.
  apply find_index_elem in Hin as Hi. rewrite (proj2 (Z.ltb_ge _ _)) by done.
  apply wp_bind, wp_uid_count; [by rewrite Eg|done|]. rewrite Em. fold (owners (uids (mem s) (baddr x))). rewrite Hown. cbn [length Z.of_nat Pos.of_succ_nat Z.ltb Z.compare Pos.compare Pos.compare_cont].
  assert (forall s' bs' F', heap_ok s' bs' F' -> settled_heap bs' -> held s1 s' -> forall t, stack_top t = 0 -> pool_ok (set_mutex mutex_free (set_txn t s')) bs') as Hend.
  { intros s' bs' F' Hh' Hset' (G' & X' & T' & L') t Et. eapply (pool_ok_after s); [done|cbn; congruence|cbn; congruence|done|done|done|eapply heap_ok_same; [..|exact Hh']; done]. }
  apply wp_bind, (wp_try_inplace _ s1 l1 x l2 F total); try done.
  - intros Hlt. rewrite Z.ltb_irrefl. apply wp_bind. apply wp_bind, wp_load_field; [by rewrite Eg|done|done|done|]. apply wp_ret. unfold rd. rewrite Em.
    apply wp_bind, (wp_bpayload _ s1 _ F x Hg1 H1 Hx). cbv zeta. fold total. rewrite (u64_small (total - HEADER_SIZE)) by (unfold HEADER_SIZE; lia).
    apply wp_bind, (wp_malloc_internal _ _ s1 bs F); try done.
    + intros Hnone. rewrite Z.eqb_refl. apply wp_leave; [done|cbn; congruence|]. left. split; [done|]. split; [|done].
      eapply (pool_ok_after s); [done|cbn; congruence|cbn; congruence|done|done|done|eapply heap_ok_same; [..|exact Hh]; done].
    + intros l1' y l2' s2 F2 Ebs Hfit Hle H2 R2 HO Ht2. fold total in Hfit, Hle, H2, HO.
      assert (y ∈ bs) as Hy by (rewrite Ebs; apply in_split). destruct (block_facts s bs F Hg Hh y Hy) as (_ & [_ Hposy] & _).
      rewrite (proj2 (Z.eqb_neq _ _)) by (unfold HEADER_SIZE; lia). change (total - HEADER_SIZE) with (total - HEADER_SIZE). rewrite <- Em in HO.
      apply (wp_move _ _ s1 s2 l1 x l2 F l1' y l2' F2 total uid); try done; [by rewrite Em|apply Hfit|lia|].
      intros s' F' bs' Hh' Hset' D' RA. cbn [negb]. apply wp_bind, wp_commit_alive; [apply D'|]. intros t Et.
      apply wp_leave; [apply D'|cbn; destruct D' as (_ & -> & -> & _); by rewrite Emx, Es|]. right. exists (baddr y), (bsize (carved y total)), bs'. split; [done|].
      split; [by eapply Hend|]. destruct RA as [A1 A2 A3 A4 A5 A6 A7]. by split; cbn [mem set_mutex set_txn]; rewrite <- ?Em.
  - intros s' z l3 F' Hh' HI. change (1 <? 0) with false. change (0 <? 1) with true. cbn match. pose proof (rz_held _ _ _ _ _ _ (ip_resized _ _ _ _ _ _ _ _ HI)) as D'.
    pose proof (in_place_reallocated s1 s' l1 x l2 total uid z l3 ltac:(lia) ltac:(lia) ltac:(by rewrite Em) HI) as RA.
    apply wp_bind, wp_commit_alive; [apply D'|]. intros t Et. apply wp_leave; [apply D'|cbn; destruct D' as (_ & -> & -> & _); by rewrite Emx, Es|].
    right. exists (baddr z), (bsize z), (l1 ++ z :: l3). split; [by rewrite (ip_addr _ _ _ _ _ _ _ _ HI)|]. split; [eapply Hend; [done|apply HI|done|done]|].
    destruct RA as [A1 A2 A3 A4 A5 A6 A7]. by split; cbn [mem set_mutex set_txn]; rewrite <- ?Em.
Qed.

(** (C17) [tlsf_realloc] by the only owner of a block: the block it answers with has room
    for the request, the same type and the same only owner, and holds what the old one
    held, as far as both reach; it stands where the old one stood when the request is not
    larger.  The blocks in use are otherwise the same, and unchanged, and the heap is
    tiled again.  NULL is the answer only when the request is larger and every free
    block is of a smaller class, and then nothing has changed.  The condition is that of
    [tlsf_malloc]: no free block of the request's own class is smaller than the request
    (else [TlsfPool.undersized_block_taken]). *)
Theorem tlsf_realloc_spec s l1 x l2 h uid size : pool_ok s (l1 ++ x :: l2) -> bfree x = false -> h <> 0 -> owners (uids (mem s) (baddr x)) = [uid] ->
  0 < size <= 2 ^ 64 - 128 -> let total := request_to_block_size size in
  (forall y, y ∈ l1 ++ x :: l2 -> bfree y = true -> class_of y = mapping_search total -> total <= bsize y) ->
  (exists s', tlsf_realloc h (baddr x + HEADER_SIZE) size uid s = Ret NULL s' /\ pool_ok s' (l1 ++ x :: l2) /\ mem s' = mem s /\ bsize x < total /\
     forall y, y ∈ l1 ++ x :: l2 -> bfree y = true -> class_lt (class_of y) (mapping_search total)) \/
  (exists a n bs' s', tlsf_realloc h (baddr x + HEADER_SIZE) size uid s = Ret (a + HEADER_SIZE) s' /\ pool_ok s' bs' /\
     reallocated s s' l1 x l2 total uid a n bs').
Proof. apply tlsf_realloc_run. Qed.

Lemma tlsf_realloc_spec_witness : exists s s' a n bs', pool_ok s cut_pool /\ tlsf_realloc demo_pool (demo_block + HEADER_SIZE) 300 7 s = Ret (a + HEADER_SIZE) s' /\
  pool_ok s' bs' /\ used_of bs' = [(a, n)] /\ 384 <= n /\ owners (uids (mem s') a) = [7] /\
  forall o, 64 <= o < 192 -> o mod 8 = 0 -> rdm (mem s') (a + o) = rdm (mem s) (demo_block + o).
Proof.
  destruct cut_pool_reached as (s & Hp & Hu). exists s.
  destruct (tlsf_realloc_spec s [] (Blk demo_block 192 false false false false) [Blk (demo_block + 192) 1280 true true true false] demo_pool 7 300)
    as [(s' & _ & _ & _ & _ & H)|(a & n & bs' & s' & E & Hp' & RA)].
  - exact Hp.
  - done.
  - done.
  - cbn [baddr]. rewrite Hu. vm_compute. reflexivity.
  - lia.
  - intros y Hy Hf Hc. apply elem_of_cons in Hy as [->|Hy]; [discriminate Hf|]. apply list_elem_of_singleton in Hy as ->. vm_compute. discriminate.
  - exfalso. specialize (H (Blk (demo_block + 192) 1280 true true true false) (list_elem_of_further _ _ _ (list_elem_of_here _ _)) eq_refl). revert H. unfold class_lt. vm_compute. naive_solver.
  - exists s', a, n, bs'. destruct RA as [A1 A2 A3 A4 A5 A6 A7]. split; [exact Hp|]. split; [exact E|]. split; [exact Hp'|].
    split; [by apply Permutation_singleton_r in A3|]. split; [exact A2|]. split; [exact A4|exact A6].
Defined.
