(* ===== verification/MpmcQueue.v ===== *)
(** The lock-free MPMC request queue ([lf_mpmc_queue.c]): every atomic access is
    one step of a thread; threads interleave arbitrarily. *)
From S2P Require Import Prelude.

(** [lf_queue_result_t] *)
Inductive lf_queue_result :=
  | LF_QUEUE_OK
  | LF_QUEUE_FULL
  | LF_QUEUE_EMPTY
  | LF_QUEUE_NOT_FOUND.
#[export] Instance lf_queue_result_eq : EqDecision lf_queue_result.
Proof. solve_decision. Defined.

(** [lf_mpmc_queue_t]: the two counters and the cells, [seq] and [data] apart. *)
Record lf_mpmc_queue := Queue {
  head : Z;
  tail : Z;
  seqs : gmap Z Z;
  datas : gmap Z Z;
  mask : Z }.

Definition seq_at (q : lf_mpmc_queue) (i : Z) : Z := default 0 (seqs q !! i).
Definition data_at (q : lf_mpmc_queue) (i : Z) : Z := default 0 (datas q !! i).
Definition set_head v q := Queue v (tail q) (seqs q) (datas q) (mask q).
Definition set_tail v q := Queue (head q) v (seqs q) (datas q) (mask q).
Definition set_seq i v q := Queue (head q) (tail q) (<[i := v]> (seqs q)) (datas q) (mask q).
Definition set_data i v q := Queue (head q) (tail q) (seqs q) (<[i := v]> (datas q)) (mask q).

(** Where a thread is inside a queue operation. *)
Inductive pc :=
  | Idle
  (* try_enqueue *)
  | EnqStart (data : Z)                (* pos = load head *)
  | EnqSeq (data pos : Z)              (* seq_old = load seq[idx] *)
  | EnqCas (data pos : Z)              (* diff == 0: CAS head *)
  | EnqData (data pos : Z)             (* buffer[idx].data = data *)
  | EnqPub (data pos : Z)              (* store seq[idx] = pos + 1 *)
  | EnqDone (r : lf_queue_result)
  (* try_dequeue *)
  | DeqStart
  | DeqSeq (pos : Z)
  | DeqCas (pos : Z)
  | DeqData (pos : Z)                  (* v = buffer[idx].data *)
  | DeqPub (pos v : Z)                 (* store seq[idx] = pos + CAPACITY *)
  | DeqDone (r : lf_queue_result) (v : Z)
  (* try_find_ptr *)
  | FndStart (ptr : Z)
  | FndHead (ptr tail : Z)             (* tail loaded, head next *)
  | FndSeq (ptr pos : Z) (n : nat)     (* n cells left, from pos *)
  | FndData (ptr pos : Z) (n : nat)
  | FndSeq2 (ptr pos v : Z) (n : nat)
  | FndTail (ptr pos : Z) (n : nat)
  | FndDone (r : lf_queue_result).

Section queue.
(** [LF_MPMC_QUEUE_CAPACITY] *)
Context (cap : Z).

(** ** Initialisation *)
Fixpoint init_cells (n : nat) (q : lf_mpmc_queue) : lf_mpmc_queue :=
  match n with
  | O => q
  | S n => set_data (Z.of_nat n) NULL (set_seq (Z.of_nat n) (Z.of_nat n) (init_cells n q))
  end.
Definition lf_mpmc_queue_init (q : lf_mpmc_queue) : lf_mpmc_queue :=
  let q := set_tail 0 (set_head 0 q) in
  let q := init_cells (Z.to_nat cap) q in
  Queue (head q) (tail q) (seqs q) (datas q) (cap - 1).

(** ** One atomic step

    [spurious]: a weak compare-exchange may fail although the values agree. *)
Definition cell_of (q : lf_mpmc_queue) (pos : Z) : Z := Z.land pos (mask q).

Definition step_enqueue (spurious : bool) (q : lf_mpmc_queue) (c : pc) : option (lf_mpmc_queue * pc) :=
  match c with
  | EnqStart d => Some (q, EnqSeq d (head q))
  | EnqSeq d pos =>
      let seq_old := seq_at q (cell_of q pos) in
      let diff := i64 (seq_old - pos) in
      Some (q, if diff =? 0 then EnqCas d pos
               else if diff <? 0 then EnqDone LF_QUEUE_FULL
               else EnqStart d)
  | EnqCas d pos =>
      if (head q =? pos) && negb spurious
      then Some (set_head (u64 (pos + 1)) q, EnqData d pos)
      else Some (q, EnqSeq d (head q))
  | EnqData d pos => Some (set_data (cell_of q pos) d q, EnqPub d pos)
  | EnqPub d pos => Some (set_seq (cell_of q pos) (u64 (pos + 1)) q, EnqDone LF_QUEUE_OK)
  | _ => None
  end.

Definition step_dequeue (spurious : bool) (q : lf_mpmc_queue) (c : pc) : option (lf_mpmc_queue * pc) :=
  match c with
  | DeqStart => Some (q, DeqSeq (tail q))
  | DeqSeq pos =>
      let seq_old := seq_at q (cell_of q pos) in
      let diff := i64 (seq_old - u64 (pos + 1)) in
      Some (q, if diff =? 0 then DeqCas pos
               else if diff <? 0 then DeqDone LF_QUEUE_EMPTY NULL
               else DeqStart)
  | DeqCas pos =>
      if (tail q =? pos) && negb spurious
      then Some (set_tail (u64 (pos + 1)) q, DeqData pos)
      else Some (q, DeqSeq (tail q))
  | DeqData pos => Some (q, DeqPub pos (data_at q (cell_of q pos)))
  | DeqPub pos v =>
      Some (set_seq (cell_of q pos) (u64 (pos + cap)) q, DeqDone LF_QUEUE_OK v)
  | _ => None
  end.

(** The [for] loop of [try_find_ptr]: the next cell, or the end. *)
Definition find_next (ptr pos : Z) (n : nat) : pc :=
  match n with
  | O => FndDone LF_QUEUE_NOT_FOUND
  | S n => FndSeq ptr pos n
  end.

Definition step_find (q : lf_mpmc_queue) (c : pc) : option (lf_mpmc_queue * pc) :=
  match c with
  | FndStart ptr =>
      Some (q, if ptr =? NULL then FndDone LF_QUEUE_NOT_FOUND else FndHead ptr (tail q))
  | FndHead ptr tl =>
      let hd := head q in
      Some (q,
        if hd <=? tl then FndDone LF_QUEUE_NOT_FOUND
        else
          let n := hd - tl in
          let '(tl, n) := if cap <? n then (hd - cap, cap) else (tl, n) in
          find_next ptr tl (Z.to_nat n))
  | FndSeq ptr pos n =>
      let sq := seq_at q (cell_of q pos) in
      Some (q, if negb (sq =? u64 (pos + 1)) then find_next ptr (pos + 1) n
               else FndData ptr pos n)
  | FndData ptr pos n => Some (q, FndSeq2 ptr pos (data_at q (cell_of q pos)) n)
  | FndSeq2 ptr pos v n =>
      let sq := seq_at q (cell_of q pos) in
      Some (q, if negb (sq =? u64 (pos + 1)) || negb (v =? ptr) then find_next ptr (pos + 1) n
               else FndTail ptr pos n)
  | FndTail ptr pos n =>
      let tail_now := tail q in
      Some (q, if pos <? tail_now then find_next ptr (pos + 1) n else FndDone LF_QUEUE_OK)
  | _ => None
  end.

Definition step_thread (spurious : bool) (q : lf_mpmc_queue) (c : pc) : option (lf_mpmc_queue * pc) :=
  match c with
  | EnqStart _ | EnqSeq _ _ | EnqCas _ _ | EnqData _ _ | EnqPub _ _ => step_enqueue spurious q c
  | DeqStart | DeqSeq _ | DeqCas _ | DeqData _ | DeqPub _ _ => step_dequeue spurious q c
  | _ => step_find q c
  end.

(** ** An operation run without interference *)
Fixpoint run_alone (fuel : nat) (q : lf_mpmc_queue) (c : pc) : lf_mpmc_queue * pc :=
  match fuel with
  | O => (q, c)
  | S fuel =>
      match step_thread false q c with
      | Some (q, c) => run_alone fuel q c
      | None => (q, c)
      end
  end.
Definition lf_mpmc_queue_try_enqueue (fuel : nat) (q : lf_mpmc_queue) (data : Z) :=
  run_alone fuel q (EnqStart data).
Definition lf_mpmc_queue_try_dequeue (fuel : nat) (q : lf_mpmc_queue) :=
  run_alone fuel q DeqStart.
Definition lf_mpmc_queue_try_find_ptr (fuel : nat) (q : lf_mpmc_queue) (ptr : Z) :=
  run_alone fuel q (FndStart ptr).

(** ** The concurrent system *)
Record sys := Sys { queue : lf_mpmc_queue; threads : gmap nat pc }.
Definition pc_of (s : sys) (t : nat) : pc := default Idle (threads s !! t).

(** What an observer sees of a step: the compare-exchanges that succeed, and the
    returns. *)
Inductive label :=
  | Tau
  | LEnq (t : nat) (d : Z)
  | LDeq (t : nat)
  | LRetEnq (t : nat) (r : lf_queue_result)
  | LRetDeq (t : nat) (r : lf_queue_result) (v : Z)
  | LRetFind (t : nat) (ptr : Z) (r : lf_queue_result).

Definition label_of (t : nat) (c c' : pc) : label :=
  match c, c' with
  | EnqCas d _, EnqData _ _ => LEnq t d
  | DeqCas _, DeqData _ => LDeq t
  | _, EnqDone r => LRetEnq t r
  | _, DeqDone r v => LRetDeq t r v
  | FndTail ptr _ _, FndDone r => LRetFind t ptr r
  | _, _ => Tau
  end.

(** A thread between operations may start any operation. *)
Definition ready (c : pc) : Prop :=
  match c with Idle | EnqDone _ | DeqDone _ _ | FndDone _ => True | _ => False end.
Definition entry (c : pc) : Prop :=
  match c with EnqStart _ | DeqStart | FndStart _ => True | _ => False end.

Inductive step : sys -> label -> sys -> Prop :=
  | step_call t c s :
      ready (pc_of s t) -> entry c ->
      step s Tau (Sys (queue s) (<[t := c]> (threads s)))
  | step_run t spurious q' c' s :
      step_thread spurious (queue s) (pc_of s t) = Some (q', c') ->
      step s (label_of t (pc_of s t) c') (Sys q' (<[t := c']> (threads s))).

Definition some_step (s s' : sys) : Prop := exists l, step s l s'.
Definition init_sys : sys := Sys (lf_mpmc_queue_init (Queue 0 0 ∅ ∅ 0)) ∅.
Definition reachable (s : sys) : Prop := rtc some_step init_sys s.
End queue.
