(* ===== verification/MpmcInv.v ===== *)
(** The inductive invariant of the concurrent MPMC queue: which ticket owns each
    cell, what every thread knows at each program point, and that every atomic
    step of every thread keeps it. *)
From S2P Require Import Prelude MpmcQueue.

Section invariant.
Context (k : Z).
Hypothesis Hk : 1 <= k.
Abbreviation cap := (2 ^ k).

Lemma cap_ge_2 : 2 <= cap.
Proof. pose proof (Z.pow_le_mono_r 2 1 k). lia. Qed.
Set Default Proof Using "Hk".

(** ** Cells and tickets

    Ticket [p] is the [p]-th successful enqueue, counted from 0; it lives in the
    cell [p mod cap].  [h p] is the value enqueued with ticket [p]. *)
Definition seqof (q : lf_mpmc_queue) (p : Z) : Z := seq_at q (cell_of q p).
Definition dataof (q : lf_mpmc_queue) (p : Z) : Z := data_at q (cell_of q p).

(** The cell of a ticket of the current window [[head - cap, head)]. *)
Definition cell_ok (h : Z -> Z) (q : lf_mpmc_queue) (p : Z) : Prop :=
  if decide (tail q <= p) then
    (* claimed, or published and waiting *)
    seqof q p = p \/ (seqof q p = p + 1 /\ dataof q p = h p)
  else
    (* being dequeued, or released for the next lap *)
    (0 <= p /\ seqof q p = p + 1 /\ dataof q p = h p) \/ seqof q p = p + cap.

Record queue_ok (h : Z -> Z) (q : lf_mpmc_queue) : Prop := QueueOk {
  ok_mask : mask q = cap - 1;
  ok_bounds : 0 <= tail q <= head q /\ head q <= tail q + cap;
  ok_width : head q + cap < 2 ^ 63;
  ok_cell : forall p, head q - cap <= p < head q -> cell_ok h q p }.

(** What a thread inside an operation relies on. *)
Definition thread_ok (h : Z -> Z) (q : lf_mpmc_queue) (c : pc) : Prop :=
  match c with
  | EnqSeq d pos => 0 <= pos <= head q
  | EnqCas d pos => 0 <= pos <= head q /\ (pos = head q -> seqof q pos = pos)
  | EnqData d pos => tail q <= pos < head q /\ seqof q pos = pos /\ h pos = d
  | EnqPub d pos => tail q <= pos < head q /\ seqof q pos = pos /\ h pos = d /\ dataof q pos = d
  | DeqSeq pos => 0 <= pos <= tail q
  | DeqCas pos => 0 <= pos <= tail q /\ (pos = tail q -> tail q < head q /\ seqof q pos = pos + 1)
  | DeqData pos => 0 <= pos /\ head q - cap <= pos < tail q /\ seqof q pos = pos + 1
  | DeqPub pos v => 0 <= pos /\ head q - cap <= pos < tail q /\ seqof q pos = pos + 1 /\ v = h pos
  | FndHead ptr tl => 0 <= tl <= tail q
  | FndSeq ptr pos n => 0 <= pos /\ pos + Z.of_nat n < head q
  | FndData ptr pos n => 0 <= pos /\ pos + Z.of_nat n < head q /\ pos + 1 <= seqof q pos
  | FndSeq2 ptr pos v n =>
      0 <= pos /\ pos + Z.of_nat n < head q /\ pos + 1 <= seqof q pos /\
      (v = h pos \/ pos + 1 < seqof q pos)
  | FndTail ptr pos n => 0 <= pos /\ pos + Z.of_nat n < head q /\ h pos = ptr
  | _ => True
  end.

(** The ticket a thread has claimed and not yet handed over. *)
Definition enq_ticket (c : pc) : option Z :=
  match c with EnqData _ p | EnqPub _ p => Some p | _ => None end.
Definition deq_ticket (c : pc) : option Z :=
  match c with DeqData p | DeqPub p _ => Some p | _ => None end.

(** ** Arithmetic of the ring *)

Lemma cell_mod q p : mask q = cap - 1 -> cell_of q p = p mod cap.
Proof. intros E. unfold cell_of. rewrite E. apply land_low. lia. Qed.

(** Two tickets less than a lap apart never share a cell. *)
Lemma cell_window q p p' :
  mask q = cap - 1 -> cell_of q p = cell_of q p' -> - cap < p - p' < cap -> p = p'.
Proof.
  intros E. rewrite !cell_mod by done. pose proof cap_ge_2. intros Em Hr.
  pose proof (Z.div_mod p cap). pose proof (Z.div_mod p' cap).
  assert (p / cap = p' / cap) by nia. nia.
Qed.

(** The ticket of the window that lives in the cell of [p]. *)
Lemma window_ticket q p : mask q = cap - 1 ->
  exists p', head q - cap <= p' < head q /\ cell_of q p' = cell_of q p /\
    (p < head q -> p <= p') /\ (p < head q - cap -> p + cap <= p') /\
    (p >= head q -> p' <= p - cap).
Proof.
  intros E. pose proof cap_ge_2. exists (head q - 1 - (head q - 1 - p) mod cap).
  pose proof (Z.mod_pos_bound (head q - 1 - p) cap).
  pose proof (Z.div_mod (head q - 1 - p) cap). set (d := (head q - 1 - p) / cap) in *.
  assert (head q - 1 - (head q - 1 - p) mod cap = p + d * cap) as -> by lia.
  split; [lia|]. split; [rewrite !cell_mod by done; apply Z_mod_plus_full|].
  assert (0 <= d \/ d <= -1) as [Hd|Hd] by lia; assert (d = 0 \/ 1 <= d \/ d <= -1) as Hd' by lia;
    split_and_all; intros; nia.
Qed.

(** The sequence number of the cell of any ticket that was ever claimed. *)
Lemma seqof_past h q p : queue_ok h q -> 0 <= p < head q ->
  p <= seqof q p /\ (seqof q p = p + 1 -> dataof q p = h p /\ head q - cap <= p) /\
  (p < head q - cap -> p + cap <= seqof q p).
Proof.
  intros [E Hb Hw Hc] Hp. pose proof cap_ge_2.
  destruct (window_ticket q p E) as (p' & Hp' & Ec & H1 & H2 & _).
  specialize (Hc p' Hp'). unfold cell_ok, seqof, dataof in *. rewrite Ec in Hc.
  destruct (Z.lt_ge_cases p (head q - cap)) as [Hlt|Hge].
  - specialize (H2 Hlt). destruct (decide (tail q <= p')); split_and_all; intros; lia.
  - assert (p = p') as <-; [|destruct (decide (tail q <= p)); split_and_all; intros; try lia; naive_solver lia].
    apply (cell_window q); [done..|lia].
Qed.

(** Every sequence number stays a small natural number. *)
Lemma seqof_bounds h q p : queue_ok h q -> 0 <= seqof q p < 2 ^ 63.
Proof.
  intros [E Hb Hw Hc]. pose proof cap_ge_2.
  destruct (window_ticket q p E) as (p' & Hp' & Ec & _).
  specialize (Hc p' Hp'). unfold cell_ok, seqof in *. rewrite Ec in Hc.
  destruct (decide (tail q <= p')); lia.
Qed.

(** The cell the next enqueue will use. *)
Lemma seqof_next h q : queue_ok h q ->
  (seqof q (head q) = head q <-> cell_of q (head q) = cell_of q (head q - cap) /\ seqof q (head q - cap) = head q) /\
  (seqof q (head q) = head q -> head q - cap < tail q) /\ seqof q (head q) <> head q + 1 /\
  seqof q (head q) <= head q.
Proof.
  intros [E Hb Hw Hc]. pose proof cap_ge_2.
  assert (cell_of q (head q) = cell_of q (head q - cap)) as Ec.
  { rewrite !cell_mod by done. replace (head q - cap) with (head q + (-1) * cap) by lia.
    by rewrite Z_mod_plus_full. }
  specialize (Hc (head q - cap) ltac:(lia)). unfold cell_ok, seqof in *. rewrite <- Ec in *.
  destruct (decide (tail q <= head q - cap)); split_and_all; try done; try lia; tauto.
Qed.

(** ** Reads after writes *)

Lemma seqof_set_seq q p v p' :
  seqof (set_seq (cell_of q p) v q) p' = if decide (cell_of q p = cell_of q p') then v else seqof q p'.
Proof.
  unfold seqof, seq_at, set_seq, cell_of; simpl. rewrite lookup_insert.
  by destruct (decide (Z.land p (mask q) = Z.land p' (mask q))).
Qed.
Lemma dataof_set_data q p v p' :
  dataof (set_data (cell_of q p) v q) p' = if decide (cell_of q p = cell_of q p') then v else dataof q p'.
Proof.
  unfold dataof, data_at, set_data, cell_of; simpl. rewrite lookup_insert.
  by destruct (decide (Z.land p (mask q) = Z.land p' (mask q))).
Qed.

(** ** One step of one thread *)

(** Everything the system invariant needs to know about a step of a thread from
    [c] to [c'] that takes the queue from [q] to [q'] and the history from [h] to
    [h']. *)
Record step_ok (h : Z -> Z) (q : lf_mpmc_queue) (c : pc) (h' : Z -> Z) (q' : lf_mpmc_queue) (c' : pc) : Prop := StepOk {
  so_queue : queue_ok h' q';
  so_self : thread_ok h' q' c';
  (* the knowledge of every other thread survives *)
  so_others : forall c2, thread_ok h q c2 ->
    (forall p, enq_ticket c = Some p -> enq_ticket c2 <> Some p) ->
    (forall p, deq_ticket c = Some p -> deq_ticket c2 <> Some p) -> thread_ok h' q' c2;
  (* a ticket is fresh when it is claimed *)
  so_enq : forall p, enq_ticket c' = Some p -> enq_ticket c = Some p \/ p = head q;
  so_deq : forall p, deq_ticket c' = Some p -> deq_ticket c = Some p \/ p = tail q;
  (* a cell in transit has an owner *)
  so_claimed : forall p, tail q' <= p < head q' -> seqof q' p = p ->
    enq_ticket c' = Some p \/
    (tail q <= p < head q /\ seqof q p = p /\ enq_ticket c <> Some p);
  so_draining : forall p, head q' - cap <= p < tail q' -> seqof q' p = p + 1 ->
    deq_ticket c' = Some p \/
    (head q - cap <= p < tail q /\ seqof q p = p + 1 /\ deq_ticket c <> Some p) }.

Lemma queue_ok_cell_eq h q p p' : queue_ok h q ->
  head q - cap <= p < head q -> head q - cap <= p' < head q -> cell_of q p = cell_of q p' -> p = p'.
Proof. intros Hq ?? E. apply (cell_window q); [apply Hq|done|lia]. Qed.

(** A step that only moves the thread. *)
Lemma step_ok_local h q c c' :
  queue_ok h q -> thread_ok h q c' ->
  enq_ticket c' = enq_ticket c -> deq_ticket c' = deq_ticket c ->
  step_ok h q c h q c'.
Proof.
  intros Hq Hc He Hd. split; try done; rewrite ?He, ?Hd; auto.
  - intros p ??. destruct (decide (enq_ticket c = Some p)); auto.
  - intros p ??. destruct (decide (deq_ticket c = Some p)); auto.
Qed.

(** The history after ticket [p] is given the value [d]. *)
Definition record_at (h : Z -> Z) (p d : Z) : Z -> Z := fun x => if decide (x = p) then d else h x.

Lemma step_ok_claim h q d :
  queue_ok h q -> thread_ok h q (EnqCas d (head q)) -> head q + 1 + cap < 2 ^ 63 ->
  step_ok h q (EnqCas d (head q)) (record_at h (head q) d) (set_head (head q + 1) q)
    (EnqData d (head q)).
Proof.
  intros Hq [_ Hs] Hw. specialize (Hs eq_refl). pose proof cap_ge_2.
  destruct (seqof_next h q Hq) as (Hn1 & Hn2 & _). apply Hn1 in Hs as Hs'. destruct Hs' as [Ecell Hprev].
  specialize (Hn2 Hs). pose proof Hq as [E Hb Hwd Hc].
  assert (forall p, seqof (set_head (head q + 1) q) p = seqof q p) as Es by done.
  assert (forall p, dataof (set_head (head q + 1) q) p = dataof q p) as Ed by done.
  assert (forall p, p < head q -> record_at h (head q) d p = h p) as Eh.
  { intros p Hp. unfold record_at. destruct (decide (p = head q)); [lia|done]. }
  assert (record_at h (head q) d (head q) = d) as Ehd.
  { unfold record_at. by destruct (decide (head q = head q)). }
  split; simpl; try done; auto.
  - split; simpl; try done; try lia. intros p Hp. unfold cell_ok. simpl. rewrite Es, Ed.
    destruct (decide (p = head q)) as [->|Hne].
    + destruct (decide (tail q <= head q)); [by left|lia].
    + rewrite Eh by lia. apply Hc. lia.
  - rewrite Es. split_and_all; [lia|lia|done|done].
  - intros c2 Hc2 _ _. destruct c2; simpl in *; rewrite ?Es, ?Ed in *; try done; destruct_and?.
    all: try (rewrite Eh by lia); split_and?; try done; try lia; intros; try lia.
    all: match goal with H : seqof _ ?x = ?x + 1 |- head ?q + 1 - cap <= _ =>
           destruct (decide (x = head q - cap)) as [->|]; lia end.
  - intros p Hp. injection Hp as ->. by right.
  - intros p Hp Hsq. destruct (decide (p = head q)) as [->|]; [by left|right].
    rewrite Es in Hsq. split_and_all; try done; lia.
  - intros p Hp Hsq. right. rewrite Es in Hsq. split_and_all; try done; lia.
Qed.

Lemma step_ok_write h q d p :
  queue_ok h q -> thread_ok h q (EnqData d p) ->
  step_ok h q (EnqData d p) h (set_data (cell_of q p) d q) (EnqPub d p).
Proof.
  intros Hq (Hp & Hs & Hd). pose proof cap_ge_2. pose proof Hq as [E Hb Hwd Hc].
  assert (forall x, seqof (set_data (cell_of q p) d q) x = seqof q x) as Es by done.
  assert (forall x, cell_of (set_data (cell_of q p) d q) x = cell_of q x) as Ec by done.
  assert (forall x, head q - cap <= x < head q -> x <> p ->
    dataof (set_data (cell_of q p) d q) x = dataof q x) as Ed.
  { intros x Hx Hne. rewrite dataof_set_data. destruct (decide (cell_of q p = cell_of q x)) as [Ex|]; [|done].
    apply (queue_ok_cell_eq h) in Ex; [lia|done|lia|lia]. }
  assert (dataof (set_data (cell_of q p) d q) p = d) as Edp.
  { rewrite dataof_set_data. by destruct (decide (cell_of q p = cell_of q p)). }
  split; simpl; try done; auto.
  - split; simpl; try done. intros x Hx. unfold cell_ok. simpl. rewrite Es.
    destruct (decide (x = p)) as [->|Hne]; [|rewrite Ed by done; by apply Hc].
    destruct (decide (tail q <= p)); [by left|lia].
  - intros c2 Hc2 He _. destruct c2; simpl in *; rewrite ?Es in *; try done.
    destruct Hc2 as (? & ? & ? & ?). rewrite Ed; [done|lia|]. intros ->. by apply (He p).
  - intros x Hx Hsx. destruct (decide (x = p)) as [->|]; [by left|right].
    rewrite Es in Hsx. split; [done|split; [done|congruence]].
Qed.

Lemma step_ok_publish h q d p :
  queue_ok h q -> thread_ok h q (EnqPub d p) ->
  step_ok h q (EnqPub d p) h (set_seq (cell_of q p) (p + 1) q) (EnqDone LF_QUEUE_OK).
Proof.
  intros Hq (Hp & Hs & Hd & Hdat). pose proof cap_ge_2. pose proof Hq as [E Hb Hwd Hc].
  set (q' := set_seq (cell_of q p) (p + 1) q).
  assert (forall x, dataof q' x = dataof q x) as Ed by done.
  assert (forall x, head q - cap <= x < head q -> x <> p -> seqof q' x = seqof q x) as Es.
  { intros x Hx Hne. unfold q'. rewrite seqof_set_seq.
    destruct (decide (cell_of q p = cell_of q x)) as [Ex|]; [|done].
    apply (queue_ok_cell_eq h) in Ex; [lia|done|lia|lia]. }
  assert (seqof q' p = p + 1) as Esp.
  { unfold q'. rewrite seqof_set_seq. by destruct (decide (cell_of q p = cell_of q p)). }
  assert (forall x, seqof q x <= seqof q' x /\ (seqof q x <> seqof q' x -> seqof q x = p)) as Emono.
  { intros x. unfold q'. rewrite seqof_set_seq. unfold seqof in *.
    destruct (decide (cell_of q p = cell_of q x)) as [<-|]; lia. }
  split; simpl; try done; auto.
  - split; simpl; try done. intros x Hx. unfold cell_ok. change (tail q') with (tail q). rewrite Ed.
    destruct (decide (x = p)) as [->|Hne]; [|rewrite Es by done; by apply Hc].
    destruct (decide (tail q <= p)); [right; split; congruence|lia].
  - intros c2 Hc2 He Hde. change (head q') with (head q). change (tail q') with (tail q).
    destruct c2 as [| | |d2 pos| d2 pos|d2 pos| | | |pos|pos|pos v| | | | | ptr pos n|ptr pos v n| |];
      simpl in *; try done.
    + destruct Hc2 as [? Hc2]. split; [done|]. intros ->. specialize (Hc2 eq_refl).
      destruct (Emono (head q)) as [_ Hm].
      destruct (decide (seqof q (head q) = seqof q' (head q))); [congruence|].
      specialize (Hm ltac:(done)). lia.
    + rewrite Es; [done|lia|]. intros ->. by apply (He p).
    + rewrite Es; [done|lia|]. intros ->. by apply (He p).
    + destruct Hc2 as [? Hc2]. split; [done|]. intros ->. destruct (Hc2 eq_refl) as [? Hc2'].
      split; [done|]. rewrite Es; [done|lia|]. intros E'. rewrite E' in Hc2'. lia.
    + rewrite Es; [done|lia|lia].
    + rewrite Es; [done|lia|lia].
    + destruct (Emono pos). lia.
    + destruct (Emono pos). lia.
  - intros x Hx Hsx. right. destruct (decide (x = p)) as [->|]; [lia|].
    rewrite Es in Hsx by lia. split; [done|split; [done|congruence]].
  - intros x Hx Hsx. right. change (tail q') with (tail q) in Hx. rewrite Es in Hsx by lia. done.
Qed.

Lemma step_ok_take h q :
  queue_ok h q -> thread_ok h q (DeqCas (tail q)) ->
  step_ok h q (DeqCas (tail q)) h (set_tail (tail q + 1) q) (DeqData (tail q)).
Proof.
  intros Hq [_ Hs]. specialize (Hs eq_refl) as [Hlt Hs]. pose proof cap_ge_2.
  pose proof Hq as [E Hb Hwd Hc].
  assert (forall p, seqof (set_tail (tail q + 1) q) p = seqof q p) as Es by done.
  assert (forall p, dataof (set_tail (tail q + 1) q) p = dataof q p) as Ed by done.
  split; simpl; try done; auto.
  - split; simpl; try done; try lia. intros p Hp. unfold cell_ok. simpl. rewrite Es, Ed.
    specialize (Hc p Hp). unfold cell_ok in Hc.
    destruct (decide (p = tail q)) as [->|Hne].
    + destruct (decide (tail q + 1 <= tail q)); [lia|].
      destruct (decide (tail q <= tail q)); [|lia]. left. split; [lia|]. destruct Hc as [|[]]; [lia|done].
    + destruct (decide (tail q <= p)), (decide (tail q + 1 <= p)); try lia; done.
  - rewrite Es. lia.
  - intros c2 Hc2 _ _. destruct c2; simpl in *; rewrite ?Es, ?Ed in *; try done; destruct_and?.
    all: split_and?; try done; try lia; intros; try lia.
    all: match goal with H : seqof _ ?x = ?x |- tail ?q + 1 <= _ =>
           destruct (decide (x = tail q)) as [->|]; lia end.
  - intros p Hp. injection Hp as ->. by right.
  - intros p Hp Hsq. right. rewrite Es in Hsq. split_and?; try done; lia.
  - intros p Hp Hsq. rewrite Es in Hsq. destruct (decide (p = tail q)) as [->|]; [by left|right].
    split_and?; try done; lia.
Qed.

Lemma step_ok_read h q p :
  queue_ok h q -> thread_ok h q (DeqData p) ->
  step_ok h q (DeqData p) h q (DeqPub p (dataof q p)).
Proof.
  intros Hq (H0 & Hp & Hs). apply step_ok_local; try done. simpl. split_and?; try done; try lia.
  pose proof (ok_cell _ _ Hq p) as Hc. pose proof (ok_bounds _ _ Hq). pose proof cap_ge_2.
  specialize (Hc ltac:(lia)). unfold cell_ok in Hc.
  destruct (decide (tail q <= p)); [lia|]. destruct Hc as [(_ & _ & ?)|]; [done|lia].
Qed.

Lemma step_ok_release h q p v :
  queue_ok h q -> thread_ok h q (DeqPub p v) ->
  step_ok h q (DeqPub p v) h (set_seq (cell_of q p) (p + cap) q) (DeqDone LF_QUEUE_OK v).
Proof.
  intros Hq (H0 & Hp & Hs & Hv). pose proof cap_ge_2. pose proof Hq as [E Hb Hwd Hc].
  set (q' := set_seq (cell_of q p) (p + cap) q).
  assert (forall x, dataof q' x = dataof q x) as Ed by done.
  assert (forall x, head q - cap <= x < head q -> x <> p -> seqof q' x = seqof q x) as Es.
  { intros x Hx Hne. unfold q'. rewrite seqof_set_seq.
    destruct (decide (cell_of q p = cell_of q x)) as [Ex|]; [|done].
    apply (queue_ok_cell_eq h) in Ex; [lia|done|lia|lia]. }
  assert (seqof q' p = p + cap) as Esp.
  { unfold q'. rewrite seqof_set_seq. by destruct (decide (cell_of q p = cell_of q p)). }
  assert (forall x, seqof q x <= seqof q' x /\ (seqof q x <> seqof q' x -> seqof q x = p + 1)) as Emono.
  { intros x. unfold q'. rewrite seqof_set_seq. unfold seqof in *.
    destruct (decide (cell_of q p = cell_of q x)) as [<-|]; lia. }
  split; simpl; try done; auto.
  - split; simpl; try done. intros x Hx. unfold cell_ok. change (tail q') with (tail q). rewrite Ed.
    destruct (decide (x = p)) as [->|Hne]; [|rewrite Es by done; by apply Hc].
    destruct (decide (tail q <= p)); [lia|by right].
  - intros c2 Hc2 He Hde. change (head q') with (head q). change (tail q') with (tail q).
    destruct c2 as [| | |d2 pos| d2 pos|d2 pos| | | |pos|pos|pos v2| | | | | ptr pos n|ptr pos v2 n| |];
      simpl in *; try done.
    + destruct Hc2 as [? Hc2]. split; [done|]. intros ->. specialize (Hc2 eq_refl).
      unfold q'. rewrite seqof_set_seq.
      destruct (decide (cell_of q p = cell_of q (head q))) as [Ec|]; [|done].
      unfold seqof in Hs, Hc2. rewrite Ec in Hs. apply (cell_window q) in Ec; [lia|done|lia].
    + rewrite Es; [done|lia|lia].
    + rewrite Es; [done|lia|lia].
    + destruct Hc2 as [? Hc2]. split; [done|]. intros ->. destruct (Hc2 eq_refl) as [? Hc2'].
      split; [done|]. rewrite Es; [done|lia|lia].
    + rewrite Es; [done|lia|]. intros ->. by apply (Hde p).
    + rewrite Es; [done|lia|]. intros ->. by apply (Hde p).
    + destruct (Emono pos). lia.
    + destruct (Emono pos). lia.
  - intros x Hx Hsx. right. change (tail q') with (tail q) in Hx. rewrite Es in Hsx by lia. done.
  - intros x Hx Hsx. right. destruct (decide (x = p)) as [->|]; [lia|].
    rewrite Es in Hsx by lia. split; [done|split; [done|congruence]].
Qed.

(** The history after a step: only a successful claim extends it. *)
Definition history_after (h : Z -> Z) (c c' : pc) : Z -> Z :=
  match c, c' with EnqCas d p, EnqData _ _ => record_at h p d | _, _ => h end.

Lemma step_ok_enqueue h sp q c q' c' :
  queue_ok h q -> thread_ok h q c -> step_enqueue sp q c = Some (q', c') ->
  head q' + cap < 2 ^ 63 -> step_ok h q c (history_after h c c') q' c'.
Proof.
  intros Hq Hc Hs Hw. pose proof cap_ge_2. pose proof Hq as [E Hb Hwd _].
  destruct c; simpl in Hs; try discriminate; try (injection Hs as <- <-).
  - apply step_ok_local; try done. simpl. lia.
  - pose proof (seqof_bounds h q pos Hq) as Hsb. unfold seqof in Hsb. simpl in Hc.
    rewrite i64_small by lia.
    destruct (Z.eqb_spec (seq_at q (cell_of q pos) - pos) 0) as [Hz|Hz].
    + apply step_ok_local; try done. split; [done|]. intros _. unfold seqof. lia.
    + destruct (Z.ltb_spec (seq_at q (cell_of q pos) - pos) 0); by apply step_ok_local.
  - destruct (Z.eqb_spec (head q) pos) as [<-|Hne]; [destruct sp|]; injection Hs as <- <-; simpl in *.
    + apply step_ok_local; try done. simpl. lia.
    + rewrite u64_small in * by lia. by apply step_ok_claim.
    + apply step_ok_local; try done. simpl. lia.
  - by apply step_ok_write.
  - simpl in Hc. rewrite u64_small by lia. by apply step_ok_publish.
Qed.

Lemma step_ok_dequeue h sp q c q' c' :
  queue_ok h q -> thread_ok h q c -> step_dequeue cap sp q c = Some (q', c') ->
  step_ok h q c (history_after h c c') q' c'.
Proof.
  intros Hq Hc Hs. pose proof cap_ge_2. pose proof Hq as [E Hb Hwd _].
  destruct c; simpl in Hs; try discriminate; try (injection Hs as <- <-).
  - apply step_ok_local; try done. simpl. lia.
  - pose proof (seqof_bounds h q pos Hq) as Hsb. unfold seqof in Hsb. simpl in Hc.
    rewrite u64_small, i64_small by lia.
    destruct (Z.eqb_spec (seq_at q (cell_of q pos) - (pos + 1)) 0) as [Hz|Hz].
    + apply step_ok_local; try done. split; [done|]. intros ->.
      assert (seqof q (tail q) = tail q + 1) by (unfold seqof; lia). split; [|done].
      destruct (decide (tail q = head q)) as [Et|]; [|lia].
      destruct (seqof_next h q Hq) as (_ & _ & Hn & _). congruence.
    + destruct (Z.ltb_spec (seq_at q (cell_of q pos) - (pos + 1)) 0); by apply step_ok_local.
  - destruct (Z.eqb_spec (tail q) pos) as [<-|Hne]; [destruct sp|]; injection Hs as <- <-; simpl in *.
    + apply step_ok_local; try done. simpl. lia.
    + rewrite u64_small by lia. by apply step_ok_take.
    + apply step_ok_local; try done. simpl. lia.
  - by apply step_ok_read.
  - simpl in Hc. rewrite u64_small by lia. by apply step_ok_release.
Qed.

Lemma find_next_ok h q ptr pos n : 0 <= pos -> pos + Z.of_nat n <= head q ->
  thread_ok h q (find_next ptr pos n).
Proof. intros. destruct n; simpl; [done|lia]. Qed.
Lemma find_next_tickets ptr pos n :
  enq_ticket (find_next ptr pos n) = None /\ deq_ticket (find_next ptr pos n) = None.
Proof. by destruct n. Qed.

Lemma step_ok_find h q c q' c' :
  queue_ok h q -> thread_ok h q c -> step_find cap q c = Some (q', c') ->
  step_ok h q c h q' c'.
Proof.
  intros Hq Hc Hs. pose proof cap_ge_2. pose proof Hq as [E Hb Hwd _].
  assert (forall p, 0 <= p < head q -> u64 (p + 1) = p + 1) as Hu by (intros; apply u64_small; lia).
  destruct c; simpl in Hs; try discriminate; try (injection Hs as <- <-).
  - case_bool; apply step_ok_local; try done; simpl; lia.
  - simpl in Hc. destruct (Z.leb_spec (head q) tail); [by apply step_ok_local|].
    destruct (Z.ltb_spec cap (head q - tail)); apply step_ok_local; try done;
      try apply find_next_tickets; apply find_next_ok; lia.
  - simpl in Hc. rewrite Hu by lia. fold (seqof q pos).
    destruct (Z.eqb_spec (seqof q pos) (pos + 1)); apply step_ok_local; try done;
      try apply find_next_tickets; simpl; try lia. apply find_next_ok; lia.
  - simpl in Hc. fold (dataof q pos). apply step_ok_local; try done. simpl.
    destruct (seqof_past h q pos) as (_ & Hd & _); [done|lia|].
    lia.
  - simpl in Hc. rewrite Hu by lia. fold (seqof q pos).
    destruct (Z.eqb_spec (seqof q pos) (pos + 1)) as [Es|]; simpl;
      [destruct (Z.eqb_spec v ptr) as [->|]; simpl|]; apply step_ok_local; try done;
      try apply find_next_tickets; simpl; try (apply find_next_ok; lia).
    lia.
  - simpl in Hc. case_bool; apply step_ok_local; try done; try apply find_next_tickets.
    apply find_next_ok; lia.
Qed.

Lemma step_ok_thread h sp q c q' c' :
  queue_ok h q -> thread_ok h q c -> step_thread cap sp q c = Some (q', c') ->
  head q' + cap < 2 ^ 63 -> step_ok h q c (history_after h c c') q' c'.
Proof.
  intros Hq Hc Hs Hw.
  assert (step_find cap q c = Some (q', c') -> history_after h c c' = h) as Eh by by destruct c.
  destruct c; first [by apply (step_ok_enqueue h sp) | by apply (step_ok_dequeue h sp)
    | rewrite Eh by done; by apply step_ok_find].
Qed.
End invariant.
