(* ===== verification/MpmcSpec.v ===== *)
(** The abstract contract of the MPMC queue, a bounded FIFO, and the proof that
    every interleaving of the concurrent queue refines it. *)
From S2P Require Import Prelude MpmcQueue MpmcInv.

#[local] Set Warnings "-clear-no-such-hyp".

(** ** The specification *)

(** [items]: enqueued, not yet taken, oldest first.  [publishing]: threads whose
    element is in [items] but whose enqueue has not returned.  [taken]: elements
    taken by a dequeue that has not returned. *)
Record fifo := Fifo { items : list Z; publishing : gset nat; taken : gmap nat Z }.
Definition fifo_empty : fifo := Fifo [] ∅ ∅.

Definition fifo_next (cap : Z) (a : fifo) (l : label) : option fifo :=
  match l with
  | Tau => Some a
  | LEnq t d =>
      if decide (Z.of_nat (length (items a)) < cap)
      then Some (Fifo (items a ++ [d]) ({[t]} ∪ publishing a) (taken a)) else None
  | LDeq t =>
      match items a with
      | [] => None
      | v :: rest =>
          if decide (taken a !! t = None)
          then Some (Fifo rest (publishing a) (<[t := v]> (taken a))) else None
      end
  | LRetEnq t LF_QUEUE_OK =>
      if decide (t ∈ publishing a)
      then Some (Fifo (items a) (publishing a ∖ {[t]}) (taken a)) else None
  (* refused only when full, or while a dequeue still holds its cell *)
  | LRetEnq t LF_QUEUE_FULL =>
      if decide (Z.of_nat (length (items a)) = cap \/ taken a <> ∅) then Some a else None
  | LRetDeq t LF_QUEUE_OK v =>
      if decide (taken a !! t = Some v)
      then Some (Fifo (items a) (publishing a) (delete t (taken a))) else None
  (* refused only when empty, or while an enqueue has not published its cell *)
  | LRetDeq t LF_QUEUE_EMPTY v =>
      if decide (items a = [] \/ publishing a <> ∅) then Some a else None
  | LRetFind t ptr LF_QUEUE_OK => if decide (ptr ∈ items a) then Some a else None
  | LRetFind t ptr LF_QUEUE_NOT_FOUND => Some a
  | LRetEnq _ _ | LRetDeq _ _ _ | LRetFind _ _ _ => None
  end.

(** A whole sequence of observations. *)
Fixpoint fifo_run (cap : Z) (a : fifo) (ls : list label) : option fifo :=
  match ls with
  | [] => Some a
  | l :: ls => a ← fifo_next cap a l; fifo_run cap a ls
  end.

Lemma fifo_run_app cap a ls ls' :
  fifo_run cap a (ls ++ ls') = fifo_run cap a ls ≫= fun a => fifo_run cap a ls'.
Proof.
  revert a; induction ls as [|l ls IH]; intros a; simpl; [done|].
  destruct (fifo_next cap a l); simpl; [apply IH|done].
Qed.

(** ** Executions *)

(** [exec cap ls s]: an execution from the initial state that shows [ls] (oldest
    first) and stays below 2^63 enqueues, so that no counter wraps. *)
Inductive exec (cap : Z) : list label -> sys -> Prop :=
  | exec_init : exec cap [] (init_sys cap)
  | exec_step ls s l s' :
      exec cap ls s -> step cap s l s' -> head (queue s') + cap < 2 ^ 63 ->
      exec cap (ls ++ [l]) s'.

Section refinement.
Context (k : Z).
Hypothesis Hk : 1 <= k <= 61.
Abbreviation cap := (2 ^ k).
Set Default Proof Using "Hk".

Lemma Hk1 : 1 <= k. Proof. lia. Qed.

(** ** The invariant of the system *)

Record sys_ok (h : Z -> Z) (s : sys) : Prop := SysOk {
  sys_queue : queue_ok k h (queue s);
  sys_threads : forall t, thread_ok k h (queue s) (pc_of s t);
  sys_enq : forall t t' p, t <> t' -> enq_ticket (pc_of s t) = Some p -> enq_ticket (pc_of s t') <> Some p;
  sys_deq : forall t t' p, t <> t' -> deq_ticket (pc_of s t) = Some p -> deq_ticket (pc_of s t') <> Some p;
  sys_claimed : forall p, tail (queue s) <= p < head (queue s) -> seqof (queue s) p = p ->
    exists t, enq_ticket (pc_of s t) = Some p;
  sys_draining : forall p, head (queue s) - cap <= p < tail (queue s) -> seqof (queue s) p = p + 1 ->
    exists t, deq_ticket (pc_of s t) = Some p }.

Lemma pc_of_insert q t c m t' :
  pc_of (Sys q (<[t := c]> m)) t' = if decide (t = t') then c else default Idle (m !! t').
Proof. unfold pc_of; simpl. rewrite lookup_insert. by destruct (decide (t = t')). Qed.

Lemma enq_ticket_bound h q c p : thread_ok k h q c -> enq_ticket c = Some p -> p < head q.
Proof. destruct c; simpl; try done; intros ? [= <-]; lia. Qed.
Lemma deq_ticket_bound h q c p : thread_ok k h q c -> deq_ticket c = Some p -> p < tail q.
Proof. destruct c; simpl; try done; intros ? [= <-]; lia. Qed.

(** A thread's step keeps the system invariant. *)
Lemma sys_ok_step h s t h' q' c' :
  sys_ok h s -> step_ok k h (queue s) (pc_of s t) h' q' c' ->
  sys_ok h' (Sys q' (<[t := c']> (threads s))).
Proof.
  intros [Hq Ht He Hd Hcl Hdr] [Sq Ss So Se Sd Sc Sdr]. split; simpl; try done.
  - intros t'. rewrite pc_of_insert. destruct (decide (t = t')) as [<-|Hne]; [done|].
    apply So; [apply Ht|..]; intros p; [by apply He|by apply Hd].
  - intros t1 t2 p Hne. rewrite !pc_of_insert.
    destruct (decide (t = t1)) as [<-|H1], (decide (t = t2)) as [<-|H2]; try done.
    + intros E E2. pose proof (enq_ticket_bound _ _ _ _ (Ht t2) E2).
      destruct (Se p E) as [E1|]; [by apply (He t t2 p)|lia].
    + intros E E2. pose proof (enq_ticket_bound _ _ _ _ (Ht t1) E).
      destruct (Se p E2) as [E1|]; [by apply (He t1 t p)|lia].
    + by apply He.
  - intros t1 t2 p Hne. rewrite !pc_of_insert.
    destruct (decide (t = t1)) as [<-|H1], (decide (t = t2)) as [<-|H2]; try done.
    + intros E E2. pose proof (deq_ticket_bound _ _ _ _ (Ht t2) E2).
      destruct (Sd p E) as [E1|]; [by apply (Hd t t2 p)|lia].
    + intros E E2. pose proof (deq_ticket_bound _ _ _ _ (Ht t1) E).
      destruct (Sd p E2) as [E1|]; [by apply (Hd t1 t p)|lia].
    + by apply Hd.
  - intros p Hp Hs. destruct (Sc p Hp Hs) as [E|(Hp' & Hs' & Hne)].
    + exists t. rewrite pc_of_insert. by destruct (decide (t = t)).
    + destruct (Hcl p Hp' Hs') as [t' E]. exists t'. rewrite pc_of_insert.
      destruct (decide (t = t')) as [<-|]; done.
  - intros p Hp Hs. destruct (Sdr p Hp Hs) as [E|(Hp' & Hs' & Hne)].
    + exists t. rewrite pc_of_insert. by destruct (decide (t = t)).
    + destruct (Hdr p Hp' Hs') as [t' E]. exists t'. rewrite pc_of_insert.
      destruct (decide (t = t')) as [<-|]; done.
Qed.

(** Starting an operation. *)
Lemma sys_ok_call h s t c :
  sys_ok h s -> ready (pc_of s t) -> entry c -> sys_ok h (Sys (queue s) (<[t := c]> (threads s))).
Proof.
  intros Hs Hr He. apply (sys_ok_step h s t h); [done|].
  apply (step_ok_local k Hk1); [apply Hs|by destruct c|..]; by destruct (pc_of s t), c.
Qed.

Lemma init_cells_seq n q i : 0 <= i < Z.of_nat n -> seq_at (init_cells n q) i = i.
Proof.
  induction n as [|n IH]; intros Hi; [lia|].
  unfold seq_at; simpl. rewrite lookup_insert.
  destruct (decide (Z.of_nat n = i)) as [->|]; [done|]. apply IH. lia.
Qed.

Lemma sys_ok_init : sys_ok (fun _ => 0) (init_sys cap).
Proof.
  pose proof (cap_ge_2 k Hk1). assert (cap <= 2 ^ 61) by (apply Z.pow_le_mono_r; lia).
  assert (forall n q, head (init_cells n q) = head q) as Eh by (intros n q; induction n; done).
  assert (forall n q, tail (init_cells n q) = tail q) as Et by (intros n q; induction n; done).
  assert (forall p, 0 - cap <= p < 0 -> seqof (lf_mpmc_queue_init cap (Queue 0 0 ∅ ∅ 0)) p = p + cap) as Es.
  { intros p Hp. unfold seqof.
    rewrite (cell_mod k Hk1) by done. rewrite <- (Z_mod_plus_full p 1), Z.mod_small by lia.
    rewrite Z.mul_1_l. apply init_cells_seq. lia. }
  unfold init_sys. split; simpl; rewrite ?Eh, ?Et; simpl; try done; try lia.
  - split; simpl; rewrite ?Eh, ?Et; simpl; try done; try lia.
    intros p Hp. unfold cell_ok. simpl. rewrite Et. simpl.
    destruct (decide (0 <= p)); [lia|right]. by apply Es.
  - intros p Hp Hs. assert (p + cap = p + 1) by (rewrite <- (Es p Hp); exact Hs). lia.
Qed.

(** ** What each visible step does *)

Lemma full_reason h q d pos : queue_ok k h q -> thread_ok k h q (EnqSeq d pos) ->
  seqof q pos < pos ->
  head q = tail q + cap \/ exists p, head q - cap <= p < tail q /\ seqof q p = p + 1.
Proof.
  intros Hq Hc Hs. pose proof (cap_ge_2 k Hk1). pose proof Hq as [E Hb Hw Hcell]. simpl in Hc.
  destruct (decide (pos = head q)) as [->|Hne].
  2:{ destruct (seqof_past k Hk1 h q pos) as [? _]; [done|lia|lia]. }
  destruct (decide (head q = tail q + cap)); [by left|right].
  exists (head q - cap). split; [lia|].
  assert (seqof q (head q) = seqof q (head q - cap)) as Es.
  { unfold seqof. rewrite !(cell_mod k Hk1) by done.
    replace (head q - cap) with (head q + (-1) * cap) by lia. by rewrite Z_mod_plus_full. }
  specialize (Hcell (head q - cap) ltac:(lia)). unfold cell_ok in Hcell.
  destruct (decide (tail q <= head q - cap)); lia.
Qed.

Lemma empty_reason h q pos : queue_ok k h q -> thread_ok k h q (DeqSeq pos) ->
  seqof q pos < pos + 1 ->
  tail q = head q \/ exists p, tail q <= p < head q /\ seqof q p = p.
Proof.
  intros Hq Hc Hs. pose proof (cap_ge_2 k Hk1). pose proof Hq as [E Hb Hw Hcell]. simpl in Hc.
  destruct (decide (tail q = head q)); [by left|right].
  destruct (seqof_past k Hk1 h q pos) as (? & _ & Hold); [done|lia|].
  destruct (Z.lt_ge_cases pos (head q - cap)); [lia|].
  specialize (Hcell pos ltac:(lia)). unfold cell_ok in Hcell.
  destruct (decide (tail q <= pos)); [|lia]. exists pos. split; lia.
Qed.

(** The effect behind each label. *)
Definition label_ok (h : Z -> Z) (q : lf_mpmc_queue) (c : pc) (q' : lf_mpmc_queue) (c' : pc) (l : label) : Prop :=
  match l with
  | LEnq _ d => c = EnqCas d (head q) /\ head q' = head q + 1 /\ tail q' = tail q /\
      c' = EnqData d (head q) /\ head q < tail q + cap
  | LDeq _ => c = DeqCas (tail q) /\ tail q' = tail q + 1 /\ head q' = head q /\
      c' = DeqData (tail q) /\ tail q < head q
  | LRetEnq _ r => head q' = head q /\ tail q' = tail q /\ c' = EnqDone r /\ deq_ticket c = None /\
      ((r = LF_QUEUE_OK /\ is_Some (enq_ticket c)) \/
       (r = LF_QUEUE_FULL /\ enq_ticket c = None /\
        (head q = tail q + cap \/ exists p, head q - cap <= p < tail q /\ seqof q p = p + 1)))
  | LRetDeq _ r v => head q' = head q /\ tail q' = tail q /\ c' = DeqDone r v /\ enq_ticket c = None /\
      ((r = LF_QUEUE_OK /\ exists p, deq_ticket c = Some p /\ v = h p) \/
       (r = LF_QUEUE_EMPTY /\ deq_ticket c = None /\
        (tail q = head q \/ exists p, tail q <= p < head q /\ seqof q p = p)))
  | LRetFind _ ptr r => head q' = head q /\ tail q' = tail q /\
      enq_ticket c = None /\ deq_ticket c = None /\ enq_ticket c' = None /\ deq_ticket c' = None /\
      ((r = LF_QUEUE_OK /\ exists p, tail q <= p < head q /\ h p = ptr) \/ r = LF_QUEUE_NOT_FOUND)
  | Tau => head q' = head q /\ tail q' = tail q /\
      enq_ticket c' = enq_ticket c /\ deq_ticket c' = deq_ticket c
  end.

Lemma label_ok_step h sp q c q' c' t :
  queue_ok k h q -> thread_ok k h q c -> step_thread cap sp q c = Some (q', c') ->
  label_ok h q c q' c' (label_of t c c').
Proof.
  intros Hq Hc Hs. pose proof (cap_ge_2 k Hk1). pose proof Hq as [E Hb Hw Hcell].
  pose proof (fun p => seqof_bounds k Hk1 h q p Hq) as Hsb. unfold seqof in Hsb.
  destruct c; simpl in Hs; try discriminate; try (injection Hs as <- <-); try done.
  - (* EnqSeq *) simpl in Hc. specialize (Hsb pos). rewrite i64_small by lia.
    destruct (Z.eqb_spec (seq_at q (cell_of q pos) - pos) 0); [done|].
    destruct (Z.ltb_spec (seq_at q (cell_of q pos) - pos) 0); [simpl|done].
    split_and?; try done. right. split_and?; try done.
    apply (full_reason h q data pos); [done..|]. unfold seqof. lia.
  - (* EnqCas *) destruct (Z.eqb_spec (head q) pos) as [<-|Hne]; [destruct sp|];
      injection Hs as <- <-; try done. simpl in *.
    rewrite u64_small by lia. split_and?; try done.
    destruct (seqof_next k Hk1 h q Hq) as (_ & Hn & _). destruct Hc as [_ Hc]. specialize (Hn (Hc eq_refl)). lia.
  - (* EnqPub *) simpl. split_and?; try done. left. by eauto.
  - (* DeqSeq *) simpl in Hc. specialize (Hsb pos). rewrite u64_small, i64_small by lia.
    destruct (Z.eqb_spec (seq_at q (cell_of q pos) - (pos + 1)) 0); [done|].
    destruct (Z.ltb_spec (seq_at q (cell_of q pos) - (pos + 1)) 0); [simpl|done].
    split_and?; try done. right. split_and?; try done.
    apply (empty_reason h q pos); [done..|]. unfold seqof. lia.
  - (* DeqCas *) destruct (Z.eqb_spec (tail q) pos) as [<-|Hne]; [destruct sp|];
      injection Hs as <- <-; try done. simpl in *.
    rewrite u64_small by lia. split_and?; try done. destruct Hc as [_ Hc]. by apply Hc.
  - (* DeqPub *) simpl in *. split_and?; try done. left. split; [done|]. exists pos. split; [done|]. apply Hc.
  - (* FndStart *) by case_bool.
  - (* FndHead *) destruct (head q <=? tail); [done|]. case_bool; simpl; by destruct (Z.to_nat _).
  - (* FndSeq *) case_bool; [by destruct n|done].
  - (* FndSeq2 *) case_bool; [by destruct n|done].
  - (* FndTail *) simpl in Hc. destruct (Z.ltb_spec pos (tail q)).
    + destruct n; simpl; [|done]. split_and?; try done. by right.
    + simpl. split_and?; try done. left. split; [done|]. exists pos. split; [lia|]. by apply Hc.
Qed.

(** ** The simulation *)

(** Contents of the queue: the values of the tickets in [[tail, head)]. *)
Definition contents (h : Z -> Z) (q : lf_mpmc_queue) : list Z := h <$> seqZ (tail q) (head q - tail q).

Record simulates (s : sys) (a : fifo) (h : Z -> Z) : Prop := Simulates {
  sim_sys : sys_ok h s;
  sim_items : items a = contents h (queue s);
  sim_publishing : forall t, t ∈ publishing a <-> is_Some (enq_ticket (pc_of s t));
  sim_taken : forall t v, taken a !! t = Some v <-> exists p, deq_ticket (pc_of s t) = Some p /\ h p = v }.

Lemma contents_length h q : tail q <= head q -> Z.of_nat (length (contents h q)) = head q - tail q.
Proof. intros. unfold contents. rewrite length_fmap, length_seqZ. lia. Qed.
Lemma contents_elem h q p : tail q <= p < head q -> h p ∈ contents h q.
Proof. intros. unfold contents. apply list_elem_of_fmap_2. apply elem_of_seqZ. lia. Qed.
Lemma contents_ext h h' q q' : head q' = head q -> tail q' = tail q ->
  (forall p, p < head q -> h' p = h p) -> contents h' q' = contents h q.
Proof.
  intros Eh Et Hh. unfold contents. rewrite Eh, Et. apply list_fmap_ext. intros i x Hx.
  apply Hh. apply lookup_seqZ in Hx. lia.
Qed.
Lemma contents_claim h q q' d : tail q <= head q -> head q' = head q + 1 -> tail q' = tail q ->
  contents (record_at h (head q) d) q' = contents h q ++ [d].
Proof.
  intros Hb Eh Et. unfold contents. rewrite Eh, Et.
  replace (head q + 1 - tail q) with ((head q - tail q) + 1) by lia.
  rewrite seqZ_app, fmap_app by lia.
  replace (tail q + (head q - tail q)) with (head q) by lia. f_equal.
  - apply list_fmap_ext. intros i x Hx. apply lookup_seqZ in Hx. unfold record_at.
    destruct (decide (x = head q)); [lia|done].
  - change 1 with (Z.succ 0). rewrite seqZ_cons by lia. cbn. f_equal.
    unfold record_at. by destruct (decide (head q = head q)).
Qed.
Lemma contents_take h q q' : tail q < head q -> head q' = head q -> tail q' = tail q + 1 ->
  contents h q = h (tail q) :: contents h q'.
Proof.
  intros Hb Eh Et. unfold contents. rewrite Eh, Et.
  rewrite seqZ_cons by lia. cbn. f_equal. f_equal. f_equal; lia.
Qed.

(** Only a claim writes the history. *)
Lemma history_after_same h c c' t :
  (forall d, label_of t c c' <> LEnq t d) -> history_after h c c' = h.
Proof. intros Hl. destruct c; try done. destruct c'; try done. by destruct (Hl data). Qed.

(** What happens to the bookkeeping of the other threads. *)
Lemma sim_others s a h h' q' t c' (pub : gset nat) (tk : gmap nat Z) :
  simulates s a h -> sys_ok h' (Sys q' (<[t := c']> (threads s))) ->
  (forall p, p < head (queue s) -> h' p = h p) ->
  (t ∈ pub <-> is_Some (enq_ticket c')) ->
  (forall t', t' <> t -> t' ∈ pub <-> t' ∈ publishing a) ->
  (forall v, tk !! t = Some v <-> exists p, deq_ticket c' = Some p /\ h' p = v) ->
  (forall t', t' <> t -> tk !! t' = taken a !! t') ->
  simulates (Sys q' (<[t := c']> (threads s))) (Fifo (contents h' q') pub tk) h'.
Proof.
  intros [Hs Hi Hp Ht] Hs' Hh Hpt Hpo Htt Hto. split; simpl; try done.
  - intros t'. rewrite pc_of_insert. destruct (decide (t = t')) as [<-|Hne]; [done|].
    rewrite Hpo by done. apply Hp.
  - intros t' v. rewrite pc_of_insert. destruct (decide (t = t')) as [<-|Hne]; [done|].
    rewrite Hto, Ht by done. fold (pc_of s t').
    assert (forall p, deq_ticket (pc_of s t') = Some p -> h' p = h p) as E.
    { intros p Hd. apply Hh. pose proof (deq_ticket_bound _ _ _ _ (sys_threads _ _ Hs t') Hd).
      pose proof (ok_bounds _ _ _ (sys_queue _ _ Hs)). lia. }
    split; intros (p & Hd & <-); exists p; (split; [done|]); [by apply E|by rewrite E].
Qed.

Lemma label_thread t c c' :
  match label_of t c c' with
  | Tau => True
  | LEnq t' _ | LDeq t' | LRetEnq t' _ | LRetDeq t' _ _ | LRetFind t' _ _ => t' = t
  end.
Proof. by destruct c, c'. Qed.

(** One lemma per kind of label: the step of thread [t] from a state that
    simulates [Fifo (contents h (queue s)) pub tk]. *)
Section step_cases.
Context (s : sys) (h h' : Z -> Z) (pub : gset nat) (tk : gmap nat Z) (t : nat) (q' : lf_mpmc_queue) (c' : pc).
Hypothesis Hsim : simulates s (Fifo (contents h (queue s)) pub tk) h.
Hypothesis Hok : sys_ok h' (Sys q' (<[t := c']> (threads s))).
Hypothesis Hh : forall p, p < head (queue s) -> h' p = h p.
Set Default Proof Using "All".

Definition matched (l : label) : Prop := exists a',
  fifo_next cap (Fifo (contents h (queue s)) pub tk) l = Some a' /\
  simulates (Sys q' (<[t := c']> (threads s))) a' h'.

(** When the counters do not move the contents stay, and only the thread's own
    bookkeeping is left to check. *)
Lemma sim_still (pub' : gset nat) (tk' : gmap nat Z) :
  head q' = head (queue s) -> tail q' = tail (queue s) ->
  (t ∈ pub' <-> is_Some (enq_ticket c')) -> (forall t', t' <> t -> t' ∈ pub' <-> t' ∈ pub) ->
  (forall v, tk' !! t = Some v <-> exists p, deq_ticket c' = Some p /\ h' p = v) ->
  (forall t', t' <> t -> tk' !! t' = tk !! t') ->
  simulates (Sys q' (<[t := c']> (threads s))) (Fifo (contents h (queue s)) pub' tk') h'.
Proof.
  intros Eh Et ????. rewrite <- (contents_ext h h' (queue s) q') by done.
  by apply (sim_others s (Fifo (contents h (queue s)) pub tk) h).
Qed.

Lemma sim_same_tickets :
  head q' = head (queue s) -> tail q' = tail (queue s) ->
  enq_ticket c' = enq_ticket (pc_of s t) -> deq_ticket c' = deq_ticket (pc_of s t) ->
  simulates (Sys q' (<[t := c']> (threads s))) (Fifo (contents h (queue s)) pub tk) h'.
Proof.
  pose proof Hsim as [Hs _ Hp Ht]. simpl in Hp, Ht. intros Eh Et Ee Ed. apply sim_still; try done.
  - by rewrite Hp, Ee.
  - intros v. rewrite Ht, Ed. split; intros (p & E & <-); exists p; (split; [done|]).
    all: pose proof (deq_ticket_bound _ _ _ _ (sys_threads _ _ Hs t) E);
      pose proof (ok_bounds _ _ _ (sys_queue _ _ Hs)); rewrite Hh; lia || done.
Qed.

Lemma sim_enq d : label_ok h (queue s) (pc_of s t) q' c' (LEnq t d) ->
  h' = record_at h (head (queue s)) d -> matched (LEnq t d).
Proof.
  pose proof Hsim as [Hs _ Hp Ht]. simpl in Hp, Ht. intros (Ec & Eh & Et & Ec' & Hlt) Eh'.
  pose proof (ok_bounds _ _ _ (sys_queue _ _ Hs)). unfold matched. simpl.
  rewrite decide_True by (rewrite contents_length; lia). eexists; split; [done|].
  rewrite <- (contents_claim h (queue s) q') by (done || lia). rewrite <- Eh'.
  eapply sim_others; try done; simpl; rewrite ?Ec'; [set_solver|set_solver|].
  intros v. rewrite Ht, Ec. simpl. naive_solver.
Qed.

Lemma sim_deq : label_ok h (queue s) (pc_of s t) q' c' (LDeq t) -> h' = h -> matched (LDeq t).
Proof.
  pose proof Hsim as [Hs _ Hp Ht]. simpl in Hp, Ht. intros (Ec & Et & Eh & Ec' & Hlt) Eh'.
  unfold matched. simpl. rewrite (contents_take h (queue s) q') by done.
  rewrite decide_True.
  2:{ apply eq_None_not_Some. intros [v Hv]. apply Ht in Hv as (p & Hp' & _). by rewrite Ec in Hp'. }
  eexists; split; [done|]. rewrite <- Eh'. eapply sim_others; try done; rewrite ?Ec'; simpl.
  - by rewrite Hp, Ec.
  - intros v. rewrite lookup_insert_eq. naive_solver.
  - intros t' Hne. by rewrite lookup_insert_ne.
Qed.

Lemma sim_ret_enq r : label_ok h (queue s) (pc_of s t) q' c' (LRetEnq t r) -> matched (LRetEnq t r).
Proof.
  pose proof Hsim as [Hs _ Hp Ht]. simpl in Hp, Ht. intros (Eh & Et & Ec' & Ed & Hr).
  pose proof (ok_bounds _ _ _ (sys_queue _ _ Hs)). unfold matched.
  destruct Hr as [[-> Ee]|(-> & Ee & Hfull)]; simpl.
  - rewrite decide_True by by apply Hp. eexists; split; [done|]. apply sim_still; try done; rewrite ?Ec'; simpl.
    + split; [set_solver|by intros []].
    + set_solver.
    + intros v. rewrite Ht, Ed. naive_solver.
  - rewrite decide_True; [eexists; split; [done|]; apply sim_same_tickets; rewrite ?Ec'; simpl; congruence|].
    destruct Hfull as [|(p & Hp' & Hd)]; [left; rewrite contents_length; lia|right].
    destruct (sys_draining _ _ Hs p Hp' Hd) as [t2 E2]. intros E.
    assert (tk !! t2 = Some (h p)) as E3 by (apply Ht; by eauto). by rewrite E in E3.
Qed.

Lemma sim_ret_deq r v : label_ok h (queue s) (pc_of s t) q' c' (LRetDeq t r v) -> matched (LRetDeq t r v).
Proof.
  pose proof Hsim as [Hs _ Hp Ht]. simpl in Hp, Ht. intros (Eh & Et & Ec' & Ee & Hr).
  pose proof (ok_bounds _ _ _ (sys_queue _ _ Hs)). unfold matched.
  destruct Hr as [(-> & p & Ed & Ev)|(-> & Ed & Hemp)]; simpl.
  - rewrite decide_True by (apply Ht; by eauto). eexists; split; [done|]. apply sim_still; try done; rewrite ?Ec'; simpl.
    + rewrite Hp, Ee. split; by intros [].
    + intros v'. rewrite lookup_delete_eq. naive_solver.
    + intros t' Hne. by rewrite lookup_delete_ne.
  - rewrite decide_True; [eexists; split; [done|]; apply sim_same_tickets; rewrite ?Ec'; simpl; congruence|].
    destruct Hemp as [|(p & Hp' & Hcl)].
    + left. apply length_zero_iff_nil. pose proof (contents_length h (queue s)). lia.
    + right. destruct (sys_claimed _ _ Hs p Hp' Hcl) as [t2 E2]. intros E.
      assert (t2 ∈ pub) as E3 by by apply Hp. rewrite E in E3. set_solver.
Qed.

Lemma sim_ret_find ptr r : label_ok h (queue s) (pc_of s t) q' c' (LRetFind t ptr r) -> matched (LRetFind t ptr r).
Proof.
  intros (Eh & Et & Ee & Ed & Ee' & Ed' & Hr). unfold matched.
  exists (Fifo (contents h (queue s)) pub tk). split.
  - destruct Hr as [(-> & p & Hp' & <-)| ->]; simpl; [|done].
    rewrite decide_True; [done|]. by apply contents_elem.
  - apply sim_same_tickets; congruence.
Qed.
End step_cases.

(** Every step of the concurrent queue is a step of the bounded FIFO. *)
Lemma simulation_step s l s' a h :
  simulates s a h -> step cap s l s' -> head (queue s') + cap < 2 ^ 63 ->
  exists a' h', fifo_next cap a l = Some a' /\ simulates s' a' h'.
Proof.
  intros Hsim Hstep Hw. pose proof Hsim as [Hs Hi _ _].
  destruct a as [its pub tk]. simpl in Hi. subst its.
  destruct Hstep as [t c s Hr He|t sp q' c' s Hst].
  { eexists _, h. split; [done|]. apply sim_same_tickets; try done; [by apply sys_ok_call|..];
      by destruct (pc_of s t), c. }
  pose proof (sys_queue _ _ Hs) as Hq. pose proof (sys_threads _ _ Hs t) as Hc.
  pose proof (label_ok_step h sp _ _ _ _ t Hq Hc Hst) as Hl.
  pose proof (step_ok_thread k Hk1 h sp _ _ _ _ Hq Hc Hst Hw) as Hok.
  apply (sys_ok_step h s t) in Hok; [|done].
  pose proof (label_thread t (pc_of s t) c') as Elt.
  pose proof (history_after_same h (pc_of s t) c' t) as Hhist.
  enough (matched s h (history_after h (pc_of s t) c') pub tk t q' c' (label_of t (pc_of s t) c'))
    as (a' & ? & ?) by eauto.
  destruct (label_of t (pc_of s t) c') as [|t' d|t'|t' r|t' r v|t' ptr r]; [|subst t'..].
  2:{ pose proof Hl as (Ec & _ & _ & -> & _). rewrite Ec in *. apply sim_enq; try done; [|by rewrite Ec].
      intros p Hp. simpl. unfold record_at. destruct (decide (p = head (queue s))); [lia|done]. }
  all: rewrite Hhist in * by done.
  - eexists; split; [done|]. destruct Hl as (?&?&?&?). by apply sim_same_tickets.
  - by apply sim_deq.
  - by apply sim_ret_enq.
  - by apply sim_ret_deq.
  - by apply sim_ret_find.
Qed.

Lemma exec_simulates ls s : exec cap ls s ->
  exists a h, fifo_run cap fifo_empty ls = Some a /\ simulates s a h.
Proof.
  induction 1 as [|ls s l s' He (a & h & Hr & Hsim) Hstep Hw].
  - exists fifo_empty, (fun _ => 0). split; [done|].
    assert (forall n q, head (init_cells n q) = head q) as Eh by (intros n q; induction n; done).
    assert (forall n q, tail (init_cells n q) = tail q) as Et by (intros n q; induction n; done).
    split; [apply sys_ok_init|..]; simpl.
    + unfold contents. simpl. rewrite Eh, Et. done.
    + intros t. unfold pc_of; simpl. rewrite lookup_empty. simpl. split; [set_solver|by intros []].
    + intros t v. unfold pc_of; simpl. rewrite !lookup_empty. simpl. naive_solver.
  - destruct (simulation_step s l s' a h) as (a' & h' & Hn & Hs'); [done..|].
    exists a', h'. split; [|done]. rewrite fifo_run_app, Hr. simpl. by rewrite Hn.
Qed.
End refinement.

(** ** What the refinement says of the elements *)

(** Elements enqueued, and elements handed out by dequeues that returned. *)
Definition enqueued (ls : list label) : list Z :=
  omap (fun l => match l with LEnq _ d => Some d | _ => None end) ls.
Definition returned (ls : list label) : list Z :=
  omap (fun l => match l with LRetDeq _ LF_QUEUE_OK v => Some v | _ => None end) ls.
Definition in_flight (a : fifo) : list Z := (map_to_list (taken a)).*2.

Lemma fifo_conserves cap ls a : fifo_run cap fifo_empty ls = Some a ->
  enqueued ls ≡ₚ returned ls ++ in_flight a ++ items a.
Proof.
  revert a. induction ls as [|l ls IH] using rev_ind; intros a.
  { intros [= <-]. unfold in_flight. simpl. by rewrite map_to_list_empty. }
  rewrite fifo_run_app. destruct (fifo_run cap fifo_empty ls) as [a0|]; [|done]. simpl.
  specialize (IH a0 eq_refl). unfold enqueued, returned. rewrite !omap_app.
  fold (enqueued ls) (returned ls). rewrite IH. clear IH. unfold in_flight.
  destruct l as [|t d|t|t r|t r v|t ptr r]; simpl; intros Hn; rewrite ?app_nil_r.
  - by simplify_eq.
  - case_decide; simplify_eq/=. by rewrite <- !app_assoc.
  - destruct (items a0) as [|v rest]; [done|]. case_decide as E; simplify_eq/=.
    rewrite map_to_list_insert by done. cbn. by rewrite Permutation_middle.
  - destruct r; repeat case_decide; by simplify_eq/=.
  - destruct r; repeat case_decide; simplify_eq/=; rewrite ?app_nil_r; try done.
    assert (map_to_list (taken a0) ≡ₚ (t, v) :: map_to_list (delete t (taken a0))) as ->.
    { rewrite <- map_to_list_insert by apply lookup_delete_eq. by rewrite insert_delete_id. }
    cbn. by rewrite <- app_assoc.
  - destruct r; repeat case_decide; by simplify_eq/=.
Qed.

(** ** Theorems *)

(** Executions given by a schedule: [(t, Some c)] starts an operation, [(t, None)]
    runs one step of thread [t]. *)
#[export] Instance ready_dec c : Decision (ready c).
Proof. destruct c; apply _. Defined.
#[export] Instance entry_dec c : Decision (entry c).
Proof. destruct c; apply _. Defined.

Definition run_entry (cap : Z) (e : nat * option pc) (s : sys) : option (label * sys) :=
  match e with
  | (t, Some c) =>
      if decide (ready (pc_of s t) /\ entry c /\ head (queue s) + cap < 2 ^ 63)
      then Some (Tau, Sys (queue s) (<[t := c]> (threads s))) else None
  | (t, None) =>
      '(q', c') ← step_thread cap false (queue s) (pc_of s t);
      if decide (head q' + cap < 2 ^ 63)
      then Some (label_of t (pc_of s t) c', Sys q' (<[t := c']> (threads s))) else None
  end.
Fixpoint run_schedule (cap : Z) (sched : list (nat * option pc)) (s : sys) : option (list label * sys) :=
  match sched with
  | [] => Some ([], s)
  | e :: sched =>
      '(l, s) ← run_entry cap e s;
      '(ls, s) ← run_schedule cap sched s; Some (l :: ls, s)
  end.

Lemma run_entry_step cap e s l s' : run_entry cap e s = Some (l, s') ->
  step cap s l s' /\ head (queue s') + cap < 2 ^ 63.
Proof.
  destruct e as [t [c|]]; simpl.
  - case_decide as Hd; [|done]. intros [= <- <-]. destruct Hd as (? & ? & ?). by split; [constructor|].
  - destruct (step_thread cap false (queue s) (pc_of s t)) as [[q' c']|] eqn:E; simpl; [|done].
    case_decide; [|done]. intros [= <- <-]. split; [by econstructor|done].
Qed.

Lemma run_schedule_exec cap sched s ls0 ls s' :
  exec cap ls0 s -> run_schedule cap sched s = Some (ls, s') -> exec cap (ls0 ++ ls) s'.
Proof.
  revert s ls0 ls. induction sched as [|e sched IH]; intros s ls0 ls He; simpl.
  - intros [= <- <-]. by rewrite app_nil_r.
  - destruct (run_entry cap e s) as [[l s1]|] eqn:E1; simpl; [|done].
    destruct (run_schedule cap sched s1) as [[ls1 s2]|] eqn:E2; simpl; [|done].
    intros [= <- <-]. apply run_entry_step in E1 as [Hst Hw].
    rewrite cons_middle, app_assoc. apply (IH s1); [by eapply exec_step|done].
Qed.

(** Thread 1 finds the queue empty although thread 0 has claimed a ticket, then
    dequeues once the element is published; capacity 2. *)
Definition demo_schedule : list (nat * option pc) :=
  [(0%nat, Some (EnqStart 5)); (1%nat, Some DeqStart);
   (0%nat, None); (1%nat, None); (0%nat, None); (0%nat, None); (1%nat, None); (0%nat, None); (0%nat, None);
   (1%nat, Some DeqStart);
   (1%nat, None); (1%nat, None); (1%nat, None); (1%nat, None); (1%nat, None)].
Definition demo_run : list label * sys :=
  default ([], init_sys 2) (run_schedule 2 demo_schedule (init_sys 2)).
Lemma demo_exec : exec (2 ^ 1) demo_run.1 demo_run.2.
Proof.
  assert (run_schedule 2 demo_schedule (init_sys 2) = Some (demo_run.1, demo_run.2)) as E
    by (vm_compute; reflexivity).
  exact (run_schedule_exec 2 demo_schedule (init_sys 2) [] demo_run.1 demo_run.2 (exec_init 2) E).
Qed.

(** (C20) Every interleaving of enqueues, dequeues and searches by any number of threads
    is an execution of the bounded FIFO: elements leave in the order they were
    claimed, FULL is answered only when the queue is full or a dequeue is in
    flight, EMPTY only when it is empty or an enqueue is in flight, a search that
    succeeds saw its element inside; the FIFO holds [head - tail <= capacity]
    elements. *)
Theorem mpmc_refines_fifo k ls s : 1 <= k <= 61 -> exec (2 ^ k) ls s ->
  exists a, fifo_run (2 ^ k) fifo_empty ls = Some a /\
    Z.of_nat (length (items a)) = head (queue s) - tail (queue s) /\
    head (queue s) - tail (queue s) <= 2 ^ k.
Proof.
  intros Hk He. destruct (exec_simulates k Hk ls s He) as (a & h & Hr & Hs).
  exists a. split; [done|]. destruct (ok_bounds _ _ _ (sys_queue _ _ _ (sim_sys _ _ _ _ Hs))) as [? ?].
  rewrite (sim_items _ _ _ _ Hs), (contents_length k Hk); lia.
Qed.
Lemma mpmc_refines_fifo_witness :
  exists a, fifo_run 2 fifo_empty demo_run.1 = Some a /\ Z.of_nat (length (items a)) = 0.
Proof.
  destruct (mpmc_refines_fifo 1 demo_run.1 demo_run.2) as (a & Hr & Hl & _); [done|exact demo_exec|].
  exists a. split; [exact Hr|]. rewrite Hl. vm_compute. reflexivity.
Defined.

(** (C21) No element is lost or handed out twice: at any point of any execution the
    elements enqueued are, as a multiset, those returned by dequeues, those held by
    dequeues that have not returned yet, and those still queued. *)
Theorem mpmc_conserves_elements k ls s : 1 <= k <= 61 -> exec (2 ^ k) ls s ->
  exists a, fifo_run (2 ^ k) fifo_empty ls = Some a /\
    enqueued ls ≡ₚ returned ls ++ in_flight a ++ items a.
Proof.
  intros Hk He. destruct (exec_simulates k Hk ls s He) as (a & h & Hr & _).
  exists a. split; [done|]. by apply (fifo_conserves (2 ^ k)).
Qed.
Lemma mpmc_conserves_elements_witness : exists a, enqueued demo_run.1 ≡ₚ returned demo_run.1 ++ in_flight a ++ items a /\
  returned demo_run.1 = [5].
Proof.
  destruct (mpmc_conserves_elements 1 demo_run.1 demo_run.2) as (a & _ & Hp); [done|exact demo_exec|].
  exists a. split; [exact Hp|vm_compute; reflexivity].
Defined.
