(* ===== verification/MpmcAlone.v ===== *)
(** The queue operations run without interference, against a plain list: they
    terminate within a known number of atomic steps and their results are exact. *)
From S2P Require Import Prelude MpmcQueue MpmcInv MpmcSpec.

Section alone.
Context (k : Z).
Hypothesis Hk : 1 <= k <= 61.
Abbreviation cap := (2 ^ k).
Set Default Proof Using "Hk".

(** No cell is in transit, apart from the ticket of [c]. *)
Definition settled_but (c : pc) (q : lf_mpmc_queue) : Prop :=
  (forall p, tail q <= p < head q -> seqof q p = p -> enq_ticket c = Some p) /\
  (forall p, head q - cap <= p < tail q -> seqof q p = p + 1 -> deq_ticket c = Some p).

(** [q], with no operation in progress, holds the elements [l], oldest first. *)
Definition represents (q : lf_mpmc_queue) (l : list Z) : Prop :=
  exists h, queue_ok k h q /\ settled_but Idle q /\ l = contents h q.

(** What a thread that runs alone carries from step to step. *)
Definition solo (h : Z -> Z) (q : lf_mpmc_queue) (c : pc) : Prop :=
  queue_ok k h q /\ thread_ok k h q c /\ settled_but c q.

Lemma solo_step h q c h' q' c' : solo h q c -> step_ok k h q c h' q' c' -> solo h' q' c'.
Proof.
  intros (Hq & Hc & S1 & S2) [Sq Ss _ _ _ Sc Sd]. split; [done|split; [done|split]].
  - intros p Hp Hs. destruct (Sc p Hp Hs) as [|(Hp' & Hs' & Hne)]; [done|].
    destruct Hne. by apply S1.
  - intros p Hp Hs. destruct (Sd p Hp Hs) as [|(Hp' & Hs' & Hne)]; [done|].
    destruct Hne. by apply S2.
Qed.

Lemma solo_done h q c : solo h q c -> enq_ticket c = None -> deq_ticket c = None ->
  represents q (contents h q).
Proof.
  intros (Hq & _ & S1 & S2) He Hd. exists h. split; [done|split; [|done]].
  split; simpl; intros p Hp Hs; [by rewrite <- He; apply S1|by rewrite <- Hd; apply S2].
Qed.

Lemma represents_solo q l c : represents q l -> (forall h, thread_ok k h q c) ->
  enq_ticket c = None -> deq_ticket c = None ->
  exists h, solo h q c /\ l = contents h q.
Proof.
  intros (h & Hq & [S1 S2] & ->) Hc He Hd. exists h. split; [|done].
  split; [done|split; [done|]]. split; intros p Hp Hs; [by rewrite He; apply S1|by rewrite Hd; apply S2].
Qed.

Lemma run_alone_step n q c q' c' : step_thread cap false q c = Some (q', c') ->
  run_alone cap (S n) q c = run_alone cap n q' c'.
Proof. intros E. simpl. by rewrite E. Qed.
Lemma run_alone_done n q c : step_thread cap false q c = None -> run_alone cap n q c = (q, c).
Proof. intros E. destruct n; simpl; [done|]. by rewrite E. Qed.

(** Sequence numbers of a settled queue. *)
Lemma settled_seq h q c : solo h q c -> enq_ticket c = None -> deq_ticket c = None ->
  (forall p, tail q <= p < head q -> seqof q p = p + 1 /\ dataof q p = h p) /\
  seqof q (head q) = (if head q =? tail q + cap then head q - cap + 1 else head q).
Proof.
  intros ([E Hb Hw Hcell] & _ & S1 & S2) He Hd. pose proof (cap_ge_2 k (Hk1 k Hk)).
  rewrite He in S1. rewrite Hd in S2. split.
  - intros p Hp. specialize (Hcell p ltac:(lia)). unfold cell_ok in Hcell.
    destruct (decide (tail q <= p)); [|lia]. destruct Hcell as [Hs|]; [|done].
    by specialize (S1 p Hp Hs).
  - assert (seqof q (head q) = seqof q (head q - cap)) as ->.
    { unfold seqof. rewrite !(cell_mod k (Hk1 k Hk)) by done.
      replace (head q - cap) with (head q + (-1) * cap) by lia. by rewrite Z_mod_plus_full. }
    specialize (Hcell (head q - cap) ltac:(lia)). specialize (S1 (head q - cap)).
    specialize (S2 (head q - cap)). unfold cell_ok in Hcell.
    destruct (Z.eqb_spec (head q) (tail q + cap)), (decide (tail q <= head q - cap)); try lia.
    + destruct Hcell as [Hs|[Hs _]]; [by specialize (S1 ltac:(lia) Hs)|done].
    + destruct Hcell as [(_ & Hs & _)|Hs]; [by specialize (S2 ltac:(lia) Hs)|lia].
Qed.

(** A run of [solo] steps below the width bound stays [solo]. *)
Lemma solo_run h q c q' c' : solo h q c -> step_thread cap false q c = Some (q', c') ->
  head q' + cap < 2 ^ 63 -> solo (history_after h c c') q' c'.
Proof.
  intros Hs Hst Hw. eapply solo_step; [done|].
  eapply (step_ok_thread k (Hk1 k Hk)); [apply Hs|apply Hs|done|done].
Qed.

(** ** Enqueue *)

(** After the compare-exchange: write, publish, return. *)
Lemma enqueue_commit h q d n : solo h q (EnqCas d (head q)) -> head q + 1 + cap < 2 ^ 63 ->
  exists q', run_alone cap (S (S (S n))) q (EnqCas d (head q)) = (q', EnqDone LF_QUEUE_OK) /\
    represents q' (contents h q ++ [d]).
Proof.
  intros H2 Hw. pose proof H2 as ([E Hb Hwd _] & _). pose proof (cap_ge_2 k (Hk1 k Hk)).
  set (q3 := set_head (head q + 1) q).
  assert (step_thread cap false q (EnqCas d (head q)) = Some (q3, EnqData d (head q))) as E3.
  { simpl. rewrite Z.eqb_refl. simpl. by rewrite u64_small by lia. }
  pose proof (solo_run _ _ _ _ _ H2 E3 ltac:(simpl; lia)) as H3. simpl in H3.
  set (q4 := set_data (cell_of q3 (head q)) d q3).
  assert (step_thread cap false q3 (EnqData d (head q)) = Some (q4, EnqPub d (head q))) as E4 by done.
  pose proof (solo_run _ _ _ _ _ H3 E4 ltac:(simpl; lia)) as H4. simpl in H4.
  set (q5 := set_seq (cell_of q4 (head q)) (u64 (head q + 1)) q4).
  assert (step_thread cap false q4 (EnqPub d (head q)) = Some (q5, EnqDone LF_QUEUE_OK)) as E5 by done.
  pose proof (solo_run _ _ _ _ _ H4 E5 ltac:(simpl; lia)) as H5. simpl in H5.
  exists q5. erewrite run_alone_step, run_alone_step, run_alone_step, run_alone_done by done.
  split; [done|]. rewrite <- (contents_claim k Hk h q q5) by (done || lia).
  by eapply solo_done.
Qed.

Lemma enqueue_alone q l d n : represents q l -> head q + 1 + cap < 2 ^ 63 -> (5 <= n)%nat ->
  exists q', lf_mpmc_queue_try_enqueue cap n q d =
      (q', EnqDone (if Z.of_nat (length l) =? cap then LF_QUEUE_FULL else LF_QUEUE_OK)) /\
    represents q' (if Z.of_nat (length l) =? cap then l else l ++ [d]).
Proof.
  intros Hr Hw Hn. do 5 (destruct n as [|n]; [lia|]). clear Hn.
  destruct (represents_solo q l (EnqStart d) Hr) as (h & H0 & ->); [done..|].
  pose proof H0 as ([E Hb Hwd _] & _). pose proof (cap_ge_2 k (Hk1 k Hk)).
  destruct (settled_seq h q _ H0) as [_ Hseq]; [done..|].
  rewrite (contents_length k Hk) by lia. unfold lf_mpmc_queue_try_enqueue.
  assert (step_thread cap false q (EnqStart d) = Some (q, EnqSeq d (head q))) as E1 by done.
  pose proof (solo_run _ _ _ _ _ H0 E1 ltac:(lia)) as H1. simpl in H1.
  erewrite run_alone_step by exact E1.
  set (full := head q - tail q =? cap).
  assert (step_thread cap false q (EnqSeq d (head q)) =
    Some (q, if full then EnqDone LF_QUEUE_FULL else EnqCas d (head q))) as E2.
  { simpl. fold (seqof q (head q)). rewrite Hseq. unfold full.
    destruct (Z.eqb_spec (head q) (tail q + cap)), (Z.eqb_spec (head q - tail q) cap); try lia.
    - rewrite i64_small by lia.
      destruct (Z.eqb_spec (head q - cap + 1 - head q) 0); [lia|].
      by destruct (Z.ltb_spec (head q - cap + 1 - head q) 0); [|lia].
    - by rewrite Z.sub_diag. }
  erewrite run_alone_step by exact E2.
  pose proof (solo_run _ _ _ _ _ H1 E2 ltac:(lia)) as H2.
  destruct full.
  - rewrite run_alone_done by done. exists q. split; [done|]. by eapply solo_done.
  - by apply enqueue_commit.
Qed.

(** ** Dequeue *)
Lemma dequeue_commit h q n : solo h q (DeqCas (tail q)) -> tail q < head q ->
  exists q', run_alone cap (S (S (S n))) q (DeqCas (tail q)) = (q', DeqDone LF_QUEUE_OK (h (tail q))) /\
    represents q' (contents h q') /\ contents h q = h (tail q) :: contents h q'.
Proof.
  intros H2 Hlt. pose proof H2 as ([E Hb Hwd _] & _). pose proof (cap_ge_2 k (Hk1 k Hk)).
  set (q3 := set_tail (tail q + 1) q).
  assert (step_thread cap false q (DeqCas (tail q)) = Some (q3, DeqData (tail q))) as E3.
  { simpl. rewrite Z.eqb_refl. simpl. by rewrite u64_small by lia. }
  pose proof (solo_run _ _ _ _ _ H2 E3 ltac:(simpl; lia)) as H3. simpl in H3.
  set (v := dataof q3 (tail q)).
  assert (step_thread cap false q3 (DeqData (tail q)) = Some (q3, DeqPub (tail q) v)) as E4 by done.
  pose proof (solo_run _ _ _ _ _ H3 E4 ltac:(simpl; lia)) as H4. simpl in H4.
  set (q5 := set_seq (cell_of q3 (tail q)) (u64 (tail q + cap)) q3).
  assert (step_thread cap false q3 (DeqPub (tail q) v) = Some (q5, DeqDone LF_QUEUE_OK v)) as E5 by done.
  pose proof (solo_run _ _ _ _ _ H4 E5 ltac:(simpl; lia)) as H5. simpl in H5.
  assert (v = h (tail q)) as Ev by apply H4. rewrite <- Ev.
  exists q5. erewrite run_alone_step, run_alone_step, run_alone_step, run_alone_done by done.
  split; [done|]. split; [by eapply solo_done|].
  rewrite Ev. by apply (contents_take k Hk).
Qed.

Lemma dequeue_alone q l n : represents q l -> (5 <= n)%nat ->
  exists q', lf_mpmc_queue_try_dequeue cap n q =
      (q', match l with [] => DeqDone LF_QUEUE_EMPTY NULL | v :: _ => DeqDone LF_QUEUE_OK v end) /\
    represents q' (List.tl l).
Proof.
  intros Hr Hn. do 5 (destruct n as [|n]; [lia|]). clear Hn.
  destruct (represents_solo q l DeqStart Hr) as (h & H0 & ->); [done..|].
  pose proof H0 as ([E Hb Hwd _] & _). pose proof (cap_ge_2 k (Hk1 k Hk)).
  destruct (settled_seq h q _ H0) as [Hin Hseq]; [done..|].
  unfold lf_mpmc_queue_try_dequeue.
  assert (step_thread cap false q DeqStart = Some (q, DeqSeq (tail q))) as E1 by done.
  pose proof (solo_run _ _ _ _ _ H0 E1 ltac:(lia)) as H1. simpl in H1.
  erewrite run_alone_step by exact E1.
  set (empty := tail q =? head q).
  assert (step_thread cap false q (DeqSeq (tail q)) =
    Some (q, if empty then DeqDone LF_QUEUE_EMPTY NULL else DeqCas (tail q))) as E2.
  { simpl. fold (seqof q (tail q)). rewrite u64_small by lia. unfold empty.
    destruct (Z.eqb_spec (tail q) (head q)) as [Et|Hne].
    - rewrite Et, Hseq. destruct (Z.eqb_spec (head q) (tail q + cap)); [lia|].
      rewrite i64_small by lia. destruct (Z.eqb_spec (head q - (head q + 1)) 0); [lia|].
      by destruct (Z.ltb_spec (head q - (head q + 1)) 0); [|lia].
    - destruct (Hin (tail q)) as [-> _]; [lia|]. by rewrite Z.sub_diag. }
  erewrite run_alone_step by exact E2.
  pose proof (solo_run _ _ _ _ _ H1 E2 ltac:(lia)) as H2. unfold empty in *.
  destruct (Z.eqb_spec (tail q) (head q)) as [Et|Hne].
  - rewrite run_alone_done by done. exists q.
    assert (contents h q = []) as -> by (unfold contents; by rewrite Et, Z.sub_diag).
    split; [done|]. replace (List.tl []) with (contents h q); [by eapply solo_done|].
    unfold contents; by rewrite Et, Z.sub_diag.
  - destruct (dequeue_commit h q n H2) as (q' & Er & Hq' & ->); [lia|].
    exists q'. done.
Qed.

(** ** Search *)
(** The contents of a settled queue are those of its cells. *)
Lemma represents_inj q l l' : represents q l -> represents q l' -> l = l'.
Proof.
  intros H H'. destruct (represents_solo q l Idle H) as (h & H0 & ->); [done..|].
  destruct (represents_solo q l' Idle H') as (h' & H0' & ->); [done..|].
  destruct (settled_seq h q Idle H0) as [Hd _]; [done..|]. destruct (settled_seq h' q Idle H0') as [Hd' _]; [done..|].
  unfold contents. apply list_fmap_ext. intros i p Hp. apply lookup_seqZ in Hp as [-> Hlt].
  destruct (Hd (tail q + Z.of_nat i)) as [_ <-]; [lia|]. destruct (Hd' (tail q + Z.of_nat i)) as [_ <-]; [lia|]. done.
Qed.

Lemma find_loop h q ptr m : forall pos n, solo h q Idle ->
  tail q <= pos -> pos + Z.of_nat m = head q -> (4 * m <= n)%nat ->
  run_alone cap n q (find_next ptr pos m) =
    (q, FndDone (if decide (ptr ∈ h <$> seqZ pos (Z.of_nat m)) then LF_QUEUE_OK else LF_QUEUE_NOT_FOUND)).
Proof.
  induction m as [|m IH]; intros pos n Hs Ht Hm Hn.
  { by rewrite run_alone_done. }
  pose proof Hs as ([E Hb Hwd _] & _).
  destruct (settled_seq h q _ Hs) as [Hin _]; [done..|].
  destruct (Hin pos) as [Hsq Hdt]; [lia|]. clear Hin.
  assert (u64 (pos + 1) = pos + 1) as Eu by (apply u64_small; pose proof (cap_ge_2 k (Hk1 k Hk)); lia).
  do 4 (destruct n as [|n]; [lia|]).
  rewrite seqZ_cons by lia. rewrite fmap_cons.
  replace (Z.pred (Z.of_nat (S m))) with (Z.of_nat m) by lia. rewrite <- Z.add_1_r.
  change (find_next ptr pos (S m)) with (FndSeq ptr pos m).
  erewrite run_alone_step.
  2:{ simpl. fold (seqof q pos). rewrite Eu, Hsq, Z.eqb_refl. reflexivity. }
  cbn match. erewrite run_alone_step by reflexivity.
  fold (dataof q pos). rewrite Hdt.
  erewrite run_alone_step.
  2:{ simpl. fold (seqof q pos). rewrite Eu, Hsq, Z.eqb_refl. reflexivity. }
  cbn [negb orb]. destruct (Z.eqb_spec (h pos) ptr) as [Eh|Hne]; cbn [negb].
  - erewrite run_alone_step.
    2:{ simpl. destruct (Z.ltb_spec pos (tail q)); [lia|]. reflexivity. }
    rewrite run_alone_done by done. rewrite decide_True; [done|]. rewrite Eh. apply list_elem_of_here.
  - rewrite IH; [|done|lia|lia|lia]. do 2 f_equal.
    apply decide_ext. rewrite elem_of_cons. split; [by right|]. intros [->|]; done.
Qed.

Lemma find_alone q l ptr n : represents q l -> ptr <> NULL -> (2 + 4 * length l <= n)%nat ->
  lf_mpmc_queue_try_find_ptr cap n q ptr =
    (q, FndDone (if decide (ptr ∈ l) then LF_QUEUE_OK else LF_QUEUE_NOT_FOUND)).
Proof.
  intros Hr Hp Hn. destruct (represents_solo q l Idle Hr) as (h & H0 & ->); [done..|].
  pose proof H0 as ([E Hb Hwd _] & _).
  pose proof (contents_length k Hk h q ltac:(lia)) as Hlen.
  do 2 (destruct n as [|n]; [lia|]). unfold lf_mpmc_queue_try_find_ptr.
  erewrite run_alone_step.
  2:{ simpl. rewrite (proj2 (Z.eqb_neq ptr 0)) by done. reflexivity. }
  erewrite run_alone_step by reflexivity. cbv zeta.
  destruct (Z.leb_spec (head q) (tail q)).
  - rewrite run_alone_done by done. rewrite decide_False; [done|].
    destruct (contents h q); simpl in *; [apply not_elem_of_nil|lia].
  - destruct (Z.ltb_spec cap (head q - tail q)); [lia|].
    rewrite (find_loop h q ptr (Z.to_nat (head q - tail q)) (tail q)); [|done|lia|lia|lia].
    unfold contents. by rewrite Z2Nat.id by lia.
Qed.
End alone.
Unset Default Proof Using.

(** ** Theorems *)

Lemma represents_init k : 1 <= k <= 61 -> represents k (queue (init_sys (2 ^ k))) [].
Proof.
  intros Hk. pose proof (sys_ok_init k Hk) as Hs. exists (fun _ => 0).
  assert (forall t, pc_of (init_sys (2 ^ k)) t = Idle) as Ep by (intros t; unfold pc_of; simpl; by rewrite lookup_empty).
  split; [apply Hs|split].
  - split; intros p Hp Hq; exfalso.
    + destruct (sys_claimed _ _ _ Hs p Hp Hq) as [t Et]. by rewrite Ep in Et.
    + destruct (sys_draining _ _ _ Hs p Hp Hq) as [t Et]. by rewrite Ep in Et.
  - assert (forall n q, head (init_cells n q) = head q) as Eh by (intros n q; induction n; done).
    assert (forall n q, tail (init_cells n q) = tail q) as Et by (intros n q; induction n; done).
    unfold contents. simpl. by rewrite Eh, Et.
Qed.

(** A queue of capacity 2 holding one element. *)
Definition one_element : lf_mpmc_queue :=
  (lf_mpmc_queue_try_enqueue (2 ^ 1) 5 (queue (init_sys (2 ^ 1))) 77).1.
Lemma one_element_ok : represents 1 one_element [77].
Proof.
  destruct (enqueue_alone 1 ltac:(lia) (queue (init_sys (2 ^ 1))) [] 77 5) as (q' & E & Hr);
    [by apply represents_init|done|lia|].
  unfold one_element. by rewrite E.
Qed.

(** Without interference [try_enqueue] finishes within 5 atomic steps: it answers
    FULL and leaves the queue when it holds [capacity] elements, otherwise OK with
    the element added at the end. *)
Theorem try_enqueue_alone k q l d n : 1 <= k <= 61 -> represents k q l ->
  head q + 1 + 2 ^ k < 2 ^ 63 -> (5 <= n)%nat ->
  exists q', lf_mpmc_queue_try_enqueue (2 ^ k) n q d =
      (q', EnqDone (if Z.of_nat (length l) =? 2 ^ k then LF_QUEUE_FULL else LF_QUEUE_OK)) /\
    represents k q' (if Z.of_nat (length l) =? 2 ^ k then l else l ++ [d]).
Proof. intros Hk. by apply enqueue_alone. Qed.
Lemma try_enqueue_alone_witness :
  exists q', lf_mpmc_queue_try_enqueue 2 5 one_element 88 = (q', EnqDone LF_QUEUE_OK) /\
    represents 1 q' [77; 88].
Proof.
  destruct (try_enqueue_alone 1 one_element [77] 88 5) as (q' & E & Hr);
    [lia|apply one_element_ok|vm_compute; reflexivity|lia|].
  exists q'. split; [exact E|exact Hr].
Defined.

(** Without interference [try_dequeue] finishes within 5 atomic steps: EMPTY on an
    empty queue, otherwise OK with the oldest element, which is removed. *)
Theorem try_dequeue_alone k q l n : 1 <= k <= 61 -> represents k q l -> (5 <= n)%nat ->
  exists q', lf_mpmc_queue_try_dequeue (2 ^ k) n q =
      (q', match l with [] => DeqDone LF_QUEUE_EMPTY NULL | v :: _ => DeqDone LF_QUEUE_OK v end) /\
    represents k q' (List.tl l).
Proof. intros Hk. by apply dequeue_alone. Qed.
Lemma try_dequeue_alone_witness :
  exists q', lf_mpmc_queue_try_dequeue 2 5 one_element = (q', DeqDone LF_QUEUE_OK 77) /\ represents 1 q' [].
Proof.
  destruct (try_dequeue_alone 1 one_element [77] 5) as (q' & E & Hr); [lia|apply one_element_ok|lia|].
  exists q'. split; [exact E|exact Hr].
Defined.

(** Without interference [try_find_ptr] decides whether a non-null pointer is queued,
    in at most four atomic steps per element, and changes nothing. *)
Theorem try_find_ptr_alone k q l ptr n : 1 <= k <= 61 -> represents k q l -> ptr <> NULL ->
  (2 + 4 * length l <= n)%nat ->
  lf_mpmc_queue_try_find_ptr (2 ^ k) n q ptr =
    (q, FndDone (if decide (ptr ∈ l) then LF_QUEUE_OK else LF_QUEUE_NOT_FOUND)).
Proof. intros Hk. by apply find_alone. Qed.
Lemma try_find_ptr_alone_witness :
  lf_mpmc_queue_try_find_ptr 2 6 one_element 77 = (one_element, FndDone LF_QUEUE_OK).
Proof.
  pose proof (try_find_ptr_alone 1 one_element [77] 77 6 ltac:(lia) one_element_ok
    ltac:(done) ltac:(simpl; lia)) as H.
  rewrite decide_True in H by apply list_elem_of_here. exact H.
Defined.

(** The compile-time check accepts capacity 1 (a power of two), but then the
    sequence number of a published cell equals that of a released one: a second
    enqueue succeeds on the full queue and overwrites the first element. *)
Theorem capacity_one_overwrites :
  let q0 := queue (init_sys 1) in
  let '(q1, r1) := lf_mpmc_queue_try_enqueue 1 5 q0 77 in
  let '(q2, r2) := lf_mpmc_queue_try_enqueue 1 5 q1 88 in
  let '(q3, r3) := lf_mpmc_queue_try_dequeue 1 20 q2 in
  r1 = EnqDone LF_QUEUE_OK /\ r2 = EnqDone LF_QUEUE_OK /\
  lf_mpmc_queue_try_find_ptr 1 20 q2 77 = (q2, FndDone LF_QUEUE_NOT_FOUND) /\
  r3 <> DeqDone LF_QUEUE_OK 77.
Proof. vm_compute. repeat split; discriminate. Qed.
