(* ===== verification/ListSpin.v ===== *)
(** The intrusive singly linked lists of processes, requests and trash nodes
    ([libsrpc_list_spin.c]): writers run under the list's spin lock, readers
    traverse without it. *)
From S2P Require Import Prelude Machine.

(** ** Data *)

(** [libsrpc_list_node_t], [libsrpc_list_head_t] (its lock apart) and the memory
    that holds them, by address. *)
Record list_node := Node { next : Z; node_head : Z }.
Record list_head := LHead { first : Z; write_ops : Z }.
Record list_store := LStore { nodes : gmap Z list_node; heads : gmap Z list_head }.

Definition LIST_OK := 0.
Definition LIST_EINVAL := -1.
Definition LIST_ENOTFOUND := -2.
Definition LIST_EALREADY := -3.
Definition LIST_ELOCK := -4.

Abbreviation LM := (M list_store).

(** Accesses fault at an address that holds no such object. *)
Definition get_node (n : Z) : LM list_node := fun s =>
  match nodes s !! n with Some x => Ret x s | None => Fault end.
Definition put_node (n : Z) (x : list_node) : LM unit :=
  modify (fun s => LStore (<[n := x]> (nodes s)) (heads s)).
Definition get_head (h : Z) : LM list_head := fun s =>
  match heads s !! h with Some x => Ret x s | None => Fault end.
Definition put_head (h : Z) (x : list_head) : LM unit :=
  modify (fun s => LStore (nodes s) (<[h := x]> (heads s))).

Definition set_next (n v : Z) : LM unit := x ← get_node n; put_node n (Node v (node_head x)).
Definition set_node_head (n v : Z) : LM unit := x ← get_node n; put_node n (Node (next x) v).
Definition set_first (h v : Z) : LM unit := x ← get_head h; put_head h (LHead v (write_ops x)).
Definition count_write (h : Z) : LM unit :=
  x ← get_head h; put_head h (LHead (first x) (u64 (write_ops x + 1))).

(** ** Operations

    The critical sections are atomic: the spin lock excludes other writers.
    [spin_rc] is what [pthread_spin_init] or [pthread_spin_destroy] answers. *)

Definition libsrpc_list_head_init (spin_rc head : Z) : LM Z :=
  if head =? NULL then mret LIST_EINVAL
  else if negb (spin_rc =? 0) then mret LIST_ELOCK
  else put_head head (LHead NULL 0) ;; mret LIST_OK.

Definition libsrpc_list_head_destroy (spin_rc head : Z) : LM Z :=
  if head =? NULL then mret LIST_EINVAL
  else if negb (spin_rc =? 0) then mret LIST_ELOCK
  else mret LIST_OK.

Definition libsrpc_list_node_init (node : Z) : LM unit :=
  if node =? NULL then mret tt else put_node node (Node NULL NULL).

Definition libsrpc_list_push_front (head node : Z) : LM Z :=
  if (head =? NULL) || (node =? NULL) then mret LIST_EINVAL
  else
    x ← get_node node;
    if negb (node_head x =? NULL) then mret LIST_EALREADY
    else
      hd ← get_head head;
      set_next node (first hd) ;;
      set_node_head node head ;;
      set_first head node ;;
      count_write head ;;
      mret LIST_OK.

(** The search of [libsrpc_list_remove]: whether [node] was met, and the node
    before it. *)
Fixpoint find_prev (fuel : nat) (node cur prev : Z) : LM (bool * Z) :=
  if cur =? NULL then mret (false, prev)
  else if cur =? node then mret (true, prev)
  else
    match fuel with
    | O => hang
    | S fuel => x ← get_node cur; find_prev fuel node (next x) cur
    end.

(** The critical section of [libsrpc_list_remove], for the head read before the
    lock was taken. *)
Definition remove_locked (fuel : nat) (head node : Z) : LM Z :=
  hd ← get_head head;
  '(found, prev) ← find_prev fuel node (first hd) NULL;
  if negb found then mret LIST_ENOTFOUND
  else
    x ← get_node node;
    (if prev =? NULL then set_first head (next x) else set_next prev (next x)) ;;
    count_write head ;;
    set_node_head node NULL ;;
    set_next node NULL ;;
    mret LIST_OK.

Definition libsrpc_list_remove (fuel : nat) (node : Z) : LM Z :=
  if node =? NULL then mret LIST_EINVAL
  else
    x ← get_node node;
    if node_head x =? NULL then mret LIST_ENOTFOUND
    else remove_locked fuel (node_head x) node.

(** [LIBSRPC_LIST_FOREACH]: the entries visited from [cur] on. *)
Fixpoint foreach_from (fuel : nat) (cur : Z) : LM (list Z) :=
  if cur =? NULL then mret []
  else
    match fuel with
    | O => hang
    | S fuel => x ← get_node cur; l ← foreach_from fuel (next x); mret (cur :: l)
    end.
Definition list_foreach (fuel : nat) (head : Z) : LM (list Z) :=
  hd ← get_head head; foreach_from fuel (first hd).

(** ** Specification: each head stands for a list of nodes *)

Fixpoint chain (ns : gmap Z list_node) (h cur : Z) (l : list Z) : Prop :=
  match l with
  | [] => cur = NULL
  | n :: l => cur = n /\ n <> NULL /\ exists nx, ns !! n = Some (Node nx h) /\ chain ns h nx l
  end.

Record linked (s : list_store) (h : Z) (l : list Z) : Prop := Linked {
  lk_head : exists w, heads s !! h = Some (LHead (List.hd NULL l) w);
  lk_chain : chain (nodes s) h (List.hd NULL l) l;
  lk_nodup : NoDup l;
  lk_member : forall n x, nodes s !! n = Some x -> node_head x = h -> n ∈ l }.

(** All lists of a memory at once: nodes belong to one list at most. *)
Definition lists_ok (s : list_store) (ls : gmap Z (list Z)) : Prop :=
  forall h l, ls !! h = Some l -> h <> NULL /\ linked s h l.

Lemma chain_lookup ns h cur l n : chain ns h cur l -> n ∈ l ->
  exists nx, ns !! n = Some (Node nx h).
Proof.
  revert cur; induction l as [|m l IH]; intros cur Hc Hn; [by apply not_elem_of_nil in Hn|].
  destruct Hc as (_ & _ & nx & Hm & Hc). apply elem_of_cons in Hn as [->|]; [by eauto|by eapply IH].
Qed.

Lemma chain_insert ns h cur l n x : n ∉ l -> chain ns h cur l -> chain (<[n := x]> ns) h cur l.
Proof.
  revert cur; induction l as [|m l IH]; intros cur Hn Hc; simpl in *; [done|].
  apply not_elem_of_cons in Hn as [Hne Hn]. destruct Hc as (-> & Hm0 & nx & Hm & Hc).
  split_and!; try done. exists nx. rewrite lookup_insert_ne by congruence. auto.
Qed.

Lemma linked_other s h l h' x n y w :
  linked s h l -> h <> h' -> node_head y <> h -> nodes s !! n = Some x -> node_head x <> h ->
  linked (LStore (<[n := y]> (nodes s)) (<[h' := w]> (heads s))) h l.
Proof.
  intros [[w0 Hh] Hc Hd Hm] Hne Hy Hx Hxh. split; simpl.
  - exists w0. by rewrite lookup_insert_ne.
  - apply chain_insert; [|done]. intros Hn. destruct (chain_lookup _ _ _ _ _ Hc Hn) as [nx E].
    rewrite Hx in E. by injection E as ->.
  - done.
  - intros n' x'. rewrite lookup_insert. destruct (decide (n = n')) as [->|]; [|by apply Hm].
    intros [= <-]. done.
Qed.

(** ** Push *)

Lemma push_front_exec s h n nx f w :
  h <> NULL -> n <> NULL -> nodes s !! n = Some (Node nx NULL) -> heads s !! h = Some (LHead f w) ->
  libsrpc_list_push_front h n s =
    Ret LIST_OK (LStore (<[n := Node f h]> (nodes s)) (<[h := LHead n (u64 (w + 1))]> (heads s))).
Proof.
  intros Hh Hn En Eh. unfold libsrpc_list_push_front.
  rewrite (proj2 (Z.eqb_neq h 0)), (proj2 (Z.eqb_neq n 0)) by done. cbn [orb].
  unfold mbind, M_bind, get_node at 1. rewrite En. cbn [node_head negb Z.eqb].
  unfold get_head at 1. rewrite Eh. cbn [first].
  unfold set_next, set_node_head, set_first, count_write, mbind, M_bind, get_node, put_node, get_head,
    put_head, modify. rewrite En. cbn [nodes heads node_head next]. rewrite lookup_insert_eq.
  cbn [nodes heads node_head next]. rewrite Eh. cbn [nodes heads write_ops]. rewrite lookup_insert_eq.
  cbn [nodes heads first write_ops]. by rewrite !insert_insert_eq.
Qed.

Lemma linked_push s h l n nx w f :
  linked s h l -> n <> NULL -> nodes s !! n = Some (Node nx NULL) -> h <> NULL ->
  heads s !! h = Some (LHead f w) ->
  linked (LStore (<[n := Node f h]> (nodes s)) (<[h := LHead n (u64 (w + 1))]> (heads s))) h (n :: l).
Proof.
  intros [[w0 Hh] Hc Hd Hm] Hn En Hh0 Ef. rewrite Hh in Ef. injection Ef as <- <-.
  assert (n ∉ l) as Hnl.
  { intros Hin. destruct (chain_lookup _ _ _ _ _ Hc Hin) as [nx' E]. rewrite En in E. congruence. }
  split; simpl.
  - exists (u64 (w0 + 1)). by rewrite lookup_insert_eq.
  - split_and!; try done. exists (List.hd NULL l). rewrite lookup_insert_eq.
    split; [done|by apply chain_insert].
  - by constructor.
  - intros n' x'. rewrite lookup_insert. destruct (decide (n = n')) as [->|].
    + intros _ _. apply list_elem_of_here.
    + intros E1 E2. apply list_elem_of_further. by eapply Hm.
Qed.

(** ** Remove *)

Lemma last_default (x : Z) l d d' : List.last (x :: l) d = List.last (x :: l) d'.
Proof. revert x; induction l as [|y l IH]; intros x; [done|apply (IH y)]. Qed.

Lemma find_prev_found ns hs h n l2 fuel : forall l1 cur prev,
  chain ns h cur (l1 ++ n :: l2) -> n ∉ l1 -> (length l1 <= fuel)%nat ->
  find_prev fuel n cur prev (LStore ns hs) = Ret (true, List.last l1 prev) (LStore ns hs).
Proof.
  induction fuel as [|fuel IH]; intros l1 cur prev Hc Hn Hf; destruct l1 as [|m l1]; simpl in *; try lia.
  - destruct Hc as (-> & Hn0 & _). rewrite (proj2 (Z.eqb_neq n 0)), Z.eqb_refl by done. done.
  - destruct Hc as (-> & Hn0 & _). rewrite (proj2 (Z.eqb_neq n 0)), Z.eqb_refl by done. done.
  - destruct Hc as (-> & Hm0 & nx & Em & Hc). apply not_elem_of_cons in Hn as [Hne Hn].
    rewrite (proj2 (Z.eqb_neq m 0)), (proj2 (Z.eqb_neq m n)) by congruence.
    unfold mbind, M_bind, get_node. simpl. rewrite Em. simpl.
    rewrite (IH l1 nx m); [|done|done|lia]. destruct l1 as [|x l1]; [done|].
    by rewrite (last_default x l1 m prev).
Qed.

Lemma find_prev_absent ns hs h n fuel : forall l cur prev,
  chain ns h cur l -> n ∉ l -> (length l <= fuel)%nat ->
  exists p, find_prev fuel n cur prev (LStore ns hs) = Ret (false, p) (LStore ns hs).
Proof.
  induction fuel as [|fuel IH]; intros l cur prev Hc Hn Hf; destruct l as [|m l]; simpl in *; try lia.
  - subst cur. by exists prev.
  - subst cur. by exists prev.
  - destruct Hc as (-> & Hm0 & nx & Em & Hc). apply not_elem_of_cons in Hn as [Hne Hn].
    rewrite (proj2 (Z.eqb_neq m 0)), (proj2 (Z.eqb_neq m n)) by congruence.
    unfold mbind, M_bind, get_node. simpl. rewrite Em. simpl.
    apply (IH l); [done..|lia].
Qed.

(** Bypassing [n] in a chain. *)
Lemma chain_unlink ns h p n nx l2 : forall l1 cur,
  chain ns h cur (l1 ++ p :: n :: l2) -> NoDup (l1 ++ p :: n :: l2) -> ns !! n = Some (Node nx h) ->
  chain (<[p := Node nx h]> ns) h cur (l1 ++ p :: l2).
Proof.
  induction l1 as [|m l1 IH]; intros cur Hc Hd En; simpl in *.
  - destruct Hc as (-> & Hp0 & nx' & Ep & -> & Hn0 & nx2 & En2 & Hc). rewrite En in En2.
    injection En2 as <-. split_and!; try done. exists nx. rewrite lookup_insert_eq. split; [done|].
    apply chain_insert; [|done]. apply NoDup_cons in Hd as [Hp _].
    intros Hin. apply Hp. by apply list_elem_of_further.
  - destruct Hc as (-> & Hm0 & nx' & Em & Hc). apply NoDup_cons in Hd as [Hm Hd].
    split_and!; try done. exists nx'. split; [|by apply IH].
    rewrite lookup_insert_ne; [done|]. intros ->. apply Hm. apply elem_of_app; right.
    apply list_elem_of_here.
Qed.

(** The memory after [n] is taken off [l1 ++ n :: l2]. *)
Definition unlinked (s : list_store) (h n w : Z) (l1 l2 : list Z) : list_store :=
  let ns := match List.last l1 NULL with
            | 0 => nodes s
            | p => <[p := Node (List.hd NULL l2) h]> (nodes s)
            end in
  LStore (<[n := Node NULL NULL]> ns) (<[h := LHead (List.hd NULL (l1 ++ l2)) (u64 (w + 1))]> (heads s)).

Lemma chain_hd ns h cur l : chain ns h cur l -> cur = List.hd NULL l.
Proof. destruct l; simpl; [done|]. by intros (-> & _). Qed.

Lemma chain_next ns h n l2 : forall l1 cur, chain ns h cur (l1 ++ n :: l2) ->
  ns !! n = Some (Node (List.hd NULL l2) h) /\ n <> NULL.
Proof.
  induction l1 as [|m l1 IH]; intros cur; simpl.
  - intros (-> & Hn & nx & En & Hc). by rewrite <- (chain_hd _ _ _ _ Hc).
  - intros (-> & _ & nx & _ & Hc). by eapply IH.
Qed.

Lemma last_app_split (l : list Z) : l = [] \/ exists l' p, l = l' ++ [p].
Proof. induction l using rev_ind; [by left|right; by eauto]. Qed.

Lemma remove_locked_exec s h l1 n l2 fuel w :
  linked s h (l1 ++ n :: l2) -> h <> NULL -> (length (l1 ++ n :: l2) <= fuel)%nat ->
  heads s !! h = Some (LHead (List.hd NULL (l1 ++ n :: l2)) w) ->
  remove_locked fuel h n s = Ret LIST_OK (unlinked s h n w l1 l2).
Proof.
  destruct s as [ns hs]. intros [_ Hc Hd Hm] Hh0 Hf Eh. simpl in *.
  destruct (chain_next _ _ _ _ _ _ Hc) as [En Hn0].
  unfold remove_locked, mbind, M_bind, get_head at 1. simpl. rewrite Eh. simpl.
  assert (n ∉ l1) as Hn1.
  { apply NoDup_app in Hd as (_ & Hd & _). intros Hin. apply (Hd n Hin), list_elem_of_here. }
  rewrite length_app in Hf. simpl in Hf.
  rewrite (find_prev_found ns hs h n l2 fuel l1 _ NULL Hc Hn1 ltac:(lia)).
  cbn [negb]. unfold get_node at 1. simpl. rewrite En. cbn [next]. unfold unlinked.
  destruct (last_app_split l1) as [->|(l1' & p & ->)].
  - simpl. unfold set_first, count_write, set_node_head, set_next, mbind, M_bind, get_head, put_head,
      get_node, put_node, modify; simpl. rewrite Eh. simpl. rewrite lookup_insert_eq. simpl. rewrite En. simpl.
    rewrite lookup_insert_eq. simpl. by rewrite !insert_insert_eq.
  - rewrite <- app_assoc in Hc, Hd. simpl in Hc, Hd. rewrite List.last_last.
    destruct (chain_next _ _ _ _ _ _ Hc) as [Ep Hp0]. simpl in Ep.
    assert (p <> n) as Hpn.
    { apply NoDup_app in Hd as (_ & _ & Hd). apply NoDup_cons in Hd as [Hd _].
      intros ->. apply Hd, list_elem_of_here. }
    rewrite (proj2 (Z.eqb_neq p 0)) by done.
    unfold set_first, count_write, set_node_head, set_next, mbind, M_bind, get_head, put_head,
      get_node, put_node, modify; simpl. rewrite Ep. simpl. rewrite Eh. simpl.
    rewrite lookup_insert_ne by done. rewrite En. simpl. rewrite lookup_insert_eq. simpl.
    rewrite !insert_insert_eq. do 2 f_equal.
    + by destruct p.
    + do 2 f_equal. by destruct l1'.
Qed.

Lemma linked_remove s h l1 n l2 w :
  linked s h (l1 ++ n :: l2) -> h <> NULL -> linked (unlinked s h n w l1 l2) h (l1 ++ l2).
Proof.
  destruct s as [ns hs]. intros [_ Hc Hd Hm] Hh0. simpl in *.
  assert (n ∉ l1 ++ l2) as Hn.
  { apply NoDup_app in Hd as (_ & H1 & H2). apply NoDup_cons in H2 as [H2 _].
    intros [Hin|Hin]%elem_of_app; [|done]. by apply (H1 n Hin), list_elem_of_here. }
  split; unfold unlinked; simpl.
  - exists (u64 (w + 1)). by rewrite lookup_insert_eq.
  - apply chain_insert; [done|]. destruct (last_app_split l1) as [->|(l1' & p & ->)]; simpl.
    + simpl in Hc. destruct Hc as (_ & _ & nx & _ & Hc). by rewrite <- (chain_hd _ _ _ _ Hc).
    + rewrite List.last_last. rewrite <- !app_assoc in *. simpl in *.
      destruct (chain_next _ _ _ _ _ _ Hc) as [_ Hp0].
      assert (chain ns h (List.hd NULL (l1' ++ p :: l2)) (l1' ++ p :: n :: l2)) as Hc'.
      { by destruct l1'. }
      destruct (chain_next ns h n l2 (l1' ++ [p]) (List.hd NULL (l1' ++ p :: l2))) as [En _].
      { by rewrite <- app_assoc. }
      destruct p; [done|..]; by apply chain_unlink with (n := n).
  - apply NoDup_app in Hd as (H1 & H2 & H3). apply NoDup_cons in H3 as [H3 H4].
    apply NoDup_app. split_and!; try done. intros x Hx Hx2. apply (H2 x Hx). by apply list_elem_of_further.
  - intros m x. rewrite lookup_insert. destruct (decide (n = m)) as [->|Hne]; [intros [= <-]; by simpl|].
    intros Em Hx. assert (m ∈ l1 ++ n :: l2) as Hin.
    { destruct (decide (m = List.last l1 NULL)) as [->|].
      - destruct (last_app_split l1) as [->|(l1' & p & ->)]; simpl in *; [by eapply Hm|].
        rewrite List.last_last. rewrite <- app_assoc. apply elem_of_app; right. apply list_elem_of_here.
      - apply (Hm m x); [|done].
        destruct (List.last l1 NULL); [done|..]; by rewrite lookup_insert_ne in Em by done. }
    apply elem_of_app in Hin as [|Hin]; apply elem_of_app; [by left|right].
    by apply elem_of_cons in Hin as [|].
Qed.

(** ** Traversal *)
Lemma foreach_chain ns hs h fuel : forall l cur, chain ns h cur l -> (length l <= fuel)%nat ->
  foreach_from fuel cur (LStore ns hs) = Ret l (LStore ns hs).
Proof.
  induction fuel as [|fuel IH]; intros [|n l] cur Hc Hf; simpl in *; try lia.
  - by subst cur.
  - by subst cur.
  - destruct Hc as (-> & Hn & nx & En & Hc). rewrite (proj2 (Z.eqb_neq n 0)) by done.
    unfold mbind, M_bind, get_node. simpl. rewrite En. simpl. by rewrite (IH l) by (done || lia).
Qed.

(** ** Theorems *)

Lemma lists_ok_push s ls h l n nx w f :
  lists_ok s ls -> ls !! h = Some l -> n <> NULL -> nodes s !! n = Some (Node nx NULL) ->
  heads s !! h = Some (LHead f w) ->
  lists_ok (LStore (<[n := Node f h]> (nodes s)) (<[h := LHead n (u64 (w + 1))]> (heads s)))
    (<[h := n :: l]> ls).
Proof.
  intros Hok El Hn En Eh h' l'. destruct (Hok h l El) as [Hh Hl]. rewrite lookup_insert.
  destruct (decide (h = h')) as [<-|Hne].
  - intros [= <-]. split; [done|]. by eapply linked_push.
  - intros El'. destruct (Hok h' l' El') as [Hh' Hl']. split; [done|].
    apply (linked_other s h' l' h (Node nx NULL)); simpl; congruence.
Qed.

Lemma lists_ok_remove s ls h l1 n l2 w :
  lists_ok s ls -> ls !! h = Some (l1 ++ n :: l2) ->
  lists_ok (unlinked s h n w l1 l2) (<[h := l1 ++ l2]> ls).
Proof.
  intros Hok El h' l'. destruct (Hok h _ El) as [Hh Hl]. rewrite lookup_insert.
  destruct (decide (h = h')) as [<-|Hne]; [intros [= <-]; split; [done|by apply linked_remove]|].
  intros El'. destruct (Hok h' l' El') as [Hh' Hl']. split; [done|].
  pose proof (lk_chain _ _ _ Hl) as Hc. destruct (chain_next _ _ _ _ _ _ Hc) as [En Hn0].
  unfold unlinked. set (W := LHead _ _).
  destruct (last_app_split l1) as [->|(l1' & p & ->)]; simpl.
  - by apply (linked_other s h' l' h (Node (List.hd NULL l2) h)).
  - rewrite List.last_last. rewrite <- app_assoc in Hc. simpl in Hc.
    destruct (chain_next _ _ _ _ _ _ Hc) as [Ep Hp0]. simpl in Ep.
    assert (linked (LStore (<[p := Node (List.hd NULL l2) h]> (nodes s)) (<[h := W]> (heads s))) h' l') as Hl2.
    { by apply (linked_other s h' l' h (Node n h)). }
    assert (exists x, <[p := Node (List.hd NULL l2) h]> (nodes s) !! n = Some x /\ node_head x = h) as (x & Ex & Exh).
    { rewrite lookup_insert. destruct (decide (p = n)); by eexists. }
    rewrite <- (insert_insert_eq (heads s) h W W).
    destruct p; [done|..];
      (apply (linked_other (LStore _ _) h' l' h x); [exact Hl2|congruence|cbn; congruence|exact Ex|congruence]).
Qed.

(** [libsrpc_list_push_front] puts a node that is on no list at the front of its
    list and counts the write; a node already on some list is refused and nothing
    changes.  Every other list stays as it was. *)
Theorem push_front_ok s ls h l n x :
  lists_ok s ls -> ls !! h = Some l -> n <> NULL -> nodes s !! n = Some x ->
  exists rc s', libsrpc_list_push_front h n s = Ret rc s' /\
    if decide (node_head x = NULL)
    then rc = LIST_OK /\ lists_ok s' (<[h := n :: l]> ls)
    else rc = LIST_EALREADY /\ s' = s.
Proof.
  intros Hok El Hn Ex. destruct (Hok h l El) as [Hh Hl]. destruct (lk_head _ _ _ Hl) as [w Eh].
  destruct x as [nx hd]. simpl. destruct (decide (hd = NULL)) as [->|Hhd].
  - eexists _, _. split; [by eapply push_front_exec|]. split; [done|by eapply lists_ok_push].
  - exists LIST_EALREADY, s. split; [|done]. unfold libsrpc_list_push_front.
    rewrite (proj2 (Z.eqb_neq h 0)), (proj2 (Z.eqb_neq n 0)) by done. cbn [orb].
    unfold mbind, M_bind, get_node. rewrite Ex. cbn [node_head].
    by rewrite (proj2 (Z.eqb_neq hd 0)).
Qed.

(** Two lists and a free node. *)
Definition demo_store : list_store :=
  LStore (<[10 := Node 20 1]> (<[20 := Node 0 1]> (<[30 := Node 0 2]> (<[40 := Node 0 0]> ∅))))
         (<[1 := LHead 10 2]> (<[2 := LHead 30 1]> ∅)).
Definition demo_lists : gmap Z (list Z) := <[1 := [10; 20]]> (<[2 := [30]]> ∅).
Lemma demo_lists_ok : lists_ok demo_store demo_lists.
Proof.
  intros h l Hl. unfold demo_lists in Hl.
  assert ((h = 1 /\ l = [10; 20]) \/ (h = 2 /\ l = [30])) as [[-> ->]|[-> ->]].
  { rewrite !lookup_insert, lookup_empty in Hl. repeat case_decide; simplify_eq; auto. }
  all: (split; [done|]); split.
  all: try (eexists; vm_compute; reflexivity).
  all: try (repeat (split; [done|split; [done|]]; eexists; split; [vm_compute; reflexivity|]); done).
  all: try (repeat constructor; set_solver).
  all: intros n x; unfold demo_store; cbn [nodes]; rewrite !lookup_insert, lookup_empty;
    repeat case_decide; intros; simplify_eq/=; try done; set_solver.
Qed.

Lemma push_front_ok_witness :
  exists s', libsrpc_list_push_front 1 40 demo_store = Ret LIST_OK s' /\
    lists_ok s' (<[1 := [40; 10; 20]]> demo_lists).
Proof.
  destruct (push_front_ok demo_store demo_lists 1 [10; 20] 40 (Node 0 0)) as (rc & s' & E & Hc & Hok);
    [apply demo_lists_ok|done|done|done|].
  exists s'. split; [by rewrite E, Hc|exact Hok].
Defined.

Lemma filter_all {A} (P : A -> Prop) `{forall x, Decision (P x)} (l : list A) :
  (forall x, x ∈ l -> P x) -> filter P l = l.
Proof.
  induction l as [|x l IH]; intros Hl; [done|]. rewrite filter_cons, decide_True by (apply Hl, list_elem_of_here).
  f_equal. apply IH. intros y Hy. apply Hl, list_elem_of_further, Hy.
Qed.

(** [libsrpc_list_remove] takes a node off the list it is on, wherever it stands,
    clears its links and counts the write; a node on no list is reported as not
    found and nothing changes.  Every other list stays as it was. *)
Theorem list_remove_ok s ls n x fuel :
  lists_ok s ls -> n <> NULL -> nodes s !! n = Some x ->
  (node_head x = NULL -> libsrpc_list_remove fuel n s = Ret LIST_ENOTFOUND s) /\
  (forall l, ls !! node_head x = Some l -> (length l <= fuel)%nat ->
     exists s', libsrpc_list_remove fuel n s = Ret LIST_OK s' /\
       lists_ok s' (<[node_head x := filter (fun m => m <> n) l]> ls) /\
       nodes s' !! n = Some (Node NULL NULL)).
Proof.
  intros Hok Hn Ex.
  assert (libsrpc_list_remove fuel n s =
    (if node_head x =? NULL then mret LIST_ENOTFOUND else remove_locked fuel (node_head x) n) s) as E.
  { unfold libsrpc_list_remove. rewrite (proj2 (Z.eqb_neq n 0)) by done.
    unfold mbind, M_bind, get_node. by rewrite Ex. }
  split; [by intros Hx; rewrite E, Hx|]. intros l El Hf. destruct (Hok _ _ El) as [Hh Hl].
  rewrite (proj2 (Z.eqb_neq _ 0)) in E by done.
  pose proof (lk_member _ _ _ Hl n x Ex eq_refl) as Hin.
  apply list_elem_of_split in Hin as (l1 & l2 & ->). destruct (lk_head _ _ _ Hl) as [w Eh].
  pose proof (lk_nodup _ _ _ Hl) as Hd. apply NoDup_app in Hd as (Hd1 & Hd12 & Hd2).
  apply NoDup_cons in Hd2 as [Hd2 _].
  exists (unlinked s (node_head x) n w l1 l2). rewrite E. split; [|split].
  - by apply remove_locked_exec.
  - rewrite filter_app, filter_cons. rewrite decide_False by (intros H; by apply H).
    rewrite (filter_all _ l1), (filter_all _ l2).
    + by apply lists_ok_remove.
    + intros m Hm ->. done.
    + intros m Hm ->. apply (Hd12 n Hm), list_elem_of_here.
  - unfold unlinked. cbn [nodes]. by rewrite lookup_insert_eq.
Qed.
Lemma list_remove_ok_witness :
  exists s', libsrpc_list_remove 2 20 demo_store = Ret LIST_OK s' /\
    lists_ok s' (<[1 := [10]]> demo_lists) /\ nodes s' !! 20 = Some (Node NULL NULL).
Proof.
  destruct (list_remove_ok demo_store demo_lists 20 (Node 0 1) 2) as [_ H];
    [apply demo_lists_ok|done|done|].
  exact (H [10; 20] eq_refl (le_n 2)).
Defined.

(** [LIBSRPC_LIST_FOREACH] visits exactly the entries of the list, in order, and
    a traversal that already reached entry [n] is not disturbed by concurrent
    insertions: it still visits what followed [n] when the insertion happened. *)
Theorem foreach_sees_list s ls h l fuel :
  lists_ok s ls -> ls !! h = Some l -> (length l <= fuel)%nat ->
  list_foreach fuel h s = Ret l s /\
  forall l1 n l2 m rc s', l = l1 ++ n :: l2 -> m <> NULL -> is_Some (nodes s !! m) ->
    libsrpc_list_push_front h m s = Ret rc s' ->
    foreach_from fuel n s' = Ret (n :: l2) s'.
Proof.
  intros Hok El Hf. destruct (Hok h l El) as [Hh Hl]. pose proof (lk_chain _ _ _ Hl) as Hc.
  destruct (lk_head _ _ _ Hl) as [w Eh]. destruct s as [ns hs]. split.
  { unfold list_foreach, mbind, M_bind, get_head. rewrite Eh. by apply (foreach_chain ns hs h). }
  intros l1 n l2 m rc s' -> Hm [x Ex] Ep.
  assert (chain ns h n (n :: l2)) as Hn.
  { clear -Hc. revert Hc. generalize (List.hd NULL (l1 ++ n :: l2)). induction l1 as [|y l1 IH]; intros c Hc.
    - pose proof Hc as Hc'. simpl in Hc'. destruct Hc' as [-> _]. exact Hc.
    - destruct Hc as (_ & _ & nx & _ & Hc). by eapply IH. }
  rewrite length_app in Hf. destruct (decide (node_head x = NULL)) as [E0|E0].
  - destruct x as [nx hd]. simpl in E0. subst hd.
    rewrite (push_front_exec _ h m nx _ w Hh Hm Ex Eh) in Ep. injection Ep as <- <-.
    apply (foreach_chain _ _ h); [|simpl in *; lia]. apply chain_insert; [|done].
    intros Hin. destruct (chain_lookup _ _ _ _ _ Hn Hin) as [nx' E]. simpl in Ex. rewrite Ex in E. congruence.
  - unfold libsrpc_list_push_front in Ep.
    rewrite (proj2 (Z.eqb_neq h 0)), (proj2 (Z.eqb_neq m 0)) in Ep by done. cbn [orb] in Ep.
    unfold mbind, M_bind, get_node in Ep. rewrite Ex, (proj2 (Z.eqb_neq _ 0)) in Ep by done.
    cbn in Ep. injection Ep as <- <-. apply (foreach_chain _ _ h); [done|simpl in *; lia].
Qed.
Lemma foreach_sees_list_witness :
  list_foreach 2 1 demo_store = Ret [10; 20] demo_store /\
  exists s', libsrpc_list_push_front 1 40 demo_store = Ret LIST_OK s' /\ foreach_from 2 20 s' = Ret [20] s'.
Proof.
  destruct (foreach_sees_list demo_store demo_lists 1 [10; 20] 2) as [H H'];
    [apply demo_lists_ok|done|simpl; lia|].
  split; [exact H|]. eexists. split; [vm_compute; reflexivity|].
  apply (H' [10] 20 [] 40 LIST_OK); [done|done|by eexists|vm_compute; reflexivity].
Defined.

(** Removing the entry a traversal stands on resets its [next] to NULL, so the
    traversal ends there and never visits the entries that follow, although they
    stay in the list throughout. *)
Theorem removal_truncates_reader :
  exists s', libsrpc_list_remove 2 10 demo_store = Ret LIST_OK s' /\
    foreach_from 2 10 demo_store = Ret [10; 20] demo_store /\
    foreach_from 2 10 s' = Ret [10] s' /\
    list_foreach 2 1 s' = Ret [20] s'.
Proof. eexists. split; [vm_compute; reflexivity|]. split; [|split]; vm_compute; reflexivity. Qed.
