(* ===== verification/Request.v ===== *)
(** RPC requests and their response slots ([libsrpc_local.h]): the layout of the
    block, the return-code bitfield, the checks on a request, and the accesses to
    a response. *)
From S2P Require Import Prelude Machine Errno Bytes.

(** ** The return code [srpc_rc_t]: a 30-bit code and a 2-bit state in one [int] *)

Definition RC_ST_EMPTY := 0.
Definition RC_ST_LOCK := 1.
Definition RC_ST_READY := 2.
Definition RC_ST_ERROR := 3.

Definition rc_make (st code : Z) : Z := i32 (st mod 4 * 2 ^ 30 + code mod 2 ^ 30).
Definition rc_st (rc : Z) : Z := u32 rc / 2 ^ 30.
Definition rc_code (rc : Z) : Z :=
  let c := u32 rc mod 2 ^ 30 in if c <? 2 ^ 29 then c else c - 2 ^ 30.

(** ** Data *)

Definition LIBSRPC_REQ_SIGN := 0x741B8CD7.
(** Sizes and offsets of the x86-64 ABI: [buf] follows [retnum] without padding,
    while the structure itself is padded to a multiple of 8. *)
Definition sizeof_request := 96.
Definition offsetof_request_buf := 92.
Definition sizeof_response := 16.
Definition offsetof_response_rc := 8.
Definition offsetof_response_uid := 12.
Definition offsetof_response_buf := 14.

(** [libsrpc_request_t] without its list node; [sem_wakeup] is the semaphore's
    value, [buf] the bytes from [buf] to the end of the block. *)
Record request := Request {
  sem_wakeup : Z;
  hp_regfn : Z;
  sign : Z;
  seq_num : Z;
  gc_lock_uid : list Z;
  funid : Z;
  bufsz : Z;
  retoff : Z;
  retsz : Z;
  retnum : Z;
  buf : list Z }.

Definition set_sem v r := Request v (hp_regfn r) (sign r) (seq_num r) (gc_lock_uid r) (funid r) (bufsz r) (retoff r) (retsz r) (retnum r) (buf r).
Definition set_hp_regfn v r := Request (sem_wakeup r) v (sign r) (seq_num r) (gc_lock_uid r) (funid r) (bufsz r) (retoff r) (retsz r) (retnum r) (buf r).
Definition set_sign v r := Request (sem_wakeup r) (hp_regfn r) v (seq_num r) (gc_lock_uid r) (funid r) (bufsz r) (retoff r) (retsz r) (retnum r) (buf r).
Definition set_gc_lock v r := Request (sem_wakeup r) (hp_regfn r) (sign r) (seq_num r) v (funid r) (bufsz r) (retoff r) (retsz r) (retnum r) (buf r).
Definition set_retsz v r := Request (sem_wakeup r) (hp_regfn r) (sign r) (seq_num r) (gc_lock_uid r) (funid r) (bufsz r) (retoff r) v (retnum r) (buf r).
Definition set_retnum v r := Request (sem_wakeup r) (hp_regfn r) (sign r) (seq_num r) (gc_lock_uid r) (funid r) (bufsz r) (retoff r) (retsz r) v (buf r).
Definition set_buf v r := Request (sem_wakeup r) (hp_regfn r) (sign r) (seq_num r) (gc_lock_uid r) (funid r) (bufsz r) (retoff r) (retsz r) (retnum r) v.

(** The 64-bit view of [sign] and [seq_num] in their union. *)
Definition control (r : request) : Z := sign r + 2 ^ 32 * seq_num r.

(** ** Checks *)

(** The size a request with this header needs, as [size_t]. *)
Definition req_size (r : request) : Z :=
  u64 (sizeof_request + retoff r + u64 (retsz r * retnum r)).

(** [libsrpc_req_is_corrupted] on a copy of the header, followed by two more reads
    of [control] and [sign]: [tmp] is the copy, [now] the block at those reads. *)
Definition corrupted_at (tmp now : request) (ctrl : option Z) : bool :=
  match ctrl with Some c => negb (c =? control tmp) | None => false end
  || negb (sign tmp =? LIBSRPC_REQ_SIGN)
  || ((retnum tmp =? 0) || (retsz tmp =? 0))
  || (bufsz tmp <? req_size tmp)
  || match ctrl with Some c => negb (control now =? c) | None => false end
  || negb (sign now =? LIBSRPC_REQ_SIGN).
Definition libsrpc_req_is_corrupted (req : option request) (ctrl : option Z) : bool :=
  match req with None => true | Some r => corrupted_at r r ctrl end.

(** ** Response slots

    A response is known by its offset in [buf]; [None] stands for NULL. *)
Definition slot_offset (r : request) (idx : Z) : Z := u32 (retoff r + u32 (retsz r * idx)).

Definition libsrpc_req_get_response_fast (req : option request) (idx : Z) : option Z :=
  match req with
  | None => None
  | Some r =>
      if bufsz r <? req_size r then None
      else if retnum r <=? idx then None
      else Some (slot_offset r idx)
  end.
Definition libsrpc_req_get_response (req : option request) (idx : Z) : option Z :=
  match req with
  | None => None
  | Some r =>
      if libsrpc_req_is_corrupted req None || (retnum r <=? idx) then None
      else Some (slot_offset r idx)
  end.

(** The fields of the response at offset [o]. *)
Definition resp_hp (o : Z) (r : request) : Z := word_at 8 (Z.to_nat o) (buf r).
Definition resp_rc (o : Z) (r : request) : Z :=
  i32 (word_at 4 (Z.to_nat (o + offsetof_response_rc)) (buf r)).
Definition resp_uid (o : Z) (r : request) : Z :=
  word_at 2 (Z.to_nat (o + offsetof_response_uid)) (buf r).
Definition resp_data (o : Z) (n : nat) (r : request) : list Z :=
  slice (Z.to_nat (o + offsetof_response_buf)) n (buf r).
Definition set_resp_hp (o v : Z) (r : request) : request :=
  set_buf (set_word 8 (Z.to_nat o) v (buf r)) r.
Definition set_resp_rc (o v : Z) (r : request) : request :=
  set_buf (set_word 4 (Z.to_nat (o + offsetof_response_rc)) v (buf r)) r.
Definition set_resp_uid (o v : Z) (r : request) : request :=
  set_buf (set_word 2 (Z.to_nat (o + offsetof_response_uid)) v (buf r)) r.
Definition set_resp_data (o : Z) (v : list Z) (r : request) : request :=
  set_buf (splice (Z.to_nat (o + offsetof_response_buf)) v (buf r)) r.

(** [atomic_compare_exchange_strong] on the return code of a slot. *)
Definition cas_resp_rc (o expected new : Z) (r : request) : bool * request :=
  if resp_rc o r =? expected then (true, set_resp_rc o new r) else (false, r).

Definition libsrpc_req_response_set (r : request) (o : Z) (ctrl : option Z) (val : list Z) : Z * request :=
  if libsrpc_req_is_corrupted (Some r) ctrl then (- EINVAL, r)
  else
    let '(ok, r) := cas_resp_rc o 0 (rc_make RC_ST_LOCK 0) r in
    if negb ok then (- EBUSY, r)
    else
      let r := match val with [] => r | _ => set_resp_data o val r end in
      (rc_make RC_ST_READY 0, set_resp_rc o (rc_make RC_ST_READY 0) r).

(** [libsrpc_req_response_get]: the request as each of the [fuel] loads of the
    return code finds it is [obs i]; the value is the error, or the code and the
    [sz] bytes copied out. *)
Fixpoint response_get_loop (fuel : nat) (obs : nat -> request) (i : nat) (o : Z) (sz : nat)
    : Z * option (list Z) :=
  match fuel with
  | O => (- ETIMEDOUT, None)
  | S fuel =>
      let rc := resp_rc o (obs i) in
      if rc_st rc =? RC_ST_ERROR then ((if rc_code rc <? 0 then rc_code rc else - EBADFD), None)
      else if rc_st rc =? RC_ST_READY then (rc_code rc, Some (resp_data o sz (obs i)))
      else response_get_loop fuel obs (S i) o sz
  end.
Definition libsrpc_req_response_get (obs : nat -> request) (resp : option Z) (sz : nat) : Z * option (list Z) :=
  match resp with
  | None => (- EINVAL, None)
  | Some o => response_get_loop 1024 obs O o sz
  end.

(** [libsrpc_req_destroy] *)
Definition libsrpc_req_destroy (req : option request) : Z * option request :=
  match req with
  | None => (- EINVAL, None)
  | Some r =>
      if negb (sign r =? LIBSRPC_REQ_SIGN) then (- EALREADY, Some r)
      else (0, Some (set_retsz 0 (set_retnum 0 (set_sign 0 r))))
  end.

(** [libsrpc_req_is_bad] *)
Fixpoint is_bad_from (n : nat) (i : Z) (r : request) : bool :=
  match n with
  | O => false
  | S n =>
      match libsrpc_req_get_response_fast (Some r) i with
      | None => true
      | Some o =>
          let rc := resp_rc o r in
          (rc_st rc =? RC_ST_LOCK) || (rc_st rc =? RC_ST_ERROR) || (rc =? - ERPCWAITIMEDOUT) || (rc =? 0)
          || is_bad_from n (i + 1) r
      end
  end.
Definition libsrpc_req_is_bad (req : option request) : bool :=
  match req with None => true | Some r => is_bad_from (Z.to_nat (retnum r)) 0 r end.

(** ** Sizes of a request *)

(** [ALIGNLONG] *)
Definition ALIGNLONG (x : Z) : Z := Z.land (u64 (x + 8 - 1)) (not64 (8 - 1)).

(** The layout [libsrpc_req_alloc] computes for [reqlen] bytes of arguments and
    [retnum] answers of [rlen] bytes: [retoff], [retsz] and the block size. *)
Definition req_layout (reqlen rlen retnum : Z) : Z * Z * Z :=
  let retoff := u32 (ALIGNLONG reqlen) in
  let retsz := u32 (ALIGNLONG (u64 (sizeof_response + rlen))) in
  (retoff, retsz, u64 (sizeof_request + retoff + u64 (retsz * retnum))).
