(* ===== verification/RequestSpec.v ===== *)
(** What the layout of a request guarantees: the return-code bitfield loses
    nothing, response slots are disjoint and inside the block, and a published
    answer is the one read back. *)
From S2P Require Import Prelude Machine Errno Bytes Request.

(** ** The return code *)

Lemma u32_i32 x : u32 (i32 x) = u32 x.
Proof.
  unfold i32, u32. pose proof (Z.mod_pos_bound x (2 ^ 32)).
  destruct (Z.ltb_spec (x mod 2 ^ 32) (2 ^ 31)).
  - by rewrite Z.mod_mod.
  - replace (x mod 2 ^ 32 - 2 ^ 32) with (x mod 2 ^ 32 + (-1) * 2 ^ 32) by lia.
    by rewrite Z.mod_add, Z.mod_mod.
Qed.
Lemma i32_u32 x : i32 (u32 x) = i32 x.
Proof. unfold i32, u32. by rewrite Z.mod_mod. Qed.
Lemma i32_range x : - 2 ^ 31 <= i32 x < 2 ^ 31.
Proof.
  unfold i32, u32. pose proof (Z.mod_pos_bound x (2 ^ 32)).
  destruct (Z.ltb_spec (x mod 2 ^ 32) (2 ^ 31)); lia.
Qed.

Lemma u32_rc_make st code : 0 <= st < 4 -> u32 (rc_make st code) = st * 2 ^ 30 + code mod 2 ^ 30.
Proof.
  intros Hs. unfold rc_make. rewrite u32_i32, (Z.mod_small st) by lia. unfold u32.
  pose proof (Z.mod_pos_bound code (2 ^ 30)). rewrite Z.mod_small by lia. lia.
Qed.
Lemma rc_st_make st code : 0 <= st < 4 -> rc_st (rc_make st code) = st.
Proof.
  intros Hs. unfold rc_st. rewrite u32_rc_make by done. pose proof (Z.mod_pos_bound code (2 ^ 30)).
  rewrite Z.div_add_l by lia. rewrite Z.div_small by lia. lia.
Qed.
Lemma rc_code_make st code : 0 <= st < 4 -> - 2 ^ 29 <= code < 2 ^ 29 -> rc_code (rc_make st code) = code.
Proof.
  intros Hs Hc. unfold rc_code. rewrite u32_rc_make by done.
  rewrite Z.add_comm, Z.mod_add, Z.mod_mod by lia. destruct (Z.le_gt_cases 0 code).
  - rewrite Z.mod_small by lia. destruct (Z.ltb_spec code (2 ^ 29)); lia.
  - replace (code mod 2 ^ 30) with (code + 2 ^ 30) by (apply Z.mod_unique_pos with (-1); lia).
    destruct (Z.ltb_spec (code + 2 ^ 30) (2 ^ 29)); lia.
Qed.
Lemma rc_make_inv rc : - 2 ^ 31 <= rc < 2 ^ 31 -> rc_make (rc_st rc) (rc_code rc) = rc.
Proof.
  intros Hr. unfold rc_make, rc_st, rc_code. pose proof (Z.mod_pos_bound rc (2 ^ 32)).
  assert (0 <= u32 rc < 2 ^ 32) as Hu by (unfold u32; lia).
  pose proof (Z.div_mod (u32 rc) (2 ^ 30)). pose proof (Z.mod_pos_bound (u32 rc) (2 ^ 30)).
  assert (0 <= u32 rc / 2 ^ 30 < 4) by (split; [apply Z.div_pos; lia|apply Z.div_lt_upper_bound; lia]).
  rewrite (Z.mod_small (_ / _)) by lia.
  assert ((if u32 rc mod 2 ^ 30 <? 2 ^ 29 then u32 rc mod 2 ^ 30 else u32 rc mod 2 ^ 30 - 2 ^ 30) mod 2 ^ 30
    = u32 rc mod 2 ^ 30) as ->.
  { case_bool; [by rewrite Z.mod_mod|]. replace (u32 rc mod 2 ^ 30 - 2 ^ 30) with (u32 rc mod 2 ^ 30 + (-1) * 2 ^ 30) by lia.
    by rewrite Z.mod_add, Z.mod_mod. }
  rewrite <- i32_u32. rewrite <- (i32_small rc) at 3 by lia. rewrite <- (i32_u32 rc). f_equal.
  unfold u32 at 1. rewrite Z.mod_small by lia. lia.
Qed.

(** The bitfield carries its two parts without loss, every [int] is the encoding
    of its parts, and the plain negative error numbers handlers return read as
    state ERROR with that very code, never as EMPTY, LOCK or READY. *)
Theorem rc_roundtrip :
  (forall st code, 0 <= st < 4 -> - 2 ^ 29 <= code < 2 ^ 29 ->
     rc_st (rc_make st code) = st /\ rc_code (rc_make st code) = code /\
     - 2 ^ 31 <= rc_make st code < 2 ^ 31 /\
     (rc_make st code = 0 <-> st = RC_ST_EMPTY /\ code = 0)) /\
  (forall rc, - 2 ^ 31 <= rc < 2 ^ 31 -> rc_make (rc_st rc) (rc_code rc) = rc) /\
  (forall e, 0 < e < LIBSRPC_ERRNO_MAX -> rc_st (- e) = RC_ST_ERROR /\ rc_code (- e) = - e).
Proof.
  split; [|split; [apply rc_make_inv|]].
  - intros st code Hs Hc. split; [by apply rc_st_make|]. split; [by apply rc_code_make|].
    split; [apply i32_range|]. split.
    + intros E. pose proof (rc_st_make st code Hs) as E1. pose proof (rc_code_make st code Hs Hc) as E2.
      rewrite E in E1, E2. by rewrite <- E1, <- E2.
    + by intros [-> ->].
  - intros e He. unfold LIBSRPC_ERRNO_MAX, ELIBSRPC_START, MAX_ERRNO in He.
    assert (rc_make RC_ST_ERROR (- e) = - e) as E.
    { unfold rc_make, RC_ST_ERROR. replace (- e mod 2 ^ 30) with (- e + 2 ^ 30) by (apply Z.mod_unique_pos with (-1); lia).
      change (3 mod 4) with 3. rewrite <- i32_u32. replace (u32 _) with (u32 (- e)).
      - rewrite i32_u32. apply i32_small. lia.
      - unfold u32. replace (3 * 2 ^ 30 + (- e + 2 ^ 30)) with (- e + 1 * 2 ^ 32) by lia. by rewrite Z.mod_add. }
    pose proof (rc_st_make RC_ST_ERROR (- e)) as H1. pose proof (rc_code_make RC_ST_ERROR (- e)) as H2.
    rewrite E in H1, H2. unfold RC_ST_ERROR in *. split; [apply H1|apply H2]; lia.
Qed.
Lemma rc_roundtrip_witness :
  rc_st (rc_make RC_ST_ERROR (- ERPCWAITIMEDOUT)) = RC_ST_ERROR /\
  rc_code (rc_make RC_ST_ERROR (- ERPCWAITIMEDOUT)) = - ERPCWAITIMEDOUT /\ rc_st (- ENOMEM) = RC_ST_ERROR.
Proof.
  destruct rc_roundtrip as (H1 & _ & H3).
  destruct (H1 RC_ST_ERROR (- ERPCWAITIMEDOUT)) as (E1 & E2 & _); [done|done|].
  destruct (H3 ENOMEM) as [E3 _]; [done|]. exact (conj E1 (conj E2 E3)).
Defined.

(** ** Layout *)

(** The header fields hold 32-bit values and the block holds [bufsz] bytes. *)
Record header_ok (r : request) : Prop := HeaderOk {
  h_retoff : 0 <= retoff r < 2 ^ 32;
  h_retsz : 0 <= retsz r < 2 ^ 32;
  h_retnum : 0 <= retnum r < 2 ^ 32;
  h_bufsz : 0 <= bufsz r < 2 ^ 32;
  h_block : bufsz r <= offsetof_request_buf + Z.of_nat (length (buf r)) }.

(** The two 32-bit factors and the addends never overflow [size_t]. *)
Lemma req_size_exact r : header_ok r -> req_size r = sizeof_request + retoff r + retsz r * retnum r.
Proof.
  intros [H1 H2 H3 _ _]. unfold req_size, sizeof_request.
  assert (0 <= retsz r * retnum r <= (2 ^ 32 - 1) * (2 ^ 32 - 1)) by nia.
  rewrite (u64_small (_ * _)) by lia. apply u64_small. lia.
Qed.

Lemma slot_bounds r i : header_ok r -> req_size r <= bufsz r -> 0 <= i < retnum r ->
  slot_offset r i = retoff r + retsz r * i /\
  slot_offset r i + retsz r + 4 <= Z.of_nat (length (buf r)).
Proof.
  intros H Hs Hi. pose proof (req_size_exact r H) as E. destruct H as [H1 H2 H3 H4 H5].
  unfold sizeof_request, offsetof_request_buf in *.
  assert (0 <= retsz r * i /\ retsz r * i + retsz r <= retsz r * retnum r) as Hm by nia.
  unfold slot_offset, u32. rewrite (Z.mod_small (retsz r * i)) by lia. rewrite Z.mod_small by lia. lia.
Qed.

Lemma slots_disjoint r i j : header_ok r -> req_size r <= bufsz r ->
  0 <= i < retnum r -> 0 <= j < retnum r -> i <> j ->
  slot_offset r i + retsz r <= slot_offset r j \/ slot_offset r j + retsz r <= slot_offset r i.
Proof.
  intros H Hs Hi Hj Hne. destruct (slot_bounds r i H Hs Hi) as [-> _]. destruct (slot_bounds r j H Hs Hj) as [-> _].
  destruct H as [_ H2 _ _ _]. nia.
Qed.

Lemma get_response_fast_some r i o : libsrpc_req_get_response_fast (Some r) i = Some o ->
  req_size r <= bufsz r /\ i < retnum r /\ o = slot_offset r i.
Proof.
  simpl. destruct (Z.ltb_spec (bufsz r) (req_size r)); [done|].
  destruct (Z.leb_spec (retnum r) i); [done|]. intros E. by injection E as <-.
Qed.
Lemma get_response_fast_in r i : req_size r <= bufsz r -> i < retnum r ->
  libsrpc_req_get_response_fast (Some r) i = Some (slot_offset r i).
Proof.
  intros. simpl. rewrite (proj2 (Z.ltb_ge _ _)) by done. by rewrite (proj2 (Z.leb_gt _ _)) by done.
Qed.

(** What the check on a whole request establishes. *)
Lemma not_corrupted r ctrl : libsrpc_req_is_corrupted (Some r) ctrl = false <->
  match ctrl with Some c => c = control r | None => True end /\ sign r = LIBSRPC_REQ_SIGN /\
  retnum r <> 0 /\ retsz r <> 0 /\ req_size r <= bufsz r.
Proof.
  unfold libsrpc_req_is_corrupted, corrupted_at. destruct ctrl as [c|];
    rewrite ?orb_false_iff, ?negb_false_iff, ?Z.eqb_eq, ?Z.eqb_neq, ?Z.ltb_ge; naive_solver.
Qed.

(** On a request the check accepts, both accessors give the same slot for every
    index below [retnum] and none beyond, the 32-bit offset does not wrap, and the
    slots are pairwise disjoint, after the arguments and inside the block. *)
Theorem slots_layout r : header_ok r -> libsrpc_req_is_corrupted (Some r) None = false ->
  (forall i, 0 <= i -> libsrpc_req_get_response (Some r) i = libsrpc_req_get_response_fast (Some r) i) /\
  (forall i, 0 <= i < retnum r <-> exists o, 0 <= i /\ libsrpc_req_get_response_fast (Some r) i = Some o) /\
  (forall i o, 0 <= i -> libsrpc_req_get_response_fast (Some r) i = Some o ->
     o = retoff r + retsz r * i /\ retoff r <= o /\ o + retsz r <= Z.of_nat (length (buf r))) /\
  (forall i j o o', 0 <= i < j -> libsrpc_req_get_response_fast (Some r) i = Some o ->
     libsrpc_req_get_response_fast (Some r) j = Some o' -> o + retsz r <= o').
Proof.
  intros H Hc. pose proof (proj1 (not_corrupted r None) Hc) as (_ & _ & _ & _ & Hs).
  split; [|split; [|split]].
  - intros i Hi. unfold libsrpc_req_get_response. rewrite Hc. simpl.
    by rewrite (proj2 (Z.ltb_ge _ _)) by done.
  - intros i. split.
    + intros Hi. exists (slot_offset r i). split; [lia|]. apply get_response_fast_in; [done|lia].
    + intros (o & Hi & E). apply get_response_fast_some in E. lia.
  - intros i o Hi E. apply get_response_fast_some in E as (_ & Hn & ->).
    destruct (slot_bounds r i H Hs) as [E Hl]; [lia|]. destruct H. split; [done|]. split; [nia|lia].
  - intros i j o o' Hij Ei Ej. apply get_response_fast_some in Ei as (_ & Hn & ->).
    apply get_response_fast_some in Ej as (_ & Hn' & ->).
    destruct (slot_bounds r i H Hs) as [-> _]; [lia|]. destruct (slot_bounds r j H Hs) as [-> _]; [lia|].
    destruct H. nia.
Qed.
(** A request for two answers of 4 bytes and one 8-byte argument. *)
Definition demo_request : request :=
  Request 0 0 LIBSRPC_REQ_SIGN 7 [0; 0; 0; 0] 19 152 8 24 2 (replicate 200 0).
Lemma demo_request_ok : header_ok demo_request /\ libsrpc_req_is_corrupted (Some demo_request) None = false.
Proof. split; [constructor; vm_compute; intuition congruence|vm_compute; reflexivity]. Qed.
Lemma slots_layout_witness :
  libsrpc_req_get_response (Some demo_request) 1 = Some 32 /\ 32 + 24 <= 200 /\ 8 + 24 <= 32.
Proof.
  destruct demo_request_ok as [H Hc]. destruct (slots_layout demo_request H Hc) as (H1 & _ & H3 & H4).
  split; [rewrite H1; [vm_compute; reflexivity|lia]|].
  split; [exact (proj2 (proj2 (H3 1 32 ltac:(lia) eq_refl)))|].
  exact (H4 0 1 8 32 ltac:(lia) eq_refl eq_refl).
Defined.

(** ** Accesses to a slot *)

(** The slot at [o] has room for the header and lies in the block. *)
Definition slot_in (o : Z) (r : request) : Prop := 0 <= o /\ o + sizeof_response <= Z.of_nat (length (buf r)).
(** [r'] differs from [r] only in the bytes [o, o + n) of the buffer. *)
Definition only_bytes (o n : Z) (r r' : request) : Prop :=
  r' = set_buf (buf r') r /\ length (buf r') = length (buf r) /\
  forall off k, (Z.of_nat (off + k) <= o \/ o + n <= Z.of_nat off) -> slice off k (buf r') = slice off k (buf r).

Lemma only_bytes_refl o n r : only_bytes o n r r.
Proof. by destruct r. Qed.
Lemma only_bytes_trans o n r1 r2 r3 : only_bytes o n r1 r2 -> only_bytes o n r2 r3 -> only_bytes o n r1 r3.
Proof.
  intros (E1 & L1 & S1) (E2 & L2 & S2). split; [|split; [congruence|]].
  - rewrite E2 at 1. rewrite E1. done.
  - intros off k H. rewrite S2, S1; done.
Qed.

Lemma only_bytes_word o n off k v r :
  o <= Z.of_nat off -> Z.of_nat (off + k) <= o + n -> (off + k <= length (buf r))%nat ->
  only_bytes o n r (set_buf (set_word k off v (buf r)) r).
Proof.
  intros H1 H2 H3. split; [done|]. cbn [buf set_buf]. split; [by apply length_set_word|].
  intros off' k' H. apply slice_set_word_ne; [done|]. lia.
Qed.
Lemma only_bytes_splice o n off v r :
  o <= Z.of_nat off -> Z.of_nat (off + length v) <= o + n -> (off + length v <= length (buf r))%nat ->
  only_bytes o n r (set_buf (splice off v (buf r)) r).
Proof.
  intros H1 H2 H3. split; [done|]. cbn [buf set_buf]. split; [by apply length_splice|].
  intros off' k' H. apply slice_splice_ne; [done|]. lia.
Qed.

Ltac offsets := unfold slot_in, sizeof_response, offsetof_response_rc, offsetof_response_uid, offsetof_response_buf in *.

Lemma only_bytes_rc o v r : slot_in o r -> only_bytes (o + 8) 4 r (set_resp_rc o v r).
Proof. intros [H1 H2]. unfold set_resp_rc, set_resp_hp, set_resp_uid. offsets. apply only_bytes_word; lia. Qed.
Lemma only_bytes_hp o v r : slot_in o r -> only_bytes o 8 r (set_resp_hp o v r).
Proof. intros [H1 H2]. unfold set_resp_rc, set_resp_hp, set_resp_uid. offsets. apply only_bytes_word; lia. Qed.
Lemma only_bytes_uid o v r : slot_in o r -> only_bytes (o + 12) 2 r (set_resp_uid o v r).
Proof. intros [H1 H2]. unfold set_resp_rc, set_resp_hp, set_resp_uid. offsets. apply only_bytes_word; lia. Qed.

(** Bytes outside a change, read as fields. *)
Lemma only_bytes_fields o n r r' o' : only_bytes o n r r' -> 0 <= o' ->
  (o' + 8 <= o \/ o + n <= o' -> resp_hp o' r' = resp_hp o' r) /\
  (o' + 12 <= o \/ o + n <= o' + 8 -> resp_rc o' r' = resp_rc o' r) /\
  (o' + 14 <= o \/ o + n <= o' + 12 -> resp_uid o' r' = resp_uid o' r) /\
  (forall k, o' + 14 + Z.of_nat k <= o \/ o + n <= o' + 14 -> resp_data o' k r' = resp_data o' k r).
Proof.
  intros (_ & _ & S) Ho. unfold resp_hp, resp_rc, resp_uid, resp_data, word_at. offsets.
  repeat split; intros; (rewrite S by lia); done.
Qed.
Lemma only_bytes_slot o r r' : only_bytes o sizeof_response r r' -> slot_in o r -> slot_in o r'.
Proof. intros (_ & L & _) H. unfold slot_in. by rewrite L. Qed.

Lemma resp_rc_set o v r : slot_in o r -> resp_rc o (set_resp_rc o v r) = i32 v.
Proof.
  intros [H1 H2]. offsets. unfold resp_rc, set_resp_rc. cbn [buf set_buf]. rewrite word_at_set by (offsets; lia).
  apply i32_u32.
Qed.
Lemma resp_hp_set o v r : slot_in o r -> resp_hp o (set_resp_hp o v r) = v mod 2 ^ 64.
Proof. intros [H1 H2]. offsets. unfold resp_hp, set_resp_hp. cbn [buf set_buf]. by rewrite word_at_set by lia. Qed.
Lemma resp_uid_set o v r : slot_in o r -> resp_uid o (set_resp_uid o v r) = v mod 2 ^ 16.
Proof. intros [H1 H2]. offsets. unfold resp_uid, set_resp_uid. cbn [buf set_buf]. rewrite word_at_set by (offsets; lia). done. Qed.
Lemma resp_data_set o v r n : slot_in o r -> o + offsetof_response_buf + Z.of_nat (length v) <= Z.of_nat (length (buf r)) ->
  n = length v -> resp_data o n (set_resp_data o v r) = v.
Proof.
  intros [H1 H2] H ->. unfold resp_data, set_resp_data. cbn [buf set_buf]. offsets. apply slice_splice; [|done]. lia.
Qed.

Lemma set_buf_corrupted b r ctrl :
  libsrpc_req_is_corrupted (Some (set_buf b r)) ctrl = libsrpc_req_is_corrupted (Some r) ctrl.
Proof. done. Qed.
Lemma only_bytes_corrupted o n r r' ctrl : only_bytes o n r r' ->
  libsrpc_req_is_corrupted (Some r') ctrl = libsrpc_req_is_corrupted (Some r) ctrl.
Proof. intros (-> & _). done. Qed.

(** The three writes of a successful [response_set]. *)
Lemma response_set_ok r o ctrl v : slot_in o r ->
  o + offsetof_response_buf + Z.of_nat (length v) <= Z.of_nat (length (buf r)) ->
  libsrpc_req_is_corrupted (Some r) ctrl = false -> resp_rc o r = 0 ->
  exists r', libsrpc_req_response_set r o ctrl v = (rc_make RC_ST_READY 0, r') /\
    only_bytes (o + offsetof_response_rc) (6 + Z.of_nat (length v)) r r' /\
    resp_rc o r' = rc_make RC_ST_READY 0 /\ resp_uid o r' = resp_uid o r /\ resp_data o (length v) r' = v.
Proof.
  intros Hs Hv Hc Hrc. unfold libsrpc_req_response_set. rewrite Hc. unfold cas_resp_rc. rewrite Hrc, Z.eqb_refl. cbn [negb].
  set (r1 := set_resp_rc o (rc_make RC_ST_LOCK 0) r).
  set (r2 := match v with [] => r1 | _ => set_resp_data o v r1 end).
  pose proof (only_bytes_rc o (rc_make RC_ST_LOCK 0) r Hs) as B1. fold r1 in B1.
  assert (slot_in o r1) as Hs1 by (unfold slot_in; by rewrite (proj1 (proj2 B1))).
  assert (only_bytes (o + 14) (Z.of_nat (length v)) r1 r2 /\ resp_data o (length v) r2 = v) as [B2 D2].
  { unfold r2. destruct v as [|b v]; [split; [apply only_bytes_refl|done]|].
    split.
    - destruct Hs1. unfold set_resp_data. apply only_bytes_splice; offsets; rewrite ?(proj1 (proj2 B1)); lia.
    - apply resp_data_set; [done| |done]. by rewrite (proj1 (proj2 B1)). }
  assert (slot_in o r2) as Hs2 by (unfold slot_in; by rewrite (proj1 (proj2 B2))).
  pose proof (only_bytes_rc o (rc_make RC_ST_READY 0) r2 Hs2) as B3.
  eexists. split; [reflexivity|]. split; [|split; [|split]].
  - assert (forall a b x y, only_bytes a b x y -> o + 8 <= a -> a + b <= o + 14 + Z.of_nat (length v) ->
      only_bytes (o + 8) (6 + Z.of_nat (length v)) x y) as Hw.
    { intros a b x y (? & ? & S) ? ?. split; [done|split; [done|]]. intros off k Hk. apply S. lia. }
    eapply only_bytes_trans; [eapply Hw; [exact B1|lia|lia]|].
    eapply only_bytes_trans; [eapply Hw; [exact B2|lia|lia]|]. eapply Hw; [exact B3|lia|lia].
  - rewrite resp_rc_set by done. apply i32_small. vm_compute. intuition congruence.
  - destruct Hs as [Hs _]. destruct (only_bytes_fields _ _ _ _ o B1) as (_ & _ & U1 & _); [done|].
    destruct (only_bytes_fields _ _ _ _ o B2) as (_ & _ & U2 & _); [done|].
    destruct (only_bytes_fields _ _ _ _ o B3) as (_ & _ & U3 & _); [done|].
    rewrite U3, U2, U1; [done|lia..].
  - destruct Hs as [Hs _]. destruct (only_bytes_fields _ _ _ _ o B3) as (_ & _ & _ & U3); [done|].
    rewrite U3; [done|lia].
Qed.

Lemma response_get_ready fuel obs i o sz : fuel <> O -> rc_st (resp_rc o (obs i)) = RC_ST_READY ->
  response_get_loop fuel obs i o sz = (rc_code (resp_rc o (obs i)), Some (resp_data o sz (obs i))).
Proof. intros Hf E. destruct fuel; [done|]. simpl. rewrite E. done. Qed.

(** A slot of a request the check accepts, with room for the response header. *)
Lemma slot_of r i : header_ok r -> libsrpc_req_is_corrupted (Some r) None = false ->
  sizeof_response <= retsz r -> 0 <= i < retnum r ->
  slot_in (slot_offset r i) r /\ retoff r <= slot_offset r i /\
  slot_offset r i + retsz r <= Z.of_nat (length (buf r)).
Proof.
  intros H Hc Hr Hi. pose proof (proj1 (not_corrupted r None) Hc) as (_ & _ & _ & _ & Hs).
  destruct (slot_bounds r i H Hs Hi) as [E Hl]. destruct H as [H1 H2 _ _ _].
  unfold slot_in, sizeof_response in *. rewrite E in *. repeat split; nia.
Qed.

(** (C38) Publishing an answer in an empty slot makes the waiting side read code 0 and
    exactly the bytes published, on its first look; the slot's addressee, the
    other slots, the arguments and the header stay as they were, and a second
    answer to the same slot is refused and changes nothing. *)
Theorem response_publish_roundtrip r i v ctrl :
  header_ok r -> libsrpc_req_is_corrupted (Some r) ctrl = false -> sizeof_response <= retsz r ->
  0 <= i < retnum r -> offsetof_response_buf + Z.of_nat (length v) <= retsz r ->
  resp_rc (slot_offset r i) r = 0 ->
  exists r', libsrpc_req_response_set r (slot_offset r i) ctrl v = (rc_make RC_ST_READY 0, r') /\
    rc_st (rc_make RC_ST_READY 0) = RC_ST_READY /\
    (forall obs, obs O = r' -> libsrpc_req_response_get obs (Some (slot_offset r i)) (length v) = (0, Some v)) /\
    resp_hp (slot_offset r i) r' = resp_hp (slot_offset r i) r /\
    resp_uid (slot_offset r i) r' = resp_uid (slot_offset r i) r /\
    (forall j, 0 <= j < retnum r -> j <> i ->
       slice (Z.to_nat (slot_offset r j)) (Z.to_nat (retsz r)) (buf r') =
       slice (Z.to_nat (slot_offset r j)) (Z.to_nat (retsz r)) (buf r)) /\
    slice 0 (Z.to_nat (retoff r)) (buf r') = slice 0 (Z.to_nat (retoff r)) (buf r) /\
    r' = set_buf (buf r') r /\
    forall w, libsrpc_req_response_set r' (slot_offset r i) ctrl w = (- EBUSY, r').
Proof.
  intros H Hc Hr Hi Hv Hrc.
  assert (libsrpc_req_is_corrupted (Some r) None = false) as Hc0.
  { apply not_corrupted. apply not_corrupted in Hc. tauto. }
  pose proof (proj1 (not_corrupted r None) Hc0) as (_ & _ & _ & _ & Hs).
  destruct (slot_of r i H Hc0 Hr Hi) as (Hin & Ha & Hb).
  destruct (response_set_ok r (slot_offset r i) ctrl v) as (r' & E & B & Erc & Eu & Ed); [done|lia|done|done|].
  set (o := slot_offset r i) in *. offsets. exists r'. split; [done|]. split; [by rewrite rc_st_make|].
  split; [|split; [|split; [done|split; [|split; [|split; [apply B|]]]]]].
  - intros obs <-. unfold libsrpc_req_response_get. rewrite response_get_ready; [|done|by rewrite Erc, rc_st_make].
    by rewrite Erc, rc_code_make, Ed.
  - destruct (only_bytes_fields _ _ _ _ o B) as (Hh & _); [lia|]. apply Hh. lia.
  - intros j Hj Hne. apply B. pose proof (slots_disjoint r i j H Hs Hi Hj ltac:(done)) as Hd.
    destruct (slot_of r j H Hc0 Hr Hj) as ([Hj0 _] & _). fold o in Hd.
    pose proof (h_retsz r H). lia.
  - apply B. pose proof (h_retoff r H). lia.
  - intros w. unfold libsrpc_req_response_set. rewrite (only_bytes_corrupted _ _ _ _ _ B), Hc.
    unfold cas_resp_rc. by rewrite Erc.
Qed.
Lemma response_publish_roundtrip_witness :
  exists r', libsrpc_req_response_set demo_request 32 (Some (control demo_request)) [1; 2; 3; 4] =
      (rc_make RC_ST_READY 0, r') /\
    libsrpc_req_response_get (fun _ => r') (Some 32) 4 = (0, Some [1; 2; 3; 4]).
Proof.
  destruct demo_request_ok as [H _].
  destruct (response_publish_roundtrip demo_request 1 [1; 2; 3; 4] (Some (control demo_request)) H)
    as (r' & E & _ & G & _); [vm_compute; reflexivity|vm_compute; congruence|vm_compute; intuition congruence
    |vm_compute; congruence|vm_compute; reflexivity|].
  exists r'. split; [exact E|]. exact (G (fun _ => r') eq_refl).
Defined.

(** ** The layout of a new request *)

Lemma ALIGNLONG_spec x : 0 <= x < 2 ^ 63 -> x <= ALIGNLONG x < x + 8 /\ ALIGNLONG x mod 8 = 0.
Proof.
  intros Hx. assert (ALIGNLONG x = (x + 7) / 8 * 8) as ->.
  { unfold ALIGNLONG. rewrite u64_small by lia. replace (x + 8 - 1) with (x + 7) by lia.
    replace ((x + 7) / 8 * 8) with (Z.shiftl (Z.shiftr (x + 7) 3) 3)
      by (rewrite Z.shiftl_mul_pow2, Z.shiftr_div_pow2 by lia; reflexivity).
    bit_intro i. change (8 - 1) with (2 ^ 3 - 1). rewrite testbit_mask by lia.
    destruct (Z.ltb_spec i 3).
    - rewrite (Z.testbit_neg_r _ (i - 3)) by lia. rewrite (proj2 (Z.ltb_lt i 64)) by lia. apply andb_false_r.
    - rewrite Z.shiftr_spec by lia. replace (i - 3 + 3) with i by lia.
      destruct (Z.ltb_spec i 64); simpl; [by rewrite andb_true_r|].
      rewrite (testbit_high 64 (x + 7)) by lia. done. }
  pose proof (Z.div_mod (x + 7) 8). pose proof (Z.mod_pos_bound (x + 7) 8).
  split; [lia|]. by rewrite Z.mod_mul.
Qed.

(** The block size leaves room for [size_t] and [unsigned int] arithmetic. *)
Definition layout_fits (reqlen rlen num : Z) : Prop :=
  0 <= reqlen /\ 0 <= rlen /\ 0 < num < 2 ^ 32 /\
  sizeof_request + (reqlen + 7) + (sizeof_response + rlen + 7) * num < 2 ^ 32.

Lemma req_layout_spec reqlen rlen num : layout_fits reqlen rlen num ->
  exists off rs, req_layout reqlen rlen num = (off, rs, sizeof_request + off + rs * num) /\
    reqlen <= off < reqlen + 8 /\ off mod 8 = 0 /\
    sizeof_response + rlen <= rs < sizeof_response + rlen + 8 /\ rs mod 8 = 0 /\
    sizeof_request + off + rs * num < 2 ^ 32.
Proof.
  intros (H1 & H2 & H3 & H4). unfold req_layout, sizeof_request, sizeof_response in *.
  destruct (ALIGNLONG_spec reqlen ltac:(nia)) as [A1 A2].
  destruct (ALIGNLONG_spec (u64 (16 + rlen)) ltac:(rewrite u64_small; nia)) as [B1 B2].
  rewrite u64_small in B1, B2 by nia. rewrite (u64_small (16 + rlen)) by nia.
  set (a := ALIGNLONG reqlen) in *. set (b := ALIGNLONG (16 + rlen)) in *.
  assert (16 + rlen + 7 < 2 ^ 32) by nia.
  assert (u32 a = a) as -> by (apply Z.mod_small; nia).
  assert (u32 b = b) as -> by (apply Z.mod_small; nia).
  assert (b * num <= (16 + rlen + 7) * num) by nia.
  rewrite (u64_small (b * num)) by nia. rewrite u64_small by nia.
  exists a, b. repeat split; try lia.
Qed.

(** The request [libsrpc_req_alloc] makes of a zeroed block of [cap] buffer bytes. *)
Definition fresh_request (fid seq reqlen rlen num : Z) (locks : list Z) (cap : nat) : request :=
  let '(off, rs, sz) := req_layout reqlen rlen num in
  Request 0 NULL LIBSRPC_REQ_SIGN seq locks fid (u32 (u64 (sz * 2))) off rs num (replicate cap 0).

(** Every response of a request laid out by [libsrpc_req_alloc] in a block aligned
    for the cache line starts at an address that is 4 modulo 8, because [buf] starts
    at offset 92: the atomic pointer [hp_proc] at its start is never naturally
    aligned, and for offsets that are 32 modulo 64 it straddles two cache lines. *)
Theorem slots_are_misaligned r reqlen rlen num block i o :
  layout_fits reqlen rlen num ->
  req_layout reqlen rlen num = (retoff r, retsz r, req_size r) -> retnum r = num ->
  block mod 64 = 0 -> 0 <= i ->
  libsrpc_req_get_response_fast (Some r) i = Some o ->
  let a := block + offsetof_request_buf + o in
  a mod 8 = 4 /\ (o mod 64 = 32 -> a mod 64 = 60 /\ a / 64 <> (a + 7) / 64).
Proof.
  intros Hf El Hn Hb Hi E. apply get_response_fast_some in E as (_ & Hlt & ->). cbn zeta.
  destruct (req_layout_spec _ _ _ Hf) as (off & rs & E & H1 & H2 & H3 & H4 & H5).
  rewrite E in El. injection El as -> -> _. subst num. unfold sizeof_request, sizeof_response, offsetof_request_buf in *.
  destruct Hf as (Hq1 & Hq2 & Hq3 & _).
  unfold slot_offset. assert (0 <= retsz r * i /\ retsz r * i + retsz r <= retsz r * retnum r) as Hm by nia.
  unfold u32. rewrite !(Z.mod_small (retsz r * i)) by lia. rewrite !(Z.mod_small (retoff r + retsz r * i)) by lia.
  assert ((retoff r + retsz r * i) mod 8 = 0) as Ho.
  { rewrite Z.add_mod, H2, Z.mul_mod, H4 by lia. done. }
  set (o := retoff r + retsz r * i) in *. split.
  - Z.div_mod_to_equations. lia.
  - intros E32. assert ((block + 92 + o) mod 64 = 60) as E60 by (Z.div_mod_to_equations; lia).
    split; [done|]. Z.div_mod_to_equations. lia.
Qed.
Lemma slots_are_misaligned_witness :
  let a := 0x200000000000 + offsetof_request_buf + 32 in a mod 8 = 4 /\ a / 64 <> (a + 7) / 64.
Proof.
  destruct (slots_are_misaligned demo_request 8 4 2 0x200000000000 1 32) as [H1 H2];
    [vm_compute; intuition congruence|vm_compute; reflexivity|reflexivity|reflexivity|lia|vm_compute; reflexivity|].
  split; [exact H1|exact (proj2 (H2 eq_refl))].
Defined.
