(* ===== verification/Marshal.v ===== *)
(** Serialisation of call arguments: the code the macros [M_REQSIZE], [M_BODYFUN]
    (caller) and [M_EXTRACTFUN] (worker) expand to for one RPC function. *)
From S2P Require Import Prelude Machine Errno Bytes Request RequestSpec.

(** An argument is the bytes of its object; [sizes] are the [sizeof] of the
    parameter types. *)

(** [M_REQSIZE] *)
Definition M_REQSIZE (sizes : list nat) : nat := foldr Nat.add 0%nat sizes.

(** [M_BODYFUN]: [memcpy(&req->buf[pos], &v, sizeof(v)); pos += sizeof(v);] for each
    parameter. *)
Fixpoint M_BODYFUN (args : list (list Z)) (pos : nat) (b : list Z) : nat * list Z :=
  match args with
  | [] => (pos, b)
  | v :: args => M_BODYFUN args (pos + length v) (splice pos v b)
  end.

(** [M_EXTRACTFUN]: [memcpy(&v, &req->buf[pos], sizeof(v)); pos += sizeof(v);] *)
Fixpoint M_EXTRACTFUN (sizes : list nat) (pos : nat) (b : list Z) : nat * list (list Z) :=
  match sizes with
  | [] => (pos, [])
  | n :: sizes =>
      let '(pos', vs) := M_EXTRACTFUN sizes (pos + n) b in (pos', slice pos n b :: vs)
  end.

Lemma size_cons v (args : list (list Z)) :
  M_REQSIZE (length <$> v :: args) = (length v + M_REQSIZE (length <$> args))%nat.
Proof. done. Qed.

Lemma bodyfun_spec args : forall pos b, (pos + M_REQSIZE (length <$> args) <= length b)%nat ->
  exists b', M_BODYFUN args pos b = ((pos + M_REQSIZE (length <$> args))%nat, b') /\
    length b' = length b /\
    forall i, (i < pos \/ pos + M_REQSIZE (length <$> args) <= i)%nat -> b' !! i = b !! i.
Proof.
  induction args as [|v args IH]; intros pos b Hb; rewrite ?size_cons in *.
  { exists b. simpl. rewrite Nat.add_0_r. done. }
  destruct (IH (pos + length v)%nat (splice pos v b)) as (b' & E & L & H).
  { rewrite length_splice; lia. }
  exists b'. rewrite length_splice in L by lia. simpl. rewrite E. split; [f_equal; lia|]. split; [done|].
  intros i Hi. rewrite H by lia. rewrite lookup_splice by lia. rewrite decide_False by lia. done.
Qed.

Lemma extract_ext sizes : forall pos b b',
  (forall i, (pos <= i < pos + M_REQSIZE sizes)%nat -> b' !! i = b !! i) ->
  M_EXTRACTFUN sizes pos b' = M_EXTRACTFUN sizes pos b.
Proof.
  induction sizes as [|n sizes IH]; intros pos b b' H; simpl in *; [done|].
  rewrite (IH (pos + n)%nat b b') by (intros i Hi; apply H; lia).
  destruct (M_EXTRACTFUN sizes (pos + n) b). do 2 f_equal. apply list_eq. intros i.
  rewrite !lookup_slice. destruct (decide (i < n)%nat); [|done]. apply H. lia.
Qed.

Lemma marshal_at args : forall pos b, (pos + M_REQSIZE (length <$> args) <= length b)%nat ->
  M_EXTRACTFUN (length <$> args) pos (M_BODYFUN args pos b).2 =
    ((pos + M_REQSIZE (length <$> args))%nat, args).
Proof.
  induction args as [|v args IH]; intros pos b Hb; [by rewrite Nat.add_0_r|].
  rewrite size_cons in *. simpl.
  rewrite IH by (rewrite length_splice; lia).
  destruct (bodyfun_spec args (pos + length v) (splice pos v b)) as (b' & E & _ & H).
  { rewrite length_splice; lia. }
  rewrite E. simpl. f_equal; [lia|]. f_equal. apply list_eq. intros i. rewrite lookup_slice.
  destruct (decide (i < length v)%nat) as [Hi|Hi].
  - rewrite H by lia. rewrite lookup_splice by lia. rewrite decide_True by lia. f_equal. lia.
  - symmetry. apply lookup_ge_None. lia.
Qed.

(** (C39) The worker extracts exactly the arguments the caller copied in, both sides end
    at [M_REQSIZE], so the caller's length check never fires; the copy stays below
    [retoff], and the exchange is unaffected by anything written to the response
    slots in between. *)
Theorem marshal_roundtrip r (args : list (list Z)) b'' :
  header_ok r -> libsrpc_req_is_corrupted (Some r) None = false ->
  Z.of_nat (M_REQSIZE (length <$> args)) <= retoff r ->
  (forall i, (i < Z.to_nat (retoff r))%nat -> b'' !! i = (M_BODYFUN args 0 (buf r)).2 !! i) ->
  (M_BODYFUN args 0 (buf r)).1 = M_REQSIZE (length <$> args) /\
  length (M_BODYFUN args 0 (buf r)).2 = length (buf r) /\
  (forall i, (Z.to_nat (retoff r) <= i)%nat -> (M_BODYFUN args 0 (buf r)).2 !! i = buf r !! i) /\
  M_EXTRACTFUN (length <$> args) 0 b'' = (M_REQSIZE (length <$> args), args).
Proof.
  intros H Hc Hr Hb. pose proof (proj1 (not_corrupted r None) Hc) as (_ & _ & Hn & _ & Hs).
  destruct (slot_bounds r 0 H Hs) as [E0 Hl]; [destruct H; lia|]. destruct H as [H1 H2 _ _ _].
  assert (0 + M_REQSIZE (length <$> args) <= length (buf r))%nat as Hfit by lia.
  destruct (bodyfun_spec args 0 (buf r) Hfit) as (b' & E & L & Hi).
  pose proof (marshal_at args 0 (buf r) Hfit) as Hm. rewrite E in *. cbn [fst snd] in *.
  split; [done|]. split; [done|]. split.
  - intros i Hi'. apply Hi. lia.
  - rewrite (extract_ext _ 0 b' b''); [exact Hm|]. intros i Hi'. apply Hb. lia.
Qed.
Lemma marshal_roundtrip_witness :
  let b := (M_BODYFUN [[1; 2; 3; 4]; [5; 6; 7; 8]] 0 (buf demo_request)).2 in
  M_EXTRACTFUN [4%nat; 4%nat] 0 (buf (set_resp_rc 8 (rc_make RC_ST_READY 0) (set_buf b demo_request))) =
    (8%nat, [[1; 2; 3; 4]; [5; 6; 7; 8]]).
Proof.
  destruct demo_request_ok as [H Hc].
  destruct (marshal_roundtrip demo_request [[1; 2; 3; 4]; [5; 6; 7; 8]]
    (buf (set_resp_rc 8 (rc_make RC_ST_READY 0) (set_buf (M_BODYFUN [[1; 2; 3; 4]; [5; 6; 7; 8]] 0 (buf demo_request)).2 demo_request)))
    H Hc) as (_ & _ & _ & E).
  - vm_compute; congruence.
  - intros i Hi. unfold set_resp_rc. cbn [buf set_buf]. unfold set_word. rewrite lookup_splice by (vm_compute; lia).
    rewrite decide_False; [done|]. change (Z.to_nat (retoff demo_request)) with 8%nat in Hi.
    change (Z.to_nat (8 + offsetof_response_rc)) with 16%nat. lia.
  - exact E.
Defined.
