(* ===== verification/World.v ===== *)
(** The state the RPC code of one thread works on: the shared segment (processes,
    requests, function registry, lists, TLSF pool) and the thread's own variables,
    with the operations of the other components lifted to it. *)
From S2P Require Import Prelude Machine Errno Bytes Request.
From S2P Require TlsfTypes TlsfApi MpmcQueue ListSpin.

(** ** Shared objects *)

Definition LIBSRPC_PROC_SIGN := 0xEF1212EF.
Definition PROC_STATUS_INIT := 0.
Definition PROC_STATUS_RUN := 1.
Definition PROC_STATUS_STOP := 2.
Definition PROC_STATUS_ERROR := 3.
Definition PROC_STATUS_EXIT := 4.
Definition PROC_STATUS_DEAD := 5.
Definition PROC_STATUS_DELETE := 6.
Definition DAEMON_PROC_UID := 1.

(** [libsrpc_proc_t] without its list node and list head; [hp_reqs] are the hazard
    pointers of its [threads_num] threads, [p_sem] the value of [sem_wakeup]. *)
Record proc := Proc {
  p_sign : Z;
  p_status : Z;
  proc_uid : Z;
  p_pid : Z;
  threads_run : Z;
  threads_wait : Z;
  p_sem : Z;
  p_queue : MpmcQueue.lf_mpmc_queue;
  hp_reqs : list Z }.
Definition threads_num (p : proc) : nat := length (hp_reqs p).

Definition set_p_sign v p := Proc v (p_status p) (proc_uid p) (p_pid p) (threads_run p) (threads_wait p) (p_sem p) (p_queue p) (hp_reqs p).
Definition set_p_status v p := Proc (p_sign p) v (proc_uid p) (p_pid p) (threads_run p) (threads_wait p) (p_sem p) (p_queue p) (hp_reqs p).
Definition set_threads_run v p := Proc (p_sign p) (p_status p) (proc_uid p) (p_pid p) v (threads_wait p) (p_sem p) (p_queue p) (hp_reqs p).
Definition set_threads_wait v p := Proc (p_sign p) (p_status p) (proc_uid p) (p_pid p) (threads_run p) v (p_sem p) (p_queue p) (hp_reqs p).
Definition set_p_sem v p := Proc (p_sign p) (p_status p) (proc_uid p) (p_pid p) (threads_run p) (threads_wait p) v (p_queue p) (hp_reqs p).
Definition set_p_queue v p := Proc (p_sign p) (p_status p) (proc_uid p) (p_pid p) (threads_run p) (threads_wait p) (p_sem p) v (hp_reqs p).
Definition set_hp_reqs v p := Proc (p_sign p) (p_status p) (proc_uid p) (p_pid p) (threads_run p) (threads_wait p) (p_sem p) (p_queue p) v.

Definition libsrpc_proc_set_run (p : proc) : proc := set_p_status PROC_STATUS_RUN p.
Definition libsrpc_proc_set_stop (p : proc) : proc := set_p_status PROC_STATUS_STOP p.
Definition libsrpc_proc_is_valid (p : proc) : bool :=
  (p_sign p =? LIBSRPC_PROC_SIGN) && (p_status p =? PROC_STATUS_RUN).

(** [srpc_regfn_ext_block_t]; [eb_proc] are the pointer cells its block holds, of
    which the code uses the first [szfn]. *)
Record ext_block := ExtBlock {
  eb_sign : Z;
  szfn : Z;
  eb_size : Z;
  eb_proc : list Z }.

(** [libsrpc_rpc_func_t]; [main_block] are its [LIBSRPC_RFMB_SZ] cells. *)
Definition LIBSRPC_RFMB_SZ := 8.
Record rpc_func := RpcFunc {
  num_all : Z;
  ext_ptr : Z;
  main_block : list Z }.

(** ** Thread-local and process-local variables *)
Record local := Local {
  simplerpc_data : Z;          (* the library's data, &srpc from the start *)
  shm_ptr : Z;                 (* simplerpc_data->shmempool.shm, NULL before the segment is mapped *)
  my_proc : Z;                 (* simplerpc_data->proc *)
  my_uid : Z;                  (* simplerpc_data->proc_uid *)
  rpc_enable : bool;
  srpc_disable_rpc_recursion : bool;
  current_req : Z;
  rpc_timeout_oneshot : Z;
  rpc_timeout : list Z;
  rpc_timeout_global : Z;
  req_seq_num : Z;
  libsrpc_errno : Z }.

Record world := World {
  lists : ListSpin.list_store;
  reqs : gmap Z request;
  procs : gmap Z proc;
  ebs : gmap Z ext_block;
  funcs : list rpc_func;
  req_send_rr : list Z;
  pool : TlsfTypes.tlsf;
  gc_sem : Z;                  (* shm->gc.sem_wakeup *)
  loc : local }.

Definition set_lists v w := World v (reqs w) (procs w) (ebs w) (funcs w) (req_send_rr w) (pool w) (gc_sem w) (loc w).
Definition set_reqs v w := World (lists w) v (procs w) (ebs w) (funcs w) (req_send_rr w) (pool w) (gc_sem w) (loc w).
Definition set_procs v w := World (lists w) (reqs w) v (ebs w) (funcs w) (req_send_rr w) (pool w) (gc_sem w) (loc w).
Definition set_ebs v w := World (lists w) (reqs w) (procs w) v (funcs w) (req_send_rr w) (pool w) (gc_sem w) (loc w).
Definition set_funcs v w := World (lists w) (reqs w) (procs w) (ebs w) v (req_send_rr w) (pool w) (gc_sem w) (loc w).
Definition set_rr v w := World (lists w) (reqs w) (procs w) (ebs w) (funcs w) v (pool w) (gc_sem w) (loc w).
Definition set_pool v w := World (lists w) (reqs w) (procs w) (ebs w) (funcs w) (req_send_rr w) v (gc_sem w) (loc w).
Definition set_gc_sem v w := World (lists w) (reqs w) (procs w) (ebs w) (funcs w) (req_send_rr w) (pool w) v (loc w).
Definition set_loc v w := World (lists w) (reqs w) (procs w) (ebs w) (funcs w) (req_send_rr w) (pool w) (gc_sem w) v.

Definition set_no_recursion v l := Local (simplerpc_data l) (shm_ptr l) (my_proc l) (my_uid l) (rpc_enable l) v (current_req l) (rpc_timeout_oneshot l) (rpc_timeout l) (rpc_timeout_global l) (req_seq_num l) (libsrpc_errno l).
Definition set_current_req v l := Local (simplerpc_data l) (shm_ptr l) (my_proc l) (my_uid l) (rpc_enable l) (srpc_disable_rpc_recursion l) v (rpc_timeout_oneshot l) (rpc_timeout l) (rpc_timeout_global l) (req_seq_num l) (libsrpc_errno l).
Definition set_oneshot v l := Local (simplerpc_data l) (shm_ptr l) (my_proc l) (my_uid l) (rpc_enable l) (srpc_disable_rpc_recursion l) (current_req l) v (rpc_timeout l) (rpc_timeout_global l) (req_seq_num l) (libsrpc_errno l).
Definition set_timeout v l := Local (simplerpc_data l) (shm_ptr l) (my_proc l) (my_uid l) (rpc_enable l) (srpc_disable_rpc_recursion l) (current_req l) (rpc_timeout_oneshot l) v (rpc_timeout_global l) (req_seq_num l) (libsrpc_errno l).
Definition set_timeout_global v l := Local (simplerpc_data l) (shm_ptr l) (my_proc l) (my_uid l) (rpc_enable l) (srpc_disable_rpc_recursion l) (current_req l) (rpc_timeout_oneshot l) (rpc_timeout l) v (req_seq_num l) (libsrpc_errno l).
Definition set_req_seq v l := Local (simplerpc_data l) (shm_ptr l) (my_proc l) (my_uid l) (rpc_enable l) (srpc_disable_rpc_recursion l) (current_req l) (rpc_timeout_oneshot l) (rpc_timeout l) (rpc_timeout_global l) v (libsrpc_errno l).
Definition set_libsrpc_errno v l := Local (simplerpc_data l) (shm_ptr l) (my_proc l) (my_uid l) (rpc_enable l) (srpc_disable_rpc_recursion l) (current_req l) (rpc_timeout_oneshot l) (rpc_timeout l) (rpc_timeout_global l) (req_seq_num l) v.

Abbreviation WM := (M world).

(** ** Access to the objects; a dereference of anything else faults *)

Definition getl {A} (f : local -> A) : WM A := gets (fun w => f (loc w)).
Definition modl (f : local -> local) : WM unit := modify (fun w => set_loc (f (loc w)) w).
Definition errno_set (e : Z) : WM unit := modl (set_libsrpc_errno e).

Definition deref {A} (f : world -> gmap Z A) (a : Z) : WM A := fun w =>
  match f w !! a with Some x => Ret x w | None => Fault end.
Definition get_req : Z -> WM request := deref reqs.
Definition get_proc : Z -> WM proc := deref procs.
Definition get_eb : Z -> WM ext_block := deref ebs.
Definition put_req (a : Z) (x : request) : WM unit := modify (fun w => set_reqs (<[a := x]> (reqs w)) w).
Definition put_proc (a : Z) (x : proc) : WM unit := modify (fun w => set_procs (<[a := x]> (procs w)) w).
Definition put_eb (a : Z) (x : ext_block) : WM unit := modify (fun w => set_ebs (<[a := x]> (ebs w)) w).
Definition upd_req (a : Z) (f : request -> request) : WM unit := x ← get_req a; put_req a (f x).
Definition upd_proc (a : Z) (f : proc -> proc) : WM unit := x ← get_proc a; put_proc a (f x).

(** A pointer that may be NULL, as the checks of [libsrpc_local.h] take it. *)
Definition req_or_null (a : Z) : WM (option request) :=
  if a =? NULL then mret None else x ← get_req a; mret (Some x).

Definition get_func (i : Z) : WM rpc_func := fun w =>
  if i <? 0 then Fault
  else match funcs w !! Z.to_nat i with Some x => Ret x w | None => Fault end.
Definition put_func (i : Z) (x : rpc_func) : WM unit :=
  modify (fun w => set_funcs (<[Z.to_nat i := x]> (funcs w)) w).

(** ** Operations of the other components *)

Definition lift_list {A} (m : M ListSpin.list_store A) : WM A := fun w =>
  match m (lists w) with
  | Ret a s => Ret a (set_lists s w)
  | Fault => Fault
  | Hang => Hang
  | Crash s => Crash (set_lists s w)
  end.
Definition lift_pool {A} (m : M TlsfTypes.tlsf A) : WM A := fun w =>
  match m (pool w) with
  | Ret a s => Ret a (set_pool s w)
  | Fault => Fault
  | Hang => Hang
  | Crash s => Crash (set_pool s w)
  end.

(** The list nodes of a process and of a request are their first fields; the head
    of a process's request list is at its offset; the process list of the segment
    is at its own address. *)
Definition node_of (a : Z) : Z := a.
Definition REQ_HEAD_OFF := 72.
Definition req_head_of (p : Z) : Z := p + REQ_HEAD_OFF.
Definition PROC_HEAD_OFF := 456.
Definition proc_head_of (shm : Z) : Z := shm + PROC_HEAD_OFF.
Definition GC_LIST_OFF := 520.
Definition gc_list_of (shm : Z) : Z := shm + GC_LIST_OFF.
Definition POOL_OFF := 576.
Definition poolptr_of (shm : Z) : Z := shm + POOL_OFF.

(** [LIBSRPC_LIST_FOREACH] whose body may leave the loop with a value. *)
Fixpoint foreach_until {R} (fuel : nat) (cur : Z) (body : Z -> WM (option R)) : WM (option R) :=
  if cur =? NULL then mret None
  else
    match fuel with
    | O => hang
    | S fuel =>
        r ← body cur;
        match r with
        | Some r => mret (Some r)
        | None => x ← lift_list (ListSpin.get_node cur); foreach_until fuel (ListSpin.next x) body
        end
    end.
Definition list_foreach_until {R} (fuel : nat) (head : Z) (body : Z -> WM (option R)) : WM (option R) :=
  hd ← lift_list (ListSpin.get_head head); foreach_until fuel (ListSpin.first hd) body.

(** [for(i = 0; i < n; i++)] whose body may leave the loop with a value. *)
Fixpoint for_until {S R} (n : nat) (i : Z) (body : Z -> M S (option R)) : M S (option R) :=
  match n with
  | O => mret None
  | S n =>
      r ← body i;
      match r with Some r => mret (Some r) | None => for_until n (i + 1) body end
  end.

(** The queue of a process: each call runs without interference (the interleaved
    behaviour is that of [MpmcSpec]). *)
Section queue_ops.
Context (cap : Z).
Definition queue_fuel : nat := Z.to_nat (4 * cap + 8).
Definition queue_try_enqueue (p r : Z) : WM MpmcQueue.lf_queue_result :=
  x ← get_proc p;
  let '(q, c) := MpmcQueue.lf_mpmc_queue_try_enqueue cap queue_fuel (p_queue x) r in
  put_proc p (set_p_queue q x) ;;
  match c with MpmcQueue.EnqDone res => mret res | _ => hang end.
Definition queue_try_dequeue (p : Z) : WM (MpmcQueue.lf_queue_result * Z) :=
  x ← get_proc p;
  let '(q, c) := MpmcQueue.lf_mpmc_queue_try_dequeue cap queue_fuel (p_queue x) in
  put_proc p (set_p_queue q x) ;;
  match c with MpmcQueue.DeqDone res v => mret (res, v) | _ => hang end.
Definition queue_try_find (p r : Z) : WM MpmcQueue.lf_queue_result :=
  x ← get_proc p;
  let '(_, c) := MpmcQueue.lf_mpmc_queue_try_find_ptr cap queue_fuel (p_queue x) r in
  match c with MpmcQueue.FndDone res => mret res | _ => hang end.
End queue_ops.

(** [sem_post], within the range of the semaphore's [int] value. *)
Definition sem_post_req (a : Z) : WM unit := upd_req a (fun r => set_sem (sem_wakeup r + 1) r).
Definition sem_post_proc (a : Z) : WM unit := upd_proc a (fun p => set_p_sem (p_sem p + 1) p).

(** [libsrpc_shmem_get] *)
Definition libsrpc_shmem_get : WM Z :=
  d ← getl simplerpc_data;
  s ← getl shm_ptr;
  if (d =? NULL) || (s =? NULL) then mret NULL else mret s.
