(* ===== verification/Shmem.v ===== *)
(** The shared-memory allocation API ([libsrpc_shmem.c]): the TLSF calls made on
    behalf of the calling process, and the substituted [malloc] family of
    [libsrpc.c]. *)
From S2P Require Import Prelude Machine Errno World.
From S2P Require ListSpin TlsfTypes TlsfApi TlsfHoare TlsfOwners TlsfOwnership TlsfSpec.

(** [libsrpc_shm_data_type_t] *)
Definition SHMDT_USER := 0.
Definition SHMDT_PROC := 1.
Definition SHMDT_REGFN := 2.
Definition SHMDT_REQUEST := 3.
Definition SHMDT_MAX := 4.

(** The prologue shared by the calls: the uid of the process and the segment, or
    an error number and [fail]. *)
Definition with_pool {A} (fail : A) (k : Z -> Z -> WM A) : WM A :=
  shm ← libsrpc_shmem_get;
  d ← getl simplerpc_data;
  if d =? NULL then errno_set ELIBNOINIT ;; mret fail
  else
    uid ← getl my_uid;
    if shm =? NULL then errno_set ESHMNOINIT ;; mret fail
    else k (poolptr_of shm) uid.

(** [__libsrpc_errno_set(tlsf_get_errno(...))] *)
Definition take_tlsf_errno : WM unit := e ← lift_pool TlsfApi.tlsf_get_errno; errno_set e.

Definition libsrpc_shmem_malloc_type (size type : Z) : WM Z :=
  with_pool NULL (fun tlsf uid =>
    ptr ← lift_pool (TlsfApi.tlsf_malloc tlsf size uid type);
    take_tlsf_errno ;;
    mret ptr).
Definition libsrpc_shmem_malloc (size : Z) : WM Z := libsrpc_shmem_malloc_type size SHMDT_USER.
Definition libsrpc_shmem_calloc_type (num size type : Z) : WM Z :=
  with_pool NULL (fun tlsf uid =>
    ptr ← lift_pool (TlsfApi.tlsf_calloc tlsf num size uid type);
    take_tlsf_errno ;;
    mret ptr).
Definition libsrpc_shmem_calloc (num size : Z) : WM Z := libsrpc_shmem_calloc_type num size SHMDT_USER.
Definition libsrpc_shmem_realloc (ptr newsize : Z) : WM Z :=
  with_pool NULL (fun tlsf uid =>
    nptr ← lift_pool (TlsfApi.tlsf_realloc tlsf ptr newsize uid);
    take_tlsf_errno ;;
    mret nptr).
Definition libsrpc_shmem_free (ptr : Z) : WM unit :=
  with_pool tt (fun tlsf uid =>
    lift_pool (TlsfApi.tlsf_free tlsf ptr uid) ;;
    take_tlsf_errno).

Definition libsrpc_shmem_free_dc (ptr : Z) : WM unit :=
  shm ← libsrpc_shmem_get;
  if shm =? NULL then errno_set ESHMNOINIT
  else
    rc ← lift_pool (TlsfApi.tlsf_setdc (poolptr_of shm) ptr);
    errno_set rc.

Definition libsrpc_shmem_link (ptr : Z) : WM Z :=
  shm ← libsrpc_shmem_get;
  d ← getl simplerpc_data;
  if (ptr =? NULL) || (d =? NULL) || (shm =? NULL) then mret (- EINVAL)
  else
    uid ← getl my_uid;
    rc ← lift_pool (TlsfApi.tlsf_link (poolptr_of shm) ptr uid);
    (if rc <? 0 then errno_set rc else mret tt) ;;
    mret rc.

(** [libsrpc_shmem_get_size]; the value stored through [psz] is the second result. *)
Definition libsrpc_shmem_get_size (ptr : Z) : WM (Z * option Z) :=
  shm ← libsrpc_shmem_get;
  if shm =? NULL then mret (- EINVAL, None)
  else
    sz ← lift_pool (TlsfApi.tlsf_get_block_size (poolptr_of shm) ptr);
    rc ← lift_pool TlsfApi.tlsf_get_errno;
    mret (rc, Some sz).

(** ** The substituted allocator of [libsrpc.c] *)

Inductive alloc_choice := SRPC_ALLOC_STD | SRPC_ALLOC_SHM.

(** [en_allocator] and the thread's [switch_allocator], with the C library's
    functions as parameters. *)
Section substitution.
Context (real_malloc : Z -> WM Z) (real_calloc real_realloc : Z -> Z -> WM Z) (real_free : Z -> WM unit).
Context (en_allocator : bool) (switch_allocator : alloc_choice).

Definition use_shm : bool :=
  en_allocator && match switch_allocator with SRPC_ALLOC_SHM => true | SRPC_ALLOC_STD => false end.
Definition malloc (size : Z) : WM Z :=
  if negb en_allocator then real_malloc size
  else match switch_allocator with SRPC_ALLOC_SHM => libsrpc_shmem_malloc size | SRPC_ALLOC_STD => real_malloc size end.
Definition calloc (num size : Z) : WM Z :=
  if negb en_allocator then real_calloc num size
  else match switch_allocator with SRPC_ALLOC_SHM => libsrpc_shmem_calloc num size | SRPC_ALLOC_STD => real_calloc num size end.
Definition realloc (oldptr newsize : Z) : WM Z :=
  if negb en_allocator then real_realloc oldptr newsize
  else match switch_allocator with SRPC_ALLOC_SHM => libsrpc_shmem_realloc oldptr newsize | SRPC_ALLOC_STD => real_realloc oldptr newsize end.
Definition free (ptr : Z) : WM unit :=
  if negb en_allocator then real_free ptr
  else match switch_allocator with SRPC_ALLOC_SHM => libsrpc_shmem_free ptr | SRPC_ALLOC_STD => real_free ptr end.
End substitution.

(** ** Sharing a block between processes *)

(** The segment is mapped and no pool operation is in progress. *)
Definition mapped_quiet (w : world) : Prop :=
  simplerpc_data (loc w) <> NULL /\ shm_ptr (loc w) <> NULL /\ poolptr_of (shm_ptr (loc w)) <> NULL /\
  TlsfOwnership.quiet (pool w) /\ TlsfTypes.life (TlsfTypes.thr (pool w)) = None.

Lemma owner_stays uid u us : uid <> u -> uid ∈ us -> uid ∈ TlsfOwnership.drop_owner u us.
Proof.
  intros Hne Hin. unfold TlsfOwnership.drop_owner. apply list_elem_of_fmap. exists uid.
  by rewrite (proj2 (Z.eqb_neq uid u)).
Qed.
Lemma owners_nonempty uid us : uid <> 0 -> uid ∈ us -> TlsfOwnership.owners us <> [].
Proof.
  intros Hu Hin E. assert (uid ∈ TlsfOwnership.owners us) as H by (apply list_elem_of_filter; done).
  rewrite E in H. by apply not_elem_of_nil in H.
Qed.

Lemma shmem_link_run w b : mapped_quiet w -> TlsfOwnership.live (pool w) b -> 0 < my_uid (loc w) < 2 ^ 16 ->
  exists s1, libsrpc_shmem_link (b + TlsfTypes.HEADER_SIZE) w =
      Ret (TlsfOwnership.link_model (TlsfOwners.uids (TlsfTypes.mem (pool w)) b) (my_uid (loc w))).1
        (let w1 := set_pool s1 w in
         let rc := (TlsfOwnership.link_model (TlsfOwners.uids (TlsfTypes.mem (pool w)) b) (my_uid (loc w))).1 in
         if rc <? 0 then set_loc (set_libsrpc_errno rc (loc w1)) w1 else w1) /\
    TlsfOwnership.quiet s1 /\ TlsfHoare.same_world (pool w) s1 /\
    TlsfTypes.mem s1 = TlsfOwnership.link_mem (TlsfTypes.mem (pool w)) b (my_uid (loc w)).
Proof.
  intros (Hd & Hs & Hh & Hq & Hn) Hl Hu.
  destruct (TlsfOwners.wp_alive _ _ _ (pool w) Hn (TlsfOwnership.wp_tlsf_link (pool w) (poolptr_of (shm_ptr (loc w))) b
    (my_uid (loc w)) Hq Hl Hh Hu)) as (rc & s1 & E & Hq1 & Hw & Em & Erc).
  exists s1. split; [|done].
  destruct (TlsfOwnership.block_of_ptr (pool w) b) as [_ Hp]; [apply Hq|apply Hl|apply Hl|].
  apply Z.eqb_neq in Hd, Hs, Hp.
  unfold libsrpc_shmem_link, libsrpc_shmem_get, mbind, M_bind, getl, gets.
  rewrite Hd, Hs. cbn [orb mret M_ret]. cbv beta. rewrite Hp, Hd, Hs. cbn [orb]. cbv beta.
  unfold lift_pool. rewrite E, <- Erc. destruct (rc <? 0); done.
Qed.

(** Once a process has linked a block, any other owner may free it or leave: the
    block stays allocated and the linking process stays among its owners. *)
Theorem linked_block_survives w b u w1 :
  mapped_quiet w -> TlsfOwnership.live (pool w) b -> 0 < my_uid (loc w) < 2 ^ 16 ->
  u <> 0 -> u <> my_uid (loc w) -> u ∈ TlsfOwners.uids (TlsfTypes.mem (pool w)) b ->
  libsrpc_shmem_link (b + TlsfTypes.HEADER_SIZE) w = Ret 0 w1 ->
  exists s2, TlsfApi.tlsf_free (poolptr_of (shm_ptr (loc w))) (b + TlsfTypes.HEADER_SIZE) u (pool w1) = Ret tt s2 /\
    TlsfOwnership.live s2 b /\ my_uid (loc w) ∈ TlsfOwners.uids (TlsfTypes.mem s2) b /\
    u ∉ TlsfOwners.uids (TlsfTypes.mem s2) b.
Proof.
  intros Hw Hl Hu Hu0 Hne Hin E. destruct (shmem_link_run w b Hw Hl Hu) as (s1 & E1 & Hq1 & Hs1 & Em).
  rewrite E1 in E. injection E as Hrc <-. rewrite Hrc. cbn [Z.ltb Z.compare pool set_pool].
  destruct Hw as (_ & _ & Hh & Hq & Hn).
  pose proof (TlsfOwnership.link_mem_uids (TlsfTypes.mem (pool w)) b (my_uid (loc w)) ltac:(apply Hq) Hu) as [Hu1 Ho1].
  destruct (TlsfSpec.link_model_undo _ _ Hrc) as [Hmem Hdrop]. rewrite <- Hu1, <- Em in Hmem, Hdrop.
  rewrite <- Em in Ho1. assert (TlsfOwnership.live s1 b) as Hl1 by (eapply TlsfSpec.same_but_owners_live; [done|apply Hs1|done]).
  assert (u ∈ TlsfOwners.uids (TlsfTypes.mem s1) b) as Hin1.
  { rewrite <- Hdrop in Hin. unfold TlsfOwnership.drop_owner in Hin. apply list_elem_of_fmap in Hin as (x & -> & Hx).
    destruct (x =? my_uid (loc w)); done. }
  pose proof (owner_stays _ u _ (not_eq_sym Hne) Hmem) as Hstay.
  destruct (TlsfOwners.wp_alive _ _ _ s1 ltac:(apply Hs1; done) (TlsfOwnership.wp_tlsf_free_shared s1
    (poolptr_of (shm_ptr (loc w))) b u Hq1 Hl1 Hh Hu0 Hin1 (owners_nonempty (my_uid (loc w)) _ ltac:(lia) Hstay)))
    as ([] & s2 & E2 & Hq2 & Hs2 & Hr2 & Ho2).
  exists s2. split; [exact E2|]. split; [eapply TlsfSpec.same_but_owners_live; [done|apply Hs2|done]|].
  rewrite Hr2. split; [done|]. intros Hbad. unfold TlsfOwnership.drop_owner in Hbad.
  apply list_elem_of_fmap in Hbad as (x & Ex & _). destruct (Z.eqb_spec x u); congruence.
Qed.
(** A process with uid 11 that has mapped the segment of the demonstration pool. *)
Definition demo_world : world :=
  World (ListSpin.LStore ∅ ∅) ∅ ∅ ∅ [] [] TlsfSpec.demo 0
    (Local 1 (TlsfSpec.demo_pool - POOL_OFF) 0 11 true false 0 0 [] 0 0 0).
Lemma linked_block_survives_witness :
  let p := TlsfSpec.demo_block + TlsfTypes.HEADER_SIZE in
  let w1 := default demo_world (final (libsrpc_shmem_link p demo_world)) in
  exists s2, TlsfApi.tlsf_free TlsfSpec.demo_pool p 7 (pool w1) = Ret tt s2 /\
    TlsfOwnership.live s2 TlsfSpec.demo_block.
Proof.
  intros p w1.
  destruct (linked_block_survives demo_world TlsfSpec.demo_block 7 w1) as (s2 & E & Hl & _).
  - split; [discriminate|]. split; [discriminate|]. split; [discriminate|].
    split; [exact TlsfSpec.demo_quiet|reflexivity].
  - exact TlsfSpec.demo_live.
  - split; reflexivity.
  - discriminate.
  - discriminate.
  - TlsfSpec.owner_compute.
  - vm_compute. reflexivity.
  - exists s2. split; [exact E|exact Hl].
Defined.
