(* ===== verification/Rpc.v ===== *)
(** The remote call ([libsrpc.c]): timeouts, the distribution of a request to the
    registered processes, the wait for the answers, the results of the last call, and
    the locks that keep an executor's memory from the collector. *)
From S2P Require Import Prelude Machine Errno Bytes Request Marshal World Shmem.
From S2P Require MpmcQueue ListSpin TlsfApi.

#[local] Existing Instance MpmcQueue.lf_queue_result_eq.

(** ** Identifiers and limits *)

(** [RPC_LIST] declares five functions; identifiers start after 16. *)
Definition sRPCFNID_START := 16.
Definition sRPC_FNNUM := 5.
Definition sRPCFNID_MAX := sRPCFNID_START + 1 + sRPC_FNNUM.
Definition sRPC_ID2IDX (id : Z) : Z := id - sRPCFNID_START - 1.
Definition LIBSRPC_TIMEOUT_MINIMUM := 100.

Inductive send_flag := RPC_SEND_ALL | RPC_SEND_FIRST | RPC_SEND_LAST | RPC_SEND_RR.
#[export] Instance send_flag_eq : EqDecision send_flag.
Proof. solve_decision. Defined.

(** ** Timeouts *)

Definition libsrpc_timeout_func_set (fid timeout : Z) : WM unit :=
  let funidx := sRPC_ID2IDX fid in
  if (funidx <? 0) || (sRPC_FNNUM <=? funidx) then mret tt
  else modl (fun l => set_timeout (<[Z.to_nat funidx := timeout]> (rpc_timeout l)) l).
Definition libsrpc_timeout_oneshot_set (timeout : Z) : WM unit := modl (set_oneshot timeout).
Definition libsrpc_timeout_global_set (timeout : Z) : WM unit := modl (set_timeout_global timeout).

(** The timeout of one call, in microseconds: the one-shot value, which is used
    up, else the function's, else the global one; never below the minimum. *)
Definition call_timeout (fidx : Z) : WM Z :=
  glob ← getl rpc_timeout_global;
  shot ← getl rpc_timeout_oneshot;
  timeout ←
    (if 0 <? shot then modl (set_oneshot 0) ;; mret shot
     else
       fns ← getl rpc_timeout;
       let f := default 0 (fns !! Z.to_nat fidx) in
       mret (if 0 <? f then f else glob));
  mret (if timeout <? LIBSRPC_TIMEOUT_MINIMUM then LIBSRPC_TIMEOUT_MINIMUM else timeout).

(** ** Results of the last call *)

Definition libsrpc_lastreq_num : WM Z :=
  a ← getl current_req;
  r ← req_or_null a;
  if libsrpc_req_is_corrupted r None then mret 0
  else match r with Some r => mret (i32 (retnum r)) | None => mret 0 end.

Definition libsrpc_lastreq_get (idx : Z) (sz : nat) : WM (Z * option (list Z)) :=
  a ← getl current_req;
  if idx <? 0 then mret (- EINVAL, None)
  else
    r ← req_or_null a;
    match r with
    | None => mret (- ENOTAVAILABLE, None)
    | Some rq =>
        if libsrpc_req_is_corrupted r None || (retnum rq <=? idx) then mret (- ENOTAVAILABLE, None)
        else
          match libsrpc_req_get_response_fast r idx with
          | None => mret (- ENOTAVAILABLE, None)
          | Some o =>
              let rc := resp_rc o rq in
              if rc_st rc =? RC_ST_ERROR
              then mret ((if rc_code rc <? 0 then rc_code rc else - ENOTAVAILABLE), None)
              else if negb (rc_st rc =? RC_ST_READY) then mret (- ENOTAVAILABLE, None)
              else if negb (ALIGNLONG (Z.of_nat sz + sizeof_response) =? retsz rq) then mret (- EBADMSG, None)
              else mret (rc_code rc, Some (resp_data o sz rq))
          end
    end.

(** ** Protecting an executor's memory from the collector *)

(** The first free entry of [gc_lock.lock[4]]. *)
Definition free_lock (locks : list Z) : Z := find_index (fun u => u =? 0) locks 0.

Definition libsrpc_shmem_proc_lock (idx ptr : Z) : WM Z :=
  a ← getl current_req;
  shm ← libsrpc_shmem_get;
  if idx <? 0 then mret (- EINVAL)
  else if shm =? NULL then mret (- ESHMNOINIT)
  else
    r ← req_or_null a;
    match r with
    | None => mret (- EINVALREQUEST)
    | Some rq =>
        if libsrpc_req_is_corrupted r None || (retnum rq <=? idx) then mret (- EINVALREQUEST)
        else
          match libsrpc_req_get_response_fast r idx with
          | None => mret (- EINVALRESPONSE)
          | Some o =>
              let p := resp_hp o rq in
              if p =? NULL then mret (- ENOTAVAILABLE)
              else
                x ← get_proc p;
                let uid := proc_uid x in
                if negb (uid =? resp_uid o rq) || negb (libsrpc_proc_is_valid x) then mret (- EPROCDESTROYED)
                else
                  let slot := free_lock (gc_lock_uid rq) in
                  if slot <? 0 then mret (- ENOMEM)
                  else
                    let locked := <[Z.to_nat slot := uid]> (gc_lock_uid rq) in
                    let undone := <[Z.to_nat slot := 0]> locked in
                    upd_req a (set_gc_lock locked) ;;
                    y ← get_proc p;
                    if negb (libsrpc_proc_is_valid y) || negb (proc_uid y =? uid)
                    then upd_req a (set_gc_lock undone) ;; mret (- EPROCDESTROYED)
                    else
                      c ← lift_pool (TlsfApi.tlsf_check_uid (poolptr_of shm) ptr uid);
                      if negb (c =? 1) then upd_req a (set_gc_lock undone) ;; mret (- ENOTFOUND)
                      else mret slot
          end
    end.

Definition libsrpc_shmem_proc_unlock (slot : Z) : WM Z :=
  a ← getl current_req;
  if (slot <? 0) || (4 <=? slot) then mret (- EINVAL)
  else
    r ← req_or_null a;
    if libsrpc_req_is_corrupted r None then mret (- ENOTAVAILABLE)
    else upd_req a (fun rq => set_gc_lock (<[Z.to_nat slot := 0]> (gc_lock_uid rq)) rq) ;; mret 0.

Definition libsrpc_shmem_proc_all_unlock : WM Z :=
  a ← getl current_req;
  r ← req_or_null a;
  if libsrpc_req_is_corrupted r None then mret (- ENOTAVAILABLE)
  else upd_req a (set_gc_lock [0; 0; 0; 0]) ;; mret 0.

Definition libsrpc_shmem_check_uid_lock (a uid : Z) : WM Z :=
  if (uid <=? 0) || (0x10000 <=? uid) then mret (- EINVAL)
  else
    r ← req_or_null a;
    match r with
    | None => mret (- ENOTAVAILABLE)
    | Some rq =>
        if libsrpc_req_is_corrupted r None then mret (- ENOTAVAILABLE)
        else mret (if existsb (fun u => u =? u16 uid) (gc_lock_uid rq) then 1 else 0)
    end.

Section rpc.
(** The capacity of the request queues and the length up to which lists are
    followed. *)
Context (cap : Z) (fuel : nat).
(** What other threads do while this one pauses, and while it waits on the
    semaphore of its request until a deadline; [sem_timedwait] answers 0 or the
    error number. *)
Context (pause : WM unit) (sem_timedwait : Z -> Z -> WM Z).

Definition libsrpc_shmem_is_locked_uid_proc (p uid : Z) : WM Z :=
  r ← list_foreach_until fuel (req_head_of p) (fun a =>
        is_locked ← libsrpc_shmem_check_uid_lock a uid;
        mret (if is_locked =? 1 then Some 1 else None));
  mret (default 0 r).

Definition libsrpc_shmem_is_locked_uid (uid : Z) : WM Z :=
  shm ← libsrpc_shmem_get;
  if shm =? NULL then mret 0
  else
    r ← list_foreach_until fuel (proc_head_of shm) (fun p =>
          x ← get_proc p;
          if negb (libsrpc_proc_is_valid x) then mret None
          else
            l ← libsrpc_shmem_is_locked_uid_proc p uid;
            mret (if negb (l =? 0) then Some 1 else None));
    mret (default 0 r).

(** ** Sending *)

(** The retries of one enqueue: 16 rounds of 32 attempts. *)
Fixpoint enqueue_retry (n : nat) (p a : Z) : WM bool :=
  match n with
  | O => mret false
  | S n =>
      rc ← queue_try_enqueue cap p a;
      if bool_decide (rc = MpmcQueue.LF_QUEUE_OK) then mret true
      else pause ;; enqueue_retry n p a
  end.

Definition slot_error (a o code : Z) : WM unit :=
  upd_req a (set_resp_rc o (rc_make RC_ST_ERROR (- code))) ;; upd_req a (set_resp_hp o NULL).

Definition libsrpc_send_request_one (p a it : Z) : WM Z :=
  r ← get_req a;
  match libsrpc_req_get_response_fast (Some r) it with
  | None => mret (- ENOTAVAILABLE)
  | Some o =>
      upd_req a (set_resp_rc o 0) ;;
      x ← get_proc p;
      upd_req a (set_resp_uid o (proc_uid x)) ;;
      upd_req a (set_resp_hp o p) ;;
      x ← get_proc p;
      if negb (libsrpc_proc_is_valid x) then slot_error a o EINVALPROC ;; mret (- EINVALPROC)
      else if threads_run x <=? 0 then slot_error a o ENOTAVAILABLE ;; mret (- ENOTAVAILABLE)
      else
        ok ← enqueue_retry (16 * 32) p a;
        if negb ok then slot_error a o ENOMEM ;; mret (- ENOMEM)
        else
          x ← get_proc p;
          (if (0 <? threads_wait x) && libsrpc_proc_is_valid x then sem_post_proc p else mret tt) ;;
          mret 0
  end.

(** The variables of the distribution loops. *)
Record sending := Sending { it : Z; rr_cnt : Z; proc_last : Z }.

(** One loop over [n] cells from [i] on; [cell] loads a registry cell. *)
Fixpoint send_cells (n : nat) (i : Z) (cell : Z -> WM Z) (flags : send_flag) (rr_pos retnum a : Z)
    (s : sending) : WM sending :=
  match n with
  | O => mret s
  | S n =>
      if retnum <=? it s then mret s
      else
        p ← cell i;
        s ←
          (if p =? NULL then mret s
           else
             match flags with
             | RPC_SEND_LAST => mret (Sending (it s) (rr_cnt s) p)
             | _ =>
                 if bool_decide (flags = RPC_SEND_RR) && negb (rr_pos =? rr_cnt s)
                 then mret (Sending (it s) (u32 (rr_cnt s + 1)) (proc_last s))
                 else
                   rc ← libsrpc_send_request_one p a (it s);
                   mret (Sending (if rc =? 0 then u32 (it s + 1) else it s)
                     (if bool_decide (flags = RPC_SEND_RR) then u32 (rr_cnt s + 1) else rr_cnt s)
                     (proc_last s))
             end);
        send_cells n (i + 1) cell flags rr_pos retnum a s
  end.

Definition main_cell (fidx i : Z) : WM Z :=
  f ← get_func fidx;
  match main_block f !! Z.to_nat i with Some p => mret p | None => fault end.
Definition ext_cell (eb i : Z) : WM Z :=
  x ← get_eb eb;
  match eb_proc x !! Z.to_nat i with Some p => mret p | None => fault end.

(** The hazard-pointer loop on the extension block. *)
Fixpoint hold_ext (n : nat) (fidx a eb : Z) : WM Z :=
  match n with
  | O => hang
  | S n =>
      upd_req a (set_hp_regfn eb) ;;
      f ← get_func fidx;
      if ext_ptr f =? eb then mret eb else hold_ext n fidx a (ext_ptr f)
  end.

(** ** Waiting *)

(** Empty slots become timed out; a slot whose answer is being written keeps it. *)
Fixpoint mark_timeouts (n : nat) (i : Z) (a : Z) : WM unit :=
  match n with
  | O => mret tt
  | S n =>
      r ← get_req a;
      match libsrpc_req_get_response_fast (Some r) i with
      | None => mret tt
      | Some o => put_req a (cas_resp_rc o 0 (rc_make RC_ST_ERROR (- ERPCWAITIMEDOUT)) r).2
      end ;;
      mark_timeouts n (i + 1) a
  end.

(** [cnt_rcv]: the slots that are answered or given up. *)
Fixpoint count_received (n : nat) (i : Z) (a : Z) : WM Z :=
  match n with
  | O => mret 0
  | S n =>
      r ← get_req a;
      let c :=
        match libsrpc_req_get_response_fast (Some r) i with
        | None => 0
        | Some o =>
            let rrc := resp_rc o r in
            if negb (resp_hp o r =? NULL) && ((rrc =? 0) || (rc_st rrc =? RC_ST_LOCK)) then 0 else 1
        end in
      c' ← count_received n (i + 1) a;
      mret (c + c')
  end.

Fixpoint wait_responses (n : nat) (a num deadline : Z) : WM unit :=
  match n with
  | O => hang
  | S n =>
      e ← sem_timedwait a deadline;
      if (e =? ETIMEDOUT) || (e =? EINVAL) then mark_timeouts (Z.to_nat num) 0 a
      else
        cnt ← count_received (Z.to_nat num) 0 a;
        if cnt <? num then wait_responses n a num deadline else mret tt
  end.

(** ** The whole send *)

(** The number of executors to address and the position of the first, by mode; RR takes
    the next number of the function's counter. *)
Definition choose_mode (fidx : Z) (flags : send_flag) (n : Z) : WM (Z * Z) :=
  match flags with
  | RPC_SEND_FIRST => mret (1, 0)
  | RPC_SEND_RR =>
      rr ← gets (fun w => default 0 (req_send_rr w !! Z.to_nat fidx));
      modify (fun w => set_rr (<[Z.to_nat fidx := u32 (rr + 1)]> (req_send_rr w)) w) ;;
      mret (1, rr mod (if 1 <? n then n else 1))
  | _ => mret (n, 0)
  end.
(** Both loops over the cells of the function. *)
Definition send_loops (fidx a eb num rr_pos : Z) (flags : send_flag) : WM sending :=
  s ← send_cells (Z.to_nat LIBSRPC_RFMB_SZ) 0 (main_cell fidx) flags rr_pos num a (Sending 0 0 NULL);
  if negb (eb =? NULL) && (it s <? num)
  then
    eb ← hold_ext fuel fidx a eb;
    x ← get_eb eb;
    s ← send_cells (Z.to_nat (szfn x)) 0 (ext_cell eb) flags rr_pos num a s;
    upd_req a (set_hp_regfn NULL) ;;
    mret s
  else mret s.
(** Then the last process, for LAST; the value is the number of requests sent and of
    those meant to be sent. *)
Definition distribute (fidx a eb num rr_pos : Z) (flags : send_flag) : WM (Z * Z) :=
  s ← send_loops fidx a eb num rr_pos flags;
  if bool_decide (flags = RPC_SEND_LAST) && negb (proc_last s =? NULL)
  then
    rc ← libsrpc_send_request_one (proc_last s) a (it s);
    mret (if rc =? 0 then u32 (it s + 1) else it s, 1)
  else mret (it s, num).
(** The request with [n] slots goes out. *)
Definition send_phase (fidx a eb n : Z) (flags : send_flag) : WM (Z * Z) :=
  '(num, rr_pos) ← choose_mode fidx flags n;
  upd_req a (set_retnum num) ;;
  distribute fidx a eb num rr_pos flags.

Definition libsrpc_send_request (a : Z) (flags : send_flag) : WM unit :=
  shm ← libsrpc_shmem_get;
  r ← req_or_null a;
  match r with
  | None => errno_set EINVAL
  | Some rq =>
  if retnum rq =? 0 then errno_set EINVAL
  else if shm =? NULL then errno_set ESHMNOINIT
  else
    rec ← getl srpc_disable_rpc_recursion;
    if (rec : bool) then errno_set ERECURSIVE
    else
      en ← getl rpc_enable;
      if negb en then errno_set ERPCDISABLE
      else
        let fidx := sRPC_ID2IDX (funid rq) in
        if (fidx <? 0) || (sRPC_FNNUM <=? fidx) then errno_set EINVAL
        else
          f ← get_func fidx;
          '(sent, num) ← send_phase fidx a (ext_ptr f) (retnum rq) flags;
          if sent =? 0 then errno_set ENOTAVAILABLE
          else
            let num := if sent =? num then num else sent in
            upd_req a (set_retnum num) ;;
            timeout ← call_timeout fidx;
            wait_responses fuel a num timeout
  end.
End rpc.
