(* ===== verification/RpcSpec.v ===== *)
(** The caller's side of a remote call: the timeout it uses, the wait that settles
    every slot, the distribution of the request to the registered processes. *)
From S2P Require Import Prelude Machine Errno Bytes Request RequestSpec World Rpc.
From S2P Require MpmcQueue MpmcAlone.

(** Unfolds one bind of a run. *)
Lemma bind_ret {S A B} (m : M S A) (f : A -> M S B) a s s' : m s = Ret a s' -> (m ≫= f) s = f a s'.
Proof. intros E. unfold mbind, M_bind. by rewrite E. Qed.
Lemma bind_bind_ret {S A B C} (m : M S A) (f : A -> M S B) (g : B -> M S C) a s s' :
  m s = Ret a s' -> ((m ≫= f) ≫= g) s = (f a ≫= g) s'.
Proof. intros E. unfold mbind, M_bind. by rewrite E. Qed.
Lemma bind_mret {S A B} (a : A) (f : A -> M S B) s : ((mret a : M S A) ≫= f) s = f a s.
Proof. done. Qed.
Lemma bind_inv {S A B} (m : M S A) (f : A -> M S B) b s s'' : (m ≫= f) s = Ret b s'' ->
  exists a s', m s = Ret a s' /\ f a s' = Ret b s''.
Proof. unfold mbind, M_bind. destruct (m s) as [a s'| | |]; try done. intros E. by exists a, s'. Qed.

(** ** Timeouts *)

(** The timeout a call to function [fidx] will use. *)
Definition effective_timeout (l : local) (fidx : Z) : Z :=
  let f := default 0 (rpc_timeout l !! Z.to_nat fidx) in
  Z.max LIBSRPC_TIMEOUT_MINIMUM
    (if 0 <? rpc_timeout_oneshot l then rpc_timeout_oneshot l else if 0 <? f then f else rpc_timeout_global l).

Lemma call_timeout_run fidx v : call_timeout fidx v =
  Ret (effective_timeout (loc v) fidx)
    (if 0 <? rpc_timeout_oneshot (loc v) then set_loc (set_oneshot 0 (loc v)) v else v).
Proof.
  assert (forall x, (if x <? LIBSRPC_TIMEOUT_MINIMUM then LIBSRPC_TIMEOUT_MINIMUM else x) =
    Z.max LIBSRPC_TIMEOUT_MINIMUM x) as Hm.
  { intros x. unfold LIBSRPC_TIMEOUT_MINIMUM. destruct (Z.ltb_spec x 100); lia. }
  unfold call_timeout, effective_timeout. rewrite <- Hm. unfold mbind, M_bind, getl, gets. cbn.
  destruct (0 <? rpc_timeout_oneshot (loc v)); [done|]. cbn. by destruct (0 <? _).
Qed.

(** A call waits for the one-shot timeout when one is set, else for the function's
    own, else for the global one, and never less than the minimum; the one-shot
    value serves one call only, and nothing else changes. *)
Theorem call_timeout_spec fidx w :
  exists w', call_timeout fidx w = Ret (effective_timeout (loc w) fidx) w' /\
    w' = (if 0 <? rpc_timeout_oneshot (loc w) then set_loc (set_oneshot 0 (loc w)) w else w) /\
    (forall w2 t, libsrpc_timeout_oneshot_set t w = Ret tt w2 -> 0 < t ->
       exists w3, call_timeout fidx w2 = Ret (Z.max LIBSRPC_TIMEOUT_MINIMUM t) w3 /\
         effective_timeout (loc w3) fidx =
           effective_timeout (set_oneshot 0 (loc w)) fidx).
Proof.
  pose proof (call_timeout_run fidx) as H.
  eexists. split; [apply H|]. split; [done|]. intros w2 t E Ht.
  unfold libsrpc_timeout_oneshot_set, modl, modify in E. injection E as <-.
  pose proof (H (set_loc (set_oneshot t (loc w)) w)) as E. cbn [loc set_loc] in E.
  change (rpc_timeout_oneshot (set_oneshot t (loc w))) with t in E.
  assert (effective_timeout (set_oneshot t (loc w)) fidx = Z.max LIBSRPC_TIMEOUT_MINIMUM t) as Et.
  { unfold effective_timeout. change (rpc_timeout_oneshot (set_oneshot t (loc w))) with t.
    by rewrite (proj2 (Z.ltb_lt 0 t)) by done. }
  rewrite Et, (proj2 (Z.ltb_lt 0 t)) in E by done. eexists. split; [exact E|done].
Qed.
Lemma call_timeout_spec_witness :
  exists w', call_timeout 2 Shmem.demo_world = Ret 100 w'.
Proof.
  destruct (call_timeout_spec 2 Shmem.demo_world) as (w' & E & _ & _). exists w'. exact E.
Defined.

(** ** Waiting *)

(** A slot nobody will write any more, or that a writer has claimed: the
    compare-exchange from 0 that a late answer starts with fails on it. *)
Definition settled (a i : Z) (w : world) : Prop := forall r o,
  reqs w !! a = Some r -> libsrpc_req_get_response_fast (Some r) i = Some o ->
  resp_rc o r <> 0 \/ resp_hp o r = NULL.
(** An answered slot: it holds a final state, or no addressee. *)
Definition answered (a i : Z) (w : world) : Prop := forall r o,
  reqs w !! a = Some r -> libsrpc_req_get_response_fast (Some r) i = Some o ->
  (resp_rc o r <> 0 /\ rc_st (resp_rc o r) <> RC_ST_LOCK) \/ resp_hp o r = NULL.

Lemma get_req_run a w r : reqs w !! a = Some r -> get_req a w = Ret r w.
Proof. intros E. unfold get_req, deref. by rewrite E. Qed.
Lemma get_proc_run p w x : procs w !! p = Some x -> get_proc p w = Ret x w.
Proof. intros E. unfold get_proc, deref. by rewrite E. Qed.
Lemma upd_req_run a w r f : reqs w !! a = Some r -> upd_req a f w = Ret tt (set_reqs (<[a := f r]> (reqs w)) w).
Proof. intros E. unfold upd_req. by rewrite (bind_ret _ _ _ _ _ (get_req_run _ _ _ E)). Qed.
Lemma upd_proc_run p w x f : procs w !! p = Some x -> upd_proc p f w = Ret tt (set_procs (<[p := f x]> (procs w)) w).
Proof. intros E. unfold upd_proc. by rewrite (bind_ret _ _ _ _ _ (get_proc_run _ _ _ E)). Qed.

(** Slots of requests used by the RPC code: inside the block, with room for the
    response header. *)
Definition req_ok (r : request) : Prop :=
  header_ok r /\ req_size r <= bufsz r /\ sizeof_response <= retsz r.

Lemma req_ok_slot r i : req_ok r -> 0 <= i < retnum r ->
  libsrpc_req_get_response_fast (Some r) i = Some (slot_offset r i) /\ slot_in (slot_offset r i) r.
Proof.
  intros (H & Hs & Hr) Hi. split; [by apply get_response_fast_in; [|lia]|].
  destruct (slot_bounds r i H Hs Hi) as [E Hl]. destruct H as [H1 H2 _ _ _].
  unfold slot_in, sizeof_response in *. rewrite E in *. split; nia.
Qed.
Lemma only_bytes_req_ok o n r r' : only_bytes o n r r' -> req_ok r -> req_ok r'.
Proof.
  intros (E & L & _) ([H1 H2 H3 H4 H5] & Hs & Hr). rewrite E. split; [|done].
  constructor; try done. cbn [bufsz set_buf buf]. by rewrite L.
Qed.
Lemma only_bytes_get o n r r' i : only_bytes o n r r' ->
  libsrpc_req_get_response_fast (Some r') i = libsrpc_req_get_response_fast (Some r) i.
Proof. intros (-> & _). done. Qed.

(** One slot marked: settled, and the other slots as before. *)
Lemma mark_one r i : req_ok r -> 0 <= i < retnum r ->
  let o := slot_offset r i in
  let r' := (cas_resp_rc o 0 (rc_make RC_ST_ERROR (- ERPCWAITIMEDOUT)) r).2 in
  only_bytes o sizeof_response r r' /\ resp_rc o r' <> 0 /\
  (resp_rc o r <> 0 -> r' = r) /\
  (resp_rc o r = 0 -> resp_rc o r' = rc_make RC_ST_ERROR (- ERPCWAITIMEDOUT)).
Proof.
  intros Hr Hi o r'. destruct (req_ok_slot r i Hr Hi) as [_ Hin]. fold o in Hin.
  unfold r', cas_resp_rc. destruct (Z.eqb_spec (resp_rc o r) 0) as [E|E]; cbn [snd].
  - assert (resp_rc o (set_resp_rc o (rc_make RC_ST_ERROR (- ERPCWAITIMEDOUT)) r) = rc_make RC_ST_ERROR (- ERPCWAITIMEDOUT)) as Hs.
    { rewrite resp_rc_set by done. by vm_compute. }
    rewrite Hs. split; [|split; [by vm_compute|done]].
    destruct (only_bytes_rc o (rc_make RC_ST_ERROR (- ERPCWAITIMEDOUT)) r Hin) as (B1 & B2 & B3).
    split; [done|split; [done|]]. intros off k Hk. apply B3. unfold sizeof_response in Hk. lia.
  - split; [apply only_bytes_refl|]. done.
Qed.

(** Same layout: only the contents of the buffer and the semaphore, locks, hazard
    pointer or signature of the header may differ. *)
Definition same_layout (r r' : request) : Prop :=
  bufsz r' = bufsz r /\ retoff r' = retoff r /\ retsz r' = retsz r /\ retnum r' = retnum r /\
  length (buf r') = length (buf r).
Lemma same_layout_refl r : same_layout r r.
Proof. done. Qed.
Lemma same_layout_trans r1 r2 r3 : same_layout r1 r2 -> same_layout r2 r3 -> same_layout r1 r3.
Proof. unfold same_layout. intros (?&?&?&?&?) (?&?&?&?&?). repeat split; congruence. Qed.
Lemma only_bytes_layout o n r r' : only_bytes o n r r' -> same_layout r r'.
Proof. intros (E & L & _). unfold same_layout. by rewrite E. Qed.
Lemma same_layout_ok r r' : same_layout r r' -> req_ok r -> req_ok r'.
Proof.
  intros (E1 & E2 & E3 & E4 & E5) ([H1 H2 H3 H4 H5] & Hs & Hr). unfold req_ok, req_size in *.
  rewrite E1, E2, E3, E4 in *. split; [|done]. constructor; congruence.
Qed.
Lemma same_layout_slot r r' i : same_layout r r' -> slot_offset r' i = slot_offset r i.
Proof. intros (_ & E2 & E3 & _). unfold slot_offset. by rewrite E2, E3. Qed.

(** The bytes of one slot, which determine its fields. *)
Definition slot_bytes (r : request) (i : Z) : list Z :=
  slice (Z.to_nat (slot_offset r i)) (Z.to_nat (retsz r)) (buf r).
Lemma slot_bytes_fields r r' i : same_layout r r' -> req_ok r -> 0 <= i < retnum r ->
  slot_bytes r' i = slot_bytes r i ->
  resp_rc (slot_offset r i) r' = resp_rc (slot_offset r i) r /\
  resp_hp (slot_offset r i) r' = resp_hp (slot_offset r i) r /\
  resp_uid (slot_offset r i) r' = resp_uid (slot_offset r i) r.
Proof.
  intros Hl Hr Hi E. destruct (req_ok_slot r i Hr Hi) as [_ [Ho _]]. destruct Hr as (_ & _ & Hz).
  unfold slot_bytes in E. rewrite (same_layout_slot r r' i Hl) in E. destruct Hl as (_ & _ & -> & _) in E.
  set (o := slot_offset r i) in *. unfold sizeof_response in Hz.
  assert (forall k n, (k + n <= 16)%nat -> slice (Z.to_nat o + k) n (buf r') = slice (Z.to_nat o + k) n (buf r)) as H.
  { intros k n Hk. rewrite <- (slice_slice (Z.to_nat o) (Z.to_nat (retsz r)) k n (buf r')) by lia.
    rewrite E. apply slice_slice. lia. }
  unfold resp_rc, resp_hp, resp_uid, word_at, offsetof_response_rc, offsetof_response_uid.
  rewrite !Z2Nat.inj_add by lia. rewrite !H by (simpl; lia).
  pose proof (H 0%nat 8%nat ltac:(lia)) as H0. rewrite Nat.add_0_r in H0. by rewrite H0.
Qed.

(** Writing in one slot leaves the others. *)
Lemma only_bytes_other r r' i j : req_ok r -> 0 <= i < retnum r -> 0 <= j < retnum r -> i <> j ->
  only_bytes (slot_offset r i) (retsz r) r r' -> slot_bytes r' j = slot_bytes r j.
Proof.
  intros Hr Hi Hj Hne B. unfold slot_bytes. rewrite (same_layout_slot r r' j) by by eapply only_bytes_layout.
  destruct (only_bytes_layout _ _ _ _ B) as (_ & _ & -> & _). apply B.
  destruct Hr as (H & Hs & Hz). pose proof (slots_disjoint r i j H Hs Hi Hj Hne) as Hd.
  destruct (slot_bounds r j H Hs Hj) as [Ej _]. pose proof (h_retoff r H). pose proof (h_retsz r H). nia.
Qed.
Lemma only_bytes_widen o n o' n' r r' : only_bytes o n r r' -> o' <= o -> o + n <= o' + n' -> only_bytes o' n' r r'.
Proof. intros (? & ? & S) ? ?. split; [done|split; [done|]]. intros off k Hk. apply S. lia. Qed.

(** What the timeout pass does to slot [j]: nothing, or it gives up an empty one. *)
Definition given_up (r r' : request) (j : Z) : Prop :=
  resp_rc (slot_offset r j) r = 0 /\
  resp_rc (slot_offset r j) r' = rc_make RC_ST_ERROR (- ERPCWAITIMEDOUT).

Lemma mark_timeouts_run n : forall i a w r, reqs w !! a = Some r -> req_ok r -> 0 <= i ->
  i + Z.of_nat n <= retnum r ->
  exists r', mark_timeouts n i a w = Ret tt (set_reqs (<[a := r']> (reqs w)) w) /\ same_layout r r' /\
    forall j, 0 <= j < retnum r ->
      if decide (i <= j < i + Z.of_nat n)
      then resp_rc (slot_offset r j) r' <> 0 /\ (slot_bytes r' j = slot_bytes r j \/ given_up r r' j)
      else slot_bytes r' j = slot_bytes r j.
Proof.
  induction n as [|n IH]; intros i a w r Er Hr Hi Hn.
  { exists r. split; [|split; [done|]].
    - simpl. destruct w. unfold set_reqs. cbn. by rewrite insert_id.
    - intros j Hj. rewrite decide_False by lia. done. }
  simpl. rewrite (bind_ret _ _ _ _ _ (get_req_run _ _ _ Er)).
  destruct (req_ok_slot r i Hr ltac:(lia)) as [Eo Hin].
  destruct (mark_one r i Hr ltac:(lia)) as (B & Hne & Hold & Hnew).
  set (r1 := (cas_resp_rc (slot_offset r i) 0 (rc_make RC_ST_ERROR (- ERPCWAITIMEDOUT)) r).2) in *.
  pose proof (only_bytes_layout _ _ _ _ B) as L1.
  assert (retnum r1 = retnum r) as En by apply L1.
  destruct (IH (i + 1) a (set_reqs (<[a := r1]> (reqs w)) w) r1) as (r' & E & L & H);
    [by cbn [reqs set_reqs]; rewrite lookup_insert_eq|by eapply same_layout_ok|lia|lia|].
  exists r'. split; [|split; [by eapply same_layout_trans|]].
  - simpl in Eo. rewrite Eo. rewrite (bind_ret _ _ _ _ _ (eq_refl : put_req a r1 w = Ret tt _)), E.
    unfold set_reqs. cbn. by rewrite insert_insert_eq.
  - intros j Hj. specialize (H j ltac:(lia)). rewrite (same_layout_slot r r1 j L1) in H.
    pose proof (slot_bytes_fields r1 r' j L ltac:(by eapply same_layout_ok) ltac:(lia)) as Hf.
    rewrite (same_layout_slot r r1 j L1) in Hf.
    destruct (decide (j = i)) as [->|Hji].
    + rewrite decide_False in H by lia. rewrite decide_True by lia.
      destruct (Hf H) as (Hf1 & _). rewrite Hf1. split; [done|]. unfold given_up. rewrite Hf1.
      destruct (Z.eqb_spec (resp_rc (slot_offset r i) r) 0) as [E0|E0]; [right; by auto|left; by rewrite H, Hold].
    + assert (slot_bytes r1 j = slot_bytes r j) as Hsame.
      { apply (only_bytes_other r r1 i j Hr ltac:(lia) ltac:(lia)); [done|].
        eapply only_bytes_widen; [exact B|lia|]. destruct Hr as (_ & _ & ?). lia. }
      destruct (slot_bytes_fields r r1 j L1 Hr Hj Hsame) as (Hf2 & _). rewrite <- Hsame.
      destruct (decide (i + 1 <= j < i + 1 + Z.of_nat n)).
      * rewrite decide_True by lia. unfold given_up in *. rewrite (same_layout_slot r r1 j L1), Hf2 in H. exact H.
      * rewrite decide_False by lia. exact H.
Qed.

Lemma count_received_run n : forall i a w r, reqs w !! a = Some r -> req_ok r -> 0 <= i ->
  i + Z.of_nat n <= retnum r ->
  exists c, count_received n i a w = Ret c w /\ 0 <= c <= Z.of_nat n /\
    (c = Z.of_nat n <-> forall j, i <= j < i + Z.of_nat n -> answered a j w).
Proof.
  induction n as [|n IH]; intros i a w r Er Hr Hi Hn.
  { exists 0. split; [done|]. split; [lia|]. split; [lia|done]. }
  destruct (IH (i + 1) a w r Er Hr ltac:(lia) ltac:(lia)) as (c & E & Hc & Hiff).
  destruct (req_ok_slot r i Hr ltac:(lia)) as [Eo _].
  cbn [count_received]. rewrite (bind_ret _ _ _ _ _ (get_req_run _ _ _ Er)). cbv zeta. rewrite Eo.
  rewrite (bind_ret _ _ _ _ _ E). set (o := slot_offset r i) in *.
  set (b := negb (resp_hp o r =? NULL) && ((resp_rc o r =? 0) || (rc_st (resp_rc o r) =? RC_ST_LOCK))).
  assert (answered a i w <-> b = false) as Hb.
  { unfold b. split.
    - intros Ha. destruct (Ha r o Er Eo) as [[H1 H2]|H0].
      + rewrite (proj2 (Z.eqb_neq _ _) H1), (proj2 (Z.eqb_neq _ _) H2). by rewrite andb_false_r.
      + by rewrite H0.
    - intros Hf r2 o2 Er2 Eo2. rewrite Er in Er2. injection Er2 as <-. rewrite Eo in Eo2. injection Eo2 as <-.
      apply andb_false_iff in Hf as [Hf|Hf].
      + right. apply negb_false_iff, Z.eqb_eq in Hf. done.
      + left. apply orb_false_iff in Hf as [H1 H2]. split; by apply Z.eqb_neq. }
  eexists. split; [reflexivity|]. destruct b eqn:Eb.
  - split; [lia|]. split; [lia|]. intros Hall. assert (answered a i w) as Ha by (apply Hall; lia).
    apply Hb in Ha. congruence.
  - split; [lia|]. split.
    + intros Hs j Hj. destruct (decide (j = i)) as [->|]; [by apply Hb|]. apply Hiff; lia.
    + intros Hall. rewrite (proj2 Hiff); [lia|]. intros j Hj. apply Hall. lia.
Qed.

Lemma answered_settled a i w : answered a i w -> settled a i w.
Proof. intros H r o Er Eo. destruct (H r o Er Eo) as [[]|]; auto. Qed.

(** ** The wait terminates and settles every slot

    [budget] bounds how often the semaphore can still be taken before the wait
    ends with a timeout: every successful wait consumes one post. *)
Section waiting.
Context (sem_timedwait : Z -> Z -> WM Z) (a : Z) (budget : world -> nat).

(** One wait returns; the other threads may answer in the meantime but keep the
    layout of the request. *)
Definition wait_contract : Prop := forall d w r, reqs w !! a = Some r -> req_ok r ->
  exists e w' r', sem_timedwait a d w = Ret e w' /\ reqs w' !! a = Some r' /\ same_layout r r' /\
    (e <> ETIMEDOUT -> e <> EINVAL -> (budget w' < budget w)%nat).

Lemma wait_responses_run n : forall num d w r, wait_contract ->
  reqs w !! a = Some r -> req_ok r -> 0 <= num <= retnum r -> (budget w < n)%nat ->
  exists w1 r1 w2 r2, wait_responses sem_timedwait n a num d w = Ret tt w2 /\
    reqs w1 !! a = Some r1 /\ w2 = set_reqs (<[a := r2]> (reqs w1)) w1 /\
    same_layout r r1 /\ same_layout r1 r2 /\
    forall i, 0 <= i < num -> settled a i w2 /\
      (slot_bytes r2 i = slot_bytes r1 i \/ given_up r1 r2 i).
Proof.
  induction n as [|n IH]; intros num d w r Hw Er Hr Hn Hb; [lia|]. cbn [wait_responses].
  destruct (Hw d w r Er Hr) as (e & w1 & r1 & E & Er1 & L1 & Hd). rewrite (bind_ret _ _ _ _ _ E).
  pose proof (same_layout_ok _ _ L1 Hr) as Hr1. assert (retnum r1 = retnum r) as En by apply L1.
  destruct ((e =? ETIMEDOUT) || (e =? EINVAL)) eqn:Ee.
  - destruct (mark_timeouts_run (Z.to_nat num) 0 a w1 r1 Er1 Hr1 ltac:(lia) ltac:(lia)) as (r2 & E2 & L2 & H2).
    eexists w1, r1, _, r2. split; [exact E2|]. split; [done|]. split; [done|]. split; [done|]. split; [done|].
    intros i Hi. specialize (H2 i ltac:(lia)). rewrite decide_True in H2 by lia. destruct H2 as [H2 H3].
    split; [|done]. intros r' o Er' Eo. cbn [reqs set_reqs] in Er'. rewrite lookup_insert_eq in Er'.
    injection Er' as <-. apply get_response_fast_some in Eo as (_ & _ & ->).
    rewrite (same_layout_slot r1 r2 i L2). by left.
  - apply orb_false_iff in Ee as [E1 E2]. apply Z.eqb_neq in E1, E2.
    destruct (count_received_run (Z.to_nat num) 0 a w1 r1 Er1 Hr1 ltac:(lia) ltac:(lia)) as (c & Ec & Hc & Hiff).
    rewrite (bind_ret _ _ _ _ _ Ec). destruct (Z.ltb_spec c num) as [Hlt|Hge].
    + destruct (IH num d w1 r1 Hw Er1 Hr1 ltac:(lia) ltac:(specialize (Hd E1 E2); lia))
        as (w2 & r2 & w3 & r3 & E3 & ? & ? & ? & ? & ?).
      exists w2, r2, w3, r3. split; [exact E3|]. split; [done|]. split; [done|].
      split; [by eapply same_layout_trans|]. done.
    + exists w1, r1, w1, r1. split; [done|]. split; [done|]. split; [|split; [done|split; [done|]]].
      * destruct w1. unfold set_reqs. cbn. by rewrite insert_id.
      * intros i Hi. split; [|by left]. apply answered_settled. apply Hiff; lia.
Qed.
End waiting.

(** (C23) The wait for the answers returns, and when it returns every awaited slot is settled:
    answered, failed, without addressee, claimed by a writer, or marked as timed
    out; an answer that arrived before the deadline is kept byte for byte, only
    empty slots are given up, and no later answer can be written to those. *)
Theorem wait_settles sem_timedwait a budget n num d w r :
  wait_contract sem_timedwait a budget -> reqs w !! a = Some r -> req_ok r ->
  0 <= num <= retnum r -> (budget w < n)%nat ->
  exists w1 r1 w2 r2, wait_responses sem_timedwait n a num d w = Ret tt w2 /\
    reqs w1 !! a = Some r1 /\ reqs w2 !! a = Some r2 /\ same_layout r r2 /\
    forall i, 0 <= i < num -> settled a i w2 /\
      (slot_bytes r2 i = slot_bytes r1 i \/
       given_up r1 r2 i /\
       forall ctrl v, (libsrpc_req_response_set r2 (slot_offset r2 i) ctrl v).1 = - EINVAL \/
         libsrpc_req_response_set r2 (slot_offset r2 i) ctrl v = (- EBUSY, r2)).
Proof.
  intros Hw Er Hr Hn Hb. destruct (wait_responses_run sem_timedwait a budget n num d w r Hw Er Hr Hn Hb)
    as (w1 & r1 & w2 & r2 & E & E1 & -> & L1 & L2 & H).
  eexists w1, r1, _, r2. split; [exact E|]. split; [done|]. cbn [reqs set_reqs]. rewrite lookup_insert_eq.
  split; [done|]. split; [by eapply same_layout_trans|]. intros i Hi. destruct (H i Hi) as [Hs [Hk|Hg]].
  - split; [exact Hs|by left].
  - split; [exact Hs|right]. split; [done|]. intros ctrl v. unfold libsrpc_req_response_set.
    destruct (libsrpc_req_is_corrupted (Some r2) ctrl); [by left|right].
    rewrite (same_layout_slot r1 r2 i L2). unfold cas_resp_rc. destruct Hg as [_ ->]. done.
Qed.
(** A wait that finds nothing until its deadline. *)
Definition demo_waiting : world := set_reqs {[ 4096 := demo_request ]} Shmem.demo_world.
Lemma wait_settles_witness :
  let waiter := (fun _ _ => mret ETIMEDOUT) : Z -> Z -> WM Z in
  exists w2 r2, wait_responses waiter 1 4096 2 1000000 demo_waiting = Ret tt w2 /\
    reqs w2 !! 4096 = Some r2 /\ settled 4096 0 w2 /\ settled 4096 1 w2.
Proof.
  intros waiter.
  destruct (wait_settles waiter 4096 (fun _ => O) 1 2 1000000 demo_waiting demo_request)
    as (w1 & r1 & w2 & r2 & E & _ & E2 & _ & H).
  - intros d w r Er Hr. exists ETIMEDOUT, w, r. repeat split; [done|]. intros Hne. by destruct Hne.
  - reflexivity.
  - destruct demo_request_ok as [H Hc]. split; [exact H|]. split; vm_compute; congruence.
  - vm_compute. split; congruence.
  - lia.
  - exists w2, r2. split; [exact E|]. split; [exact E2|]. split; [apply (H 0 ltac:(lia))|apply (H 1 ltac:(lia))].
Defined.

(** ** Sending to one process *)

(** A running process whose queue holds [l] and has room. *)
Record healthy (k : Z) (x : proc) (l : list Z) : Prop := Healthy {
  he_valid : libsrpc_proc_is_valid x = true;
  he_run : 0 < threads_run x;
  he_queue : MpmcAlone.represents k (p_queue x) l;
  he_room : Z.of_nat (length l) < 2 ^ k;
  he_bound : MpmcQueue.head (p_queue x) + 1 + 2 ^ k < 2 ^ 63;
  he_uid : 0 < proc_uid x < 2 ^ 16 }.

(** The process after it got the request [a]: queued last, and woken if a thread
    of it sleeps. *)
Definition got_request (k : Z) (l : list Z) (a : Z) (x x' : proc) : Prop :=
  exists q', MpmcAlone.represents k q' (l ++ [a]) /\
    x' = set_p_sem (p_sem x + if 0 <? threads_wait x then 1 else 0) (set_p_queue q' x).

(** The slot as the caller leaves it for process [p] with uid [u]. *)
Definition slot_for (p u : Z) (o : Z) (r : request) : Prop :=
  resp_rc o r = 0 /\ resp_hp o r = p /\ resp_uid o r = u.

Lemma prepare_slot r o p u : slot_in o r -> 0 <= p < 2 ^ 64 -> 0 <= u < 2 ^ 16 ->
  let r' := set_resp_hp o p (set_resp_uid o u (set_resp_rc o 0 r)) in
  only_bytes o sizeof_response r r' /\ slot_for p u o r'.
Proof.
  intros Hin Hp Hu r'. pose proof (only_bytes_rc o 0 r Hin) as B1.
  assert (slot_in o (set_resp_rc o 0 r)) as Hin1 by (unfold slot_in; rewrite (proj1 (proj2 B1)); exact Hin).
  pose proof (only_bytes_uid o u _ Hin1) as B2.
  assert (slot_in o (set_resp_uid o u (set_resp_rc o 0 r))) as Hin2
    by (unfold slot_in; rewrite (proj1 (proj2 B2)); exact Hin1).
  pose proof (only_bytes_hp o p _ Hin2) as B3. unfold sizeof_response. split.
  - eapply only_bytes_trans; [eapply only_bytes_widen; [exact B1|lia|lia]|].
    eapply only_bytes_trans; [eapply only_bytes_widen; [exact B2|lia|lia]|].
    eapply only_bytes_widen; [exact B3|lia|lia].
  - pose proof (proj1 Hin) as Ho. destruct (only_bytes_fields _ _ _ _ o B3 Ho) as (_ & F3 & G3 & _).
    destruct (only_bytes_fields _ _ _ _ o B2 Ho) as (_ & F2 & _ & _).
    split; [|split].
    + unfold r'. rewrite F3, F2, resp_rc_set by (done || lia). done.
    + unfold r'. rewrite resp_hp_set by done. by apply Z.mod_small.
    + unfold r'. rewrite G3, resp_uid_set by (done || lia). by apply Z.mod_small.
Qed.

Section send_one.
Context (k : Z) (Hk : 1 <= k <= 61) (pause : WM unit).

Lemma queue_enqueue_run p a w x l : procs w !! p = Some x -> healthy k x l ->
  exists q', queue_try_enqueue (2 ^ k) p a w =
      Ret MpmcQueue.LF_QUEUE_OK (set_procs (<[p := set_p_queue q' x]> (procs w)) w) /\
    MpmcAlone.represents k q' (l ++ [a]).
Proof using Hk.
  intros Ex H. unfold queue_try_enqueue. rewrite (bind_ret _ _ _ _ _ (get_proc_run _ _ _ Ex)).
  destruct (MpmcAlone.enqueue_alone k Hk (p_queue x) l a (queue_fuel (2 ^ k))) as (q' & E & Hr);
    [apply H|apply H| |].
  { unfold queue_fuel. pose proof (Z.pow_pos_nonneg 2 k ltac:(lia) ltac:(lia)). lia. }
  exists q'. rewrite E. pose proof (he_room _ _ _ H) as Hroom.
  rewrite (proj2 (Z.eqb_neq _ _)) in Hr by lia. split; [|done].
  rewrite (proj2 (Z.eqb_neq _ _)) by lia. done.
Qed.

Lemma send_one_run p a i w r x l :
  reqs w !! a = Some r -> req_ok r -> 0 <= i < retnum r -> procs w !! p = Some x -> healthy k x l ->
  0 <= p < 2 ^ 64 ->
  exists r' x', libsrpc_send_request_one (2 ^ k) pause p a i w =
      Ret 0 (set_procs (<[p := x']> (procs w)) (set_reqs (<[a := r']> (reqs w)) w)) /\
    only_bytes (slot_offset r i) sizeof_response r r' /\
    slot_for p (proc_uid x) (slot_offset r i) r' /\ got_request k l a x x'.
Proof using Hk.
  intros Er Hr Hi Ex H Hp. destruct (req_ok_slot r i Hr Hi) as [Eo Hin]. set (o := slot_offset r i) in *.
  pose proof (he_uid _ _ _ H) as Hu.
  destruct (prepare_slot r o p (proc_uid x) Hin Hp ltac:(lia)) as [B Hs].
  set (r' := set_resp_hp o p (set_resp_uid o (proc_uid x) (set_resp_rc o 0 r))) in *.
  set (w1 := set_reqs (<[a := r']> (reqs w)) w).
  destruct (queue_enqueue_run p a w1 x l Ex H) as (q' & Eq & Hq).
  exists r', (set_p_sem (p_sem x + if 0 <? threads_wait x then 1 else 0) (set_p_queue q' x)).
  split; [|split; [done|split; [done|by exists q']]].
  unfold libsrpc_send_request_one. rewrite (bind_ret _ _ _ _ _ (get_req_run _ _ _ Er)), Eo.
  rewrite (bind_ret _ _ _ _ _ (upd_req_run _ _ _ _ Er)). set (wa := set_reqs _ w).
  assert (reqs wa !! a = Some (set_resp_rc o 0 r)) as Ea by apply lookup_insert_eq.
  rewrite (bind_ret _ _ _ _ _ (get_proc_run p wa x Ex)).
  rewrite (bind_ret _ _ _ _ _ (upd_req_run a wa _ _ Ea)). set (wb := set_reqs _ wa).
  assert (reqs wb !! a = Some (set_resp_uid o (proc_uid x) (set_resp_rc o 0 r))) as Eb by apply lookup_insert_eq.
  rewrite (bind_ret _ _ _ _ _ (upd_req_run a wb _ _ Eb)).
  fold r'. assert (set_reqs (<[a := r']> (reqs wb)) wb = w1) as ->.
  { unfold w1, wb, wa, set_reqs. cbn. by rewrite !insert_insert_eq. }
  rewrite (bind_ret _ _ _ _ _ (get_proc_run p w1 x Ex)), (he_valid _ _ _ H). cbn [negb].
  rewrite (proj2 (Z.leb_gt _ _)) by apply H.
  assert (enqueue_retry (2 ^ k) pause (16 * 32) p a w1 = Ret true (set_procs (<[p := set_p_queue q' x]> (procs w1)) w1)) as Eq2.
  { change (16 * 32)%nat with (S 511). cbn [enqueue_retry]. rewrite (bind_ret _ _ _ _ _ Eq). done. }
  rewrite (bind_ret _ _ _ _ _ Eq2). cbn [negb]. set (w2 := set_procs _ w1).
  assert (procs w2 !! p = Some (set_p_queue q' x)) as E2 by apply lookup_insert_eq.
  rewrite (bind_ret _ _ _ _ _ (get_proc_run p w2 _ E2)).
  assert (libsrpc_proc_is_valid (set_p_queue q' x) = true) as -> by apply H.
  change (threads_wait (set_p_queue q' x)) with (threads_wait x). rewrite andb_true_r.
  destruct (0 <? threads_wait x).
  - unfold sem_post_proc. rewrite (bind_ret _ _ _ _ _ (upd_proc_run _ _ _ _ E2)).
    unfold w2, set_procs. cbn. by rewrite insert_insert_eq.
  - assert (set_p_sem (p_sem x + 0) (set_p_queue q' x) = set_p_queue q' x) as ->; [|done].
    unfold set_p_sem, set_p_queue. cbn. f_equal. lia.
Qed.
End send_one.

(** ** Distribution *)

(** The registered processes a loop over the cells [cs] addresses. *)
Fixpoint chosen (flags : send_flag) (rr_pos cnt : Z) (cs : list Z) : list Z :=
  match cs with
  | [] => []
  | c :: cs =>
      if c =? NULL then chosen flags rr_pos cnt cs
      else
        match flags with
        | RPC_SEND_LAST => chosen flags rr_pos cnt cs
        | RPC_SEND_RR =>
            if rr_pos =? cnt then c :: chosen flags rr_pos (cnt + 1) cs else chosen flags rr_pos (cnt + 1) cs
        | _ => c :: chosen flags rr_pos cnt cs
        end
  end.

Lemma chosen_in flags rr_pos cs : forall cnt p, p ∈ chosen flags rr_pos cnt cs -> p ∈ cs /\ p <> NULL.
Proof.
  induction cs as [|c cs IH]; intros cnt p Hp; simpl in Hp; [by apply not_elem_of_nil in Hp|].
  destruct (Z.eqb_spec c NULL) as [->|Hc].
  { destruct (IH _ _ Hp). split; [by apply list_elem_of_further|done]. }
  assert (forall cnt', p ∈ c :: chosen flags rr_pos cnt' cs -> p ∈ c :: cs /\ p <> NULL) as H.
  { intros cnt' [->|H]%elem_of_cons; [split; [apply list_elem_of_here|done]|].
    destruct (IH _ _ H). split; [by apply list_elem_of_further|done]. }
  assert (forall cnt', p ∈ chosen flags rr_pos cnt' cs -> p ∈ c :: cs /\ p <> NULL) as H'.
  { intros cnt' Hin. apply (H cnt'), list_elem_of_further, Hin. }
  destruct flags; eauto. destruct (rr_pos =? cnt); eauto.
Qed.

(** [delivered k a i ps w w']: request [a] was sent to the processes [ps] in that
    order, with the slots from [i] on, and nothing else changed but the hazard pointer
    of the request on an extension block. *)
Inductive delivered (k a : Z) : Z -> list Z -> world -> world -> Prop :=
  | delivered_nil i w : delivered k a i [] w w
  | delivered_cons i p ps w w2 r r' x x' l :
      reqs w !! a = Some r -> req_ok r -> 0 <= i < retnum r ->
      procs w !! p = Some x -> healthy k x l ->
      only_bytes (slot_offset r i) sizeof_response r r' ->
      slot_for p (proc_uid x) (slot_offset r i) r' -> got_request k l a x x' ->
      delivered k a (i + 1) ps (set_procs (<[p := x']> (procs w)) (set_reqs (<[a := r']> (reqs w)) w)) w2 ->
      delivered k a i (p :: ps) w w2
  | delivered_hold i ps w w2 r v :
      reqs w !! a = Some r -> delivered k a i ps (set_reqs (<[a := set_hp_regfn v r]> (reqs w)) w) w2 ->
      delivered k a i ps w w2.
Lemma delivered_app k a i ps1 ps2 w w1 w2 : delivered k a i ps1 w w1 -> delivered k a (i + Z.of_nat (length ps1)) ps2 w1 w2 ->
  delivered k a i (ps1 ++ ps2) w w2.
Proof.
  induction 1 as [i w|i p ps w w1 r r' x x' l Er Hr Hi Ex Hx B Hsf Hg D IH|i ps w w1 r v Er D IH]; intros D2.
  - by rewrite Z.add_0_r in D2.
  - apply (delivered_cons k a i p _ w w2 r r' x x' l); try done. apply IH. cbn [length] in D2. by replace (i + 1 + Z.of_nat (length ps)) with (i + Z.of_nat (S (length ps))) by lia.
  - apply (delivered_hold k a i _ w w2 r v); [done|]. by apply IH.
Qed.

Definition all_healthy (k : Z) (ps : list Z) (w : world) : Prop :=
  forall p, p ∈ ps -> 0 <= p < 2 ^ 64 /\ exists x l, procs w !! p = Some x /\ healthy k x l.

(** The registered processes among the cells. *)
Abbreviation live cs := (filter (fun c : Z => c <> NULL) cs).
Lemma last_cons_default (c d : Z) (l : list Z) : List.last (c :: l) d = List.last l c.
Proof. revert c d. induction l as [|x l IH]; intros c d; [done|]. change (List.last (x :: l) d = List.last (x :: l) c). by rewrite !IH. Qed.
(** How a loop that was not cut short leaves its counters. *)
Definition loop_end (flags : send_flag) (num : Z) (cs : list Z) (s s' : sending) : Prop :=
  (it s' < num -> rr_cnt s' = rr_cnt s + if bool_decide (flags = RPC_SEND_RR) then Z.of_nat (length (live cs)) else 0) /\
  proc_last s' = if bool_decide (flags = RPC_SEND_LAST) && (it s <? num) then List.last (live cs) (proc_last s) else proc_last s.

Section distribution.
Context (k : Z) (Hk : 1 <= k <= 61) (pause : WM unit) (cell : Z -> WM Z) (a num : Z) (flags : send_flag) (rr_pos : Z).

(** [cell] reads the cells [cs] from index [i] on, whatever was sent before. *)
Definition reads_cells (i : Z) (cs : list Z) (w : world) : Prop := forall t c w1,
  cs !! t = Some c -> funcs w1 = funcs w -> ebs w1 = ebs w -> cell (i + Z.of_nat t) w1 = Ret c w1.

Lemma reads_cells_tail i c cs w w' : reads_cells i (c :: cs) w -> funcs w' = funcs w -> ebs w' = ebs w ->
  reads_cells (i + 1) cs w'.
Proof.
  intros H Hf He t c' w1 Ht Hf1 He1. replace (i + 1 + Z.of_nat t) with (i + Z.of_nat (S t)) by lia.
  apply H; [done|congruence..].
Qed.

Lemma send_cells_run cs : forall i s w r,
  reads_cells i cs w -> reqs w !! a = Some r -> req_ok r -> 0 <= it s -> num <= retnum r -> num < 2 ^ 32 ->
  0 <= rr_cnt s -> rr_cnt s + Z.of_nat (length cs) < 2 ^ 32 ->
  NoDup (live cs) -> all_healthy k (live cs) w ->
  exists s' w', send_cells (2 ^ k) pause (length cs) i cell flags rr_pos num a s w = Ret s' w' /\
    delivered k a (it s) (take (Z.to_nat (num - it s)) (chosen flags rr_pos (rr_cnt s) cs)) w w' /\
    it s' = it s + Z.of_nat (length (take (Z.to_nat (num - it s)) (chosen flags rr_pos (rr_cnt s) cs))) /\
    loop_end flags num cs s s' /\ exists r', reqs w' !! a = Some r' /\ hp_regfn r' = hp_regfn r.
Proof using Hk.
  induction cs as [|c cs IH]; intros i s w r Hc Er Hr Hi Hn Hn32 H0 Hcnt Hd Hh.
  { exists s, w. simpl. rewrite take_nil. split; [done|]. split; [constructor|]. split; [simpl; lia|]. split; [split; [simpl; by destruct (bool_decide _); lia|by destruct (_ && _)]|by exists r]. }
  cbn [send_cells length]. destruct (Z.leb_spec num (it s)) as [Hle|Hlt].
  { exists s, w. replace (Z.to_nat (num - it s)) with 0%nat by lia. simpl. split; [done|]. split; [constructor|]. split; [lia|].
    split; [|by exists r]. split; [lia|]. rewrite (proj2 (Z.ltb_ge (it s) num)) by done. by rewrite andb_false_r. }
  pose proof (Hc 0%nat c w eq_refl eq_refl eq_refl) as E0. rewrite Z.add_0_r in E0.
  rewrite (bind_ret _ _ _ _ _ E0). cbn [length] in Hcnt. rewrite filter_cons in Hd, Hh.
  destruct (Z.eqb_spec c NULL) as [->|Hcn].
  { rewrite decide_False in Hd, Hh by (intros H; by apply H). cbn [chosen]. rewrite Z.eqb_refl.
    rewrite bind_mret. assert (live (NULL :: cs) = live cs) as El by (rewrite filter_cons, decide_False by (intros H; by apply H); done).
    unfold loop_end. rewrite El. apply (IH (i + 1) s w r); [by eapply reads_cells_tail|done..|lia|done|done]. }
  rewrite decide_True in Hd, Hh by done. apply NoDup_cons in Hd as [Hnin Hd].
  assert (live (c :: cs) = c :: live cs) as El by (by rewrite filter_cons, decide_True by done).
  assert (all_healthy k (live cs) w) as Hh' by (intros p Hp; apply Hh; by apply list_elem_of_further).
  cbn [chosen]. rewrite (proj2 (Z.eqb_neq c NULL)) by done.
  destruct (Hh c (list_elem_of_here _ _)) as (Hp & x & l & Ex & Hx).
  destruct (send_one_run k Hk pause c a (it s) w r x l Er Hr ltac:(lia) Ex Hx Hp) as (r' & x' & Es & B & Hsf & Hg).
  set (w1 := set_procs (<[c := x']> (procs w)) (set_reqs (<[a := r']> (reqs w)) w)) in *.
  assert (all_healthy k (live cs) w1) as Hh1.
  { intros p Hpin. destruct (Hh' p Hpin) as (Hb & y & ly & Ey & Hy). split; [done|]. exists y, ly.
    split; [|done]. cbn [procs w1 set_procs]. rewrite lookup_insert_ne; [done|]. intros ->. done. }
  assert (reqs w1 !! a = Some r') as Er1 by apply lookup_insert_eq.
  pose proof (only_bytes_layout _ _ _ _ B) as L1. pose proof (same_layout_ok _ _ L1 Hr) as Hr1.
  assert (retnum r' = retnum r) as En by apply L1.
  assert (forall s2, it s2 = it s + 1 -> 0 <= rr_cnt s2 -> rr_cnt s2 + Z.of_nat (length cs) < 2 ^ 32 ->
    proc_last s2 = proc_last s -> flags <> RPC_SEND_LAST -> (flags = RPC_SEND_RR -> rr_cnt s2 = rr_cnt s + 1) -> (flags <> RPC_SEND_RR -> rr_cnt s2 = rr_cnt s) ->
    exists s' w', send_cells (2 ^ k) pause (length cs) (i + 1) cell flags rr_pos num a s2 w1 = Ret s' w' /\
      delivered k a (it s) (take (Z.to_nat (num - it s)) (c :: chosen flags rr_pos (rr_cnt s2) cs)) w w' /\
      it s' = it s + Z.of_nat (length (take (Z.to_nat (num - it s)) (c :: chosen flags rr_pos (rr_cnt s2) cs))) /\
      loop_end flags num (c :: cs) s s' /\ exists r2, reqs w' !! a = Some r2 /\ hp_regfn r2 = hp_regfn r) as Hsent.
  { intros s2 Ei Hc2 Hc2' Epl Hfl Hrc Hrc'. destruct (IH (i + 1) s2 w1 r') as (s' & w' & E & D & Eit & [Hend Hlast] & r2 & Er2 & Ehp);
      [by eapply reads_cells_tail|done|done|lia|lia|done|done|done|done|done|].
    exists s', w'. split; [done|]. replace (Z.to_nat (num - it s)) with (S (Z.to_nat (num - it s2))) by lia.
    cbn [take length]. split; [apply (delivered_cons k a (it s) c _ w w' r r' x x' l); try done; [lia|]; rewrite <- Ei; exact D|].
    split; [lia|]. split; [|exists r2; split; [done|]; rewrite Ehp; by destruct B as (-> & _)]. unfold loop_end. rewrite El. rewrite (bool_decide_false (flags = RPC_SEND_LAST)) in Hlast |- * by done. cbn [andb length] in *.
    split; [|congruence]. intros Hlt2. rewrite (Hend Hlt2). destruct (decide (flags = RPC_SEND_RR)) as [Ef|Ef];
      [rewrite bool_decide_true, (Hrc Ef) by done|rewrite bool_decide_false, (Hrc' Ef) by done]; lia. }
  assert (u32 (it s + 1) = it s + 1) as Eu by (apply Z.mod_small; lia).
  assert (u32 (rr_cnt s + 1) = rr_cnt s + 1) as Er32 by (apply Z.mod_small; lia).
  destruct flags eqn:Ef.
  - rewrite bool_decide_false by done. cbn [andb].
    rewrite (bind_bind_ret _ _ _ _ _ _ Es), bind_mret. cbn [Z.eqb]. rewrite Eu. apply (Hsent (Sending (it s + 1) (rr_cnt s) (proc_last s))); cbn [it rr_cnt proc_last]; try done; lia.
  - rewrite bool_decide_false by done. cbn [andb].
    rewrite (bind_bind_ret _ _ _ _ _ _ Es), bind_mret. cbn [Z.eqb]. rewrite Eu. apply (Hsent (Sending (it s + 1) (rr_cnt s) (proc_last s))); cbn [it rr_cnt proc_last]; try done; lia.
  - rewrite bind_mret.
    destruct (IH (i + 1) (Sending (it s) (rr_cnt s) c) w r) as (s' & w' & E & D & Eit & [Hend Hlast] & Hr2);
      [by eapply reads_cells_tail|done|done|done|done|done|done|cbn [rr_cnt]; lia|done|done|].
    exists s', w'. do 3 (split; [done|]). split; [|done]. split; [exact Hend|]. rewrite El, Hlast. cbn [it proc_last].
    rewrite bool_decide_true by done. rewrite (proj2 (Z.ltb_lt (it s) num)) by done. cbn [andb]. by rewrite last_cons_default.
  - rewrite bool_decide_true by done. cbn [andb]. destruct (Z.eqb_spec rr_pos (rr_cnt s)) as [Ee|Ee]; cbn [negb].
    + rewrite (bind_bind_ret _ _ _ _ _ _ Es), bind_mret. cbn [Z.eqb]. rewrite Eu, Er32.
      apply (Hsent (Sending (it s + 1) (rr_cnt s + 1) (proc_last s))); cbn [it rr_cnt proc_last]; try done; lia.
    + rewrite bind_mret. rewrite Er32.
      destruct (IH (i + 1) (Sending (it s) (rr_cnt s + 1) (proc_last s)) w r) as (s' & w' & E & D & Eit & [Hend Hlast] & Hr2);
        [by eapply reads_cells_tail|done|done|done|done|done|cbn [rr_cnt]; lia|cbn [rr_cnt]; lia|done|done|].
      exists s', w'. do 3 (split; [done|]). split; [|done]. split; [|exact Hlast]. intros Hlt2. rewrite (Hend Hlt2), El, bool_decide_true by done. cbn [rr_cnt length]. lia.
Qed.
End distribution.

(** What a distribution to distinct processes leaves. *)
Lemma delivered_facts k a i ps w w' : delivered k a i ps w w' -> forall r, NoDup ps -> reqs w !! a = Some r -> req_ok r ->
  0 <= i ->
  exists r', reqs w' !! a = Some r' /\ same_layout r r' /\
    w' = set_procs (procs w') (set_reqs (<[a := r']> (reqs w)) w) /\
    slice 0 (Z.to_nat (retoff r)) (buf r') = slice 0 (Z.to_nat (retoff r)) (buf r) /\
    (forall t p, ps !! t = Some p -> i + Z.of_nat t < retnum r /\ exists x x' l, procs w !! p = Some x /\ healthy k x l /\
       slot_for p (proc_uid x) (slot_offset r (i + Z.of_nat t)) r' /\
       procs w' !! p = Some x' /\ got_request k l a x x') /\
    (forall p, p ∉ ps -> procs w' !! p = procs w !! p) /\
    (forall j, 0 <= j < retnum r -> ~ (i <= j < i + Z.of_nat (length ps)) -> slot_bytes r' j = slot_bytes r j).
Proof.
  induction 1 as [i w|i p ps w w2 r0 r1 x x' l Er0 Hr0 Hi0 Ex Hx B Hsf Hg D IH|i ps w w2 r0 v Er0 D IH]; intros r Hd Er Hr Hi.
  { exists r. split; [done|]. split; [done|]. split; [|split; [done|split; [done|split; [done|done]]]].
    destruct w. unfold set_procs, set_reqs. cbn. by rewrite insert_id. }
  2: { rewrite Er in Er0. injection Er0 as <-.
    destruct (IH (set_hp_regfn v r) Hd (lookup_insert_eq _ _ _) (same_layout_ok r (set_hp_regfn v r) ltac:(by repeat split) Hr) Hi) as (r' & Er' & L' & Ew & H). exists r'. split; [done|]. split; [exact L'|].
    split; [rewrite Ew; unfold set_procs, set_reqs; cbn; by rewrite insert_insert_eq|exact H]. }
  rewrite Er in Er0. injection Er0 as <-. apply NoDup_cons in Hd as [Hnin Hd].
  set (w1 := set_procs (<[p := x']> (procs w)) (set_reqs (<[a := r1]> (reqs w)) w)) in *.
  pose proof (only_bytes_layout _ _ _ _ B) as L1. pose proof (same_layout_ok _ _ L1 Hr) as Hr1.
  assert (retnum r1 = retnum r) as En by apply L1. assert (retoff r1 = retoff r) as Eoff by apply L1.
  destruct (IH r1 Hd) as (r' & Er' & L' & Ew & Ea & Hps & Hnot & Hsl); [apply lookup_insert_eq|done|lia|].
  rewrite Eoff in Ea. rewrite En in Hps, Hsl.
  assert (slot_bytes r' i = slot_bytes r1 i) as Ei by (apply Hsl; lia).
  destruct (slot_bytes_fields r1 r' i L' Hr1 ltac:(lia) Ei) as (F1 & F2 & F3).
  rewrite (same_layout_slot r r1 i L1) in F1, F2, F3.
  exists r'. split; [done|]. split; [by eapply same_layout_trans|]. split; [|split; [|split; [|split]]].
  - rewrite Ew. unfold w1, set_procs, set_reqs. cbn. by rewrite insert_insert_eq.
  - rewrite Ea. apply B. destruct (slot_bounds r i) as [-> _]; [apply Hr|apply Hr|lia|].
    destruct Hr as ([H1 H2 _ _ _] & _). nia.
  - intros [|t] q Hq; simpl in Hq.
    + injection Hq as <-. rewrite Z.add_0_r. split; [lia|]. exists x, x', l. split; [done|]. split; [done|].
      split; [destruct Hsf as (? & ? & ?); split; [congruence|split; congruence]|]. split; [|done].
      rewrite Hnot by done. apply lookup_insert_eq.
    + destruct (Hps t q Hq) as (Hlt & y & y' & ly & Ey & Hy & Hs & Ey' & Hgy).
      replace (i + Z.of_nat (S t)) with (i + 1 + Z.of_nat t) by lia. split; [done|].
      assert (p <> q) as Hne by (intros ->; apply Hnin; by eapply list_elem_of_lookup_2).
      cbn [procs w1 set_procs] in Ey. rewrite lookup_insert_ne in Ey by done.
      exists y, y', ly. rewrite (same_layout_slot r r1 _ L1) in Hs. done.
  - intros q Hq. apply not_elem_of_cons in Hq as [Hq1 Hq2]. rewrite Hnot by done.
    cbn [procs w1 set_procs]. by rewrite lookup_insert_ne.
  - intros j Hj Hout. cbn [length] in Hout. rewrite Hsl by lia.
    apply (only_bytes_other r r1 i j Hr ltac:(lia) Hj); [lia|].
    eapply only_bytes_widen; [exact B|lia|]. destruct Hr as (_ & _ & ?). lia.
Qed.

(** Two running processes, 4096 and 8192 apart from each other, registered for
    function 17, and the request of [demo_request] at 4096. *)
Definition demo_proc (uid : Z) (q : MpmcQueue.lf_mpmc_queue) : proc :=
  Proc LIBSRPC_PROC_SIGN PROC_STATUS_RUN uid 100 1 1 0 q [0; 0].
Definition demo_empty : MpmcQueue.lf_mpmc_queue := MpmcQueue.queue (MpmcQueue.init_sys (2 ^ 1)).
Definition demo_sending : world :=
  set_funcs [RpcFunc 2 0 [8192; 0; 16384; 0; 0; 0; 0; 0]]
    (set_procs (<[8192 := demo_proc 5 demo_empty]> (<[16384 := demo_proc 6 MpmcAlone.one_element]> ∅)) demo_waiting).
Lemma demo_proc_healthy uid q l : 0 < uid < 2 ^ 16 -> MpmcAlone.represents 1 q l -> Z.of_nat (length l) < 2 ->
  MpmcQueue.head q < 2 ^ 62 -> healthy 1 (demo_proc uid q) l.
Proof. intros. split; try done. cbn [p_queue demo_proc]. lia. Qed.
Lemma demo_all_healthy : all_healthy 1 [8192; 16384] demo_sending.
Proof.
  intros p Hp. repeat apply elem_of_cons in Hp as [->|Hp]; [..|by apply not_elem_of_nil in Hp].
  - split; [lia|]. exists (demo_proc 5 demo_empty), []. split; [vm_compute; reflexivity|].
    apply demo_proc_healthy; [lia|apply MpmcAlone.represents_init; lia|simpl; lia|vm_compute; reflexivity].
  - split; [lia|]. exists (demo_proc 6 MpmcAlone.one_element), [77]. split; [vm_compute; reflexivity|].
    apply demo_proc_healthy; [lia|apply MpmcAlone.one_element_ok|simpl; lia|vm_compute; reflexivity].
Qed.
Lemma demo_request_req_ok : req_ok demo_request.
Proof. destruct demo_request_ok as [H Hc]. split; [exact H|]. split; vm_compute; congruence. Qed.
