(* ===== verification/Distribution.v ===== *)
(** Sending a request ([libsrpc_send_request] up to the wait, [libsrpc.c]): the main cells
    and the extension block of the function, in each mode. *)
From S2P Require Import Prelude Machine Errno Bytes Request RequestSpec World Rpc RpcSpec.
From S2P Require MpmcQueue MpmcAlone.

(** ** The registered processes *)

(** The cells of a function: its main block, then the extension block when it has one. *)
Definition ext_cells (f : rpc_func) (w : world) : list Z :=
  if ext_ptr f =? NULL then [] else match ebs w !! ext_ptr f with Some x => take (Z.to_nat (szfn x)) (eb_proc x) | None => [] end.
Definition registered (f : rpc_func) (w : world) : list Z := live (main_block f ++ ext_cells f w).
(** Its blocks are there. *)
Definition blocks_ok (f : rpc_func) (w : world) : Prop :=
  length (main_block f) = Z.to_nat LIBSRPC_RFMB_SZ /\
  (ext_ptr f <> NULL -> exists x, ebs w !! ext_ptr f = Some x /\ (Z.to_nat (szfn x) <= length (eb_proc x))%nat /\ Z.of_nat (Z.to_nat (szfn x)) < 2 ^ 31).

(** Whom a request with [n] slots is for: everybody, the first, the last, the next in
    turn. *)
Definition addressees (flags : send_flag) (rr n : Z) (ps : list Z) : list Z :=
  match flags with
  | RPC_SEND_ALL => take (Z.to_nat n) ps
  | RPC_SEND_FIRST => take 1 ps
  | RPC_SEND_LAST => match ps with [] => [] | p :: ps => [List.last ps p] end
  | RPC_SEND_RR => match ps !! Z.to_nat (rr mod n) with Some p => [p] | None => [] end
  end.
Definition slots_for (flags : send_flag) (n : Z) : Z := match flags with RPC_SEND_FIRST | RPC_SEND_RR => 1 | _ => n end.

(** ** The loops choose them *)

Lemma chosen_live flags rr cs : flags <> RPC_SEND_LAST -> flags <> RPC_SEND_RR -> forall cnt, chosen flags rr cnt cs = live cs.
Proof.
  intros H1 H2. induction cs as [|c cs IH]; intros cnt; [done|]. cbn [chosen]. rewrite filter_cons. destruct (Z.eqb_spec c NULL) as [->|Hc].
  - by rewrite decide_False by (intros H; by apply H).
  - rewrite decide_True by done. by destruct flags; rewrite ?IH.
Qed.
Lemma chosen_last rr cs : forall cnt, chosen RPC_SEND_LAST rr cnt cs = [].
Proof. induction cs as [|c cs IH]; intros cnt; [done|]. cbn [chosen]. by destruct (c =? NULL). Qed.
Lemma chosen_rr rr cs : forall cnt, chosen RPC_SEND_RR rr cnt cs =
  if decide (cnt <= rr) then match live cs !! Z.to_nat (rr - cnt) with Some p => [p] | None => [] end else [].
Proof.
  induction cs as [|c cs IH]; intros cnt; cbn [chosen]; [by destruct (decide _)|]. rewrite filter_cons. destruct (Z.eqb_spec c NULL) as [->|Hc].
  { by rewrite (decide_False (P := NULL <> NULL)) by (intros H; by apply H). }
  rewrite (decide_True (P := c <> NULL)) by done. rewrite !IH. destruct (Z.eqb_spec rr cnt) as [->|Hne].
  - rewrite decide_False by lia. rewrite decide_True by lia. by rewrite Z.sub_diag.
  - destruct (decide (cnt + 1 <= rr)) as [Hle|Hlt].
    + rewrite decide_True by lia. by replace (Z.to_nat (rr - cnt)) with (S (Z.to_nat (rr - (cnt + 1)))) by lia.
    + by rewrite decide_False by lia.
Qed.
Lemma chosen_app flags rr cs2 cs1 : forall cnt, chosen flags rr cnt (cs1 ++ cs2) =
  chosen flags rr cnt cs1 ++ chosen flags rr (match flags with RPC_SEND_RR => cnt + Z.of_nat (length (live cs1)) | _ => cnt end) cs2.
Proof.
  induction cs1 as [|c cs1 IH]; intros cnt; [cbn; destruct flags; by rewrite ?Z.add_0_r|]. cbn [chosen app]. rewrite filter_cons. destruct (Z.eqb_spec c NULL) as [->|Hc].
  { by rewrite (decide_False (P := NULL <> NULL)) by (intros H; by apply H). }
  rewrite (decide_True (P := c <> NULL)) by done. rewrite !IH. cbn [length].
  destruct flags; [done..|]. replace (cnt + 1 + Z.of_nat (length (live cs1))) with (cnt + Z.of_nat (S (length (live cs1)))) by lia. by destruct (rr =? cnt).
Qed.
Lemma chosen_sub flags rr cs : forall cnt, sublist (chosen flags rr cnt cs) (live cs).
Proof.
  induction cs as [|c cs IH]; intros cnt; cbn [chosen]; [done|]. rewrite filter_cons. destruct (Z.eqb_spec c NULL) as [->|Hc].
  { by rewrite decide_False by (intros H; by apply H). }
  rewrite decide_True by done. destruct flags; [by constructor..|]. destruct (rr =? cnt); by constructor.
Qed.
Lemma chosen_cnt flags rr cs cnt cnt' : flags <> RPC_SEND_RR -> chosen flags rr cnt cs = chosen flags rr cnt' cs.
Proof. intros H. destruct (decide (flags = RPC_SEND_LAST)) as [->|]; [by rewrite !chosen_last|by rewrite !chosen_live]. Qed.
Lemma last_live (cs : list Z) d : live cs <> [] -> List.last (live cs) d <> NULL /\ List.last (live cs) d ∈ live cs.
Proof.
  intros Hne. assert (List.last (live cs) d ∈ live cs) as Hin.
  { destruct (exists_last Hne) as (l & y & E). rewrite E, List.last_last. apply elem_of_app. right. apply list_elem_of_here. }
  split; [|done]. by apply list_elem_of_filter in Hin as [? _].
Qed.
Lemma last_app_default (l1 l2 : list Z) d : List.last (l1 ++ l2) d = List.last l2 (List.last l1 d).
Proof. revert d. induction l1 as [|x l1 IH]; intros d; [done|]. cbn [app]. by rewrite !last_cons_default, IH. Qed.

(** ** Running them *)

Section send.
Context (k : Z) (Hk : 1 <= k <= 61) (pause : WM unit).
Context (fidx a rr_pos : Z) (flags : send_flag) (w : world) (r : request) (f : rpc_func).
Context (Hf : get_func fidx w = Ret f w) (Hb : blocks_ok f w) (Hd : NoDup (registered f w)) (Hh : all_healthy k (registered f w) w).
Context (Er : reqs w !! a = Some r) (Hr : req_ok r) (Hn : 1 <= retnum r) (Hrr : 0 <= rr_pos).
Abbreviation num := (retnum r).

Lemma same_func w1 : funcs w1 = funcs w -> get_func fidx w1 = Ret f w1.
Proof.
  intros E. unfold get_func in *. rewrite E. destruct (fidx <? 0); [done|]. destruct (funcs w !! Z.to_nat fidx); [|done]. by injection Hf as ->.
Qed.
Lemma main_cells_read : reads_cells (main_cell fidx) 0 (main_block f) w.
Proof. intros i c w1 Hi Hfu _. unfold main_cell. rewrite Z.add_0_l. by rewrite (bind_ret _ _ _ _ _ (same_func w1 Hfu)), Nat2Z.id, Hi. Qed.
Lemma num_small : num < 2 ^ 32.
Proof. destruct Hr as ([_ _ ? _ _] & _). lia. Qed.
Lemma registered_parts : registered f w = live (main_block f) ++ live (ext_cells f w).
Proof. apply filter_app. Qed.

(** The requests that both loops send. *)
Definition looped : list Z := take (Z.to_nat num) (chosen flags rr_pos 0 (main_block f ++ ext_cells f w)).
Definition sent_state (s : sending) (ps : list Z) (w' : world) : Prop :=
  delivered k a 0 ps w w' /\ it s = Z.of_nat (length ps) /\
  exists r', reqs w' !! a = Some r' /\ (hp_regfn r = NULL -> hp_regfn r' = NULL).

(** The main block, in any case. *)
Lemma main_loop : exists s w1, let ps := take (Z.to_nat num) (chosen flags rr_pos 0 (main_block f)) in
  send_cells (2 ^ k) pause (Z.to_nat LIBSRPC_RFMB_SZ) 0 (main_cell fidx) flags rr_pos num a (Sending 0 0 NULL) w = Ret s w1 /\
  sent_state s ps w1 /\ loop_end flags num (main_block f) (Sending 0 0 NULL) s.
Proof.
  pose proof num_small. rewrite registered_parts in Hd, Hh. apply NoDup_app in Hd as (Hd1 & _ & _).
  assert (all_healthy k (live (main_block f)) w) as Hh1 by (intros p Hp; apply Hh, elem_of_app; by left).
  destruct (send_cells_run k Hk pause (main_cell fidx) a num flags rr_pos (main_block f) 0 (Sending 0 0 NULL) w r)
    as (s & w1 & E & D & Ei & He & r1 & Er1 & Ehp); [exact main_cells_read|done|done|done|lia|done|done| |done|done|].
  { cbn [rr_cnt]. destruct Hb as [-> _]. vm_compute. done. }
  cbn [it rr_cnt] in D, Ei. rewrite Z.sub_0_r in D, Ei. rewrite Z.add_0_l in Ei. exists s, w1. split; [destruct Hb as [<- _]; exact E|]. split; [|done]. split; [exact D|]. split; [exact Ei|].
  exists r1. split; [done|]. by rewrite Ehp.
Qed.

(** No extension block, or nothing left to send. *)
Lemma loops_stop s : loop_end flags num (main_block f) (Sending 0 0 NULL) s ->
  it s = Z.of_nat (length (take (Z.to_nat num) (chosen flags rr_pos 0 (main_block f)))) ->
  (negb (ext_ptr f =? NULL) && (it s <? num) = false) ->
  take (Z.to_nat num) (chosen flags rr_pos 0 (main_block f)) = looped /\
  proc_last s = if bool_decide (flags = RPC_SEND_LAST) then List.last (registered f w) NULL else NULL.
Proof.
  intros [_ Hl] Hi Hstop. rewrite (proj2 (Z.ltb_lt (it (Sending 0 0 NULL)) num)), andb_true_r in Hl by (cbn; lia). cbn [proc_last] in Hl.
  unfold looped. rewrite registered_parts. apply andb_false_iff in Hstop as [Hx|Hx].
  - apply negb_false_iff in Hx. unfold ext_cells. rewrite Hx, !app_nil_r. by rewrite Hl.
  - apply Z.ltb_ge in Hx. rewrite chosen_app. assert (Z.to_nat num <= length (chosen flags rr_pos 0 (main_block f)))%nat as Hlen.
    { rewrite length_take in Hi. lia. }
    rewrite take_app_le by lia. split; [done|]. rewrite Hl. destruct (decide (flags = RPC_SEND_LAST)) as [->|Hne]; [|by rewrite bool_decide_false].
    exfalso. rewrite chosen_last in Hlen. cbn in Hlen. lia.
Qed.

(** The extension block, with requests left to send. *)
Lemma ext_loop fuel s w1 : (0 < fuel)%nat -> let ps1 := take (Z.to_nat num) (chosen flags rr_pos 0 (main_block f)) in
  sent_state s ps1 w1 -> loop_end flags num (main_block f) (Sending 0 0 NULL) s -> ext_ptr f <> NULL -> it s < num ->
  exists s' w', (eb ← hold_ext fuel fidx a (ext_ptr f);
      x ← get_eb eb;
      s ← send_cells (2 ^ k) pause (Z.to_nat (szfn x)) 0 (ext_cell eb) flags rr_pos num a s;
      upd_req a (set_hp_regfn NULL) ;;
      mret s) w1 = Ret s' w' /\ sent_state s' looped w' /\
    proc_last s' = if bool_decide (flags = RPC_SEND_LAST) then List.last (registered f w) NULL else NULL.
Proof.
  intros Hfuel ps1 (D & Hi & r1 & Er1 & Hhp) [Hend Hl] Hext Hlt. pose proof num_small as Hn32. destruct Hb as [Hlen Heb]. destruct (Heb Hext) as (x & Ex & Hsz & Hsz2).
  assert (ext_cells f w = take (Z.to_nat (szfn x)) (eb_proc x)) as Ecells by (unfold ext_cells; rewrite (proj2 (Z.eqb_neq _ _) Hext), Ex; done).
  pose proof Hd as Hd'. rewrite registered_parts in Hd'. apply NoDup_app in Hd' as (Hd1 & Hd12 & Hd2).
  assert (NoDup ps1) as Hdps by (eapply sublist_NoDup; [|apply sublist_take]; eapply sublist_NoDup; [exact Hd1|apply chosen_sub]).
  assert (forall p, p ∈ ps1 -> p ∈ live (main_block f)) as Hsub by (intros p Hp; eapply elem_of_sublist; [|apply chosen_sub]; eapply elem_of_sublist; [exact Hp|apply sublist_take]).
  destruct (delivered_facts _ _ _ _ _ _ D r Hdps Er Hr ltac:(lia)) as (r1' & Er1' & L1 & Ew & _ & _ & Hnot & _). rewrite Er1 in Er1'. injection Er1' as <-.
  assert (retnum r1 = num) as En1 by apply L1.
  destruct fuel as [|n]; [lia|]. cbn [hold_ext]. rewrite (bind_bind_ret _ _ _ _ _ _ (upd_req_run a w1 r1 _ Er1)). set (w2 := set_reqs _ w1).
  assert (funcs w2 = funcs w /\ ebs w2 = ebs w) as [Hfu He] by (unfold w2; rewrite Ew; done).
  rewrite (bind_bind_ret _ _ _ _ _ _ (same_func w2 Hfu)), Z.eqb_refl, bind_mret.
  assert (get_eb (ext_ptr f) w2 = Ret x w2) as Eeb by (unfold get_eb, deref; by rewrite He, Ex).
  rewrite (bind_ret _ _ _ _ _ Eeb).
  assert (rr_cnt s = if bool_decide (flags = RPC_SEND_RR) then Z.of_nat (length (live (main_block f))) else 0) as Erc by (rewrite Hend by done; done).
  assert (length (live (main_block f)) <= 8)%nat as Hl8 by (change 8%nat with (Z.to_nat LIBSRPC_RFMB_SZ); rewrite <- Hlen; apply length_filter).
  destruct (send_cells_run k Hk pause (ext_cell (ext_ptr f)) a num flags rr_pos (ext_cells f w) 0 s w2 (set_hp_regfn (ext_ptr f) r1))
    as (s2 & w3 & E & D2 & Ei2 & [_ Hl2] & r3 & Er3 & _).
  { intros i c w4 Hic _ Heb4. unfold ext_cell. rewrite Z.add_0_l. assert (get_eb (ext_ptr f) w4 = Ret x w4) as E4 by (unfold get_eb, deref; by rewrite Heb4, He, Ex).
    rewrite (bind_ret _ _ _ _ _ E4), Nat2Z.id. rewrite Ecells in Hic. apply lookup_take_Some in Hic as [-> _]. done. }
  { apply lookup_insert_eq. }
  { apply (same_layout_ok r1); [by repeat split|]. by apply (same_layout_ok r). }
  { rewrite Hi. lia. }
  { cbn [retnum set_hp_regfn]. lia. }
  { exact Hn32. }
  { rewrite Erc. destruct (bool_decide _); lia. }
  { rewrite Erc, Ecells, length_take_le by done. destruct (bool_decide _); lia. }
  { exact Hd2. }
  { intros p Hp. destruct (Hh p) as (H0 & y & ly & Ey & Hy); [rewrite registered_parts, elem_of_app; by right|]. split; [done|]. exists y, ly. split; [|done].
    change (procs w2) with (procs w1). rewrite Hnot; [done|]. intros Hp1. apply (Hd12 p); [by apply Hsub|done]. }
  rewrite Ecells, length_take_le in E by done. rewrite (bind_ret _ _ _ _ _ E). rewrite (bind_ret _ _ _ _ _ (upd_req_run a w3 r3 _ Er3)).
  eexists s2, _. split; [reflexivity|].
  assert (ps1 = chosen flags rr_pos 0 (main_block f)) as Eps1.
  { unfold ps1. apply take_ge. fold ps1 in Hi. unfold ps1 in Hi. rewrite length_take in Hi. lia. }
  assert (looped = ps1 ++ take (Z.to_nat (num - it s)) (chosen flags rr_pos (rr_cnt s) (ext_cells f w))) as Elo.
  { unfold looped. rewrite chosen_app, take_app, <- Eps1, take_ge by (rewrite Eps1; rewrite Eps1 in Hi; lia). f_equal.
    replace (Z.to_nat num - length ps1)%nat with (Z.to_nat (num - it s)) by lia. f_equal. rewrite Erc.
    destruct (decide (flags = RPC_SEND_RR)) as [->|Hne]; [by rewrite bool_decide_true by done|]. by apply chosen_cnt. }
  split; [split; [|split]|].
  - rewrite Elo. eapply delivered_app; [exact D|]. rewrite Z.add_0_l, <- Hi. eapply (delivered_hold k a _ _ w1 _ r1 (ext_ptr f)); [done|].
    rewrite <- (app_nil_r (take _ _)). eapply delivered_app; [exact D2|]. eapply delivered_hold; [exact Er3|]. constructor.
  - rewrite Ei2, Elo, length_app. lia.
  - eexists. split; [apply lookup_insert_eq|done].
  - rewrite Hl2, Hl. cbn [it proc_last]. rewrite (proj2 (Z.ltb_lt (it s) num)), (proj2 (Z.ltb_lt 0 num)), !andb_true_r by lia.
    destruct (decide (flags = RPC_SEND_LAST)) as [He2|He2]; [rewrite !bool_decide_true by done|by rewrite !bool_decide_false by done].
    by rewrite registered_parts, last_app_default.
Qed.

Lemma loops_run fuel : (0 < fuel)%nat -> exists s w', send_loops (2 ^ k) fuel pause fidx a (ext_ptr f) num rr_pos flags w = Ret s w' /\ sent_state s looped w' /\
  proc_last s = if bool_decide (flags = RPC_SEND_LAST) then List.last (registered f w) NULL else NULL.
Proof.
  intros Hfuel. destruct main_loop as (s & w1 & E & Hs & He). unfold send_loops. rewrite (bind_ret _ _ _ _ _ E).
  destruct (negb (ext_ptr f =? NULL) && (it s <? num)) eqn:Eg.
  - apply andb_true_iff in Eg as [Hx%negb_true_iff%Z.eqb_neq Hlt%Z.ltb_lt]. by apply ext_loop.
  - pose proof Hs as (_ & Hi & _). destruct (loops_stop s He Hi Eg) as [E1 E2]. exists s, w1. split; [done|]. split; [by rewrite <- E1|exact E2].
Qed.

(** For LAST the last process of all is sent to afterwards. *)
Definition receivers : list Z := if bool_decide (flags = RPC_SEND_LAST) then addressees RPC_SEND_LAST 0 0 (registered f w) else looped.
Lemma distribute_run fuel : (0 < fuel)%nat -> exists w', distribute (2 ^ k) fuel pause fidx a (ext_ptr f) num rr_pos flags w =
    Ret (Z.of_nat (length receivers), if bool_decide (flags = RPC_SEND_LAST /\ registered f w <> []) then 1 else num) w' /\
  delivered k a 0 receivers w w' /\ exists r', reqs w' !! a = Some r' /\ (hp_regfn r = NULL -> hp_regfn r' = NULL).
Proof.
  intros Hfuel. destruct (loops_run fuel Hfuel) as (s & w1 & E & (D & Hi & r1 & Er1 & Hhp) & Hl). unfold distribute. rewrite (bind_ret _ _ _ _ _ E). unfold receivers.
  destruct (decide (flags = RPC_SEND_LAST)) as [Ef|Ef].
  - rewrite (bool_decide_true (flags = RPC_SEND_LAST)) in * by done. assert (looped = []) as Elo by (unfold looped; rewrite Ef, chosen_last; by rewrite take_nil).
    rewrite Elo in *. cbn [length] in Hi. destruct (registered f w) as [|p ps] eqn:Ereg.
    { rewrite Hl. cbn. rewrite bool_decide_false by (intros [_ H]; by apply H). rewrite Hi. exists w1. split; [done|]. split; [exact D|by exists r1]. }
    rewrite bool_decide_true by done. cbn [addressees]. rewrite Hl, last_cons_default.
    assert (live (main_block f ++ ext_cells f w) = p :: ps) as Elv by exact Ereg.
    destruct (last_live (main_block f ++ ext_cells f w) NULL) as [Hq Hin]; [by rewrite Elv|]. rewrite Elv, last_cons_default in Hq, Hin. set (q := List.last ps p) in *.
    rewrite (proj2 (Z.eqb_neq q NULL)) by done. cbn [andb negb]. rewrite Hi.
    destruct (Hh q Hin) as (Hq64 & x & l & Ex & Hx).
    destruct (delivered_facts _ _ _ _ _ _ D r NoDup_nil_2 Er Hr ltac:(lia)) as (r1' & Er1' & L1 & Ew & _ & _ & Hnot & _). rewrite Er1 in Er1'. injection Er1' as <-.
    assert (req_ok r1) as Hr1 by by apply (same_layout_ok r). assert (retnum r1 = num) as En by apply L1.
    destruct (send_one_run k Hk pause q a 0 w1 r1 x l Er1 Hr1 ltac:(lia)) as (r2 & x2 & Es & B & Hsf & Hg); [|exact Hx|exact Hq64|].
    { rewrite Hnot; [done|apply not_elem_of_nil]. }
    rewrite (bind_ret _ _ _ _ _ Es). cbn [Z.eqb length]. eexists. split; [reflexivity|]. split.
    + change [q] with ([] ++ [q]). eapply delivered_app; [exact D|]. cbn [length]. eapply (delivered_cons k a _ q [] w1 _ r1 r2 x x2 l); try done.
      * cbn. lia.
      * rewrite Hnot; [done|apply not_elem_of_nil].
      * constructor.
    + exists r2. split; [apply lookup_insert_eq|]. destruct B as (-> & _). exact Hhp.
  - rewrite (bool_decide_false (flags = RPC_SEND_LAST)) in * by done. cbn [andb]. rewrite bool_decide_false by (intros [? _]; done).
    exists w1. rewrite Hi. split; [done|]. split; [exact D|by exists r1].
Qed.
End send.

(** ** The phase as a whole *)

Lemma receivers_addressed flags rr n f w r0 : 1 <= n -> retnum r0 = slots_for flags n ->
  receivers (match flags with RPC_SEND_RR => rr mod n | _ => 0 end) flags w r0 f = addressees flags rr n (registered f w).
Proof.
  intros Hn En. unfold receivers, looped. rewrite En. destruct flags; cbn [slots_for addressees].
  - rewrite bool_decide_false by done. by rewrite chosen_live.
  - rewrite bool_decide_false by done. by rewrite chosen_live.
  - by rewrite bool_decide_true.
  - rewrite bool_decide_false by done. pose proof (Z.mod_pos_bound rr n ltac:(lia)). rewrite chosen_rr, decide_True, Z.sub_0_r by lia.
    change (live (main_block f ++ ext_cells f w)) with (registered f w). by destruct (registered f w !! _).
Qed.
Lemma addressees_nodup flags rr n ps : NoDup ps -> NoDup (addressees flags rr n ps).
Proof.
  intros Hd. destruct flags; cbn [addressees].
  - eapply sublist_NoDup; [exact Hd|apply sublist_take].
  - eapply sublist_NoDup; [exact Hd|apply sublist_take].
  - destruct ps; [constructor|apply NoDup_singleton].
  - destruct (ps !! _); [apply NoDup_singleton|constructor].
Qed.
Lemma choose_mode_run fidx flags n w : 1 <= n -> let rr := default 0 (req_send_rr w !! Z.to_nat fidx) in
  choose_mode fidx flags n w = Ret (slots_for flags n, match flags with RPC_SEND_RR => rr mod n | _ => 0 end)
    (set_rr (match flags with RPC_SEND_RR => <[Z.to_nat fidx := u32 (rr + 1)]> (req_send_rr w) | _ => req_send_rr w end) w).
Proof.
  intros Hn rr. destruct flags; cbn [choose_mode slots_for]; try by destruct w. unfold mbind, M_bind, gets, modify. fold rr.
  destruct (Z.ltb_spec 1 n); [done|]. by replace n with 1 by lia.
Qed.
Lemma retnum_ok r n : req_ok r -> 1 <= n <= retnum r -> req_ok (set_retnum n r).
Proof.
  intros (H & Hs & Hr) Hn. pose proof H as [H1 H2 H3 H4 H5]. assert (header_ok (set_retnum n r)) as H' by (split; cbn; done || lia).
  split; [done|]. split; [|done]. rewrite req_size_exact in Hs |- * by done. cbn. nia.
Qed.

(** Sending does not touch the identity of the request. *)
Lemma delivered_header k a i ps w w' : delivered k a i ps w w' -> forall r r', reqs w !! a = Some r -> reqs w' !! a = Some r' ->
  funid r' = funid r /\ sign r' = sign r /\ seq_num r' = seq_num r.
Proof.
  induction 1 as [i w|i p ps w w2 r0 r1 x x' l Er0 Hr0 Hi0 Ex Hx B Hsf Hg D IH|i ps w w2 r0 v Er0 D IH]; intros r r' Er Er'.
  - rewrite Er in Er'. by injection Er' as <-.
  - rewrite Er in Er0. injection Er0 as <-. destruct (IH r1 r' (lookup_insert_eq _ _ _) Er') as (-> & -> & ->).
    destruct B as (-> & _). done.
  - rewrite Er in Er0. injection Er0 as <-. exact (IH (set_hp_regfn v r) r' (lookup_insert_eq _ _ _) Er').
Qed.

Lemma send_phase_run k fuel pause fidx flags a w r f : 1 <= k <= 61 -> (0 < fuel)%nat ->
  get_func fidx w = Ret f w -> blocks_ok f w -> NoDup (registered f w) -> all_healthy k (registered f w) w ->
  reqs w !! a = Some r -> req_ok r -> 1 <= retnum r ->
  let rr := default 0 (req_send_rr w !! Z.to_nat fidx) in
  let ps := addressees flags rr (retnum r) (registered f w) in
  let num := slots_for flags (retnum r) in
  exists w' r', send_phase (2 ^ k) fuel pause fidx a (ext_ptr f) (retnum r) flags w =
      Ret (Z.of_nat (length ps), if bool_decide (flags = RPC_SEND_LAST /\ registered f w <> []) then 1 else num) w' /\
    reqs w' !! a = Some r' /\ same_layout (set_retnum num r) r' /\ funid r' = funid r /\ sign r' = sign r /\ (hp_regfn r = NULL -> hp_regfn r' = NULL) /\
    w' = set_procs (procs w') (set_reqs (<[a := r']> (reqs w))
      (set_rr (match flags with RPC_SEND_RR => <[Z.to_nat fidx := u32 (rr + 1)]> (req_send_rr w) | _ => req_send_rr w end) w)) /\
    slice 0 (Z.to_nat (retoff r)) (buf r') = slice 0 (Z.to_nat (retoff r)) (buf r) /\
    (forall t p, ps !! t = Some p -> exists x x' l, procs w !! p = Some x /\ healthy k x l /\
       slot_for p (proc_uid x) (slot_offset r (Z.of_nat t)) r' /\ procs w' !! p = Some x' /\ got_request k l a x x') /\
    (forall p, p ∉ ps -> procs w' !! p = procs w !! p) /\
    (forall j, Z.of_nat (length ps) <= j < num -> slot_bytes r' j = slot_bytes r j).
Proof.
  intros Hk Hfuel Hf Hb Hd Hh Er Hr Hn rr ps num. set (r0 := set_retnum num r).
  assert (req_ok r0) as Hr0 by (apply retnum_ok; [done|]; unfold num; destruct flags; cbn [slots_for]; lia).
  unfold send_phase. rewrite (bind_ret _ _ _ _ _ (choose_mode_run fidx flags (retnum r) w Hn)). fold rr num. set (w0 := set_rr _ w).
  rewrite (bind_ret _ _ _ _ _ (upd_req_run a w0 r (set_retnum num) Er)). fold r0. set (w1 := set_reqs _ w0).
  assert (reqs w1 !! a = Some r0) as Er1 by apply lookup_insert_eq.
  destruct (distribute_run k Hk pause fidx a (match flags with RPC_SEND_RR => rr mod retnum r | _ => 0 end) flags w1 r0 f) with (fuel := fuel)
    as (w' & E & D & r' & Er' & Hhp); [|exact Hb|exact Hd|exact Hh|exact Er1|exact Hr0| |exact Hfuel|].
  { unfold get_func in *. change (funcs w1) with (funcs w). destruct (fidx <? 0); [done|]. destruct (funcs w !! Z.to_nat fidx); [|done]. by injection Hf as ->. }
  { cbn. unfold num. destruct flags; cbn [slots_for]; lia. }
  rewrite (receivers_addressed flags rr (retnum r) f w1 r0 Hn eq_refl) in E, D. change (registered f w1) with (registered f w) in E, D. fold ps in E, D.
  destruct (delivered_facts _ _ _ _ _ _ D r0 (addressees_nodup _ _ _ _ Hd) Er1 Hr0 ltac:(lia)) as (r2 & Er2 & L & Ew & Ea & Hps & Hnot & Hsl).
  rewrite Er' in Er2. injection Er2 as <-. exists w', r'. split; [exact E|]. split; [exact Er'|]. split; [exact L|]. destruct (delivered_header _ _ _ _ _ _ D r0 r' Er1 Er') as (H1 & H2 & _). split; [exact H1|]. split; [exact H2|]. split; [exact Hhp|]. split; [|split; [exact Ea|split; [|split]]].
  - rewrite Ew. unfold w1, w0, set_procs, set_reqs, set_rr. cbn. by rewrite insert_insert_eq.
  - intros t p Ht. destruct (Hps t p Ht) as [_ Hp]. exact Hp.
  - exact Hnot.
  - intros j Hj. apply Hsl; cbn; lia.
Qed.
(** (C24) What [libsrpc_send_request] does before it waits, when every registered process is
    running and has room in its queue, over the main cells and the extension block of the
    function: the request goes to the first [n] registered processes for ALL, where [n]
    is its number of slots, to the first for FIRST, to the last for LAST, to the one whose
    turn it is for RR, which advances the function's counter.  The [t]-th of them has it
    at the tail of its queue and is woken if one of its threads sleeps; slot [t] names it,
    carries its uid and is empty.  All other processes, the arguments and the other slots
    are untouched and the hazard pointer on the extension block is released. *)
Theorem request_distribution k fuel pause fidx flags a w r f : 1 <= k <= 61 -> (0 < fuel)%nat ->
  get_func fidx w = Ret f w -> blocks_ok f w -> NoDup (registered f w) -> all_healthy k (registered f w) w ->
  reqs w !! a = Some r -> req_ok r -> 1 <= retnum r ->
  let rr := default 0 (req_send_rr w !! Z.to_nat fidx) in
  let ps := addressees flags rr (retnum r) (registered f w) in
  let num := slots_for flags (retnum r) in
  exists w' r', send_phase (2 ^ k) fuel pause fidx a (ext_ptr f) (retnum r) flags w =
      Ret (Z.of_nat (length ps), if bool_decide (flags = RPC_SEND_LAST /\ registered f w <> []) then 1 else num) w' /\
    reqs w' !! a = Some r' /\ same_layout (set_retnum num r) r' /\ funid r' = funid r /\ sign r' = sign r /\ (hp_regfn r = NULL -> hp_regfn r' = NULL) /\
    w' = set_procs (procs w') (set_reqs (<[a := r']> (reqs w))
      (set_rr (match flags with RPC_SEND_RR => <[Z.to_nat fidx := u32 (rr + 1)]> (req_send_rr w) | _ => req_send_rr w end) w)) /\
    slice 0 (Z.to_nat (retoff r)) (buf r') = slice 0 (Z.to_nat (retoff r)) (buf r) /\
    (forall t p, ps !! t = Some p -> exists x x' l, procs w !! p = Some x /\ healthy k x l /\
       slot_for p (proc_uid x) (slot_offset r (Z.of_nat t)) r' /\ procs w' !! p = Some x' /\ got_request k l a x x') /\
    (forall p, p ∉ ps -> procs w' !! p = procs w !! p) /\
    (forall j, Z.of_nat (length ps) <= j < num -> slot_bytes r' j = slot_bytes r j).
Proof. apply send_phase_run. Qed.
(** Two processes, the second in the extension block at 512. *)
Definition demo_ext : ext_block := ExtBlock 0 32 0 ([0; 16384] ++ replicate 30 0).
Definition demo_extended : world := set_ebs {[ 512 := demo_ext ]} demo_sending.
Definition demo_function : rpc_func := RpcFunc 2 512 [8192; 0; 0; 0; 0; 0; 0; 0].
Definition demo_function_world : world := set_funcs [demo_function] demo_extended.
Lemma request_distribution_witness : exists w' r',
  send_phase 2 1 (mret tt) 0 4096 512 2 RPC_SEND_LAST demo_function_world = Ret (1, 1) w' /\
  reqs w' !! 4096 = Some r' /\ resp_hp 8 r' = 16384 /\ resp_uid 8 r' = 6.
Proof.
  destruct (request_distribution 1 1 (mret tt) 0 RPC_SEND_LAST 4096 demo_function_world demo_request demo_function)
    as (w' & r' & E & Er & _ & _ & _ & _ & _ & _ & Hp & _).
  - lia.
  - lia.
  - reflexivity.
  - split; [reflexivity|]. intros _. exists demo_ext. split; [reflexivity|]. split; [simpl; lia|]. vm_compute. reflexivity.
  - refine (bool_decide_unpack _ _). vm_compute. exact I.
  - exact demo_all_healthy.
  - reflexivity.
  - exact demo_request_req_ok.
  - vm_compute. congruence.
  - exists w', r'. split; [exact E|]. split; [exact Er|].
    destruct (Hp 0%nat 16384 eq_refl) as (x & x' & l & Ex & _ & (_ & H1 & H2) & _). split; [exact H1|].
    vm_compute in Ex. injection Ex as <-. exact H2.
Defined.
