(* ===== verification/RpcCall.v ===== *)
(** The remote call, continued ([libsrpc.c]): the request block of a thread, the
    stub that replaces an RPC function, and the worker that runs it. *)
From S2P Require Import Prelude Machine Errno Bytes Request Marshal World Shmem Rpc.
From S2P Require MpmcQueue ListSpin TlsfApi.
#[local] Existing Instance MpmcQueue.lf_queue_result_eq.

Definition libsrpc_shm_gc_wakeup : WM Z :=
  shm ← libsrpc_shmem_get;
  if shm =? NULL then mret (- ESHMNOINIT)
  else modify (fun w => set_gc_sem (gc_sem w + 1) w) ;; mret 0.

(** An RPC function as the macros see it: the sizes of its parameters and of its
    result ([None] for [void]), whether the process only has the stub, and the
    local function: bytes of the arguments to bytes of the result. *)
Record rpc_handler := Handler {
  h_sizes : list nat;
  h_ret : option nat;
  h_is_stub : bool;
  h_call : list (list Z) -> WM (list Z) }.

Section call.
Context (cap : Z) (fuel : nat).
Context (pause : WM unit) (sem_timedwait : Z -> Z -> WM Z).
(** The functions of this process, by identifier. *)
Context (handler : Z -> option rpc_handler).

(** ** The request block of the thread *)

Definition libsrpc_req_free (a : Z) : WM unit :=
  if a =? NULL then mret tt
  else
    lift_list (ListSpin.libsrpc_list_remove fuel (node_of a)) ;;
    libsrpc_shmem_free_dc a ;;
    libsrpc_shm_gc_wakeup ;;
    mret tt.

(** [memset(req, 0, sz)] and the initialisation of a block of [sz] bytes. *)
Definition init_request (a sz : Z) (locks : list Z) : WM unit :=
  put_req a (Request 0 NULL LIBSRPC_REQ_SIGN 0 locks 0 0 0 0 0
    (replicate (Z.to_nat (sz - offsetof_request_buf)) 0)) ;;
  lift_list (ListSpin.libsrpc_list_node_init (node_of a)).

Definition set_header (seq fid sz off rs num : Z) (r : request) : request :=
  Request (sem_wakeup r) (hp_regfn r) (sign r) seq (gc_lock_uid r) fid sz off rs num (buf r).

(** The last lines of [libsrpc_req_alloc]: the header of the new call. *)
Definition finish_alloc (a fid sz off rs num : Z) : WM Z :=
  seq ← getl req_seq_num;
  modl (set_req_seq (u32 (seq + 1))) ;;
  upd_req a (set_header seq fid (u32 sz) off rs num) ;;
  mret a.

Definition libsrpc_req_alloc (fid reqlen rlen : Z) : WM Z :=
  shm ← libsrpc_shmem_get;
  p ← getl my_proc;
  if shm =? NULL then errno_set ESHMNOINIT ;; mret NULL
  else
    f ← get_func (sRPC_ID2IDX fid);
    let num := num_all f in
    if num =? 0 then errno_set ENOREGFUN ;; mret NULL
    else
      let '(off, rs, sz) := req_layout reqlen rlen num in
      cur ← getl current_req;
      r ← req_or_null cur;
      let is_bad := libsrpc_req_is_bad r in
      match r with
      | Some rq =>
          if negb is_bad && (sz <=? bufsz rq) then finish_alloc cur fid sz off rs num
          else
            let sz := u64 (sz * 2) in
            a ← libsrpc_shmem_malloc_type sz SHMDT_REQUEST;
            if a =? NULL then errno_set ENOMEM ;; mret NULL
            else
              modl (set_current_req a) ;;
              init_request a sz (gc_lock_uid rq) ;;
              lift_list (ListSpin.libsrpc_list_push_front (req_head_of p) (node_of a)) ;;
              libsrpc_req_free cur ;;
              finish_alloc a fid sz off rs num
      | None =>
          let sz := u64 (sz * 2) in
          a ← libsrpc_shmem_malloc_type sz SHMDT_REQUEST;
          if a =? NULL then errno_set ENOMEM ;; mret NULL
          else
            modl (set_current_req a) ;;
            init_request a sz [0; 0; 0; 0] ;;
            lift_list (ListSpin.libsrpc_list_push_front (req_head_of p) (node_of a)) ;;
            finish_alloc a fid sz off rs num
      end.

(** ** The stub: the body [XF] generates for every RPC function

    The value is the bytes of [rbuf], zero where nothing was received. *)
Definition rpc_stub (fid : Z) (sizes : list nat) (rlen : nat) (flags : send_flag)
    (args : list (list Z)) : WM (list Z) :=
  errno_set 0 ;;
  if 32768 <? Z.of_nat rlen then fault
  else
    let rbuf := replicate rlen 0 in
    let len := M_REQSIZE sizes in
    a ← libsrpc_req_alloc fid (Z.of_nat len) (Z.of_nat rlen);
    if a =? NULL then mret rbuf
    else
      r ← get_req a;
      let '(pos, b) := M_BODYFUN args 0 (buf r) in
      put_req a (set_buf b r) ;;
      if negb (bool_decide (pos = len)) then errno_set EBADMSG ;; mret rbuf
      else
        r ← get_req a;
        let resp := libsrpc_req_get_response_fast (Some r) 0 in
        libsrpc_send_request cap fuel pause sem_timedwait a flags ;;
        r ← get_req a;
        let '(grc, val) := libsrpc_req_response_get (fun _ => r) resp rlen in
        (if grc <? 0 then errno_set (- grc) else mret tt) ;;
        mret (default rbuf val).

(** ** The worker *)

Definition libsrpc_callback_func (a : Z) (resp : option Z) (ctrl : Z) : WM Z :=
  match resp with
  | None => mret (- ENOTAVAILABLE)
  | Some o =>
      r ← get_req a;
      rc ←
        match handler (funid r) with
        | None => mret (- EBADMSG)
        | Some h =>
            if h_is_stub h then mret (- ERECURSIVE)
            else
              let '(_, args) := M_EXTRACTFUN (h_sizes h) 0 (buf r) in
              retval ← h_call h args;
              r ← get_req a;
              let '(rc, r') := libsrpc_req_response_set r o (Some ctrl)
                                 (match h_ret h with None => [] | Some _ => retval end) in
              put_req a r' ;; mret rc
        end;
      sem_post_req a ;;
      mret rc
  end.

Definition set_thread_hp (p : Z) (t : nat) (v : Z) : WM unit :=
  upd_proc p (fun x => set_hp_reqs (<[t := v]> (hp_reqs x)) x).

Definition libsrpc_request_lock (p : Z) (t : nat) (a : Z) : WM Z :=
  r ← req_or_null a;
  if libsrpc_req_is_corrupted r None then mret (- EBADMSG)
  else
    set_thread_hp p t a ;;
    r ← req_or_null a;
    if libsrpc_req_is_corrupted r None then set_thread_hp p t NULL ;; mret (- EBADMSG)
    else mret 0.
Definition libsrpc_request_unlock (p : Z) (t : nat) : WM Z := set_thread_hp p t NULL ;; mret 0.

(** The search for the worker's own slot; the value is the last slot looked at,
    as the C variable [resp] holds it when the loop ends. *)
Fixpoint own_slot (get : option request -> Z -> option Z) (n : nat) (i : Z) (r : request) (p uid : Z)
    (resp : option Z) : option Z :=
  match n with
  | O => resp
  | S n =>
      match get (Some r) i with
      | None => own_slot get n (i + 1) r p uid None
      | Some o =>
          if negb (resp_hp o r =? p) then own_slot get n (i + 1) r p uid (Some o)
          else if negb (uid =? resp_uid o r) then own_slot get n (i + 1) r p uid (Some o)
          else Some o
      end
  end.
(** The check after the loop. *)
Definition is_own_slot (r : request) (p uid : Z) (resp : option Z) : bool :=
  match resp with
  | None => false
  | Some o => (resp_hp o r =? p) && (resp_uid o r =? uid)
  end.

Definition libsrpc_request_processing (a p : Z) (t : nat) : WM Z :=
  if (a =? NULL) || (p =? NULL) then mret (- EINVAL)
  else
    libsrpc_request_lock p t a ;;
    r ← get_req a;
    if libsrpc_req_is_corrupted (Some r) None then libsrpc_request_unlock p t ;; mret (- EBADMSG)
    else
      let ctrl := control r in
      if (sRPCFNID_MAX <=? funid r) || (funid r <=? sRPCFNID_START)
      then libsrpc_request_unlock p t ;; mret (- EBADMSG)
      else
        x ← get_proc p;
        let resp := own_slot libsrpc_req_get_response_fast (Z.to_nat (retnum r)) 0 r p (proc_uid x) None in
        if negb (is_own_slot r p (proc_uid x) resp)
        then libsrpc_request_unlock p t ;; mret (- EBADMSG)
        else
          rc ← libsrpc_callback_func a resp ctrl;
          libsrpc_request_unlock p t ;;
          mret (if rc_st rc =? RC_ST_READY then 0 else - EBADMSG).

(** A worker takes its entry of [threads], the first number nobody took, or gives the
    number back when there are more workers than entries; its own calls are local. *)
Definition thread_enter (p : Z) : WM (option Z) :=
  modl (set_no_recursion true) ;;
  x ← get_proc p;
  let tid := threads_run x in
  put_proc p (set_threads_run (u32 (tid + 1)) x) ;;
  if Z.of_nat (threads_num x) <=? tid
  then upd_proc p (fun x => set_threads_run (u32 (threads_run x - 1)) x) ;; mret None
  else mret (Some tid).
Definition thread_leave (p : Z) : WM unit := upd_proc p (fun x => set_threads_run (u32 (threads_run x - 1)) x).

(** One turn of the inner loop of [libsrpc_thread_rcv_req]: take a request and
    process it; [None] when there is none. *)
Definition worker_turn (p : Z) (t : nat) : WM (option Z) :=
  '(rc, a) ← queue_try_dequeue cap p;
  if negb (bool_decide (rc = MpmcQueue.LF_QUEUE_OK)) || (a =? NULL) then mret None
  else
    rc ← libsrpc_request_processing a p t;
    mret (Some rc).

(** ** Requests of a process that is gone *)

Definition clear_one (p a : Z) : WM unit :=
  r ← req_or_null a;
  match r with
  | None => mret tt
  | Some rq =>
      if libsrpc_req_is_corrupted r None then mret tt
      else
        x ← get_proc p;
        let resp := own_slot libsrpc_req_get_response (Z.to_nat (retnum rq)) 0 rq p (proc_uid x) None in
        if negb (is_own_slot rq p (proc_uid x) resp) then mret tt
        else
          match resp with
          | None => mret tt
          | Some o =>
              put_req a (cas_resp_rc o 0 (rc_make RC_ST_ERROR (- ECANCELLED)) rq).2 ;;
              if sign rq =? LIBSRPC_REQ_SIGN then sem_post_req a else mret tt
          end
  end.
Fixpoint libsrpc_thread_rcv_queue_clear (n : nat) (p : Z) : WM unit :=
  '(rc, a) ← queue_try_dequeue cap p;
  if negb (bool_decide (rc = MpmcQueue.LF_QUEUE_OK)) then mret tt
  else
    match n with
    | O => hang
    | S n => clear_one p a ;; libsrpc_thread_rcv_queue_clear n p
    end.

(** ** Whether a process still uses a request *)

Definition libsrpc_req_is_busy_proc (a : Z) : WM Z :=
  shm ← libsrpc_shmem_get;
  if (a =? NULL) || (shm =? NULL) then mret 0
  else
    r ← list_foreach_until fuel (proc_head_of shm) (fun p =>
          x ← get_proc p;
          if negb (libsrpc_proc_is_valid x) then mret None
          else
            result ← queue_try_find cap p a;
            if bool_decide (result = MpmcQueue.LF_QUEUE_OK) then mret (Some 1)
            else mret (if existsb (fun h => h =? a) (hp_reqs x) then Some 1 else None));
    mret (default 0 r).
End call.
