(* ===== verification/RpcCallSpec.v ===== *)
(** The request block an RPC stub gets, a worker's entry in its process, and the
    answer a worker publishes. *)
From S2P Require Import Prelude Machine Errno Bytes Request RequestSpec Marshal World Shmem Rpc RpcCall RpcSpec.
From S2P Require MpmcQueue MpmcAlone ListSpin.

(** ** Allocation of the request *)

(** Components other than the request [a] are reached through these two lifts
    only: they leave requests, processes, registry and variables alone. *)
Lemma lift_list_inv {A} (m : M ListSpin.list_store A) w v w' : lift_list m w = Ret v w' -> exists s, w' = set_lists s w.
Proof. unfold lift_list. destruct (m (lists w)); try done. intros E. injection E as <- <-. by eexists. Qed.
Lemma lift_pool_inv {A} (m : M TlsfTypes.tlsf A) w v w' : lift_pool m w = Ret v w' -> exists s, w' = set_pool s w.
Proof. unfold lift_pool. destruct (m (pool w)); try done. intros E. injection E as <- <-. by eexists. Qed.

(** The parts of the world those calls keep. *)
Definition same_rpc (w w' : world) : Prop :=
  reqs w' = reqs w /\ procs w' = procs w /\ ebs w' = ebs w /\ funcs w' = funcs w /\ req_send_rr w' = req_send_rr w.
Lemma same_rpc_trans w1 w2 w3 : same_rpc w1 w2 -> same_rpc w2 w3 -> same_rpc w1 w3.
Proof. unfold same_rpc. intros (?&?&?&?&?) (?&?&?&?&?). repeat split; congruence. Qed.

Lemma malloc_type_inv sz ty w a w' : libsrpc_shmem_malloc_type sz ty w = Ret a w' ->
  same_rpc w w' /\ exists e, loc w' = set_libsrpc_errno e (loc w).
Proof.
  unfold libsrpc_shmem_malloc_type, with_pool, libsrpc_shmem_get.
  unfold mbind, M_bind, getl, gets, take_tlsf_errno, errno_set, modl, modify. cbn.
  destruct (_ || _); cbn; destruct (simplerpc_data (loc w) =? NULL); cbn; try (intros E; injection E as <- <-; split; [done|eexists; reflexivity]).
  all: destruct (_ =? NULL); cbn; try (intros E; injection E as <- <-; split; [done|eexists; reflexivity]).
  all: match goal with |- context [lift_pool ?m ?x] => destruct (lift_pool m x) as [v w1| | |] eqn:E1; try done end.
  all: apply lift_pool_inv in E1 as [s ->]; unfold lift_pool; cbn; intros E; injection E as <- <-; split; [done|eexists; reflexivity].
Qed.

Lemma free_dc_inv a w v w' : libsrpc_shmem_free_dc a w = Ret v w' ->
  same_rpc w w' /\ exists e, loc w' = set_libsrpc_errno e (loc w).
Proof.
  unfold libsrpc_shmem_free_dc, libsrpc_shmem_get.
  unfold mbind, M_bind, getl, gets, errno_set, modl, modify. cbn.
  destruct (_ || _); cbn; [intros E; injection E as _ <-; split; [done|eexists; reflexivity]|].
  destruct (_ =? NULL); cbn; [intros E; injection E as _ <-; split; [done|eexists; reflexivity]|].
  match goal with |- context [lift_pool ?m ?x] => destruct (lift_pool m x) as [v1 w1| | |] eqn:E1; try done end.
  apply lift_pool_inv in E1 as [s ->]. intros E. injection E as _ <-. split; [done|eexists; reflexivity].
Qed.

Lemma req_free_inv fuel a w v w' : libsrpc_req_free fuel a w = Ret v w' ->
  same_rpc w w' /\ exists e, loc w' = set_libsrpc_errno e (loc w).
Proof.
  unfold libsrpc_req_free. destruct (a =? NULL).
  { intros E. injection E as _ <-. split; [done|]. exists (libsrpc_errno (loc w)). by destruct w as [? ? ? ? ? ? ? ? []]. }
  intros E. apply bind_inv in E as (r1 & w1 & E1 & E). apply lift_list_inv in E1 as [s ->].
  apply bind_inv in E as (r2 & w2 & E2 & E). apply free_dc_inv in E2 as [H2 [e He]].
  apply bind_inv in E as (r3 & w3 & E3 & E). injection E as _ Ew; subst w'.
  assert (same_rpc w2 w3 /\ loc w3 = loc w2) as [H3 Hl3].
  { unfold libsrpc_shm_gc_wakeup, libsrpc_shmem_get in E3.
    unfold mbind, M_bind, getl, gets, modify in E3. cbn in E3. destruct (_ || _); cbn in E3; [by injection E3 as _ <-|].
    destruct (_ =? NULL); cbn in E3; by injection E3 as _ <-. }
  split; [by eapply same_rpc_trans; [exact H2|exact H3]|]. exists e. rewrite Hl3. exact He.
Qed.

(** What a caller may assume of the request it got. *)
Record request_for (fid reqlen rlen num : Z) (r : request) : Prop := RequestFor {
  rf_ok : req_ok r;
  rf_fid : funid r = fid;
  rf_num : retnum r = num;
  rf_sound : libsrpc_req_is_corrupted (Some r) None = false;
  rf_args : reqlen <= retoff r;
  rf_ret : offsetof_response_buf + rlen <= retsz r;
  rf_align : ALIGNLONG (rlen + sizeof_response) = retsz r }.

(** The thread's current request, when there is one: its block holds [bufsz]
    bytes; a request whose slots cannot be reached counts as bad. *)
Definition current_ok (w : world) : Prop := current_req (loc w) <> NULL ->
  exists r, reqs w !! current_req (loc w) = Some r /\ sign r = LIBSRPC_REQ_SIGN /\
    0 <= bufsz r < 2 ^ 32 /\ bufsz r <= offsetof_request_buf + Z.of_nat (length (buf r)).

Lemma layout_request fid seq reqlen rlen num off rs sz r (size : Z) :
  layout_fits reqlen rlen num -> req_layout reqlen rlen num = (off, rs, sz) ->
  sign r = LIBSRPC_REQ_SIGN -> sz <= size < 2 ^ 32 -> size <= offsetof_request_buf + Z.of_nat (length (buf r)) ->
  request_for fid reqlen rlen num (set_header seq fid (u32 size) off rs num r).
Proof.
  intros Hf El Hs Hsz Hb. destruct (req_layout_spec _ _ _ Hf) as (off' & rs' & El' & H1 & H2 & H3 & H4 & H5).
  rewrite El in El'. injection El' as -> -> ->. destruct Hf as (Hq1 & Hq2 & Hq3 & _).
  unfold sizeof_request, sizeof_response in *. assert (0 <= rs' * num) by nia.
  assert (u32 size = size) as Eu by (apply Z.mod_small; lia). rewrite Eu.
  assert (header_ok (set_header seq fid size off' rs' num r)) as Hh by (constructor; cbn; nia).
  assert (req_size (set_header seq fid size off' rs' num r) = 96 + off' + rs' * num) as Es by by rewrite req_size_exact.
  constructor; cbn; try done; try (unfold offsetof_response_buf; lia).
  - split; [done|]. rewrite Es. cbn. unfold sizeof_response. lia.
  - apply (proj2 (not_corrupted (set_header seq fid size off' rs' num r) None)). rewrite Es. cbn. repeat split; [done|lia..].
  - unfold req_layout in El. injection El as _ El _.
    assert (16 + rlen + 7 < 2 ^ 32) by nia. rewrite u64_small in El by (unfold sizeof_response; lia).
    destruct (ALIGNLONG_spec (16 + rlen)) as [A1 A2]; [lia|]. unfold sizeof_response in *.
    unfold u32 in El. rewrite Z.mod_small in El by lia. rewrite <- El. f_equal. lia.
Qed.

Lemma finish_alloc_run a fid sz off rs num w r : reqs w !! a = Some r ->
  finish_alloc a fid sz off rs num w =
    Ret a (set_reqs (<[a := set_header (req_seq_num (loc w)) fid (u32 sz) off rs num r]> (reqs w))
             (set_loc (set_req_seq (u32 (req_seq_num (loc w) + 1)) (loc w)) w)).
Proof.
  intros E. unfold finish_alloc. rewrite (bind_ret _ _ (req_seq_num (loc w)) _ w) by done.
  rewrite (bind_ret _ _ tt _ (set_loc (set_req_seq (u32 (req_seq_num (loc w) + 1)) (loc w)) w)) by done.
  erewrite bind_ret by (apply upd_req_run; exact E). done.
Qed.

(** The variables a call only reads. *)
Definition same_setup (l l' : local) : Prop :=
  simplerpc_data l' = simplerpc_data l /\ shm_ptr l' = shm_ptr l /\ my_proc l' = my_proc l /\ my_uid l' = my_uid l /\
  rpc_enable l' = rpc_enable l /\ srpc_disable_rpc_recursion l' = srpc_disable_rpc_recursion l /\
  rpc_timeout_oneshot l' = rpc_timeout_oneshot l /\ rpc_timeout l' = rpc_timeout l /\
  rpc_timeout_global l' = rpc_timeout_global l.

(** The new request of an allocation. *)
Definition allocated (fid reqlen rlen num a : Z) (w w' : world) : Prop :=
  a <> NULL /\ current_req (loc w') = a /\ procs w' = procs w /\ funcs w' = funcs w /\
  same_setup (loc w) (loc w') /\
  (forall b, b <> a -> reqs w' !! b = reqs w !! b) /\
  exists r', reqs w' !! a = Some r' /\ request_for fid reqlen rlen num r' /\
    match reqs w !! current_req (loc w) with
    | Some r => current_req (loc w) <> NULL -> gc_lock_uid r' = gc_lock_uid r
    | None => gc_lock_uid r' = [0; 0; 0; 0]
    end.

Lemma init_request_inv a sz locks w v w1 : init_request a sz locks w = Ret v w1 ->
  exists s, w1 = set_lists s (set_reqs (<[a := Request 0 NULL LIBSRPC_REQ_SIGN 0 locks 0 0 0 0 0
      (replicate (Z.to_nat (sz - offsetof_request_buf)) 0)]> (reqs w)) w).
Proof.
  unfold init_request. intros E. apply bind_inv in E as (x & w2 & E1 & E2). injection E1 as _ <-.
  apply lift_list_inv in E2 as [s ->]. by exists s.
Qed.

(** The common end of the two paths that take a new block: [w3] is the world once
    the block is initialised and the lists and the pool were updated. *)
Lemma new_block_allocated fid reqlen rlen num off rs sz locks a w w3 v w' :
  layout_fits reqlen rlen num -> req_layout reqlen rlen num = (off, rs, sz) -> sz * 2 < 2 ^ 32 ->
  a <> NULL -> current_req (loc w3) = a -> procs w3 = procs w -> funcs w3 = funcs w ->
  same_setup (loc w) (loc w3) ->
  reqs w3 = <[a := Request 0 NULL LIBSRPC_REQ_SIGN 0 locks 0 0 0 0 0
      (replicate (Z.to_nat (sz * 2 - offsetof_request_buf)) 0)]> (reqs w) ->
  match reqs w !! current_req (loc w) with
  | Some r => current_req (loc w) <> NULL -> locks = gc_lock_uid r
  | None => locks = [0; 0; 0; 0]
  end ->
  finish_alloc a fid (sz * 2) off rs num w3 = Ret v w' ->
  v = a /\ allocated fid reqlen rlen num a w w'.
Proof.
  intros Hf El Hsz Ha Hc Hp Hfu Hset Hr Hl E.
  destruct (req_layout_spec _ _ _ Hf) as (off' & rs' & El' & H1 & H2 & H3 & H4 & H5).
  rewrite El in El'. injection El' as -> -> Es.
  erewrite finish_alloc_run in E by (rewrite Hr; apply lookup_insert_eq). injection E as <- <-.
  split; [done|]. split; [done|]. split; [exact Hc|]. split; [exact Hp|]. split; [exact Hfu|]. split; [exact Hset|]. split.
  { intros b Hb. cbn [reqs set_reqs set_loc]. rewrite lookup_insert_ne, Hr, lookup_insert_ne by done. done. }
  eexists. split; [apply lookup_insert_eq|]. split; [|cbn; exact Hl].
  eapply layout_request; [done|done|done| |]; destruct Hf as (? & ? & ? & ?); unfold sizeof_request, sizeof_response, offsetof_request_buf in *;
    (assert (0 <= rs' * num) by nia).
  - lia.
  - cbn [buf]. rewrite length_replicate. lia.
Qed.

Lemma req_alloc_run fuel fid reqlen rlen w f a w' :
  current_ok w -> get_func (sRPC_ID2IDX fid) w = Ret f w ->
  (num_all f <> 0 -> layout_fits reqlen rlen (num_all f)) ->
  2 * (sizeof_request + (reqlen + 7) + (sizeof_response + rlen + 7) * num_all f) < 2 ^ 32 ->
  libsrpc_req_alloc fuel fid reqlen rlen w = Ret a w' ->
  (a = NULL /\ reqs w' = reqs w /\ current_req (loc w') = current_req (loc w) /\
     libsrpc_errno (loc w') ∈ [ESHMNOINIT; ENOREGFUN; ENOMEM]) \/
  (num_all f <> 0 /\ allocated fid reqlen rlen (num_all f) a w w').
Proof.
  intros Hcur Hf Hfit Hbig E. unfold libsrpc_req_alloc in E.
  apply bind_inv in E as (shm & w1 & Es & E).
  assert (w1 = w) as ->.
  { unfold libsrpc_shmem_get, mbind, M_bind, getl, gets in Es. destruct (_ || _) in Es; by injection Es as _ <-. }
  rewrite (bind_ret _ _ (my_proc (loc w)) _ w) in E by done.
  destruct (shm =? NULL).
  { injection E as <- <-. left. repeat split; try done. cbn. apply list_elem_of_here. }
  rewrite (bind_ret _ _ _ _ _ Hf) in E. destruct (Z.eqb_spec (num_all f) 0) as [E0|Hn].
  { injection E as <- <-. left. repeat split; try done. cbn. apply list_elem_of_further, list_elem_of_here. }
  specialize (Hfit Hn). destruct (req_layout reqlen rlen (num_all f)) as [[off rs] sz] eqn:El.
  destruct (req_layout_spec _ _ _ Hfit) as (off' & rs' & El' & H1 & H2 & H3 & H4 & H5).
  rewrite El in El'. injection El' as -> -> Esz.
  assert (u64 (sz * 2) = sz * 2 /\ sz * 2 < 2 ^ 32) as [Eu Hsz2].
  { destruct Hfit as (? & ? & ? & ?). unfold sizeof_request, sizeof_response in *.
    assert (sz * 2 < 2 ^ 32) by nia. split; [apply u64_small; nia|done]. }
  rewrite Eu in E. rewrite (bind_ret _ _ (current_req (loc w)) _ w) in E by done.
  unfold req_or_null at 1 in E. destruct (Z.eqb_spec (current_req (loc w)) NULL) as [Ec|Ec].
  - rewrite bind_mret in E. apply bind_inv in E as (b & w2 & Em & E). apply malloc_type_inv in Em as [Hm [e He]].
    destruct Hm as (M1 & M2 & M3 & M4 & M5). destruct (Z.eqb_spec b NULL) as [->|Hb].
    { injection E as <- <-. left. cbn. rewrite He. repeat split; try done.
      apply list_elem_of_further, list_elem_of_further, list_elem_of_here. }
    rewrite (bind_ret _ _ tt _ (set_loc (set_current_req b (loc w2)) w2)) in E by done.
    apply bind_inv in E as (u & w3 & Ei & E). apply init_request_inv in Ei as [s1 ->].
    apply bind_inv in E as (u2 & w4 & Ep & E). apply lift_list_inv in Ep as [s2 ->]. right. split; [done|].
    eapply new_block_allocated in E; [|exact Hfit|exact El|done|done|done|exact M2|exact M4|cbn; rewrite He; done|cbn; rewrite M1; reflexivity|].
    + destruct E as [-> E]. exact E.
    + rewrite Ec. destruct (reqs w !! NULL); [by intros []|done].
  - destruct (Hcur Ec) as (r & Er & Hsig & Hb1 & Hb2).
    assert (req_or_null (current_req (loc w)) w = Ret (Some r) w) as Ern.
    { unfold req_or_null. rewrite (proj2 (Z.eqb_neq _ _) Ec). by rewrite (bind_ret _ _ _ _ _ (get_req_run _ _ _ Er)). }
    rewrite (bind_bind_ret _ _ _ _ _ _ (get_req_run _ _ _ Er)), bind_mret in E.
    destruct (_ && _) eqn:Ereuse.
    + apply andb_true_iff in Ereuse as [_ Hle]. apply Z.leb_le in Hle. right. split; [done|].
      rewrite (finish_alloc_run _ _ _ _ _ _ _ _ Er) in E. injection E as <- <-.
      split; [done|]. split; [done|]. split; [done|]. split; [done|]. split; [done|]. split.
      { intros b Hb. cbn [reqs set_reqs set_loc]. by rewrite lookup_insert_ne. }
      eexists. split; [apply lookup_insert_eq|]. rewrite Er. split; [|done].
      eapply layout_request; [done|exact El|done|lia|lia].
    + apply bind_inv in E as (b & w2 & Em & E). apply malloc_type_inv in Em as [Hm [e He]].
      destruct Hm as (M1 & M2 & M3 & M4 & M5). destruct (Z.eqb_spec b NULL) as [->|Hb].
      { injection E as <- <-. left. cbn. rewrite He. repeat split; try done.
        apply list_elem_of_further, list_elem_of_further, list_elem_of_here. }
      rewrite (bind_ret _ _ tt _ (set_loc (set_current_req b (loc w2)) w2)) in E by done.
      apply bind_inv in E as (u & w3 & Ei & E). apply init_request_inv in Ei as [s1 ->].
      apply bind_inv in E as (u2 & w4 & Ep & E). apply lift_list_inv in Ep as [s2 ->].
      apply bind_inv in E as (u3 & w5 & Efr & E). apply req_free_inv in Efr as [(F1 & F2 & _ & F4 & _) [e2 He2]].
      right. split; [done|].
      eapply (new_block_allocated _ _ _ _ _ _ _ _ _ w) in E;
        [|exact Hfit|exact El|done|exact Hb|rewrite He2; done|rewrite F2; exact M2|rewrite F4; exact M4|rewrite He2; cbn; rewrite He; done
        |rewrite F1; cbn; rewrite M1; reflexivity|].
      * destruct E as [-> E]. exact E.
      * by rewrite Er.
Qed.
(** A request block handed out for a call of [reqlen] argument bytes and [rlen] result
    bytes, to as many processes as are registered, is sound and laid out for that
    call, whichever path it took: the thread's block is reused, or a larger one
    replaces it, keeping the thread's locks on foreign memory.  Otherwise the call
    fails with the error number of the reason, and no request changes. *)
Theorem req_alloc_spec fuel fid reqlen rlen w f a w' :
  current_ok w -> get_func (sRPC_ID2IDX fid) w = Ret f w ->
  (num_all f <> 0 -> layout_fits reqlen rlen (num_all f)) ->
  2 * (sizeof_request + (reqlen + 7) + (sizeof_response + rlen + 7) * num_all f) < 2 ^ 32 ->
  libsrpc_req_alloc fuel fid reqlen rlen w = Ret a w' ->
  (a = NULL /\ reqs w' = reqs w /\ current_req (loc w') = current_req (loc w) /\
     libsrpc_errno (loc w') ∈ [ESHMNOINIT; ENOREGFUN; ENOMEM]) \/
  (num_all f <> 0 /\ allocated fid reqlen rlen (num_all f) a w w').
Proof. apply req_alloc_run. Qed.
(** The caller of the examples: process 32768 with its list of requests, holding
    the unanswered request of [demo_request] as its current one. *)
Definition demo_caller : world :=
  set_lists (ListSpin.LStore {[ 4096 := ListSpin.Node 0 (req_head_of 32768) ]}
                             {[ req_head_of 32768 := ListSpin.LHead 4096 0 ]})
    (set_loc (Local 1 (TlsfSpec.demo_pool - POOL_OFF) 32768 11 true false 4096 0 [] 1000000 0 0) demo_sending).
Definition demo_alloc : outcome world Z := libsrpc_req_alloc 1 17 8 4 demo_caller.
Lemma req_alloc_spec_witness :
  exists a w', demo_alloc = Ret a w' /\ a <> NULL /\ allocated 17 8 4 2 a demo_caller w'.
Proof.
  pose (a := default 0 (result demo_alloc)). pose (w' := default demo_caller (final demo_alloc)).
  assert (demo_alloc = Ret a w') as E by (vm_compute; reflexivity).
  assert (a <> NULL) as Ha by (vm_compute; congruence).
  exists a, w'. split; [exact E|]. split; [exact Ha|].
  destruct (req_alloc_spec 1 17 8 4 demo_caller (RpcFunc 2 0 [8192; 0; 16384; 0; 0; 0; 0; 0]) a w') as [(H & _)|(_ & H)].
  - intros _. exists demo_request. split; [reflexivity|]. split; [reflexivity|]. vm_compute. intuition congruence.
  - reflexivity.
  - intros _. vm_compute. intuition congruence.
  - vm_compute. reflexivity.
  - exact E.
  - exfalso. exact (Ha H).
  - exact H.
Defined.

(** ** The worker's slot *)

(** Slot [j] expects the answer of process [p] with uid [uid]. *)
Definition expects (r : request) (p uid j : Z) : Prop :=
  resp_hp (slot_offset r j) r = p /\ resp_uid (slot_offset r j) r = uid.
#[local] Instance expects_dec r p uid j : Decision (expects r p uid j).
Proof. unfold expects. apply _. Defined.

Lemma own_slot_spec get n : forall i r p uid resp,
  (forall j, 0 <= j < retnum r -> get (Some r) j = Some (slot_offset r j)) ->
  0 <= i -> i + Z.of_nat n <= retnum r -> is_own_slot r p uid resp = false ->
  let res := own_slot get n i r p uid resp in
  (is_own_slot r p uid res = true <-> exists j, i <= j < i + Z.of_nat n /\ expects r p uid j) /\
  (forall j, i <= j < i + Z.of_nat n -> expects r p uid j ->
     (forall j', i <= j' < j -> ~ expects r p uid j') -> res = Some (slot_offset r j)).
Proof.
  induction n as [|n IH]; intros i r p uid resp Hg Hi Hn Hr; simpl.
  { split; [split; [congruence|intros (j & ? & _); lia]|intros j ? ?; lia]. }
  rewrite Hg by lia. destruct (decide (expects r p uid i)) as [He|He].
  - destruct He as [He1 He2]. rewrite He1, He2, !Z.eqb_refl. simpl. rewrite He1, He2, !Z.eqb_refl.
    split; [split; [intros _; exists i; split; [lia|done]|done]|].
    intros j Hj _ Hmin. destruct (decide (j = i)) as [->|]; [done|]. exfalso. apply (Hmin i); [lia|done].
  - assert ((if negb (resp_hp (slot_offset r i) r =? p) then own_slot get n (i + 1) r p uid (Some (slot_offset r i))
      else if negb (uid =? resp_uid (slot_offset r i) r) then own_slot get n (i + 1) r p uid (Some (slot_offset r i))
      else Some (slot_offset r i)) = own_slot get n (i + 1) r p uid (Some (slot_offset r i))) as ->.
    { destruct (Z.eqb_spec (resp_hp (slot_offset r i) r) p); [|done].
      destruct (Z.eqb_spec uid (resp_uid (slot_offset r i) r)); [|done]. by destruct He. }
    destruct (IH (i + 1) r p uid (Some (slot_offset r i)) Hg) as [H1 H2]; [lia|lia| |].
    { simpl. destruct (Z.eqb_spec (resp_hp (slot_offset r i) r) p); [|done].
      destruct (Z.eqb_spec (resp_uid (slot_offset r i) r) uid); [|done]. by destruct He. }
    split.
    + rewrite H1. split; intros (j & Hj & Hx); exists j; (split; [|done]); [lia|].
      destruct (decide (j = i)) as [->|]; [done|lia].
    + intros j Hj Hx Hmin. assert (j <> i) by (intros ->; done). apply H2; [lia|done|]. intros j' Hj'. apply Hmin. lia.
Qed.

(** ** Processing a request *)

(** The local function returns [val] for [args] and leaves the shared requests and
    processes and the variables of the calling thread alone. *)
Definition handler_returns (h : rpc_handler) (args : list (list Z)) (val : list Z) : Prop :=
  forall w, exists w', h_call h args w = Ret val w' /\ reqs w' = reqs w /\ procs w' = procs w /\ loc w' = loc w.

(** What the worker publishes: nothing for [void], else the result. *)
Definition published (h : rpc_handler) (val : list Z) : list Z :=
  match h_ret h with None => [] | Some _ => val end.

(** ** Entries of the workers *)

(** A worker gets an entry inside the array, numbered by the workers before it; one
    that finds no entry leaves the count as it was. *)
Lemma thread_enter_spec p w x : procs w !! p = Some x -> 0 <= threads_run x < 2 ^ 32 - 1 ->
  exists w', thread_enter p w = Ret (if threads_run x <? Z.of_nat (threads_num x) then Some (threads_run x) else None) w' /\
    procs w' = <[p := set_threads_run (if threads_run x <? Z.of_nat (threads_num x) then threads_run x + 1 else threads_run x) x]> (procs w) /\
    srpc_disable_rpc_recursion (loc w') = true.
Proof.
  intros Ex Hb. unfold thread_enter. erewrite bind_ret by reflexivity.
  set (w1 := set_loc _ w). erewrite (bind_ret _ _ _ _ w1) by exact (get_proc_run p w1 x Ex).
  erewrite bind_ret by reflexivity. set (w2 := set_procs _ w1).
  assert (procs w2 !! p = Some (set_threads_run (u32 (threads_run x + 1)) x)) as E2 by apply lookup_insert_eq.
  assert (u32 (threads_run x + 1) = threads_run x + 1) as Eu by (unfold u32; rewrite Z.mod_small; lia).
  destruct (Z.ltb_spec (threads_run x) (Z.of_nat (threads_num x))) as [Hl|Hl].
  - rewrite (proj2 (Z.leb_gt _ _) Hl). exists w2. split; [done|]. split; [|done]. subst w2 w1. cbn. by rewrite Eu.
  - rewrite (proj2 (Z.leb_le _ _) Hl), (bind_ret _ _ _ _ _ (upd_proc_run _ _ _ _ E2)). eexists. split; [done|]. split; [|done].
    subst w2 w1. cbn. rewrite insert_insert_eq, Eu. f_equal.
    replace (u32 (threads_run x + 1 - 1)) with (threads_run x) by (unfold u32; rewrite Z.mod_small; lia). done.
Qed.

Section processing.
Context (handler : Z -> option rpc_handler).

Lemma callback_run a o ctrl w r h args val pos :
  reqs w !! a = Some r -> handler (funid r) = Some h -> h_is_stub h = false ->
  M_EXTRACTFUN (h_sizes h) 0 (buf r) = (pos, args) -> handler_returns h args val ->
  exists w', libsrpc_callback_func handler a (Some o) ctrl w =
      Ret (libsrpc_req_response_set r o (Some ctrl) (published h val)).1 w' /\
    procs w' = procs w /\ loc w' = loc w /\
    reqs w' = <[a := let r' := (libsrpc_req_response_set r o (Some ctrl) (published h val)).2 in
                     set_sem (sem_wakeup r' + 1) r']> (reqs w).
Proof.
  intros Er Eh Hs Ex Hv. destruct (Hv w) as (w1 & Ec & Hr1 & Hp1 & Hl1).
  unfold libsrpc_callback_func. rewrite (bind_ret _ _ _ _ _ (get_req_run _ _ _ Er)), Eh, Hs, Ex.
  assert (reqs w1 !! a = Some r) as Er1 by by rewrite Hr1.
  rewrite (bind_bind_ret _ _ _ _ _ _ Ec). rewrite (bind_bind_ret _ _ _ _ _ _ (get_req_run _ _ _ Er1)).
  fold (published h val). destruct (libsrpc_req_response_set r o (Some ctrl) (published h val)) as [rc r'] eqn:Es.
  set (w2 := set_reqs (<[a := r']> (reqs w1)) w1).
  assert (put_req a r' w1 = Ret tt w2) as Ep by done. rewrite (bind_bind_ret _ _ _ _ _ _ Ep), bind_mret.
  assert (reqs w2 !! a = Some r') as Er2 by apply lookup_insert_eq.
  unfold sem_post_req. rewrite (bind_ret _ _ _ _ _ (upd_req_run _ _ _ _ Er2)).
  eexists. split; [reflexivity|]. cbn [procs reqs loc set_reqs w2 fst snd]. split; [done|]. split; [done|].
  by rewrite insert_insert_eq, Hr1.
Qed.

Definition with_hp (t : nat) (v : Z) (x : proc) : proc := set_hp_reqs (<[t := v]> (hp_reqs x)) x.

Lemma lock_run a p t w r x : reqs w !! a = Some r -> a <> NULL -> procs w !! p = Some x ->
  libsrpc_req_is_corrupted (Some r) None = false ->
  libsrpc_request_lock p t a w = Ret 0 (set_procs (<[p := with_hp t a x]> (procs w)) w).
Proof.
  intros Er Ha Ex Hc. unfold libsrpc_request_lock.
  assert (forall w1, reqs w1 !! a = Some r -> req_or_null a w1 = Ret (Some r) w1) as Hn.
  { intros w1 E1. unfold req_or_null. rewrite (proj2 (Z.eqb_neq a 0)) by done.
    by rewrite (bind_ret _ _ _ _ _ (get_req_run _ _ _ E1)). }
  rewrite (bind_ret _ _ _ _ _ (Hn w Er)), Hc. unfold set_thread_hp.
  rewrite (bind_ret _ _ _ _ _ (upd_proc_run _ _ _ _ Ex)).
  rewrite (bind_ret _ _ _ _ _ (Hn (set_procs (<[p := with_hp t a x]> (procs w)) w) Er)), Hc. done.
Qed.

(** The run of a worker on a sound request for a function it has, up to the answer
    it writes in the slot at [o]. *)
Lemma processing_run a p t w r x h args val pos j :
  reqs w !! a = Some r -> a <> NULL -> p <> NULL -> procs w !! p = Some x ->
  header_ok r -> libsrpc_req_is_corrupted (Some r) None = false ->
  sRPCFNID_START < funid r < sRPCFNID_MAX ->
  0 <= j < retnum r -> expects r p (proc_uid x) j -> (forall j', 0 <= j' < j -> ~ expects r p (proc_uid x) j') ->
  handler (funid r) = Some h -> h_is_stub h = false ->
  M_EXTRACTFUN (h_sizes h) 0 (buf r) = (pos, args) -> handler_returns h args val ->
  let res := libsrpc_req_response_set r (slot_offset r j) (Some (control r)) (published h val) in
  exists w', libsrpc_request_processing handler a p t w =
      Ret (if rc_st res.1 =? RC_ST_READY then 0 else - EBADMSG) w' /\
    reqs w' = <[a := set_sem (sem_wakeup res.2 + 1) res.2]> (reqs w) /\
    procs w' = <[p := with_hp t NULL (with_hp t a x)]> (procs w) /\ loc w' = loc w.
Proof.
  intros Er Ha Hp Ex Hh Hc Hf Hj He Hmin Eh Hs Em Hv res.
  pose proof (proj1 (not_corrupted r None) Hc) as (_ & _ & _ & _ & Hsz).
  unfold libsrpc_request_processing. rewrite (proj2 (Z.eqb_neq a 0)), (proj2 (Z.eqb_neq p 0)) by done. cbn [orb].
  rewrite (bind_ret _ _ _ _ _ (lock_run a p t w r x Er Ha Ex Hc)). set (w1 := set_procs _ w).
  assert (reqs w1 !! a = Some r) as Er1 by done. rewrite (bind_ret _ _ _ _ _ (get_req_run _ _ _ Er1)), Hc.
  rewrite (proj2 (Z.leb_gt _ _)) by lia. rewrite (proj2 (Z.leb_gt _ _)) by lia. cbn [orb].
  assert (procs w1 !! p = Some (with_hp t a x)) as Ex1 by apply lookup_insert_eq.
  rewrite (bind_ret _ _ _ _ _ (get_proc_run _ _ _ Ex1)). change (proc_uid (with_hp t a x)) with (proc_uid x).
  destruct (own_slot_spec libsrpc_req_get_response_fast (Z.to_nat (retnum r)) 0 r p (proc_uid x) None) as [H1 H2];
    [intros i Hi; apply get_response_fast_in; [done|lia]|lia|destruct Hh; lia|done|].
  rewrite (proj2 H1) by (exists j; split; [lia|done]). rewrite (H2 j) by (done || lia). cbn [negb].
  destruct (callback_run a (slot_offset r j) (control r) w1 r h args val pos Er1 Eh Hs Em Hv) as (w2 & E2 & P2 & L2 & R2).
  rewrite (bind_ret _ _ _ _ _ E2). fold res in R2 |- *.
  assert (procs w2 !! p = Some (with_hp t a x)) as Ex2 by (rewrite P2; exact Ex1).
  unfold libsrpc_request_unlock, set_thread_hp.
  rewrite (bind_bind_ret _ _ _ _ _ _ (upd_proc_run p w2 _ _ Ex2)), bind_mret.
  eexists. split; [reflexivity|]. cbn [reqs procs loc set_procs]. split; [exact R2|].
  split; [|exact L2]. rewrite P2. unfold w1. cbn [procs set_procs]. by rewrite insert_insert_eq.
Qed.
End processing.

(** (C22) A worker that takes a sound request for one of its functions runs the function
    once on the arguments of the request and answers in the first slot addressed to
    its process: if the slot is still empty it becomes READY with exactly the
    result and the call reports success; if the caller has given it up, the late
    answer is refused and the buffer does not change.  Either way the caller's
    semaphore is posted once, the thread's hazard pointer is cleared, and no other
    request or process changes. *)
Theorem worker_answers handler a p t w r x h args val pos j :
  reqs w !! a = Some r -> a <> NULL -> p <> NULL -> procs w !! p = Some x ->
  header_ok r -> libsrpc_req_is_corrupted (Some r) None = false -> sizeof_response <= retsz r ->
  sRPCFNID_START < funid r < sRPCFNID_MAX ->
  0 <= j < retnum r -> expects r p (proc_uid x) j -> (forall j', 0 <= j' < j -> ~ expects r p (proc_uid x) j') ->
  handler (funid r) = Some h -> h_is_stub h = false ->
  M_EXTRACTFUN (h_sizes h) 0 (buf r) = (pos, args) -> handler_returns h args val ->
  offsetof_response_buf + Z.of_nat (length (published h val)) <= retsz r ->
  exists rc w' r', libsrpc_request_processing handler a p t w = Ret rc w' /\
    reqs w' = <[a := set_sem (sem_wakeup r + 1) r']> (reqs w) /\
    procs w' = <[p := with_hp t NULL (with_hp t a x)]> (procs w) /\
    (resp_rc (slot_offset r j) r = 0 ->
       rc = 0 /\ r' = set_buf (buf r') r /\ forall obs, obs O = r' ->
       libsrpc_req_response_get obs (Some (slot_offset r j)) (length (published h val)) = (0, Some (published h val))) /\
    (resp_rc (slot_offset r j) r <> 0 -> rc = - EBADMSG /\ r' = r).
Proof.
  intros Er Ha Hp Ex Hh Hc Hz Hf Hj He Hmin Eh Hs Em Hv Hfit.
  destruct (processing_run handler a p t w r x h args val pos j) as (w' & E & R & P & _); [done..|].
  destruct (slot_of r j Hh Hc Hz Hj) as (Hin & _ & Hend).
  assert (libsrpc_req_is_corrupted (Some r) (Some (control r)) = false) as Hcc.
  { apply not_corrupted. apply not_corrupted in Hc. tauto. }
  set (res := libsrpc_req_response_set r (slot_offset r j) (Some (control r)) (published h val)) in *.
  assert (sem_wakeup res.2 = sem_wakeup r) as Hsem.
  { unfold res, libsrpc_req_response_set. rewrite Hcc. unfold cas_resp_rc.
    destruct (resp_rc (slot_offset r j) r =? 0); [by destruct (published h val)|reflexivity]. }
  rewrite Hsem in R. exists (if rc_st res.1 =? RC_ST_READY then 0 else - EBADMSG), w', res.2.
  split; [exact E|]. split; [exact R|]. split; [exact P|]. split.
  - intros H0. destruct (response_set_ok r (slot_offset r j) (Some (control r)) (published h val)) as (r' & Es & B & Erc & _ & Ed);
      [exact Hin|lia|exact Hcc|exact H0|]. fold res in Es. rewrite Es. cbn [fst snd]. split; [reflexivity|].
    split; [apply B|]. intros obs <-. unfold libsrpc_req_response_get.
    rewrite response_get_ready; [|done|by rewrite Erc, rc_st_make]. by rewrite Erc, rc_code_make, Ed.
  - intros H0. unfold res, libsrpc_req_response_set. rewrite Hcc. unfold cas_resp_rc.
    rewrite (proj2 (Z.eqb_neq (resp_rc (slot_offset r j) r) 0) H0). done.
Qed.

(** A function of two 4-byte integers that returns the bytes of the first. *)
Definition demo_handler : rpc_handler := Handler [4%nat; 4%nat] (Some 4%nat) false (fun args => mret (default [] (head args))).
Definition demo_called : request :=
  set_buf (M_BODYFUN [[1; 2; 3; 4]; [5; 6; 7; 8]] 0 (buf (set_resp_hp 8 8192 (set_resp_uid 8 5 demo_request)))).2 demo_request.
Lemma worker_answers_witness :
  let w := set_reqs {[ 4096 := demo_called ]} demo_sending in
  exists w', libsrpc_request_processing (fun _ => Some demo_handler) 4096 8192 1 w = Ret 0 w' /\
    exists r', reqs w' !! 4096 = Some (set_sem 1 r') /\
      libsrpc_req_response_get (fun _ => r') (Some 8) 4 = (0, Some [1; 2; 3; 4]).
Proof.
  intros w.
  destruct (worker_answers (fun _ => Some demo_handler) 4096 8192 1 w demo_called (demo_proc 5 demo_empty) demo_handler
    [[1; 2; 3; 4]; [5; 6; 7; 8]] [1; 2; 3; 4] 8 0) as (rc & w' & r' & E & R & _ & H & _).
  - reflexivity.
  - discriminate.
  - discriminate.
  - vm_compute. reflexivity.
  - constructor; vm_compute; intuition congruence.
  - vm_compute. reflexivity.
  - vm_compute. congruence.
  - vm_compute. intuition congruence.
  - vm_compute. intuition congruence.
  - split; vm_compute; reflexivity.
  - intros j' Hj'. lia.
  - reflexivity.
  - reflexivity.
  - vm_compute. reflexivity.
  - intros v. exists v. repeat split.
  - vm_compute. congruence.
  - destruct (H ltac:(vm_compute; reflexivity)) as (-> & _ & Hg). exists w'. split; [exact E|]. exists r'.
    split; [rewrite R; exact (lookup_insert_eq _ _ _)|]. exact (Hg (fun _ => r') eq_refl).
Defined.
