(* ===== verification/RemoteCall.v ===== *)
(** A remote call end to end: the stub of [libsrpc.c] composed with the worker that
    answers it computes what the function itself computes. *)
From S2P Require Import Prelude Machine Errno Bytes Request RequestSpec Marshal World Shmem Rpc RpcSpec Distribution RpcCall RpcCallSpec.
From S2P Require MpmcQueue MpmcAlone ListSpin.
#[local] Existing Instance MpmcQueue.lf_queue_result_eq.

(** An update that changes nothing. *)
Lemma upd_req_id a w r f : reqs w !! a = Some r -> f r = r -> upd_req a f w = Ret tt w.
Proof.
  intros E Hf. rewrite (upd_req_run _ _ _ _ E), Hf. destruct w. unfold set_reqs. cbn in *. by rewrite insert_id.
Qed.
Lemma set_retnum_id r : set_retnum (retnum r) r = r.
Proof. by destruct r. Qed.

Section end_to_end.
Context (k : Z) (Hk : 1 <= k <= 61) (fuel : nat) (pause : WM unit).
Context (handler : Z -> option rpc_handler) (p : Z) (t : nat).

(** The caller's wait, while thread [t] of process [p] takes one request and
    processes it: the post it makes is the one this wait consumes. *)
Definition wait_for_worker (a deadline : Z) : WM Z :=
  worker_turn (2 ^ k) handler p t ;;
  upd_req a (fun r => set_sem (sem_wakeup r - 1) r) ;;
  mret 0.

Lemma queue_dequeue_run a w x l : procs w !! p = Some x -> MpmcAlone.represents k (p_queue x) (a :: l) ->
  exists q', queue_try_dequeue (2 ^ k) p w =
      Ret (MpmcQueue.LF_QUEUE_OK, a) (set_procs (<[p := set_p_queue q' x]> (procs w)) w) /\
    MpmcAlone.represents k q' l.
Proof using Hk.
  intros Ex Hq. unfold queue_try_dequeue. rewrite (bind_ret _ _ _ _ _ (get_proc_run _ _ _ Ex)).
  destruct (MpmcAlone.dequeue_alone k Hk (p_queue x) (a :: l) (queue_fuel (2 ^ k)) Hq) as (q' & E & Hr).
  { unfold queue_fuel. pose proof (Z.pow_pos_nonneg 2 k ltac:(lia) ltac:(lia)). lia. }
  exists q'. rewrite E. done.
Qed.

(** A request with one slot, addressed to process [p] with uid [u], still empty,
    whose arguments are [args]. *)
Record pending (r : request) (u fid : Z) (h : rpc_handler) (args : list (list Z)) : Prop := Pending {
  pe_ok : req_ok r;
  pe_sound : libsrpc_req_is_corrupted (Some r) None = false;
  pe_num : retnum r = 1;
  pe_fid : funid r = fid;
  pe_slot : slot_for p u (slot_offset r 0) r;
  pe_args : exists pos, M_EXTRACTFUN (h_sizes h) 0 (buf r) = (pos, args) }.

(** The answer as the caller finds it. *)
Definition delivered_answer (r r' : request) (v : list Z) : Prop :=
  same_layout r r' /\ resp_rc (slot_offset r 0) r' = rc_make RC_ST_READY 0 /\
  resp_data (slot_offset r 0) (length v) r' = v.

(** One wait: the worker takes the request, answers, and the caller wakes up. *)
Lemma wait_for_worker_run a d w r x fid h args val :
  reqs w !! a = Some r -> a <> NULL -> p <> NULL -> procs w !! p = Some x ->
  MpmcAlone.represents k (p_queue x) [a] -> pending r (proc_uid x) fid h args ->
  sRPCFNID_START < fid < sRPCFNID_MAX -> handler fid = Some h -> h_is_stub h = false ->
  handler_returns h args val -> offsetof_response_buf + Z.of_nat (length (published h val)) <= retsz r ->
  exists w' r', wait_for_worker a d w = Ret 0 w' /\ reqs w' !! a = Some r' /\
    delivered_answer r r' (published h val) /\ loc w' = loc w.
Proof using Hk.
  intros Er Ha Hp Ex Hq [Hr Hc Hn Hfid [H0 [Hhp Hu]] [pos Hm]] Hf Eh Hs Hv Hfit. subst fid.
  unfold wait_for_worker, worker_turn.
  destruct (queue_dequeue_run a w x [] Ex Hq) as (q' & Ed & _).
  rewrite (bind_bind_ret _ _ _ _ _ _ Ed). rewrite bool_decide_true by done. cbn [negb orb].
  rewrite (proj2 (Z.eqb_neq a 0)) by done. set (w1 := set_procs _ w).
  set (x1 := set_p_queue q' x). assert (procs w1 !! p = Some x1) as Ex1 by apply lookup_insert_eq.
  destruct (req_ok_slot r 0 Hr ltac:(lia)) as [_ Hin].
  assert (libsrpc_req_is_corrupted (Some r) (Some (control r)) = false) as Hcc.
  { apply not_corrupted. apply not_corrupted in Hc. tauto. }
  destruct (slot_bounds r 0 ltac:(apply Hr) ltac:(apply Hr) ltac:(lia)) as [_ Hend].
  destruct (response_set_ok r (slot_offset r 0) (Some (control r)) (published h val)) as (r' & Es & B & Erc & _ & Edt);
    [exact Hin|lia|exact Hcc|exact H0|].
  destruct (processing_run handler a p t w1 r x1 h args val pos 0) as (w2 & E2 & R2 & _ & L2);
    [done|done|done|exact Ex1|apply Hr|done|done|lia|by split|intros j' Hj'; lia|done|done|done|done|].
  rewrite Es in E2, R2. cbn [fst snd] in E2, R2. rewrite rc_st_make, Z.eqb_refl in E2 by (vm_compute; intuition congruence).
  rewrite (bind_bind_ret _ _ _ _ _ _ E2), bind_mret.
  assert (reqs w2 !! a = Some (set_sem (sem_wakeup r' + 1) r')) as Er2 by (rewrite R2; apply lookup_insert_eq).
  rewrite (bind_ret _ _ _ _ _ (upd_req_run _ _ _ _ Er2)).
  eexists _, _. split; [reflexivity|]. split; [apply lookup_insert_eq|]. split; [|exact L2].
  split; [exact (only_bytes_layout _ _ _ _ B)|]. split; [exact Erc|exact Edt].
Qed.

(** The registry names [p] as the only executor of function [idx]. *)
Definition sole_executor (idx : Z) (w : world) : Prop := exists f,
  get_func idx w = Ret f w /\ num_all f = 1 /\ ext_ptr f = NULL /\
  length (main_block f) = Z.to_nat LIBSRPC_RFMB_SZ /\ filter (fun c => c <> NULL) (main_block f) = [p].

(** The library is set up and the thread may call. *)
Definition may_call (l : local) : Prop :=
  simplerpc_data l <> NULL /\ shm_ptr l <> NULL /\ rpc_enable l = true /\ srpc_disable_rpc_recursion l = false.

(** Sending the request and waiting: the answer of the executor arrives. *)
Lemma send_request_run a w r x h args val :
  reqs w !! a = Some r -> a <> NULL -> 0 < p < 2 ^ 64 -> procs w !! p = Some x -> healthy k x [] ->
  req_ok r -> libsrpc_req_is_corrupted (Some r) None = false -> retnum r = 1 ->
  sRPCFNID_START < funid r < sRPCFNID_MAX -> sole_executor (sRPC_ID2IDX (funid r)) w -> may_call (loc w) ->
  handler (funid r) = Some h -> h_is_stub h = false ->
  (exists pos, M_EXTRACTFUN (h_sizes h) 0 (buf r) = (pos, args)) ->
  Z.of_nat (M_REQSIZE (h_sizes h)) <= retoff r ->
  handler_returns h args val -> offsetof_response_buf + Z.of_nat (length (published h val)) <= retsz r ->
  (0 < fuel)%nat ->
  exists w' r', libsrpc_send_request (2 ^ k) fuel pause wait_for_worker a RPC_SEND_ALL w = Ret tt w' /\
    reqs w' !! a = Some r' /\ delivered_answer r r' (published h val) /\
    libsrpc_errno (loc w') = libsrpc_errno (loc w).
Proof using Hk.
  intros Er Ha Hp Ex Hx Hr Hc Hn Hf (f & Ef & Hnum & Hext & Hlen & Hfil) (Hd & Hs & Hen & Hrec) Eh Hst Hm Hsz Hv Hfit Hfuel.
  unfold libsrpc_send_request.
  assert (libsrpc_shmem_get w = Ret (shm_ptr (loc w)) w) as Eshm.
  { unfold libsrpc_shmem_get, mbind, M_bind, getl, gets.
    by rewrite (proj2 (Z.eqb_neq _ _) Hd), (proj2 (Z.eqb_neq _ _) Hs). }
  rewrite (bind_ret _ _ _ _ _ Eshm).
  assert (req_or_null a w = Ret (Some r) w) as Ern.
  { unfold req_or_null. rewrite (proj2 (Z.eqb_neq a 0)) by done. by rewrite (bind_ret _ _ _ _ _ (get_req_run _ _ _ Er)). }
  rewrite (bind_ret _ _ _ _ _ Ern), Hn. cbn [Z.eqb]. rewrite (proj2 (Z.eqb_neq _ _) Hs).
  rewrite (bind_ret _ _ (srpc_disable_rpc_recursion (loc w)) _ w) by done. rewrite Hrec.
  rewrite (bind_ret _ _ (rpc_enable (loc w)) _ w) by done. rewrite Hen. cbn [negb].
  assert ((sRPC_ID2IDX (funid r) <? 0) || (sRPC_FNNUM <=? sRPC_ID2IDX (funid r)) = false) as ->.
  { unfold sRPC_ID2IDX, sRPCFNID_MAX, sRPC_FNNUM in *. apply orb_false_iff. split; [apply Z.ltb_ge|apply Z.leb_gt]; lia. }
  set (idx := sRPC_ID2IDX (funid r)) in *. rewrite (bind_ret _ _ _ _ _ Ef), Hext.
  assert (registered f w = [p]) as Ereg by (unfold registered, ext_cells; rewrite Hext, app_nil_r; exact Hfil).
  destruct (send_phase_run k fuel pause idx RPC_SEND_ALL a w r f) as (w1 & r1 & Esend & Er1 & L1 & Efid & Esig & _ & Ew1' & Eargs & Hps & _ & _);
    [done|done|done|split; [done|by rewrite Hext]|rewrite Ereg; apply NoDup_singleton
    |rewrite Ereg; intros q ->%list_elem_of_singleton; split; [lia|by exists x, []]|done|done|lia|].
  rewrite Hext, Ereg, Hn in *. cbn [addressees slots_for] in *. change (Z.to_nat 1) with 1%nat in *. cbn [take length] in *.
  rewrite bool_decide_false in Esend by (intros [? _]; done). rewrite (bind_ret _ _ _ _ _ Esend). assert (loc w1 = loc w) as Ew1 by by rewrite Ew1'.
  destruct (Hps 0%nat p eq_refl) as (x0 & x1 & l0 & Ex0 & Hx0 & Hslot & Ex1 & (q1 & Hq1 & ->)).
  rewrite Ex in Ex0. injection Ex0 as <-.
  rewrite (MpmcAlone.represents_inj k Hk _ _ _ (he_queue _ _ _ Hx0) (he_queue _ _ _ Hx)) in Hq1. cbn [app] in Hq1.
  change (Z.of_nat 1) with 1. cbn [Z.eqb]. assert (same_layout r r1) as L1r by (rewrite <- (set_retnum_id r), Hn; exact L1). clear L1. rename L1r into L1.
  assert (retnum r1 = 1) as Hn1 by (rewrite <- Hn; apply L1).
  rewrite (bind_ret _ _ _ _ _ (upd_req_id a w1 r1 (set_retnum 1) Er1 ltac:(rewrite <- Hn1; apply set_retnum_id))).
  rewrite (bind_ret _ _ _ _ _ (call_timeout_run idx w1)).
  set (w2 := if 0 <? rpc_timeout_oneshot (loc w1) then set_loc (set_oneshot 0 (loc w1)) w1 else w1).
  assert (reqs w2 = reqs w1 /\ procs w2 = procs w1 /\ libsrpc_errno (loc w2) = libsrpc_errno (loc w1)) as (R2 & P2 & E2)
    by (unfold w2; destruct (0 <? rpc_timeout_oneshot (loc w1)); repeat split).
  assert (reqs w2 !! a = Some r1) as Er2 by by rewrite R2.
  destruct fuel as [|n]; [lia|]. cbn [wait_responses].
  destruct (wait_for_worker_run a (effective_timeout (loc w1) idx) w2 r1
    (set_p_sem (p_sem x + (if 0 <? threads_wait x then 1 else 0)) (set_p_queue q1 x)) (funid r) h args val)
    as (w3 & r3 & Ew & Er3 & Hans & El3); [done|done|lia|by rewrite P2|exact Hq1| |done|done|done|done| |].
  { constructor; [by eapply same_layout_ok| |done|done| |].
    - apply not_corrupted. apply not_corrupted in Hc as (_ & ? & ? & ? & ?).
      pose proof (same_layout_ok _ _ L1 Hr) as (_ & ? & ?). destruct L1 as (_ & _ & L13 & L14 & _). rewrite Esig. repeat split; congruence.
    - rewrite (same_layout_slot r r1 0 L1). exact Hslot.
    - destruct Hm as [pos Hm]. exists pos. rewrite <- Hm. apply extract_ext. intros i [_ Hi].
      assert (i < Z.to_nat (retoff r))%nat as Hi' by lia.
      transitivity (slice 0 (Z.to_nat (retoff r)) (buf r1) !! i); [|rewrite Eargs]; rewrite lookup_slice, decide_True by done; done. }
  { destruct L1 as (_ & _ & -> & _). exact Hfit. }
  rewrite (bind_ret _ _ _ _ _ Ew). change ((0 =? ETIMEDOUT) || (0 =? EINVAL)) with false. cbn iota.
  destruct Hans as (L3 & Hrc & Hdat). assert (retnum r3 = 1) as Hn3 by (rewrite <- Hn1; apply L3).
  destruct (count_received_run (Z.to_nat 1) 0 a w3 r3 Er3 ltac:(eapply same_layout_ok; [exact L3|by eapply same_layout_ok]) ltac:(lia) ltac:(lia))
    as (c & Ec & _ & Hiff).
  rewrite (bind_ret _ _ _ _ _ Ec). rewrite (proj2 Hiff).
  - exists w3, r3. split; [done|]. split; [exact Er3|]. split; [|by rewrite El3, E2, Ew1].
    split; [by eapply same_layout_trans|]. rewrite (same_layout_slot r r1 0 L1) in Hrc, Hdat. done.
  - intros j Hj r4 o Er4 Eo. rewrite Er3 in Er4. injection Er4 as <-. apply get_response_fast_some in Eo as (_ & _ & ->).
    assert (j = 0) as -> by lia. left. rewrite (same_layout_slot r1 r3 0 L3), Hrc. split; [done|]. by rewrite rc_st_make.
Qed.

(** The stub, once its request is allocated in [w1]. *)
Lemma rpc_stub_run fid rlen w a w1 x h args val :
  libsrpc_req_alloc fuel fid (Z.of_nat (M_REQSIZE (length <$> args))) (Z.of_nat rlen)
    (set_loc (set_libsrpc_errno 0 (loc w)) w) = Ret a w1 ->
  allocated fid (Z.of_nat (M_REQSIZE (length <$> args))) (Z.of_nat rlen) 1 a w w1 ->
  0 < p < 2 ^ 64 -> procs w !! p = Some x -> healthy k x [] ->
  sRPCFNID_START < fid < sRPCFNID_MAX -> sole_executor (sRPC_ID2IDX fid) w -> may_call (loc w) ->
  handler fid = Some h -> h_is_stub h = false -> h_sizes h = length <$> args ->
  handler_returns h args val -> length (published h val) = rlen -> Z.of_nat rlen <= 32768 -> (0 < fuel)%nat ->
  exists w', rpc_stub (2 ^ k) fuel pause wait_for_worker fid (length <$> args) rlen RPC_SEND_ALL args w =
      Ret (published h val) w' /\ libsrpc_errno (loc w') = libsrpc_errno (loc w1).
Proof using Hk.
  intros Ea (Ha & Hcur & Pp & Pf & Hset & _ & r & Er & Hrf & _) Hp Ex Hx Hf Hsole Hcall Eh Hst Hsz Hv Hlen Hr32 Hfuel.
  unfold rpc_stub. rewrite (bind_ret _ _ tt _ (set_loc (set_libsrpc_errno 0 (loc w)) w)) by done.
  rewrite (proj2 (Z.ltb_ge _ _)) by done. rewrite (bind_ret _ _ _ _ _ Ea).
  rewrite (proj2 (Z.eqb_neq a 0)) by done. rewrite (bind_ret _ _ _ _ _ (get_req_run _ _ _ Er)).
  destruct Hrf as [Hok Hfid Hnum Hsound Hargs Hret _]. pose proof Hok as (Hh & Hsize & Hz).
  destruct (slot_bounds r 0 Hh Hsize ltac:(lia)) as [E0 Hend].
  set (size := M_REQSIZE (length <$> args)) in *.
  assert (retoff r <= slot_offset r 0) as Hoff by (rewrite E0; lia). pose proof (h_retoff r Hh) as Hro. pose proof (h_retsz r Hh) as Hrs.
  assert (0 + size <= length (buf r))%nat as Hfits by lia.
  destruct (bodyfun_spec args 0 (buf r) Hfits) as (b & Eb & Lb & _). pose proof (marshal_at args 0 (buf r) Hfits) as Hm.
  rewrite Eb in Hm |- *. cbn [snd] in Hm. fold size in Hm |- *.
  set (r1 := set_buf b r). set (w2 := set_reqs (<[a := r1]> (reqs w1)) w1).
  rewrite (bind_ret _ _ tt _ w2) by done. rewrite bool_decide_true by done. cbn [negb].
  assert (reqs w2 !! a = Some r1) as Er1 by apply lookup_insert_eq.
  rewrite (bind_ret _ _ _ _ _ (get_req_run _ _ _ Er1)).
  assert (same_layout r r1) as L1 by (repeat split; exact Lb). pose proof (same_layout_ok _ _ L1 Hok) as Hok1.
  destruct (req_ok_slot r1 0 Hok1) as [Eo _]; [change (retnum r1) with (retnum r); lia|]. rewrite Eo.
  destruct Hsole as (f & Ef & Hf1 & Hf2 & Hf3 & Hf4).
  assert (sole_executor (sRPC_ID2IDX (funid r1)) w2) as Hsole2.
  { exists f. change (funid r1) with (funid r). rewrite Hfid. split; [|done]. unfold get_func in *.
    cbn [funcs w2 set_reqs]. rewrite Pf. destruct (sRPC_ID2IDX fid <? 0); [done|].
    destruct (funcs w !! Z.to_nat (sRPC_ID2IDX fid)); [|done]. by injection Ef as ->. }
  destruct Hset as (S1 & S2 & _ & _ & S5 & S6 & _). destruct Hcall as (C1 & C2 & C3 & C4).
  destruct (send_request_run a w2 r1 x h args val) as (w3 & r3 & Es & Er3 & (L3 & Hrc & Hdat) & Ee);
    [exact Er1|exact Ha|exact Hp|cbn [procs w2 set_reqs]; rewrite Pp; exact Ex|exact Hx|exact Hok1|exact Hsound|exact Hnum
    |change (funid r1) with (funid r); rewrite Hfid; exact Hf|exact Hsole2
    |split; [cbn; congruence|split; [cbn; congruence|split; cbn; congruence]]
    |change (funid r1) with (funid r); by rewrite Hfid|exact Hst|eexists; rewrite Hsz; exact Hm
    |rewrite Hsz; exact Hargs|exact Hv| |exact Hfuel|].
  { rewrite Hlen. exact Hret. }
  rewrite (bind_ret _ _ _ _ _ Es). rewrite (bind_ret _ _ _ _ _ (get_req_run _ _ _ Er3)).
  unfold libsrpc_req_response_get. rewrite response_get_ready; [|done|by rewrite Hrc, rc_st_make].
  rewrite Hrc, rc_code_make by (vm_compute; intuition congruence). rewrite <- Hlen, Hdat. cbn [Z.ltb Z.compare].
  rewrite bind_mret. exists w3. split; [done|exact Ee].
Qed.
End end_to_end.

(** (C1) Calling an RPC function that exactly one process executes gives, byte for byte,
    the result of that process's own function on the same arguments, with no error
    of the call: through allocation of the request, marshalling, the registry, the
    queue, the worker, its answer and the caller's wait.  Two conditions: the request can
    be allocated, and a worker of that process takes it and answers before the call's
    timeout ([wait_for_worker]). *)
Theorem remote_call_is_local_call k fuel pause handler p t fid rlen w a w1 x h args val :
  let len := Z.of_nat (M_REQSIZE (length <$> args)) in
  1 <= k <= 61 -> (0 < fuel)%nat -> may_call (loc w) -> current_ok w ->
  0 < p < 2 ^ 64 -> procs w !! p = Some x -> healthy k x [] ->
  sRPCFNID_START < fid < sRPCFNID_MAX -> sole_executor p (sRPC_ID2IDX fid) w ->
  handler fid = Some h -> h_is_stub h = false -> h_sizes h = length <$> args ->
  handler_returns h args val -> length (published h val) = rlen -> Z.of_nat rlen <= 32768 -> len <= 2 ^ 30 ->
  libsrpc_req_alloc fuel fid len (Z.of_nat rlen) (set_loc (set_libsrpc_errno 0 (loc w)) w) = Ret a w1 -> a <> NULL ->
  exists w', rpc_stub (2 ^ k) fuel pause (wait_for_worker k handler p t) fid (length <$> args) rlen RPC_SEND_ALL args w =
      Ret (published h val) w' /\ libsrpc_errno (loc w') = libsrpc_errno (loc w1).
Proof.
  intros len Hk Hfuel Hcall Hcur Hp Ex Hx Hf Hsole Eh Hst Hsz Hv Hlen Hr32 Hl Ea Ha.
  apply (rpc_stub_run k Hk fuel pause handler p t fid rlen w a w1 x h args val); try done.
  pose proof Hsole as (f & Ef & Hn & _). fold len.
  assert (get_func (sRPC_ID2IDX fid) (set_loc (set_libsrpc_errno 0 (loc w)) w) = Ret f (set_loc (set_libsrpc_errno 0 (loc w)) w)) as Ef0.
  { unfold get_func in *. cbn [funcs set_loc]. destruct (sRPC_ID2IDX fid <? 0); [done|].
    destruct (funcs w !! Z.to_nat (sRPC_ID2IDX fid)); [|done]. by injection Ef as ->. }
  destruct (req_alloc_run fuel fid len (Z.of_nat rlen) (set_loc (set_libsrpc_errno 0 (loc w)) w) f a w1) as [(? & _)|[_ H]];
    [exact Hcur|exact Ef0|intros _; rewrite Hn; unfold layout_fits, sizeof_request, sizeof_response; lia
    |rewrite Hn; unfold sizeof_request, sizeof_response; lia|exact Ea|done|].
  rewrite Hn in H. exact H.
Qed.

(** The executor of the example: process 8192 alone. *)
Definition demo_remote : world :=
  set_funcs [RpcFunc 1 0 [0; 8192; 0; 0; 0; 0; 0; 0]] demo_caller.
Definition demo_remote_alloc : outcome world Z :=
  libsrpc_req_alloc 1 17 8 4 (set_loc (set_libsrpc_errno 0 (loc demo_remote)) demo_remote).
Lemma remote_call_is_local_call_witness :
  exists w', rpc_stub 2 1 (mret tt) (wait_for_worker 1 (fun _ => Some demo_handler) 8192 0) 17 [4%nat; 4%nat] 4
    RPC_SEND_ALL [[1; 2; 3; 4]; [5; 6; 7; 8]] demo_remote = Ret [1; 2; 3; 4] w'.
Proof.
  pose (a := default 0 (result demo_remote_alloc)). pose (w1 := default demo_remote (final demo_remote_alloc)).
  destruct (remote_call_is_local_call 1 1 (mret tt) (fun _ => Some demo_handler) 8192 0 17 4 demo_remote a w1
    (demo_proc 5 demo_empty) demo_handler [[1; 2; 3; 4]; [5; 6; 7; 8]] [1; 2; 3; 4]) as (w' & E & _).
  - lia.
  - lia.
  - split; [vm_compute; congruence|]. split; [vm_compute; congruence|]. split; reflexivity.
  - intros _. exists demo_request. split; [reflexivity|]. split; [reflexivity|]. vm_compute. intuition congruence.
  - lia.
  - vm_compute. reflexivity.
  - apply demo_proc_healthy; [lia|apply MpmcAlone.represents_init; lia|simpl; lia|vm_compute; reflexivity].
  - vm_compute. intuition congruence.
  - eexists. split; [vm_compute; reflexivity|]. repeat split.
  - reflexivity.
  - reflexivity.
  - reflexivity.
  - intros v. exists v. repeat split.
  - reflexivity.
  - simpl. lia.
  - vm_compute. congruence.
  - vm_compute. reflexivity.
  - vm_compute. congruence.
  - exists w'. exact E.
Defined.
