(* ===== verification/Stop.v ===== *)
(** Stopping the workers of a process: [libsrpc_thread_rcv_req_stop] against the main
    loop of [libsrpc_thread_rcv_req] ([libsrpc.c]), when no request arrives any more. *)
From S2P Require Import Prelude.

(** ** Steps *)

Definition DEQUEUE_RETRY := 1024.
(** A worker at the top of its loop, before a dequeue, after an unsuccessful one, in
    [libsrpc_sem_wait], past it, past the loop, and gone; [cnt] and [wf] are [cnt] and
    [wait_flag]. *)
Inductive wpc := WTop (cnt : Z) (wf : bool) | WDeq (cnt : Z) (wf : bool) | WIdle (cnt : Z) (wf : bool) | WSleep (cnt : Z)
  | WWoken (cnt : Z) | WExit | WGone.
(** The stopping thread: before it reads [threads_wait], before it sets the flag with
    [n] posts to make, posting, clearing the queue, waiting for [threads_run], done. *)
Inductive spc := SLoad | SFlag (n : Z) | SPost (n : Z) | SClear | SWait | SDone.
#[export] Instance wpc_eq : EqDecision wpc.
Proof. solve_decision. Defined.
#[export] Instance spc_eq : EqDecision spc.
Proof. solve_decision. Defined.

(** [stop_flag] is [srpc_thread_stop_flag]; [queued] counts the requests in the queue. *)
Record stopping := Stopping { stop_flag : bool; sem : Z; threads_wait : Z; threads_run : Z; queued : nat; ws : list wpc; sp : spc }.

(** One atomic action of worker [i]; [None]: it waits or is gone. *)
Definition stop_worker_step (s : stopping) (i : nat) (pc : wpc) : option stopping :=
  let go pc' sm tw tr q := Some (Stopping (stop_flag s) sm tw tr q (<[i := pc']> (ws s)) (sp s)) in
  match pc with
  | WTop cnt wf => go (if stop_flag s then WExit else WDeq cnt wf) (sem s) (threads_wait s) (threads_run s) (queued s)
  | WDeq cnt wf =>
      match queued s with
      | O => go (WIdle cnt wf) (sem s) (threads_wait s) (threads_run s) O
      | S q => go (WDeq 0 false) (sem s) (if wf then threads_wait s - 1 else threads_wait s) (threads_run s) q
      end
  | WIdle cnt wf =>
      if cnt <? DEQUEUE_RETRY then go (WTop (cnt + 1) wf) (sem s) (threads_wait s) (threads_run s) (queued s)
      else if wf then go (WSleep (cnt + 1)) (sem s) (threads_wait s) (threads_run s) (queued s)
      else go (WTop (cnt + 1) true) (sem s) (threads_wait s + 1) (threads_run s) (queued s)
  | WSleep cnt => if 0 <? sem s then go (WWoken cnt) (sem s - 1) (threads_wait s) (threads_run s) (queued s) else None
  | WWoken cnt => go (WTop cnt false) (sem s) (threads_wait s - 1) (threads_run s) (queued s)
  | WExit => go WGone (sem s) (threads_wait s) (threads_run s - 1) (queued s)
  | WGone => None
  end.
(** One atomic action of the stopping thread. *)
Definition stopper_step (s : stopping) : option stopping :=
  let go p := Some (Stopping (stop_flag s) (sem s) (threads_wait s) (threads_run s) (queued s) (ws s) p) in
  match sp s with
  | SLoad => go (SFlag (threads_wait s + 1))
  | SFlag n => Some (Stopping true (sem s) (threads_wait s) (threads_run s) (queued s) (ws s) (SPost n))
  | SPost n =>
      if 0 <? n then Some (Stopping (stop_flag s) (sem s + 1) (threads_wait s) (threads_run s) (queued s) (ws s) (SPost (n - 1)))
      else go SClear
  | SClear =>
      match queued s with
      | O => go SWait
      | S q => Some (Stopping (stop_flag s) (sem s) (threads_wait s) (threads_run s) q (ws s) SClear)
      end
  | SWait => if 0 <? threads_run s then None else go SDone
  | SDone => None
  end.
Inductive stop_step : stopping -> stopping -> Prop :=
  | ss_worker s i pc s' : ws s !! i = Some pc -> stop_worker_step s i pc = Some s' -> stop_step s s'
  | ss_stopper s s' : stopper_step s = Some s' -> stop_step s s'.

(** [n] workers at the start of their loops, [q] requests in the queue. *)
Definition stop_start (n q : nat) : stopping := Stopping false 0 0 (Z.of_nat n) q (replicate n (WTop 0 false)) SLoad.
Definition stop_reach (n q : nat) (s : stopping) : Prop := rtc stop_step (stop_start n q) s.

(** The stopping thread spins for ever: it waits for the workers, of which one is
    left, and nobody but it can make a step. *)
Definition stuck (s : stopping) : Prop := sp s = SWait /\ 0 < threads_run s /\ forall s', ~ stop_step s s'.

(** ** Enough wake-ups *)

(** A worker past the test of the flag, which may still go to sleep, and one that has
    not ended. *)
Definition committed (pc : wpc) : bool := match pc with WDeq _ _ | WIdle _ _ | WSleep _ => true | _ => false end.
Definition alive (pc : wpc) : bool := match pc with WGone => false | _ => true end.

(** The posts still to come. *)
Definition to_post (s : stopping) : Z := match sp s with SPost n => n | _ => 0 end.
Definition flagged (p : spc) : bool := match p with SLoad | SFlag _ => false | _ => true end.

(** While the number read from [threads_wait] was at least the number of workers, less
    one, there is a wake-up for every worker that may still sleep. *)
Record stop_inv (n : nat) (s : stopping) : Prop := StopInv {
  si_len : length (ws s) = n;
  si_run : threads_run s = tally alive (ws s);
  si_flag : stop_flag s = flagged (sp s);
  si_sem : 0 <= sem s;
  si_load : forall m, sp s = SFlag m -> Z.of_nat n <= m;
  si_post : 0 <= to_post s;
  si_wake : flagged (sp s) = true -> tally committed (ws s) <= sem s + to_post s;
  si_done : sp s = SDone -> threads_run s = 0 }.

(** The schedules in which [threads_wait] showed all workers but one. *)
Definition seen_step (n : nat) (s s' : stopping) : Prop :=
  stop_step s s' /\ (sp s = SLoad -> sp s' <> SLoad -> Z.of_nat n <= threads_wait s + 1).

Lemma stop_inv_step n s s' : stop_inv n s -> seen_step n s s' -> stop_inv n s'.
Proof.
  intros Hi [Hs Hload]. destruct Hs as [t i pc t' E Es|t t' Es]; destruct Hi as [H1 H2 H3 H4 H5 H6 H7 H8].
  - destruct t as [fl sm tw tr q l p]. cbn [ws stop_flag sem threads_wait threads_run queued sp] in *.
    unfold stop_worker_step in Es. cbn [ws stop_flag sem threads_wait threads_run queued sp] in Es.
    destruct pc; repeat case_match; try done; injection Es as <-; split; unfold to_post in *;
      cbn [ws stop_flag sem threads_wait threads_run queued sp] in *; try done;
      try (by rewrite length_insert); rewrite ?(tally_insert _ _ _ _ _ E); cbn [alive committed]; try lia.
    all: try (intros Hf; specialize (H7 Hf); first [lia|congruence]).
    intros Hd. specialize (H8 Hd). pose proof (tally_pos alive l WExit (list_elem_of_lookup_2 _ _ _ E) eq_refl). lia.
  - destruct t as [fl sm tw tr q l p]. unfold stopper_step in Es.
    cbn [ws stop_flag sem threads_wait threads_run queued sp] in *.
    destruct p; repeat case_match; try done; injection Es as <-; split; unfold to_post in *;
      cbn [ws stop_flag sem threads_wait threads_run queued sp flagged] in *; try done; try lia.
    all: try match goal with H : (0 <? _) = true |- _ => apply Z.ltb_lt in H | H : (0 <? _) = false |- _ => apply Z.ltb_ge in H end.
    all: try lia; try (intros _; specialize (H7 eq_refl); lia).
    + intros m Hm. injection Hm as <-. by apply Hload.
    + specialize (H5 n0 eq_refl). lia.
    + intros _. specialize (H5 n0 eq_refl). pose proof (tally_bound committed l). lia.
    + intros _. pose proof (tally_bound alive l). lia.
Qed.

Lemma stop_inv_start n q : stop_inv n (stop_start n q).
Proof.
  split; cbn; try done; try lia.
  - apply length_replicate.
  - induction n as [|n IH]; cbn; [done|]. rewrite <- IH. lia.
Qed.
Lemma stop_inv_reach n q s : rtc (seen_step n) (stop_start n q) s -> stop_inv n s.
Proof.
  intros H. pose proof (stop_inv_start n q) as Hi. induction H as [|x y z Hxy _ IH]; [done|]. by apply IH; eapply stop_inv_step.
Qed.

(** A worker that has not ended can make a step, unless it sleeps without a post. *)
Lemma alive_steps s i pc : ws s !! i = Some pc -> pc <> WGone -> (forall cnt, pc = WSleep cnt -> 0 < sem s) ->
  exists s', stop_step s s'.
Proof.
  intros E Hg Hs. destruct (stop_worker_step s i pc) as [s'|] eqn:Ew; [exists s'; by eapply ss_worker|]. exfalso.
  unfold stop_worker_step in Ew. destruct pc; repeat case_match; try done.
  match goal with H : (0 <? _) = false |- _ => apply Z.ltb_ge in H end. specialize (Hs _ eq_refl). lia.
Qed.
Lemma not_stuck n s : stop_inv n s -> ~ stuck s.
Proof.
  intros [H1 H2 H3 H4 H5 H6 H7 _] (Hp & Hr & Hno). rewrite H2 in Hr. unfold to_post in *. rewrite Hp in *. specialize (H7 eq_refl).
  assert (exists pc, pc ∈ ws s /\ alive pc = true) as (pc & Hin & Ha).
  { clear - Hr. induction (ws s) as [|x l IH]; cbn in Hr; [lia|]. destruct (alive x) eqn:E.
    - exists x. split; [apply list_elem_of_here|done].
    - destruct (IH ltac:(lia)) as (pc & Hin & Ha). exists pc. split; [by apply list_elem_of_further|done]. }
  apply list_elem_of_lookup in Hin as Hi. destruct Hi as [i Ei].
  destruct (alive_steps s i pc Ei) as [s' Hs]; [by intros ->| |by apply (Hno s')].
  intros cnt ->. pose proof (tally_pos committed _ _ Hin eq_refl). lia.
Qed.

(** ** The end *)

(** Once the flag is set every step brings the end nearer. *)
Definition wrank (pc : wpc) : nat :=
  match pc with WGone => 0 | WExit => 1 | WTop _ _ => 2 | WWoken _ => 3 | WSleep _ => 4 | WIdle _ _ => 5 | WDeq _ _ => 6 end.
Definition srank (p : spc) : nat :=
  match p with SDone => 0 | SWait => 1 | SClear => 2 | SPost n => 3 + Z.to_nat n | SFlag n => 4 + Z.to_nat n | SLoad => 5 end.
Definition ranks (l : list wpc) : nat := sum_list_with wrank l.
Definition steps_left (s : stopping) : nat := (ranks (ws s) + queued s + srank (sp s))%nat.

Lemma ranks_insert l i pc pc' : l !! i = Some pc -> (ranks (<[i := pc']> l) + wrank pc = ranks l + wrank pc')%nat.
Proof.
  revert i. induction l as [|x l IH]; intros [|i] E; try done.
  - injection E as ->. change (<[0%nat := pc']> (pc :: l)) with (pc' :: l). unfold ranks. cbn. lia.
  - change (<[S i := pc']> (x :: l)) with (x :: <[i := pc']> l). specialize (IH i E). unfold ranks in *. cbn. lia.
Qed.
Lemma step_brings_end s s' : stop_flag s = flagged (sp s) -> flagged (sp s) = true -> stop_step s s' ->
  (steps_left s' < steps_left s)%nat /\ flagged (sp s') = true.
Proof.
  intros Hfl Hf Hs. destruct Hs as [t i pc t' E Es|t t' Es]; rewrite Hf in Hfl; destruct t as [fl sm tw tr q l p];
    cbn [ws stop_flag sem threads_wait threads_run queued sp] in *; subst fl; unfold steps_left.
  - unfold stop_worker_step in Es. cbn [ws stop_flag sem threads_wait threads_run queued sp] in Es.
    destruct pc; repeat case_match; try done; injection Es as <-; cbn [ws queued sp]; (split; [|done]);
      match goal with |- context [<[i := ?x]> l] => pose proof (ranks_insert l i _ x E) as Hr end; cbn in Hr |- *; lia.
  - unfold stopper_step in Es. cbn [ws stop_flag sem threads_wait threads_run queued sp] in Es.
    destruct p; repeat case_match; try done; injection Es as <-; cbn [ws queued sp]; (split; [|done]);
      repeat match goal with H : (0 <? _) = true |- _ => apply Z.ltb_lt in H end; cbn [srank]; lia.
Qed.

Lemma seen_after n s s' : flagged (sp s) = true -> stop_step s s' -> seen_step n s s'.
Proof. intros Hf Hs. split; [done|]. intros E. by rewrite E in Hf. Qed.

(** (C35) When the number of waiting threads that [libsrpc_thread_rcv_req_stop] reads is at
    least that of the workers less one, stopping ends, whatever the order in which
    the threads run: from the moment the flag is set only finitely many steps are
    possible, and when none is left every worker has ended and the call returns. *)
Theorem stop_ends n q s : rtc (seen_step n) (stop_start n q) s -> flagged (sp s) = true ->
  (forall k s', nsteps stop_step k s s' -> (k <= steps_left s)%nat) /\
  (forall s', rtc stop_step s s' -> (forall t, ~ stop_step s' t) -> sp s' = SDone /\ threads_run s' = 0).
Proof.
  intros Hr Hf. pose proof (stop_inv_reach n q s Hr) as Hi. split.
  - intros k. revert s Hi Hf Hr. induction k as [|k IH]; intros s Hi Hf Hr s' Hk; [lia|].
    inversion_clear Hk as [|? ? y ? Hxy Hy]. destruct (step_brings_end s y (si_flag _ _ Hi) Hf Hxy) as [Hlt Hfy].
    pose proof (seen_after n s y Hf Hxy) as Hseen.
    specialize (IH y (stop_inv_step _ _ _ Hi Hseen) Hfy (rtc_r _ _ _ Hr Hseen) s' Hy). lia.
  - intros s' Hs' Hno. assert (stop_inv n s' /\ flagged (sp s') = true) as [Hi' Hf'].
    { clear Hno. induction Hs' as [|x y z Hxy Hyz IH]; [done|]. apply IH.
      - eapply rtc_r; [exact Hr|]. by apply seen_after.
      - by destruct (step_brings_end x y (si_flag _ _ Hi) Hf Hxy).
      - eapply stop_inv_step; [exact Hi|]. by apply seen_after. }
    assert (forall x, stopper_step s' = Some x -> False) as Hst by (intros x E; apply (Hno x); by apply ss_stopper).
    assert (0 <= threads_run s') as Hn by (rewrite (si_run _ _ Hi'); apply tally_bound).
    unfold stopper_step in Hst. destruct (sp s') eqn:Ep; repeat case_match; try (exfalso; by eapply Hst); try done.
    + exfalso. apply (not_stuck n s' Hi'). split; [done|]. split; [|done].
      match goal with H : (0 <? _) = true |- _ => by apply Z.ltb_lt in H end.
    + split; [done|]. by apply (si_done _ _ Hi').
Qed.

(** ** Schedules *)

(** A schedule names the worker that acts, or the stopping thread. *)
Definition act (o : option nat) (s : stopping) : option stopping :=
  match o with
  | None => stopper_step s
  | Some i => match ws s !! i with Some pc => stop_worker_step s i pc | None => None end
  end.
Fixpoint run_schedule (l : list (option nat)) (s : stopping) : option stopping :=
  match l with [] => Some s | o :: l => match act o s with Some s' => run_schedule l s' | None => None end end.
Lemma act_step o s s' : act o s = Some s' -> stop_step s s'.
Proof.
  destruct o as [i|]; cbn; intros E; [|by apply ss_stopper]. destruct (ws s !! i) as [pc|] eqn:Ei; [|done]. by eapply ss_worker.
Qed.
Lemma run_reach l s s' : run_schedule l s = Some s' -> rtc stop_step s s'.
Proof.
  revert s. induction l as [|o l IH]; intros s E; cbn in E; [by injection E as ->|].
  destruct (act o s) as [s1|] eqn:Eo; [|done]. eapply rtc_l; [by eapply act_step|by apply IH].
Qed.
(** The schedule keeps [threads_wait] within the theorem's condition. *)
Fixpoint run_seen (n : nat) (l : list (option nat)) (s : stopping) : option stopping :=
  match l with
  | [] => Some s
  | o :: l =>
      match act o s with
      | Some s' =>
          if bool_decide (sp s = SLoad) && negb (bool_decide (sp s' = SLoad)) && (threads_wait s + 1 <? Z.of_nat n) then None
          else run_seen n l s'
      | None => None
      end
  end.
Lemma run_seen_reach n l s s' : run_seen n l s = Some s' -> rtc (seen_step n) s s'.
Proof.
  revert s. induction l as [|o l IH]; intros s E; cbn in E; [by injection E as ->|].
  destruct (act o s) as [s1|] eqn:Eo; [|done]. destruct (_ && _ && _) eqn:Eb; [done|].
  eapply rtc_l; [split; [by eapply act_step|]|by apply IH]. intros E1 E2.
  rewrite bool_decide_eq_true_2, bool_decide_eq_false_2 in Eb by done. cbn in Eb. by apply Z.ltb_ge in Eb.
Qed.

(** A worker that finds nothing 1024 times, up to its announcement. *)
Definition spin (i : nat) : list (option nat) := concat (replicate 1024 [Some i; Some i; Some i]) ++ [Some i; Some i].
Definition two_workers : list (option nat) :=
  spin 0 ++ spin 1 ++
  [None] ++                                          (* reads threads_wait: 0, one post *)
  [Some 0%nat; Some 0%nat; Some 0%nat; Some 0%nat; Some 1%nat; Some 1%nat; Some 1%nat; Some 1%nat] ++  (* both announce themselves, test the flag, sleep *)
  [None; None; None; None] ++                        (* flag, one post, clear *)
  [Some 0%nat; Some 0%nat; Some 0%nat; Some 0%nat].  (* one worker wakes up and ends *)
Definition stuck_state : stopping := default (stop_start 2 0) (run_schedule two_workers (stop_start 2 0)).

Lemma stuck_state_is : stuck_state = Stopping true 0 1 1 0 [WGone; WSleep 1026] SWait.
Proof. vm_compute. reflexivity. Qed.
(** With two workers [libsrpc_thread_rcv_req_stop] may never return: it reads
    [threads_wait] before it sets the flag, both workers announce themselves and pass
    the test of the flag in between, and the single post wakes one of them. *)
Theorem stop_may_hang : exists s, stop_reach 2 0 s /\ stuck s.
Proof.
  exists stuck_state. split.
  - apply (run_reach two_workers). assert (is_Some (run_schedule two_workers (stop_start 2 0))) as [s Es].
    { apply (bool_decide_unpack _). vm_compute. exact I. }
    unfold stuck_state. by rewrite Es.
  - rewrite stuck_state_is. split; [done|]. split; [done|]. intros s' Hs. inversion Hs as [x i pc y E Ew|x y Ew]; subst.
    + cbn in E. destruct i as [|[|i]]; [injection E as <-; discriminate Ew|injection E as <-; discriminate Ew|discriminate E].
    + discriminate Ew.
Qed.

(** One worker: from the middle of its second turn, with the flag set, the call ends. *)
Definition one_worker : stopping := default (stop_start 1 3) (run_seen 1 [Some 0%nat; Some 0%nat; Some 0%nat; None; None] (stop_start 1 3)).
Lemma stop_ends_witness : one_worker = Stopping true 0 0 1 1 [WDeq 0 false] (SPost 1) /\
  forall s', rtc stop_step one_worker s' -> (forall t, ~ stop_step s' t) -> sp s' = SDone /\ threads_run s' = 0.
Proof.
  split; [reflexivity|]. destruct (stop_ends 1 3 one_worker) as [_ H].
  - apply (run_seen_reach 1 [Some 0%nat; Some 0%nat; Some 0%nat; None; None]). reflexivity.
  - reflexivity.
  - exact H.
Defined.
