(* ===== verification/Wakeup.v ===== *)
(** Putting worker threads to sleep and waking them: the protocol between
    [libsrpc_thread_rcv_req] (worker) and the end of [libsrpc_send_request_one]
    (sender) on the queue, [threads_wait] and the semaphore of one process, one atomic
    access per step. *)
From S2P Require Import Prelude.
From S2P Require Stop.

(** ** States

    A worker, with its [cnt] and [wait_flag]: at the top of its loop, before a dequeue,
    past a successful one with [wait_flag] set ([Taken]: [threads_wait] is decreased
    next) or clear ([Working]), past an unsuccessful one ([Idling]), in
    [libsrpc_sem_wait] ([Asleep]), past it ([Woken]; [bad]: it answered [EINVAL]), and
    out of the loop ([Gone]). *)
Inductive worker := Top (cnt : Z) (wf : bool) | Looking (cnt : Z) (wf : bool) | Taken | Working | Idling (cnt : Z) (wf : bool)
  | Asleep (cnt : Z) | Woken (cnt : Z) (bad : bool) | Gone (wf : bool).
(** A sender has reserved a cell of the queue ([Claimed n], the [n]-th reservation),
    has published it and will read [threads_wait] ([Published]), has read a positive
    value and tests the process's signature ([CheckSign]) and status ([CheckRun]), and
    will post ([Posting]). *)
Inductive sender := Idle | Claimed (n : nat) | Published | CheckSign | CheckRun | Posting.
#[export] Instance worker_eq : EqDecision worker.
Proof. solve_decision. Defined.
#[export] Instance sender_eq : EqDecision sender.
Proof. solve_decision. Defined.

(** The process as the protocol sees it: [srpc_thread_stop_flag], its signature, its
    status [RUN], and whether its semaphore can be waited on. *)
Record process := Process { stop_flag : bool; signed : bool; in_run : bool; sem_usable : bool }.
(** [cells]: the reserved cells not yet taken, oldest first, by reservation number,
    and whether they are published; a dequeue sees the oldest only. *)
Record wstate := WState {
  workers : list worker;
  senders : list sender;
  cells : list (nat * bool);
  next_cell : nat;
  threads_wait : Z;
  sem : Z;
  proc : process }.

Definition publish (n : nat) (c : nat * bool) : nat * bool := if decide (c.1 = n) then (n, true) else c.
(** [lf_mpmc_queue_try_dequeue] finds an element. *)
Definition dequeue (cs : list (nat * bool)) : option (list (nat * bool)) :=
  match cs with (_, true) :: cs => Some cs | _ => None end.

(** ** Steps *)

(** One atomic action of worker [i], from its state; [None]: it waits or is gone. *)
Definition worker_step (s : wstate) (i : nat) (wk : worker) : option wstate :=
  let go wk' cs tw sm := Some (WState (<[i := wk']> (workers s)) (senders s) cs (next_cell s) tw sm (proc s)) in
  match wk with
  | Top cnt wf => go (if stop_flag (proc s) then Gone wf else Looking cnt wf) (cells s) (threads_wait s) (sem s)
  | Looking cnt wf =>
      match dequeue (cells s) with
      | Some cs => go (if wf : bool then Taken else Working) cs (threads_wait s) (sem s)
      | None => go (Idling cnt wf) (cells s) (threads_wait s) (sem s)
      end
  | Taken => go Working (cells s) (threads_wait s - 1) (sem s)
  | Working => go (Looking 0 false) (cells s) (threads_wait s) (sem s)
  | Idling cnt wf =>
      if cnt <? Stop.DEQUEUE_RETRY then go (Top (cnt + 1) wf) (cells s) (threads_wait s) (sem s)
      else if wf then go (Asleep (cnt + 1)) (cells s) (threads_wait s) (sem s)
      else go (Top (cnt + 1) true) (cells s) (threads_wait s + 1) (sem s)
  | Asleep cnt =>
      if negb (sem_usable (proc s)) then go (Woken cnt true) (cells s) (threads_wait s) (sem s)
      else if 0 <? sem s then go (Woken cnt false) (cells s) (threads_wait s) (sem s - 1) else None
  | Woken cnt bad => go (if bad : bool then Gone false else Top cnt false) (cells s) (threads_wait s - 1) (sem s)
  | Gone _ => None
  end.
(** A signal ends the wait ([EINTR]). *)
Definition worker_interrupted (s : wstate) (i : nat) (cnt : Z) : wstate :=
  WState (<[i := Woken cnt false]> (workers s)) (senders s) (cells s) (next_cell s) (threads_wait s) (sem s) (proc s).

(** One atomic action of sender [j]. *)
Definition sender_step (s : wstate) (j : nat) (sd : sender) : wstate :=
  let go sd' cs nc sm := WState (workers s) (<[j := sd']> (senders s)) cs nc (threads_wait s) sm (proc s) in
  match sd with
  | Idle => go (Claimed (next_cell s)) (cells s ++ [(next_cell s, false)]) (S (next_cell s)) (sem s)
  | Claimed n => go Published (publish n <$> cells s) (next_cell s) (sem s)
  | Published => go (if 0 <? threads_wait s then CheckSign else Idle) (cells s) (next_cell s) (sem s)
  | CheckSign => go (if signed (proc s) then CheckRun else Idle) (cells s) (next_cell s) (sem s)
  | CheckRun => go (if in_run (proc s) then Posting else Idle) (cells s) (next_cell s) (sem s)
  | Posting => go Idle (cells s) (next_cell s) (sem s + 1)
  end.

(** What others do to the process: it is told to stop, leaves [RUN], loses its
    signature, its semaphore is destroyed. *)
Definition worse (p p' : process) : Prop :=
  (stop_flag p = true -> stop_flag p' = true) /\ (signed p' = true -> signed p = true) /\
  (in_run p' = true -> in_run p = true) /\ (sem_usable p' = true -> sem_usable p = true).
Definition set_process (p : process) (s : wstate) : wstate :=
  WState (workers s) (senders s) (cells s) (next_cell s) (threads_wait s) (sem s) p.

Inductive wstep : wstate -> wstate -> Prop :=
  | step_worker s i wk s' : workers s !! i = Some wk -> worker_step s i wk = Some s' -> wstep s s'
  | step_interrupt s i cnt : workers s !! i = Some (Asleep cnt) -> wstep s (worker_interrupted s i cnt)
  | step_sender s j sd : senders s !! j = Some sd -> wstep s (sender_step s j sd)
  | step_process s p : worse (proc s) p -> wstep s (set_process p s).

(** A process in [RUN] that nobody told to stop. *)
Definition running : process := Process false true true true.
(** [nw] workers enter their loops, [ns] senders idle, an empty queue. *)
Definition wstart (nw ns : nat) : wstate := WState (replicate nw (Top 0 false)) (replicate ns Idle) [] 0 0 0 running.
Definition wreach (nw ns : nat) (s : wstate) : Prop := rtc wstep (wstart nw ns) s.

(** ** Invariant *)

(** The workers that are counted in [threads_wait]. *)
Definition waiting (wk : worker) : bool :=
  match wk with Top _ wf | Looking _ wf | Idling _ wf | Gone wf => wf | Taken | Asleep _ | Woken _ _ => true | Working => false end.
(** Asleep, or past the last look at the queue before sleeping. *)
Definition dozing (wk : worker) : bool := match wk with Idling _ true | Asleep _ => true | _ => false end.
Definition all_dozing (s : wstate) : Prop := forall wk, wk ∈ workers s -> dozing wk = true.
(** A sender that has still to look at [threads_wait] or to post. *)
Definition pending (s : wstate) : Prop := exists sd, sd ∈ senders s /\ sd <> Idle.
(** Out of the loop, or about to leave it. *)
Definition lost (wk : worker) : bool := match wk with Gone _ | Woken _ true => true | _ => false end.

Record wake_inv (s : wstate) : Prop := WakeInv {
  wi_count : threads_wait s = tally waiting (workers s);
  wi_sem : 0 <= sem s;
  wi_claim : forall c, (c, false) ∈ cells s -> Claimed c ∈ senders s;
  wi_here : proc s = running -> forall wk, wk ∈ workers s -> lost wk = false;
  wi_wake : proc s = running -> workers s <> [] -> cells s <> [] -> all_dozing s -> 0 < sem s \/ pending s }.

Lemma dozing_waiting wk : dozing wk = true -> waiting wk = true.
Proof. by destruct wk as [? []|? []| | |? []| |? []|[]]. Qed.
Lemma dozing_tally ws : (forall wk, wk ∈ ws -> dozing wk = true) -> ws <> [] -> 0 < tally waiting ws.
Proof.
  intros H Hne. destruct ws as [|x ws]; [done|].
  apply (tally_pos waiting (x :: ws) x); [apply list_elem_of_here|]. apply dozing_waiting, H, list_elem_of_here.
Qed.
Lemma insert_same {A} (l : list A) i x y : l !! i = Some x -> <[i := y]> l !! i = Some y.
Proof. intros. by eapply list_lookup_insert_eq, lookup_lt_Some. Qed.
Lemma insert_here {A} (P : A -> Prop) (l : list A) i y : (forall x, x ∈ l -> P x) -> P y -> forall x, x ∈ <[i := y]> l -> P x.
Proof.
  intros H Hy x Hx. apply list_elem_of_lookup in Hx as [j E]. destruct (decide (j = i)) as [->|Hne].
  - destruct (decide (i < length l)%nat) as [Hl|Hl]; [rewrite list_lookup_insert_eq in E by done; by injection E as <-|].
    rewrite list_insert_ge in E by lia. by eapply H, list_elem_of_lookup_2.
  - rewrite list_lookup_insert_ne in E by done. by eapply H, list_elem_of_lookup_2.
Qed.

Lemma wake_inv_start nw ns : wake_inv (wstart nw ns).
Proof.
  split; simpl; try done.
  - induction nw as [|nw IH]; simpl; [done|]. rewrite <- IH. lia.
  - intros c Hc. by apply not_elem_of_nil in Hc.
  - intros _ wk Hin. apply list_elem_of_lookup in Hin as [i E]. by apply lookup_replicate in E as [-> _].
Qed.

(** Worker [i] moves on to [wk']: what has to be checked. *)
Lemma wake_inv_go s i wk wk' cs tw sm : wake_inv s -> workers s !! i = Some wk ->
  tw = threads_wait s - (if waiting wk then 1 else 0) + (if waiting wk' then 1 else 0) -> 0 <= sm ->
  (forall c, c ∈ cs -> c ∈ cells s) -> (proc s = running -> lost wk' = false) ->
  (dozing wk' = true -> sm = sem s /\ cs = cells s /\ (dozing wk = true \/ dequeue cs = None)) ->
  wake_inv (WState (<[i := wk']> (workers s)) (senders s) cs (next_cell s) tw sm (proc s)).
Proof.
  intros [Hc Hs Hcl Hh Hw] E Etw Hsm Hcs Hl Hd. split; cbn [threads_wait sem cells senders workers proc].
  - rewrite (tally_insert _ _ _ _ _ E). lia.
  - done.
  - intros c Hin. by apply Hcl, Hcs.
  - intros Hp. by apply insert_here; [apply Hh|apply Hl].
  - intros Hp _ Hne Hall. assert (dozing wk' = true) as Hd'.
    { apply Hall. eapply list_elem_of_lookup_2. by eapply insert_same. }
    destruct (Hd Hd') as (-> & -> & [Hdw|Hnone]).
    + apply Hw; [done|by intros En; rewrite En in E|done|]. intros w Hin. apply list_elem_of_lookup in Hin as [j Ej].
      destruct (decide (j = i)) as [->|Hji]; [rewrite E in Ej; by injection Ej as <-|].
      apply Hall. eapply list_elem_of_lookup_2. cbn. by rewrite list_lookup_insert_ne.
    + right. destruct (cells s) as [|[n [|]] cs] eqn:Ecs; [done|done|].
      exists (Claimed n). split; [|done]. apply Hcl, list_elem_of_here.
Qed.

Lemma dequeue_cells cs cs' : dequeue cs = Some cs' -> exists n, cs = (n, true) :: cs'.
Proof. destruct cs as [|[n []] cs]; simpl; try done. intros E. injection E as ->. by exists n. Qed.

Lemma wake_inv_worker s i wk s' : wake_inv s -> workers s !! i = Some wk -> worker_step s i wk = Some s' -> wake_inv s'.
Proof.
  intros Hi E Es. pose proof Hi as [_ Hs _ Hh _]. assert (proc s = running -> lost wk = false) as Hlost.
  { intros Hp. by eapply Hh, list_elem_of_lookup_2. }
  unfold worker_step in Es. destruct wk as [cnt wf|cnt wf| | |cnt wf|cnt|cnt bad|wf];
    repeat match type of Es with
    | context [match dequeue ?cs with _ => _ end] => destruct (dequeue cs) as [cs'|] eqn:Ed
    | context [if ?b then _ else _] => destruct b eqn:?
    end; try done; injection Es as <-;
    (eapply wake_inv_go; [exact Hi|exact E|cbn; rewrite ?Heqb; try destruct wf; cbn; lia|try done|try done|cbn; try done|cbn; try done]).
  - intros Hp. by rewrite Hp in Heqb.
  - intros c Hin. apply dequeue_cells in Ed as [n Ed]. rewrite Ed. by apply list_elem_of_further.
  - intros c Hin. apply dequeue_cells in Ed as [n Ed]. rewrite Ed. by apply list_elem_of_further.
  - intros _. auto.
  - auto.
  - intros Hp. by rewrite Hp in Heqb.
  - apply Z.ltb_lt in Heqb0. lia.
Qed.

Lemma elem_other_sender s j sd sd' n : senders s !! j = Some sd -> Claimed n ∈ senders s -> sd <> Claimed n ->
  Claimed n ∈ <[j := sd']> (senders s).
Proof.
  intros E Hin Hne. apply list_elem_of_lookup in Hin as [j' Ej'].
  apply list_elem_of_lookup. exists j'. rewrite list_lookup_insert_ne; [done|]. intros ->. congruence.
Qed.
(** Sender [j] moves on to [sd']. *)
Lemma wake_inv_send s j sd sd' cs nc sm : wake_inv s -> senders s !! j = Some sd -> 0 <= sm ->
  (forall c, (c, false) ∈ cs -> Claimed c ∈ <[j := sd']> (senders s)) ->
  (proc s = running -> workers s <> [] -> cs <> [] -> all_dozing s -> 0 < sm \/ sd' <> Idle) ->
  wake_inv (WState (workers s) (<[j := sd']> (senders s)) cs nc (threads_wait s) sm (proc s)).
Proof.
  intros [Hc Hs Hcl Hh Hw] E Hsm Hcs Hwake. split; cbn [threads_wait sem cells senders workers proc]; try done.
  intros Hp Hne Hcne Hall. destruct (Hwake Hp Hne Hcne Hall) as [|Hsd]; [by left|]. right. exists sd'. split; [|done].
  eapply list_elem_of_lookup_2. cbn. by eapply insert_same.
Qed.
Lemma wake_inv_sender s j sd : wake_inv s -> senders s !! j = Some sd -> wake_inv (sender_step s j sd).
Proof.
  intros Hi E. pose proof Hi as [Hc Hs Hcl _ _].
  assert (forall sd' c, sd <> Claimed c -> (c, false) ∈ cells s -> Claimed c ∈ <[j := sd']> (senders s)) as Hkeep.
  { intros sd' c Hne Hin. by apply (elem_other_sender s j sd); [done|apply Hcl|]. }
  destruct sd as [|n| | | |]; cbn [sender_step]; (eapply wake_inv_send; [exact Hi|exact E|lia|..]).
  - intros c [Hin|Hin]%elem_of_app; [by apply Hkeep|]. apply list_elem_of_singleton in Hin. injection Hin as ->.
    eapply list_elem_of_lookup_2. by eapply insert_same.
  - by right.
  - intros c Hin. apply list_elem_of_fmap in Hin as ([c' b] & Ep & Hin). unfold publish in Ep. simpl in Ep.
    destruct (decide (c' = n)); [done|]. injection Ep as -> <-. apply Hkeep; [congruence|done].
  - by right.
  - intros c Hin. by apply Hkeep.
  - intros _ Hne _ Hall. right. rewrite (proj2 (Z.ltb_lt _ _)); [done|]. rewrite Hc. by apply dozing_tally.
  - intros c Hin. by apply Hkeep.
  - intros Hp _ _ _. right. by rewrite Hp.
  - intros c Hin. by apply Hkeep.
  - intros Hp _ _ _. right. by rewrite Hp.
  - intros c Hin. by apply Hkeep.
  - left. lia.
Qed.

Lemma worse_running p : worse p running -> p = running.
Proof.
  destruct p as [st sg ru se]. intros (H1 & H2 & H3 & H4). cbn in *. unfold running. rewrite H2, H3, H4 by done.
  destruct st; [by specialize (H1 eq_refl)|done].
Qed.
Lemma wake_inv_step s s' : wake_inv s -> wstep s s' -> wake_inv s'.
Proof.
  intros Hi Hst. destruct Hst as [s i wk s' E Es|s i cnt E|s j sd E|s p Hp].
  - by eapply wake_inv_worker.
  - apply (wake_inv_go s i (Asleep cnt)); [done|done|cbn; lia|apply Hi|done|done|done].
  - by apply wake_inv_sender.
  - destruct Hi as [Hc Hs Hcl Hh Hw]. split; cbn [threads_wait sem cells senders workers proc set_process]; try done.
    + intros ->. apply worse_running in Hp. by apply Hh.
    + intros ->. apply worse_running in Hp. by apply Hw.
Qed.

Lemma wake_inv_reach nw ns s : wreach nw ns s -> wake_inv s /\ length (workers s) = nw.
Proof.
  intros H. unfold wreach in H. apply rtc_ind_r with (P := fun s => wake_inv s /\ length (workers s) = nw) in H; [done| |].
  - split; [apply wake_inv_start|]. simpl. apply length_replicate.
  - intros s1 s2 _ Hst [Hi Hl]. split; [by eapply wake_inv_step|].
    destruct Hst as [s1 i wk s2 E Es|s1 i cnt E|s1 j sd E|s1 p Hp]; [|by simpl; rewrite length_insert|by destruct sd|done].
    assert (length (workers s2) = length (workers s1)) as ->; [|done].
    unfold worker_step in Es. destruct wk; repeat case_match; try done; injection Es as <-; simpl; by rewrite length_insert.
Qed.

(** ** Progress *)

(** Steps of workers only. *)
Definition worker_only (s s' : wstate) : Prop :=
  exists i wk, workers s !! i = Some wk /\ worker_step s i wk = Some s'.
(** Worker [i] alone brings the oldest request out of the queue. *)
Definition takes (s : wstate) (cs : list (nat * bool)) : Prop := exists s', rtc worker_only s s' /\ cells s' = cs.
Lemma takes_step s i wk s1 cs : workers s !! i = Some wk -> worker_step s i wk = Some s1 -> takes s1 cs -> takes s cs.
Proof. intros E Es (s' & Hr & Ec). exists s'. split; [|done]. eapply rtc_l; [|exact Hr]. by exists i, wk. Qed.

Section progress.
Context (n : nat) (cs : list (nat * bool)) (i : nat).
(** The worker's own state after a step of its own. *)
Lemma looking_takes s cnt wf : workers s !! i = Some (Looking cnt wf) -> cells s = (n, true) :: cs -> takes s cs.
Proof.
  intros E Ec. eapply (takes_step s i); [exact E|cbn; by rewrite Ec|]. eexists. by split; [apply rtc_refl|].
Qed.
Lemma top_takes s cnt wf : workers s !! i = Some (Top cnt wf) -> proc s = running -> cells s = (n, true) :: cs -> takes s cs.
Proof.
  intros E Hp Ec. eapply (takes_step s i); [exact E|cbn; rewrite Hp; reflexivity|].
  eapply looking_takes; [cbn; by eapply insert_same|exact Ec].
Qed.
Lemma woken_takes s cnt : workers s !! i = Some (Woken cnt false) -> proc s = running -> cells s = (n, true) :: cs -> takes s cs.
Proof.
  intros E Hp Ec. eapply (takes_step s i); [exact E|reflexivity|]. eapply top_takes; [cbn; by eapply insert_same|done|exact Ec].
Qed.
Lemma asleep_takes s cnt : workers s !! i = Some (Asleep cnt) -> proc s = running -> 0 < sem s -> cells s = (n, true) :: cs -> takes s cs.
Proof.
  intros E Hp Hs Ec. eapply (takes_step s i); [exact E|cbn; rewrite Hp; cbn; by rewrite (proj2 (Z.ltb_lt _ _)) by done|].
  eapply woken_takes; [cbn; by eapply insert_same|done|exact Ec].
Qed.
Lemma working_takes s : workers s !! i = Some Working -> cells s = (n, true) :: cs -> takes s cs.
Proof.
  intros E Ec. eapply (takes_step s i); [exact E|reflexivity|]. eapply looking_takes; [cbn; by eapply insert_same|exact Ec].
Qed.
Lemma worker_takes s wk : workers s !! i = Some wk -> lost wk = false -> proc s = running -> (dozing wk = true -> 0 < sem s) ->
  cells s = (n, true) :: cs -> takes s cs.
Proof.
  intros E Hl Hp Hd Ec. destruct wk as [cnt wf|cnt wf| | |cnt wf|cnt|cnt [|]|wf]; try done.
  - by eapply top_takes.
  - by eapply looking_takes.
  - eapply (takes_step s i); [exact E|reflexivity|]. eapply working_takes; [cbn; by eapply insert_same|exact Ec].
  - by eapply working_takes.
  - destruct (cnt <? Stop.DEQUEUE_RETRY) eqn:Er; [|destruct wf]; (eapply (takes_step s i); [exact E|cbn; rewrite Er; reflexivity|]).
    + eapply top_takes; [cbn; by eapply insert_same|done|exact Ec].
    + eapply asleep_takes; [cbn; by eapply insert_same|done|cbn; by apply Hd|exact Ec].
    + eapply top_takes; [cbn; by eapply insert_same|done|exact Ec].
  - eapply asleep_takes; [exact E|done|by apply Hd|exact Ec].
  - by eapply woken_takes.
Qed.
End progress.

(** (C28) In every reachable state of any number of workers and senders of a process that is
    in [RUN], was not told to stop and has its semaphore: if a request is in the queue and
    every worker sleeps or has had its last look before sleeping, then the semaphore is
    positive or a sender is on its way to wake one.  So once the senders are done, the
    workers alone can take the oldest request: no wake-up is lost. *)
Theorem no_lost_wakeup nw ns s : (0 < nw)%nat -> wreach nw ns s -> proc s = running -> cells s <> [] ->
  (all_dozing s -> 0 < sem s \/ pending s) /\
  ((forall sd, sd ∈ senders s -> sd = Idle) ->
     exists s', rtc worker_only s s' /\ length (cells s) = S (length (cells s'))).
Proof.
  intros Hn H Hp Hc. destruct (wake_inv_reach nw ns s H) as [[Htw Hs Hcl Hh Hw] Hl].
  assert (workers s <> []) as Hne by (intros E; rewrite E in Hl; simpl in Hl; lia).
  split; [by apply Hw|]. intros Hidle. destruct (cells s) as [|[n [|]] cs] eqn:Ec; [done| |].
  2: { specialize (Hcl n ltac:(apply list_elem_of_here)). by apply Hidle in Hcl. }
  assert (takes s cs) as (s' & Hr & Es); [|exists s'; split; [done|simpl; by rewrite Es]].
  destruct (decide (Forall (fun wk => dozing wk = true) (workers s))) as [Ha|Ha].
  - rewrite Forall_forall in Ha. destruct (Hw Hp Hne Hc Ha) as [Hsem|(sd & Hin & Hsd)]; [|by apply Hidle in Hin].
    destruct (workers s) as [|wk ws] eqn:Ew; [done|].
    apply (worker_takes n cs 0 s wk); [by rewrite Ew|apply Hh; [done|apply list_elem_of_here]|done|done|done].
  - apply not_Forall_Exists in Ha; [|apply _]. apply Exists_exists in Ha as (wk & Hin & Hna).
    pose proof (Hh Hp wk Hin). apply list_elem_of_lookup in Hin as [i E]. by apply (worker_takes n cs i s wk).
Qed.

(** ** An example *)

Inductive actor := Worker (i : nat) | Sender (j : nat).
Definition act (a : actor) (s : wstate) : option wstate :=
  match a with
  | Worker i => match workers s !! i with Some wk => worker_step s i wk | None => None end
  | Sender j => match senders s !! j with Some sd => Some (sender_step s j sd) | None => None end
  end.
Fixpoint run (l : list actor) (s : wstate) : option wstate :=
  match l with [] => Some s | a :: l => match act a s with Some s' => run l s' | None => None end end.
Lemma run_steps l : forall s s', run l s = Some s' -> rtc wstep s s'.
Proof.
  induction l as [|a l IH]; intros s s' E; cbn in E; [by injection E as ->|]. destruct (act a s) as [s1|] eqn:Ea; [|done].
  eapply rtc_l; [|by apply IH]. destruct a as [i|j]; cbn in Ea.
  - destruct (workers s !! i) as [wk|] eqn:Ei; [|done]. by eapply step_worker.
  - destruct (senders s !! j) as [sd|] eqn:Ej; [|done]. injection Ea as <-. by apply step_sender.
Qed.
(** One worker that fell asleep, one sender that enqueued and woke it. *)
Definition wdemo : wstate := WState [Asleep 1026] [Idle] [(0%nat, true)] 1 1 1 running.
Lemma wdemo_reach : wreach 1 1 wdemo.
Proof. apply (run_steps (replicate 3078 (Worker 0) ++ replicate 6 (Sender 0))). vm_compute. reflexivity. Qed.
Lemma no_lost_wakeup_witness : exists s', rtc worker_only wdemo s' /\ 1%nat = S (length (cells s')).
Proof.
  destruct (no_lost_wakeup 1 1 wdemo) as [_ H]; [lia|exact wdemo_reach|reflexivity|discriminate|].
  apply H. intros sd Hin. apply list_elem_of_singleton in Hin. exact Hin.
Defined.
