(* ===== verification/HazardGc.v ===== *)
(** The reclamation of a request by the collector while workers may still hold it:
    [libsrpc_request_lock] and [libsrpc_request_processing] against
    [libsrpc_req_is_busy_proc], [libsrpc_req_destroy] and the final free of
    [gc_pool_destroy], one atomic access per step, for one request sent to any
    number of processes (each represented by the thread that takes it). *)
From S2P Require Import Prelude.

(** ** States *)

(** Where a worker is with the request. *)
Inductive wpc :=
  | WNone                  (* not dequeued, or finished *)
  | WGot                   (* dequeued; first [is_corrupted] next *)
  | WPublish               (* passed it; store of [hp_req] next *)
  | WRecheck               (* [hp_req] set; second [is_corrupted] next *)
  | WUnpublish             (* failed it; clears [hp_req] *)
  | WThird                 (* check of [libsrpc_request_processing] next *)
  | WUse                   (* reads and writes the request *)
  | WDone.                 (* clears [hp_req] *)
#[export] Instance wpc_eq : EqDecision wpc.
Proof. solve_decision. Defined.

(** A process: it is in [RUN], the request is in its queue, the hazard pointer of its
    thread. *)
Record agent := Agent { in_run : bool; queued : bool; hp : bool; at_pc : wpc }.

(** Where the collector is. [GScan i], [GScanQ i], [GScanHp i]: about to test whether
    process [i] is valid, to search its queue, to read its hazard pointer. *)
Inductive gpc := GIdle | GScan (i : nat) | GScanQ (i : nat) | GScanHp (i : nat) | GBusy | GDestroy | GFree | GFreed.
#[export] Instance gpc_eq : EqDecision gpc.
Proof. solve_decision. Defined.

(** [signed]: the request carries [LIBSRPC_REQ_SIGN]; [released]: its owner let go
    of it, so that the collector may consider it. *)
Record hstate := HState { agents : list agent; signed : bool; released : bool; gc : gpc }.

Definition freed (s : hstate) : bool := match gc s with GFreed => true | _ => false end.
Definition set_agent (i : nat) (a : agent) (s : hstate) : hstate :=
  HState (<[i := a]> (agents s)) (signed s) (released s) (gc s).

(** ** Steps *)

Definition agent_step (s : hstate) (i : nat) (a : agent) : option hstate :=
  let go q h c := Some (set_agent i (Agent (in_run a) q h c) s) in
  match at_pc a with
  | WNone => if queued a then go false (hp a) WGot else None
  | WGot => go (queued a) (hp a) (if signed s then WPublish else WThird)
  | WPublish => go (queued a) true WRecheck
  | WRecheck => go (queued a) (hp a) (if signed s then WThird else WUnpublish)
  | WUnpublish => go (queued a) false WThird
  | WThird => go (queued a) (hp a) (if signed s then WUse else WDone)
  | WUse => go (queued a) (hp a) WDone
  | WDone => go (queued a) false WNone
  end.

Definition set_gc (g : gpc) (s : hstate) : hstate := HState (agents s) (signed s) (released s) g.
(** [libsrpc_req_is_busy_proc], then [libsrpc_req_destroy] and the free. *)
Definition gc_step (s : hstate) : option hstate :=
  match gc s with
  | GIdle => if released s then Some (set_gc (GScan 0) s) else None
  | GScan i =>
      match agents s !! i with
      | None => Some (set_gc GDestroy s)
      | Some a => Some (set_gc (if in_run a then GScanQ i else GScan (S i)) s)   (* [continue] *)
      end
  | GScanQ i =>
      match agents s !! i with
      | None => Some (set_gc GDestroy s)
      | Some a => Some (set_gc (if queued a then GBusy else GScanHp i) s)
      end
  | GScanHp i =>
      match agents s !! i with
      | None => Some (set_gc GDestroy s)
      | Some a => Some (set_gc (if hp a then GBusy else GScan (S i)) s)
      end
  | GBusy => Some (set_gc GIdle s)               (* kept until the next round *)
  | GDestroy => Some (HState (agents s) false (released s) GFree)
  | GFree => Some (set_gc GFreed s)
  | GFreed => None
  end.

(** How the owner lets go: [libsrpc_req_free] of a live process only marks the
    block; the destructor run by [libsrpc_proc_destroy] clears the signature
    first. *)
Inductive owner := LiveOwner | DeadOwner.
Definition release (o : owner) (s : hstate) : hstate :=
  HState (agents s) (match o with LiveOwner => signed s | DeadOwner => false end) true (gc s).

(** A process leaves [RUN] ([libsrpc_proc_set_stop]); its workers go on. *)
Definition leave_run (a : agent) : agent := Agent false (queued a) (hp a) (at_pc a).

Inductive hstep (o : owner) : hstate -> hstate -> Prop :=
  | step_agent s i a s' : agents s !! i = Some a -> agent_step s i a = Some s' -> hstep o s s'
  | step_gc s s' : gc_step s = Some s' -> hstep o s s'
  | step_release s : released s = false -> hstep o s (release o s)
  | step_leave s i a : agents s !! i = Some a -> hstep o s (set_agent i (leave_run a) s).

(** The request has just been sent to [n] processes, all in [RUN]. *)
Definition hstart (n : nat) : hstate := HState (replicate n (Agent true true false WNone)) true false GIdle.
Definition hreach (o : owner) (n : nat) (s : hstate) : Prop := rtc (hstep o) (hstart n) s.

(** A worker works on the request after its block was freed: of any process, and of one
    that is in [RUN]. *)
Definition use_after_free (s : hstate) : Prop := freed s = true /\ exists a, a ∈ agents s /\ at_pc a = WUse.
Definition running_use_after_free (s : hstate) : Prop := freed s = true /\ exists a, a ∈ agents s /\ in_run a = true /\ at_pc a = WUse.

(** (C26) The release by a live owner lets the collector free the request under a worker:
    the worker has taken it from the queue and passed the first check but not yet
    published its hazard pointer when the collector looks; it publishes and passes
    both remaining checks before the collector clears the signature. *)
Theorem live_release_races : exists s, hreach LiveOwner 1 s /\ running_use_after_free s.
Proof.
  exists (HState [Agent true false true WUse] false true GFreed). split; [|split; [done|]].
  2: { eexists. split; [apply list_elem_of_here|by split]. }
  eapply rtc_l; [eapply (step_agent _ _ 0%nat); reflexivity|]. (* dequeue *)
  eapply rtc_l; [eapply (step_agent _ _ 0%nat); reflexivity|]. (* first check *)
  eapply rtc_l; [apply step_release; reflexivity|].            (* the caller timed out and reallocates *)
  do 4 (eapply rtc_l; [apply step_gc; reflexivity|]).          (* in RUN, queue empty, no hazard pointer *)
  do 3 (eapply rtc_l; [eapply (step_agent _ _ 0%nat); reflexivity|]). (* publish, second and third check *)
  do 3 (eapply rtc_l; [apply step_gc; reflexivity|]).          (* end of scan, destroy, free *)
  apply rtc_refl.
Qed.

(** (C27) Nor is the request of a dead owner safe from the workers of a process that left
    [RUN]: the collector looks neither at its queue nor at its hazard pointers
    ([libsrpc_req_is_busy_proc]), while a worker may still be at work. *)
Theorem stopping_process_races : exists s, hreach DeadOwner 1 s /\ use_after_free s.
Proof.
  exists (HState [Agent false false true WUse] false true GFreed). split; [|split; [done|]].
  2: { eexists. split; [apply list_elem_of_here|done]. }
  do 5 (eapply rtc_l; [eapply (step_agent _ _ 0%nat); reflexivity|]). (* dequeue, checks, hazard pointer: at work *)
  eapply rtc_l; [eapply (step_leave _ _ 0%nat); reflexivity|].        (* the process is told to stop *)
  eapply rtc_l; [apply step_release; reflexivity|].                   (* the owner of the request dies *)
  do 5 (eapply rtc_l; [apply step_gc; reflexivity|]).                 (* not in RUN: skipped; destroy, free *)
  apply rtc_refl.
Qed.

(** ** A dead owner's request is safe from processes in RUN *)

(** The collector has found process [j] clean. *)
Definition scanned (g : gpc) (j : nat) : Prop :=
  match g with
  | GScan i | GScanQ i | GScanHp i => (j < i)%nat
  | GDestroy | GFree | GFreed => True
  | _ => False
  end.
Record hinv (s : hstate) : Prop := HInv {
  hi_signed : released s = true -> signed s = false;
  hi_gc : released s = false -> gc s = GIdle;
  hi_third : forall i a, agents s !! i = Some a -> at_pc a = WThird -> hp a = false -> signed s = false;
  hi_unpublish : forall i a, agents s !! i = Some a -> at_pc a = WUnpublish -> signed s = false;
  hi_use : forall i a, agents s !! i = Some a -> at_pc a = WUse -> hp a = true;
  hi_hp : forall i a, agents s !! i = Some a -> at_pc a = WRecheck -> hp a = true;
  hi_scan : forall i a, agents s !! i = Some a -> in_run a = true -> scanned (gc s) i -> at_pc a <> WUse }.

Lemma hinv_start n : hinv (hstart n).
Proof.
  split; simpl; try done; intros i a E; apply lookup_replicate in E as [-> _]; done.
Qed.

Lemma lookup_agent i a s j b : agents (set_agent i a s) !! j = Some b ->
  (j = i /\ b = a) \/ agents s !! j = Some b.
Proof.
  cbn [agents set_agent]. intros E. destruct (decide (j = i)) as [->|Hne].
  - assert (i < length (agents s))%nat as Hl.
    { apply lookup_lt_Some in E. by rewrite length_insert in E. }
    rewrite list_lookup_insert_eq in E by done. injection E as <-. by left.
  - rewrite list_lookup_insert_ne in E by done. by right.
Qed.
(** Process [i] moves on to [b]. *)
Lemma hinv_go s i b : hinv s ->
  (at_pc b = WThird -> hp b = false -> signed s = false) -> (at_pc b = WUnpublish -> signed s = false) ->
  (at_pc b = WUse -> hp b = true) -> (at_pc b = WRecheck -> hp b = true) ->
  (in_run b = true -> scanned (gc s) i -> at_pc b <> WUse) -> hinv (set_agent i b s).
Proof.
  intros [H1 H2 H3 Hn H4 H5 H6] B3 Bn B4 B5 B6. split; cbn [released signed gc set_agent]; [done|done|..];
    intros j c Ej; apply lookup_agent in Ej as [[-> ->]|Ej]; eauto.
Qed.

Lemma hinv_agent s i a s' : hinv s -> agents s !! i = Some a -> agent_step s i a = Some s' -> hinv s'.
Proof.
  intros Hi E Es. pose proof Hi as [H1 H2 H3 Hn H4 H5 H6].
  assert (signed s = true -> scanned (gc s) i -> False) as Hsc.
  { intros Hs Hsc. destruct (released s) eqn:Er; [by rewrite (H1 eq_refl) in Hs|]. by rewrite (H2 eq_refl) in Hsc. }
  specialize (H3 i a E). specialize (Hn i a E). specialize (H4 i a E). specialize (H5 i a E). specialize (H6 i a E).
  destruct a as [rn q h c]. unfold agent_step in Es. simpl in *.
  destruct c; try (destruct q; [|done]); try (destruct (signed s) eqn:Esg);
    injection Es as <-; (apply hinv_go; [exact Hi|..]); simpl; intros; try done; try congruence; auto.
  - by rewrite (H5 eq_refl) in H0.
  - by specialize (Hn eq_refl).
  - destruct h; [done|]. by specialize (H3 eq_refl eq_refl).
Qed.

Lemma hinv_gc s s' : hinv s -> gc_step s = Some s' -> hinv s'.
Proof.
  intros [H1 H2 H3 Hn H4 H5 H6] Es. unfold gc_step in Es.
  assert (forall g, s' = set_gc g s -> (released s = false -> g = GIdle) ->
    (forall i a, agents s !! i = Some a -> in_run a = true -> scanned g i -> at_pc a <> WUse) -> hinv s') as Hgo.
  { intros g -> Hg Hsc. split; cbn [released signed gc agents set_gc]; done. }
  assert (gc s <> GIdle -> released s = true) as Hrel by (intros Hne; destruct (released s); [done|by rewrite H2 in Hne]).
  assert (forall n i b, agents s !! n = None -> agents s !! i = Some b -> (i < n)%nat) as Hend.
  { intros n i b Ea Eb. apply lookup_lt_Some in Eb. apply lookup_ge_None in Ea. lia. }
  destruct (gc s) as [|n|n|n| | | |] eqn:Eg; try done.
  - destruct (released s) eqn:Er; [|done]. injection Es as <-. eapply Hgo; [done|done|]. simpl. lia.
  - rewrite Hrel in * by done. destruct (agents s !! n) as [a|] eqn:Ea; injection Es as <-.
    + eapply Hgo; [done|done|]. intros i b Eb Hb Hsc. destruct (in_run a) eqn:Er; [by apply (H6 i b Eb)|]. simpl in Hsc.
      destruct (decide (i = n)) as [->|]; [rewrite Ea in Eb; injection Eb as <-; congruence|apply (H6 i b Eb Hb); simpl; lia].
    + eapply Hgo; [done|done|]. intros i b Eb Hb _. apply (H6 i b Eb Hb), (Hend n i b Ea Eb).
  - rewrite Hrel in * by done. destruct (agents s !! n) as [a|] eqn:Ea; injection Es as <-.
    + eapply Hgo; [done|done|]. destruct (queued a); [done|]. intros i b Eb Hb Hsc. by apply (H6 i b Eb).
    + eapply Hgo; [done|done|]. intros i b Eb Hb _. apply (H6 i b Eb Hb), (Hend n i b Ea Eb).
  - rewrite Hrel in * by done. destruct (agents s !! n) as [a|] eqn:Ea; injection Es as <-.
    + eapply Hgo; [done|done|]. destruct (hp a) eqn:Eh; [done|]. intros i b Eb Hb Hsc. simpl in Hsc.
      destruct (decide (i = n)) as [->|]; [|apply (H6 i b Eb Hb); simpl; lia].
      rewrite Ea in Eb. injection Eb as <-. intros Hu. by rewrite (H4 n a Ea Hu) in Eh.
    + eapply Hgo; [done|done|]. intros i b Eb Hb _. apply (H6 i b Eb Hb), (Hend n i b Ea Eb).
  - rewrite Hrel in * by done. injection Es as <-. eapply Hgo; done.
  - rewrite Hrel in * by done. injection Es as <-. split; cbn [released signed gc agents]; done.
  - rewrite Hrel in * by done. injection Es as <-. eapply Hgo; [done|done|]. intros i a Ea Hb _. by apply (H6 i a Ea).
Qed.

Lemma hinv_leave s i a : hinv s -> agents s !! i = Some a -> hinv (set_agent i (leave_run a) s).
Proof.
  intros Hi E. pose proof Hi as [_ _ H3 Hn H4 H5 _]. apply hinv_go; [done|cbn..]; [by eapply H3|by eapply Hn|by eapply H4|by eapply H5|done].
Qed.

Lemma hinv_reach n s : hreach DeadOwner n s -> hinv s.
Proof.
  intros H. unfold hreach in H. apply rtc_ind_r with (P := hinv) in H; [done|apply hinv_start|].
  intros s1 s2 _ Hst Hi. destruct Hst as [s1 i a s2 E Es|s1 s2 Es|s1 Er|s1 i a E].
  - by eapply hinv_agent.
  - by eapply hinv_gc.
  - destruct Hi as [H1 H2 H3 Hn H4 H5 H6]. split; cbn [released signed gc agents release]; try done.
  - by apply hinv_leave.
Qed.

(** (C25) When the owner died, its request is released with the signature already cleared;
    then, for any number of processes, which may leave [RUN] at any time, and any
    interleaving, no worker of a process that is in [RUN] works on the request once the
    collector has freed it, and none starts to, while the memory is not handed out
    again.  (A worker of a process that left [RUN] may: [stopping_process_races].) *)
Theorem dead_release_safe n s : hreach DeadOwner n s ->
  ~ running_use_after_free s /\ (freed s = true -> forall s', rtc (hstep DeadOwner) s s' -> ~ running_use_after_free s').
Proof.
  assert (forall s, hreach DeadOwner n s -> ~ running_use_after_free s) as H.
  { intros s1 Hr [Hf (a & Hin & Hrun & Hu)]. destruct (hinv_reach n s1 Hr) as [_ _ _ _ _ _ H6].
    apply list_elem_of_lookup in Hin as [i E]. apply (H6 i a E Hrun); [|done]. unfold freed in Hf. by destruct (gc s1). }
  intros Hr. split; [by apply H|]. intros _ s' Hs. apply H. unfold hreach. by etrans.
Qed.
(** The same schedule as [live_release_races], with the dead owner's release. *)
Lemma dead_release_safe_witness :
  let s := HState [Agent true false false WThird] false true GFreed in
  hreach DeadOwner 1 s /\ ~ running_use_after_free s.
Proof.
  intros s. assert (hreach DeadOwner 1 s) as Hr.
  { eapply rtc_l; [eapply (step_agent _ _ 0%nat); reflexivity|].
    eapply rtc_l; [eapply (step_agent _ _ 0%nat); reflexivity|].
    eapply rtc_l; [apply step_release; reflexivity|].
    do 4 (eapply rtc_l; [apply step_gc; reflexivity|]).
    do 2 (eapply rtc_l; [eapply (step_agent _ _ 0%nat); reflexivity|]).
    do 3 (eapply rtc_l; [apply step_gc; reflexivity|]).
    eapply rtc_l; [|apply rtc_refl]. eapply (step_agent _ _ 0%nat); reflexivity. }
  split; [exact Hr|]. exact (proj1 (dead_release_safe 1 s Hr)).
Defined.
