(* ===== verification/Registry.v ===== *)
(** The registry of executors ([libsrpc.c]): which processes are called for each RPC
    function.  Each function has [LIBSRPC_RFMB_SZ] cells of its own and an
    extension block in the pool, replaced by a larger one when it fills up. *)
From S2P Require Import Prelude Machine Errno Request World Shmem Rpc RpcSpec RpcCall.
From S2P Require ListSpin TlsfApi.

Definition LIBSRPC_REGFN_SIGN := 0x1F971A85.
Definition LIBSRPC_RFEB_SZ := 32.
(** The header of [srpc_regfn_ext_block_t], before [proc[]]. *)
Definition sizeof_ext_block := 16.
(** The pointers a block of [size] bytes has room for. *)
Definition cells_of (size : Z) : nat := Z.to_nat ((size - sizeof_ext_block) / 8).

Definition set_num_all (v : Z) (f : rpc_func) : rpc_func := RpcFunc v (ext_ptr f) (main_block f).
Definition set_ext_ptr (v : Z) (f : rpc_func) : rpc_func := RpcFunc (num_all f) v (main_block f).
Definition set_main_block (v : list Z) (f : rpc_func) : rpc_func := RpcFunc (num_all f) (ext_ptr f) v.
Definition set_eb_sign (v : Z) (x : ext_block) : ext_block := ExtBlock v (szfn x) (eb_size x) (eb_proc x).
Definition set_eb_proc (v : list Z) (x : ext_block) : ext_block := ExtBlock (eb_sign x) (szfn x) (eb_size x) v.
Definition upd_func (i : Z) (g : rpc_func -> rpc_func) : WM unit := f ← get_func i; put_func i (g f).

(** The number of executors of function [fidx], changed by [d]. *)
Definition bump (fidx : nat) (d : Z) (w : world) : world :=
  set_funcs (alter (fun f => set_num_all (u32 (num_all f + d)) f) fidx (funcs w)) w.
(** ** Arrays of cells

    The main block and the extension block are searched by the same loops; what the
    loops need of either array: loads and stores at an index, which agree with the
    array [view]ed in the state, and which leave everything but the array alone. *)
Class cell_array := CellArray {
  cload : Z -> WM Z;
  cstore : Z -> Z -> WM unit;
  view : world -> option (list Z);
  cset : list Z -> world -> world;
  cload_run : forall w l i c, view w = Some l -> 0 <= i -> l !! Z.to_nat i = Some c -> cload i w = Ret c w;
  cstore_run : forall w l i v, view w = Some l -> 0 <= i < Z.of_nat (length l) -> cstore i v w = Ret tt (cset (<[Z.to_nat i := v]> l) w);
  view_set : forall w l l', view w = Some l -> view (cset l' w) = Some l';
  cset_set : forall w l l', cset l (cset l' w) = cset l w;
  cset_id : forall w l, view w = Some l -> cset l w = w;
  view_bump : forall w k d, view (bump k d w) = view w;
  cset_bump : forall w k d l, cset l (bump k d w) = bump k d (cset l w);
  cset_num : forall w k l, num_all <$> funcs (cset l w) !! k = num_all <$> funcs w !! k }.

Definition main_store (fidx i v : Z) : WM unit :=
  f ← get_func fidx;
  match main_block f !! Z.to_nat i with
  | Some _ => put_func fidx (set_main_block (<[Z.to_nat i := v]> (main_block f)) f)
  | None => fault
  end.
Definition ext_store (eb i v : Z) : WM unit :=
  x ← get_eb eb;
  match eb_proc x !! Z.to_nat i with
  | Some _ => put_eb eb (set_eb_proc (<[Z.to_nat i := v]> (eb_proc x)) x)
  | None => fault
  end.

Lemma get_func_run i w f : 0 <= i -> funcs w !! Z.to_nat i = Some f -> get_func i w = Ret f w.
Proof. intros Hi E. unfold get_func. rewrite (proj2 (Z.ltb_ge i 0)) by done. by rewrite E. Qed.
Lemma get_eb_run a w x : ebs w !! a = Some x -> get_eb a w = Ret x w.
Proof. intros E. unfold get_eb, deref. by rewrite E. Qed.
Lemma upd_func_run i w f g : 0 <= i -> funcs w !! Z.to_nat i = Some f ->
  upd_func i g w = Ret tt (set_funcs (<[Z.to_nat i := g f]> (funcs w)) w).
Proof. intros Hi E. unfold upd_func. by rewrite (bind_ret _ _ _ _ _ (get_func_run _ _ _ Hi E)). Qed.

Definition main_view (fidx : nat) (w : world) : option (list Z) := main_block <$> funcs w !! fidx.
Definition main_set (fidx : nat) (l : list Z) (w : world) : world :=
  set_funcs (alter (set_main_block l) fidx (funcs w)) w.
Definition ext_view (eb : Z) (w : world) : option (list Z) := eb_proc <$> ebs w !! eb.
Definition ext_set (eb : Z) (l : list Z) (w : world) : world :=
  set_ebs (alter (set_eb_proc l) eb (ebs w)) w.

Lemma alter_insert_list {A} (f : A -> A) (l : list A) i x : l !! i = Some x -> alter f i l = <[i := f x]> l.
Proof.
  intros E. apply list_eq. intros j. destruct (decide (i = j)) as [<-|Hne].
  - rewrite list_lookup_alter_eq, E, list_lookup_insert_eq; [done|by eapply lookup_lt_Some].
  - by rewrite list_lookup_alter_ne, list_lookup_insert_ne.
Qed.
Lemma alter_insert_map {A} (f : A -> A) (m : gmap Z A) i x : m !! i = Some x -> alter f i m = <[i := f x]> m.
Proof.
  intros E. apply map_eq. intros j. destruct (decide (i = j)) as [<-|Hne].
  - by rewrite lookup_alter_eq, E, lookup_insert_eq.
  - by rewrite lookup_alter_ne, lookup_insert_ne.
Qed.

Program Definition main_cells (fidx : nat) : cell_array :=
  CellArray (main_cell (Z.of_nat fidx)) (main_store (Z.of_nat fidx)) (main_view fidx) (main_set fidx) _ _ _ _ _ _ _ _.
Next Obligation.
  intros fidx w l i c E Hi Ec. unfold main_view in E. apply fmap_Some in E as (f & E & ->).
  unfold main_cell. rewrite (bind_ret _ _ _ _ _ (get_func_run (Z.of_nat fidx) w f ltac:(lia) ltac:(by rewrite Nat2Z.id))).
  by rewrite Ec.
Qed.
Next Obligation.
  intros fidx w l i v E Hi. unfold main_view in E. apply fmap_Some in E as (f & E & ->).
  unfold main_store. rewrite (bind_ret _ _ _ _ _ (get_func_run (Z.of_nat fidx) w f ltac:(lia) ltac:(by rewrite Nat2Z.id))).
  destruct (lookup_lt_is_Some_2 (main_block f) (Z.to_nat i)) as [c ->]; [lia|].
  unfold put_func, main_set. rewrite Nat2Z.id. by rewrite (alter_insert_list _ _ _ _ E).
Qed.
Next Obligation.
  intros fidx w l l' E. unfold main_view, main_set in *. apply fmap_Some in E as (f & E & ->).
  cbn [funcs set_funcs]. by rewrite list_lookup_alter_eq, E.
Qed.
Next Obligation.
  intros fidx w l l'. unfold main_set, set_funcs. cbn. f_equal. apply list_eq. intros j.
  destruct (decide (fidx = j)) as [<-|Hne]; [rewrite !list_lookup_alter_eq; by destruct (funcs w !! fidx)|].
  by rewrite !list_lookup_alter_ne.
Qed.
Next Obligation.
  intros fidx w l E. unfold main_view, main_set in *. apply fmap_Some in E as (f & E & ->).
  rewrite (alter_insert_list _ _ _ _ E). destruct f as [n e m]. unfold set_main_block; cbn [num_all ext_ptr main_block] in *.
  rewrite list_insert_id by done. by destruct w.
Qed.
Next Obligation.
  intros fidx w k d. unfold main_view, bump. cbn [funcs set_funcs].
  destruct (decide (k = fidx)) as [->|Hne]; [rewrite list_lookup_alter_eq; by destruct (funcs w !! fidx)|].
  by rewrite list_lookup_alter_ne.
Qed.
Next Obligation.
  intros fidx w k d l. unfold main_set, bump, set_funcs. cbn. f_equal.
  destruct (decide (k = fidx)) as [->|Hne].
  - apply list_eq. intros j. destruct (decide (fidx = j)) as [<-|Hne].
    + rewrite !list_lookup_alter_eq. by destruct (funcs w !! fidx).
    + by rewrite !list_lookup_alter_ne.
  - apply list_eq. intros j. destruct (decide (fidx = j)) as [Ej|Hj], (decide (k = j)) as [Ek|Hk]; subst;
      try done; rewrite ?list_lookup_alter_eq, ?list_lookup_alter_ne by done; rewrite ?list_lookup_alter_eq, ?list_lookup_alter_ne by done; done.
Qed.
Next Obligation.
  intros fidx w k l. unfold main_set. cbn [funcs set_funcs].
  destruct (decide (k = fidx)) as [->|Hne]; [rewrite list_lookup_alter_eq; by destruct (funcs w !! fidx)|].
  by rewrite list_lookup_alter_ne.
Qed.

Program Definition ext_cells (eb : Z) : cell_array :=
  CellArray (ext_cell eb) (ext_store eb) (ext_view eb) (ext_set eb) _ _ _ _ _ _ _ _.
Next Obligation.
  intros eb w l i c E Hi Ec. unfold ext_view in E. apply fmap_Some in E as (f & E & ->).
  unfold ext_cell. rewrite (bind_ret _ _ _ _ _ (get_eb_run eb w f E)). by rewrite Ec.
Qed.
Next Obligation.
  intros eb w l i v E Hi. unfold ext_view in E. apply fmap_Some in E as (f & E & ->).
  unfold ext_store. rewrite (bind_ret _ _ _ _ _ (get_eb_run eb w f E)).
  destruct (lookup_lt_is_Some_2 (eb_proc f) (Z.to_nat i)) as [c ->]; [lia|].
  unfold put_eb, ext_set. by rewrite (alter_insert_map _ _ _ _ E).
Qed.
Next Obligation.
  intros eb w l l' E. unfold ext_view, ext_set in *. apply fmap_Some in E as (f & E & ->).
  cbn [ebs set_ebs]. by rewrite lookup_alter_eq, E.
Qed.
Next Obligation.
  intros eb w l l'. unfold ext_set, set_ebs. cbn. f_equal. apply map_eq. intros j.
  destruct (decide (eb = j)) as [<-|Hne]; [rewrite !lookup_alter_eq; by destruct (ebs w !! eb)|].
  by rewrite !lookup_alter_ne.
Qed.
Next Obligation.
  intros eb w l E. unfold ext_view, ext_set in *. apply fmap_Some in E as (f & E & ->).
  rewrite (alter_insert_map _ _ _ _ E). destruct f as [n e s m]. unfold set_eb_proc; cbn [eb_sign szfn eb_size eb_proc] in *.
  rewrite insert_id by done. by destruct w.
Qed.
Next Obligation. done. Qed.
Next Obligation. done. Qed.
Next Obligation. done. Qed.

(** ** Operations *)

Definition num_all_add (fidx d : Z) : WM unit := upd_func fidx (fun f => set_num_all (u32 (num_all f + d)) f).

(** The insertion loop over [n] cells from [i] on: the first NULL cell is claimed by
    a compare-exchange. *)
Fixpoint insert_cells (A : cell_array) (n : nat) (i fidx p : Z) : WM bool :=
  match n with
  | O => mret false
  | S n =>
      c ← cload i;
      if c =? NULL then
        c ← cload i;
        if c =? NULL then cstore i p ;; num_all_add fidx 1 ;; mret true
        else insert_cells A n (i + 1) fidx p
      else insert_cells A n (i + 1) fidx p
  end.
(** The removal loop: every cell that holds [p] is cleared. *)
Fixpoint remove_cells (A : cell_array) (n : nat) (i fidx p : Z) : WM unit :=
  match n with
  | O => mret tt
  | S n =>
      c ← cload i;
      (if c =? p then cstore i NULL ;; num_all_add fidx (-1) else mret tt) ;;
      remove_cells A n (i + 1) fidx p
  end.

Section registry.
(** The length up to which lists are followed; the words a block just allocated at
    an address happens to hold. *)
Context (fuel : nat) (garbage : Z -> nat -> list Z).

Definition libsrpc_fnreg_num_get (fid : Z) : WM Z :=
  shm ← libsrpc_shmem_get;
  if shm =? NULL then mret (- ESHMNOINIT)
  else if (sRPCFNID_MAX <=? fid) || (fid <=? sRPCFNID_START) then mret (- EINVAL)
  else f ← get_func (sRPC_ID2IDX fid); mret (i32 (num_all f)).

(** The bits of the functions whose local address differs from the remote stub's. *)
Fixpoint bmp_bits (tab : list (Z * Z)) (i : Z) (bmp : list Z) : list Z :=
  match tab with
  | [] => bmp
  | (l, r) :: tab =>
      bmp_bits tab (i + 1)
        (if negb (l =? r) then alter (fun x => Z.lor x (u64 (Z.shiftl 1 (i mod 64)))) (Z.to_nat (i / 64)) bmp else bmp)
  end.
Definition libsrpc_bmp_func_set (srpc_fn : list (Z * Z)) (bmp : list Z) : list Z := bmp_bits srpc_fn 0 bmp.

(** A larger extension block: the bytes of the old one are copied, the cells beyond
    them keep what the memory held. *)
Definition libsrpc_regfn_ext_block (fidx : Z) : WM Z :=
  f ← get_func fidx;
  let old_eb := ext_ptr f in
  '(n, sz, old) ←
    (if old_eb =? NULL then mret (LIBSRPC_RFEB_SZ, sizeof_ext_block + LIBSRPC_RFEB_SZ * 8, [])
     else
       x ← get_eb old_eb;
       let n := u32 (LIBSRPC_RFEB_SZ + szfn x) in
       let sz := u64 (eb_size x + n * 8) in
       mret (n, sz, take (cells_of (if sz <? eb_size x then sz else eb_size x)) (eb_proc x)));
  eb ← libsrpc_shmem_malloc_type sz SHMDT_REGFN;
  if eb =? NULL then mret (- ENOMEM)
  else
    put_eb eb (ExtBlock LIBSRPC_REGFN_SIGN n sz (old ++ drop (length old) (garbage eb (cells_of sz)))) ;;
    f ← get_func fidx;
    if negb (ext_ptr f =? old_eb) then libsrpc_shmem_free eb ;; mret (- ENOMEM)
    else
      upd_func fidx (set_ext_ptr eb) ;;
      (if old_eb =? NULL then mret tt
       else
         x ← get_eb old_eb;
         put_eb old_eb (set_eb_sign 0 x) ;;
         libsrpc_shmem_free_dc old_eb ;;
         libsrpc_shm_gc_wakeup ;;
         mret tt) ;;
      mret 0.

(** The attempts on the extension block; [rc] is the result so far. *)
Fixpoint insert_ext (tries : nat) (p fidx rc : Z) : WM Z :=
  match tries with
  | O => mret rc
  | S tries =>
      f ← get_func fidx;
      let eb := ext_ptr f in
      full ← (if eb =? NULL then mret true else x ← get_eb eb; mret (szfn x <=? num_all f));
      '(rc, eb) ←
        (if full : bool then
           rc ← libsrpc_regfn_ext_block fidx;
           if rc <? 0 then mret (rc, NULL)
           else f ← get_func fidx; mret (rc, ext_ptr f)
         else mret (rc, eb));
      if eb =? NULL then insert_ext tries p fidx rc
      else
        x ← get_eb eb;
        ok ← insert_cells (ext_cells eb) (Z.to_nat (szfn x)) 0 fidx p;
        if (ok : bool) then mret 0 else insert_ext tries p fidx (- ENOMEM)
  end.

Definition libsrpc_regfn_insert (p fidx : Z) : WM Z :=
  ok ← insert_cells (main_cells (Z.to_nat fidx)) (Z.to_nat LIBSRPC_RFMB_SZ) 0 fidx p;
  if (ok : bool) then mret 0 else insert_ext 10 p fidx (- ENOMEM).

(** The functions of the bit map, from index [i]; the result is the last one's. *)
Fixpoint reg_from (n : nat) (i p : Z) (bmp : list Z) (rc : Z) : WM Z :=
  match n with
  | O => mret rc
  | S n =>
      word ← (match bmp !! Z.to_nat (i / 64) with Some x => mret x | None => fault end);
      rc ← (if negb (Z.land word (u64 (Z.shiftl 1 (i mod 64))) =? 0) then libsrpc_regfn_insert p i else mret rc);
      reg_from n (i + 1) p bmp rc
  end.
Definition libsrpc_reg_func_form_bmp (p : Z) (bmp : list Z) : WM Z :=
  shm ← libsrpc_shmem_get;
  if shm =? NULL then mret (- ESHMNOINIT)
  else reg_from (Z.to_nat sRPC_FNNUM) 0 p bmp 0.

Definition libsrpc_regfn_remove (p fidx eb : Z) : WM Z :=
  remove_cells (main_cells (Z.to_nat fidx)) (Z.to_nat LIBSRPC_RFMB_SZ) 0 fidx p ;;
  if eb =? NULL then mret 0
  else
    x ← get_eb eb;
    remove_cells (ext_cells eb) (Z.to_nat (szfn x)) 0 fidx p ;;
    mret 0.

Fixpoint unreg_from (n : nat) (i p rc : Z) : WM Z :=
  match n with
  | O => mret rc
  | S n =>
      f ← get_func i;
      rc ← libsrpc_regfn_remove p i (ext_ptr f);
      unreg_from n (i + 1) p rc
  end.
Definition libsrpc_unreg_func_proc (p : Z) : WM Z :=
  shm ← libsrpc_shmem_get;
  if shm =? NULL then mret (- ESHMNOINIT)
  else unreg_from (Z.to_nat sRPC_FNNUM) 0 p 0.

(** Is an extension block under a caller's hazard pointer? *)
Definition libsrpc_shmem_is_locked_regfn_proc (p eb : Z) : WM Z :=
  if (p =? NULL) || (eb =? NULL) then mret 0
  else
    r ← list_foreach_until fuel (req_head_of p) (fun a =>
          r ← get_req a;
          if libsrpc_req_is_corrupted (Some r) None then mret None
          else mret (if hp_regfn r =? eb then Some 1 else None));
    mret (default 0 r).
Definition libsrpc_shmem_is_busy_regfn (eb : Z) : WM Z :=
  shm ← libsrpc_shmem_get;
  if (eb =? NULL) || (shm =? NULL) then mret 0
  else
    r ← list_foreach_until fuel (proc_head_of shm) (fun p =>
          x ← get_proc p;
          if negb (libsrpc_proc_is_valid x) then mret None
          else l ← libsrpc_shmem_is_locked_regfn_proc p eb; mret (if l =? 1 then Some 1 else None));
    mret (default 0 r).
End registry.
