(* ===== verification/RegistrySpec.v ===== *)
(** The registry of executors: the cells of a function and the number of executors
    kept beside them stay in agreement; what registration, unregistration and the
    growth of the extension block do to the executors of every function. *)
From S2P Require Import Prelude Machine Errno Request World Shmem Rpc RpcSpec RpcCall Registry.
From S2P Require ListSpin TlsfApi TlsfTypes TlsfSpec.

(** ** The executors of a function *)

(** The cells of the extension block the code looks at. *)
Definition usable (w : world) (f : rpc_func) : list Z :=
  if ext_ptr f =? NULL then []
  else match ebs w !! ext_ptr f with Some x => take (Z.to_nat (szfn x)) (eb_proc x) | None => [] end.
Definition cells (w : world) (k : nat) : list Z :=
  match funcs w !! k with Some f => main_block f ++ usable w f | None => [] end.
Definition registered (w : world) (k : nat) : list Z := filter (fun c => c <> NULL) (cells w k).

(** The shape of the registry: full-size main blocks, extension blocks that hold the
    cells they announce, no block shared by two functions. *)
Definition ext_ok (w : world) (a : Z) : Prop := a = NULL \/ exists x, ebs w !! a = Some x /\
  0 <= szfn x < 2 ^ 31 /\ sizeof_ext_block + 8 * szfn x <= eb_size x < 2 ^ 63 /\
  length (eb_proc x) = cells_of (eb_size x).
Record shape (w : world) : Prop := Shape {
  sh_funcs : length (funcs w) = Z.to_nat sRPC_FNNUM;
  sh_main : forall k f, funcs w !! k = Some f -> length (main_block f) = Z.to_nat LIBSRPC_RFMB_SZ;
  sh_ext : forall k f, funcs w !! k = Some f -> ext_ok w (ext_ptr f);
  sh_apart : forall j k f g, funcs w !! j = Some f -> funcs w !! k = Some g -> ext_ptr f = ext_ptr g ->
    j = k \/ ext_ptr f = NULL }.
Definition numf (w : world) (k : nat) : option Z := num_all <$> funcs w !! k.
(** The invariant: moreover [num_all] counts the executors. *)
Definition registry_ok (w : world) : Prop :=
  shape w /\ forall k n, numf w k = Some n -> n = Z.of_nat (length (registered w k)).

(** Same world, the registry apart. *)
Definition same_rest (w w' : world) : Prop :=
  lists w' = lists w /\ reqs w' = reqs w /\ procs w' = procs w /\ req_send_rr w' = req_send_rr w /\
  pool w' = pool w /\ gc_sem w' = gc_sem w /\ loc w' = loc w.
Lemma same_rest_refl w : same_rest w w.
Proof. done. Qed.
Lemma same_rest_trans w1 w2 w3 : same_rest w1 w2 -> same_rest w2 w3 -> same_rest w1 w3.
Proof. intros (?&?&?&?&?&?&?) (?&?&?&?&?&?&?). repeat split; congruence. Qed.

(** ** Lists of cells *)

Lemma filter_insert_nz (l : list Z) j p : l !! j = Some NULL -> p <> NULL ->
  filter (fun c => c <> NULL) (<[j := p]> l) ≡ₚ p :: filter (fun c => c <> NULL) l.
Proof.
  intros E Hp. pose proof (take_drop_middle l j NULL E) as Hl. rewrite <- Hl at 2.
  rewrite insert_take_drop by (by eapply lookup_lt_Some).
  rewrite !filter_app, !filter_cons. rewrite decide_True, (decide_False (P := NULL <> NULL)) by lia.
  by rewrite Permutation_middle.
Qed.
Definition clear (p c : Z) : Z := if c =? p then NULL else c.
Lemma filter_clear p (l : list Z) :
  filter (fun c => c <> NULL) (clear p <$> l) = filter (fun c => c <> p) (filter (fun c => c <> NULL) l).
Proof.
  induction l as [|c l IH]; [done|]. cbn [fmap list_fmap]. rewrite !filter_cons. 
  rewrite IH. destruct (Z.eqb_spec c p) as [->|Hne].
  - assert (clear p p = NULL) as -> by (unfold clear; by rewrite Z.eqb_refl). rewrite (decide_False (P := NULL <> NULL)) by lia. destruct (decide (p <> NULL)); [|done].
    by rewrite filter_cons, decide_False by lia.
  - assert (clear p c = c) as -> by (unfold clear; by rewrite (proj2 (Z.eqb_neq c p))).
    destruct (decide (c <> NULL)); [|done]. by rewrite filter_cons, decide_True.
Qed.
Lemma filter_split_length p (l : list Z) : p <> NULL ->
  length (filter (fun c => c <> NULL) l) =
  (length (filter (fun c => c = p) l) + length (filter (fun c => c <> p) (filter (fun c => c <> NULL) l)))%nat.
Proof.
  intros Hp. induction l as [|c l IH]; [done|]. rewrite !filter_cons.
  destruct (decide (c <> NULL)) as [Hc|Hc].
  - rewrite filter_cons. destruct (decide (c = p)), (decide (c <> p)); try done; simpl; lia.
  - rewrite (decide_False (P := c = p)) by lia. done.
Qed.

(** ** The loops *)

Section loops.
Context (A : cell_array).

Lemma insert_cells_run n : forall i w l fidx p,
  view w = Some l -> (i + n <= length l)%nat ->
  (Forall (fun c => c <> NULL) (take n (drop i l)) /\ insert_cells A n (Z.of_nat i) fidx p w = Ret false w) \/
  (exists j, (i <= j < i + n)%nat /\ l !! j = Some NULL /\ Forall (fun c => c <> NULL) (take (j - i) (drop i l)) /\
    insert_cells A n (Z.of_nat i) fidx p w = (num_all_add fidx 1 ;; mret true) (cset (<[j := p]> l) w)).
Proof.
  induction n as [|n IH]; intros i w l fidx p Hv Hl; [by left|].
  destruct (lookup_lt_is_Some_2 l i) as [c Ec]; [lia|].
  assert (cload (Z.of_nat i) w = Ret c w) as Eld by (eapply cload_run; [done|lia|by rewrite Nat2Z.id]).
  cbn [insert_cells]. rewrite (bind_ret _ _ _ _ _ Eld).
  rewrite (drop_S l c i) by done. cbn [take].
  destruct (Z.eqb_spec c NULL) as [->|Hc].
  - right. exists i. split; [lia|]. split; [done|]. split; [by rewrite Nat.sub_diag|].
    rewrite (bind_ret _ _ _ _ _ Eld). cbn [Z.eqb].
    by rewrite (bind_ret _ _ _ _ _ (cstore_run w l (Z.of_nat i) p Hv ltac:(lia))), Nat2Z.id.
  - replace (Z.of_nat i + 1) with (Z.of_nat (S i)) by lia.
    destruct (IH (S i) w l fidx p Hv ltac:(lia)) as [[HF E]|(j & Hj & Ej & HF & E)]; rewrite E.
    + left. split; [by constructor|done].
    + right. exists j. split; [lia|]. split; [done|]. split; [|done].
      replace (j - i)%nat with (S (j - S i)) by lia. cbn [take]. by constructor.
Qed.

(** The cells from [i] on, [n] of them, cleared of [p]. *)
Fixpoint clear_range (n i : nat) (p : Z) (l : list Z) : list Z :=
  match n with
  | O => l
  | S n => clear_range n (S i) p (match l !! i with Some c => if c =? p then <[i := NULL]> l else l | None => l end)
  end.
Definition occurrences (p : Z) (l : list Z) : Z := Z.of_nat (length (filter (fun c => c = p) l)).

Lemma bump_0 w k n : numf w k = Some n -> 0 <= n < 2 ^ 32 -> bump k 0 w = w.
Proof.
  unfold numf, bump. intros E Hn. apply fmap_Some in E as (f & E & ->).
  rewrite (alter_insert_list _ _ _ _ E). unfold set_num_all, u32. rewrite Z.add_0_r, Z.mod_small by done.
  destruct f; cbn in *. rewrite list_insert_id by done. by destruct w.
Qed.
Lemma bump_bump w k a b : bump k a (bump k b w) = bump k (a + b) w.
Proof.
  unfold bump, set_funcs. cbn. f_equal. apply list_eq. intros j. destruct (decide (k = j)) as [<-|Hne].
  - rewrite !list_lookup_alter_eq. destruct (funcs w !! k) as [f|]; [|done]. cbn. unfold set_num_all; cbn. f_equal.
    f_equal. unfold u32. rewrite Zplus_mod_idemp_l. f_equal. lia.
  - by rewrite !list_lookup_alter_ne.
Qed.
Lemma numf_bump w k d j : numf (bump k d w) j = if decide (k = j) then (fun n => u32 (n + d)) <$> numf w j else numf w j.
Proof.
  unfold numf, bump. cbn [funcs set_funcs]. destruct (decide (k = j)) as [<-|Hne].
  - rewrite list_lookup_alter_eq. by destruct (funcs w !! k).
  - by rewrite list_lookup_alter_ne.
Qed.
Lemma num_all_add_run w k d n : numf w k = Some n -> num_all_add (Z.of_nat k) d w = Ret tt (bump k d w).
Proof.
  unfold numf, num_all_add, bump. intros E. apply fmap_Some in E as (f & E & ->).
  rewrite (upd_func_run _ w f) by (try lia; by rewrite Nat2Z.id). rewrite Nat2Z.id.
  by rewrite (alter_insert_list _ _ _ _ E).
Qed.

Lemma remove_cells_run n : forall i w l k p m,
  view w = Some l -> (i + n <= length l)%nat -> numf w k = Some m -> 0 <= m < 2 ^ 32 ->
  remove_cells A n (Z.of_nat i) (Z.of_nat k) p w =
    Ret tt (bump k (- occurrences p (take n (drop i l))) (cset (clear_range n i p l) w)).
Proof.
  induction n as [|n IH]; intros i w l k p m Hv Hl Hm Hr; cbn [remove_cells clear_range].
  { cbn [take]. rewrite cset_id by done. change (- occurrences p []) with 0. by erewrite bump_0. }
  destruct (lookup_lt_is_Some_2 l i) as [c Ec]; [lia|].
  rewrite (bind_ret _ _ _ _ _ (cload_run w l (Z.of_nat i) c Hv ltac:(lia) ltac:(by rewrite Nat2Z.id))).
  rewrite Ec, (drop_S l c i) by done. cbn [take]. unfold occurrences. rewrite filter_cons.
  replace (Z.of_nat i + 1) with (Z.of_nat (S i)) by lia.
  destruct (Z.eqb_spec c p) as [->|Hc].
  - rewrite decide_True by done. cbn [length].
    rewrite (bind_bind_ret _ _ _ _ _ _ (cstore_run w l (Z.of_nat i) NULL Hv ltac:(lia))), Nat2Z.id.
    set (w1 := cset (<[i := NULL]> l) w).
    assert (numf w1 k = Some m) as Hm1 by (unfold numf, w1; by rewrite cset_num).
    rewrite (bind_ret _ _ _ _ _ (num_all_add_run w1 k (-1) m Hm1)).
    rewrite (IH (S i) (bump k (-1) w1) (<[i := NULL]> l) k p (u32 (m - 1))).
    + rewrite cset_bump, bump_bump. unfold w1. rewrite cset_set, drop_insert_lt by lia.
      do 2 f_equal. unfold occurrences. lia.
    + rewrite view_bump. unfold w1. by eapply view_set.
    + rewrite length_insert. lia.
    + rewrite numf_bump, decide_True by done. by rewrite Hm1.
    + apply Z.mod_pos_bound. lia.
  - rewrite decide_False by done. rewrite bind_mret. by rewrite (IH (S i) w l k p m) by (try done; lia).
Qed.

Lemma length_clear_range n : forall i p l, length (clear_range n i p l) = length l.
Proof.
  induction n as [|n IH]; intros i p l; [done|]. cbn [clear_range]. rewrite IH.
  destruct (l !! i); [|done]. case_bool; by rewrite ?length_insert.
Qed.
Lemma lookup_clear_range n : forall i p l j,
  clear_range n i p l !! j = if decide (i <= j < i + n)%nat then clear p <$> l !! j else l !! j.
Proof.
  induction n as [|n IH]; intros i p l j; cbn [clear_range].
  { by rewrite decide_False by lia. }
  rewrite IH. destruct (l !! i) as [c|] eqn:Ec.
  - assert ((if c =? p then <[i := NULL]> l else l) !! j = if decide (j = i) then Some (clear p c) else l !! j) as ->.
    { unfold clear. destruct (Z.eqb_spec c p), (decide (j = i)) as [->|Hj]; try done.
      - apply list_lookup_insert_eq. by eapply lookup_lt_Some.
      - by rewrite list_lookup_insert_ne. }
    destruct (decide (j = i)) as [->|Hj].
    + rewrite decide_False, decide_True by lia. by rewrite Ec.
    + destruct (decide (S i <= j < S i + n)%nat); [rewrite decide_True by lia|rewrite decide_False by lia]; done.
  - destruct (decide (S i <= j < S i + n)%nat); [rewrite decide_True by lia; done|].
    destruct (decide (i <= j < i + S n)%nat); [|done]. assert (j = i) as -> by lia. by rewrite Ec.
Qed.
Lemma clear_range_0 n p l : clear_range n 0 p l = (clear p <$> take n l) ++ drop n l.
Proof.
  apply list_eq. intros j. rewrite lookup_clear_range. destruct (decide (0 <= j < 0 + n)%nat) as [H|H].
  - destruct (decide (j < length l)%nat).
    + rewrite lookup_app_l by (rewrite length_fmap, length_take; lia).
      by rewrite list_lookup_fmap, lookup_take_lt by lia.
    + rewrite !lookup_ge_None_2; [done|rewrite length_app, length_fmap, length_take, length_drop; lia|lia].
  - destruct (decide (j < length l)%nat).
    + rewrite lookup_app_r by (rewrite length_fmap, length_take; lia).
      rewrite length_fmap, length_take, lookup_drop. f_equal. lia.
    + rewrite !lookup_ge_None_2; [done|rewrite length_app, length_fmap, length_take, length_drop; lia|lia].
Qed.
End loops.

(** ** Effects on the executors *)

Lemma funcs_bump w k d j : funcs (bump k d w) !! j =
  if decide (k = j) then (fun f => set_num_all (u32 (num_all f + d)) f) <$> funcs w !! j else funcs w !! j.
Proof.
  unfold bump. cbn [funcs set_funcs]. destruct (decide (k = j)) as [<-|Hne].
  - by rewrite list_lookup_alter_eq.
  - by rewrite list_lookup_alter_ne.
Qed.
Lemma cells_bump w k d j : cells (bump k d w) j = cells w j.
Proof. unfold cells. rewrite funcs_bump. destruct (decide (k = j)); [|done]. by destruct (funcs w !! j). Qed.
Lemma shape_bump w k d : shape w -> shape (bump k d w).
Proof.
  intros [H1 H2 H3 H4].
  assert (forall j f, funcs (bump k d w) !! j = Some f -> exists g, funcs w !! j = Some g /\
    main_block f = main_block g /\ ext_ptr f = ext_ptr g) as H.
  { intros j f. rewrite funcs_bump. destruct (decide (k = j)); [|eauto].
    intros E. apply fmap_Some in E as (g & E & ->). eauto. }
  split.
  - unfold bump. cbn [funcs set_funcs]. by rewrite length_alter.
  - intros j f (g & E & -> & _)%H. eauto.
  - intros j f (g & E & _ & ->)%H. by apply (H3 j).
  - intros i j f g (f' & E1 & _ & ->)%H (g' & E2 & _ & ->)%H. eauto.
Qed.

Lemma main_view_funcs w k l j f : funcs (main_set k l w) !! j = Some f ->
  exists g, funcs w !! j = Some g /\ ext_ptr f = ext_ptr g /\ (j = k -> main_block f = l) /\ (j <> k -> f = g).
Proof.
  unfold main_set. cbn [funcs set_funcs]. destruct (decide (k = j)) as [<-|Hne].
  - rewrite list_lookup_alter_eq. intros E. apply fmap_Some in E as (g & E & ->). by exists g.
  - rewrite list_lookup_alter_ne by done. intros E. exists f. by repeat split.
Qed.
Lemma cells_main w k l f j : funcs w !! k = Some f ->
  cells (main_set k l w) j = if decide (j = k) then l ++ usable w f else cells w j.
Proof.
  intros E. unfold cells, main_set. cbn [funcs set_funcs]. destruct (decide (j = k)) as [->|Hne].
  - by rewrite list_lookup_alter_eq, E.
  - by rewrite list_lookup_alter_ne.
Qed.
Lemma shape_main w k l : shape w -> length l = Z.to_nat LIBSRPC_RFMB_SZ -> shape (main_set k l w).
Proof.
  intros [H1 H2 H3 H4] Hl. split.
  - unfold main_set. cbn [funcs set_funcs]. by rewrite length_alter.
  - intros j f (g & E & _ & Hm & Hg)%main_view_funcs. destruct (decide (j = k)); [by rewrite Hm|].
    rewrite Hg by done. eauto.
  - intros j f (g & E & -> & _)%main_view_funcs. by apply (H3 j).
  - intros i j f g (f' & E1 & -> & _)%main_view_funcs (g' & E2 & -> & _)%main_view_funcs. eauto.
Qed.

Lemma cells_ext w k f x l j : shape w -> funcs w !! k = Some f -> ext_ptr f <> NULL -> ebs w !! ext_ptr f = Some x ->
  cells (ext_set (ext_ptr f) l w) j =
    if decide (j = k) then main_block f ++ take (Z.to_nat (szfn x)) l else cells w j.
Proof.
  intros Hs E Hf Ex. unfold cells, ext_set. cbn [funcs set_ebs]. destruct (decide (j = k)) as [->|Hne].
  - rewrite E. f_equal. unfold usable. rewrite (proj2 (Z.eqb_neq _ _) Hf). cbn [ebs set_ebs].
    by rewrite lookup_alter_eq, Ex.
  - destruct (funcs w !! j) as [g|] eqn:Eg; [|done]. f_equal. unfold usable. cbn [ebs set_ebs].
    destruct (Z.eqb_spec (ext_ptr g) NULL); [done|].
    rewrite lookup_alter_ne; [done|]. intros Heq. by destruct (sh_apart w Hs k j f g E Eg Heq).
Qed.
Lemma shape_ext w a x l : shape w -> ebs w !! a = Some x -> length l = length (eb_proc x) -> shape (ext_set a l w).
Proof.
  intros [H1 H2 H3 H4] E Hl. split; [done|done| |done].
  intros j f Ef. destruct (H3 j f Ef) as [?|(y & Ey & Hy)]; [by left|right].
  unfold ext_set. cbn [ebs set_ebs]. destruct (decide (a = ext_ptr f)) as [Ea|Hne].
  - subst a. rewrite lookup_alter_eq, Ey. assert (x = y) as <- by congruence. eexists. split; [done|].
    cbn [szfn eb_size eb_proc set_eb_proc]. by rewrite Hl.
  - rewrite lookup_alter_ne by done. by exists y.
Qed.

(** Adding to and removing from the counted cells. *)
Lemma counts_after w k d w' : registry_ok w -> shape w' ->
  (forall j, numf w' j = numf w j) ->
  (forall j, j <> k -> registered w' j = registered w j) ->
  0 <= Z.of_nat (length (registered w k)) + d < 2 ^ 32 ->
  Z.of_nat (length (registered w' k)) = Z.of_nat (length (registered w k)) + d ->
  registry_ok (bump k d w').
Proof.
  intros [_ Hc] Hs Hn Ho Hd El. split; [by apply shape_bump|]. intros j n. rewrite numf_bump, Hn.
  unfold registered. rewrite cells_bump. fold (registered w' j).
  destruct (decide (k = j)) as [<-|Hne].
  - intros E. apply fmap_Some in E as (m & E & ->). rewrite (Hc _ _ E), El. unfold u32. by rewrite Z.mod_small.
  - intros E. rewrite (Hc _ _ E), Ho by done. done.
Qed.

(** An upper bound on the executors of one function. *)
Lemma registered_bound w k f : shape w -> funcs w !! k = Some f ->
  Z.of_nat (length (registered w k)) <= LIBSRPC_RFMB_SZ + 2 ^ 31.
Proof.
  intros Hs E. unfold registered, cells. rewrite E, filter_app, length_app.
  pose proof (length_filter (fun c => c <> NULL) (main_block f)) as H1.
  pose proof (length_filter (fun c => c <> NULL) (usable w f)) as H2.
  pose proof (sh_main w Hs k f E) as Hm.
  assert (Z.of_nat (length (usable w f)) <= 2 ^ 31).
  { unfold usable. case_bool; [simpl; lia|]. destruct (sh_ext w Hs k f E) as [?|(x & -> & Hx & _)]; [done|].
    rewrite length_take. lia. }
  unfold LIBSRPC_RFMB_SZ in *. lia.
Qed.

Lemma same_rest_bump w k d : same_rest w (bump k d w).
Proof. done. Qed.
Lemma same_rest_main w k l : same_rest w (main_set k l w).
Proof. done. Qed.
Lemma same_rest_ext w a l : same_rest w (ext_set a l w).
Proof. done. Qed.

(** Some cell of the function is free, or its extension block is not counted full. *)
Definition room (w : world) (k : nat) : Prop := exists f, funcs w !! k = Some f /\
  (NULL ∈ main_block f \/
   ext_ptr f <> NULL /\ forall x, ebs w !! ext_ptr f = Some x -> num_all f < szfn x).

(** The first free cell of [k] is now [p]; nothing else changed but the count. *)
Definition inserted (w w' : world) (k : nat) (p : Z) : Prop :=
  (exists j, cells w k !! j = Some NULL /\ Forall (fun c => c <> NULL) (take j (cells w k)) /\
     cells w' k = <[j := p]> (cells w k)) /\
  (forall j, j <> k -> cells w' j = cells w j) /\ same_rest w w' /\
  ext_ptr <$> funcs w' !! k = ext_ptr <$> funcs w !! k /\
  (forall j, j <> k -> funcs w' !! j = funcs w !! j) /\ (forall a, szfn <$> ebs w' !! a = szfn <$> ebs w !! a).

Lemma inserted_ok w w' k p f : registry_ok w -> shape w' -> p <> NULL -> funcs w !! k = Some f ->
  (forall j, numf w' j = numf w j) -> inserted w w' k p -> registry_ok (bump k 1 w') /\ inserted w (bump k 1 w') k p.
Proof.
  intros Hok Hs Hp Ef Hn ((j & Ej & HF & Ec) & Ho & Hr & He & Hf & Hz). split.
  - assert (length (registered w' k) = S (length (registered w k))) as El.
    { unfold registered. by rewrite Ec, (filter_insert_nz _ _ _ Ej Hp). }
    pose proof (registered_bound w k f (proj1 Hok) Ef) as Hb. unfold LIBSRPC_RFMB_SZ in Hb.
    eapply (counts_after w k 1); try done.
    + intros i Hi. unfold registered. by rewrite Ho.
    + lia.
    + lia.
  - split; [exists j; by rewrite cells_bump|]. split; [intros i Hi; rewrite cells_bump; by apply Ho|].
    split; [done|]. split; [|split; [|done]].
    + rewrite funcs_bump, decide_True by done. rewrite <- He. by destruct (funcs w' !! k).
    + intros i Hi. rewrite funcs_bump, decide_False by done. by apply Hf.
Qed.

Lemma Forall_not_in (l : list Z) : Forall (fun c => c <> NULL) l -> NULL ∉ l.
Proof. intros H Hin. rewrite Forall_forall in H. by apply (H NULL). Qed.

(** A function whose main block is full and whose extension block is not counted
    full has a free cell there. *)
Lemma ext_has_room w k f x : registry_ok w -> funcs w !! k = Some f -> ext_ptr f <> NULL ->
  ebs w !! ext_ptr f = Some x -> num_all f < szfn x -> ~ Forall (fun c => c <> NULL) (take (Z.to_nat (szfn x)) (eb_proc x)).
Proof.
  intros [Hs Hc] Ef Hne Ex Hn HF.
  assert (num_all f = Z.of_nat (length (registered w k))) as E by (apply Hc; unfold numf; by rewrite Ef).
  destruct (sh_ext w Hs k f Ef) as [?|(y & Ey & Hy & Hsz & Hl)]; [done|]. assert (x = y) as <- by congruence.
  assert (Z.to_nat (szfn x) <= length (registered w k))%nat; [|lia].
  unfold registered, cells, usable. rewrite Ef, (proj2 (Z.eqb_neq _ _) Hne), Ex, filter_app, length_app.
  assert (forall l : list Z, Forall (fun c => c <> NULL) l -> filter (fun c => c <> NULL) l = l) as Hid.
  { clear. induction l as [|c l IH]; [done|]. intros [Hc Hf]%Forall_cons. rewrite filter_cons, decide_True by done. by rewrite IH. }
  rewrite (Hid _ HF), length_take, Hl. unfold cells_of, sizeof_ext_block in *.
  pose proof (Z.div_le_mono (8 * szfn x) (eb_size x - 16) 8 ltac:(lia) ltac:(lia)) as Hd.
  rewrite Z.mul_comm, Z.div_mul in Hd by lia. lia.
Qed.

Lemma regfn_insert_run g w k p : registry_ok w -> p <> NULL -> room w k ->
  exists w', libsrpc_regfn_insert g p (Z.of_nat k) w = Ret 0 w' /\ registry_ok w' /\ inserted w w' k p.
Proof.
  intros Hok Hp (f & Ef & Hroom). pose proof Hok as [Hs Hc].
  assert (forall A cells, num_all_add (Z.of_nat k) 1 (@cset A cells w) = Ret tt (bump k 1 (cset cells w))) as Hadd.
  { intros A l. apply (num_all_add_run _ k 1 (num_all f)). unfold numf. by rewrite cset_num, Ef. }
  assert (forall A cells j, numf (@cset A cells w) j = numf w j) as Hnum by (intros; unfold numf; apply cset_num).
  pose proof (sh_main w Hs k f Ef) as Hlm.
  unfold libsrpc_regfn_insert. rewrite Nat2Z.id.
  assert (@view (main_cells k) w = Some (main_block f)) as Hv by (cbn; unfold main_view; by rewrite Ef).
  destruct (insert_cells_run (main_cells k) (Z.to_nat LIBSRPC_RFMB_SZ) 0 w _ (Z.of_nat k) p Hv ltac:(lia))
    as [[HF E]|(j & Hj & Ej & HF & E)]; change (Z.of_nat 0) with 0 in E; rewrite drop_0 in HF.
  - rewrite (bind_ret _ _ _ _ _ E). rewrite take_ge in HF by lia.
    destruct Hroom as [Hin|[Hne Hn]]; [by apply Forall_not_in in HF|].
    destruct (sh_ext w Hs k f Ef) as [?|(x & Ex & Hx & Hsz & Hl)]; [done|].
    specialize (Hn x Ex). cbn [insert_ext].
    rewrite (bind_ret _ _ _ _ _ (get_func_run (Z.of_nat k) w f ltac:(lia) ltac:(by rewrite Nat2Z.id))).
    rewrite (proj2 (Z.eqb_neq _ _) Hne). rewrite (bind_bind_ret _ _ _ _ _ _ (get_eb_run _ _ _ Ex)), bind_mret.
    rewrite (proj2 (Z.leb_gt _ _)) by done. rewrite bind_mret, (proj2 (Z.eqb_neq _ _) Hne).
    rewrite (bind_ret _ _ _ _ _ (get_eb_run _ _ _ Ex)).
    assert (Z.to_nat (szfn x) <= length (eb_proc x))%nat as Hle.
    { rewrite Hl. unfold cells_of, sizeof_ext_block in *.
      pose proof (Z.div_le_mono (8 * szfn x) (eb_size x - 16) 8 ltac:(lia) ltac:(lia)) as Hd.
      rewrite Z.mul_comm, Z.div_mul in Hd by lia. lia. }
    assert (@view (ext_cells (ext_ptr f)) w = Some (eb_proc x)) as Hv2 by (cbn; unfold ext_view; by rewrite Ex).
    destruct (insert_cells_run (ext_cells (ext_ptr f)) (Z.to_nat (szfn x)) 0 w _ (Z.of_nat k) p Hv2 ltac:(lia))
      as [[HF2 _]|(j & Hj & Ej & HF2 & E2)].
    { rewrite drop_0 in HF2. by destruct (ext_has_room w k f x Hok Ef Hne Ex Hn). }
    change (Z.of_nat 0) with 0 in E2. rewrite Nat.sub_0_r, drop_0 in HF2.
    eexists. split; [unfold mbind at 1, M_bind; rewrite E2; by rewrite (bind_ret _ _ _ _ _ (Hadd (ext_cells (ext_ptr f)) _))|].
    eapply inserted_ok; try done.
    + eapply shape_ext; [done|exact Ex|]. by rewrite length_insert.
    + assert (cells w k = main_block f ++ take (Z.to_nat (szfn x)) (eb_proc x)) as Ecell.
      { unfold cells, usable. by rewrite Ef, (proj2 (Z.eqb_neq _ _) Hne), Ex. }
      split; [|split; [|split; [apply same_rest_ext|split; [done|split; [done|]]]]].
      * exists (length (main_block f) + j)%nat. rewrite Ecell. split_and!.
        -- rewrite lookup_app_r, Nat.add_comm, Nat.add_sub, lookup_take_lt by lia. done.
        -- rewrite take_app_ge, Nat.add_comm, Nat.add_sub by lia. apply Forall_app. split; [done|].
           rewrite take_take. by rewrite Nat.min_l by lia.
        -- cbn [cset ext_cells]. rewrite (cells_ext w k f x _ k) by done. rewrite decide_True by done.
           rewrite insert_app_r, take_insert_lt by lia. done.
      * intros i Hi. cbn [cset ext_cells]. rewrite (cells_ext w k f x _ i) by done. by rewrite decide_False.
      * intros a. cbn [cset ext_cells]. unfold ext_set. cbn [ebs set_ebs]. destruct (decide (ext_ptr f = a)) as [<-|Hna].
        -- rewrite lookup_alter_eq. by destruct (ebs w !! ext_ptr f).
        -- by rewrite lookup_alter_ne.
  - eexists. split; [unfold mbind at 1, M_bind; rewrite E; by rewrite (bind_ret _ _ _ _ _ (Hadd (main_cells k) _))|].
    rewrite Nat.sub_0_r in HF.
    eapply inserted_ok; try done.
    + apply shape_main; [done|]. by rewrite length_insert.
    + split; [|split; [|split; [apply same_rest_main|split; [|split; [|done]]]]].
      * exists j. unfold cells at 1 2 4. rewrite Ef. split_and!.
        -- by rewrite lookup_app_l by lia.
        -- rewrite take_app_le by lia. done.
        -- cbn [cset main_cells]. rewrite (cells_main w k _ f k Ef), decide_True by done.
           by rewrite insert_app_l by lia.
      * intros i Hi. cbn [cset main_cells]. rewrite (cells_main w k _ f i Ef). by rewrite decide_False.
      * cbn [cset main_cells]. unfold main_set. cbn [funcs set_funcs]. rewrite list_lookup_alter_eq. by rewrite Ef.
      * intros i Hi. cbn [cset main_cells]. unfold main_set. cbn [funcs set_funcs]. by rewrite list_lookup_alter_ne.
Qed.

(** ** Removal *)

(** What the removal of [p] from some cells of function [k] leaves. *)
Definition ptrs_same (w w' : world) : Prop := forall j, ext_ptr <$> funcs w' !! j = ext_ptr <$> funcs w !! j.
Lemma ptrs_main w k l : ptrs_same w (main_set k l w).
Proof.
  intros j. unfold main_set. cbn [funcs set_funcs]. destruct (decide (k = j)) as [<-|Hne].
  - rewrite list_lookup_alter_eq. by destruct (funcs w !! k).
  - by rewrite list_lookup_alter_ne.
Qed.
Lemma ptrs_bump w k d : ptrs_same w (bump k d w).
Proof. intros j. rewrite funcs_bump. destruct (decide (k = j)); [|done]. by destruct (funcs w !! j). Qed.
Lemma numf_some w k f : funcs w !! k = Some f -> numf w k = Some (num_all f).
Proof. intros E. unfold numf. by rewrite E. Qed.

Lemma clear_occurrences p l : p <> NULL -> Z.of_nat (length (filter (fun c => c <> NULL) (clear p <$> l))) =
  Z.of_nat (length (filter (fun c => c <> NULL) l)) - occurrences p l.
Proof. intros Hp. rewrite filter_clear. unfold occurrences. pose proof (filter_split_length p l Hp). lia. Qed.

Lemma removed_ok w w' k p f l0 l l1 : registry_ok w -> shape w' -> p <> NULL -> funcs w !! k = Some f ->
  (forall j, numf w' j = numf w j) -> (forall j, j <> k -> cells w' j = cells w j) ->
  cells w k = l0 ++ l ++ l1 -> cells w' k = l0 ++ (clear p <$> l) ++ l1 ->
  registry_ok (bump k (- occurrences p l) w').
Proof.
  intros Hok Hs Hp Ef Hn Ho Ec Ec'. pose proof (registered_bound w k f (proj1 Hok) Ef) as Hb.
  assert (Z.of_nat (length (registered w' k)) = Z.of_nat (length (registered w k)) - occurrences p l) as El.
  { unfold registered. rewrite Ec, Ec', !filter_app, !length_app. pose proof (clear_occurrences p l Hp). lia. }
  unfold LIBSRPC_RFMB_SZ in Hb. eapply (counts_after w k); try done; [|unfold occurrences in *; lia].
  intros j Hj. unfold registered. by rewrite Ho.
Qed.

Lemma regfn_remove_run w k p f : registry_ok w -> p <> NULL -> funcs w !! k = Some f ->
  exists w', libsrpc_regfn_remove p (Z.of_nat k) (ext_ptr f) w = Ret 0 w' /\ registry_ok w' /\
    cells w' k = clear p <$> cells w k /\ (forall j, j <> k -> cells w' j = cells w j) /\
    same_rest w w' /\ ptrs_same w w'.
Proof.
  intros Hok Hp Ef. pose proof Hok as [Hs Hc]. pose proof (sh_main w Hs k f Ef) as Hlm.
  assert (num_all f = Z.of_nat (length (registered w k))) as Hnf by (apply Hc; by apply numf_some).
  pose proof (registered_bound w k f Hs Ef) as Hb. unfold LIBSRPC_RFMB_SZ in Hb.
  assert (@view (main_cells k) w = Some (main_block f)) as Hv by (cbn; unfold main_view; by rewrite Ef).
  pose proof (remove_cells_run (main_cells k) (Z.to_nat LIBSRPC_RFMB_SZ) 0 w _ k p _ Hv ltac:(lia) (numf_some _ _ _ Ef) ltac:(lia)) as E1.
  change (Z.of_nat 0) with 0 in E1. rewrite clear_range_0, drop_0, take_ge, drop_ge, app_nil_r in E1 by lia.
  set (w1 := bump k (- occurrences p (main_block f)) (@cset (main_cells k) (clear p <$> main_block f) w)) in E1.
  assert (cells (main_set k (clear p <$> main_block f) w) k = (clear p <$> main_block f) ++ usable w f) as Ec0.
  { rewrite (cells_main w k _ f k Ef). by rewrite decide_True. }
  assert (forall j, j <> k -> cells (main_set k (clear p <$> main_block f) w) j = cells w j) as Ho0.
  { intros j Hj. rewrite (cells_main w k _ f j Ef). by rewrite decide_False. }
  assert (cells w k = main_block f ++ usable w f) as Ecw by (unfold cells; by rewrite Ef).
  assert (registry_ok w1) as Hok1.
  { eapply (removed_ok w _ k p f []); try done.
    - apply shape_main; [done|]. by rewrite length_fmap.
    - intros j. unfold numf. apply cset_num. }
  assert (exists f1, funcs w1 !! k = Some f1 /\ ext_ptr f1 = ext_ptr f) as (f1 & Ef1 & Ep1).
  { unfold w1. rewrite funcs_bump, decide_True by done. cbn [cset main_cells]. unfold main_set. cbn [funcs set_funcs].
    rewrite list_lookup_alter_eq, Ef. by eexists. }
  assert (cells w1 k = (clear p <$> main_block f) ++ usable w f) as Ec1 by (unfold w1; by rewrite cells_bump).
  assert (forall j, j <> k -> cells w1 j = cells w j) as Ho1 by (intros; unfold w1; rewrite cells_bump; by apply Ho0).
  assert (ptrs_same w w1) as Hp1 by (intros j; unfold w1; rewrite (ptrs_bump _ k _ j); apply ptrs_main).
  unfold libsrpc_regfn_remove. rewrite Nat2Z.id, (bind_ret _ _ _ _ _ E1).
  destruct (Z.eqb_spec (ext_ptr f) NULL) as [En|Hne].
  { exists w1. split; [done|]. split; [done|]. split; [|split; [done|split; [done|done]]].
    rewrite Ec1, Ecw. unfold usable. by rewrite En, !app_nil_r. }
  pose proof Hok1 as [Hs1 Hc1].
  destruct (sh_ext w1 Hs1 k f1 Ef1) as [?|(x & Ex & Hx & Hsz & Hl)]; [congruence|]. rewrite Ep1 in Ex.
  rewrite (bind_ret _ _ _ _ _ (get_eb_run _ _ _ Ex)).
  assert (@view (ext_cells (ext_ptr f)) w1 = Some (eb_proc x)) as Hv2 by (cbn; unfold ext_view; by rewrite Ex).
  assert (Z.to_nat (szfn x) <= length (eb_proc x))%nat as Hle.
  { rewrite Hl. unfold cells_of, sizeof_ext_block in *.
    pose proof (Z.div_le_mono (8 * szfn x) (eb_size x - 16) 8 ltac:(lia) ltac:(lia)) as Hd.
    rewrite Z.mul_comm, Z.div_mul in Hd by lia. lia. }
  assert (usable w f = take (Z.to_nat (szfn x)) (eb_proc x)) as Eu.
  { unfold usable. rewrite (proj2 (Z.eqb_neq _ _) Hne). change (ebs w) with (ebs w1). by rewrite Ex. }
  assert (0 <= num_all f1 < 2 ^ 32) as Hr1.
  { pose proof (registered_bound w1 k f1 Hs1 Ef1) as Hb1. unfold LIBSRPC_RFMB_SZ in Hb1.
    rewrite (Hc1 k (num_all f1) (numf_some _ _ _ Ef1)). lia. }
  pose proof (remove_cells_run (ext_cells (ext_ptr f)) (Z.to_nat (szfn x)) 0 w1 _ k p _ Hv2 ltac:(lia) (numf_some _ _ _ Ef1) Hr1) as E2.
  change (Z.of_nat 0) with 0 in E2. rewrite clear_range_0, drop_0 in E2.
  set (l2 := (clear p <$> take (Z.to_nat (szfn x)) (eb_proc x)) ++ drop (Z.to_nat (szfn x)) (eb_proc x)) in E2.
  rewrite (bind_ret _ _ _ _ _ E2). eexists. split; [done|].
  assert (forall j, cells (ext_set (ext_ptr f) l2 w1) j =
    if decide (j = k) then (clear p <$> main_block f) ++ (clear p <$> take (Z.to_nat (szfn x)) (eb_proc x)) else cells w1 j) as Ec2.
  { intros j. rewrite <- Ep1. rewrite (cells_ext w1 k f1 x _ j) by congruence. destruct (decide (j = k)); [|done].
    assert (main_block f1 = clear p <$> main_block f) as ->.
    { unfold w1 in Ef1. rewrite funcs_bump, decide_True in Ef1 by done. cbn [cset main_cells] in Ef1. unfold main_set in Ef1.
      cbn [funcs set_funcs] in Ef1. rewrite list_lookup_alter_eq, Ef in Ef1. injection Ef1 as <-. done. }
    f_equal. unfold l2. rewrite take_app_le by (rewrite length_fmap, length_take; lia).
    by rewrite take_ge by (rewrite length_fmap, length_take; lia). }
  split; [|split; [|split; [|split; [done|]]]].
  - eapply (removed_ok w1 _ k p f1 (clear p <$> main_block f) _ []); try done.
    + eapply shape_ext; [done|exact Ex|]. unfold l2. rewrite length_app, length_fmap, length_take, length_drop. lia.
    + intros j Hj. cbn [cset ext_cells]. by rewrite Ec2, decide_False.
    + by rewrite Ec1, Eu, app_nil_r.
    + cbn [cset ext_cells]. by rewrite Ec2, decide_True, app_nil_r.
  - rewrite cells_bump. cbn [cset ext_cells]. rewrite Ec2, decide_True by done. by rewrite Ecw, Eu, fmap_app.
  - intros j Hj. rewrite cells_bump. cbn [cset ext_cells]. rewrite Ec2, decide_False by done. by apply Ho1.
  - intros j. rewrite (ptrs_bump _ k _ j). by rewrite <- (Hp1 j).
Qed.

(** ** All the functions *)

Lemma funcs_lookup w k : shape w -> (k < Z.to_nat sRPC_FNNUM)%nat -> exists f, funcs w !! k = Some f.
Proof. intros Hs Hk. apply lookup_lt_is_Some_2. by rewrite (sh_funcs w Hs). Qed.
Lemma ptrs_same_trans w1 w2 w3 : ptrs_same w1 w2 -> ptrs_same w2 w3 -> ptrs_same w1 w3.
Proof. intros H1 H2 j. by rewrite H2. Qed.

Lemma unreg_from_run n : forall i w p, registry_ok w -> p <> NULL -> (i + n <= Z.to_nat sRPC_FNNUM)%nat ->
  forall rc, exists w', unreg_from n (Z.of_nat i) p rc w = Ret (match n with O => rc | _ => 0 end) w' /\ registry_ok w' /\
    (forall k, cells w' k = if decide (i <= k < i + n)%nat then clear p <$> cells w k else cells w k) /\
    same_rest w w' /\ ptrs_same w w'.
Proof.
  induction n as [|n IH]; intros i w p Hok Hp Hi rc.
  { exists w. split_and!; try done. intros k. by rewrite decide_False by lia. }
  destruct (funcs_lookup w i (proj1 Hok) ltac:(lia)) as [f Ef]. cbn [unreg_from].
  rewrite (bind_ret _ _ _ _ _ (get_func_run (Z.of_nat i) w f ltac:(lia) ltac:(by rewrite Nat2Z.id))).
  destruct (regfn_remove_run w i p f Hok Hp Ef) as (w1 & E1 & Hok1 & Ec & Ho & Hr & Hpt).
  rewrite (bind_ret _ _ _ _ _ E1). replace (Z.of_nat i + 1) with (Z.of_nat (S i)) by lia.
  destruct (IH (S i) w1 p Hok1 Hp ltac:(lia) 0) as (w2 & E2 & Hok2 & Ec2 & Hr2 & Hpt2).
  exists w2. rewrite E2. split; [by destruct n|]. split; [done|]. split; [|split].
  - intros k. rewrite Ec2. destruct (decide (k = i)) as [->|Hne].
    + rewrite decide_False, decide_True by lia. done.
    + rewrite Ho by done. destruct (decide (S i <= k < S i + n)%nat); [rewrite decide_True by lia|rewrite decide_False by lia]; done.
  - by eapply same_rest_trans.
  - by eapply ptrs_same_trans.
Qed.

(** The segment is mapped. *)
Definition mapped (w : world) : Prop := simplerpc_data (loc w) <> NULL /\ shm_ptr (loc w) <> NULL.
Lemma shmem_get_run w : mapped w -> libsrpc_shmem_get w = Ret (shm_ptr (loc w)) w.
Proof.
  intros [H1 H2]. unfold libsrpc_shmem_get, mbind, M_bind, getl, gets.
  by rewrite (proj2 (Z.eqb_neq _ _) H1), (proj2 (Z.eqb_neq _ _) H2).
Qed.

Lemma unreg_run w p : mapped w -> registry_ok w -> p <> NULL ->
  exists w', libsrpc_unreg_func_proc p w = Ret 0 w' /\ registry_ok w' /\
    (forall k, cells w' k = clear p <$> cells w k) /\ same_rest w w' /\ ptrs_same w w'.
Proof.
  intros Hm Hok Hp. destruct (unreg_from_run (Z.to_nat sRPC_FNNUM) 0 w p Hok Hp ltac:(lia) 0) as (w' & E & Hok' & Ec & Hr & Hpt).
  exists w'. unfold libsrpc_unreg_func_proc. rewrite (bind_ret _ _ _ _ _ (shmem_get_run w Hm)).
  rewrite (proj2 (Z.eqb_neq _ _) (proj2 Hm)). change (Z.of_nat 0) with 0 in E. rewrite E. split; [done|]. split; [done|].
  split; [|done]. intros k. rewrite Ec. destruct (decide (0 <= k < 0 + Z.to_nat sRPC_FNNUM)%nat); [done|].
  unfold cells. rewrite (proj2 (lookup_ge_None (funcs w) k)); [done|]. rewrite (sh_funcs w (proj1 Hok)). lia.
Qed.

(** (C30) Unregistering a process ([libsrpc_unreg_func_proc]) removes it from every function,
    wherever its cells are, and nothing else: every other executor keeps its cell,
    the counts stay exact, and no other part of the segment changes. *)
Theorem unregister_spec w p : mapped w -> registry_ok w -> p <> NULL ->
  exists w', libsrpc_unreg_func_proc p w = Ret 0 w' /\ registry_ok w' /\ same_rest w w' /\
    forall k, (p ∉ registered w' k) /\ registered w' k = filter (fun c => c <> p) (registered w k) /\
      (forall i c, cells w k !! i = Some c -> c <> p -> cells w' k !! i = Some c).
Proof.
  intros Hm Hok Hp. destruct (unreg_run w p Hm Hok Hp) as (w' & E & Hok' & Ec & Hr & _).
  exists w'. split; [done|]. split; [done|]. split; [done|]. intros k.
  assert (registered w' k = filter (fun c => c <> p) (registered w k)) as Er.
  { unfold registered. by rewrite Ec, filter_clear. }
  split; [|split; [done|]].
  - rewrite Er. intros Hin. apply list_elem_of_filter in Hin as [Hbad _]. by apply Hbad.
  - intros i c Ei Hc. rewrite Ec, list_lookup_fmap, Ei. unfold clear. cbn. by rewrite (proj2 (Z.eqb_neq c p)).
Qed.

(** ** Registration from a bit map *)

Lemma bit_test x i : 0 <= i < 64 -> negb (Z.land x (u64 (Z.shiftl 1 (i mod 64))) =? 0) = (Z.testbit x i).
Proof.
  intros Hi. rewrite Z.mod_small, Z.shiftl_1_l by lia.
  assert (0 < 2 ^ i < 2 ^ 64) by (split; [apply Z.pow_pos_nonneg; lia|apply Z.pow_lt_mono_r; lia]).
  rewrite u64_small by lia.
  assert (Z.land x (2 ^ i) = if Z.testbit x i then 2 ^ i else 0) as ->.
  { apply Z.bits_inj'. intros j Hj. rewrite Z.land_spec, Z.pow2_bits_eqb by lia. destruct (Z.eqb_spec i j) as [<-|Hne].
    - destruct (Z.testbit x i); [|by rewrite Z.bits_0]. by rewrite Z.pow2_bits_true by lia.
    - rewrite andb_false_r. destruct (Z.testbit x i); [|by rewrite Z.bits_0]. by rewrite Z.pow2_bits_false by lia. }
  destruct (Z.testbit x i); [|done]. by rewrite (proj2 (Z.eqb_neq _ _)) by lia.
Qed.

(** Room elsewhere is not used up. *)
Lemma room_inserted w w' j k p : inserted w w' j p -> k <> j -> room w k -> room w' k.
Proof.
  intros (_ & _ & _ & _ & Hf & Hz) Hne (f & Ef & Hroom). exists f. rewrite (Hf k Hne). split; [done|].
  destruct Hroom as [Hin|[Hnz Hn]]; [by left|right]. split; [done|].
  intros x Ex. specialize (Hz (ext_ptr f)). rewrite Ex in Hz. symmetry in Hz.
  apply fmap_Some in Hz as (y & Ey & ->). by apply Hn.
Qed.

(** [p] took the first free cell. *)
Definition took (l l' : list Z) (p : Z) : Prop := exists j, l !! j = Some NULL /\
  Forall (fun c => c <> NULL) (take j l) /\ l' = <[j := p]> l.

Lemma reg_from_run g x n : forall i w p rc, registry_ok w -> p <> NULL -> (i + n <= Z.to_nat sRPC_FNNUM)%nat -> rc = 0 ->
  (forall k, (i <= k < i + n)%nat -> Z.testbit x (Z.of_nat k) = true -> room w k) ->
  exists w', reg_from g n (Z.of_nat i) p [x] rc w = Ret 0 w' /\ registry_ok w' /\ same_rest w w' /\
    (forall k, if decide (i <= k < i + n)%nat then
        if Z.testbit x (Z.of_nat k) then took (cells w k) (cells w' k) p else cells w' k = cells w k
      else cells w' k = cells w k).
Proof.
  induction n as [|n IH]; intros i w p rc Hok Hp Hi -> Hroom.
  { exists w. split_and!; try done. intros k. by rewrite decide_False by lia. }
  assert (i < 5)%nat as Hi5 by (unfold sRPC_FNNUM in Hi; lia).
  assert (Z.to_nat (Z.of_nat i / 64) = 0%nat) as Eidx by (rewrite Z.div_small by lia; done).
  cbn [reg_from]. rewrite Eidx. cbn [lookup list_lookup]. rewrite bind_mret, bit_test by lia.
  replace (Z.of_nat i + 1) with (Z.of_nat (S i)) by lia.
  destruct (Z.testbit x (Z.of_nat i)) eqn:Eb.
  - destruct (regfn_insert_run g w i p Hok Hp) as (w1 & E1 & Hok1 & Hins); [by apply Hroom; [lia|]|].
    rewrite (bind_ret _ _ _ _ _ E1).
    destruct (IH (S i) w1 p 0 Hok1 Hp ltac:(lia) eq_refl) as (w2 & E2 & Hok2 & Hr2 & Hc2).
    { intros k Hk Hkb. eapply room_inserted; [exact Hins|lia|]. apply Hroom; [lia|done]. }
    destruct Hins as (Hc1 & Ho1 & Hr1 & _). exists w2. split; [done|]. split; [done|].
    split; [by eapply same_rest_trans|]. intros k. specialize (Hc2 k). destruct (decide (k = i)) as [->|Hne].
    + rewrite decide_False in Hc2 by lia. rewrite decide_True by lia. by rewrite Eb, Hc2.
    + rewrite Ho1 in Hc2 by done. destruct (decide (S i <= k < S i + n)%nat).
      * by rewrite decide_True by lia.
      * by rewrite decide_False by lia.
  - rewrite bind_mret. destruct (IH (S i) w p 0 Hok Hp ltac:(lia) eq_refl) as (w2 & E2 & Hok2 & Hr2 & Hc2).
    { intros k Hk Hkb. apply Hroom; [lia|done]. }
    exists w2. split; [done|]. split; [done|]. split; [done|]. intros k. specialize (Hc2 k).
    destruct (decide (k = i)) as [->|Hne].
    + rewrite decide_False in Hc2 by lia. rewrite decide_True by lia. by rewrite Eb.
    + destruct (decide (S i <= k < S i + n)%nat).
      * by rewrite decide_True by lia.
      * by rewrite decide_False by lia.
Qed.

(** The bit map a process sends: one bit per function it overrides. *)
Definition overrides (tab : list (Z * Z)) (k : nat) : bool :=
  match tab !! k with Some (l, r) => negb (l =? r) | None => false end.
Lemma bmp_bits_spec tab : forall i x, (i + length tab <= 64)%nat -> exists y, bmp_bits tab (Z.of_nat i) [x] = [y] /\
  forall k, Z.testbit y (Z.of_nat k) = Z.testbit x (Z.of_nat k) || (bool_decide (i <= k)%nat && overrides tab (k - i)).
Proof.
  induction tab as [|[l r] tab IH]; intros i x Hl; cbn [bmp_bits].
  { exists x. split; [done|]. intros k. unfold overrides. by rewrite lookup_nil, andb_false_r, orb_false_r. }
  cbn [length] in Hl. assert (Z.to_nat (Z.of_nat i / 64) = 0%nat) as -> by (rewrite Z.div_small by lia; done).
  replace (Z.of_nat i + 1) with (Z.of_nat (S i)) by lia.
  set (x1 := if negb (l =? r) then Z.lor x (u64 (Z.shiftl 1 (Z.of_nat i mod 64))) else x).
  assert ((if negb (l =? r) then alter (fun y => Z.lor y (u64 (Z.shiftl 1 (Z.of_nat i mod 64)))) 0%nat [x] else [x]) = [x1]) as ->.
  { unfold x1. by destruct (negb (l =? r)). }
  destruct (IH (S i) x1 ltac:(lia)) as (y & E & Hy). exists y. split; [done|]. intros k. rewrite Hy.
  assert (Z.testbit x1 (Z.of_nat k) = Z.testbit x (Z.of_nat k) || (bool_decide (k = i) && negb (l =? r))) as ->.
  { unfold x1. destruct (negb (l =? r)); [|by rewrite andb_false_r, orb_false_r].
    rewrite Z.mod_small, Z.shiftl_1_l by lia.
    assert (0 < 2 ^ Z.of_nat i < 2 ^ 64) by (split; [apply Z.pow_pos_nonneg; lia|apply Z.pow_lt_mono_r; lia]).
    rewrite u64_small, Z.lor_spec, Z.pow2_bits_eqb, andb_true_r by lia. f_equal. case_bool_decide; lia. }
  rewrite <- orb_assoc. f_equal. unfold overrides.
  destruct (lt_eq_lt_dec k i) as [[Hk| ->]|Hk].
  - rewrite !bool_decide_eq_false_2 by lia. done.
  - rewrite Nat.sub_diag, bool_decide_eq_true_2, bool_decide_eq_false_2, bool_decide_eq_true_2 by lia.
    cbn. by rewrite orb_false_r.
  - rewrite bool_decide_eq_false_2, !bool_decide_eq_true_2 by lia. replace (k - i)%nat with (S (k - S i)) by lia. done.
Qed.

Lemma took_registered w w' k p : p <> NULL -> took (cells w k) (cells w' k) p ->
  registered w' k ≡ₚ p :: registered w k.
Proof. intros Hp (j & Ej & _ & Ec). unfold registered. rewrite Ec. by apply filter_insert_nz. Qed.

Lemma registration_run g w p tab : mapped w -> registry_ok w -> p <> NULL -> length tab = Z.to_nat sRPC_FNNUM ->
  (forall k, overrides tab k = true -> room w k) ->
  exists w', libsrpc_reg_func_form_bmp g p (libsrpc_bmp_func_set tab [0]) w = Ret 0 w' /\ registry_ok w' /\ same_rest w w' /\
    forall k, if overrides tab k then took (cells w k) (cells w' k) p else cells w' k = cells w k.
Proof.
  intros Hm Hok Hp Hl Hroom.
  destruct (bmp_bits_spec tab 0 0 ltac:(rewrite Hl; unfold sRPC_FNNUM; lia)) as (y & Ey & Hy).
  assert (forall k, Z.testbit y (Z.of_nat k) = overrides tab k) as Hb.
  { intros k. rewrite Hy, Z.bits_0. cbn. by rewrite Nat.sub_0_r. }
  unfold libsrpc_bmp_func_set. change 0 with (Z.of_nat 0) at 1. rewrite Ey.
  destruct (reg_from_run g y (Z.to_nat sRPC_FNNUM) 0 w p 0 Hok Hp ltac:(lia) eq_refl) as (w' & E & Hok' & Hr & Hc).
  { intros k _ Hk. apply Hroom. by rewrite <- Hb. }
  exists w'. unfold libsrpc_reg_func_form_bmp. rewrite (bind_ret _ _ _ _ _ (shmem_get_run w Hm)).
  rewrite (proj2 (Z.eqb_neq _ _) (proj2 Hm)). split; [done|]. split; [done|]. split; [done|].
  intros k. specialize (Hc k). rewrite Hb in Hc. destruct (decide (0 <= k < 0 + Z.to_nat sRPC_FNNUM)%nat); [done|].
  assert (overrides tab k = false) as ->; [|done].
  unfold overrides. rewrite (proj2 (lookup_ge_None tab k)) by lia. done.
Qed.

(** (C29) A process that registers the bit map of the functions it overrides
    ([libsrpc_bmp_func_set], [libsrpc_reg_func_form_bmp]) becomes an executor of
    exactly those functions, once each and in the first free cell, whether that cell
    is in the main block or in the extension block; the counts stay exact.  The condition
    is that each of those functions has a free cell or an extension block that is not
    counted full ([room]); without it the extension block grows, which
    [RegistryGrowth.growth_spec] and [growth_registers_garbage] are about. *)
Theorem registration_spec g w p tab : mapped w -> registry_ok w -> p <> NULL -> length tab = Z.to_nat sRPC_FNNUM ->
  (forall k, overrides tab k = true -> room w k) ->
  exists w', libsrpc_reg_func_form_bmp g p (libsrpc_bmp_func_set tab [0]) w = Ret 0 w' /\ registry_ok w' /\
    same_rest w w' /\
    forall k, if overrides tab k then took (cells w k) (cells w' k) p /\ registered w' k ≡ₚ p :: registered w k
      else cells w' k = cells w k.
Proof.
  intros Hm Hok Hp Hl Hroom. destruct (registration_run g w p tab Hm Hok Hp Hl Hroom) as (w' & E & Hok' & Hr & Hc).
  exists w'. split; [done|]. split; [done|]. split; [done|]. intros k. specialize (Hc k).
  destruct (overrides tab k); [|done]. split; [done|]. by apply took_registered.
Qed.

Lemma clear_id p (l : list Z) : p ∉ l -> clear p <$> l = l.
Proof.
  induction l as [|c l IH]; [done|]. intros [Hc Hl]%not_elem_of_cons. cbn. rewrite IH by done.
  unfold clear. by rewrite (proj2 (Z.eqb_neq c p)) by congruence.
Qed.
Lemma clear_took p (l l' : list Z) : p ∉ l -> took l l' p -> clear p <$> l' = l.
Proof.
  intros Hl (j & Ej & _ & ->). rewrite list_fmap_insert. unfold clear at 1. rewrite Z.eqb_refl.
  rewrite clear_id by done. by apply list_insert_id.
Qed.

(** (C31) Registering a process that is in no cell, for functions with room for it
    ([room]: no extension block has to grow), and unregistering it leaves the registry as
    it was: the cells of every function and its number of executors. *)
Theorem registration_roundtrip g w p tab : mapped w -> registry_ok w -> p <> NULL -> length tab = Z.to_nat sRPC_FNNUM ->
  (forall k, overrides tab k = true -> room w k) -> (forall k, p ∉ cells w k) ->
  exists w1 w2, libsrpc_reg_func_form_bmp g p (libsrpc_bmp_func_set tab [0]) w = Ret 0 w1 /\
    libsrpc_unreg_func_proc p w1 = Ret 0 w2 /\ same_rest w w2 /\
    forall k, cells w2 k = cells w k /\ numf w2 k = numf w k.
Proof.
  intros Hm Hok Hp Hl Hroom Hnew. destruct (registration_run g w p tab Hm Hok Hp Hl Hroom) as (w1 & E1 & Hok1 & Hr1 & Hc1).
  assert (mapped w1) as Hm1 by (destruct Hr1 as (?&?&?&?&?&?&El); unfold mapped; by rewrite El).
  destruct (unreg_run w1 p Hm1 Hok1 Hp) as (w2 & E2 & Hok2 & Hc2 & Hr2 & _).
  exists w1, w2. split; [done|]. split; [done|]. split; [by eapply same_rest_trans|].
  assert (forall k, cells w2 k = cells w k) as Hc.
  { intros k. rewrite Hc2. specialize (Hc1 k). destruct (overrides tab k); [by apply clear_took|].
    rewrite Hc1. by apply clear_id. }
  intros k. split; [done|]. destruct (numf w2 k) as [n2|] eqn:En2, (numf w k) as [n|] eqn:En; try done.
  - rewrite (proj2 Hok2 k n2 En2), (proj2 Hok k n En). unfold registered. by rewrite Hc.
  - exfalso. unfold numf in *. apply fmap_Some in En2 as (f & Ef & _). apply fmap_None in En.
    apply lookup_lt_Some in Ef. apply lookup_ge_None in En. rewrite (sh_funcs _ (proj1 Hok2)) in Ef. rewrite (sh_funcs _ (proj1 Hok)) in En. lia.
  - exfalso. unfold numf in *. apply fmap_Some in En as (f & Ef & _). apply fmap_None in En2.
    apply lookup_lt_Some in Ef. apply lookup_ge_None in En2. rewrite (sh_funcs _ (proj1 Hok)) in Ef. rewrite (sh_funcs _ (proj1 Hok2)) in En2. lia.
Qed.

(** ** A concrete registry

    Function 0 has one executor; function 1 a full main block and an extension block
    at 5000 with one executor; the others have none. *)
Definition demo_registry : world :=
  let empty := RpcFunc 0 NULL (replicate 8 NULL) in
  set_ebs {[ 5000 := ExtBlock LIBSRPC_REGFN_SIGN 32 272 (700 :: replicate 31 NULL) ]}
    (set_funcs [RpcFunc 1 NULL (NULL :: 700 :: replicate 6 NULL); RpcFunc 9 5000 (replicate 8 700); empty; empty; empty]
      Shmem.demo_world).
(** The table of a process that overrides functions 0, 1 and 3. *)
Definition demo_table : list (Z * Z) := [(1, 0); (2, 0); (7, 7); (3, 0); (0, 0)].

Ltac index_var n := match n with S ?m => index_var m | _ => n end.
Ltac each_func E :=
  match type of E with
  | _ !! ?n = Some _ => let k := index_var n in destruct k; [injection E as <-|first [discriminate E | each_func E]]
  end.
Lemma demo_registry_ok : registry_ok demo_registry.
Proof.
  split; [split|].
  - reflexivity.
  - intros k f E. each_func E; reflexivity.
  - intros k f E. each_func E; try (left; reflexivity). right. eexists. split; [reflexivity|]. vm_compute. intuition congruence.
  - intros j k f g Ef Eg. each_func Ef; each_func Eg; try (left; reflexivity); try (right; reflexivity); discriminate.
  - intros k n E. unfold numf in E. apply fmap_Some in E as (f & E & ->). each_func E; reflexivity.
Qed.
Lemma demo_room k : overrides demo_table k = true -> room demo_registry k.
Proof.
  intros H. destruct k as [|[|[|[|[|k]]]]]; try discriminate H;
    (eexists; split; [reflexivity|]); [left; apply list_elem_of_here| |left; apply list_elem_of_here].
  right. split; [discriminate|]. intros x Ex. vm_compute in Ex. injection Ex as <-. reflexivity.
Qed.
Lemma demo_new k : 900 ∉ cells demo_registry k.
Proof.
  destruct k as [|[|[|[|[|k]]]]]; (apply (bool_decide_unpack _); vm_compute; exact I).
Qed.
Definition no_garbage (a : Z) (n : nat) : list Z := replicate n 0.

Lemma unregister_spec_witness :
  exists w', libsrpc_unreg_func_proc 700 demo_registry = Ret 0 w' /\ 700 ∉ registered w' 1.
Proof.
  destruct (unregister_spec demo_registry 700) as (w' & E & _ & _ & H).
  - split; discriminate.
  - exact demo_registry_ok.
  - discriminate.
  - exists w'. split; [exact E|]. exact (proj1 (H 1%nat)).
Defined.
Lemma registration_spec_witness :
  exists w', libsrpc_reg_func_form_bmp no_garbage 900 (libsrpc_bmp_func_set demo_table [0]) demo_registry = Ret 0 w' /\
    registered w' 1 ≡ₚ 900 :: registered demo_registry 1.
Proof.
  destruct (registration_spec no_garbage demo_registry 900 demo_table) as (w' & E & _ & _ & H).
  - split; discriminate.
  - exact demo_registry_ok.
  - discriminate.
  - reflexivity.
  - exact demo_room.
  - exists w'. split; [exact E|]. exact (proj2 (H 1%nat)).
Defined.
Lemma registration_roundtrip_witness :
  exists w1 w2, libsrpc_reg_func_form_bmp no_garbage 900 (libsrpc_bmp_func_set demo_table [0]) demo_registry = Ret 0 w1 /\
    libsrpc_unreg_func_proc 900 w1 = Ret 0 w2 /\ cells w2 1 = cells demo_registry 1.
Proof.
  destruct (registration_roundtrip no_garbage demo_registry 900 demo_table) as (w1 & w2 & E1 & E2 & _ & H).
  - split; discriminate.
  - exact demo_registry_ok.
  - discriminate.
  - reflexivity.
  - exact demo_room.
  - exact demo_new.
  - exists w1, w2. split; [exact E1|]. split; [exact E2|]. exact (proj1 (H 1%nat)).
Defined.
