(* ===== verification/RegistryGrowth.v ===== *)
(** The growth of the extension block of a function: what is kept, what the new cells
    hold, and when the registry is still sound afterwards. *)
From S2P Require Import Prelude Machine Errno Request World Shmem Rpc RpcSpec RpcCall Registry RegistrySpec.
From S2P Require ListSpin TlsfApi TlsfTypes TlsfSpec.

(** ** Frames: the allocator does not touch the registry *)

Definition same_objects (w w' : world) : Prop :=
  lists w' = lists w /\ reqs w' = reqs w /\ procs w' = procs w /\ ebs w' = ebs w /\ funcs w' = funcs w /\
  req_send_rr w' = req_send_rr w.
#[export] Instance same_objects_preorder : PreOrder same_objects.
Proof. split; [done|]. intros w1 w2 w3 (?&?&?&?&?&?) (?&?&?&?&?&?). repeat split; congruence. Qed.
(** A computation that, if it returns, leaves the objects of the segment alone. *)
Definition keeps_objects {A} (m : WM A) : Prop := forall w a w', m w = Ret a w' -> same_objects w w'.

Lemma keeps_bind {A B} (m : WM A) (f : A -> WM B) : keeps_objects m -> (forall a, keeps_objects (f a)) -> keeps_objects (m ≫= f).
Proof. intros Hm Hf w b w'' (a & w' & E1 & E2)%bind_inv. etrans; [by eapply Hm|by eapply Hf]. Qed.
Lemma keeps_ret {A} (a : A) : keeps_objects (mret a : WM A).
Proof. intros w b w' E. by injection E as _ <-. Qed.
Lemma keeps_lift_pool {A} (m : M TlsfTypes.tlsf A) : keeps_objects (lift_pool m).
Proof. intros w a w' E. unfold lift_pool in E. destruct (m (pool w)); try done. by injection E as _ <-. Qed.
Lemma keeps_getl {A} (f : local -> A) : keeps_objects (getl f).
Proof. intros w a w' E. unfold getl, gets in E. by injection E as _ <-. Qed.
Lemma keeps_errno e : keeps_objects (errno_set e).
Proof. intros w a w' E. unfold errno_set, modl, modify in E. by injection E as _ <-. Qed.
Lemma keeps_if {A} (b : bool) (m1 m2 : WM A) : keeps_objects m1 -> keeps_objects m2 -> keeps_objects (if b then m1 else m2).
Proof. by destruct b. Qed.
Create HintDb frames.
#[export] Hint Resolve keeps_bind keeps_ret keeps_lift_pool keeps_getl keeps_errno keeps_if : frames.

Lemma keeps_shmem_get : keeps_objects libsrpc_shmem_get.
Proof. unfold libsrpc_shmem_get. eauto 10 with frames. Qed.
#[export] Hint Resolve keeps_shmem_get : frames.
Lemma keeps_take_errno : keeps_objects take_tlsf_errno.
Proof. unfold take_tlsf_errno. auto with frames. Qed.
#[export] Hint Resolve keeps_take_errno : frames.
Lemma keeps_with_pool {A} (fail : A) k : (forall a b, keeps_objects (k a b)) -> keeps_objects (with_pool fail k).
Proof. intros H. unfold with_pool. auto 15 with frames. Qed.
Lemma keeps_malloc sz t : keeps_objects (libsrpc_shmem_malloc_type sz t).
Proof. apply keeps_with_pool. auto with frames. Qed.
Lemma keeps_free p : keeps_objects (libsrpc_shmem_free p).
Proof. apply keeps_with_pool. auto with frames. Qed.
Lemma keeps_free_dc p : keeps_objects (libsrpc_shmem_free_dc p).
Proof. unfold libsrpc_shmem_free_dc. auto 10 with frames. Qed.
Lemma keeps_wakeup : keeps_objects libsrpc_shm_gc_wakeup.
Proof.
  unfold libsrpc_shm_gc_wakeup. apply keeps_bind; [apply keeps_shmem_get|]. intros shm. apply keeps_if; [apply keeps_ret|].
  apply keeps_bind; [|intros; apply keeps_ret]. intros w a w' E. unfold modify in E. by injection E as _ <-.
Qed.
#[export] Hint Resolve keeps_malloc keeps_free keeps_free_dc keeps_wakeup : frames.

Lemma cells_same_objects w w' k : ebs w' = ebs w -> funcs w' = funcs w -> cells w' k = cells w k.
Proof. intros E1 E2. unfold cells, usable. by rewrite E1, E2. Qed.

(** ** The new block *)

(** The sizes can still grow without wrapping. *)
Definition may_grow (w : world) (a : Z) : Prop := a = NULL \/ forall x, ebs w !! a = Some x ->
  szfn x + LIBSRPC_RFEB_SZ < 2 ^ 31 /\ eb_size x + 8 * (szfn x + LIBSRPC_RFEB_SZ) < 2 ^ 63.
Definition old_szfn (w : world) (a : Z) : Z := if a =? NULL then 0 else default 0 (szfn <$> ebs w !! a).

(** The block [x] that replaces block [a] of world [w]. *)
Definition grown (w : world) (a : Z) (x : ext_block) : Prop :=
  szfn x = old_szfn w a + LIBSRPC_RFEB_SZ /\ sizeof_ext_block + 8 * szfn x <= eb_size x < 2 ^ 63 /\
  length (eb_proc x) = cells_of (eb_size x) /\
  (a <> NULL -> exists o, ebs w !! a = Some o /\ take (length (eb_proc o)) (eb_proc x) = eb_proc o).


Lemma cells_of_mono a b : a <= b -> (cells_of a <= cells_of b)%nat.
Proof. intros H. unfold cells_of. pose proof (Z.div_le_mono (a - sizeof_ext_block) (b - sizeof_ext_block) 8 ltac:(lia) ltac:(lia)). lia. Qed.

Definition first_sizes (a : Z) : WM (Z * Z * list Z) :=
  if a =? NULL then mret (LIBSRPC_RFEB_SZ, sizeof_ext_block + LIBSRPC_RFEB_SZ * 8, [])
  else
    x ← get_eb a;
    let n := u32 (LIBSRPC_RFEB_SZ + szfn x) in
    let sz := u64 (eb_size x + n * 8) in
    mret (n, sz, take (cells_of (if sz <? eb_size x then sz else eb_size x)) (eb_proc x)).

(** The sizes and the copied cells, and the block made of them. *)
Lemma first_sizes_run w a : ext_ok w a -> may_grow w a ->
  exists n sz old, first_sizes a w = Ret (n, sz, old) w /\
    forall sign tail, length tail = cells_of sz -> grown w a (ExtBlock sign n sz (old ++ drop (length old) tail)).
Proof.
  intros Hok Hg. unfold first_sizes, grown, old_szfn. destruct (Z.eqb_spec a NULL) as [->|Hne].
  - do 3 eexists. split; [done|]. intros sign tail Hl. cbn [szfn eb_size eb_proc app length].
    rewrite drop_0. unfold LIBSRPC_RFEB_SZ, sizeof_ext_block. split_and!; try lia; try done.
  - destruct Hok as [?|(x & Ex & Hx & Hsz & Hl)]; [done|]. destruct Hg as [?|Hg]; [done|].
    destruct (Hg x Ex) as [Hg1 Hg2]. rewrite (bind_ret _ _ _ _ _ (get_eb_run _ _ _ Ex)). rewrite Ex. cbn [fmap option_fmap option_map default].
    unfold LIBSRPC_RFEB_SZ, sizeof_ext_block in *.
    assert (u32 (32 + szfn x) = szfn x + 32) as -> by (unfold u32; rewrite Z.mod_small; lia).
    rewrite u64_small by lia. rewrite (proj2 (Z.ltb_ge _ _)) by lia.
    rewrite take_ge by lia. do 3 eexists. split; [done|]. intros sign tail Ht. cbn [szfn eb_size eb_proc].
    split; [done|]. split; [lia|]. pose proof (cells_of_mono (eb_size x) (eb_size x + (szfn x + 32) * 8) ltac:(lia)) as Hm.
    split; [rewrite length_app, length_drop; lia|]. intros _. exists x. split; [done|]. by rewrite take_app_length.
Qed.

Section growth.
Context (g : Z -> nat -> list Z) (Hg : forall a n, length (g a n) = n).

Lemma regfn_ext_block_run w k f rc w' : shape w -> funcs w !! k = Some f -> may_grow w (ext_ptr f) ->
  libsrpc_regfn_ext_block g (Z.of_nat k) w = Ret rc w' ->
  (rc = - ENOMEM /\ same_objects w w') \/
  (rc = 0 /\ exists eb x, eb <> NULL /\ grown w (ext_ptr f) x /\
     lists w' = lists w /\ reqs w' = reqs w /\ procs w' = procs w /\ req_send_rr w' = req_send_rr w /\
     funcs w' = <[k := set_ext_ptr eb f]> (funcs w) /\
     (ext_ptr f = NULL -> ebs w' = <[eb := x]> (ebs w)) /\
     (ext_ptr f <> NULL -> forall o, <[eb := x]> (ebs w) !! ext_ptr f = Some o ->
        ebs w' = <[ext_ptr f := set_eb_sign 0 o]> (<[eb := x]> (ebs w)))).
Proof.
  intros Hs Ef Hmay E. unfold libsrpc_regfn_ext_block in E.
  assert (forall v, funcs v = funcs w -> get_func (Z.of_nat k) v = Ret f v) as Hgf.
  { intros v Ev. apply get_func_run; [lia|]. by rewrite Nat2Z.id, Ev. }
  rewrite (bind_ret _ _ _ _ _ (Hgf w eq_refl)) in E.
  destruct (first_sizes_run w (ext_ptr f) (sh_ext w Hs k f Ef) Hmay) as (n & sz & old & Efs & Hgrown).
  unfold first_sizes in Efs. rewrite (bind_ret _ _ _ _ _ Efs) in E. clear Efs.
  apply bind_inv in E as (eb & w1 & E1 & E). apply keeps_malloc in E1 as (L1 & R1 & P1 & B1 & F1 & Q1).
  destruct (Z.eqb_spec eb NULL) as [->|Hne].
  { injection E as <- <-. left. done. }
  apply bind_inv in E as ([] & w2 & E2 & E). unfold put_eb, modify in E2. injection E2 as Ew2. subst w2.
  rewrite (bind_ret _ _ _ _ _ (Hgf (set_ebs _ w1) F1)) in E. rewrite Z.eqb_refl in E. cbn [negb] in E.
  apply bind_inv in E as ([] & w3 & E3 & E).
  rewrite (upd_func_run _ _ f) in E3; [|lia|cbn [funcs set_ebs]; by rewrite Nat2Z.id, F1].
  injection E3 as Ew3. subst w3. apply bind_inv in E as ([] & w4 & E4 & E). injection E as <- <-.
  right. split; [done|]. exists eb, (ExtBlock LIBSRPC_REGFN_SIGN n sz (old ++ drop (length old) (g eb (cells_of sz)))).
  split; [done|]. split; [by apply Hgrown|]. rewrite Nat2Z.id in E4.
  destruct (Z.eqb_spec (ext_ptr f) NULL) as [En|Hen].
  - injection E4 as <-. cbn [lists reqs procs ebs funcs req_send_rr set_funcs set_ebs]. rewrite B1, F1.
    split_and!; try done.
  - apply bind_inv in E4 as (o & w5 & E5 & E4). unfold get_eb, deref in E5. cbn [ebs set_ebs set_funcs] in E5. rewrite B1 in E5.
    destruct (<[eb:=_]> (ebs w) !! ext_ptr f) as [o'|] eqn:Eo; [|done]. injection E5 as -> <-.
    apply bind_inv in E4 as ([] & w6 & E6 & E4). unfold put_eb, modify in E6. injection E6 as Ew6. subst w6.
    assert (keeps_objects (libsrpc_shmem_free_dc (ext_ptr f) ;; libsrpc_shm_gc_wakeup ;; mret tt)) as Hk by auto with frames.
    apply Hk in E4 as (L & R & P & B & F & Q). cbn [lists reqs procs ebs funcs req_send_rr set_funcs set_ebs] in *.
    split; [by rewrite L|]. split; [by rewrite R|]. split; [by rewrite P|]. split; [by rewrite Q|].
    split; [by rewrite F, F1|]. split; [done|]. intros _ o2 Eo2. injection Eo2 as <-. by rewrite B.
Qed.

Lemma usable_old w f : shape w -> (exists k, funcs w !! k = Some f) -> Z.of_nat (length (usable w f)) = old_szfn w (ext_ptr f).
Proof.
  intros Hs [k Ef]. unfold usable, old_szfn. destruct (Z.eqb_spec (ext_ptr f) NULL); [done|].
  destruct (sh_ext w Hs k f Ef) as [?|(x & Ex & Hx & Hsz & Hl)]; [done|]. rewrite Ex. cbn.
  unfold cells_of, sizeof_ext_block in *.
  pose proof (Z.div_le_mono (8 * szfn x) (eb_size x - 16) 8 ltac:(lia) ltac:(lia)) as Hd.
  rewrite Z.mul_comm, Z.div_mul in Hd by lia. rewrite length_take. lia.
Qed.

(** The function [k] now has the block [x] at [eb], and the old block is marked dead. *)
Record replaced (w : world) (k : nat) (f : rpc_func) (eb : Z) (x : ext_block) (w' : world) : Prop := Replaced {
  re_nonnull : eb <> NULL;
  re_grown : grown w (ext_ptr f) x;
  re_funcs : funcs w' = <[k := set_ext_ptr eb f]> (funcs w);
  re_first : ext_ptr f = NULL -> ebs w' = <[eb := x]> (ebs w);
  re_next : ext_ptr f <> NULL -> forall o, <[eb := x]> (ebs w) !! ext_ptr f = Some o ->
    ebs w' = <[ext_ptr f := set_eb_sign 0 o]> (<[eb := x]> (ebs w)) }.

Section replacement.
Context (w w' : world) (k : nat) (f : rpc_func) (eb : Z) (x : ext_block).
Context (Hs : shape w) (Ef : funcs w !! k = Some f) (Hmay : may_grow w (ext_ptr f)).
Context (Hre : replaced w k f eb x w') (Hfresh : ebs w !! eb = None).

Lemma old_block : ext_ptr f <> NULL -> exists o, ebs w !! ext_ptr f = Some o /\ ext_ptr f <> eb.
Proof. intros Hen. destruct (sh_ext w Hs k f Ef) as [?|(o & Eo & _)]; [done|]. exists o. split; congruence. Qed.
Lemma grown_func : funcs w' !! k = Some (set_ext_ptr eb f).
Proof. rewrite (re_funcs _ _ _ _ _ _ Hre). eapply list_lookup_insert_eq, lookup_lt_Some, Ef. Qed.
Lemma grown_other j : j <> k -> funcs w' !! j = funcs w !! j.
Proof. intros Hj. rewrite (re_funcs _ _ _ _ _ _ Hre). by apply list_lookup_insert_ne. Qed.
Lemma grown_block : ebs w' !! eb = Some x.
Proof.
  destruct (decide (ext_ptr f = NULL)) as [En|Hen].
  - rewrite (re_first _ _ _ _ _ _ Hre En). by apply lookup_insert_eq.
  - destruct (old_block Hen) as (o & Eo & Hne). rewrite (re_next _ _ _ _ _ _ Hre Hen o) by (by rewrite lookup_insert_ne).
    by rewrite lookup_insert_ne, lookup_insert_eq.
Qed.
(** The other blocks keep their cells and sizes; the old one lost its signature. *)
Lemma grown_blocks a : a <> eb ->
  eb_proc <$> ebs w' !! a = eb_proc <$> ebs w !! a /\ szfn <$> ebs w' !! a = szfn <$> ebs w !! a /\
  eb_size <$> ebs w' !! a = eb_size <$> ebs w !! a.
Proof.
  intros Ha. destruct (decide (ext_ptr f = NULL)) as [En|Hen].
  - rewrite (re_first _ _ _ _ _ _ Hre En). by rewrite lookup_insert_ne.
  - destruct (old_block Hen) as (o & Eo & Hne). rewrite (re_next _ _ _ _ _ _ Hre Hen o) by (by rewrite lookup_insert_ne).
    destruct (decide (ext_ptr f = a)) as [<-|Hfa]; [by rewrite lookup_insert_eq, Eo|].
    by rewrite !lookup_insert_ne by done.
Qed.
Lemma old_block_dead : ext_ptr f <> NULL -> eb_sign <$> ebs w' !! ext_ptr f = Some 0.
Proof.
  intros Hen. destruct (old_block Hen) as (o & Eo & Hne).
  rewrite (re_next _ _ _ _ _ _ Hre Hen o) by (by rewrite lookup_insert_ne). by rewrite lookup_insert_eq.
Qed.
Lemma not_new_block j h : funcs w !! j = Some h -> ext_ptr h <> eb.
Proof. intros Eh <-. destruct (sh_ext w Hs j h Eh) as [?|(o & Eo & _)]; [|congruence]. by apply (re_nonnull _ _ _ _ _ _ Hre). Qed.

Lemma cells_other j : j <> k -> cells w' j = cells w j.
Proof.
  intros Hj. unfold cells. rewrite grown_other by done. destruct (funcs w !! j) as [h|] eqn:Eh; [|done].
  destruct (grown_blocks (ext_ptr h) (not_new_block j h Eh)) as (E1 & E2 & _). f_equal. unfold usable.
  destruct (ext_ptr h =? NULL); [done|]. destruct (ebs w' !! ext_ptr h), (ebs w !! ext_ptr h); simplify_eq/=; congruence.
Qed.
Lemma numf_kept j : numf w' j = numf w j.
Proof. unfold numf. destruct (decide (j = k)) as [->|Hj]; [by rewrite Ef, grown_func|by rewrite grown_other]. Qed.
(** The old cells are a prefix of the new ones, which are 32 more. *)
Lemma cells_grown : exists new, length new = 32%nat /\ cells w' k = cells w k ++ new.
Proof.
  destruct (re_grown _ _ _ _ _ _ Hre) as (Hsz & Hb & Hlen & Hkeep). pose proof (re_nonnull _ _ _ _ _ _ Hre) as Hne.
  pose proof (usable_old w f Hs (ex_intro _ k Ef)) as Eu.
  unfold cells. rewrite Ef, grown_func. cbn [main_block set_ext_ptr]. unfold usable at 1. cbn [ext_ptr set_ext_ptr].
  rewrite (proj2 (Z.eqb_neq _ _) Hne), grown_block.
  assert (take (length (usable w f)) (take (Z.to_nat (szfn x)) (eb_proc x)) = usable w f) as Epre.
  { rewrite take_take, Nat.min_l by (unfold LIBSRPC_RFEB_SZ in *; lia).
    unfold usable. destruct (Z.eqb_spec (ext_ptr f) NULL) as [?|Hen]; [done|].
    destruct (Hkeep Hen) as (o & Eo & Et). rewrite Eo. rewrite <- Et at 2. rewrite length_take, take_take. f_equal. }
  exists (drop (length (usable w f)) (take (Z.to_nat (szfn x)) (eb_proc x))). split.
  - rewrite length_drop, length_take, Hlen.
    pose proof (cells_of_mono (sizeof_ext_block + 8 * szfn x) (eb_size x) ltac:(lia)) as Hm.
    unfold cells_of at 1 in Hm. unfold sizeof_ext_block, LIBSRPC_RFEB_SZ in *.
    replace (16 + 8 * szfn x - 16) with (szfn x * 8) in Hm by lia. rewrite Z.div_mul in Hm by lia. lia.
  - rewrite <- app_assoc. f_equal. rewrite <- Epre at 1. by rewrite take_drop.
Qed.

Lemma new_block_ok : ext_ok w' eb.
Proof.
  destruct (re_grown _ _ _ _ _ _ Hre) as (Hsz & Hb & Hlen & _). right. exists x. split; [apply grown_block|]. split; [|done].
  unfold old_szfn in *. destruct (Z.eqb_spec (ext_ptr f) NULL) as [?|Hen]; [unfold LIBSRPC_RFEB_SZ in *; lia|].
  destruct Hmay as [En|Hg']; [done|]. destruct (sh_ext w Hs k f Ef) as [?|(o & Eo & Ho & _)]; [done|]. rewrite Eo in Hsz. cbn in Hsz.
  specialize (Hg' o Eo). unfold LIBSRPC_RFEB_SZ in *. lia.
Qed.
Lemma other_block_ok j h : funcs w !! j = Some h -> ext_ok w' (ext_ptr h).
Proof.
  intros Eh. destruct (sh_ext w Hs j h Eh) as [?|(o & Eo & Ho & Hso & Hlo)]; [by left|right].
  destruct (grown_blocks (ext_ptr h) (not_new_block j h Eh)) as (E1 & E2 & E3). rewrite Eo in E1, E2, E3.
  destruct (ebs w' !! ext_ptr h) as [o'|]; [|done]. cbn in E1, E2, E3. injection E1 as E1. injection E2 as E2. injection E3 as E3.
  exists o'. rewrite E1, E2, E3. done.
Qed.
Lemma shape_grown : shape w'.
Proof.
  split.
  - rewrite (re_funcs _ _ _ _ _ _ Hre), length_insert. apply Hs.
  - intros j h Eh. destruct (decide (j = k)) as [->|Hj].
    + rewrite grown_func in Eh. injection Eh as <-. cbn. by apply (sh_main w Hs k).
    + rewrite grown_other in Eh by done. by apply (sh_main w Hs j).
  - intros j h Eh. destruct (decide (j = k)) as [->|Hj].
    + rewrite grown_func in Eh. injection Eh as <-. apply new_block_ok.
    + rewrite grown_other in Eh by done. by apply (other_block_ok j).
  - intros i j h1 h2 E1 E2 Eeq. destruct (decide (i = k)) as [->|Hi], (decide (j = k)) as [->|Hj]; [by left| | |].
    + rewrite grown_func in E1. injection E1 as <-. rewrite grown_other in E2 by done. cbn in Eeq. by destruct (not_new_block j h2 E2).
    + rewrite grown_func in E2. injection E2 as <-. rewrite grown_other in E1 by done. cbn in Eeq. by destruct (not_new_block i h1 E1).
    + rewrite grown_other in E1, E2 by done. by apply (sh_apart w Hs i j h1 h2).
Qed.

(** The counts of the registry are exact again only when the new cells are free. *)
Lemma sound_when_clear new : registry_ok w -> cells w' k = cells w k ++ new ->
  registry_ok w' <-> Forall (fun c => c = NULL) new.
Proof.
  intros [_ Hc] Hnew. split.
  - intros [_ Hc']. pose proof (Hc' k (num_all f) ltac:(rewrite numf_kept; unfold numf; by rewrite Ef)) as E1.
    pose proof (Hc k (num_all f) ltac:(unfold numf; by rewrite Ef)) as E2. unfold registered in E1, E2.
    rewrite Hnew, filter_app, length_app in E1. apply Forall_forall. intros c Hin. destruct (decide (c = NULL)); [done|].
    exfalso. assert (c ∈ filter (fun c => c <> NULL) new) as Hin' by (by apply list_elem_of_filter).
    destruct (filter (fun c => c <> NULL) new); [by apply not_elem_of_nil in Hin'|]. cbn in E1. lia.
  - intros HF0. split; [exact shape_grown|]. intros j n. rewrite numf_kept. intros En. rewrite (Hc j n En). unfold registered.
    destruct (decide (j = k)) as [->|Hj]; [|by rewrite cells_other]. rewrite Hnew, filter_app.
    assert (filter (fun c => c <> NULL) new = []) as ->; [|by rewrite app_nil_r].
    clear -HF0. induction HF0 as [|c l -> _ IH]; [done|]. rewrite filter_cons, decide_False by lia. done.
Qed.
End replacement.

(** (C32) When the extension block of a function is replaced by a larger one
    ([libsrpc_regfn_ext_block]), every executor keeps its cell, the function gets
    [LIBSRPC_RFEB_SZ] more cells, all inside the new block, the old block is marked
    dead, no other function changes; the registry is sound afterwards exactly when
    the memory of the new cells held NULLs, which the code does not ensure. If the
    pool has no room, nothing changes. *)
Theorem growth_spec w k f rc w' : registry_ok w -> funcs w !! k = Some f -> may_grow w (ext_ptr f) ->
  libsrpc_regfn_ext_block g (Z.of_nat k) w = Ret rc w' ->
  (rc = - ENOMEM /\ same_objects w w') \/
  (rc = 0 /\ exists eb, ext_ptr <$> funcs w' !! k = Some eb /\ eb <> NULL /\
     (ebs w !! eb = None ->
        shape w' /\ (exists new, length new = 32%nat /\ cells w' k = cells w k ++ new /\
          (registry_ok w' <-> Forall (fun c => c = NULL) new)) /\
        (forall j, j <> k -> cells w' j = cells w j) /\ (forall j, numf w' j = numf w j) /\
        (ext_ptr f <> NULL -> eb_sign <$> ebs w' !! ext_ptr f = Some 0))).
Proof.
  intros Hok Ef Hmay E. pose proof (proj1 Hok) as Hs.
  destruct (regfn_ext_block_run w k f rc w' Hs Ef Hmay E) as [?|(-> & eb & x & Hne & Hgr & _ & _ & _ & _ & HF & HB1 & HB2)]; [by left|right].
  assert (replaced w k f eb x w') as Hre by done.
  split; [done|]. exists eb. split; [by rewrite (grown_func w w' k f eb x Ef Hre)|]. split; [done|]. intros Hfresh.
  split; [by eapply shape_grown|]. split; [|split; [|split; [|]]].
  - destruct (cells_grown w w' k f eb x) as (new & Hl & Hnew); try done. exists new. split; [done|]. split; [done|].
    by eapply sound_when_clear.
  - intros j Hj. by eapply cells_other.
  - intros j. by eapply numf_kept.
  - by eapply old_block_dead.
Qed.
End growth.

(** Memory that was used before: the extension block allocated for function 0 of the
    demonstration registry finds 13 in every word. *)
Definition used_memory (a : Z) (n : nat) : list Z := replicate n 13.
Definition demo_grown : world := default demo_registry (final (libsrpc_regfn_ext_block used_memory 0 demo_registry)).
Lemma growth_spec_witness :
  libsrpc_regfn_ext_block used_memory 0 demo_registry = Ret 0 demo_grown /\ shape demo_grown /\
  exists new, cells demo_grown 0 = cells demo_registry 0 ++ new.
Proof.
  assert (libsrpc_regfn_ext_block used_memory (Z.of_nat 0) demo_registry = Ret 0 demo_grown) as E by (vm_compute; reflexivity).
  split; [exact E|].
  destruct (growth_spec used_memory (fun a n => length_replicate n 13) demo_registry 0
    (RpcFunc 1 NULL (NULL :: 700 :: replicate 6 NULL)) 0 demo_grown demo_registry_ok eq_refl (or_introl eq_refl) E)
    as [[Hbad _]|(_ & eb & Eeb & _ & H)]; [discriminate Hbad|].
  assert (ebs demo_registry !! eb = None) as Hf by (vm_compute in Eeb; injection Eeb as <-; vm_compute; reflexivity).
  destruct (H Hf) as (Hs & (new & _ & Hn & _) & _). split; [exact Hs|]. exists new. exact Hn.
Defined.

(** What the memory held before becomes an executor: the extension block of
    function 0 is created in memory that holds 13s, and the pointer 13, which names no
    process, is now in 32 of the cells a call goes through; the registry no longer
    counts its executors. *)
Theorem growth_registers_garbage :
  libsrpc_regfn_ext_block used_memory 0 demo_registry = Ret 0 demo_grown /\
  registered demo_registry 0 = [700] /\ registered demo_grown 0 = 700 :: replicate 32 13 /\
  procs demo_grown !! 13 = None /\ numf demo_grown 0 = Some 1.
Proof. split_and!; vm_compute; reflexivity. Qed.
