(* ===== verification/Protocol.v ===== *)
(** One response slot under contention: workers that answer
    ([libsrpc_req_response_set]), callers that give up (the timeout marking at the end
    of [libsrpc_send_request]) and callers that read the answer
    ([libsrpc_req_response_get]), interleaved at the granularity of one atomic access
    or one copied byte, on the bytes of the request. *)
From S2P Require Import Prelude Machine Errno Bytes Request RequestSpec.

(** ** Agents

    A writer: before the check, before the compare-exchange that claims the slot,
    having copied [k] bytes, before the store that publishes, done with a result. *)
Inductive wr_pc := WrCheck | WrCas | WrCopy (k : nat) | WrDone (rc : Z).
(** A caller whose wait timed out: before and after its compare-exchange. *)
Inductive mk_pc := MkCas | MkDone (won : bool).
(** A reader: [c] loads of the return code left; having seen READY with code [code]
    and copied the bytes [acc]; done. *)
Inductive rd_pc := RdLoad (c : nat) | RdCopy (code : Z) (acc : list Z) | RdDone (rc : Z) (data : option (list Z)).

(** [answers]: what each writer wants to publish. *)
Record pstate := PState { shared : request; writers : list (list Z * wr_pc); markers : list mk_pc; readers : list rd_pc }.

Section protocol.
(** The slot, the size of the result, and the control word the workers loaded. *)
Context (o : Z) (n : nat) (ctrl : option Z).

Definition set_byte (k : nat) (b : Z) (r : request) : request :=
  set_buf (splice (Z.to_nat (o + offsetof_response_buf) + k) [b] (buf r)) r.
Definition get_byte (k : nat) (r : request) : Z :=
  default 0 (buf r !! (Z.to_nat (o + offsetof_response_buf) + k)%nat).

Definition LOCKED := rc_make RC_ST_LOCK 0.
Definition READY := rc_make RC_ST_READY 0.
Definition TIMEDOUT := rc_make RC_ST_ERROR (- ERPCWAITIMEDOUT).

(** The next action of a writer of [v] on the shared request. *)
Definition writer_action (r : request) (v : list Z) (pc : wr_pc) : option (request * wr_pc) :=
  match pc with
  | WrCheck => Some (r, if libsrpc_req_is_corrupted (Some r) ctrl then WrDone (- EINVAL) else WrCas)
  | WrCas => let '(ok, r) := cas_resp_rc o 0 LOCKED r in Some (r, if ok then WrCopy 0 else WrDone (- EBUSY))
  | WrCopy k =>
      match v !! k with
      | Some b => Some (set_byte k b r, WrCopy (S k))
      | None => Some (set_resp_rc o READY r, WrDone READY)
      end
  | WrDone _ => None
  end.
Definition marker_action (r : request) (pc : mk_pc) : option (request * mk_pc) :=
  match pc with
  | MkCas => let '(ok, r) := cas_resp_rc o 0 TIMEDOUT r in Some (r, MkDone ok)
  | MkDone _ => None
  end.
Definition reader_action (r : request) (pc : rd_pc) : option rd_pc :=
  match pc with
  | RdLoad O => Some (RdDone (- ETIMEDOUT) None)
  | RdLoad (S c) =>
      let rc := resp_rc o r in
      if rc_st rc =? RC_ST_ERROR then Some (RdDone (if rc_code rc <? 0 then rc_code rc else - EBADFD) None)
      else if rc_st rc =? RC_ST_READY then Some (RdCopy (rc_code rc) [])
      else Some (RdLoad c)
  | RdCopy code acc =>
      if (length acc <? n)%nat then Some (RdCopy code (acc ++ [get_byte (length acc) r]))
      else Some (RdDone code (Some acc))
  | RdDone _ _ => None
  end.

Inductive pstep : pstate -> pstate -> Prop :=
  | step_writer s i v pc r' pc' : writers s !! i = Some (v, pc) -> writer_action (shared s) v pc = Some (r', pc') ->
      pstep s (PState r' (<[i := (v, pc')]> (writers s)) (markers s) (readers s))
  | step_marker s i pc r' pc' : markers s !! i = Some pc -> marker_action (shared s) pc = Some (r', pc') ->
      pstep s (PState r' (writers s) (<[i := pc']> (markers s)) (readers s))
  | step_reader s i pc pc' : readers s !! i = Some pc -> reader_action (shared s) pc = Some pc' ->
      pstep s (PState (shared s) (writers s) (markers s) (<[i := pc']> (readers s))).

(** A slot that has just been sent: writers of [vs], [nm] callers that may time out,
    [nr] readers. *)
Definition pstart (r : request) (vs : list (list Z)) (nm nr : nat) : pstate :=
  PState r ((fun v => (v, WrCheck)) <$> vs) (replicate nm MkCas) (replicate nr (RdLoad 1024)).
Definition slot_room (r : request) : Prop :=
  slot_in o r /\ o + offsetof_response_buf + Z.of_nat n <= Z.of_nat (length (buf r)).
Definition preach (r : request) (vs : list (list Z)) (nm nr : nat) (s : pstate) : Prop :=
  rtc pstep (pstart r vs nm nr) s.

(** ** The phases of a slot *)

Inductive phase := PEmpty | PLocked (j : nat) (v : list Z) (k : nat) | PReady (j : nat) (v : list Z) | PTimedOut (j : nat).

(** Writers that neither hold nor have published the slot. *)
Definition outsider (pc : wr_pc) : Prop :=
  match pc with WrCheck | WrCas => True | WrCopy _ => False | WrDone rc => rc = - EINVAL \/ rc = - EBUSY end.
Definition reader_waits (pc : rd_pc) : Prop :=
  match pc with RdLoad _ => True | RdCopy _ _ => False | RdDone rc d => rc = - ETIMEDOUT /\ d = None end.
Definition reader_sees (v : list Z) (pc : rd_pc) : Prop :=
  match pc with
  | RdLoad _ => True
  | RdCopy code acc => code = 0 /\ (length acc <= n)%nat /\ acc = take (length acc) v
  | RdDone rc d => (rc = - ETIMEDOUT /\ d = None) \/ (rc = 0 /\ d = Some v)
  end.
Definition reader_fails (pc : rd_pc) : Prop :=
  match pc with RdLoad _ => True | RdCopy _ _ => False | RdDone rc d => (rc = - ETIMEDOUT \/ rc = - ERPCWAITIMEDOUT) /\ d = None end.

Definition others_out (j : nat) (s : pstate) : Prop := forall i v pc, writers s !! i = Some (v, pc) -> i <> j -> outsider pc.
Definition no_marker (s : pstate) : Prop := MkDone true ∉ markers s.
Definition phase_ok (ph : phase) (s : pstate) : Prop :=
  match ph with
  | PEmpty => resp_rc o (shared s) = 0 /\ (forall i v pc, writers s !! i = Some (v, pc) -> outsider pc) /\
      no_marker s /\ Forall reader_waits (readers s)
  | PLocked j v k => resp_rc o (shared s) = LOCKED /\ writers s !! j = Some (v, WrCopy k) /\ (k <= n)%nat /\
      take k (resp_data o n (shared s)) = take k v /\ others_out j s /\ no_marker s /\ Forall reader_waits (readers s)
  | PReady j v => resp_rc o (shared s) = READY /\ writers s !! j = Some (v, WrDone READY) /\
      resp_data o n (shared s) = v /\ others_out j s /\ no_marker s /\ Forall (reader_sees v) (readers s)
  | PTimedOut j => resp_rc o (shared s) = TIMEDOUT /\ (forall i v pc, writers s !! i = Some (v, pc) -> outsider pc) /\
      markers s !! j = Some (MkDone true) /\ (forall i, markers s !! i = Some (MkDone true) -> i = j) /\
      Forall reader_fails (readers s)
  end.
Definition lengths_ok (s : pstate) : Prop := slot_room (shared s) /\ forall i v pc, writers s !! i = Some (v, pc) -> length v = n.
Definition pinv (s : pstate) : Prop := lengths_ok s /\ exists ph, phase_ok ph s.

(** ** Bytes of the slot *)

Lemma resp_data_byte k b r : slot_room r -> (k < n)%nat ->
  resp_data o n (set_byte k b r) = <[k := b]> (resp_data o n r) /\ resp_rc o (set_byte k b r) = resp_rc o r /\
  slot_room (set_byte k b r).
Proof.
  intros [[Ho Hl] Hr] Hk. offsets. unfold resp_data, resp_rc, set_byte, slot_room, word_at. offsets. cbn [buf set_buf]. split_and!.
  - apply list_eq. intros i. rewrite lookup_slice, lookup_splice by (cbn [length]; lia). cbn [length].
    destruct (decide (i = k)) as [->|Hne].
    + rewrite !decide_True by lia. rewrite list_lookup_insert_eq by (rewrite length_slice; lia).
      by replace (_ + _ - _)%nat with 0%nat by lia.
    + rewrite list_lookup_insert_ne, lookup_slice by done. destruct (decide (i < n)%nat); [|done].
      by rewrite decide_False by lia.
  - by rewrite slice_splice_ne by (cbn [length]; lia).
  - done.
  - rewrite length_splice by (cbn [length]; lia). lia.
  - rewrite length_splice by (cbn [length]; lia). lia.
Qed.
Lemma resp_data_rc v r : slot_room r ->
  resp_data o n (set_resp_rc o v r) = resp_data o n r /\ resp_rc o (set_resp_rc o v r) = i32 v /\
  slot_room (set_resp_rc o v r).
Proof.
  intros [Hs Hr]. pose proof (only_bytes_rc o v r Hs) as B. split_and!.
  - destruct (only_bytes_fields _ _ _ _ o B) as (_ & _ & _ & Hd); [apply Hs|]. apply Hd. right. lia.
  - by apply resp_rc_set.
  - destruct B as (_ & L & _). unfold slot_room, slot_in. by rewrite L.
Qed.
Lemma get_byte_data k r : slot_room r -> (k < n)%nat -> resp_data o n r !! k = Some (get_byte k r).
Proof.
  intros [[Ho Hl] Hr] Hk. offsets. unfold resp_data, get_byte. offsets. rewrite lookup_slice, decide_True by done.
  destruct (buf r !! (Z.to_nat (o + 14) + k)%nat) eqn:E; [done|]. apply lookup_ge_None in E. lia.
Qed.
Lemma length_resp_data r : slot_room r -> length (resp_data o n r) = n.
Proof. intros [[Ho Hl] Hr]. offsets. unfold resp_data. apply length_slice. offsets. lia. Qed.

(** ** Preservation *)

Lemma lookup_insert_inv {A} (l : list A) i j x y : <[i := x]> l !! j = Some y -> (j = i /\ y = x) \/ (j <> i /\ l !! j = Some y).
Proof.
  destruct (decide (j = i)) as [->|Hne].
  - intros E. left. split; [done|]. rewrite list_lookup_insert_eq in E; [congruence|].
    apply lookup_lt_Some in E. by rewrite length_insert in E.
  - rewrite list_lookup_insert_ne by done. by right.
Qed.
Lemma lookup_updated {A} (l : list A) i x y : l !! i = Some x -> <[i := y]> l !! i = Some y.
Proof. intros. by eapply list_lookup_insert_eq, lookup_lt_Some. Qed.

Lemma rc_values : LOCKED <> 0 /\ READY <> 0 /\ TIMEDOUT <> 0 /\ i32 LOCKED = LOCKED /\ i32 READY = READY /\ i32 TIMEDOUT = TIMEDOUT.
Proof. vm_compute. intuition congruence. Qed.

Lemma lengths_writer s i v pc r' pc' : lengths_ok s -> writers s !! i = Some (v, pc) -> slot_room r' ->
  lengths_ok (PState r' (<[i := (v, pc')]> (writers s)) (markers s) (readers s)).
Proof.
  intros [Hr Hl] E Hr'. split; [done|]. intros j u q Ej. cbn [writers] in Ej.
  apply lookup_insert_inv in Ej as [[-> Ej]|[_ Ej]]; [injection Ej as -> ->|]; eauto.
Qed.

(** A writer that is not the owner of the slot moves without touching it. *)
Definition owner (ph : phase) : option nat := match ph with PLocked j _ _ | PReady j _ => Some j | _ => None end.
Lemma phase_outsider ph s i v pc pc' : phase_ok ph s -> writers s !! i = Some (v, pc) -> owner ph <> Some i -> outsider pc' ->
  phase_ok ph (PState (shared s) (<[i := (v, pc')]> (writers s)) (markers s) (readers s)).
Proof.
  intros Hp E Hne Ho.
  assert (forall P : Prop, (forall j u q, writers s !! j = Some (u, q) -> j <> i -> P -> outsider q) -> P ->
    forall j u q, <[i := (v, pc')]> (writers s) !! j = Some (u, q) -> outsider q) as Hall.
  { intros P H HP j u q Ej. apply lookup_insert_inv in Ej as [[-> Ej]|[Hj Ej]]; [by injection Ej as -> ->|eauto]. }
  assert (forall j, others_out j s -> owner ph = Some j -> others_out j
    (PState (shared s) (<[i := (v, pc')]> (writers s)) (markers s) (readers s))) as Hoth.
  { intros j H _ k u q Ek Hk. cbn [writers] in Ek. apply lookup_insert_inv in Ek as [[-> Ek]|[Hj Ek]]; [by injection Ek as -> ->|by eapply H]. }
  destruct ph as [|j u k|j u|j]; cbn [phase_ok shared writers markers readers owner] in *.
  - destruct Hp as (Hrc & Hw & Hm & Hr). split; [done|]. split; [|done]. eapply (Hall True); eauto.
  - destruct Hp as (Hrc & Hj & Hk & Hd & Hw & Hm & Hr). split; [done|].
    split; [by rewrite list_lookup_insert_ne by congruence|]. split; [done|]. split; [done|]. split; [by apply Hoth|done].
  - destruct Hp as (Hrc & Hj & Hd & Hw & Hm & Hr). split; [done|].
    split; [by rewrite list_lookup_insert_ne by congruence|]. split; [done|]. split; [by apply Hoth|done].
  - destruct Hp as (Hrc & Hw & Hm & Hr). split; [done|]. split; [|done]. eapply (Hall True); eauto.
Qed.

(** Outside its owner, a slot that is not empty cannot be claimed. *)
Lemma writer_outsider r v pc r' pc' : outsider pc -> resp_rc o r <> 0 -> writer_action r v pc = Some (r', pc') ->
  r' = r /\ outsider pc'.
Proof.
  intros Ho Hrc E. destruct pc as [| |k|rc]; cbn in *; try done.
  - injection E as <- <-. split; [done|]. case_match; cbn; tauto.
  - unfold cas_resp_rc in E. rewrite (proj2 (Z.eqb_neq _ _) Hrc) in E. injection E as <- <-. cbn. tauto.
Qed.

Lemma pinv_writer s i v pc r' pc' : pinv s -> writers s !! i = Some (v, pc) -> writer_action (shared s) v pc = Some (r', pc') ->
  pinv (PState r' (<[i := (v, pc')]> (writers s)) (markers s) (readers s)).
Proof.
  intros [Hl [ph Hp]] E Ea. pose proof Hl as [Hroom Hlen]. destruct rc_values as (N1 & N2 & N3 & I1 & I2 & I3).
  assert (forall ph', outsider pc -> phase_ok ph' s -> resp_rc o (shared s) <> 0 -> owner ph' <> Some i ->
    pinv (PState r' (<[i := (v, pc')]> (writers s)) (markers s) (readers s))) as Hout.
  { intros ph' Ho Hp' Hrc Hne. destruct (writer_outsider _ _ _ _ _ Ho Hrc Ea) as [-> Ho'].
    split; [by eapply lengths_writer|]. exists ph'. by eapply phase_outsider. }
  destruct ph as [|j u k|j u|j].
  - destruct Hp as (Hrc & Hw & Hm & Hr). pose proof (Hw i v pc E) as Ho. destruct pc as [| |k|rc]; try done.
    + cbn in Ea. injection Ea as <- <-. split; [by eapply lengths_writer|]. exists PEmpty.
      eapply phase_outsider; try done. case_match; cbn; tauto.
    + cbn in Ea. unfold cas_resp_rc in Ea. rewrite Hrc in Ea. injection Ea as <- <-.
      destruct (resp_data_rc LOCKED (shared s) Hroom) as (Ed & Erc & Hroom').
      split; [by eapply lengths_writer|]. exists (PLocked i v 0). cbn [phase_ok shared writers markers readers].
      rewrite Erc, I1. split; [done|]. split; [by eapply lookup_updated|]. split; [lia|]. split; [done|]. split; [|done].
      intros j u q Ej Hj. cbn [writers] in Ej. rewrite list_lookup_insert_ne in Ej by done. by eapply Hw.
  - pose proof Hp as (Hrc & Hj & Hk & Hd & Hw & Hm & Hr). destruct (decide (i = j)) as [->|Hne].
    2: { eapply Hout; [by eapply Hw|exact Hp|congruence|cbn; congruence]. }
    assert (v = u /\ pc = WrCopy k) as [-> ->] by (split; congruence). cbn in Ea.
    pose proof (Hlen _ _ _ E) as Hlu.
    assert (forall r pc1, others_out j (PState r (<[j := (u, pc1)]> (writers s)) (markers s) (readers s))) as Hoth.
    { intros r pc1 i0 u0 q Ei0 Hi0. cbn [writers] in Ei0. rewrite list_lookup_insert_ne in Ei0 by done. by eapply Hw. }
    destruct (u !! k) as [b|] eqn:Eb.
    + injection Ea as <- <-. pose proof (lookup_lt_Some _ _ _ Eb) as Hkn. rewrite Hlu in Hkn.
      destruct (resp_data_byte k b (shared s) Hroom Hkn) as (Ed & Erc & Hroom').
      split; [by eapply lengths_writer|]. exists (PLocked j u (S k)). cbn [phase_ok shared writers markers readers].
      rewrite Erc. split; [done|]. split; [by eapply lookup_updated|]. split; [lia|]. split; [|split; [by apply Hoth|done]].
      rewrite Ed. assert (k < length (resp_data o n (shared s)))%nat as Hkl by (by rewrite length_resp_data).
      rewrite (take_S_r _ k b) by (by apply list_lookup_insert_eq). rewrite (take_S_r u k b) by done.
      by rewrite take_insert_ge, Hd by lia.
    + injection Ea as <- <-. apply lookup_ge_None in Eb. assert (k = n) as -> by lia.
      destruct (resp_data_rc READY (shared s) Hroom) as (Ed & Erc & Hroom').
      split; [by eapply lengths_writer|]. exists (PReady j u). cbn [phase_ok shared writers markers readers].
      rewrite Erc, I2. split; [done|]. split; [by eapply lookup_updated|]. split; [|split; [by apply Hoth|split; [done|]]].
      * rewrite Ed. rewrite take_ge in Hd by (by rewrite length_resp_data). by rewrite Hd, take_ge by lia.
      * eapply Forall_impl; [exact Hr|]. intros [c|code acc|rc d]; cbn; [done|done|]. intros [-> ->]. by left.
  - pose proof Hp as (Hrc & Hj & Hd & Hw & Hm & Hr). destruct (decide (i = j)) as [->|Hne].
    + assert (pc = WrDone READY) as -> by congruence. done.
    + eapply Hout; [by eapply Hw|exact Hp|congruence|cbn; congruence].
  - pose proof Hp as (Hrc & Hw & Hm & Hr). eapply Hout; [by eapply Hw|exact Hp|congruence|done].
Qed.

Lemma pinv_marker s i pc r' pc' : pinv s -> markers s !! i = Some pc -> marker_action (shared s) pc = Some (r', pc') ->
  pinv (PState r' (writers s) (<[i := pc']> (markers s)) (readers s)).
Proof.
  intros [Hl [ph Hp]] E Ea. pose proof Hl as [Hroom Hlen]. destruct rc_values as (N1 & N2 & N3 & I1 & I2 & I3).
  destruct pc as [|won]; [|done]. cbn in Ea. unfold cas_resp_rc in Ea. destruct (Z.eqb_spec (resp_rc o (shared s)) 0) as [Hrc|Hrc].
  - injection Ea as <- <-. destruct (resp_data_rc TIMEDOUT (shared s) Hroom) as (Ed & Erc & Hroom'). split; [done|].
    destruct ph as [|j u k|j u|j]; [|destruct Hp as (Hbad & _); congruence..].
    destruct Hp as (_ & Hw & Hm & Hr). exists (PTimedOut i). cbn [phase_ok shared writers markers readers].
    rewrite Erc, I3. split; [done|]. split; [done|]. split; [by eapply lookup_updated|]. split.
    + intros j Ej. apply lookup_insert_inv in Ej as [[-> _]|[_ Ej]]; [done|]. destruct Hm. by eapply list_elem_of_lookup_2.
    + eapply Forall_impl; [exact Hr|]. intros [c|code acc|rc d]; cbn; [done|done|]. intros [-> ->]. tauto.
  - injection Ea as <- <-. split; [done|]. exists ph.
    assert (no_marker s -> no_marker (PState (shared s) (writers s) (<[i := MkDone false]> (markers s)) (readers s))) as Hnm.
    { intros H Hin. apply list_elem_of_lookup in Hin as [j Ej]. cbn [markers] in Ej.
      apply lookup_insert_inv in Ej as [[_ Ej]|[_ Ej]]; [done|]. destruct H. by eapply list_elem_of_lookup_2. }
    destruct ph as [|j u k|j u|j]; cbn [phase_ok shared writers markers readers] in *.
    + by destruct Hp.
    + destruct Hp as (H1 & H2 & H3 & H4 & H5 & H6 & H7). split_and!; auto.
    + destruct Hp as (H1 & H2 & H3 & H4 & H5 & H6). split_and!; auto.
    + destruct Hp as (H1 & H2 & H3 & H4 & H5). split_and!; auto.
      * rewrite list_lookup_insert_ne by congruence. done.
      * intros j' Ej'. apply lookup_insert_inv in Ej' as [[_ ?]|[_ ?]]; [done|auto].
Qed.

Lemma Forall_insert_ok {A} (P : A -> Prop) l i x : Forall P l -> P x -> Forall P (<[i := x]> l).
Proof. intros H Hx. apply Forall_insert; done. Qed.

Lemma pinv_reader s i pc pc' : pinv s -> readers s !! i = Some pc -> reader_action (shared s) pc = Some pc' ->
  pinv (PState (shared s) (writers s) (markers s) (<[i := pc']> (readers s))).
Proof.
  intros [Hl [ph Hp]] E Ea. split; [done|]. exists ph. pose proof Hl as [Hroom _].
  assert (forall P : rd_pc -> Prop, Forall P (readers s) -> (P pc -> P pc') -> Forall P (<[i := pc']> (readers s))) as Hf.
  { intros P H HP. apply Forall_insert_ok; [done|]. apply HP. rewrite Forall_lookup in H. by eapply H. }
  assert (rc_st LOCKED = RC_ST_LOCK /\ rc_st READY = RC_ST_READY /\ rc_st TIMEDOUT = RC_ST_ERROR /\ rc_st 0 = 0 /\
    rc_code READY = 0 /\ rc_code TIMEDOUT = - ERPCWAITIMEDOUT) as (S1 & S2 & S3 & S4 & S5 & S6) by (vm_compute; done).
  destruct ph as [|j u k|j u|j]; cbn [phase_ok shared writers markers readers] in *.
  - destruct Hp as (H1 & H2 & H3 & H4). split_and!; auto. apply Hf; [done|].
    destruct pc as [[|c]|code acc|rc d]; cbn [reader_action] in Ea; [by injection Ea as <-| |done|done].
    rewrite H1, S4 in Ea. by injection Ea as <-.
  - destruct Hp as (H1 & H2 & H3 & H4 & H5 & H6 & H7). split_and!; auto. apply Hf; [done|].
    destruct pc as [[|c]|code acc|rc d]; cbn [reader_action] in Ea; [by injection Ea as <-| |done|done].
    rewrite H1, S1 in Ea. by injection Ea as <-.
  - destruct Hp as (H1 & H2 & H3 & H4 & H5 & H6). split_and!; auto. apply Hf; [done|].
    destruct pc as [[|c]|code acc|rc d]; cbn [reader_action] in Ea.
    + injection Ea as <-. cbn. tauto.
    + rewrite H1, S2, S5 in Ea. injection Ea as <-. cbn. intros _. split_and!; [done|lia|done].
    + intros (-> & Hle & Hacc). destruct (Nat.ltb_spec (length acc) n) as [Hlt|Hge]; injection Ea as <-; cbn.
      * rewrite length_app. cbn. split_and!; [done|lia|]. pose proof (get_byte_data (length acc) (shared s) Hroom Hlt) as Hb.
        rewrite H3 in Hb. rewrite Nat.add_1_r, (take_S_r _ _ _ Hb). by rewrite <- Hacc.
      * right. split; [done|]. rewrite Hacc, take_ge; [done|]. rewrite <- H3, length_resp_data by done. lia.
    + done.
  - destruct Hp as (H1 & H2 & H3 & H4 & H5). split_and!; auto. apply Hf; [done|].
    destruct pc as [[|c]|code acc|rc d]; cbn [reader_action] in Ea; [injection Ea as <-; cbn; tauto| |done|done].
    rewrite H1, S3, S6 in Ea. injection Ea as <-. cbn. tauto.
Qed.

Lemma pinv_reach r vs nm nr s : slot_room r -> resp_rc o r = 0 -> Forall (fun v => length v = n) vs ->
  preach r vs nm nr s -> pinv s.
Proof.
  intros Hroom Hrc Hv H. unfold preach in H. apply rtc_ind_r with (P := pinv) in H; [done| |].
  - assert (forall i v pc, writers (pstart r vs nm nr) !! i = Some (v, pc) -> pc = WrCheck /\ length v = n) as Hw.
    { intros i v pc E. cbn in E. rewrite list_lookup_fmap in E. apply fmap_Some in E as (u & Eu & E). injection E as -> ->.
      split; [done|]. rewrite Forall_lookup in Hv. by eapply Hv. }
    split; [split; [done|]; intros i v pc E; by apply (Hw i v pc)|]. exists PEmpty. cbn [phase_ok pstart shared readers]. split; [done|].
    split; [intros i v pc E; destruct (Hw i v pc E) as [-> _]; done|]. split.
    + intros Hin. apply list_elem_of_lookup in Hin as [i E]. cbn in E. apply lookup_replicate in E as [E _]. done.
    + apply Forall_replicate. done.
  - intros s1 s2 _ Hst Hi. destruct Hst.
    + by eapply pinv_writer.
    + by eapply pinv_marker.
    + by eapply pinv_reader.
Qed.

Lemma answers_kept s s' : pstep s s' -> (fst <$> writers s') = (fst <$> writers s).
Proof.
  intros [s1 i v pc r' pc' E Ea|s1 i pc r' pc' E Ea|s1 i pc pc' E Ea]; [|done|done]. cbn [writers].
  rewrite list_fmap_insert. apply list_insert_id. rewrite list_lookup_fmap, E. done.
Qed.
Lemma answers_reach r vs nm nr s : preach r vs nm nr s -> (fst <$> writers s) = vs.
Proof.
  intros H. unfold preach in H. apply rtc_ind_r with (P := fun s => (fst <$> writers s) = vs) in H; [done| |].
  - cbn. rewrite <- list_fmap_compose. clear. induction vs as [|v vs IH]; [done|]. cbn. by rewrite IH.
  - intros s1 s2 _ Hst <-. by apply answers_kept.
Qed.

(** (C11) A response slot is decided once. For any number of workers that answer it, of
    callers that time out and of readers, and for every interleaving of their
    accesses down to single bytes: a reader gets either no data, or exactly the whole
    answer of a worker that was told READY; at most one worker is told so; and when a
    caller has marked the slot timed out, no worker is told READY and no reader gets
    data, then or later. *)
Theorem slot_decided_once r vs nm nr s :
  slot_room r -> resp_rc o r = 0 -> Forall (fun v => length v = n) vs -> preach r vs nm nr s ->
  (forall i rc d, readers s !! i = Some (RdDone rc d) ->
     (d = None /\ (rc = - ETIMEDOUT \/ rc = - ERPCWAITIMEDOUT)) \/
     (rc = 0 /\ exists j v, d = Some v /\ vs !! j = Some v /\ writers s !! j = Some (v, WrDone READY))) /\
  (forall j k v u, writers s !! j = Some (v, WrDone READY) -> writers s !! k = Some (u, WrDone READY) -> j = k) /\
  (forall m, markers s !! m = Some (MkDone true) ->
     (forall j v, writers s !! j <> Some (v, WrDone READY)) /\
     (forall i rc d, readers s !! i = Some (RdDone rc d) -> d = None)).
Proof.
  intros Hroom Hrc Hv H. destruct (pinv_reach r vs nm nr s Hroom Hrc Hv H) as [_ [ph Hp]].
  pose proof (answers_reach r vs nm nr s H) as Hvs.
  assert (forall v, ~ outsider (WrDone v) \/ v <> READY) as Hnot.
  { intros v. destruct (decide (v = READY)) as [->|]; [left|by right]. vm_compute. intuition congruence. }
  assert (~ outsider (WrDone READY)) as HnR by (destruct (Hnot READY); done).
  assert (forall j v, writers s !! j = Some (v, WrDone READY) -> exists u, ph = PReady j u) as Hready.
  { intros j v E. destruct ph as [|i u k|i u|i]; cbn [phase_ok] in Hp.
    - destruct Hp as (_ & Hw & _). by apply Hw in E.
    - destruct Hp as (_ & Hj & _ & _ & Hw & _). destruct (decide (j = i)) as [->|Hne]; [congruence|]. by destruct (HnR (Hw _ _ _ E Hne)).
    - destruct Hp as (_ & Hj & _ & Hw & _). destruct (decide (j = i)) as [->|Hne]; [by eexists|]. by destruct (HnR (Hw _ _ _ E Hne)).
    - destruct Hp as (_ & Hw & _). by apply Hw in E. }
  assert (forall P : rd_pc -> Prop, Forall P (readers s) -> forall i pc, readers s !! i = Some pc -> P pc) as Hfa.
  { intros P HF i pc E. rewrite Forall_lookup in HF. by eapply HF. }
  split; [|split].
  - intros i rc d E. destruct ph as [|j u k|j u|j]; cbn [phase_ok] in Hp.
    + destruct Hp as (_ & _ & _ & Hr). destruct (Hfa _ Hr _ _ E) as [-> ->]. left. tauto.
    + destruct Hp as (_ & _ & _ & _ & _ & _ & Hr). destruct (Hfa _ Hr _ _ E) as [-> ->]. left. tauto.
    + destruct Hp as (_ & Hj & _ & _ & _ & Hr). destruct (Hfa _ Hr _ _ E) as [[-> ->]|[-> ->]]; [left; tauto|right].
      split; [done|]. exists j, u. split; [done|]. split; [|done]. rewrite <- Hvs, list_lookup_fmap, Hj. done.
    + destruct Hp as (_ & _ & _ & _ & Hr). destruct (Hfa _ Hr _ _ E) as [[-> | ->] ->]; left; tauto.
  - intros j k v u Ej Ek. destruct (Hready j v Ej) as [w1 ->]. destruct (Hready k u Ek) as [w2 E]. congruence.
  - intros m Em. apply list_elem_of_lookup_2 in Em. destruct ph as [|j u k|j u|j]; cbn [phase_ok] in Hp.
    + destruct Hp as (_ & _ & Hm & _). done.
    + destruct Hp as (_ & _ & _ & _ & _ & Hm & _). done.
    + destruct Hp as (_ & _ & _ & _ & Hm & _). done.
    + destruct Hp as (_ & Hw & _ & _ & Hr). split; [intros i v E; by apply Hw in E|].
      intros i rc d E. by destruct (Hfa _ Hr _ _ E) as [_ ->].
Qed.

(** ** A scheduler, to run examples *)

Inductive pick := PickW (i : nat) | PickM (i : nat) | PickR (i : nat).
Definition sched_step (s : pstate) (p : pick) : option pstate :=
  match p with
  | PickW i =>
      match writers s !! i with
      | Some (v, pc) =>
          match writer_action (shared s) v pc with
          | Some (r', pc') => Some (PState r' (<[i := (v, pc')]> (writers s)) (markers s) (readers s))
          | None => None
          end
      | None => None
      end
  | PickM i =>
      match markers s !! i with
      | Some pc =>
          match marker_action (shared s) pc with
          | Some (r', pc') => Some (PState r' (writers s) (<[i := pc']> (markers s)) (readers s))
          | None => None
          end
      | None => None
      end
  | PickR i =>
      match readers s !! i with
      | Some pc =>
          match reader_action (shared s) pc with
          | Some pc' => Some (PState (shared s) (writers s) (markers s) (<[i := pc']> (readers s)))
          | None => None
          end
      | None => None
      end
  end.
Fixpoint sched (l : list pick) (s : pstate) : option pstate :=
  match l with [] => Some s | p :: l => match sched_step s p with Some s' => sched l s' | None => None end end.
Lemma sched_sound l : forall s s', sched l s = Some s' -> rtc pstep s s'.
Proof.
  induction l as [|p l IH]; intros s s' E; cbn [sched] in E; [injection E as <-; apply rtc_refl|].
  destruct (sched_step s p) as [s1|] eqn:Es; [|done]. eapply rtc_l; [|by apply IH].
  destruct p as [i|i|i]; cbn [sched_step] in Es; repeat case_match; try done; injection Es as <-.
  - by eapply step_writer.
  - by eapply step_marker.
  - by eapply step_reader.
Qed.
End protocol.

(** Slot 1 of the demonstration request: the answer is copied while a caller times out
    and a reader polls; the reader gets the whole answer. *)
Definition demo_schedule : list pick :=
  [PickW 0; PickR 0; PickW 0; PickM 0; PickW 0; PickR 0; PickW 0; PickW 0; PickW 0; PickW 0;
   PickR 0; PickR 0; PickR 0; PickR 0; PickR 0; PickR 0].
Definition demo_run : pstate :=
  default (pstart demo_request [] 0 0) (sched 32 4 (Some (control demo_request)) demo_schedule (pstart demo_request [[1; 2; 3; 4]] 1 1)).
Lemma slot_decided_once_witness :
  readers demo_run !! 0%nat = Some (RdDone 0 (Some [1; 2; 3; 4])) /\
  ((0 = 0 /\ exists j v, Some [1; 2; 3; 4] = Some v /\ [[1; 2; 3; 4]] !! j = Some v /\
      writers demo_run !! j = Some (v, WrDone READY)) \/ Some [1; 2; 3; 4] = None).
Proof.
  assert (readers demo_run !! 0%nat = Some (RdDone 0 (Some [1; 2; 3; 4]))) as E by (vm_compute; reflexivity).
  split; [exact E|].
  destruct (slot_decided_once 32 4 (Some (control demo_request)) demo_request [[1; 2; 3; 4]] 1 1 demo_run) as (H & _).
  - split; [split|]; vm_compute; congruence.
  - vm_compute. reflexivity.
  - repeat constructor.
  - apply (sched_sound 32 4 (Some (control demo_request)) demo_schedule). vm_compute. reflexivity.
  - destruct (H 0%nat 0 (Some [1; 2; 3; 4]) E) as [[Hn _]|Hy]; [right; exact Hn|left; exact Hy].
Defined.
