(* ===== verification/FixBlock.v ===== *)
(** The allocator of fixed-size blocks ([libsrpc_fixblockalloc.c]): a chain of pools,
    each with a ring of the indices of its free blocks; the server keeps its
    connection records in it. *)
From S2P Require Import Prelude Machine Errno.

Definition EBADF := 9.
Definition EAFNOSUPPORT := 97.
Definition ENOSPC := 28.

(** ** State *)

(** [srpc_pool_fba_t] without its link; [fifo] are its [blk_nums + 1] cells. *)
Record fba := Fba {
  pool_size : Z;
  offset : Z;
  blk_size : Z;
  blk_nums : Z;
  alloc_i : Z;
  free_i : Z;
  fifo : list Z }.
Definition sizeof_fba := 48.
(** The pools from one on, in the order of [nextpool], with their addresses. *)
Abbreviation chain := (list (Z * fba)).

Definition set_alloc (v : Z) (p : fba) : fba := Fba (pool_size p) (offset p) (blk_size p) (blk_nums p) v (free_i p) (fifo p).
Definition set_free (v : Z) (cell blk : Z) (p : fba) : fba :=
  Fba (pool_size p) (offset p) (blk_size p) (blk_nums p) (alloc_i p) v (<[Z.to_nat cell := blk]> (fifo p)).

(** ** Operations *)

Definition srpc_pool_create (elm_num elm_size : Z) : Z * fba :=
  let blk := u64 (u64 (elm_size + 15) / 16 * 16) in
  let fifo_size := u64 (u64 (u64 (u64 (elm_num + 1) * 4) + 63) / 64 * 64) in
  let size := u64 (u64 (blk * elm_num) + sizeof_fba + fifo_size) in
  (size, Fba size fifo_size blk elm_num 0 (u32 elm_num) (seqZ 0 elm_num ++ [0])).

(** The index after [i] in the ring. *)
Definition next_index (p : fba) (i : Z) : Z := if blk_nums p + 1 <=? u32 (i + 1) then 0 else u32 (i + 1).
Definition unusable (p : fba) : bool := (pool_size p =? 0) || (offset p =? 0) || (blk_size p =? 0).
Definition block_at (a : Z) (p : fba) (blk : Z) : Z := a + offset p + blk * blk_size p.

Section alloc.
(** The C library's [malloc]: the address of a block of the given size, or NULL,
    when the blocks of a chain are in use. *)
Context (malloc : chain -> Z -> Z).

Definition new_pool (all : chain) (elm_num elm_size : Z) : chain :=
  let '(size, p) := srpc_pool_create elm_num elm_size in
  let a := malloc all size in
  if a =? NULL then [] else [(a, p)].

(** [srpc_pool_alloc]; [all] is the whole chain, [None]: out of fuel. *)
Fixpoint alloc_from (fuel : nat) (all c : chain) : option (Z * chain) :=
  match c with
  | [] => Some (NULL, [])
  | (a, p) :: rest =>
      if unusable p then Some (NULL, c)
      else if alloc_i p =? free_i p then
        match fuel with
        | O => None
        | S fuel =>
            let fresh := match rest with [] => new_pool all (blk_nums p) (blk_size p) | _ => [] end in
            match alloc_from fuel (all ++ fresh) (rest ++ fresh) with
            | Some (ptr, rest) => Some (ptr, (a, p) :: rest)
            | None => None
            end
        end
      else
        let blk := default 0 (fifo p !! Z.to_nat (alloc_i p)) in
        Some (block_at a p blk, (a, set_alloc (next_index p (alloc_i p)) p) :: rest)
  end.
Definition srpc_pool_alloc (c : chain) : option (Z * chain) := alloc_from (S (length c)) c c.
End alloc.

(** [srpc_pool_free] *)
Fixpoint free_in (c : chain) (ptr : Z) : Z * chain :=
  match c with
  | [] => (- EAFNOSUPPORT, [])
  | (a, p) :: rest =>
      if unusable p then (- EAFNOSUPPORT, c)
      else if (a <? ptr) && (ptr <? a + pool_size p) then
        let blk := u32 (u64 (ptr - a - offset p) / blk_size p) in
        if blk_nums p <=? blk then (- EBADF, c)
        else
          let ni := next_index p (free_i p) in
          if ni =? alloc_i p then (- ENOSPC, c)
          else (0, (a, set_free ni (free_i p) blk p) :: rest)
      else let '(rc, rest) := free_in rest ptr in (rc, (a, p) :: rest)
  end.
Definition srpc_pool_free (c : chain) (ptr : Z) : Z * chain :=
  match c with
  | [] => (- EINVAL, [])
  | _ => if ptr =? NULL then (- EINVAL, c) else free_in c ptr
  end.

(** [srpc_pool_destroy]: the result and what is passed to [free], in order. *)
Fixpoint srpc_pool_destroy (c : chain) : Z * list Z :=
  match c with
  | [] => (0, [])
  | (a, _) :: rest => let '(rc, freed) := srpc_pool_destroy rest in (rc, a :: freed)
  end.
(** The pools [FBA_FOREACH_POOL] visits, and the addresses [FBA_FOREACH_BLOCK] visits. *)
Definition fba_foreach_pool (c : chain) : chain := List.tl c.
Definition fba_foreach_block (a : Z) (p : fba) : list Z := block_at a p <$> seqZ 0 (blk_nums p).

(** ** The ring of free blocks *)

Definition ring_len (p : fba) : Z := (free_i p - alloc_i p) mod (blk_nums p + 1).
Definition ring_pos (p : fba) (i : nat) : nat := Z.to_nat ((alloc_i p + Z.of_nat i) mod (blk_nums p + 1)).
Definition ring (p : fba) : list Z := (fun i => default 0 (fifo p !! ring_pos p i)) <$> seq 0 (Z.to_nat (ring_len p)).

Record pool_ok (p : fba) : Prop := PoolOk {
  po_nums : 1 <= blk_nums p < 2 ^ 31;
  po_blk : 0 < blk_size p < 2 ^ 31 /\ blk_size p mod 16 = 0;
  po_off : 0 < offset p;
  po_size : pool_size p = blk_size p * blk_nums p + sizeof_fba + offset p;
  po_fifo : length (fifo p) = Z.to_nat (blk_nums p + 1);
  po_alloc : 0 <= alloc_i p <= blk_nums p;
  po_free : 0 <= free_i p <= blk_nums p;
  po_nodup : NoDup (ring p);
  po_ring : Forall (fun b => 0 <= b < blk_nums p) (ring p) }.

(** Address ranges of two pools do not meet. *)
Definition apart (x y : Z * fba) : Prop := x.1 + pool_size x.2 <= y.1 \/ y.1 + pool_size y.2 <= x.1.
Record chain_ok (c : chain) : Prop := ChainOk {
  co_pools : Forall (fun x => pool_ok x.2 /\ 0 < x.1 /\ x.1 + pool_size x.2 < 2 ^ 64) c;
  co_apart : forall i j x y, c !! i = Some x -> c !! j = Some y -> i <> j -> apart x y }.

(** The blocks handed out: those whose index is not in the ring of their pool. *)
Definition live (c : chain) (ptr : Z) : Prop := exists i a p b, c !! i = Some (a, p) /\ 0 <= b < blk_nums p /\
  (b ∉ ring p) /\ ptr = block_at a p b.

Lemma next_index_spec p i : 1 <= blk_nums p < 2 ^ 31 -> 0 <= i <= blk_nums p ->
  next_index p i = (i + 1) mod (blk_nums p + 1) /\ 0 <= next_index p i <= blk_nums p.
Proof.
  intros Hn Hi. unfold next_index, u32. rewrite Z.mod_small by lia. destruct (Z.leb_spec (blk_nums p + 1) (i + 1)).
  - assert (i = blk_nums p) as -> by lia. rewrite Z.mod_same by lia. lia.
  - rewrite Z.mod_small by lia. lia.
Qed.

Lemma ring_len_bound p : pool_ok p -> 0 <= ring_len p < blk_nums p + 1.
Proof. intros [H _ _ _ _ _ _ _ _]. apply Z.mod_pos_bound. lia. Qed.
Lemma ring_len_zero p : pool_ok p -> ring_len p = 0 <-> alloc_i p = free_i p.
Proof.
  intros [H _ _ _ _ Ha Hf _ _]. unfold ring_len. split.
  - intros E. destruct (Z.le_gt_cases (alloc_i p) (free_i p)).
    + rewrite Z.mod_small in E by lia. lia.
    + rewrite <- (Z.mod_add _ 1), Z.mod_small in E by lia. lia.
  - intros ->. by rewrite Z.sub_diag.
Qed.

(** Taking the oldest entry of a ring that is not empty. *)
Lemma ring_take p : pool_ok p -> alloc_i p <> free_i p ->
  ring p = default 0 (fifo p !! Z.to_nat (alloc_i p)) :: ring (set_alloc (next_index p (alloc_i p)) p).
Proof.
  intros Hok Hne. pose proof (ring_len_bound p Hok) as Hb. pose proof (ring_len_zero p Hok) as Hz.
  destruct Hok as [H _ _ _ Hl Ha Hf _ _]. destruct (next_index_spec p (alloc_i p) H Ha) as [En _].
  assert (ring_len p = ring_len (set_alloc (next_index p (alloc_i p)) p) + 1) as El.
  { unfold ring_len in *. cbn [blk_nums free_i alloc_i set_alloc]. rewrite En.
    rewrite Zminus_mod_idemp_r. replace (free_i p - (alloc_i p + 1)) with (free_i p - alloc_i p - 1) by lia.
    rewrite <- (Zminus_mod_idemp_l (free_i p - alloc_i p)). rewrite (Z.mod_small (_ - 1)); [lia|].
    assert ((free_i p - alloc_i p) mod (blk_nums p + 1) <> 0) by (intros E; by apply Hne, Hz). lia. }
  assert (0 <= ring_len (set_alloc (next_index p (alloc_i p)) p)) by (apply Z.mod_pos_bound; cbn; lia).
  unfold ring. rewrite El, Z2Nat.inj_add, Nat.add_1_r by lia. cbn [seq fmap list_fmap]. f_equal.
  - unfold ring_pos. by rewrite Z.add_0_r, Z.mod_small by lia.
  - rewrite <- seq_shift, <- list_fmap_compose. apply list_fmap_ext. intros i k _. cbn [compose fifo set_alloc].
    do 2 f_equal. unfold ring_pos. cbn [alloc_i blk_nums set_alloc]. rewrite En, Zplus_mod_idemp_l. do 2 f_equal. lia.
Qed.

(** Adding an entry to a ring that is not full. *)
Lemma ring_put p b : pool_ok p -> next_index p (free_i p) <> alloc_i p ->
  ring (set_free (next_index p (free_i p)) (free_i p) b p) = ring p ++ [b].
Proof.
  intros Hok Hne. pose proof (ring_len_bound p Hok) as Hb.
  destruct Hok as [H _ _ _ Hl Ha Hf _ _]. destruct (next_index_spec p (free_i p) H Hf) as [En Hn].
  set (q := set_free _ _ b p).
  assert (ring_len q = ring_len p + 1) as El.
  { unfold ring_len in *. cbn [q blk_nums free_i alloc_i set_free]. rewrite En, Zminus_mod_idemp_l.
    replace (free_i p + 1 - alloc_i p) with (free_i p - alloc_i p + 1) by lia.
    rewrite <- (Zplus_mod_idemp_l (free_i p - alloc_i p)). rewrite Z.mod_small; [done|].
    split; [lia|]. destruct (Z.eq_dec ((free_i p - alloc_i p) mod (blk_nums p + 1)) (blk_nums p)) as [E|]; [|lia].
    exfalso. apply Hne. rewrite En.
    assert ((free_i p + 1 - alloc_i p) mod (blk_nums p + 1) = 0) as E0.
    { replace (free_i p + 1 - alloc_i p) with (free_i p - alloc_i p + 1) by lia.
      rewrite <- Zplus_mod_idemp_l, E. apply Z.mod_same. lia. }
    replace (free_i p + 1) with (alloc_i p + (free_i p + 1 - alloc_i p)) by lia.
    rewrite <- Zplus_mod_idemp_r, E0, Z.add_0_r. apply Z.mod_small. lia. }
  assert (forall i, Z.of_nat i <= ring_len p -> ring_pos q i = Z.to_nat (free_i p) <-> Z.of_nat i = ring_len p) as Hpos.
  { intros i Hi. unfold ring_pos, ring_len in *. cbn [q blk_nums alloc_i set_free].
    pose proof (Z.mod_pos_bound (alloc_i p + Z.of_nat i) (blk_nums p + 1) ltac:(lia)) as Hm. split.
    - intros E. apply Z2Nat.inj in E; [|lia..]. rewrite <- E, Zminus_mod_idemp_l.
      replace (alloc_i p + Z.of_nat i - alloc_i p) with (Z.of_nat i) by lia. rewrite Z.mod_small; lia.
    - intros ->. f_equal. rewrite Zplus_mod_idemp_r. replace (alloc_i p + (free_i p - alloc_i p)) with (free_i p) by lia.
      apply Z.mod_small. lia. }
  unfold ring. rewrite El, Z2Nat.inj_add, Nat.add_1_r, seq_S, fmap_app by lia. cbn [fmap list_fmap]. f_equal.
  - apply list_fmap_ext. intros i k Ek. apply lookup_seq in Ek as [-> Hk]. cbn [plus]. change (fifo q) with (<[Z.to_nat (free_i p) := b]> (fifo p)).
    rewrite list_lookup_insert_ne; [done|]. intros E. symmetry in E. apply Hpos in E; lia.
  - f_equal. change (fifo q) with (<[Z.to_nat (free_i p) := b]> (fifo p)).
    rewrite (proj2 (Hpos (0 + Z.to_nat (ring_len p))%nat ltac:(lia)) ltac:(lia)).
    rewrite list_lookup_insert_eq; [done|]. rewrite Hl. lia.
Qed.

(** ** One pool *)

Lemma take_ok p : pool_ok p -> alloc_i p <> free_i p ->
  let b := default 0 (fifo p !! Z.to_nat (alloc_i p)) in
  let q := set_alloc (next_index p (alloc_i p)) p in
  pool_ok q /\ 0 <= b < blk_nums p /\ ring p = b :: ring q /\ b ∉ ring q.
Proof.
  intros Hok Hne b q. pose proof (ring_take p Hok Hne) as Er. fold b q in Er.
  destruct Hok as [H1 H2 H3 H4 H5 H6 H7 H8 H9]. rewrite Er in H8, H9. apply NoDup_cons in H8 as [Hb H8].
  apply Forall_cons in H9 as [Hr H9]. split_and!; try done; try lia. split; try done.
  by apply (next_index_spec p (alloc_i p) H1 H6).
Qed.

Lemma put_ok p b : pool_ok p -> 0 <= b < blk_nums p -> b ∉ ring p ->
  let q := set_free (next_index p (free_i p)) (free_i p) b p in
  next_index p (free_i p) <> alloc_i p /\ pool_ok q /\ ring q = ring p ++ [b].
Proof.
  intros Hok Hb Hni q. pose proof (ring_put p b Hok) as Er. fold q in Er.
  pose proof Hok as [H1 H2 H3 H4 H5 H6 H7 H8 H9].
  assert (next_index p (free_i p) <> alloc_i p) as Hne.
  { intros E. destruct (next_index_spec p (free_i p) H1 H7) as [En _].
    assert (b :: ring p ⊆+ seqZ 0 (blk_nums p)) as Hsub.
    { apply NoDup_submseteq; [by constructor|]. intros x Hx. apply elem_of_seqZ.
      apply elem_of_cons in Hx as [->|Hx]; [lia|]. rewrite Forall_forall in H9. apply H9 in Hx. lia. }
    apply submseteq_length in Hsub. cbn [length] in Hsub. rewrite length_seqZ in Hsub. unfold ring in Hsub.
    rewrite length_fmap, length_seq in Hsub.
    assert (ring_len p = blk_nums p); [|lia]. unfold ring_len. rewrite <- E, En.
    rewrite Zminus_mod_idemp_r. replace (free_i p - (free_i p + 1)) with (-1 + 0 * 1) by lia.
    rewrite <- (Z.mod_add _ 1), Z.mod_small by lia. lia. }
  split; [done|]. specialize (Er Hne). split; [|done]. split; cbn [q blk_nums blk_size offset pool_size fifo alloc_i free_i set_free]; try done.
  - by rewrite length_insert.
  - by apply (next_index_spec p (free_i p) H1 H7).
  - fold q. rewrite Er. apply NoDup_app. split; [done|]. split; [|apply NoDup_singleton].
    intros x Hx Hx'. apply list_elem_of_singleton in Hx' as ->. done.
  - fold q. rewrite Er. apply Forall_app. split; [done|]. by constructor.
Qed.

(** The blocks of a pool lie in it and are told apart by their address. *)
Lemma block_in_pool a p b : pool_ok p -> 0 <= b < blk_nums p ->
  a < block_at a p b /\ block_at a p b + blk_size p <= a + pool_size p /\
  (block_at a p b - a - offset p) / blk_size p = b.
Proof.
  intros [H1 [H2 H2'] H3 H4 _ _ _ _ _] Hb. unfold block_at, sizeof_fba in *. split_and!; [nia|nia|].
  replace (a + offset p + b * blk_size p - a - offset p) with (b * blk_size p) by lia. apply Z.div_mul. lia.
Qed.

Lemma create_ok n s : 1 <= n < 2 ^ 31 -> 0 < s < 2 ^ 31 -> s mod 16 = 0 ->
  let '(size, p) := srpc_pool_create n s in
  pool_ok p /\ size = pool_size p /\ blk_size p = s /\ ring p = seqZ 0 n /\ blk_nums p = n.
Proof.
  intros Hn Hs Hm. unfold srpc_pool_create.
  assert (s = 16 * (s / 16)) as Es by (rewrite (Z.div_mod s 16) at 1 by lia; lia).
  assert (u64 (u64 (s + 15) / 16 * 16) = s) as ->.
  { rewrite (u64_small (s + 15)) by lia. assert ((s + 15) / 16 = s / 16) as ->.
    { rewrite Es at 1. rewrite Z.mul_comm, Z.div_add_l by lia. rewrite (Z.div_small 15) by lia. lia. }
    rewrite u64_small by lia. lia. }
  set (f := u64 (u64 (u64 (u64 (n + 1) * 4) + 63) / 64 * 64)).
  assert (0 < f < 2 ^ 35) as Hf.
  { unfold f. rewrite (u64_small (n + 1)) by lia. rewrite (u64_small ((n + 1) * 4)) by lia. rewrite (u64_small (_ + 63)) by lia.
    pose proof (Z.div_mod ((n + 1) * 4 + 63) 64 ltac:(lia)). pose proof (Z.mod_pos_bound ((n + 1) * 4 + 63) 64 ltac:(lia)).
    rewrite u64_small by lia. lia. }
  assert (u64 (s * n) = s * n) as -> by (apply u64_small; nia).
  assert (u64 (s * n + sizeof_fba + f) = s * n + sizeof_fba + f) as -> by (apply u64_small; unfold sizeof_fba; nia).
  assert (u32 n = n) as -> by (unfold u32; apply Z.mod_small; lia).
  set (p := Fba _ f s n 0 n _).
  assert (ring p = seqZ 0 n) as Er.
  { unfold ring, ring_len. cbn [p blk_nums free_i alloc_i]. rewrite Z.sub_0_r, Z.mod_small by lia.
    apply list_eq. intros i. rewrite list_lookup_fmap. destruct (decide (i < Z.to_nat n)%nat) as [Hi|Hi].
    - rewrite lookup_seq_lt, lookup_seqZ_lt by lia. cbn. f_equal. unfold ring_pos. cbn [p alloc_i blk_nums fifo].
      rewrite Z.add_0_l, Z.mod_small, Nat2Z.id by lia. rewrite lookup_app_l by (rewrite length_seqZ; lia).
      rewrite lookup_seqZ_lt by lia. cbn. lia.
    - rewrite !lookup_ge_None_2; [done|rewrite length_seqZ; lia|rewrite length_seq; lia]. }
  split; [|done]. split; cbn [p blk_nums blk_size offset pool_size fifo alloc_i free_i]; try lia; try done.
  - rewrite length_app, length_seqZ. cbn. lia.
  - fold p. rewrite Er. apply NoDup_seqZ.
  - fold p. rewrite Er. apply Forall_forall. intros b Hb. apply elem_of_seqZ in Hb. lia.
Qed.

(** ** The chain *)

Lemma insert_lookup_inv {A} (l : list A) i j x y : <[i := x]> l !! j = Some y -> (j = i /\ y = x) \/ (j <> i /\ l !! j = Some y).
Proof.
  destruct (decide (j = i)) as [->|Hne].
  - intros E. left. split; [done|]. rewrite list_lookup_insert_eq in E; [congruence|].
    apply lookup_lt_Some in E. by rewrite length_insert in E.
  - rewrite list_lookup_insert_ne by done. by right.
Qed.

Lemma pools_lookup c i a p : chain_ok c -> c !! i = Some (a, p) -> pool_ok p /\ 0 < a /\ a + pool_size p < 2 ^ 64.
Proof. intros [H _] E. rewrite Forall_lookup in H. by apply (H i (a, p)). Qed.

(** Replacing a pool by one with the same extent. *)
Lemma chain_update c i a p q : chain_ok c -> c !! i = Some (a, p) -> pool_ok q -> pool_size q = pool_size p ->
  chain_ok (<[i := (a, q)]> c).
Proof.
  intros Hc E Hq Es. pose proof (pools_lookup c i a p Hc E) as (_ & Ha & Hs). destruct Hc as [H1 H2]. split.
  - apply Forall_insert; [done|]. cbn. by rewrite Es.
  - intros j k x y Ej Ek Hjk.
    apply insert_lookup_inv in Ej as [[-> ->]|[Hj Ej]]; apply insert_lookup_inv in Ek as [[-> ->]|[Hk Ek]]; [done| | |eauto];
      unfold apart; cbn [fst snd]; rewrite Es; [apply (H2 i k _ _ E Ek Hjk)|apply (H2 j i _ _ Ej E Hjk)].
Qed.

(** The address tells the pool and the block. *)
Lemma block_unique c i j a p b a' p' b' : chain_ok c -> c !! i = Some (a, p) -> c !! j = Some (a', p') ->
  0 <= b < blk_nums p -> 0 <= b' < blk_nums p' -> block_at a p b = block_at a' p' b' -> i = j /\ b = b'.
Proof.
  intros Hc E E' Hb Hb' Eq. destruct (pools_lookup c i a p Hc E) as (Hp & _). destruct (pools_lookup c j a' p' Hc E') as (Hp' & _).
  destruct (block_in_pool a p b Hp Hb) as (I1 & I2 & I3). destruct (block_in_pool a' p' b' Hp' Hb') as (J1 & J2 & J3).
  pose proof (po_blk p Hp) as [Hs _]. pose proof (po_blk p' Hp') as [Hs' _].
  destruct (decide (i = j)) as [->|Hne].
  - rewrite E in E'. injection E' as <- <-. split; [done|]. by rewrite Eq, J3 in I3.
  - exfalso. destruct Hc as [_ Hap]. specialize (Hap i j _ _ E E' Hne). unfold apart in Hap. cbn in Hap. lia.
Qed.

(** The handed-out blocks after one pool changed its ring. *)
Lemma live_update c i a p q ptr : chain_ok c -> c !! i = Some (a, p) -> blk_nums q = blk_nums p -> offset q = offset p ->
  blk_size q = blk_size p ->
  live (<[i := (a, q)]> c) ptr <->
    (exists b, 0 <= b < blk_nums p /\ (b ∉ ring q) /\ ptr = block_at a p b) \/
    (live c ptr /\ ~ exists b, 0 <= b < blk_nums p /\ ptr = block_at a p b).
Proof.
  intros Hc E En Eo Eb. split.
  - intros (j & a' & p' & b & Ej & Hb & Hr & ->). apply insert_lookup_inv in Ej as [[-> Ej]|[Hj Ej]].
    + injection Ej as -> ->. left. exists b. unfold block_at. rewrite <- En, <- Eo, <- Eb. done.
    + right. split; [by exists j, a', p', b|]. intros (b' & Hb' & Eq).
      by destruct (block_unique c j i a' p' b a p b' Hc Ej E Hb Hb' Eq).
  - intros [(b & Hb & Hr & ->)|[(j & a' & p' & b & Ej & Hb & Hr & ->) Hn]].
    + exists i, a, q, b. split; [by eapply list_lookup_insert_eq, lookup_lt_Some|]. unfold block_at. by rewrite En, Eo, Eb.
    + assert (j <> i) as Hj. { intros ->. apply Hn. rewrite E in Ej. injection Ej as <- <-. by exists b. }
      exists j, a', p', b. by rewrite list_lookup_insert_ne by done.
Qed.

Section proofs.
Context (malloc : chain -> Z -> Z).
(** What [malloc] promises: NULL, or a block that meets no block in use. *)
Definition malloc_ok : Prop := forall c size, malloc c size = NULL \/
  (0 < malloc c size /\ malloc c size + size < 2 ^ 64 /\
   forall a p, (a, p) ∈ c -> a + pool_size p <= malloc c size \/ malloc c size + size <= a).
Context (Hmalloc : malloc_ok).

(** The chain extended by the pool that the allocation may create. *)
Definition extended (all c c1 : chain) : Prop := c1 = c \/
  exists a p a' q, last c = Some (a, p) /\ new_pool malloc all (blk_nums p) (blk_size p) = [(a', q)] /\ c1 = c ++ [(a', q)].

Lemma alloc_from_run fuel : forall all c, (length c < fuel)%nat -> Forall (fun x => pool_ok x.2) c ->
  exists ptr c', alloc_from malloc fuel all c = Some (ptr, c') /\
    ((ptr = NULL /\ c' = c /\ Forall (fun x => alloc_i x.2 = free_i x.2) c) \/
     (exists c1 i a p, extended all c c1 /\ c1 !! i = Some (a, p) /\ pool_ok p /\ alloc_i p <> free_i p /\
        c' = <[i := (a, set_alloc (next_index p (alloc_i p)) p)]> c1 /\
        ptr = block_at a p (default 0 (fifo p !! Z.to_nat (alloc_i p))))).
Proof.
  induction fuel as [|fuel IH]; intros all c Hf Hok; [lia|].
  destruct c as [|[a p] rest]; [exists NULL, []; split; [done|]; by left|].
  apply Forall_cons in Hok as [Hp Hrest]. cbn [snd] in Hp. cbn [length] in Hf. cbn [alloc_from].
  assert (unusable p = false) as ->.
  { pose proof Hp as [H1 [H2 _] H3 H4 _ _ _ _ _]. unfold unusable, sizeof_fba in *.
    rewrite !(proj2 (Z.eqb_neq _ _)) by nia. done. }
  destruct (Z.eqb_spec (alloc_i p) (free_i p)) as [Ee|Hne].
  2: { do 2 eexists. split; [done|]. right. exists ((a, p) :: rest), 0%nat, a, p. split; [by left|]. done. }
  destruct rest as [|y rest'].
  - set (fresh := new_pool malloc all (blk_nums p) (blk_size p)).
    assert (fresh = [] \/ exists a' q, fresh = [(a', q)] /\ pool_ok q /\ alloc_i q <> free_i q) as [Ef|(a' & q & Ef & Hq & Hqn)].
    { unfold fresh, new_pool. pose proof Hp as [H1 [H2 H2'] _ _ _ _ _ _ _].
      pose proof (create_ok (blk_nums p) (blk_size p) H1 H2 H2') as Hc.
      destruct (srpc_pool_create (blk_nums p) (blk_size p)) as [size q] eqn:Ecr. case_bool; [by left|right].
      eexists _, _. split; [done|]. destruct Hc as (Hq & _ & _ & Hring & Hn). split; [done|].
      intros E. apply (ring_len_zero q Hq) in E. unfold ring in Hring. rewrite E in Hring. cbn in Hring.
      assert (length (seqZ 0 (blk_nums p)) = 0%nat) as Hl by (by rewrite <- Hring). rewrite length_seqZ in Hl. lia. }
    + rewrite Ef. destruct fuel as [|fuel]; [cbn in Hf; lia|]. exists NULL, [(a, p)]. split; [done|]. left.
      split; [done|]. split; [done|]. by constructor.
    + rewrite Ef. destruct fuel as [|fuel]; [cbn in Hf; lia|]. cbn [app alloc_from].
      assert (unusable q = false) as ->.
      { pose proof Hq as [H1 [H2 _] H3 H4 _ _ _ _ _]. unfold unusable, sizeof_fba in *.
        rewrite !(proj2 (Z.eqb_neq _ _)) by nia. done. }
      rewrite (proj2 (Z.eqb_neq _ _) Hqn). do 2 eexists. split; [done|]. right.
      exists [(a, p); (a', q)], 1%nat, a', q. split; [right; by exists a, p, a', q|]. done.
  - rewrite app_nil_r, app_nil_r. destruct (IH all (y :: rest') ltac:(lia) Hrest) as (ptr & c' & E & H).
    rewrite E. do 2 eexists. split; [done|]. destruct H as [(-> & -> & Hall)|(c1 & i & a1 & p1 & Hext & E1 & Hp1 & Hn1 & -> & ->)].
    + left. split; [done|]. split; [done|]. by constructor.
    + right. exists ((a, p) :: c1), (S i), a1, p1. split; [|done]. destruct Hext as [->|(a2 & p2 & a' & q & El & En & ->)]; [by left|].
      right. exists a2, p2, a', q. done.
Qed.

Lemma extended_ok c c1 : chain_ok c -> extended c c c1 -> chain_ok c1 /\ forall ptr, live c1 ptr <-> live c ptr.
Proof.
  intros Hc [->|(a & p & a' & q & El & En & ->)]; [done|].
  assert (pool_ok p) as Hp.
  { apply last_Some in El as [c0 ->]. destruct Hc as [H _]. apply Forall_app in H as [_ H]. apply Forall_cons in H as [H _]. apply H. }
  unfold new_pool in En. pose proof Hp as [H1 [H2 H2'] _ _ _ _ _ _ _].
  pose proof (create_ok (blk_nums p) (blk_size p) H1 H2 H2') as Hcr.
  destruct (srpc_pool_create (blk_nums p) (blk_size p)) as [size q0]. destruct (malloc c size =? NULL) eqn:Em; [done|]. apply Z.eqb_neq in Em. injection En as <- <-.
  destruct Hcr as (Hq & Hsz & _ & Hring & Hn).
  destruct (Hmalloc c size) as [?|(Hm1 & Hm2 & Hm3)]; [done|]. destruct Hc as [C1 C2].
  assert (forall i x, (c ++ [(malloc c size, q0)]) !! i = Some x -> c !! i = Some x \/ (i = length c /\ x = (malloc c size, q0))) as Hlk.
  { intros i x Ei. apply lookup_app_Some in Ei as [Ei|[Hi Ei]]; [by left|]. right.
    destruct (i - length c)%nat as [|k] eqn:Ek; [injection Ei as <-; split; [lia|done]|done]. }
  split; [split|].
  - apply Forall_app. split; [done|]. constructor; [|done]. cbn. rewrite <- Hsz. done.
  - intros i j x y Ei Ej Hij. apply Hlk in Ei as [Ei|[-> ->]]; apply Hlk in Ej as [Ej|[-> ->]]; [eauto| | |done]; unfold apart; cbn [fst snd].
    + destruct x as [ax px]. apply list_elem_of_lookup_2 in Ei. specialize (Hm3 _ _ Ei). cbn. rewrite <- Hsz. lia.
    + destruct y as [ay py]. apply list_elem_of_lookup_2 in Ej. specialize (Hm3 _ _ Ej). cbn. rewrite <- Hsz. lia.
  - intros ptr. split.
    + intros (i & ax & px & b & Ei & Hb & Hr & ->). apply Hlk in Ei as [Ei|[_ Ei]]; [by exists i, ax, px, b|].
      injection Ei as -> ->. destruct Hr. rewrite Hring. apply elem_of_seqZ. lia.
    + intros (i & ax & px & b & Ei & Hb & Hr & ->). exists i, ax, px, b. split; [by apply lookup_app_l_Some|done].
Qed.

Lemma pool_alloc_run c : chain_ok c ->
  exists ptr c', srpc_pool_alloc malloc c = Some (ptr, c') /\ chain_ok c' /\
    ((ptr = NULL /\ c' = c /\ Forall (fun x => alloc_i x.2 = free_i x.2) c) \/
     (ptr <> NULL /\ ~ live c ptr /\ forall q, live c' q <-> q = ptr \/ live c q)).
Proof.
  intros Hc. assert (Forall (fun x => pool_ok x.2) c) as Hok.
  { destruct Hc as [H _]. eapply Forall_impl; [exact H|]. by intros x []. }
  destruct (alloc_from_run (S (length c)) c c ltac:(lia) Hok) as (ptr & c' & E & H). exists ptr, c'. split; [exact E|].
  destruct H as [(-> & -> & Hall)|(c1 & i & a & p & Hext & E1 & Hp & Hne & -> & ->)]; [split; [done|]; by left|].
  destruct (extended_ok c c1 Hc Hext) as [Hc1 Hl1]. destruct (take_ok p Hp Hne) as (Hq & Hb & Er & Hnb).
  set (b := default 0 (fifo p !! Z.to_nat (alloc_i p))) in *. set (q := set_alloc (next_index p (alloc_i p)) p) in *.
  split; [by eapply chain_update|]. right. destruct (block_in_pool a p b Hp Hb) as (I1 & _).
  destruct (pools_lookup c1 i a p Hc1 E1) as (_ & Ha & _). split; [lia|].
  assert (forall x, live c1 (block_at a p x) -> 0 <= x < blk_nums p -> x ∉ ring p) as Hnotin.
  { intros x (j & a' & p' & b' & Ej & Hb' & Hr & Eq) Hx.
    destruct (block_unique c1 i j a p x a' p' b' Hc1 E1 Ej Hx Hb' Eq) as [-> ->]. rewrite E1 in Ej. by injection Ej as <- <-. }
  split.
  - intros Hl. apply Hl1 in Hl. apply (Hnotin b Hl Hb). rewrite Er. apply list_elem_of_here.
  - intros ptr. rewrite (live_update c1 i a p q ptr Hc1 E1) by done. rewrite <- (Hl1 ptr). split.
    + intros [(x & Hx & Hr & ->)|[Hl _]]; [|by right]. destruct (decide (x = b)) as [->|Hxb]; [by left|right].
      exists i, a, p, x. split; [done|]. split; [done|]. split; [|done]. rewrite Er. intros Hin.
      apply elem_of_cons in Hin as [?|?]; done.
    + intros [->|(j & a' & p' & x & Ej & Hx & Hr & ->)]; [left; by exists b|]. destruct (decide (j = i)) as [->|Hj].
      * rewrite E1 in Ej. injection Ej as <- <-. left. exists x. split; [done|]. split; [|done]. rewrite Er in Hr.
        by apply not_elem_of_cons in Hr as [_ Hr].
      * right. split; [by exists j, a', p', x|]. intros (b' & Hb' & Eq).
        by destruct (block_unique c1 j i a' p' x a p b' Hc1 Ej E1 Hx Hb' Eq).
Qed.
(** [srpc_pool_alloc] always returns: NULL only when no pool has a free block and
    [malloc] fails, with the chain as it was; otherwise a block that was not handed
    out before and overlaps no other, and exactly that block becomes handed out,
    whether it comes from a pool of the chain or from one created for it. *)
Theorem pool_alloc_spec c : chain_ok c ->
  exists ptr c', srpc_pool_alloc malloc c = Some (ptr, c') /\ chain_ok c' /\
    ((ptr = NULL /\ c' = c /\ Forall (fun x => alloc_i x.2 = free_i x.2) c) \/
     (ptr <> NULL /\ ~ live c ptr /\ forall q, live c' q <-> q = ptr \/ live c q)).
Proof. apply pool_alloc_run. Qed.
End proofs.

Lemma free_in_run c : forall i a p b, Forall (fun x => pool_ok x.2) c -> c !! i = Some (a, p) -> 0 <= b < blk_nums p ->
  0 < a -> a + pool_size p < 2 ^ 64 -> b ∉ ring p ->
  (forall j a' p', (j < i)%nat -> c !! j = Some (a', p') -> apart (a', p') (a, p)) ->
  free_in c (block_at a p b) = (0, <[i := (a, set_free (next_index p (free_i p)) (free_i p) b p)]> c).
Proof.
  induction c as [|[a0 p0] c IH]; intros i a p b Hok E Hb Ha Hs Hr Hap; [done|].
  apply Forall_cons in Hok as [Hp0 Hok]. cbn [snd] in Hp0. cbn [free_in].
  assert (unusable p0 = false) as ->.
  { pose proof Hp0 as [H1 [H2 _] H3 H4 _ _ _ _ _]. unfold unusable, sizeof_fba in *.
    rewrite !(proj2 (Z.eqb_neq _ _)) by nia. done. }
  destruct i as [|i].
  - injection E as -> ->. destruct (block_in_pool a p b Hp0 Hb) as (I1 & I2 & I3).
    pose proof Hp0 as [H1 [H2 _] H3 H4 _ _ _ _ _].
    rewrite (proj2 (Z.ltb_lt a _)), (proj2 (Z.ltb_lt _ (a + pool_size p))) by lia. cbn [andb].
    assert (0 <= block_at a p b - a - offset p < 2 ^ 64) as Hrng by (unfold block_at in *; nia).
    rewrite (u64_small _ Hrng), I3.
    assert (u32 b = b) as -> by (unfold u32; apply Z.mod_small; lia).
    rewrite (proj2 (Z.leb_gt _ _)) by lia. destruct (put_ok p b Hp0 Hb Hr) as (Hne & _).
    by rewrite (proj2 (Z.eqb_neq _ _) Hne).
  - specialize (Hap 0%nat a0 p0 ltac:(lia) eq_refl) as Hap0. unfold apart in Hap0. cbn [fst snd] in Hap0.
    assert (pool_ok p) as Hp by (rewrite Forall_lookup in Hok; by apply (Hok i (a, p))).
    destruct (block_in_pool a p b Hp Hb) as (I1 & I2 & _). pose proof (po_blk p Hp) as [Hbs _].
    assert ((a0 <? block_at a p b) && (block_at a p b <? a0 + pool_size p0) = false) as ->.
    { apply andb_false_iff. destruct Hap0; [right; apply Z.ltb_ge; lia|left; apply Z.ltb_ge; lia]. }
    rewrite (IH i a p b Hok E Hb Ha Hs Hr (fun j a' p' Hj Ej => Hap (S j) a' p' ltac:(lia) Ej)). done.
Qed.

Lemma pool_free_run c ptr : chain_ok c -> live c ptr ->
  exists c', srpc_pool_free c ptr = (0, c') /\ chain_ok c' /\ forall q, live c' q <-> live c q /\ q <> ptr.
Proof.
  intros Hc (i & a & p & b & E & Hb & Hr & ->). destruct (pools_lookup c i a p Hc E) as (Hp & Ha & Hs).
  destruct (block_in_pool a p b Hp Hb) as (I1 & _). destruct (put_ok p b Hp Hb Hr) as (Hne & Hq & Er).
  assert (free_in c (block_at a p b) = (0, <[i := (a, set_free (next_index p (free_i p)) (free_i p) b p)]> c)) as Ef.
  { apply free_in_run; try done.
    - destruct Hc as [H _]. eapply Forall_impl; [exact H|]. by intros x [].
    - intros j a' p' Hj Ej. destruct Hc as [_ H]. apply (H j i); [done|done|lia]. }
  set (q := set_free _ _ b p) in *. exists (<[i := (a, q)]> c). split; [|split].
  - unfold srpc_pool_free. rewrite (proj2 (Z.eqb_neq _ _)) by lia. destruct c; [done|exact Ef].
  - by eapply chain_update.
  - intros ptr. rewrite (live_update c i a p q ptr Hc E) by done. split.
    + intros [(x & Hx & Hxr & ->)|[Hl Hn]].
      * rewrite Er in Hxr. apply not_elem_of_app in Hxr as [Hxr Hxb]. split; [by exists i, a, p, x|]. intros Eq.
        destruct (block_unique c i i a p x a p b Hc E E Hx Hb Eq) as [_ ->]. by apply Hxb, list_elem_of_singleton.
      * split; [done|]. intros ->. apply Hn. by exists b.
    + intros [(j & a' & p' & x & Ej & Hx & Hxr & ->) Hneq]. destruct (decide (j = i)) as [->|Hj].
      * rewrite E in Ej. injection Ej as <- <-. left. exists x. split; [done|]. split; [|done]. rewrite Er.
        apply not_elem_of_app. split; [done|]. intros Hin. by apply list_elem_of_singleton in Hin as ->.
      * right. split; [by exists j, a', p', x|]. intros (b' & Hb' & Eq).
        by destruct (block_unique c j i a' p' x a p b' Hc Ej E Hx Hb' Eq).
Qed.
(** [srpc_pool_free] of a block that is handed out always succeeds and exactly that
    block is free again, so that it can be handed out once more; every other block
    stays as it was. *)
Theorem pool_free_spec c ptr : chain_ok c -> live c ptr ->
  exists c', srpc_pool_free c ptr = (0, c') /\ chain_ok c' /\ forall q, live c' q <-> live c q /\ q <> ptr.
Proof. apply pool_free_run. Qed.

(** ** Where the blocks lie

    The blocks start at [offset], which [srpc_pool_create] sets to the rounded size of
    the ring alone: the ring itself starts after the header. *)
Definition fifo_end (p : fba) : Z := sizeof_fba + 4 * Z.of_nat (length (fifo p)).
(** The pool of the server (128 connections) is laid out soundly; a pool of 127
    blocks is not: its first block overlaps the end of its ring. *)
Lemma server_pool_layout : fifo_end (srpc_pool_create 128 24).2 <= offset (srpc_pool_create 128 24).2.
Proof. vm_compute. congruence. Qed.
Lemma pool_127_overlaps : offset (srpc_pool_create 127 24).2 < fifo_end (srpc_pool_create 127 24).2.
Proof. vm_compute. done. Qed.

(** ** Examples *)

(** A [malloc] that gives out the addresses above everything in use. *)
Definition top_of (c : chain) : Z := foldr (fun x m => Z.max (x.1 + pool_size x.2) m) 4096 c.
Definition demo_malloc (c : chain) (size : Z) : Z := if top_of c + size <? 2 ^ 64 then top_of c else NULL.
Lemma top_of_spec c a p : (a, p) ∈ c -> a + pool_size p <= top_of c.
Proof.
  induction c as [|y c IH]; intros Hin; [by apply not_elem_of_nil in Hin|]. cbn.
  apply elem_of_cons in Hin as [<-|Hin]; cbn; [lia|]. specialize (IH Hin). unfold top_of in IH. lia.
Qed.
Lemma demo_malloc_ok : malloc_ok demo_malloc.
Proof.
  intros c size. unfold demo_malloc. destruct (Z.ltb_spec (top_of c + size) (2 ^ 64)); [right|by left].
  split; [|split; [done|]].
  - clear. unfold top_of. induction c as [|y c IH]; cbn [foldr]; lia.
  - intros a p Hin. left. by apply top_of_spec.
Qed.
Definition demo_chain : chain := new_pool demo_malloc [] 1 24.
Definition demo_chain2 : chain := default [] (snd <$> srpc_pool_alloc demo_malloc demo_chain).
Lemma demo_chain_ok : chain_ok demo_chain.
Proof.
  destruct (create_ok 1 32 ltac:(lia) ltac:(lia) eq_refl) as (Hp & _).
  change (srpc_pool_create 1 32) with (srpc_pool_create 1 24) in Hp.
  split.
  - constructor; [|constructor]. split; [exact Hp|]. vm_compute. intuition congruence.
  - intros i j x y Ei Ej Hij. apply lookup_lt_Some in Ei, Ej. change (length demo_chain) with 1%nat in *. lia.
Qed.
(** The second allocation finds the pool empty and creates another one. *)
Lemma pool_alloc_spec_witness :
  exists ptr c', srpc_pool_alloc demo_malloc demo_chain2 = Some (ptr, c') /\ length c' = 2%nat /\ chain_ok c'.
Proof.
  destruct (pool_alloc_spec demo_malloc demo_malloc_ok demo_chain demo_chain_ok) as (p1 & c1 & E1 & Hc1 & _).
  assert (c1 = demo_chain2) as -> by (unfold demo_chain2; rewrite E1; reflexivity).
  destruct (pool_alloc_spec demo_malloc demo_malloc_ok demo_chain2 Hc1) as (p2 & c2 & E2 & Hc2 & _).
  exists p2, c2. split; [exact E2|]. split; [|exact Hc2].
  assert (length c2 = length (default [] (snd <$> srpc_pool_alloc demo_malloc demo_chain2))) as -> by (rewrite E2; reflexivity).
  vm_compute. reflexivity.
Defined.
Lemma pool_free_spec_witness :
  exists ptr c', srpc_pool_alloc demo_malloc demo_chain = Some (ptr, demo_chain2) /\ srpc_pool_free demo_chain2 ptr = (0, c').
Proof.
  destruct (alloc_from_run demo_malloc 2 demo_chain demo_chain ltac:(vm_compute; constructor)) as (ptr & c1 & E1 & _).
  { destruct demo_chain_ok as [H _]. eapply Forall_impl; [exact H|]. by intros x []. }
  assert (c1 = demo_chain2) as -> by (unfold demo_chain2, srpc_pool_alloc; change (S (length demo_chain)) with 2%nat; rewrite E1; reflexivity).
  assert (chain_ok demo_chain2 /\ live demo_chain2 ptr) as [Hc Hl].
  { assert (ptr = block_at 4096 (default (Fba 0 0 0 0 0 0 []) (snd <$> head demo_chain2)) 0) as ->.
    { vm_compute in E1. injection E1 as <-. vm_compute. reflexivity. }
    split.
    - pose proof (chain_update demo_chain 0 4096 (srpc_pool_create 1 24).2 _ demo_chain_ok eq_refl
        (proj1 (take_ok (srpc_pool_create 1 24).2 (proj1 (pools_lookup demo_chain 0 4096 _ demo_chain_ok eq_refl)) ltac:(vm_compute; congruence))) eq_refl) as H.
      exact H.
    - exists 0%nat, 4096, (default (Fba 0 0 0 0 0 0 []) (snd <$> head demo_chain2)), 0. vm_compute.
      split; [reflexivity|]. split; [intuition congruence|]. split; [|reflexivity]. intros H. by apply not_elem_of_nil in H. }
  destruct (pool_free_spec demo_chain2 ptr Hc Hl) as (c' & E & _). exists ptr, c'. split; [|exact E].
  unfold srpc_pool_alloc. exact E1.
Defined.
