(* ===== verification/Trash.v ===== *)
(** The daemon's side of the segment: the world together with the lists of blocks
    that wait for a process's locks to be released ([libsrpc_shm_trash_t] of
    [libsrpc_shm_gc.c]), which the daemon keeps in its own memory. *)
From S2P Require Import Prelude Machine Errno World Shmem Rpc RpcSpec RpcCall.
From S2P Require ListSpin TlsfTypes TlsfBul TlsfApi.

(** ** State *)

(** [libsrpc_shm_trash_t]; its list node is its first field; [t_cells] are the
    pointer cells its memory has room for. *)
Record trash := Trash { t_uid : Z; t_num : Z; t_cnt : Z; t_cells : list Z }.
Definition sizeof_trash := 32.
Definition trash_bytes (num : Z) : Z := u64 (sizeof_trash + num * 8).
Definition trash_cells (size : Z) : nat := Z.to_nat ((size - sizeof_trash) / 8).
Abbreviation trash_store := (gmap Z trash).

Record gworld := GWorld { gw : world; trashes : trash_store }.
Abbreviation GM := (M gworld).
Definition lift_world {A} (m : WM A) : GM A := fun g =>
  match m (gw g) with
  | Ret a w => Ret a (GWorld w (trashes g))
  | Fault => Fault
  | Hang => Hang
  | Crash w => Crash (GWorld w (trashes g))
  end.
Definition set_trashes (t : trash_store) : GM unit := modify (fun g => GWorld (gw g) t).
Definition get_trash (a : Z) : GM trash := fun g =>
  match trashes g !! a with Some t => Ret t g | None => Fault end.

Section trash.
(** The C library's [malloc], [realloc] and the words a fresh block happens to hold;
    the length up to which lists are followed. *)
Context (malloc : trash_store -> Z -> Z) (realloc : trash_store -> Z -> Z -> Z) (garbage : Z -> nat -> list Z) (fuel : nat).

(** ** Operations *)

Definition libsrpc_shm_trash_create_node (num : Z) : GM Z :=
  g ← get;
  let size := trash_bytes num in
  let a := malloc (trashes g) size in
  if a =? NULL then mret NULL
  else
    set_trashes (<[a := Trash 0 num 0 (garbage a (trash_cells size))]> (trashes g)) ;;
    lift_world (lift_list (ListSpin.libsrpc_list_node_init (node_of a))) ;;
    mret a.

(** [tlsf_free_nb] of each pointer of the array. *)
Fixpoint free_all (tlsf uid : Z) (ptrs : list Z) : TlsfTypes.TM unit :=
  match ptrs with
  | [] => mret tt
  | p :: ptrs => TlsfApi.tlsf_free_nb tlsf p uid ;; free_all tlsf uid ptrs
  end.
Definition libsrpc_shm_trash_destroy_node (a : Z) : GM unit :=
  shm ← lift_world libsrpc_shmem_get;
  if (a =? NULL) || (shm =? NULL) then mret tt
  else
    t ← get_trash a;
    lift_world (lift_pool (
      TlsfBul.tlsf_lock (poolptr_of shm) ;;
      free_all (poolptr_of shm) (t_uid t) (take (Z.to_nat (t_cnt t)) (t_cells t)) ;;
      TlsfBul.tlsf_unlock (poolptr_of shm))) ;;
    lift_world (lift_list (ListSpin.libsrpc_list_remove fuel (node_of a))) ;;
    g ← get;
    set_trashes (delete a (trashes g)).

Definition libsrpc_shm_trash_add_node (a : Z) : GM Z :=
  shm ← lift_world libsrpc_shmem_get;
  if (a =? NULL) || (shm =? NULL) then mret (- EINVAL)
  else
    rc ← lift_world (lift_list (ListSpin.libsrpc_list_push_front (gc_list_of shm) (node_of a)));
    mret (if rc <? 0 then - ENOMEM else 0).

(** [libsrpc_shm_trash_add_ptr] on the daemon's memory: the result, the address of
    the list, which [realloc] may move, and the memory; [None]: a store outside the
    array. *)
Definition put_ptr (ts : trash_store) (a ptr : Z) : option (Z * Z * trash_store) :=
  match ts !! a with
  | None => None
  | Some t =>
      if (Z.to_nat (t_cnt t) <? length (t_cells t))%nat
      then Some (0, a, <[a := Trash (t_uid t) (t_num t) (u32 (t_cnt t + 1)) (<[Z.to_nat (t_cnt t) := ptr]> (t_cells t))]> ts)
      else None
  end.
Definition libsrpc_shm_trash_add_ptr (ts : trash_store) (a ptr : Z) : option (Z * Z * trash_store) :=
  if (a =? NULL) || (ptr =? NULL) then Some (- EINVAL, a, ts)
  else
    match ts !! a with
    | None => None
    | Some t =>
        if t_num t <=? t_cnt t then
          let new_num := u32 (t_num t + t_num t / 4) in
          let size := trash_bytes new_num in
          let b := realloc ts a size in
          if b =? NULL then Some (- ENOMEM, a, ts)
          else
            let n := trash_cells size in
            let cells := take n (t_cells t) ++ drop (length (take n (t_cells t))) (garbage b n) in
            put_ptr (<[b := Trash (t_uid t) new_num (t_cnt t) cells]> (delete a ts)) b ptr
        else put_ptr ts a ptr
    end.

(** [LIBSRPC_LIST_FOREACH_SAFE]: the successor is loaded before the body. *)
Fixpoint foreach_safe (n : nat) (cur : Z) (body : Z -> GM unit) : GM unit :=
  if cur =? NULL then mret tt
  else
    match n with
    | O => hang
    | S n =>
        x ← lift_world (lift_list (ListSpin.get_node cur));
        body cur ;;
        foreach_safe n (ListSpin.next x) body
    end.
Definition libsrpc_shm_trash_clear_list : GM Z :=
  shm ← lift_world libsrpc_shmem_get;
  if shm =? NULL then mret (- EINVAL)
  else
    hd ← lift_world (lift_list (ListSpin.get_head (gc_list_of shm)));
    foreach_safe fuel (ListSpin.first hd) (fun a =>
      t ← get_trash a;
      locked ← lift_world (libsrpc_shmem_is_locked_uid fuel (t_uid t));
      if negb (locked =? 0) then mret tt else libsrpc_shm_trash_destroy_node a) ;;
    mret 0.

(** ** The array of pointers *)

(** The pointers of a list, its array and its capacity agree. *)
Record trash_ok (t : trash) : Prop := TrashOk {
  to_cnt : 0 <= t_cnt t <= t_num t;
  to_num : t_num t < 2 ^ 31;
  to_cells : length (t_cells t) = Z.to_nat (t_num t) }.
Definition ptrs_of (t : trash) : list Z := take (Z.to_nat (t_cnt t)) (t_cells t).

Lemma trash_cells_bytes n : 0 <= n < 2 ^ 32 -> trash_cells (trash_bytes n) = Z.to_nat n.
Proof.
  intros Hn. unfold trash_cells, trash_bytes, sizeof_trash. rewrite u64_small by lia.
  replace (32 + n * 8 - 32) with (n * 8) by lia. by rewrite Z.div_mul by lia.
Qed.

Lemma put_ptr_spec ts a ptr t : ts !! a = Some t -> 0 <= t_cnt t < t_num t -> t_num t < 2 ^ 31 ->
  length (t_cells t) = Z.to_nat (t_num t) ->
  exists t', put_ptr ts a ptr = Some (0, a, <[a := t']> ts) /\ trash_ok t' /\ ptrs_of t' = ptrs_of t ++ [ptr] /\
    t_uid t' = t_uid t /\ t_num t' = t_num t.
Proof.
  intros E Hc Hn Hl. unfold put_ptr. rewrite E. rewrite (proj2 (Nat.ltb_lt _ _)) by lia.
  eexists. split; [done|]. assert (u32 (t_cnt t + 1) = t_cnt t + 1) as Eu by (unfold u32; apply Z.mod_small; lia).
  split; [|split; [|done]].
  - split; cbn [t_cnt t_num t_cells]; rewrite ?Eu; [lia|lia|by rewrite length_insert].
  - unfold ptrs_of. cbn [t_cnt t_cells]. rewrite Eu, Z2Nat.inj_add, Nat.add_1_r by lia.
    rewrite (take_S_r _ _ ptr) by (apply list_lookup_insert_eq; lia). by rewrite take_insert_ge by lia.
Qed.
Lemma ptrs_of_length t : trash_ok t -> length (ptrs_of t) = Z.to_nat (t_cnt t).
Proof. intros [Hc _ Hl]. unfold ptrs_of. rewrite length_take. lia. Qed.

(** Adding a block to the list of a dead process appends it, growing the array by a
    quarter when it is full; only the list changes, and a failed [realloc] changes
    nothing. It holds for arrays of at least four cells; the program creates them
    with 1024. *)
Theorem trash_add_ptr_spec ts a ptr t : ts !! a = Some t -> trash_ok t -> 4 <= t_num t < 2 ^ 30 ->
  a <> NULL -> ptr <> NULL -> (forall b n, length (garbage b n) = n) ->
  let grown := t_num t + t_num t / 4 in let b := realloc ts a (trash_bytes grown) in
  let appended t' := trash_ok t' /\ ptrs_of t' = ptrs_of t ++ [ptr] /\ t_uid t' = t_uid t in
  let result := libsrpc_shm_trash_add_ptr ts a ptr in
  if t_cnt t <? t_num t then exists t', result = Some (0, a, <[a := t']> ts) /\ appended t' /\ t_num t' = t_num t
  else if b =? NULL then result = Some (- ENOMEM, a, ts)
  else exists t', result = Some (0, b, <[b := t']> (delete a ts)) /\ appended t' /\ t_num t' = grown.
Proof.
  intros E [Hc Hn Hl] Hb Ha Hp Hg grown b appended result. unfold result, libsrpc_shm_trash_add_ptr.
  rewrite (proj2 (Z.eqb_neq a _)), (proj2 (Z.eqb_neq ptr _)) by done. cbn [orb]. rewrite E. cbv zeta. fold grown.
  destruct (Z.leb_spec (t_num t) (t_cnt t)) as [Hfull|Hroom].
  - rewrite (proj2 (Z.ltb_ge _ _)) by done. assert (u32 grown = grown /\ t_num t < grown < 2 ^ 31) as [-> Hnn].
    { pose proof (Z.div_le_mono 4 (t_num t) 4 ltac:(lia) ltac:(lia)) as H1. change (4 / 4) with 1 in H1.
      assert (t_num t / 4 <= t_num t) by (apply Z.div_le_upper_bound; lia). unfold grown, u32. rewrite Z.mod_small; lia. }
    fold b. destruct (Z.eqb_spec b NULL) as [Eb|Eb]; [done|].
    rewrite trash_cells_bytes by lia. rewrite (take_ge (t_cells t)) by lia.
    set (t1 := Trash (t_uid t) grown (t_cnt t) (t_cells t ++ drop (length (t_cells t)) (garbage b (Z.to_nat grown)))).
    destruct (put_ptr_spec (<[b := t1]> (delete a ts)) b ptr t1) as (t' & E1 & Hok & Hptrs & Hu & Hnum); cbn; [apply lookup_insert_eq|lia|lia| |].
    + rewrite length_app, length_drop, Hg. lia.
    + rewrite E1, insert_insert_eq. exists t'. split; [done|]. split; [|done]. split; [done|]. split; [|done].
      rewrite Hptrs. f_equal. unfold ptrs_of. cbn [t1 t_cnt t_cells]. by rewrite take_app_le by lia.
  - rewrite (proj2 (Z.ltb_lt _ _)) by done. destruct (put_ptr_spec ts a ptr t E) as (t' & E1 & Hok & Hptrs & Hu & Hnum); [lia|done|done|].
    exists t'. by rewrite E1.
Qed.
End trash.

(** An array of fewer than four cells does not grow: the store lands outside it. *)
Definition demo_realloc (ts : trash_store) (a size : Z) : Z := a.
Lemma small_trash_overflows :
  libsrpc_shm_trash_add_ptr demo_realloc (fun _ n => replicate n 0) {[ 8 := Trash 5 1 1 [640] ]} 8 704 = None.
Proof. vm_compute. reflexivity. Qed.
Lemma trash_add_ptr_spec_witness :
  exists t', libsrpc_shm_trash_add_ptr demo_realloc (fun _ n => replicate n 0)
      {[ 8 := Trash 5 4 4 [640; 704; 768; 832] ]} 8 896 = Some (0, 8, {[ 8 := t' ]}) /\
    ptrs_of t' = [640; 704; 768; 832] ++ [896] /\ t_num t' = 5.
Proof.
  destruct (trash_add_ptr_spec demo_realloc (fun _ n => replicate n 0) {[ 8 := Trash 5 4 4 [640; 704; 768; 832] ]} 8 896
    (Trash 5 4 4 [640; 704; 768; 832])) as (t' & E & (_ & Hp & _) & Hn).
  - reflexivity.
  - constructor; vm_compute; intuition congruence.
  - vm_compute. intuition congruence.
  - discriminate.
  - discriminate.
  - intros b n. apply length_replicate.
  - exists t'. split; [exact E|]. split; [exact Hp|exact Hn].
Defined.
