(* ===== verification/Proc.v ===== *)
(** The processes of the segment as the daemon manages them ([libsrpc_proc.c]): their
    creation under a fresh uid, and their removal, which releases everything they
    own. *)
From S2P Require Import Prelude Machine Errno Request World Shmem Rpc RpcSpec RpcCall Registry Trash.
From S2P Require ListSpin TlsfTypes TlsfApi MpmcQueue.

Definition ESRCH := 3.
Definition EEXIST := 17.
Definition PROC_EBADF := 9.

(** [sizeof(libsrpc_proc_t)] and of a thread's record, for queues of [cap] cells. *)
Definition sizeof_proc (cap : Z) : Z := 384 + 64 * cap.
Definition sizeof_thread := 16.

Section proc.
Context (cap : Z) (fuel : nat).

(** ** Identifiers *)

(** [libsrpc_proc_get_uid] from the static [libsrpc_proc_uid_next]; the results are the
    uid and the new value of the variable. [tries] counts the collisions that remain
    before the search gives up. *)
Fixpoint uid_loop (tries : nat) (head next : Z) : WM (Z * Z) :=
  r ← list_foreach_until fuel head (fun p =>
        x ← get_proc p;
        mret (if proc_uid x =? next then Some tt else None));
  match r with
  | None => mret (next, next)
  | Some _ =>
      let next := u16 (next + 1) in
      if next =? 0 then mret (0, DAEMON_PROC_UID + 1)
      else
        match tries with
        | O => mret (0, next)
        | S tries => uid_loop tries head next
        end
  end.
Definition libsrpc_proc_get_uid (next : Z) : WM (Z * Z) :=
  shm ← libsrpc_shmem_get;
  if shm =? NULL then errno_set ESHMNOINIT ;; mret (0, next)
  else uid_loop 100 (proc_head_of shm) next.

Definition libsrpc_proc_get (pid : Z) : WM Z :=
  shm ← libsrpc_shmem_get;
  if shm =? NULL then errno_set ESHMNOINIT ;; mret NULL
  else
    r ← list_foreach_until fuel (proc_head_of shm) (fun p =>
          x ← get_proc p;
          mret (if p_pid x =? pid then Some p else None));
    mret (default NULL r).

(** ** Creation *)

(** The error exit: the block goes back to the pool. *)
Definition create_failed (p rc next : Z) : WM (Z * Z) := libsrpc_shmem_free p ;; mret (rc, next).

(** [nproc]: what [sysconf(_SC_NPROCESSORS_ONLN)] answers; [sem_rc], [spin_rc]: what
    [sem_init] and [pthread_spin_init] answer. The second result is the new value of
    [libsrpc_proc_uid_next]. *)
Definition libsrpc_proc_create (nproc sem_rc spin_rc pid next : Z) : WM (Z * Z) :=
  shm ← libsrpc_shmem_get;
  if (nproc <=? 0) || (1024 <? nproc) || (pid <=? 0) then mret (- EINVAL, next)
  else if shm =? NULL then mret (- ESHMNOINIT, next)
  else
    old ← libsrpc_proc_get pid;
    if negb (old =? NULL) then mret (- EEXIST, next)
    else
      let size := u64 (sizeof_proc cap + u64 (nproc * sizeof_thread)) in
      if size <? sizeof_proc cap then mret (- EINVAL, next)
      else
        p ← libsrpc_shmem_malloc_type size SHMDT_PROC;
        if p =? NULL then mret (- ENOMEM, next)
        else
          put_proc p (Proc 0 PROC_STATUS_INIT 0 0 0 0 0 (MpmcQueue.Queue 0 0 ∅ ∅ 0) (replicate (Z.to_nat nproc) NULL)) ;;
          lift_list (ListSpin.libsrpc_list_node_init (node_of p)) ;;
          '(uid, next) ← libsrpc_proc_get_uid next;
          upd_proc p (fun x => Proc (p_sign x) (p_status x) uid pid (threads_run x) (threads_wait x) (p_sem x) (p_queue x) (hp_reqs x)) ;;
          if uid =? 0 then create_failed p (- PROC_EBADF) next
          else if sem_rc <? 0 then create_failed p sem_rc next
          else
            upd_proc p (set_p_sem 0) ;;
            upd_proc p (fun x => set_p_queue (MpmcQueue.lf_mpmc_queue_init cap (p_queue x)) x) ;;
            rc ← lift_list (ListSpin.libsrpc_list_head_init spin_rc (req_head_of p));
            if rc <? 0 then create_failed p rc next
            else
              upd_proc p (set_p_sign LIBSRPC_PROC_SIGN) ;;
              rc ← lift_list (ListSpin.libsrpc_list_push_front (proc_head_of shm) (node_of p));
              if rc <? 0 then create_failed p rc next
              else mret (0, next).

(** ** Destruction *)

(** What the heap walk may change besides the pool: the requests, the daemon's lists,
    and [destructor_fn_t]. *)
Record duser := DUser { d_reqs : gmap Z request; d_trashes : trash_store; dc_count : Z; d_trash : Z }.
Context (malloc : trash_store -> Z -> Z) (realloc : trash_store -> Z -> Z -> Z) (garbage : Z -> nat -> list Z).

Definition destructor_fn (tlsf : Z) (user : duser) (ptr block match_uid : Z) : TlsfTypes.TM (Z * duser) :=
  if (ptr =? NULL) || (tlsf =? NULL) || (block =? NULL) then mret (- EINVAL, user)
  else
    data_type ← TlsfApi.tlsf_get_data_type tlsf ptr;
    flag_dc ← TlsfApi.tlsf_getdc tlsf ptr;
    if (data_type =? SHMDT_REGFN) || (data_type =? SHMDT_PROC) then mret (0, user)
    else if data_type =? SHMDT_REQUEST then
      if flag_dc =? 0 then
        match d_reqs user !! ptr with
        | None => fault
        | Some r =>
            let r' := default r (libsrpc_req_destroy (Some r)).2 in
            TlsfApi.tlsf_setdc tlsf ptr ;;
            mret (0, DUser (<[ptr := r']> (d_reqs user)) (d_trashes user) (u64 (dc_count user + 1)) (d_trash user))
        end
      else mret (0, user)
    else if negb (d_trash user =? NULL) then
      match libsrpc_shm_trash_add_ptr realloc garbage (d_trashes user) (d_trash user) ptr with
      | None => fault
      | Some (_, a, ts) => mret (0, DUser (d_reqs user) ts (dc_count user) a)
      end
    else TlsfApi.tlsf_free_nb tlsf ptr match_uid ;; mret (1, user).

(** A list that [realloc] moves takes its node, its first field, with it. *)
Definition moved_node (a b : Z) (w : world) : world :=
  match ListSpin.nodes (lists w) !! node_of a with
  | Some x => if a =? b then w
              else set_lists (ListSpin.LStore (<[node_of b := x]> (delete (node_of a) (ListSpin.nodes (lists w)))) (ListSpin.heads (lists w))) w
  | None => w
  end.
(** [tlsf_free_uid_blocks] with this destructor; [rounds] bounds its restarts. If the
    daemon dies in the walk only the pool is kept here: nobody looks at the rest. *)
Definition free_uid_blocks (rounds : nat) (tlsf uid trash : Z) : GM (Z * (Z * Z)) := fun g =>
  match TlsfApi.tlsf_free_uid_blocks rounds fuel tlsf uid (Some (destructor_fn tlsf)) (DUser (reqs (gw g)) (trashes g) 0 trash) (pool (gw g)) with
  | Ret (rc, u) s => Ret (rc, (dc_count u, d_trash u)) (GWorld (set_pool s (set_reqs (d_reqs u) (moved_node trash (d_trash u) (gw g)))) (d_trashes u))
  | Fault => Fault
  | Hang => Hang
  | Crash s => Crash (GWorld (set_pool s (gw g)) (trashes g))
  end.

Definition wake_if (n : Z) : WM unit := if 0 <? n then libsrpc_shm_gc_wakeup ;; mret tt else mret tt.

(** The blocks of a process that holds locks are listed, those of another are freed;
    the result says whether to go on, and the error number. *)
Definition release_locked (rounds : nat) (shm uid : Z) : GM (bool * Z) :=
  t ← libsrpc_shm_trash_create_node malloc garbage 1024;
  if t =? NULL then mret (true, - ENOMEM)
  else
    tr ← get_trash t;
    g ← get;
    set_trashes (<[t := Trash uid (t_num tr) (t_cnt tr) (t_cells tr)]> (trashes g)) ;;
    '(_, (dc, t)) ← free_uid_blocks rounds (poolptr_of shm) uid t;
    lift_world (wake_if dc) ;;
    rc ← libsrpc_shm_trash_add_node t;
    mret (if rc <? 0 then (true, - EINVAL) else (false, rc)).
Definition release_unlocked (rounds : nat) (shm uid rc : Z) : GM (bool * Z) :=
  '(_, (dc, _)) ← free_uid_blocks rounds (poolptr_of shm) uid NULL;
  lift_world (wake_if dc) ;;
  mret (false, rc).

Definition libsrpc_proc_destroy (rounds : nat) (pid : Z) : GM Z :=
  p ← lift_world (libsrpc_proc_get pid);
  shm ← lift_world libsrpc_shmem_get;
  if p =? NULL then mret (- EINVAL)
  else
    lift_world (libsrpc_unreg_func_proc p) ;;
    lift_world (upd_proc p (set_p_sign 0)) ;;
    lift_world (upd_proc p (set_p_status PROC_STATUS_DELETE)) ;;
    rc ← lift_world (lift_list (ListSpin.libsrpc_list_remove fuel (node_of p)));
    lift_world (libsrpc_thread_rcv_queue_clear cap fuel p) ;;
    x ← lift_world (get_proc p);
    locked ← lift_world (libsrpc_shmem_is_locked_uid fuel (proc_uid x));
    '(failed, rc) ← (if negb (locked =? 0) then release_locked rounds shm (proc_uid x) else release_unlocked rounds shm (proc_uid x) rc);
    if (failed : bool) then mret rc
    else
      lift_world (libsrpc_shmem_free_dc p) ;;
      lift_world libsrpc_shm_gc_wakeup ;;
      mret rc.

(** ** Whether a response slot still points at a process *)

Fixpoint aims_at (n : nat) (i : Z) (r : request) (target : Z) : bool :=
  match n with
  | O => false
  | S n =>
      match libsrpc_req_get_response_fast (Some r) i with
      | None => aims_at n (i + 1) r target
      | Some o => ((resp_rc o r =? 0) && (resp_hp o r =? target)) || aims_at n (i + 1) r target
      end
  end.
Definition libsrpc_req_list_aims_at (head target : Z) : WM Z :=
  r ← list_foreach_until fuel head (fun a =>
        r ← get_req a;
        mret (if aims_at (Z.to_nat (retnum r)) 0 r target then Some 1 else None));
  mret (default 0 r).
Definition libsrpc_proc_cs_aimed_at (target : Z) : WM Z :=
  shm ← libsrpc_shmem_get;
  if (target =? NULL) || (shm =? NULL) then mret 0
  else
    r ← list_foreach_until fuel (proc_head_of shm) (fun p =>
          l ← libsrpc_req_list_aims_at (req_head_of p) target;
          mret (if negb (l =? 0) then Some 1 else None));
    mret (default 0 r).
End proc.
