(* ===== verification/ProcSpec.v ===== *)
(** What the daemon's process management guarantees: fresh uids, and processes that
    are found by their pid once created. *)
From S2P Require Import Prelude Machine Errno Request World Shmem Rpc RpcSpec RpcCall RpcCallSpec Registry RegistryGrowth Trash Proc.
From S2P Require ListSpin TlsfTypes TlsfApi TlsfSpec MpmcQueue Shmem RegistrySpec.

(** ** Searching a list of the segment *)

(** The first answer of [f] along a list. *)
Fixpoint first_some {A R} (f : A -> option R) (l : list A) : option R :=
  match l with [] => None | x :: l => match f x with Some r => Some r | None => first_some f l end end.

Lemma first_some_None {A R} (f : A -> option R) l : first_some f l = None <-> forall x, x ∈ l -> f x = None.
Proof.
  induction l as [|x l IH]; cbn.
  - split; [intros _ x Hx; by apply not_elem_of_nil in Hx|done].
  - destruct (f x) as [r|] eqn:E; split; try done.
    + intros H. rewrite (H x) in E by apply list_elem_of_here. done.
    + intros H y Hy. apply elem_of_cons in Hy as [->|Hy]; [done|]. by apply IH.
    + intros H. apply IH. intros y Hy. apply H. by apply list_elem_of_further.
Qed.
Lemma first_some_Some {A R} (f : A -> option R) l r : first_some f l = Some r -> exists x, x ∈ l /\ f x = Some r.
Proof.
  induction l as [|x l IH]; cbn; [done|]. destruct (f x) eqn:E.
  - intros H. injection H as ->. exists x. split; [apply list_elem_of_here|done].
  - intros H. destruct (IH H) as (y & Hy & Ey). exists y. split; [by apply list_elem_of_further|done].
Qed.

(** A loop whose body only looks visits the list in order. *)
Lemma foreach_until_pure {R} w (body : Z -> WM (option R)) (f : Z -> option R) h fuel : forall l cur,
  ListSpin.chain (ListSpin.nodes (lists w)) h cur l -> (length l <= fuel)%nat ->
  (forall a, a ∈ l -> body a w = Ret (f a) w) -> foreach_until fuel cur body w = Ret (first_some f l) w.
Proof.
  induction fuel as [|fuel IH]; intros l cur Hc Hl Hb; destruct l as [|a l]; cbn [length] in Hl; try lia.
  - cbn in Hc. subst cur. done.
  - cbn in Hc. subst cur. done.
  - destruct Hc as (-> & Hne & nx & En & Hc). cbn [foreach_until]. rewrite (proj2 (Z.eqb_neq a NULL)) by done.
    rewrite (bind_ret _ _ _ _ _ (Hb a ltac:(apply list_elem_of_here))). cbn [first_some]. destruct (f a); [done|].
    unfold mbind, M_bind, lift_list, ListSpin.get_node. rewrite En. cbn [ListSpin.next].
    assert (set_lists (lists w) w = w) as -> by (by destruct w).
    apply (IH l nx Hc); [lia|]. intros b Hin. apply Hb. by apply list_elem_of_further.
Qed.
Lemma list_foreach_pure {R} w (body : Z -> WM (option R)) (f : Z -> option R) h fuel l :
  ListSpin.linked (lists w) h l -> (length l <= fuel)%nat ->
  (forall a, a ∈ l -> body a w = Ret (f a) w) -> list_foreach_until fuel h body w = Ret (first_some f l) w.
Proof.
  intros [[x Eh] Hc _ _] Hl Hb. unfold list_foreach_until, mbind, M_bind, lift_list, ListSpin.get_head. rewrite Eh.
  cbn [ListSpin.first]. assert (set_lists (lists w) w = w) as -> by (by destruct w). by eapply foreach_until_pure.
Qed.

(** ** Identifiers *)

(** The processes of the list, each with its record. *)
Definition procs_listed (w : world) (head : Z) (l : list Z) : Prop :=
  ListSpin.linked (lists w) head l /\ forall p, p ∈ l -> exists x, procs w !! p = Some x.
Definition uid_of (w : world) (p : Z) : Z := default 0 (proc_uid <$> procs w !! p).
Definition uids_in_use (w : world) (l : list Z) : list Z := uid_of w <$> l.

Lemma uid_search w head l next fuel : procs_listed w head l -> (length l <= fuel)%nat ->
  list_foreach_until fuel head (fun p => x ← get_proc p; mret (if proc_uid x =? next then Some tt else None)) w =
    Ret (if decide (next ∈ uids_in_use w l) then Some tt else None) w.
Proof.
  intros [Hl Hp] Hf.
  rewrite (list_foreach_pure w _ (fun p => if uid_of w p =? next then Some tt else None) head fuel l Hl Hf).
  - f_equal. destruct (first_some _ l) as [[]|] eqn:E.
    + apply first_some_Some in E as (p & Hin & E). rewrite decide_True; [done|].
      apply list_elem_of_fmap. exists p. split; [|done]. destruct (Z.eqb_spec (uid_of w p) next); done.
    + rewrite decide_False; [done|]. intros Hin. apply list_elem_of_fmap in Hin as (p & -> & Hin).
      rewrite first_some_None in E. specialize (E p Hin). by rewrite Z.eqb_refl in E.
  - intros p Hin. destruct (Hp p Hin) as [x Ex]. rewrite (bind_ret _ _ _ _ _ (get_proc_run _ _ _ Ex)).
    unfold uid_of. by rewrite Ex.
Qed.

Lemma uid_loop_run w head l fuel : procs_listed w head l -> (length l <= fuel)%nat -> forall tries next, 2 <= next < 2 ^ 16 ->
  exists uid next', uid_loop fuel tries head next w = Ret (uid, next') w /\ 2 <= next' < 2 ^ 16 /\
    (uid <> 0 -> uid = next' /\ next <= uid /\ uid ∉ uids_in_use w l) /\
    (uid = 0 -> (forall k, 0 <= k <= Z.of_nat tries -> next + k < 2 ^ 16 -> next + k ∈ uids_in_use w l)).
Proof.
  intros Hl Hf. induction tries as [|tries IH]; intros next Hn; cbn [uid_loop]; rewrite (bind_ret _ _ _ _ _ (uid_search w head l next fuel Hl Hf)).
  all: destruct (decide (next ∈ uids_in_use w l)) as [Hin|Hni].
  - unfold u16. destruct (Z.eqb_spec ((next + 1) mod 2 ^ 16) 0) as [E|E]; eexists _, _; (split; [done|]).
    + split; [unfold DAEMON_PROC_UID; lia|]. split; [done|]. intros _ k Hk Hb. by replace (next + k) with next by lia.
    + destruct (decide (next + 1 = 2 ^ 16)) as [Ew|]; [by rewrite Ew in E|]. rewrite Z.mod_small by lia.
      split; [lia|]. split; [done|]. intros _ k Hk Hb. by replace (next + k) with next by lia.
  - exists next, next. split; [done|]. split; [done|]. split; [done|]. lia.
  - unfold u16. destruct (Z.eqb_spec ((next + 1) mod 2 ^ 16) 0) as [E|E].
    + eexists _, _; (split; [done|]). split; [unfold DAEMON_PROC_UID; lia|]. split; [done|]. intros _ k Hk Hb.
      destruct (decide (next + 1 = 2 ^ 16)); [by replace (next + k) with next by lia|].
      rewrite Z.mod_small in E by lia. lia.
    + destruct (decide (next + 1 = 2 ^ 16)) as [Ew|]; [by rewrite Ew in E|]. rewrite Z.mod_small by lia.
      destruct (IH (next + 1) ltac:(lia)) as (uid & next' & E1 & Hr & Hok & Hfail). exists uid, next'. split; [done|].
      split; [done|]. split; [intros Hu; destruct (Hok Hu) as (? & ? & ?); split; [done|split; [lia|done]]|].
      intros Hu k Hk Hb. destruct (decide (k = 0)) as [->|]; [by rewrite Z.add_0_r|].
      replace (next + k) with (next + 1 + (k - 1)) by lia. apply (Hfail Hu); lia.
  - exists next, next. split; [done|]. split; [done|]. split; [done|]. lia.
Qed.

(** Distinct uids of a list, counted. *)
Lemma uids_pigeon (l : list Z) next n : (forall k, 0 <= k <= Z.of_nat n -> next + k ∈ l) -> (n < length l)%nat.
Proof.
  intros H. assert (seqZ next (Z.of_nat n + 1) ⊆+ l) as Hs.
  { apply NoDup_submseteq; [apply NoDup_seqZ|]. intros x Hx. apply elem_of_seqZ in Hx.
    replace x with (next + (x - next)) by lia. apply H. lia. }
  apply submseteq_length in Hs. rewrite length_seqZ in Hs. lia.
Qed.

(** The uid given to a new process is none of the uids of the processes in the
    segment and never the daemon's; with at most 100 processes, and the uids not
    running out before the counter wraps, there always is one. *)
Theorem proc_get_uid_spec w l fuel next : RegistrySpec.mapped w -> procs_listed w (proc_head_of (shm_ptr (loc w))) l ->
  (length l <= fuel)%nat -> 2 <= next < 2 ^ 16 ->
  exists uid next', libsrpc_proc_get_uid fuel next w = Ret (uid, next') w /\ 2 <= next' < 2 ^ 16 /\
    (uid <> 0 -> DAEMON_PROC_UID < uid < 2 ^ 16 /\ uid ∉ uids_in_use w l) /\
    ((length l <= 100)%nat -> next + 100 < 2 ^ 16 -> uid <> 0).
Proof.
  intros Hm Hl Hf Hn. destruct (uid_loop_run w _ l fuel Hl Hf 100 next Hn) as (uid & next' & E & Hr & Hok & Hfail).
  exists uid, next'. split; [|split; [done|split]].
  - unfold libsrpc_proc_get_uid. rewrite (bind_ret _ _ _ _ _ (RegistrySpec.shmem_get_run w Hm)).
    by rewrite (proj2 (Z.eqb_neq _ _) (proj2 Hm)).
  - intros Hu. destruct (Hok Hu) as (-> & ? & ?). unfold DAEMON_PROC_UID. split; [lia|done].
  - intros Hc Hb Hu. pose proof (uids_pigeon (uids_in_use w l) next 100) as Hp. unfold uids_in_use in Hp at 2.
    rewrite length_fmap in Hp. assert (100 < length l)%nat; [|lia]. apply Hp. intros k Hk. apply (Hfail Hu k); lia.
Qed.

(** ** Creation *)

Definition pid_of (w : world) (p : Z) : Z := default 0 (p_pid <$> procs w !! p).
(** The process list: every entry a process record, uids and pids told apart. *)
Record plist_ok (w : world) (head : Z) (l : list Z) : Prop := PlistOk {
  pl_listed : procs_listed w head l;
  pl_uids : NoDup (uids_in_use w l);
  pl_pids : NoDup (pid_of w <$> l) }.

Lemma linked_fresh s h l p : h <> NULL -> p ∉ l -> ListSpin.linked s h l ->
  ListSpin.linked (ListSpin.LStore (<[p := ListSpin.Node NULL NULL]> (ListSpin.nodes s)) (ListSpin.heads s)) h l.
Proof.
  intros Hh Hp [H1 H2 H3 H4]. split; [done|by apply ListSpin.chain_insert|done|].
  intros n x E Ex. cbn in E. apply lookup_insert_Some in E as [[_ <-]|[_ E]]; [by cbn in Ex|eauto].
Qed.
Lemma linked_head s h l h' x : h' <> h -> ListSpin.linked s h l ->
  ListSpin.linked (ListSpin.LStore (ListSpin.nodes s) (<[h' := x]> (ListSpin.heads s))) h l.
Proof. intros Hne [[w H1] H2 H3 H4]. split; [|done|done|done]. exists w. cbn. by rewrite lookup_insert_ne. Qed.

(** Two worlds that agree on the records of [l]. *)
Lemma uids_same w w' l : (forall p, p ∈ l -> procs w' !! p = procs w !! p) ->
  uids_in_use w' l = uids_in_use w l /\ (pid_of w' <$> l) = (pid_of w <$> l).
Proof.
  intros H. split; apply list_fmap_ext; intros i p E; apply list_elem_of_lookup_2 in E; unfold uid_of, pid_of; by rewrite H.
Qed.
Lemma plist_same w w' head l : plist_ok w head l -> (forall p, p ∈ l -> procs w' !! p = procs w !! p) ->
  ListSpin.linked (lists w') head l -> plist_ok w' head l.
Proof.
  intros [[_ H1] H2 H3] Hp Hl. destruct (uids_same w w' l Hp) as [Eu Ep]. split; [split; [done|]|by rewrite Eu|by rewrite Ep].
  intros p Hin. rewrite Hp by done. by apply H1.
Qed.

Lemma proc_get_run w l fuel pid : RegistrySpec.mapped w -> procs_listed w (proc_head_of (shm_ptr (loc w))) l ->
  (length l <= fuel)%nat ->
  libsrpc_proc_get fuel pid w = Ret (default NULL (first_some (fun p => if pid_of w p =? pid then Some p else None) l)) w.
Proof.
  intros Hm [Hl Hp] Hf. unfold libsrpc_proc_get. rewrite (bind_ret _ _ _ _ _ (RegistrySpec.shmem_get_run w Hm)).
  rewrite (proj2 (Z.eqb_neq _ _) (proj2 Hm)).
  unfold mbind at 1, M_bind.
  rewrite (list_foreach_pure w _ (fun p => if pid_of w p =? pid then Some p else None) _ fuel l Hl Hf); [done|].
  intros p Hin. destruct (Hp p Hin) as [x Ex]. rewrite (bind_ret _ _ _ _ _ (get_proc_run _ _ _ Ex)). unfold pid_of. by rewrite Ex.
Qed.
Lemma proc_get_absent w l pid : NULL ∉ l ->
  default NULL (first_some (fun p => if pid_of w p =? pid then Some p else None) l) = NULL -> pid ∉ (pid_of w <$> l).
Proof.
  intros H0 E Hin. apply list_elem_of_fmap in Hin as (p & -> & Hin). destruct (first_some _ l) as [q|] eqn:Ef.
  - cbn in E. subst q. apply first_some_Some in Ef as (y & Hy & Ey). destruct (pid_of w y =? pid_of w p); [|done]. injection Ey as ->. done.
  - rewrite first_some_None in Ef. specialize (Ef p Hin). cbn in Ef. by rewrite Z.eqb_refl in Ef.
Qed.

Lemma linked_nonnull s h l : ListSpin.linked s h l -> NULL ∉ l.
Proof.
  intros [_ Hc _ _]. revert Hc. generalize (List.hd NULL l). induction l as [|n l IH]; intros cur Hc; [apply not_elem_of_nil|].
  destruct Hc as (-> & Hn & nx & _ & Hc). apply not_elem_of_cons. split; [done|by eapply IH].
Qed.

Section create.
Context (cap : Z) (fuel : nat) (nproc sem_rc spin_rc pid next : Z).
Context (w : world) (l : list Z).
Definition head : Z := proc_head_of (shm_ptr (loc w)).
Context (Hm : RegistrySpec.mapped w) (Hh : head <> NULL) (Hl : plist_ok w head l) (Hf : (length l <= fuel)%nat)
  (Hnext : 2 <= next < 2 ^ 16).
(** The pool hands out blocks that are not in use. *)
Context (Hfresh : forall p w1, libsrpc_shmem_malloc_type (u64 (sizeof_proc cap + u64 (nproc * sizeof_thread))) SHMDT_PROC w = Ret p w1 ->
  p = NULL \/ ((p ∉ l) /\ req_head_of p <> head /\ req_head_of p <> NULL)).

(** The two outcomes of creation. *)
Definition not_created (rc : Z) (w' : world) : Prop := rc <> 0 /\ plist_ok w' head l.
Definition created (rc : Z) (w' : world) : Prop :=
  rc = 0 /\ exists p x, procs w' !! p = Some x /\ plist_ok w' head (p :: l) /\ p_pid x = pid /\
    p_sign x = LIBSRPC_PROC_SIGN /\ p_status x = PROC_STATUS_INIT /\ (proc_uid x ∉ uids_in_use w l) /\
    DAEMON_PROC_UID < proc_uid x < 2 ^ 16 /\ hp_reqs x = replicate (Z.to_nat nproc) NULL /\
    ListSpin.heads (lists w') !! req_head_of p = Some (ListSpin.LHead NULL 0).

Lemma create_failed_run p rc n w1 v w' : create_failed p rc n w1 = Ret v w' -> rc <> 0 -> plist_ok w1 head l ->
  v = (rc, n) /\ plist_ok w' head l.
Proof.
  intros E Hrc Hp. unfold create_failed in E. apply bind_inv in E as ([] & w2 & E1 & E2).
  apply keeps_free in E1 as (L & _ & P & _). injection E2 as <- <-. split; [done|].
  eapply plist_same; [done|by rewrite P|]. rewrite L. apply Hp.
Qed.

(** A state of the creation after the block [p] was taken: the list is untouched. *)
Record making (p : Z) (v : world) : Prop := Making {
  mk_map : RegistrySpec.mapped v;
  mk_head : proc_head_of (shm_ptr (loc v)) = head;
  mk_node : ListSpin.nodes (lists v) !! p = Some (ListSpin.Node NULL NULL);
  mk_list : ListSpin.linked (lists v) head l;
  mk_procs : forall q, q <> p -> procs v !! q = procs w !! q }.
Lemma making_plist p v : p ∉ l -> making p v -> plist_ok v head l.
Proof.
  intros Hp Hv. eapply plist_same; [exact Hl| |apply Hv]. intros q Hq. apply (mk_procs p v Hv). by intros ->.
Qed.
Lemma making_upd p v x : making p v -> making p (set_procs (<[p := x]> (procs v)) v).
Proof. intros [H1 H2 H3 H4 H5]. split; try done. intros q Hq. cbn. rewrite lookup_insert_ne by done. by apply H5. Qed.

(** The part of the creation that follows the allocation. *)
Definition fill (p : Z) : WM (Z * Z) :=
  put_proc p (Proc 0 PROC_STATUS_INIT 0 0 0 0 0 (MpmcQueue.Queue 0 0 ∅ ∅ 0) (replicate (Z.to_nat nproc) NULL)) ;;
  lift_list (ListSpin.libsrpc_list_node_init (node_of p)) ;;
  '(uid, next) ← libsrpc_proc_get_uid fuel next;
  upd_proc p (fun x => Proc (p_sign x) (p_status x) uid pid (threads_run x) (threads_wait x) (p_sem x) (p_queue x) (hp_reqs x)) ;;
  if uid =? 0 then create_failed p (- PROC_EBADF) next
  else if sem_rc <? 0 then create_failed p sem_rc next
  else
    upd_proc p (set_p_sem 0) ;;
    upd_proc p (fun x => set_p_queue (MpmcQueue.lf_mpmc_queue_init cap (p_queue x)) x) ;;
    rc ← lift_list (ListSpin.libsrpc_list_head_init spin_rc (req_head_of p));
    if rc <? 0 then create_failed p rc next
    else
      upd_proc p (set_p_sign LIBSRPC_PROC_SIGN) ;;
      rc ← lift_list (ListSpin.libsrpc_list_push_front (proc_head_of (shm_ptr (loc w))) (node_of p));
      if rc <? 0 then create_failed p rc next
      else mret (0, next).

Lemma create_rest p w1 rc next' w' : p ∉ l -> p <> NULL -> req_head_of p <> head -> req_head_of p <> NULL ->
  pid ∉ (pid_of w <$> l) -> same_objects w w1 -> RegistrySpec.mapped w1 -> proc_head_of (shm_ptr (loc w1)) = head ->
  fill p w1 = Ret (rc, next') w' -> not_created rc w' \/ created rc w'.
Proof.
  intros Hpl Hp Hph Hpn Hpid (L1 & _ & P1 & _) Hm1 Hh1 E. unfold fill in E.
  set (X0 := Proc 0 PROC_STATUS_INIT 0 0 0 0 0 _ _) in E.
  set (w2 := set_procs (<[p := X0]> (procs w1)) w1).
  assert (put_proc p X0 w1 = Ret tt w2) as E2 by done. rewrite (bind_ret _ _ _ _ _ E2) in E.
  set (s3 := ListSpin.LStore (<[p := ListSpin.Node NULL NULL]> (ListSpin.nodes (lists w))) (ListSpin.heads (lists w))).
  assert (lift_list (ListSpin.libsrpc_list_node_init (node_of p)) w2 = Ret tt (set_lists s3 w2)) as E3.
  { unfold lift_list, node_of, ListSpin.libsrpc_list_node_init. rewrite (proj2 (Z.eqb_neq p NULL)) by done.
    unfold ListSpin.put_node, modify. cbn. by rewrite L1. }
  rewrite (bind_ret _ _ _ _ _ E3) in E. set (w3 := set_lists s3 w2) in E.
  assert (making p w3) as H3.
  { split; try done.
    - cbn. apply lookup_insert_eq.
    - apply linked_fresh; [done|done|apply Hl].
    - intros q Hq. cbn. rewrite lookup_insert_ne by done. by rewrite P1. }
  pose proof (making_plist p w3 Hpl H3) as Hl3.
  destruct (uid_loop_run w3 head l fuel (pl_listed _ _ _ Hl3) Hf 100 next Hnext) as (uid & n' & Eu & Hn' & Hok & _).
  assert (libsrpc_proc_get_uid fuel next w3 = Ret (uid, n') w3) as Eu'.
  { unfold libsrpc_proc_get_uid. rewrite (bind_ret _ _ _ _ _ (RegistrySpec.shmem_get_run w3 Hm1)).
    change (shm_ptr (loc w3)) with (shm_ptr (loc w1)). rewrite (proj2 (Z.eqb_neq (shm_ptr (loc w1)) NULL) (proj2 Hm1)), Hh1. exact Eu. }
  rewrite (bind_ret _ _ _ _ _ Eu') in E.
  assert (forall v x f, procs v !! p = Some x -> upd_proc p f v = Ret tt (set_procs (<[p := f x]> (procs v)) v)) as Hupd by (intros; by apply upd_proc_run).
  assert (procs w3 !! p = Some X0) as E30 by (cbn; apply lookup_insert_eq).
  rewrite (bind_ret _ _ _ _ _ (Hupd w3 X0 _ E30)) in E. set (X1 := Proc _ _ uid pid _ _ _ _ _) in E.
  set (w4 := set_procs (<[p := X1]> (procs w3)) w3) in E. assert (making p w4) as H4 by (by apply making_upd).
  assert (forall v r n, making p v -> r <> 0 -> create_failed p r n v = Ret (rc, next') w' -> not_created rc w') as Hfail.
  { intros v r n Hv Hr Ef. destruct (create_failed_run _ _ _ _ _ _ Ef Hr (making_plist p v Hpl Hv)) as [Ev Hp']. injection Ev as -> _. done. }
  destruct (Z.eqb_spec uid 0) as [|Hu]; [left; exact (Hfail w4 (- PROC_EBADF) _ H4 ltac:(discriminate) E)|].
  destruct (Hok Hu) as (Hun' & Hun & Huu).
  destruct (Z.ltb_spec sem_rc 0); [left; exact (Hfail w4 sem_rc _ H4 ltac:(lia) E)|].
  assert (procs w4 !! p = Some X1) as E40 by (cbn; apply lookup_insert_eq).
  rewrite (bind_ret _ _ _ _ _ (Hupd w4 X1 _ E40)) in E. set (w5 := set_procs (<[p := _]> (procs w4)) w4) in E.
  assert (making p w5) as H5 by (by apply making_upd).
  assert (procs w5 !! p = Some (set_p_sem 0 X1)) as E50 by (cbn; apply lookup_insert_eq).
  rewrite (bind_ret _ _ _ _ _ (Hupd w5 _ _ E50)) in E. set (X2 := set_p_queue _ _) in E.
  set (w6 := set_procs (<[p := X2]> (procs w5)) w5) in E. assert (making p w6) as H6 by (by apply making_upd).
  destruct (Z.eqb_spec spin_rc 0) as [Es|Es].
  2: { assert (lift_list (ListSpin.libsrpc_list_head_init spin_rc (req_head_of p)) w6 = Ret ListSpin.LIST_ELOCK w6) as E6.
       { unfold lift_list, ListSpin.libsrpc_list_head_init. rewrite (proj2 (Z.eqb_neq (req_head_of p) NULL)), (proj2 (Z.eqb_neq spin_rc 0)) by done.
         cbn [negb]. by destruct w6. }
       rewrite (bind_ret _ _ _ _ _ E6) in E. left. exact (Hfail w6 ListSpin.LIST_ELOCK _ H6 ltac:(discriminate) E). }
  set (s7 := ListSpin.LStore (ListSpin.nodes (lists w6)) (<[req_head_of p := ListSpin.LHead NULL 0]> (ListSpin.heads (lists w6)))).
  assert (lift_list (ListSpin.libsrpc_list_head_init spin_rc (req_head_of p)) w6 = Ret ListSpin.LIST_OK (set_lists s7 w6)) as E7.
  { unfold lift_list, ListSpin.libsrpc_list_head_init. rewrite (proj2 (Z.eqb_neq (req_head_of p) NULL)), Es by done. done. }
  rewrite (bind_ret _ _ _ _ _ E7) in E. cbn [ListSpin.LIST_OK Z.ltb Z.compare] in E. set (w7 := set_lists s7 w6) in E.
  assert (making p w7) as H7.
  { destruct H6 as [A1 A2 A3 A4 A5]. split; try done. by apply linked_head. }
  assert (procs w7 !! p = Some X2) as E70 by (cbn; apply lookup_insert_eq).
  rewrite (bind_ret _ _ _ _ _ (Hupd w7 _ _ E70)) in E. set (X3 := set_p_sign _ _) in E.
  set (w8 := set_procs (<[p := X3]> (procs w7)) w7) in E. assert (making p w8) as H8 by (by apply making_upd).
  destruct (ListSpin.lk_head _ _ _ (mk_list p w8 H8)) as [ops Eops].
  pose proof (ListSpin.push_front_exec (lists w8) head p NULL _ ops Hh Hp (mk_node p w8 H8) Eops) as Epush.
  assert (lift_list (ListSpin.libsrpc_list_push_front head (node_of p)) w8 = Ret ListSpin.LIST_OK (set_lists
    (ListSpin.LStore (<[p := ListSpin.Node (List.hd NULL l) head]> (ListSpin.nodes (lists w8)))
       (<[head := ListSpin.LHead p (u64 (ops + 1))]> (ListSpin.heads (lists w8)))) w8)) as E8.
  { unfold lift_list, node_of. by rewrite Epush. }
  fold head in E. rewrite (bind_ret _ _ _ _ _ E8) in E. cbn [ListSpin.LIST_OK Z.ltb Z.compare] in E. injection E as <- <- <-.
  right. split; [done|]. exists p, X3.
  pose proof (making_plist p w8 Hpl H8) as [[_ Hrec] Hnu Hnp].
  destruct (uids_same w3 w8 l) as [Euids Epids].
  { intros q Hq. assert (q <> p) by (by intros ->). by rewrite (mk_procs p w8 H8), (mk_procs p w3 H3). }
  destruct (uids_same w w8 l) as [Euids0 Epids0].
  { intros q Hq. assert (q <> p) by (by intros ->). by rewrite (mk_procs p w8 H8). }
  split; [cbn; apply lookup_insert_eq|]. split; [|split_and!; try done].
  - split; [split|..].
    + eapply (ListSpin.linked_push (lists w8)); [apply H8|done|apply H8|done|done].
    + intros q Hq. apply elem_of_cons in Hq as [->|Hq]; [exists X3; cbn; apply lookup_insert_eq|]. by apply Hrec.
    + change (NoDup (uids_in_use w8 (p :: l))). unfold uids_in_use. cbn [fmap list_fmap]. apply NoDup_cons. split; [|exact Hnu].
      change (uid_of w8 p ∉ uids_in_use w8 l). rewrite Euids. unfold uid_of. cbn. by rewrite lookup_insert_eq.
    + change (NoDup (pid_of w8 <$> p :: l)). cbn [fmap list_fmap]. apply NoDup_cons. split; [|exact Hnp].
      rewrite Epids0. unfold pid_of at 1. cbn. by rewrite lookup_insert_eq.
  - cbn. rewrite <- Euids0, Euids. done.
  - cbn. unfold DAEMON_PROC_UID. lia.
  - cbn. lia.
  - cbn. rewrite lookup_insert_ne by done. apply lookup_insert_eq.
Qed.

Lemma proc_create_run rc next' w' :
  libsrpc_proc_create cap fuel nproc sem_rc spin_rc pid next w = Ret (rc, next') w' ->
  not_created rc w' \/ created rc w'.
Proof.
  intros E. pose proof (linked_nonnull _ _ _ (proj1 (pl_listed _ _ _ Hl))) as Hnn.
  assert (forall w0, plist_ok w0 head l -> forall r n, r <> 0 -> (mret (r, n) : WM (Z * Z)) w0 = Ret (rc, next') w' -> not_created rc w') as Hret.
  { intros w0 H0 r n Hr E0. injection E0 as <- _ <-. done. }
  unfold libsrpc_proc_create in E. rewrite (bind_ret _ _ _ _ _ (RegistrySpec.shmem_get_run w Hm)) in E. fold head in E.
  destruct ((nproc <=? 0) || (1024 <? nproc) || (pid <=? 0)); [left; exact (Hret w Hl (- EINVAL) next ltac:(discriminate) E)|].
  rewrite (proj2 (Z.eqb_neq (shm_ptr (loc w)) NULL) (proj2 Hm)) in E.
  rewrite (bind_ret _ _ _ _ _ (proc_get_run w l fuel pid Hm (pl_listed _ _ _ Hl) Hf)) in E.
  destruct (Z.eqb_spec (default NULL (first_some (fun p => if pid_of w p =? pid then Some p else None) l)) NULL) as [Eg|Eg];
    cbn [negb] in E; [|left; exact (Hret w Hl (- EEXIST) next ltac:(discriminate) E)].
  pose proof (proc_get_absent w l pid Hnn Eg) as Hpid.
  destruct (_ <? sizeof_proc cap); [left; exact (Hret w Hl (- EINVAL) next ltac:(discriminate) E)|].
  apply bind_inv in E as (p & w1 & E1 & E). pose proof (Hfresh _ _ E1) as Hfr.
  pose proof (keeps_malloc _ _ _ _ _ E1) as Hsame. apply malloc_type_inv in E1 as [_ [e Eloc]].
  destruct (Z.eqb_spec p NULL) as [->|Hp].
  { left. refine (Hret w1 _ (- ENOMEM) next _ E); [|discriminate]. destruct Hsame as (L1 & _ & P1 & _).
    eapply plist_same; [exact Hl|by rewrite P1|]. rewrite L1. apply Hl. }
  destruct Hfr as [?|(Hpl & Hph & Hpn)]; [done|].
  apply (create_rest p w1 rc next' w' Hpl Hp Hph Hpn Hpid Hsame); [unfold RegistrySpec.mapped; by rewrite Eloc|by rewrite Eloc|exact E].
Qed.

(** [libsrpc_proc_create]: either the process list is as it was and an error is
    reported, or the list has one more process at its front, with the pid asked for,
    a valid signature, no request, and a uid that no other process has; so uids and
    pids stay unique in the list. *)
Theorem proc_create_spec rc next' w' :
  libsrpc_proc_create cap fuel nproc sem_rc spin_rc pid next w = Ret (rc, next') w' ->
  not_created rc w' \/ created rc w'.
Proof. apply proc_create_run. Qed.
End create.

(** ** A concrete list: one process, with uid 2 and pid 500 *)
Definition demo_head : Z := proc_head_of (TlsfSpec.demo_pool - POOL_OFF).
Definition demo_procs : world :=
  set_lists (ListSpin.LStore {[ 700 := ListSpin.Node NULL demo_head ]} {[ demo_head := ListSpin.LHead 700 1 ]})
    (set_procs {[ 700 := Proc LIBSRPC_PROC_SIGN PROC_STATUS_RUN 2 500 1 0 0 (MpmcQueue.Queue 0 0 ∅ ∅ 0) [NULL] ]} Shmem.demo_world).
Lemma demo_plist : plist_ok demo_procs demo_head [700].
Proof.
  split; [split; [split|]|..].
  - eexists. reflexivity.
  - split; [reflexivity|]. split; [discriminate|]. exists NULL. split; reflexivity.
  - apply NoDup_singleton.
  - intros n x E _. cbn in E. apply lookup_singleton_Some in E as [<- _]. apply list_elem_of_here.
  - intros p ->%list_elem_of_singleton. eexists. reflexivity.
  - apply NoDup_singleton.
  - apply NoDup_singleton.
Qed.
Lemma proc_get_uid_spec_witness : exists uid next', libsrpc_proc_get_uid 5 2 demo_procs = Ret (uid, next') demo_procs /\ uid <> 0.
Proof.
  destruct (proc_get_uid_spec demo_procs [700] 5 2) as (uid & n & E & _ & _ & H).
  - split; discriminate.
  - exact (pl_listed _ _ _ demo_plist).
  - cbn [length]. lia.
  - lia.
  - exists uid, n. split; [exact E|]. apply H; cbn [length]; lia.
Defined.
Lemma proc_create_spec_witness : exists w', libsrpc_proc_create 8 5 2 0 0 501 2 demo_procs = Ret (0, 3) w' /\
  created 2 501 demo_procs [700] 0 w'.
Proof.
  destruct (libsrpc_proc_create 8 5 2 0 0 501 2 demo_procs) as [[rc n] w'| | |] eqn:E; [|vm_compute in E; discriminate E..].
  exists w'. assert (rc = 0 /\ n = 3) as [-> ->] by (vm_compute in E; injection E; intros; split; congruence).
  split; [reflexivity|].
  destruct (proc_create_spec 8 5 2 0 0 501 2 demo_procs [700]) with (rc := 0) (next' := 3) (w' := w') as [[Hn _]|H].
  - split; discriminate.
  - discriminate.
  - exact demo_plist.
  - cbn [length]. lia.
  - lia.
  - intros p w1 Em. right. assert (p = TlsfSpec.demo_pool + 6976) as ->.
    { vm_compute in Em. injection Em as Ep _. vm_compute. congruence. }
    split; [|split]; [|discriminate..]. apply not_elem_of_cons. split; [discriminate|apply not_elem_of_nil].
  - exact E.
  - by destruct Hn.
  - exact H.
Defined.
