(* ===== verification/ProcMemory.v ===== *)
(** What becomes of the memory of a process that is gone: the heap walk of
    [libsrpc_proc_destroy] with its [destructor_fn] ([libsrpc_proc.c]). *)
From S2P Require Import Prelude Machine TlsfTypes TlsfBul TlsfHeap TlsfAlloc TlsfApi TlsfFacts TlsfHoare TlsfOwners TlsfOwnership TlsfSpec TlsfLists TlsfTiling TlsfBlocks TlsfMalloc TlsfFree TlsfPool TlsfWalk.
From S2P Require Request RequestSpec World Shmem Trash Proc.

(** ** The requests among the blocks *)

Definition ptr_of (p : Z * Z) : Z := p.1 + HEADER_SIZE.
Definition word_of (m : gmap Z Z) (p : Z * Z) : Z := rdm m (p.1 + OFF_sig_dc).
(** The blocks in use that [uid] owns, of the types in [T]. *)
Section typed.
Context (uid : Z) (T : Z -> Prop) `{!forall t, Decision (T t)}.
Definition owned_of (m : gmap Z Z) (p : Z * Z) : Prop := uid ∈ uids m p.1 /\ T (sig_type (word_of m p)).
#[export] Instance owned_of_dec m p : Decision (owned_of m p).
Proof. unfold owned_of. apply _. Defined.
Definition typed (m : gmap Z Z) (bs : list blk) : list (Z * Z) := filter (owned_of m) (used_of bs).
End typed.
Definition request_type (t : Z) : Prop := t = Shmem.SHMDT_REQUEST.
#[export] Instance request_type_dec t : Decision (request_type t).
Proof. unfold request_type. apply _. Defined.
Definition special_type (t : Z) : Prop := t = Shmem.SHMDT_REGFN \/ t = Shmem.SHMDT_PROC \/ t = Shmem.SHMDT_REQUEST.
#[export] Instance special_type_dec t : Decision (special_type t).
Proof. unfold special_type. apply _. Defined.
(** The requests, those not yet left to the collector, and the blocks that are not
    plain memory. *)
Abbreviation is_request uid := (owned_of uid request_type).
Abbreviation requests_of uid := (typed uid request_type).
Abbreviation specials_of uid := (typed uid special_type).
Definition unmarked (m : gmap Z Z) (p : Z * Z) : Prop := sig_dc_flag (word_of m p) = false.
#[export] Instance unmarked_dec m p : Decision (unmarked m p).
Proof. unfold unmarked. apply _. Defined.
Definition orphans (uid : Z) (m : gmap Z Z) (bs : list blk) : list (Z * Z) := filter (unmarked m) (requests_of uid m bs).

(** What the destructor leaves to [uid]. *)
Definition spared_word (w : Z) : Prop :=
  sig_type w = Shmem.SHMDT_REGFN \/ sig_type w = Shmem.SHMDT_PROC \/ (sig_type w = Shmem.SHMDT_REQUEST /\ sig_dc_flag w = true).
Definition destroyed_request (r : Request.request) : Request.request := default r (Request.libsrpc_req_destroy (Some r)).2.

(** ** Lists of blocks in use *)

Lemma tiled_used m bs : forall p a e, tiled m p a bs e -> a mod 64 = 0 ->
  NoDup (used_of bs).*1 /\ forall q, q ∈ used_of bs -> a <= q.1.
Proof.
  induction bs as [|x bs IH]; intros p a e T Ha; [split; [by apply NoDup_nil|intros q Hq; by apply not_elem_of_nil in Hq]|].
  rewrite used_of_cons. destruct T as (Ex & Hsz & Hm & _ & _ & _ & T). apply IH in T as [Hn Hb]; [|by apply mod64_add].
  destruct (bfree x); cbn [app fmap list_fmap fst]; split.
  - done.
  - intros q Hq. apply Hb in Hq. lia.
  - apply NoDup_cons. split; [|done]. intros Hin. apply list_elem_of_fmap in Hin as (q & E & Hq). apply Hb in Hq. lia.
  - intros q [->|Hq]%elem_of_cons; cbn; [lia|]. apply Hb in Hq. lia.
Qed.
Lemma used_apart s bs p q : at_work s bs -> p ∈ used_of bs -> q ∈ used_of bs -> p.1 = q.1 -> p = q.
Proof.
  intros Hw Hp Hq E. destruct (aw_heap _ _ Hw) as [F Hh]. pose proof (hp_tiled _ _ _ Hh) as T. apply tiled_used in T as [Hn _]; [|apply start_aligned, Hw].
  revert Hp Hq. induction (used_of bs) as [|r l IH]; intros Hp Hq; [by apply not_elem_of_nil in Hp|]. cbn in Hn. apply NoDup_cons in Hn as [Hr Hn].
  apply elem_of_cons in Hp as [->|Hp], Hq as [->|Hq]; try done; [..|by apply IH]; exfalso; apply Hr; [rewrite E|rewrite <- E]; by apply list_elem_of_fmap_2.
Qed.
Lemma used_nodup s bs : at_work s bs -> NoDup (used_of bs).
Proof.
  intros Hw. destruct (aw_heap _ _ Hw) as [F Hh]. pose proof (hp_tiled _ _ _ Hh) as T. apply tiled_used in T as [Hn _]; [|apply start_aligned, Hw].
  by apply NoDup_fmap_1 in Hn.
Qed.

Lemma filter_same {A} (P P' : A -> Prop) `{!forall x, Decision (P x)} `{!forall x, Decision (P' x)} (l : list A) :
  (forall x, x ∈ l -> (P' x <-> P x)) -> filter P' l = filter P l.
Proof.
  induction l as [|x l IH]; intros Hsame; [done|]. pose proof (Hsame x (list_elem_of_here _ _)) as Hx. rewrite !filter_cons, IH.
  - destruct (decide (P x)), (decide (P' x)); tauto.
  - intros y Hy. by apply Hsame, list_elem_of_further.
Qed.
(** A predicate that comes to hold of one element more. *)
Lemma filter_one_more {A} (P P' : A -> Prop) `{!forall x, Decision (P x)} `{!forall x, Decision (P' x)} a (l : list A) : NoDup l -> a ∈ l -> ~ P a -> P' a ->
  (forall x, x ∈ l -> x <> a -> (P' x <-> P x)) ->
  length (filter P' l) = S (length (filter P l)) /\ forall x, x ∈ filter P' l <-> x = a \/ x ∈ filter P l.
Proof.
  intros Hn Ha HPa HPa' Hsame. apply list_elem_of_split in Ha as (l1 & l2 & ->).
  apply NoDup_app in Hn as (_ & Hn1 & Hn2). apply NoDup_cons in Hn2 as [Hn2 _].
  assert (forall k : list A, (forall x, x ∈ k -> x ∈ l1 ++ a :: l2 /\ x <> a) -> filter P' k = filter P k) as Hf.
  { intros k Hk. apply filter_same. intros x Hx. apply Hk in Hx as [? ?]. by apply Hsame. }
  rewrite !filter_app, !filter_cons, decide_True, decide_False by done.
  rewrite (Hf l1), (Hf l2).
  - split; [rewrite !length_app; cbn; lia|]. intros x. rewrite !elem_of_app, elem_of_cons. tauto.
  - intros x Hx. split; [apply elem_of_app; right; by apply list_elem_of_further|by intros ->].
  - intros x Hx. split; [apply elem_of_app; by left|]. intros ->. apply (Hn1 a Hx), list_elem_of_here.
Qed.
Lemma typed_sub uid T `{!forall t, Decision (T t)} m bs p : p ∈ typed uid T m bs -> p ∈ used_of bs.
Proof. by intros [_ ?]%list_elem_of_filter. Qed.
Lemma typed_same uid T `{!forall t, Decision (T t)} m m' bs :
  (forall p, p ∈ used_of bs -> uids m' p.1 = uids m p.1 /\ sig_type (word_of m' p) = sig_type (word_of m p)) -> typed uid T m' bs = typed uid T m bs.
Proof. intros Hu. apply filter_same. intros p Hp. unfold owned_of. by destruct (Hu p Hp) as [-> ->]. Qed.
Definition pair_of (x : blk) : Z * Z := (baddr x, bsize x).
Lemma pair_in l1 x l2 : bfree x = false -> pair_of x ∈ used_of (l1 ++ x :: l2).
Proof. intros Hf. apply used_of_in. exists x. split; [apply in_split|done]. Qed.
(** A step on the block [x] that keeps the others in use. *)
Lemma others_same s l1 x l2 m' : at_work s (l1 ++ x :: l2) -> bfree x = false ->
  (forall y, y ∈ l1 ++ x :: l2 -> bfree y = false -> baddr y <> baddr x -> kept y (mem s) m') ->
  forall p, p ∈ used_of (l1 ++ x :: l2) -> p <> pair_of x -> uids m' p.1 = uids (mem s) p.1 /\ word_of m' p = word_of (mem s) p.
Proof.
  intros Hw Hf Hk p Hp Hne. assert (p.1 <> baddr x) as Ha.
  { intros E. apply Hne. eapply used_apart; [done|done|by apply pair_in|done]. }
  destruct p as [a n]. apply used_of_in in Hp as (y & Hy & Hfy & <- & _). cbn [fst] in *.
  destruct (aw_heap _ _ Hw) as [F Hh]. destruct (block_facts s _ F (aw_geo _ _ Hw) Hh y Hy) as (Hok & _). pose proof (Hk y Hy Hfy Ha) as K.
  split; [by apply kept_uids|]. apply K; destruct Hok as [? _]; offs; lia.
Qed.

(** A block of another type goes. *)
Definition block_gone (s s' : tlsf) (l1 : list blk) (x : blk) (l2 bs' : list blk) : Prop :=
  (used_of bs' = used_of (l1 ++ x :: l2) /\ rdm (mem s') (baddr x + OFF_sig_dc) = rdm (mem s) (baddr x + OFF_sig_dc)) \/ used_of bs' = used_of l1 ++ used_of l2.
Lemma typed_gone uid T `{!forall t, Decision (T t)} s s' l1 x l2 bs' : at_work s (l1 ++ x :: l2) -> bfree x = false ->
  ~ T (sig_type (word_of (mem s) (pair_of x))) -> block_gone s s' l1 x l2 bs' ->
  (forall p, p ∈ used_of (l1 ++ x :: l2) -> p <> pair_of x -> uids (mem s') p.1 = uids (mem s) p.1 /\ word_of (mem s') p = word_of (mem s) p) ->
  typed uid T (mem s') bs' = typed uid T (mem s) (l1 ++ x :: l2).
Proof.
  intros Hw Hf HT Hused Ho. unfold typed.
  assert (forall p, p ∈ used_of (l1 ++ x :: l2) -> p <> pair_of x -> owned_of uid T (mem s') p <-> owned_of uid T (mem s) p) as Hsame.
  { intros p Hp Hne. unfold owned_of. by destruct (Ho p Hp Hne) as [-> ->]. }
  assert (used_of (l1 ++ x :: l2) = used_of l1 ++ pair_of x :: used_of l2) as Eu by (by rewrite used_of_app, used_of_cons, Hf).
  destruct Hused as [[-> Ew]| ->].
  - apply filter_same. intros p Hp. destruct (decide (p = pair_of x)) as [->|Hne]; [|by apply Hsame].
    assert (word_of (mem s') (pair_of x) = word_of (mem s) (pair_of x)) as E by exact Ew.
    unfold owned_of. rewrite E. tauto.
  - rewrite Eu, (filter_app (owned_of uid T (mem s))), filter_cons, decide_False, <- filter_app by (by intros [_ ?]). pose proof (used_nodup s _ Hw) as Hn. rewrite Eu in Hn.
    apply NoDup_app in Hn as (_ & N1 & N2). apply NoDup_cons in N2 as [N2 _].
    apply filter_same. intros p Hp. apply elem_of_app in Hp. apply Hsame.
    + rewrite Eu, elem_of_app, elem_of_cons. tauto.
    + intros ->. destruct Hp as [Hp|Hp]; [apply (N1 _ Hp), list_elem_of_here|done].
Qed.

Section destructor.
Context (realloc : Trash.trash_store -> Z -> Z -> Z) (garbage : Z -> nat -> list Z) (h uid : Z).
Context (m0 : gmap Z Z) (u0 : Proc.duser) (R S : list (Z * Z)).
Hypothesis Hh : h <> 0.
Hypothesis Huid : uid <> 0.
Hypothesis Hknown : forall p, p ∈ R -> is_Some (Proc.d_reqs u0 !! ptr_of p).

(** The requests marked so far. *)
Definition newly (m : gmap Z Z) (p : Z * Z) : Prop := sig_dc_flag (word_of m p) = true /\ unmarked m0 p.
#[export] Instance newly_dec m p : Decision (newly m p).
Proof. unfold newly. apply _. Defined.
Definition done_with (m : gmap Z Z) : list (Z * Z) := filter (newly m) R.
(** The walk so far: the requests of [uid] are those of the start; the ones marked are
    destroyed_request and counted, the other requests are as they were. *)
Record walked (m : gmap Z Z) (bs : list blk) (u : Proc.duser) : Prop := Walked {
  wk_trash : Proc.d_trash u = NULL;
  wk_trashes : Proc.d_trashes u = Proc.d_trashes u0;
  wk_requests : requests_of uid m bs = R;
  wk_specials : specials_of uid m bs = S;
  wk_marks : forall p, p ∈ R -> sig_dc_flag (word_of m0 p) = true -> sig_dc_flag (word_of m p) = true;
  wk_count : Proc.dc_count u = Z.of_nat (length (done_with m));
  wk_reqs : forall q, Proc.d_reqs u !! q = if decide (q ∈ ptr_of <$> done_with m) then destroyed_request <$> Proc.d_reqs u0 !! q else Proc.d_reqs u0 !! q }.

(** A step that leaves the headers of the requests leaves the walk where it is. *)
Lemma walked_step m bs u m' bs' : walked m bs u -> requests_of uid m' bs' = R -> specials_of uid m' bs' = S -> (forall p, p ∈ R -> word_of m' p = word_of m p) -> walked m' bs' u.
Proof.
  intros [H1 H2 H3 Hsp H4 H5 H6] HR HS Hw.
  assert (done_with m' = done_with m) as E.
  { apply filter_same. intros p Hp. unfold newly. by rewrite Hw. }
  split; try done; [intros p Hp; rewrite Hw by done; by apply H4|by rewrite E|by rewrite E].
Qed.

(** A request is marked. *)
Lemma walked_mark s l1 x l2 u : at_work s (l1 ++ x :: l2) -> bfree x = false -> walked (mem s) (l1 ++ x :: l2) u ->
  is_request uid (mem s) (pair_of x) -> unmarked (mem s) (pair_of x) ->
  let q := baddr x + HEADER_SIZE in
  exists r, Proc.d_reqs u !! q = Some r /\
    walked (marked_mem x (mem s)) (l1 ++ x :: l2)
      (Proc.DUser (<[q := destroyed_request r]> (Proc.d_reqs u)) (Proc.d_trashes u) (u64 (Proc.dc_count u + 1)) (Proc.d_trash u)).
Proof.
  intros Hw Hf HW Hr Hum q. set (bs := l1 ++ x :: l2) in *. set (m := mem s) in *. set (m' := marked_mem x m).
  assert (pair_of x ∈ R) as HxR.
  { rewrite <- (wk_requests _ _ _ HW). apply list_elem_of_filter. split; [done|by apply pair_in]. }
  assert (word_of m' (pair_of x) = Z.lor (word_of m (pair_of x)) SIG_DC_DC_BIT) as Ew by apply rdm_insert_eq.
  destruct (set_dc_word (word_of m (pair_of x))) as (Ef & Et & _). rewrite <- Ew in Ef, Et.
  pose proof (mark_left (fun _ => True) s l1 x l2 Hw Hf I) as HL.
  assert (forall p, p ∈ used_of bs -> p <> pair_of x -> uids m' p.1 = uids m p.1 /\ word_of m' p = word_of m p) as Ho.
  { apply (others_same s l1 x l2 m' Hw Hf). intros y Hy Hfy Hne. apply (li_kept _ _ _ _ _ _ HL). split; [by apply in_mid in Hy as [->|Hy]|]. by rewrite (proj1 (aw_settled _ _ Hw y Hy)). }
  assert (forall p, p ∈ R -> p <> pair_of x -> word_of m' p = word_of m p) as Hword.
  { intros p Hp. apply Ho. rewrite <- (wk_requests _ _ _ HW) in Hp. by eapply typed_sub. }
  assert (forall T `{!forall t, Decision (T t)}, typed uid T m' bs = typed uid T m bs) as Hall.
  { intros T HT. apply typed_same. intros p Hp. destruct (decide (p = pair_of x)) as [->|Hne].
    - pose proof (li_uids _ _ _ _ _ _ HL) as E. cbn [mem set_mem] in E. by rewrite Et.
    - by destruct (Ho p Hp Hne) as [-> ->]. }
  assert (unmarked m0 (pair_of x)) as Hum0.
  { unfold unmarked. destruct (sig_dc_flag (word_of m0 (pair_of x))) eqn:E; [|done]. apply (wk_marks _ _ _ HW) in E; [|done]. unfold unmarked in Hum. congruence. }
  destruct (Hknown _ HxR) as [r Er]. assert (pair_of x ∉ done_with m) as Hnd.
  { intros Hin. apply list_elem_of_filter in Hin as [[E _] _]. unfold unmarked in Hum. congruence. }
  assert (NoDup R) as HnR by (rewrite <- (wk_requests _ _ _ HW); eapply NoDup_filter, used_nodup, Hw).
  destruct (filter_one_more (newly m) (newly m') (pair_of x) R) as [Hlen Hin]; [done|done|by intros [E _]; unfold unmarked in Hum; congruence|done| |].
  { intros p Hp Hne. unfold newly. by rewrite Hword. }
  change (filter (newly m') R) with (done_with m') in *. change (filter (newly m) R) with (done_with m) in *.
  assert (q ∉ ptr_of <$> done_with m) as Hq.
  { intros Hqd. apply list_elem_of_fmap in Hqd as (p & Ep & Hp). assert (p = pair_of x) as ->; [|done]. pose proof Hp as Hp'.
    apply list_elem_of_filter in Hp' as [_ HpR]. rewrite <- (wk_requests _ _ _ HW) in HpR. apply typed_sub in HpR.
    eapply used_apart; [done|done|by apply pair_in|]. unfold ptr_of, q in Ep. cbn [pair_of fst]. lia. }
  exists r. split; [rewrite (wk_reqs _ _ _ HW), decide_False by done; exact Er|]. pose proof HW as [H1 H2 H3 Hsp H4 H5 H6]. split; cbn; try done.
  - by rewrite Hall, <- H3.
  - by rewrite Hall, <- Hsp.
  - intros p Hp E. destruct (decide (p = pair_of x)) as [->|Hne]; [done|]. rewrite Hword by done. by apply H4.
  - rewrite H5, Hlen. assert (length (done_with m) <= length R)%nat by apply length_filter.
    assert (length R <= length bs)%nat by (rewrite <- H3; etrans; [apply length_filter|]; unfold used_of; rewrite length_fmap; apply length_filter).
    pose proof (blocks_bound s bs Hw) as Hb. destruct (aw_geo _ _ Hw) as [(_ & G) G2]. destruct G2 as [G2 G3], G as (? & ? & ? & ? & ? & ? & ?).
    unfold SIZEOF_TLSF_CTRL in *. rewrite u64_small; lia.
  - intros q'. destruct (decide (q' = q)) as [->|Hne].
    + rewrite lookup_insert_eq, decide_True; [change q with (ptr_of (pair_of x)); by rewrite Er|]. apply list_elem_of_fmap. exists (pair_of x). split; [done|]. apply Hin. by left.
    + rewrite lookup_insert_ne, H6 by done. assert (q' ∈ ptr_of <$> done_with m' <-> q' ∈ ptr_of <$> done_with m) as Hiff.
      { rewrite !list_elem_of_fmap. split; intros (p & -> & Hp); exists p; (split; [done|]).
        - apply Hin in Hp as [->|Hp]; [|done]. done.
        - apply Hin. by right. }
      destruct (decide (q' ∈ ptr_of <$> done_with m)), (decide (q' ∈ ptr_of <$> done_with m')); tauto.
Qed.

(** A block of another kind is freed. *)
Lemma walked_free s l1 x l2 u s' bs' : at_work s (l1 ++ x :: l2) -> bfree x = false -> walked (mem s) (l1 ++ x :: l2) u ->
  ~ special_type (sig_type (word_of (mem s) (pair_of x))) -> block_gone s s' l1 x l2 bs' ->
  (forall y, y ∈ l1 ++ x :: l2 -> bfree y = false -> baddr y <> baddr x -> kept y (mem s) (mem s')) -> walked (mem s') bs' u.
Proof.
  intros Hw Hf HW Hty Hused Hk. pose proof (others_same s l1 x l2 (mem s') Hw Hf Hk) as Ho. pose proof (wk_requests _ _ _ HW) as HR.
  apply (walked_step _ _ _ _ _ HW).
  - rewrite <- HR. eapply typed_gone; try done. intros E. apply Hty. by do 2 right.
  - rewrite <- (wk_specials _ _ _ HW). by eapply typed_gone.
  - intros p Hp. rewrite <- HR in Hp. apply list_elem_of_filter in Hp as [[_ Hr] Hp]. apply Ho; [done|]. intros ->. apply Hty. by do 2 right.
Qed.

Lemma destructor_obeys : obeys (Proc.destructor_fn realloc garbage h) uid spared_word walked.
Proof.
  intros s l1 x l2 u Hw HW Hf Hin. pose proof (live_block s _ x Hw (in_split l1 l2 x) Hf) as Hl. pose proof (proj1 (aw_geo _ _ Hw)) as Hg.
  pose proof (proj1 (proj2 Hl)) as Hpos. unfold Proc.destructor_fn.
  rewrite !(proj2 (Z.eqb_neq _ _)) by (done || unfold HEADER_SIZE; lia). cbn [orb].
  apply wp_bind. eapply wp_mono; [apply wp_tlsf_get_data_type; done|done|]. intros ty s1 [-> ->].
  apply wp_bind. eapply wp_mono; [apply wp_tlsf_getdc; done|done|]. intros dc s1 [-> ->].
  unfold rd. change (rdm (mem s) (baddr x + OFF_sig_dc)) with (word_of (mem s) (pair_of x)).
  destruct (Z.eqb_spec (sig_type (word_of (mem s) (pair_of x))) Shmem.SHMDT_REGFN) as [E|Er]; [|destruct (Z.eqb_spec (sig_type (word_of (mem s) (pair_of x))) Shmem.SHMDT_PROC) as [E|Ep]]; cbn [orb].
  1,2: apply wp_ret; split; [done|]; left; split; [done|]; split; [apply left_as_is; [done|]; unfold spared_word; tauto|done].
  destruct (Z.eqb_spec (sig_type (word_of (mem s) (pair_of x))) Shmem.SHMDT_REQUEST) as [E|Eq].
  - destruct (sig_dc_flag (word_of (mem s) (pair_of x))) eqn:Ef.
    { apply wp_ret. split; [done|]. left. split; [done|]. split; [apply left_as_is; [done|]; unfold spared_word; tauto|done]. }
    destruct (walked_mark s l1 x l2 u Hw Hf HW) as (r & Hr & HW'); [by split|done|]. cbn [Z.eqb]. rewrite Hr.
    apply wp_bind, (wp_mark _ s l1 x l2); [done|done|done|]. apply wp_ret. split; [done|]. left. split; [done|]. split; [|exact HW'].
    apply mark_left; [done|done|]. destruct (set_dc_word (rdm (mem s) (baddr x + OFF_sig_dc))) as (F1 & F2 & _).
    unfold spared_word. rewrite F1, F2. tauto.
  - rewrite (wk_trash _ _ _ HW). change (negb (NULL =? NULL)) with false. cbn match.
    apply wp_bind. eapply wp_mono; [apply nb_took; done|done|]. intros [] s' (Hpl & bs' & HT & Hused & Hk).
    apply wp_ret. split; [done|]. right. split; [done|]. exists bs'. split; [done|]. eapply walked_free; try done. by intros [?|[?|?]].
Qed.
End destructor.

(** ** The walk of [libsrpc_proc_destroy], no lock held by the process *)

(** What the walk leaves of [uid]'s blocks [bs]: those that are not plain memory, the
    requests among them marked for the collector. *)
Record all_released (uid : Z) (s : tlsf) (bs : list blk) (s' : tlsf) (bs' : list blk) : Prop := AllReleased {
  ar_owned : owned_by uid (mem s') (used_of bs') = specials_of uid (mem s) bs;
  ar_marked : forall p, p ∈ requests_of uid (mem s) bs -> sig_dc_flag (word_of (mem s') p) = true;
  ar_spares : spares_others uid s bs s' bs' }.

Lemma moved_node_stays a w : Proc.moved_node a a w = w.
Proof. unfold Proc.moved_node. rewrite Z.eqb_refl. by case_match. Qed.
Lemma free_uid_blocks_done fuel realloc garbage rounds h uid g bs : let s := World.pool (Trash.gw g) in let D := orphans uid (mem s) bs in
  pool_ok s bs -> h <> 0 -> uid <> 0 -> heap_size (geo s) / 128 < Z.of_nat fuel -> heap_size (geo s) / 128 < Z.of_nat rounds ->
  (forall p, p ∈ requests_of uid (mem s) bs -> is_Some (World.reqs (Trash.gw g) !! ptr_of p)) ->
  exists s' bs' rq, Proc.free_uid_blocks fuel realloc garbage rounds h uid NULL g =
      Ret (0, (Z.of_nat (length D), NULL)) (Trash.GWorld (World.set_pool s' (World.set_reqs rq (Trash.gw g))) (Trash.trashes g)) /\
    pool_ok s' bs' /\ all_released uid s bs s' bs' /\
    forall q, rq !! q = if decide (q ∈ ptr_of <$> D) then destroyed_request <$> World.reqs (Trash.gw g) !! q else World.reqs (Trash.gw g) !! q.
Proof.
  intros s D Hp Hh Hu Hfuel Hrounds Hknown. set (R := requests_of uid (mem s) bs). set (S := specials_of uid (mem s) bs).
  set (u0 := Proc.DUser (World.reqs (Trash.gw g)) (Trash.trashes g) 0 NULL).
  assert (done_with (mem s) R (mem s) = []) as E0.
  { apply elem_of_nil_inv. intros p Hpin. apply list_elem_of_filter in Hpin as [[H1 H2] _]. unfold unmarked in H2. congruence. }
  assert (walked uid (mem s) u0 R S (mem s) bs u0) as H0.
  { split; try done; [by rewrite E0|]. intros q. rewrite E0. cbn. by rewrite decide_False by apply not_elem_of_nil. }
  destruct (free_uid_blocks_run (Proc.destructor_fn realloc garbage h) uid spared_word (walked uid (mem s) u0 R S) rounds fuel s bs h u0)
    as (s' & bs' & u' & E & Hp' & [W1 W2 W3 WS W4 W5 W6] & Hsw & Hsp); try done; [by apply destructor_obeys|].
  assert (forall p, p ∈ used_of bs' -> uid ∈ uids (mem s') p.1 -> spared_word (word_of (mem s') p)) as Hend.
  { intros [a n] Hin Hpu. apply used_of_in in Hin as (y & Hy & Hfy & <- & _). by apply (Hsw y). }
  assert (forall p, p ∈ R -> sig_dc_flag (word_of (mem s') p) = true) as Hmark.
  { intros p HpR. rewrite <- W3 in HpR. apply list_elem_of_filter in HpR as [[Hpu Hpt] HpR]. unfold request_type in Hpt.
    destruct (Hend p HpR Hpu) as [H|[H|[_ H]]]; [rewrite H in Hpt; done..|exact H]. }
  assert (done_with (mem s) R (mem s') = D) as ED.
  { apply filter_same. intros p HpR. unfold newly. split; [by intros [_ ?]|]. intros Hum. split; [by apply Hmark|done]. }
  rewrite ED in W5, W6. exists s', bs', (Proc.d_reqs u'). split; [|split; [done|split; [split; try done|done]]].
  - unfold Proc.free_uid_blocks. fold s. fold u0. rewrite E. destruct u' as [rq ts dc tr]. cbn in *. subst. by rewrite moved_node_stays.
  - change (specials_of uid (mem s) bs) with S. rewrite <- WS. apply filter_same. intros p Hpin. unfold owned_of, special_type. split; [|tauto].
    intros Hpu. split; [done|]. destruct (Hend p Hpin Hpu) as [H|[H|[H _]]]; tauto.
Qed.

(** (C6) The heap walk of [libsrpc_proc_destroy] ends, for a process that holds no lock:
    of the dead process' blocks only those that are not plain memory stay, its requests
    all marked for the collector; each request it marks is destroyed, once, and counted,
    so that the collector is woken; requests of others keep their contents, blocks that
    somebody else owns keep their place, that owner and what is written in them, and the
    pool is well-formed. *)
Theorem dead_process_memory_released fuel realloc garbage rounds h uid g bs :
  let s := World.pool (Trash.gw g) in let D := orphans uid (mem s) bs in
  pool_ok s bs -> h <> 0 -> uid <> 0 -> heap_size (geo s) / 128 < Z.of_nat fuel -> heap_size (geo s) / 128 < Z.of_nat rounds ->
  (forall p, p ∈ requests_of uid (mem s) bs -> is_Some (World.reqs (Trash.gw g) !! ptr_of p)) ->
  exists s' bs' rq, Proc.free_uid_blocks fuel realloc garbage rounds h uid NULL g =
      Ret (0, (Z.of_nat (length D), NULL)) (Trash.GWorld (World.set_pool s' (World.set_reqs rq (Trash.gw g))) (Trash.trashes g)) /\
    pool_ok s' bs' /\ all_released uid s bs s' bs' /\
    forall q, rq !! q = if decide (q ∈ ptr_of <$> D) then destroyed_request <$> World.reqs (Trash.gw g) !! q else World.reqs (Trash.gw g) !! q.
Proof. apply free_uid_blocks_done. Qed.

(** A pool whose only block in use is the dead process' own: plain memory is freed, a
    request is destroyed and left to the collector. *)
Definition demo_dead (s : tlsf) : Trash.gworld :=
  Trash.GWorld (World.set_pool s (World.set_reqs {[ demo_block + HEADER_SIZE := RequestSpec.demo_request ]} Shmem.demo_world)) ∅.
Lemma demo_typed T `{!forall t, Decision (T t)} s dt : uids (mem s) demo_block = [7; 0; 0; 0; 0; 0; 0; 0; 0; 0; 0; 0] ->
  rdm (mem s) (demo_block + OFF_sig_dc) = make_sig_dc false dt ->
  typed 7 T (mem s) cut_pool = if decide (T (sig_type (make_sig_dc false dt))) then [(demo_block, 192)] else [].
Proof.
  intros Hu Hs. unfold typed. change (used_of cut_pool) with [(demo_block, 192)]. rewrite filter_cons, filter_nil.
  assert (7 ∈ uids (mem s) demo_block) as Hin by (rewrite Hu; apply list_elem_of_here).
  assert (owned_of 7 T (mem s) (demo_block, 192) <-> T (sig_type (make_sig_dc false dt))) as E by (unfold owned_of, word_of; cbn [fst]; rewrite Hs; tauto).
  destruct (decide (T (sig_type (make_sig_dc false dt)))); [rewrite decide_True|rewrite decide_False]; tauto.
Qed.
Lemma dead_process_memory_released_witness : exists s1 s2 g1 g2 bs1 bs2,
  Proc.free_uid_blocks 20 (fun _ _ _ => 0) (fun _ _ => []) 20 demo_pool 7 NULL (demo_dead s1) = Ret (0, (0, NULL)) g1 /\
  pool_ok (World.pool (Trash.gw g1)) bs1 /\ owned_by 7 (mem (World.pool (Trash.gw g1))) (used_of bs1) = [] /\
  Proc.free_uid_blocks 20 (fun _ _ _ => 0) (fun _ _ => []) 20 demo_pool 7 NULL (demo_dead s2) = Ret (0, (1, NULL)) g2 /\
  pool_ok (World.pool (Trash.gw g2)) bs2 /\ owned_by 7 (mem (World.pool (Trash.gw g2))) (used_of bs2) = [(demo_block, 192)] /\
  World.reqs (Trash.gw g2) !! (demo_block + HEADER_SIZE) = Some (destroyed_request RequestSpec.demo_request).
Proof.
  destruct (cut_pool_typed Shmem.SHMDT_USER) as (s1 & P1 & U1 & S1 & E1), (cut_pool_typed Shmem.SHMDT_REQUEST) as (s2 & P2 & U2 & S2 & E2).
  exists s1, s2.
  destruct (dead_process_memory_released 20 (fun _ _ _ => 0) (fun _ _ => []) 20 demo_pool 7 (demo_dead s1) cut_pool) as (s1' & b1 & q1 & F1 & Q1 & [O1 _ _] & _).
  - exact P1.
  - discriminate.
  - discriminate.
  - cbn [demo_dead Trash.gw World.pool World.set_pool]. by rewrite E1.
  - cbn [demo_dead Trash.gw World.pool World.set_pool]. by rewrite E1.
  - cbn [demo_dead Trash.gw World.pool World.set_pool]. rewrite (demo_typed request_type s1 _ U1 S1). intros p Hp. by apply not_elem_of_nil in Hp.
  - destruct (dead_process_memory_released 20 (fun _ _ _ => 0) (fun _ _ => []) 20 demo_pool 7 (demo_dead s2) cut_pool) as (s2' & b2 & q2 & F2 & Q2 & [O2 _ _] & R2).
    + exact P2.
    + discriminate.
    + discriminate.
    + cbn [demo_dead Trash.gw World.pool World.set_pool]. by rewrite E2.
    + cbn [demo_dead Trash.gw World.pool World.set_pool]. by rewrite E2.
    + cbn [demo_dead Trash.gw World.pool World.set_pool]. rewrite (demo_typed request_type s2 _ U2 S2). intros p ->%list_elem_of_singleton. by eexists.
    + cbn [demo_dead Trash.gw World.pool World.set_pool] in *. unfold orphans in *.
      rewrite (demo_typed request_type s1 _ U1 S1) in F1. rewrite (demo_typed special_type s1 _ U1 S1) in O1.
      rewrite (demo_typed request_type s2 _ U2 S2) in F2, R2. rewrite (demo_typed special_type s2 _ U2 S2) in O2.
      assert (filter (unmarked (mem s2)) [(demo_block, 192)] = [(demo_block, 192)]) as Ef.
      { rewrite filter_cons, decide_True; [done|]. unfold unmarked, word_of. cbn [fst]. by rewrite S2, make_sig_flag. }
      change (decide (request_type _)) with (@left (request_type 3) (~ request_type 3) eq_refl) in F2, R2. cbv iota in F2, R2. rewrite Ef in F2, R2.
      do 4 eexists. split; [exact F1|]. split; [exact Q1|]. split; [exact O1|]. split; [exact F2|]. split; [exact Q2|]. split; [exact O2|].
      specialize (R2 (demo_block + HEADER_SIZE)). exact R2.
Defined.
