(* ===== verification/Gc.v ===== *)
(** The collector thread of the daemon ([libsrpc_shm_gc.c]): it gathers the blocks
    marked for deferred cleaning, tells which of them somebody still points at, and
    frees the others. *)
From S2P Require Import Prelude Machine Errno Request World Shmem Rpc RpcCall Registry Trash Proc.
From S2P Require ListSpin TlsfTypes TlsfBul TlsfApi.

(** ** The collector's array *)

(** [gc_elm_t] and [gc_pool_t] (without its unused [state]): [elm] are the first
    [count] elements of the array. *)
Record gc_elm := GcElm { e_ptr : Z; e_type : Z; e_uid : Z; refcount : Z }.
Definition POOL_SIZE := 1024.
Record gc_pool := GcPool { count : Z; type_cnt : list Z; elm : list gc_elm }.
Definition empty_pool : gc_pool := GcPool 0 (replicate (Z.to_nat SHMDT_MAX) 0) [].
Definition gc_add (e : gc_elm) (pool : gc_pool) : gc_pool :=
  GcPool (count pool + 1)
    (if e_type e <? SHMDT_MAX then alter (fun n => n + 1) (Z.to_nat (e_type e)) (type_cnt pool) else type_cnt pool)
    (elm pool ++ [e]).
Definition bump_ref (e : gc_elm) : gc_elm := GcElm (e_ptr e) (e_type e) (e_uid e) (u32 (refcount e + 1)).

(** [destructor_fn]: special blocks are gathered, the others freed at once. *)
Definition destructor_fn (tlsf : Z) (pool : gc_pool) (ptr block match_uid : Z) : TlsfTypes.TM (Z * gc_pool) :=
  if (ptr =? NULL) || (tlsf =? NULL) || (block =? NULL) then mret (- EINVAL, pool)
  else if POOL_SIZE <=? count pool then mret (- ENOMEM, pool)
  else
    data_type ← TlsfApi.tlsf_get_data_type tlsf ptr;
    let data_type := if data_type <? 0 then 0 else data_type in
    flag_dc ← TlsfApi.tlsf_getdc tlsf ptr;
    let flag_dc := if flag_dc <? 0 then 0 else flag_dc in
    if (data_type =? SHMDT_PROC) || (data_type =? SHMDT_REGFN) || (data_type =? SHMDT_REQUEST) then
      if flag_dc =? 0 then mret (0, pool)
      else
        let pool := gc_add (GcElm ptr (u16 data_type) match_uid 0) pool in
        mret (if POOL_SIZE <=? count pool then - ENOMEM else 0, pool)
    else TlsfApi.tlsf_free_nb tlsf ptr match_uid ;; mret (0, pool).

Section gc.
Context (cap : Z) (fuel : nat).

(** ** Freeing what nobody points at *)

(** The body of the first loop of [gc_pool_destroy]; the destruction of a process's
    semaphore has no effect that is modelled. *)
Definition check_elm (e : gc_elm) : WM gc_elm :=
  if e_type e =? SHMDT_PROC then
    aimed ← libsrpc_proc_cs_aimed_at fuel (e_ptr e);
    if negb (aimed =? 0) then mret (bump_ref e)
    else
      x ← get_proc (e_ptr e);
      (if p_status x =? PROC_STATUS_DELETE then put_proc (e_ptr e) (set_p_status PROC_STATUS_DEAD x) else mret tt) ;;
      mret e
  else if e_type e =? SHMDT_REGFN then
    busy ← libsrpc_shmem_is_busy_regfn fuel (e_ptr e);
    mret (if negb (busy =? 0) then bump_ref e else e)
  else if e_type e =? SHMDT_REQUEST then
    busy ← libsrpc_req_is_busy_proc cap fuel (e_ptr e);
    if negb (busy =? 0) then mret (bump_ref e)
    else
      r ← req_or_null (e_ptr e);
      match (libsrpc_req_destroy r).2 with
      | Some r => put_req (e_ptr e) r
      | None => mret tt
      end ;;
      mret e
  else mret e.
Fixpoint check_elms (es : list gc_elm) : WM (list gc_elm) :=
  match es with
  | [] => mret []
  | e :: es => e ← check_elm e; es ← check_elms es; mret (e :: es)
  end.

(** The condition of the two other loops. *)
Definition unused (e : gc_elm) : bool := negb (e_ptr e =? NULL) && (refcount e =? 0).
Fixpoint count_unused (es : list gc_elm) (n : Z) : Z :=
  match es with [] => n | e :: es => count_unused es (if unused e then n + 1 else n) end.
Fixpoint free_unused (tlsf : Z) (es : list gc_elm) : TlsfTypes.TM unit :=
  match es with
  | [] => mret tt
  | e :: es =>
      (if unused e then TlsfApi.tlsf_free_nb tlsf (e_ptr e) (e_uid e) else mret tt) ;;
      free_unused tlsf es
  end.
Definition gc_pool_destroy (shm : Z) (pool : gc_pool) : WM Z :=
  es ← check_elms (elm pool);
  let free_count := count_unused es 0 in
  if free_count =? 0 then mret 0
  else
    lift_pool (
      TlsfBul.tlsf_lock (poolptr_of shm) ;;
      free_unused (poolptr_of shm) es ;;
      TlsfBul.tlsf_unlock (poolptr_of shm)) ;;
    mret free_count.

(** ** The thread *)

(** What one turn of the loop meets: the stop flag before and after the wait, the
    result of [sem_timedwait] with its [errno], and what the processes did with the
    segment in the meantime. *)
Record gc_turn := GcTurn { stop_before : bool; wait_rc : Z; wait_errno : Z; others : gworld -> gworld; stop_after : bool }.
Definition EAGAIN := 11.
Definition EINTR := 4.

(** One pass over the segment; [rounds] bounds the restarts of the heap walk. *)
Definition gc_pass (rounds : nat) (shm : Z) : GM unit :=
  libsrpc_shm_trash_clear_list fuel ;;
  '(_, pool) ← lift_world (lift_pool (TlsfApi.tlsf_free_uid_blocks rounds fuel (poolptr_of shm) 0
                 (Some (destructor_fn (poolptr_of shm))) empty_pool));
  if count pool =? 0 then mret tt
  else lift_world (gc_pool_destroy shm pool) ;; mret tt.
Fixpoint gc_loop (rounds : nat) (shm : Z) (turns : list gc_turn) : GM unit :=
  match turns with
  | [] => hang
  | t :: turns =>
      if stop_before t then mret tt
      else
        modify (others t) ;;
        if (wait_rc t <? 0) && negb ((wait_errno t =? ETIMEDOUT) || (wait_errno t =? EINTR) || (wait_errno t =? EAGAIN)) then mret tt
        else if stop_after t then mret tt
        else gc_pass rounds shm ;; gc_loop rounds shm turns
  end.
(** [spin_rc]: what [pthread_spin_init] answers for the list of waiting blocks. *)
Definition libsrpc_shm_gc_thread (rounds : nat) (spin_rc : Z) (turns : list gc_turn) : GM unit :=
  shm ← lift_world libsrpc_shmem_get;
  if shm =? NULL then mret tt
  else
    rc ← lift_world (lift_list (ListSpin.libsrpc_list_head_init spin_rc (gc_list_of shm)));
    if rc <? 0 then mret tt else gc_loop rounds shm turns.

(** ** Starting and stopping it *)

(** The daemon's [gc_init] and [gc_stop] with the results; [sem_rc] and [start_rc] are
    those of [sem_init] and [pthread_start]. *)
Definition libsrpc_shm_gc_init (sem_rc start_rc : Z) (gc_init : bool) : WM (Z * bool) :=
  shm ← libsrpc_shmem_get;
  if shm =? NULL then mret (- ESHMNOINIT, gc_init)
  else if gc_init then mret (0, gc_init)
  else if sem_rc <? 0 then mret (- EINVAL, gc_init)
  else
    modify (set_gc_sem 0) ;;
    if start_rc <? 0 then mret (- EINVAL, gc_init)
    else mret (0, true).
Definition libsrpc_shm_gc_destroy (gc_init gc_stop : bool) : WM (Z * (bool * bool)) :=
  shm ← libsrpc_shmem_get;
  if shm =? NULL then mret (- ESHMNOINIT, (gc_init, gc_stop))
  else if negb gc_init then mret (0, (gc_init, gc_stop))
  else libsrpc_shm_gc_wakeup ;; mret (0, (false, true)).
End gc.
