(* ===== verification/GcSpec.v ===== *)
(** What the collector frees: exactly the gathered blocks that no process of the
    segment points at, after having invalidated them. *)
From S2P Require Import Prelude Machine Errno Request World Shmem Rpc RpcSpec RpcCall Registry Trash Proc ProcSpec Gc.
From S2P Require ListSpin TlsfTypes TlsfBul TlsfApi TlsfSpec MpmcQueue MpmcAlone RequestSpec Shmem RegistrySpec.
#[local] Existing Instance MpmcQueue.lf_queue_result_eq.

(** ** Who points at a block

    [l] are the processes of the segment, [rl p] the requests in the list of [p] and
    [items p] what waits in its queue. *)
Section spec.
Context (k : Z) (fuel : nat) (l : list Z) (rl items : Z -> list Z).
Abbreviation cap := (2 ^ k).

Definition live_proc (w : world) (p : Z) : bool := match procs w !! p with Some x => libsrpc_proc_is_valid x | None => false end.
Definition hazards (w : world) (p : Z) : list Z := match procs w !! p with Some x => hp_reqs x | None => [] end.
Definition req_held (w : world) (a : Z) : bool :=
  existsb (fun p => live_proc w p && (bool_decide (a ∈ items p) || bool_decide (a ∈ hazards w p))) l.
Definition holds_block (w : world) (eb a : Z) : bool :=
  match reqs w !! a with Some r => negb (libsrpc_req_is_corrupted (Some r) None) && (hp_regfn r =? eb) | None => false end.
Definition block_held (w : world) (eb : Z) : bool :=
  existsb (fun p => live_proc w p && existsb (holds_block w eb) (rl p)) l.
Definition aims (w : world) (target a : Z) : bool :=
  match reqs w !! a with Some r => aims_at (Z.to_nat (retnum r)) 0 r target | None => false end.
Definition proc_held (w : world) (target : Z) : bool := existsb (fun p => existsb (aims w target) (rl p)) l.
Definition held (w : world) (e : gc_elm) : bool :=
  if e_type e =? SHMDT_PROC then proc_held w (e_ptr e)
  else if e_type e =? SHMDT_REGFN then block_held w (e_ptr e)
  else if e_type e =? SHMDT_REQUEST then req_held w (e_ptr e)
  else false.

(** The segment is mapped, and its lists and queues are what [l], [rl] and [items] say. *)
Record segment (w : world) : Prop := Segment {
  sg_map : RegistrySpec.mapped w;
  sg_procs : ListSpin.linked (lists w) (proc_head_of (shm_ptr (loc w))) l;
  sg_len : (length l <= fuel)%nat;
  sg_null : NULL ∉ l;
  sg_proc : forall p, p ∈ l -> exists x, procs w !! p = Some x /\ MpmcAlone.represents k (p_queue x) (items p) /\
    (4 * length (items p) + 2 <= queue_fuel cap)%nat;
  sg_reqs : forall p, p ∈ l -> ListSpin.linked (lists w) (req_head_of p) (rl p) /\ (length (rl p) <= fuel)%nat;
  sg_req : forall p a, p ∈ l -> a ∈ rl p -> exists r, reqs w !! a = Some r }.

Context (Hk : 1 <= k <= 61).

(** The loops over the segment, as searches. *)
Lemma first_some_existsb {A} (f : A -> option Z) (b : A -> bool) xs : (forall x, f x = if b x then Some 1 else None) ->
  default 0 (first_some f xs) = if existsb b xs then 1 else 0.
Proof.
  intros H. induction xs as [|x xs IH]; cbn; [done|]. rewrite H. destruct (b x); [done|]. exact IH.
Qed.
Lemma foreach_exists w (body : Z -> WM (option Z)) (b : Z -> bool) h xs :
  ListSpin.linked (lists w) h xs -> (length xs <= fuel)%nat ->
  (forall a, a ∈ xs -> body a w = Ret (if b a then Some 1 else None) w) ->
  (r ← list_foreach_until fuel h body; mret (default 0 r)) w = Ret (if existsb b xs then 1 else 0) w.
Proof.
  intros Hl Hf Hb. rewrite (bind_ret _ _ _ _ _ (list_foreach_pure w body (fun a => if b a then Some 1 else None) h fuel xs Hl Hf Hb)).
  cbv beta. unfold mret, M_ret. f_equal. by apply first_some_existsb.
Qed.

Lemma with_shm {A} (f : Z -> WM A) w : RegistrySpec.mapped w -> (shm ← libsrpc_shmem_get; f shm) w = f (shm_ptr (loc w)) w.
Proof. intros H. by rewrite (bind_ret _ _ _ _ _ (RegistrySpec.shmem_get_run w H)). Qed.

Lemma find_run w p x a : procs w !! p = Some x -> MpmcAlone.represents k (p_queue x) (items p) -> a <> NULL ->
  (4 * length (items p) + 2 <= queue_fuel cap)%nat ->
  queue_try_find cap p a w = Ret (if decide (a ∈ items p) then MpmcQueue.LF_QUEUE_OK else MpmcQueue.LF_QUEUE_NOT_FOUND) w.
Proof.
  intros Ex Hr Ha Hn. unfold queue_try_find. rewrite (bind_ret _ _ _ _ _ (get_proc_run _ _ _ Ex)).
  rewrite (MpmcAlone.find_alone k Hk _ _ _ _ Hr Ha) by lia. done.
Qed.

Lemma existsb_elem a (xs : list Z) : existsb (fun h => h =? a) xs = bool_decide (a ∈ xs).
Proof.
  induction xs as [|x xs IH]; cbn; [done|]. rewrite IH. case_bool_decide as H1; destruct (Z.eqb_spec x a) as [->|H2]; cbn;
    case_bool_decide as H3; try done.
  - destruct H3. apply list_elem_of_here.
  - destruct H3. by apply list_elem_of_further.
  - destruct H3. apply list_elem_of_here.
  - apply elem_of_cons in H3 as [->|?]; done.
Qed.

Lemma req_busy_run w a : segment w -> a <> NULL ->
  libsrpc_req_is_busy_proc cap fuel a w = Ret (if req_held w a then 1 else 0) w.
Proof.
  intros [Hm Hl Hf Hnn Hp _ _] Ha. unfold libsrpc_req_is_busy_proc. rewrite with_shm by done.
  rewrite (proj2 (Z.eqb_neq a NULL)), (proj2 (Z.eqb_neq (shm_ptr (loc w)) NULL)) by (done || apply Hm). cbn [orb].
  unfold req_held. eapply foreach_exists; [done|done|]. intros p Hin. destruct (Hp p Hin) as (x & Ex & Hr & Hn).
  rewrite (bind_ret _ _ _ _ _ (get_proc_run _ _ _ Ex)). unfold live_proc, hazards. rewrite Ex.
  destruct (libsrpc_proc_is_valid x); cbn [negb andb]; [|done].
  rewrite (bind_ret _ _ _ _ _ (find_run w p x a Ex Hr Ha Hn)). rewrite existsb_elem.
  destruct (decide (a ∈ items p)) as [Hi|Hi].
  - by rewrite (bool_decide_eq_true_2 (a ∈ items p)), bool_decide_eq_true_2.
  - rewrite (bool_decide_eq_false_2 (a ∈ items p)), bool_decide_eq_false_2 by done. cbn [orb]. done.
Qed.
Lemma locked_proc_run w p eb : segment w -> p ∈ l -> eb <> NULL ->
  libsrpc_shmem_is_locked_regfn_proc fuel p eb w = Ret (if existsb (holds_block w eb) (rl p) then 1 else 0) w.
Proof.
  intros Hs Hin He. unfold libsrpc_shmem_is_locked_regfn_proc.
  rewrite (proj2 (Z.eqb_neq p NULL)), (proj2 (Z.eqb_neq eb NULL)) by (done || (intros ->; by apply (sg_null w Hs))).
  cbn [orb]. destruct (sg_reqs w Hs p Hin) as [Hlk Hlen]. eapply foreach_exists; [done|done|]. intros a Ha.
  destruct (sg_req w Hs p a Hin Ha) as [r Er]. rewrite (bind_ret _ _ _ _ _ (get_req_run _ _ _ Er)).
  unfold holds_block. rewrite Er. by destruct (libsrpc_req_is_corrupted _ _).
Qed.
Lemma list_aims_run w p target : segment w -> p ∈ l ->
  libsrpc_req_list_aims_at fuel (req_head_of p) target w = Ret (if existsb (aims w target) (rl p) then 1 else 0) w.
Proof.
  intros Hs Hin. destruct (sg_reqs w Hs p Hin) as [Hlk Hlen]. eapply foreach_exists; [done|done|]. intros a Ha.
  destruct (sg_req w Hs p a Hin Ha) as [r Er]. rewrite (bind_ret _ _ _ _ _ (get_req_run _ _ _ Er)). unfold aims. by rewrite Er.
Qed.
Lemma regfn_busy_run w eb : segment w -> eb <> NULL ->
  libsrpc_shmem_is_busy_regfn fuel eb w = Ret (if block_held w eb then 1 else 0) w.
Proof.
  intros Hs Ha. pose proof Hs as [Hm Hl Hf Hnn Hp _ _]. unfold libsrpc_shmem_is_busy_regfn. rewrite with_shm by done.
  rewrite (proj2 (Z.eqb_neq eb NULL)), (proj2 (Z.eqb_neq (shm_ptr (loc w)) NULL)) by (done || apply Hm). cbn [orb].
  unfold block_held. eapply foreach_exists; [done|done|]. intros p Hin. destruct (Hp p Hin) as (x & Ex & _).
  rewrite (bind_ret _ _ _ _ _ (get_proc_run _ _ _ Ex)). unfold live_proc. rewrite Ex.
  destruct (libsrpc_proc_is_valid x); cbn [negb andb]; [|done].
  rewrite (bind_ret _ _ _ _ _ (locked_proc_run w p eb Hs Hin Ha)). by destruct (existsb _ _).
Qed.
Lemma aimed_run w target : segment w -> target <> NULL ->
  libsrpc_proc_cs_aimed_at fuel target w = Ret (if proc_held w target then 1 else 0) w.
Proof.
  intros Hs Ha. pose proof Hs as [Hm Hl Hf _ _ _ _]. unfold libsrpc_proc_cs_aimed_at. rewrite with_shm by done.
  rewrite (proj2 (Z.eqb_neq target NULL)), (proj2 (Z.eqb_neq (shm_ptr (loc w)) NULL)) by (done || apply Hm). cbn [orb].
  unfold proc_held. eapply foreach_exists; [done|done|]. intros p Hin.
  rewrite (bind_ret _ _ _ _ _ (list_aims_run w p target Hs Hin)). by destruct (existsb _ _).
Qed.

(** ** What the first loop does to the objects *)

(** A request that is invalidated, a process whose removal is complete. *)
Definition destroyed (r : request) : request := default r (libsrpc_req_destroy (Some r)).2.
Definition buried (x : proc) : proc := if p_status x =? PROC_STATUS_DELETE then set_p_status PROC_STATUS_DEAD x else x.
Lemma destroyed_idemp r : destroyed (destroyed r) = destroyed r.
Proof. unfold destroyed, libsrpc_req_destroy. destruct (Z.eqb_spec (sign r) LIBSRPC_REQ_SIGN) as [E|E]; cbn; [done|]. by rewrite (proj2 (Z.eqb_neq _ _) E). Qed.
Lemma buried_idemp x : buried (buried x) = buried x.
Proof. unfold buried. destruct (Z.eqb_spec (p_status x) PROC_STATUS_DELETE) as [E|E]; [done|]. by rewrite (proj2 (Z.eqb_neq _ _) E). Qed.

(** Is [a] gathered as a block of type [ty] that nobody holds? *)
Definition gone (w : world) (es : list gc_elm) (ty a : Z) : bool :=
  existsb (fun e => (e_type e =? ty) && (e_ptr e =? a) && negb (held w e)) es.

(** A gathered block: its object is there and is on no list of the segment. *)
Definition detached (w : world) (e : gc_elm) : Prop :=
  e_ptr e <> NULL /\
  (e_type e = SHMDT_REQUEST -> (exists r, reqs w !! e_ptr e = Some r) /\ forall p, p ∈ l -> e_ptr e ∉ rl p) /\
  (e_type e = SHMDT_PROC -> (exists x, procs w !! e_ptr e = Some x) /\ e_ptr e ∉ l).

(** The objects on the lists of the segment are the same. *)
Definition same_listed (w v : world) : Prop :=
  lists v = lists w /\ loc v = loc w /\ (forall p, p ∈ l -> procs v !! p = procs w !! p) /\
  (forall p a, p ∈ l -> a ∈ rl p -> reqs v !! a = reqs w !! a).

Lemma existsb_ext_in {A} (f g : A -> bool) xs : (forall x, x ∈ xs -> f x = g x) -> existsb f xs = existsb g xs.
Proof.
  induction xs as [|x xs IH]; intros H; cbn; [done|]. rewrite (H x) by apply list_elem_of_here.
  by rewrite IH by (intros y Hy; apply H; by apply list_elem_of_further).
Qed.
Lemma held_same w v e : same_listed w v -> held v e = held w e.
Proof.
  intros (_ & _ & Hp & Hr). unfold held, proc_held, block_held, req_held.
  repeat case_match; try done; apply existsb_ext_in; intros p Hin; unfold live_proc, hazards; rewrite ?Hp by done.
  - apply existsb_ext_in. intros a Ha. unfold aims. by rewrite (Hr p a).
  - f_equal. apply existsb_ext_in. intros a Ha. unfold holds_block. by rewrite (Hr p a).
  - done.
Qed.
Lemma segment_same w v : same_listed w v -> segment w -> segment v.
Proof.
  intros (El & Eo & Hp & Hr) [H1 H2 H3 H4 H5 H6 H7]. split.
  - unfold RegistrySpec.mapped. by rewrite Eo.
  - by rewrite El, Eo.
  - done.
  - done.
  - intros p Hin. rewrite Hp by done. by apply H5.
  - intros p Hin. rewrite El. by apply H6.
  - intros p a Hin Ha. rewrite (Hr p a) by done. by apply (H7 p a).
Qed.
Lemma detached_same w v e : (forall a, is_Some (reqs w !! a) -> is_Some (reqs v !! a)) ->
  (forall a, is_Some (procs w !! a) -> is_Some (procs v !! a)) -> detached w e -> detached v e.
Proof.
  intros Hr Hp (H0 & H1 & H2). split; [done|]. split; intros Ht.
  - destruct (H1 Ht) as [[r E] H]. split; [|done]. destruct (Hr (e_ptr e)) as [r' ?]; [by eexists|]. by exists r'.
  - destruct (H2 Ht) as [[r E] H]. split; [|done]. destruct (Hp (e_ptr e)) as [r' ?]; [by eexists|]. by exists r'.
Qed.

(** One element. *)
Lemma check_elm_run w v e : segment w -> same_listed w v -> detached v e -> exists R P,
  check_elm cap fuel e v = Ret (if held w e then bump_ref e else e) (set_procs P (set_reqs R v)) /\
  same_listed w (set_procs P (set_reqs R v)) /\
  (forall a, R !! a = if gone w [e] SHMDT_REQUEST a then destroyed <$> reqs v !! a else reqs v !! a) /\
  (forall p, P !! p = if gone w [e] SHMDT_PROC p then buried <$> procs v !! p else procs v !! p).
Proof.
  intros Hs Hv (H0 & Hreq & Hproc). pose proof (segment_same w v Hv Hs) as Hsv. pose proof (held_same w v e Hv) as Hh.
  assert (set_procs (procs v) (set_reqs (reqs v) v) = v) as Eid by (by destruct v).
  unfold check_elm, gone. cbn [existsb]. unfold held in *.
  destruct (Z.eqb_spec (e_type e) SHMDT_PROC) as [Et|Et].
  { rewrite (bind_ret _ _ _ _ _ (aimed_run v _ Hsv H0)), <- Hh. rewrite Et. destruct (proc_held v (e_ptr e)) eqn:Eh; cbn [Z.eqb negb].
    - exists (reqs v), (procs v). rewrite Eid. split; [done|]. split; [done|]. split; [done|]. intros p. by rewrite andb_false_r.
    - destruct (Hproc Et) as [[x Ex] Hni]. rewrite (bind_ret _ _ _ _ _ (get_proc_run _ _ _ Ex)).
      exists (reqs v), (<[e_ptr e := buried x]> (procs v)). split; [|split; [|split; [done|]]].
      + unfold buried. destruct (_ =? PROC_STATUS_DELETE); [done|]. rewrite insert_id by done. by rewrite Eid.
      + destruct Hv as (A1 & A2 & A3 & A4). split_and!; try done. intros p Hin. cbn. rewrite lookup_insert_ne; [by apply A3|]. by intros <-.
      + intros p. cbn [andb negb]. rewrite ?andb_true_r, ?orb_false_r. destruct (Z.eqb_spec (e_ptr e) p) as [<-|Hne].
        * by rewrite lookup_insert_eq, Ex.
        * by rewrite lookup_insert_ne. }
  destruct (Z.eqb_spec (e_type e) SHMDT_REGFN) as [Et2|Et2].
  { rewrite (bind_ret _ _ _ _ _ (regfn_busy_run v _ Hsv H0)), <- Hh. exists (reqs v), (procs v). rewrite Eid, Et2.
    split; [by destruct (block_held v (e_ptr e))|]. done. }
  destruct (Z.eqb_spec (e_type e) SHMDT_REQUEST) as [Et3|Et3].
  { rewrite (bind_ret _ _ _ _ _ (req_busy_run v _ Hsv H0)), <- Hh. destruct (req_held v (e_ptr e)) eqn:Eh; cbn [Z.eqb negb].
    - exists (reqs v), (procs v). rewrite Eid. split; [done|]. split; [done|]. split; [|done]. intros p. by rewrite andb_false_r.
    - destruct (Hreq Et3) as [[r Er] Hni].
      assert (req_or_null (e_ptr e) v = Ret (Some r) v) as En.
      { unfold req_or_null. rewrite (proj2 (Z.eqb_neq (e_ptr e) NULL)) by done. by rewrite (bind_ret _ _ _ _ _ (get_req_run _ _ _ Er)). }
      rewrite (bind_ret _ _ _ _ _ En). exists (<[e_ptr e := destroyed r]> (reqs v)), (procs v). split; [|split; [|split; [|done]]].
      + unfold destroyed, libsrpc_req_destroy. by destruct (negb _).
      + destruct Hv as (A1 & A2 & A3 & A4). split_and!; try done. intros p a Hin Ha. cbn.
        rewrite lookup_insert_ne; [by eapply A4|]. intros <-. by apply (Hni p).
      + intros p. cbn [andb negb]. rewrite ?andb_true_r, ?orb_false_r. destruct (Z.eqb_spec (e_ptr e) p) as [<-|Hne].
        * by rewrite lookup_insert_eq, Er.
        * by rewrite lookup_insert_ne. }
  exists (reqs v), (procs v). rewrite Eid. done.
Qed.

(** ** The three loops *)

Definition mark (w : world) (e : gc_elm) : gc_elm := if held w e then bump_ref e else e.
Lemma gone_cons w e es ty a : gone w (e :: es) ty a = gone w [e] ty a || gone w es ty a.
Proof. unfold gone. cbn. by rewrite orb_false_r. Qed.

Lemma check_elms_run w es : segment w -> forall v, same_listed w v -> Forall (detached v) es -> exists R P,
  check_elms cap fuel es v = Ret (mark w <$> es) (set_procs P (set_reqs R v)) /\
  (forall a, R !! a = if gone w es SHMDT_REQUEST a then destroyed <$> reqs v !! a else reqs v !! a) /\
  (forall p, P !! p = if gone w es SHMDT_PROC p then buried <$> procs v !! p else procs v !! p).
Proof.
  intros Hs. induction es as [|e es IH]; intros v Hv Hd.
  { exists (reqs v), (procs v). split; [by destruct v|done]. }
  apply Forall_cons in Hd as [He Hd]. destruct (check_elm_run w v e Hs Hv He) as (R & P & E & Hv1 & HR & HP).
  assert (Forall (detached (set_procs P (set_reqs R v))) es) as Hd1.
  { eapply Forall_impl; [exact Hd|]. intros x Hx. eapply detached_same; [| |exact Hx]; cbn; intros a Ha.
    - rewrite HR. destruct (gone _ _ _ _); [by apply fmap_is_Some|done].
    - rewrite HP. destruct (gone _ _ _ _); [by apply fmap_is_Some|done]. }
  destruct (IH _ Hv1 Hd1) as (R2 & P2 & E2 & HR2 & HP2). exists R2, P2. split; [|split].
  - cbn [check_elms]. rewrite (bind_ret _ _ _ _ _ E), (bind_ret _ _ _ _ _ E2). done.
  - intros a. rewrite HR2, gone_cons. cbn [reqs set_procs set_reqs]. rewrite HR.
    destruct (gone w [e] _ a), (gone w es _ a); cbn [orb]; try done. destruct (reqs v !! a); cbn; [by rewrite destroyed_idemp|done].
  - intros a. rewrite HP2, gone_cons. cbn [procs set_procs set_reqs]. rewrite HP.
    destruct (gone w [e] _ a), (gone w es _ a); cbn [orb]; try done. destruct (procs v !! a); cbn; [by rewrite buried_idemp|done].
Qed.

(** The gathered blocks that nobody holds, and what frees them. *)
Definition victims (w : world) (es : list gc_elm) : list gc_elm := filter (fun e => held w e = false) es.
Fixpoint free_each (tlsf : Z) (es : list gc_elm) : TlsfTypes.TM unit :=
  match es with
  | [] => mret tt
  | e :: es => TlsfApi.tlsf_free_nb tlsf (e_ptr e) (e_uid e) ;; free_each tlsf es
  end.
Definition gathered (w : world) (e : gc_elm) : Prop := detached w e /\ refcount e = 0.

Lemma bind_ext {S A B} (m : M S A) (f g : A -> M S B) s : (forall a s', f a s' = g a s') -> (m ≫= f) s = (m ≫= g) s.
Proof. intros H. unfold mbind, M_bind. destruct (m s); [apply H|reflexivity..]. Qed.
Lemma bind_ext_l {S A B} (m m' : M S A) (f : A -> M S B) s : m s = m' s -> (m ≫= f) s = (m' ≫= f) s.
Proof. intros H. unfold mbind, M_bind. by rewrite H. Qed.
Lemma lift_pool_ext {A} (m m' : TlsfTypes.TM A) w : (forall s, m s = m' s) -> lift_pool m w = lift_pool m' w.
Proof. intros H. unfold lift_pool. by rewrite H. Qed.
Lemma unused_mark w e : gathered w e -> unused (mark w e) = negb (held w e).
Proof.
  intros [[H0 _] Hr]. unfold unused, mark. destruct (held w e); cbn [e_ptr refcount bump_ref];
    rewrite Hr, (proj2 (Z.eqb_neq (e_ptr e) NULL)) by done; done.
Qed.
Lemma count_victims w es : Forall (gathered w) es -> forall n,
  count_unused (mark w <$> es) n = n + Z.of_nat (length (victims w es)).
Proof.
  intros H. induction H as [|e es He Hes IH]; intros n; cbn [fmap list_fmap count_unused]; [cbn; lia|]. rewrite unused_mark, IH by done.
  change (victims w (e :: es)) with (filter (fun e => held w e = false) (e :: es)).
  rewrite filter_cons. fold (victims w es). destruct (held w e); cbn [negb].
  - by rewrite decide_False.
  - rewrite decide_True by done. cbn [length]. lia.
Qed.
Lemma free_victims w tlsf es : Forall (gathered w) es -> forall s,
  free_unused tlsf (mark w <$> es) s = free_each tlsf (victims w es) s.
Proof.
  intros H. induction H as [|e es He Hes IH]; intros s; cbn [fmap list_fmap free_unused]; [done|]. rewrite unused_mark by done.
  change (victims w (e :: es)) with (filter (fun e => held w e = false) (e :: es)).
  rewrite filter_cons. fold (victims w es). destruct (held w e) eqn:Eh; cbn [negb].
  - rewrite decide_False by done. rewrite (bind_ret _ _ tt s s) by reflexivity. exact (IH s).
  - rewrite decide_True by done. cbn [free_each]. assert (mark w e = e) as -> by (unfold mark; by rewrite Eh).
    apply bind_ext. intros [] s'. exact (IH s').
Qed.

(** One collection: the blocks freed are exactly the gathered ones that nobody holds,
    a request held by the queue or a hazard pointer of a running process, an
    extension block by the hazard pointer of a request, a process by the slot of a
    request. Before that every request to be freed has lost its signature and every
    removed process is marked dead; nothing else in the segment changes. *)
Lemma gc_pool_destroy_run w shm pool0 : segment w -> Forall (gathered w) (elm pool0) -> exists R P,
  let w1 := set_procs P (set_reqs R w) in
  let vs := victims w (elm pool0) in
  gc_pool_destroy cap fuel shm pool0 w =
    match vs with
    | [] => Ret 0 w1
    | _ => (lift_pool (TlsfBul.tlsf_lock (poolptr_of shm) ;; free_each (poolptr_of shm) vs ;; TlsfBul.tlsf_unlock (poolptr_of shm)) ;;
            mret (Z.of_nat (length vs))) w1
    end /\
  (forall a, R !! a = if gone w (elm pool0) SHMDT_REQUEST a then destroyed <$> reqs w !! a else reqs w !! a) /\
  (forall p, P !! p = if gone w (elm pool0) SHMDT_PROC p then buried <$> procs w !! p else procs w !! p).
Proof.
  intros Hs Hg. assert (Forall (detached w) (elm pool0)) as Hd by (eapply Forall_impl; [exact Hg|by intros e [? _]]).
  destruct (check_elms_run w (elm pool0) Hs w) as (R & P & E & HR & HP); [by split_and!|done|].
  exists R, P. split; [|done]. unfold gc_pool_destroy. rewrite (bind_ret _ _ _ _ _ E). cbv zeta.
  rewrite count_victims by done. destruct (victims w (elm pool0)) as [|e vs] eqn:Ev; [done|].
  cbn [length]. rewrite (proj2 (Z.eqb_neq (0 + Z.of_nat (S (length vs))) 0)) by lia. rewrite Z.add_0_l.
  apply bind_ext_l, lift_pool_ext. intros s0. apply bind_ext. intros _ s1. apply bind_ext_l.
  rewrite <- Ev. by apply free_victims.
Qed.

End spec.

(** ** Gathering *)

(** The array never overflows, counts its elements, and holds special blocks only,
    none of them found in use yet. *)
Record array_ok (p : gc_pool) : Prop := ArrayOk {
  ar_count : count p = Z.of_nat (length (elm p));
  ar_size : count p <= POOL_SIZE;
  ar_elm : Forall (fun e => e_ptr e <> NULL /\ e_type e ∈ [SHMDT_PROC; SHMDT_REGFN; SHMDT_REQUEST] /\ refcount e = 0) (elm p) }.
Lemma destructor_keeps tlsf p ptr block uid s rc p' s' : array_ok p ->
  destructor_fn tlsf p ptr block uid s = Ret (rc, p') s' -> array_ok p'.
Proof.
  intros Hp E. unfold destructor_fn in E. destruct (_ || _) eqn:Eb; [injection E as _ <- _; done|].
  apply orb_false_iff in Eb as [[Eb _]%orb_false_iff _]. apply Z.eqb_neq in Eb.
  destruct (Z.leb_spec POOL_SIZE (count p)); [injection E as _ <- _; done|].
  apply bind_inv in E as (ty & s1 & _ & E). apply bind_inv in E as (dc & s2 & _ & E). cbv zeta in E.
  set (t := if ty <? 0 then 0 else ty) in E. destruct (_ || _) eqn:Et.
  - destruct (_ =? 0); [injection E as _ <- _; done|]. injection E as _ <- _. destruct Hp as [H1 H2 H3]. split; cbn.
    + rewrite length_app. cbn. lia.
    + lia.
    + apply Forall_app_2; [done|]. apply Forall_singleton. split; [done|]. split; [|done]. cbn [e_type].
      apply orb_true_iff in Et as [[->%Z.eqb_eq| ->%Z.eqb_eq]%orb_true_iff| ->%Z.eqb_eq];
        (apply (bool_decide_unpack _); exact I).
  - apply bind_inv in E as ([] & s3 & _ & E). injection E as _ <- _. done.
Qed.
Lemma walk_keeps {U} (I : U -> Prop) (d : U -> Z -> Z -> Z -> TlsfTypes.TM (Z * U)) :
  (forall u ptr block uid s rc u' s', I u -> d u ptr block uid s = Ret (rc, u') s' -> I u') ->
  forall fuel uid block hend u s r u' s', I u -> TlsfApi.walk d fuel uid block hend u s = Ret (r, u') s' -> I u'.
Proof.
  intros Hd. induction fuel as [|fuel IH]; intros uid block hend u s r u' s' Hu E; cbn [TlsfApi.walk] in E; [done|].
  assert (forall r0 s0, TlsfApi.unlock_ret (r0, u) s0 = Ret (r, u') s' -> I u') as Hret.
  { intros r0 s0 E0. apply bind_inv in E0 as (? & s1 & _ & E0). injection E0 as _ <- _. done. }
  destruct (negb _); [by injection E as _ <- _|].
  apply bind_inv in E as (sg & s1 & _ & E). destruct (negb sg); [by eapply Hret|].
  apply bind_inv in E as (bsz & s2 & _ & E). cbv zeta in E. destruct (_ || _); [by eapply Hret|].
  apply bind_inv in E as (fr & s3 & _ & E). destruct fr; [by eapply IH|].
  apply bind_inv in E as (hit & s4 & _ & E). destruct hit; [|by eapply IH].
  apply bind_inv in E as (ub & s5 & _ & E). apply bind_inv in E as ([drc u1] & s6 & E6 & E).
  pose proof (Hd _ _ _ _ _ _ _ _ Hu E6) as Hu1. destruct (drc <? 0).
  { apply bind_inv in E as (? & s7 & _ & E). injection E as _ <- _. done. }
  destruct (0 <? drc); [by injection E as _ <- _|by eapply IH].
Qed.
Lemma rounds_keeps {U} (I : U -> Prop) (d : U -> Z -> Z -> Z -> TlsfTypes.TM (Z * U)) :
  (forall u ptr block uid s rc u' s', I u -> d u ptr block uid s = Ret (rc, u') s' -> I u') ->
  forall rounds fuel uid u s r u' s', I u -> TlsfApi.walk_rounds d rounds fuel uid u s = Ret (r, u') s' -> I u'.
Proof.
  intros Hd. induction rounds as [|rounds IH]; intros fuel uid u s r u' s' Hu E; cbn [TlsfApi.walk_rounds] in E; [done|].
  apply bind_inv in E as (b & s1 & _ & E). apply bind_inv in E as (he & s2 & _ & E).
  apply bind_inv in E as ([e u1] & s3 & E3 & E). pose proof (walk_keeps I d Hd _ _ _ _ _ _ _ _ _ Hu E3) as Hu1.
  destruct e; [|by eapply IH|by injection E as _ <- _].
  apply bind_inv in E as (? & s4 & _ & E). by injection E as _ <- _.
Qed.

(** What a walk of the heap gathers fits the array, whatever the heap holds: with
    [gc_pool_destroy_run] the blocks it frees are those nobody holds. *)
Lemma gathering_fits rounds fuel tlsf s rc p s' :
  TlsfApi.tlsf_free_uid_blocks rounds fuel tlsf 0 (Some (destructor_fn tlsf)) empty_pool s = Ret (rc, p) s' -> array_ok p.
Proof.
  assert (array_ok empty_pool) as H0 by (split; [done|done|apply Forall_nil_2]).
  intros E. unfold TlsfApi.tlsf_free_uid_blocks in E. destruct (tlsf =? NULL); [by injection E as _ <- _|].
  apply bind_inv in E as (r & s1 & _ & E). destruct (negb _); [by injection E as _ <- _|].
  eapply (rounds_keeps array_ok _ (fun u ptr block uid s rc u' s' => destructor_keeps tlsf u ptr block uid s rc u' s')); done.
Qed.

(** ** A concrete collection

    Process 700 runs, has request 4096 in its list and request 77 in its queue;
    the requests 77 and 5000 are marked for deferred cleaning. *)
Definition demo_gc : world :=
  let lists1 := ListSpin.LStore {[ 700 := ListSpin.Node NULL demo_head; 4096 := ListSpin.Node NULL (req_head_of 700) ]}
                  {[ demo_head := ListSpin.LHead 700 1; req_head_of 700 := ListSpin.LHead 4096 1;
                     gc_list_of (TlsfSpec.demo_pool - POOL_OFF) := ListSpin.LHead NULL 1 ]} in
  let p := Proc LIBSRPC_PROC_SIGN PROC_STATUS_RUN 2 500 1 0 0 MpmcAlone.one_element [NULL] in
  set_lists lists1 (set_procs {[ 700 := p ]}
    (set_reqs {[ 77 := RequestSpec.demo_request; 4096 := RequestSpec.demo_request; 5000 := RequestSpec.demo_request ]} Shmem.demo_world)).
Definition demo_gathered : gc_pool := GcPool 2 [0; 0; 0; 2] [GcElm 77 SHMDT_REQUEST 2 0; GcElm 5000 SHMDT_REQUEST 2 0].
Lemma demo_segment : segment 1 5 [700] (fun _ => [4096]) (fun _ => [77]) demo_gc.
Proof.
  split.
  - split; discriminate.
  - split.
    + eexists. reflexivity.
    + split; [reflexivity|]. split; [discriminate|]. exists NULL. split; reflexivity.
    + apply NoDup_singleton.
    + intros n x E Ex. cbn in E. apply lookup_insert_Some in E as [[<- _]|[_ E]]; [apply list_elem_of_here|].
      apply lookup_singleton_Some in E as [<- <-]. discriminate Ex.
  - cbn [length]. lia.
  - apply not_elem_of_cons. split; [discriminate|apply not_elem_of_nil].
  - intros p ->%list_elem_of_singleton. eexists. split; [reflexivity|]. split; [apply MpmcAlone.one_element_ok|]. apply Nat.leb_le. vm_compute. reflexivity.
  - intros p ->%list_elem_of_singleton. split; [|cbn [length]; lia]. split.
    + eexists. reflexivity.
    + split; [reflexivity|]. split; [discriminate|]. exists NULL. split; reflexivity.
    + apply NoDup_singleton.
    + intros n x E Ex. cbn in E. apply lookup_insert_Some in E as [[<- <-]|[_ E]]; [discriminate Ex|].
      apply lookup_singleton_Some in E as [<- _]. apply list_elem_of_here.
  - intros p a _ ->%list_elem_of_singleton. eexists. reflexivity.
Qed.
Lemma demo_gathered_ok : Forall (gathered [700] (fun _ => [4096]) demo_gc) (elm demo_gathered).
Proof.
  repeat apply Forall_cons_2; [..|apply Forall_nil_2]; (split; [|reflexivity]); (split; [discriminate|]);
    (split; [|discriminate]); intros _; (split; [eexists; reflexivity|]); intros p _ Hbad;
    apply list_elem_of_singleton in Hbad; discriminate Hbad.
Qed.
Lemma demo_destroy :
  victims [700] (fun _ => [4096]) (fun _ => [77]) demo_gc (elm demo_gathered) = [GcElm 5000 SHMDT_REQUEST 2 0] /\
  exists R, R !! 77 = Some RequestSpec.demo_request /\ R !! 5000 = Some (destroyed RequestSpec.demo_request) /\
    gc_pool_destroy (2 ^ 1) 5 (shm_ptr (loc demo_gc)) demo_gathered demo_gc =
    (lift_pool (TlsfBul.tlsf_lock TlsfSpec.demo_pool ;; free_each TlsfSpec.demo_pool [GcElm 5000 SHMDT_REQUEST 2 0] ;;
                TlsfBul.tlsf_unlock TlsfSpec.demo_pool) ;; mret 1) (set_procs (procs demo_gc) (set_reqs R demo_gc)).
Proof.
  destruct (gc_pool_destroy_run 1 5 [700] (fun _ => [4096]) (fun _ => [77]) ltac:(lia) demo_gc (shm_ptr (loc demo_gc))
    demo_gathered demo_segment demo_gathered_ok) as (R & P & E & HR & HP).
  assert (victims [700] (fun _ => [4096]) (fun _ => [77]) demo_gc (elm demo_gathered) = [GcElm 5000 SHMDT_REQUEST 2 0]) as Ev
    by reflexivity.
  split; [exact Ev|]. exists R. split; [rewrite HR; reflexivity|]. split; [rewrite HR; reflexivity|].
  assert (P = procs demo_gc) as -> by (apply map_eq; intros p; rewrite HP; reflexivity).
  cbv zeta in E. rewrite Ev in E. exact E.
Qed.
