(* ===== verification/Collection.v ===== *)
(** What a pass of the collector does to the heap: the walk of [libsrpc_shm_gc.c] over
    the blocks marked for deferred cleaning.  The walk goes on after it has freed a block,
    at the place where the next one started: that header may by then lie inside a
    merged block, but its first words are still there. *)
From S2P Require Import Prelude Machine TlsfTypes TlsfBul TlsfHeap TlsfAlloc TlsfApi TlsfFacts TlsfHoare TlsfOwners TlsfOwnership TlsfSpec TlsfLists TlsfTiling TlsfBlocks TlsfMalloc TlsfFree TlsfPool TlsfWalk ProcMemory.
From S2P Require World Shmem Trash Gc GcSpec.

(** ** What the walk is to do *)

(** The owner a marked block is freed for, and whether it is the only one. *)
Definition first_owner (us : list Z) : Z := default 0 (head (owners us)).
Definition sole_for (u : Z) (us : list Z) : bool := negb (u =? 0) && bool_decide (owners (drop_owner u us) = []).
Definition sole (us : list Z) : bool := sole_for (first_owner us) us.
Definition marked (m : gmap Z Z) (p : Z * Z) : bool := sig_dc_flag (word_of m p).
Definition special (m : gmap Z Z) (p : Z * Z) : bool := bool_decide (special_type (sig_type (word_of m p))).
Definition elm_of (m : gmap Z Z) (p : Z * Z) : Gc.gc_elm :=
  Gc.GcElm (ptr_of p) (sig_type (word_of m p)) (first_owner (uids m p.1)) 0.

(** The sweep over the blocks in use: the result, what is gathered, what stays. *)
Definition stays (p : Z * Z) (r : Z * Gc.gc_pool * list (Z * Z)) : Z * Gc.gc_pool * list (Z * Z) := (r.1, p :: r.2).
Fixpoint sweep (m : gmap Z Z) (pool : Gc.gc_pool) (l : list (Z * Z)) : Z * Gc.gc_pool * list (Z * Z) :=
  match l with
  | [] => (0, pool, [])
  | p :: l =>
      if negb (marked m p) then stays p (sweep m pool l)
      else if Gc.POOL_SIZE <=? Gc.count pool then (- Errno.ENOMEM, pool, p :: l)
      else if special m p then
        let pool := Gc.gc_add (elm_of m p) pool in
        if Gc.POOL_SIZE <=? Gc.count pool then (- Errno.ENOMEM, pool, p :: l) else stays p (sweep m pool l)
      else if sole (uids m p.1) then sweep m pool l else stays p (sweep m pool l)
  end.

(** Blocks that are not to be touched keep their owners, type and contents. *)
Definition untouched (m : gmap Z Z) (p : Z * Z) : Prop := marked m p = false \/ special m p = true.
Definition pair_kept (m m' : gmap Z Z) (p : Z * Z) : Prop :=
  forall o, 8 <= o < p.2 -> o <> OFF_prev_size -> rdm m' (p.1 + o) = rdm m (p.1 + o).

(** The sweep looks at the owners and the types of the blocks only. *)
Lemma sweep_ext m m' l : (forall p, p ∈ l -> word_of m' p = word_of m p /\ uids m' p.1 = uids m p.1) -> forall pool, sweep m' pool l = sweep m pool l.
Proof.
  induction l as [|p l IH]; intros H pool; [done|]. cbn [sweep]. destruct (H p (list_elem_of_here _ _)) as [E1 E2].
  assert (forall pool, sweep m' pool l = sweep m pool l) as IH' by (intros; apply IH; intros q Hq; by apply H, list_elem_of_further).
  unfold marked, special, elm_of, ptr_of. by rewrite E1, E2, !IH'.
Qed.

(** ** One step of the walk *)

Lemma wp_uid_get_first C (Q : Z -> tlsf -> Prop) s b : geo_ok (geo s) -> header_in s b -> Q (first_owner (uids (mem s) b)) s -> wp (uid_get_first b) C Q s.
Proof.
  intros Hg Hh HQ. unfold uid_get_first.
  cut (forall n i, 0 <= i -> i + Z.of_nat n = 12 -> Q (first_owner (drop (Z.to_nat i) (uids (mem s) b))) s -> wp (uid_get_first_loop n i b) C Q s).
  { intros H. by apply (H 12%nat 0). }
  clear HQ. induction n as [|n IH]; intros i Hi Hn HQ; cbn [uid_get_first_loop].
  - apply wp_ret. rewrite drop_ge in HQ by (rewrite uids_length; lia). exact HQ.
  - apply wp_bind, wp_uid_get; [done..|lia|]. pose proof (uids_lookup (mem s) b i ltac:(lia)) as Hlk.
    erewrite drop_S in HQ by done. unfold first_owner, owners in HQ. rewrite filter_cons in HQ.
    destruct (Z.eqb_spec (uid_at (mem s) b i) 0) as [E|E]; cbn [negb].
    + rewrite decide_False in HQ by (intros H; by apply H). apply IH; [lia|lia|]. by replace (Z.to_nat (i + 1)) with (S (Z.to_nat i)) by lia.
    + rewrite decide_True in HQ by done. by apply wp_ret.
Qed.
Lemma first_owner_in us : first_owner us <> 0 -> first_owner us ∈ us.
Proof.
  unfold first_owner. destruct (owners us) as [|u l] eqn:E; [done|]. intros _. cbn. 
  assert (u ∈ owners us) as H by (rewrite E; apply list_elem_of_here). by apply list_elem_of_filter in H as [_ ?].
Qed.

(** Where the walk stands: at the block after [l1], or at a header left inside the last
    block of [l1] that leads there. *)
Record stale_at (s : tlsf) (l1 : list blk) (pos : Z) (z : blk) : Prop := StaleAt {
  sa_free : bfree z = true;
  sa_ok : blk_ok z;
  sa_addr : baddr z = pos;
  sa_spot : spot s pos;
  sa_word : rdm (mem s) (pos + OFF_size_flags) = blk_word z;
  sa_sig : sig_ok (rdm (mem s) (pos + OFF_sig_dc)) = true;
  sa_next : pos + bsize z = heap_start (geo s) + tsize l1 }.

Section walk.
Context (h : Z) (Hnz : h <> 0).

Lemma wp_walk_stale {U} (d : U -> Z -> Z -> Z -> TM (Z * U)) (Q : walk_end * U -> tlsf -> Prop) fuel uid s l1 l2 pos z u : at_work s (l1 ++ l2) -> stale_at s l1 pos z ->
  wp (walk d fuel uid (heap_start (geo s) + tsize l1) (heap_start (geo s) + heap_size (geo s)) u) never Q s ->
  wp (walk d (S fuel) uid pos (heap_start (geo s) + heap_size (geo s)) u) never Q s.
Proof.
  intros Hw [Hf Hok Ha Hsp Hww Hsig Hn] HQ. pose proof (aw_geo _ _ Hw) as Hg. pose proof Hok as [Hsz _].
  assert (heap_start (geo s) + tsize l1 <= heap_start (geo s) + heap_size (geo s) < 2 ^ 64) as Hend.
  { pose proof (walk_at_end s _ Hw) as E. rewrite tsize_app in E. destruct (aw_heap _ _ Hw) as [F Hh]. pose proof (hp_tiled _ _ _ Hh) as T.
    apply tiled_app in T as [_ T]. apply tsize_nonneg in T. destruct Hg as [(_ & _ & _ & _ & _ & _ & _ & Hlt) [He _]]. lia. }
  pose proof (proj2 (proj2 Hsp)) as Hpos. cbn [walk]. rewrite (proj2 (Z.ltb_lt _ _)) by lia. cbn [negb].
  apply wp_bind, wp_bind, wp_get; try done. rewrite Hsig. apply wp_ret. cbn [negb]. rewrite <- Ha.
  apply wp_bind, (wp_size_of _ _ _ z); [done|by rewrite Ha|done|by rewrite Ha|]. cbv zeta.
  rewrite (proj2 (Z.eqb_neq _ _)) by lia. rewrite (u64_small (_ - _)) by lia. rewrite (proj2 (Z.ltb_ge _ _)) by lia. cbn [orb].
  apply wp_bind, wp_bind, wp_get; try done; [by rewrite Ha|]. rewrite Ha, Hww, (blk_word_free z Hok), Hf. apply wp_ret.
  rewrite (u64_small (pos + bsize z)) by lia. by rewrite Hn.
Qed.

(** Headers of blocks that are in the heap. *)
Lemma wp_walk_block {U} (d : U -> Z -> Z -> Z -> TM (Z * U)) (Q : walk_end * U -> tlsf -> Prop) fuel s l1 x l2 u : at_work s (l1 ++ x :: l2) ->
  let pos := heap_start (geo s) + tsize l1 in let hend := heap_start (geo s) + heap_size (geo s) in
  (bfree x = true \/ sig_dc_flag (word_of (mem s) (pair_of x)) = false -> wp (walk d fuel 0 (pos + bsize x) hend u) never Q s) ->
  (bfree x = false -> sig_dc_flag (word_of (mem s) (pair_of x)) = true ->
     wp ('(drc, u) ← d u (baddr x + HEADER_SIZE) (baddr x) (first_owner (uids (mem s) (baddr x)));
         if drc <? 0 then unlock_ret (WReturn drc, u) else if 0 <? drc then mret (WRestart, u) else walk d fuel 0 (pos + bsize x) hend u) never Q s) ->
  wp (walk d (S fuel) 0 pos hend u) never Q s.
Proof.
  intros Hw pos hend HQ1 HQ2. destruct (walk_position s l1 x l2 Hw) as (Ex & Exn & Hend & Hpos & Hok). pose proof Hok as [Hsz _]. pose proof (in_split l1 l2 x) as Hx.
  destruct (aw_heap _ _ Hw) as [F Hh]. pose proof (aw_geo _ _ Hw) as Hg. destruct (block_facts s _ F Hg Hh x Hx) as (_ & _ & Hhd & _).
  unfold pos in *. rewrite Ex in *. fold hend in Hend. cbn [walk]. rewrite (proj2 (Z.ltb_lt _ _)) by lia. cbn [negb].
  apply wp_bind, (wp_signed _ s _ F x Hg Hh Hx). cbn [negb]. apply wp_bind, (wp_bsize _ s _ F x Hg Hh Hx). cbv zeta.
  rewrite (proj2 (Z.eqb_neq _ _)) by lia. rewrite (u64_small (_ - _)) by lia. rewrite (proj2 (Z.ltb_ge _ _)) by lia. cbn [orb].
  rewrite (u64_small (baddr x + bsize x)) by lia. apply wp_bind, (wp_bfree _ s _ F x Hg Hh Hx). destruct (bfree x) eqn:Ef; [apply HQ1; by left|].
  apply wp_bind. change (0 =? 0) with true. cbn match. apply wp_bind, wp_load_fld; [apply Hg|done|done|done|]. apply wp_ret.
  change (rdm (mem s) (baddr x + OFF_sig_dc)) with (word_of (mem s) (pair_of x)). destruct (sig_dc_flag _) eqn:Ed; [|apply HQ1; by right].
  apply wp_bind, wp_uid_get_first; [apply Hg|done|]. unfold ptr_from_block. rewrite u64_small by (unfold HEADER_SIZE; lia). by apply HQ2.
Qed.

(** ** The release of one block *)

(** [tlsf_free_nb] of [x] for the owner that [own] picks. *)
Record released (own : list Z -> Z) (s s' : tlsf) (l1 : list blk) (x : blk) (l2 bs' : list blk) : Prop := Released {
  rl_place : same_place s s';
  rl_work : at_work s' bs';
  rl_kept : forall y, y ∈ l1 ++ x :: l2 -> bfree y = false -> baddr y <> baddr x -> kept y (mem s) (mem s');
  rl_heads : heads_stay bs' s s';
  rl_block : let us := uids (mem s) (baddr x) in bs' = if sole_for (own us) us then give_back l1 x l2 else l1 ++ x :: l2;
  rl_self : let us := uids (mem s) (baddr x) in sole_for (own us) us = false ->
    uids (mem s') (baddr x) = drop_owner (own us) us /\ same_but_owners (baddr x) (mem s) (mem s') }.

Lemma drop_nobody us : drop_owner 0 us = us.
Proof. unfold drop_owner. rewrite <- (list_fmap_id us) at 2. apply list_fmap_ext. intros _ u _. destruct (Z.eqb_spec u 0); [by subst|done]. Qed.
Lemma wp_release own (Q : unit -> tlsf -> Prop) s l1 x l2 : at_work s (l1 ++ x :: l2) -> bfree x = false ->
  let u := own (uids (mem s) (baddr x)) in (u <> 0 -> u ∈ uids (mem s) (baddr x)) ->
  (forall s' bs', released own s s' l1 x l2 bs' -> Q tt s') ->
  wp (tlsf_free_nb h (baddr x + HEADER_SIZE) u) never Q s.
Proof.
  intros Hw Hf u Hin HQ. destruct (Z.eq_dec u 0) as [E0|E0].
  - unfold tlsf_free_nb. rewrite E0, (proj2 (Z.eqb_neq h 0)) by done. pose proof (walk_position s l1 x l2 Hw) as (_ & _ & _ & Hpos & _).
    rewrite (proj2 (Z.eqb_neq (_ + _) NULL)) by (unfold HEADER_SIZE; lia). cbn [orb]. change (0 =? 0) with true. cbn match. apply wp_set_errno.
    apply (HQ _ (l1 ++ x :: l2)). split; [done| |done|done|cbv zeta; fold u; by rewrite E0|cbv zeta; fold u; by rewrite E0, drop_nobody].
    destruct Hw as [H1 H2 H3 H4 H5 H6 [F H7]]. split; try done. exists F. eapply heap_ok_same; [..|exact H7]; done.
  - eapply wp_mono; [by apply nb_run; [..|apply Hin]|done|]. intros [] s' (bs' & [D1 D2 D3 D4 D5]).
    apply (HQ s' bs'). split; [done..| |]; cbv zeta; fold u; unfold sole_for; rewrite (proj2 (Z.eqb_neq _ _)) by done; cbn [negb andb].
    + destruct D5 as [(Ho & -> & _)|(Ho & ->)]; [by rewrite bool_decide_eq_false_2|by rewrite bool_decide_eq_true_2].
    + intros Hns%bool_decide_eq_false_1. by destruct D5 as [(_ & _ & ?)|(? & _)].
Qed.

Lemma wp_collect (Q : Z * Gc.gc_pool -> tlsf -> Prop) s l1 x l2 pool : at_work s (l1 ++ x :: l2) -> bfree x = false ->
  let p := pair_of x in marked (mem s) p = true ->
  (Gc.POOL_SIZE <= Gc.count pool -> Q (- Errno.ENOMEM, pool) s) ->
  (Gc.count pool < Gc.POOL_SIZE -> special (mem s) p = true -> let pool' := Gc.gc_add (elm_of (mem s) p) pool in
     Q (if Gc.POOL_SIZE <=? Gc.count pool' then - Errno.ENOMEM else 0, pool') s) ->
  (Gc.count pool < Gc.POOL_SIZE -> special (mem s) p = false -> forall s' bs', released first_owner s s' l1 x l2 bs' -> Q (0, pool) s') ->
  wp (Gc.destructor_fn h pool (baddr x + HEADER_SIZE) (baddr x) (first_owner (uids (mem s) (baddr x)))) never Q s.
Proof.
  intros Hw Hf p Hm HQ1 HQ2 HQ3. pose proof (live_block s _ x Hw (in_split l1 l2 x) Hf) as Hl. pose proof (proj1 (aw_geo _ _ Hw)) as Hg.
  pose proof (proj1 (proj2 Hl)) as Hpos. unfold Gc.destructor_fn.
  rewrite !(proj2 (Z.eqb_neq _ _)) by (done || unfold HEADER_SIZE; lia). cbn [orb].
  destruct (Z.leb_spec Gc.POOL_SIZE (Gc.count pool)) as [Hle|Hlt]; [apply wp_ret; by apply HQ1|].
  apply wp_bind. eapply wp_mono; [apply wp_tlsf_get_data_type; done|done|]. intros ty s1 [-> ->].
  apply wp_bind. eapply wp_mono; [apply wp_tlsf_getdc; done|done|]. intros dc s1 [-> ->].
  unfold rd. change (rdm (mem s) (baddr x + OFF_sig_dc)) with (word_of (mem s) p). unfold marked in Hm. rewrite Hm.
  change (1 <? 0) with false. cbv zeta match. change (1 =? 0) with false. cbv match.
  assert (0 <= sig_type (word_of (mem s) p)) as Hty by (rewrite sig_type_mod; by apply Z.mod_pos_bound). rewrite (proj2 (Z.ltb_ge _ 0)) by done.
  set (t := sig_type (word_of (mem s) p)) in *.
  assert ((t =? Shmem.SHMDT_PROC) || (t =? Shmem.SHMDT_REGFN) || (t =? Shmem.SHMDT_REQUEST) = special (mem s) p) as ->.
  { unfold special. fold t. unfold special_type. case_bool_decide as E.
    - destruct E as [->|[->| ->]]; reflexivity.
    - rewrite !(proj2 (Z.eqb_neq _ _)) by tauto. done. }
  destruct (special (mem s) p) eqn:Es.
  - apply wp_ret. specialize (HQ2 Hlt eq_refl). unfold elm_of in HQ2. fold t in HQ2.
    assert (u16 t = t) as -> by (unfold special in Es; apply bool_decide_eq_true_1 in Es; fold t in Es; destruct Es as [->|[->| ->]]; reflexivity). exact HQ2.
  - apply wp_bind. apply (wp_release first_owner _ s l1 x l2 Hw Hf); [apply first_owner_in|]. intros s' bs' HR. apply wp_ret. by eapply HQ3.
Qed.
End walk.

(** ** Where the walk goes on *)

Lemma give_back_starts l1 x l2 a : a ∈ baddr <$> give_back l1 x l2 -> a ∈ baddr <$> l1 ++ x :: (merge_next x l2).2.
Proof.
  unfold give_back. assert (forall y, (merge_next y l2).2 = (merge_next x l2).2 /\ baddr (merge_next y l2).1 = baddr y) as Hn.
  { intros y. destruct l2 as [|z l2]; cbn; [done|]. by destruct (bfree z). }
  assert (forall a, a ∈ baddr <$> (merge_prev l1 x).1 \/ a = baddr (merge_prev l1 x).2 -> a ∈ baddr <$> l1 ++ [x]) as Hp.
  { intros b. destruct l1 as [|p l1 _] using rev_ind; cbn; [rewrite elem_of_cons; tauto|]. rewrite merge_prev_snoc.
    destruct (_ && _); cbn; rewrite !fmap_app, !elem_of_app; cbn; rewrite ?elem_of_cons; tauto. }
  destruct (merge_prev l1 x) as [m1 y]. destruct (Hn y) as [E1 E2]. destruct (merge_next y l2) as [z m2]. cbn [fst snd] in *. rewrite <- E1.
  rewrite !fmap_app, !fmap_cons, starts_flag, !elem_of_app, !elem_of_cons. cbn [baddr]. rewrite E2. specialize (Hp a). rewrite fmap_app, elem_of_app in Hp. cbn in Hp.
  rewrite elem_of_cons in Hp. intros [H|[H|H]]; [|..|tauto]; destruct Hp as [|[|Hbad]]; try tauto; by apply not_elem_of_nil in Hbad.
Qed.

(** After a release the walk is at the block after the merged one, or at the stale header
    of the free block that was merged with it. *)
Lemma goes_on s s' l1 x l2 : at_work s (l1 ++ x :: l2) -> bfree x = false -> geo s' = geo s -> heads_stay (give_back l1 x l2) s s' ->
  exists k1 k2, give_back l1 x l2 = k1 ++ k2 /\ used_of k1 = used_of l1 /\ used_of k2 = used_of l2 /\
    ((baddr x + bsize x = heap_start (geo s') + tsize k1 /\ length k2 = length l2) \/
     (exists z, stale_at s' k1 (baddr x + bsize x) z /\ length l2 = S (length k2))).
Proof.
  intros Hw Hf Eg Hs. pose proof (walk_position s l1 x l2 Hw) as (Ex & _). destruct (aw_heap _ _ Hw) as [F Hh]. pose proof (aw_geo _ _ Hw) as Hg.
  pose proof (give_back_starts l1 x l2) as Hst. rewrite Eg. unfold give_back in *.
  assert (tsize (merge_prev l1 x).1 + bsize (merge_prev l1 x).2 = tsize l1 + bsize x /\ used_of (merge_prev l1 x).1 = used_of l1) as [Ep Eu].
  { destruct l1 as [|p l1 _] using rev_ind; [done|]. rewrite merge_prev_snoc. destruct (bprev x && bfree p) eqn:E; [|done].
    apply andb_true_iff in E as [_ E]. cbn [fst snd join set_bsize set_bstale bsize set_blisted]. rewrite tsize_app, used_of_app, used_of_cons, E. cbn. rewrite app_nil_r. split; [lia|done]. }
  destruct (merge_prev l1 x) as [m1 y]. cbn [fst snd] in *. destruct l2 as [|z l2]; cbn [merge_next] in *; [|destruct (bfree z) eqn:Ez].
  - eexists (m1 ++ [_]), []. split; [by rewrite <- app_assoc|]. split; [rewrite used_of_app, used_of_cons; cbn; by rewrite app_nil_r|]. split; [done|].
    left. rewrite tsize_app. cbn [tsize bsize]. split; [lia|done].
  - eexists (m1 ++ [_]), (flag_next true l2). split; [by rewrite <- app_assoc|]. split; [rewrite used_of_app, used_of_cons; cbn; by rewrite app_nil_r|].
    split; [by rewrite used_of_flag, used_of_cons, Ez|]. right. exists z. assert (length (flag_next true l2) = length l2) as -> by (by destruct l2).
    split; [|done]. destruct (in_two l1 l2 x z) as [_ Hz]. destruct (neighbours s l1 x z l2 F Hg Hh) as (Ea & _ & Hok & _).
    pose proof (block_node s _ F Hg Hh z Hz) as Hn. destruct (block_reads s _ F Hh z Hz) as [Ew Esig]. rewrite <- Ea.
    destruct (block_facts s _ F Hg Hh z Hz) as (_ & _ & _ & Hstz & _).
    assert (baddr z ∉ baddr <$> m1 ++ Blk (baddr (set_bprev false (join y z))) (bsize (set_bprev false (join y z))) true (bprev (set_bprev false (join y z))) true false :: flag_next true l2) as Hnin.
    { intros Hin. apply Hst in Hin. apply list_elem_of_fmap in Hin as (w & E & Hin). assert (heap_ok s ((l1 ++ [x]) ++ z :: l2) F) as Hh' by (by rewrite <- app_assoc).
      apply (rest_apart s (l1 ++ [x]) z l2 F w Hg Hh'); [by rewrite <- app_assoc|by symmetry]. }
    split; try done.
    + destruct (spot_of s _ F z Hg Hh Hz) as [Hhd Hnz]. split; [|done]. by unfold header_in, pool_end in *; rewrite Eg.
    + rewrite Hs; [exact Ew|done|apply Hn|by left|exact Hnin].
    + rewrite Hs; [exact Esig|done|apply Hn|by right|exact Hnin].
    + rewrite Eg, tsize_app. cbn [tsize bsize set_bprev join set_bsize set_bstale]. lia.
  - eexists (m1 ++ [_]), (flag_next true (z :: l2)). split; [by rewrite <- app_assoc|]. split; [rewrite used_of_app, used_of_cons; cbn; by rewrite app_nil_r|].
    split; [by rewrite used_of_flag|]. left. rewrite tsize_app. cbn [tsize bsize]. split; [lia|done].
Qed.

(** ** The whole walk *)

Record swept_to (s : tlsf) (l1 l2 : list blk) (s' : tlsf) (bs' : list blk) (r : list (Z * Z)) : Prop := SweptTo {
  st_work : at_work s' bs';
  st_place : same_place s s';
  st_used : used_of bs' = used_of l1 ++ r;
  st_seen : forall p, p ∈ used_of l1 -> pair_kept (mem s) (mem s') p;
  st_ahead : forall p, p ∈ used_of l2 -> untouched (mem s) p -> pair_kept (mem s) (mem s') p }.

Lemma used_pair s bs p : at_work s bs -> p ∈ used_of bs -> exists x, x ∈ bs /\ bfree x = false /\ p = pair_of x /\ blk_ok x /\ 128 <= p.2.
Proof.
  intros Hw Hp. destruct p as [a n]. apply used_of_in in Hp as (x & Hx & Hf & <- & <-). destruct (aw_heap _ _ Hw) as [F Hh].
  destruct (block_facts s _ F (aw_geo _ _ Hw) Hh x Hx) as (Hok & _). exists x. do 4 (split; [done|]). apply Hok.
Qed.
Lemma pair_kept_trans m1 m2 m3 p : pair_kept m1 m2 p -> pair_kept m2 m3 p -> pair_kept m1 m3 p.
Proof. intros H1 H2 o Ho Hne. by rewrite H2, H1. Qed.
Lemma pair_kept_word m m' p : 128 <= p.2 -> pair_kept m m' p -> word_of m' p = word_of m p /\ uids m' p.1 = uids m p.1.
Proof. intros Hs Hk. split; [apply Hk; offs; lia|]. apply uids_ext. intros o Ho. apply Hk; offs; lia. Qed.

Lemma swept_here s l1 l2 : at_work s (l1 ++ l2) -> swept_to s l1 l2 s (l1 ++ l2) (used_of l2).
Proof. intros Hw. split; try done. apply used_of_app. Qed.
Lemma swept_step s l1 x l2 s1 k1 k2 s' bs' r0 r : at_work s (l1 ++ x :: l2) -> same_place s s1 -> used_of k2 = used_of l2 -> used_of k1 = used_of l1 ++ r0 ->
  (forall p, p ∈ used_of l1 ++ used_of l2 -> pair_kept (mem s) (mem s1) p) ->
  (forall p, p ∈ used_of [x] -> untouched (mem s) p -> p ∈ r0 /\ pair_kept (mem s) (mem s1) p) ->
  swept_to s1 k1 k2 s' bs' r -> swept_to s l1 (x :: l2) s' bs' (r0 ++ r).
Proof.
  intros Hw [Eg Es] E2 E1 Hk Hx [W [Eg' Es'] Hu H1 H2].
  assert (forall p, p ∈ used_of l1 ++ used_of l2 -> 128 <= p.2) as Hsz.
  { intros p Hp. rewrite <- used_of_app in Hp. destruct (used_pair s (l1 ++ x :: l2) p Hw) as (_ & _ & _ & _ & _ & ?); [|done].
    rewrite used_of_app, elem_of_app in *. rewrite used_of_cons, elem_of_app. tauto. }
  split; [done|split; congruence|rewrite Hu, E1; by rewrite app_assoc| |].
  - intros p Hp. eapply pair_kept_trans; [apply Hk, elem_of_app; by left|]. apply H1. rewrite E1. apply elem_of_app. by left.
  - intros p Hp Hun. rewrite used_of_cons in Hp. apply elem_of_app in Hp as [Hp|Hp].
    + destruct (Hx p) as [Hr K]; [by rewrite used_of_cons, app_nil_r|done|]. eapply pair_kept_trans; [exact K|]. apply H1. rewrite E1. apply elem_of_app. by right.
    + assert (p ∈ used_of l1 ++ used_of l2) as Hp' by (apply elem_of_app; by right). pose proof (Hk p Hp') as K.
      destruct (pair_kept_word _ _ p (Hsz p Hp') K) as [Ew _]. eapply pair_kept_trans; [exact K|]. apply H2; [by rewrite E2|].
      unfold untouched, marked, special in *. by rewrite Ew.
Qed.
(** A block that is passed by. *)
Lemma swept_pass s l1 x l2 s' bs' r : at_work s (l1 ++ x :: l2) -> swept_to s (l1 ++ [x]) l2 s' bs' r -> swept_to s l1 (x :: l2) s' bs' (used_of [x] ++ r).
Proof. intros Hw H. eapply (swept_step s l1 x l2 s (l1 ++ [x]) l2); try done. apply used_of_app. Qed.

Lemma released_others own s s1 l1 x l2 bs' : at_work s (l1 ++ x :: l2) -> bfree x = false -> released own s s1 l1 x l2 bs' ->
  forall p, p ∈ used_of l1 ++ used_of l2 -> pair_kept (mem s) (mem s1) p.
Proof.
  intros Hw Hf HR p Hp. rewrite <- used_of_app in Hp. destruct p as [a n]. apply used_of_in in Hp as (y & Hy & Hfy & <- & <-).
  destruct (aw_heap _ _ Hw) as [F Hh]. apply (rl_kept _ _ _ _ _ _ _ HR); [apply in_mid; by right|done|].
  by apply (rest_apart s l1 x l2 F y (aw_geo _ _ Hw) Hh).
Qed.

Definition ends (Q : walk_end * Gc.gc_pool -> tlsf -> Prop) (r : Z * Gc.gc_pool) (s' : tlsf) : Prop :=
  if r.1 =? 0 then Q (WDone, r.2) s' else Q (WReturn r.1, r.2) (set_mutex mutex_free s').

Section sweep.
Context (h : Z) (Hnz : h <> 0) (Q : walk_end * Gc.gc_pool -> tlsf -> Prop).
Abbreviation walk_from fuel s pos := (walk (Gc.destructor_fn h) fuel 0 pos (heap_start (geo s) + heap_size (geo s))).
Definition sweeps (fuel : nat) : Prop := forall s l1 l2 pool, at_work s (l1 ++ l2) -> (length l2 < fuel)%nat ->
  let r := sweep (mem s) pool (used_of l2) in
  (forall s' bs', swept_to s l1 l2 s' bs' r.2 -> ends Q r.1 s') ->
  wp (walk_from fuel s (heap_start (geo s) + tsize l1) pool) never Q s.

Lemma sweeps_pass fuel s l1 x l2 pool : sweeps fuel -> at_work s (l1 ++ x :: l2) -> (length l2 < fuel)%nat ->
  (forall s' bs', swept_to s l1 (x :: l2) s' bs' (used_of [x] ++ (sweep (mem s) pool (used_of l2)).2) -> ends Q (sweep (mem s) pool (used_of l2)).1 s') ->
  wp (walk_from fuel s (heap_start (geo s) + tsize l1 + bsize x) pool) never Q s.
Proof.
  intros IH Hw Hl HQ. replace (heap_start (geo s) + tsize l1 + bsize x) with (heap_start (geo s) + tsize (l1 ++ [x])) by (rewrite tsize_app; cbn [tsize]; lia).
  apply (IH s (l1 ++ [x]) l2 pool); [by rewrite <- app_assoc|done|]. intros s' bs' HS. by eapply HQ, swept_pass.
Qed.
(** After a plain block was freed for its first owner. *)
Lemma sweeps_release fuel s l1 x l2 pool s1 bs1 : (forall n, (n <= fuel)%nat -> sweeps n) -> at_work s (l1 ++ x :: l2) -> bfree x = false ->
  (S (length l2) < S fuel)%nat -> marked (mem s) (pair_of x) = true -> special (mem s) (pair_of x) = false -> released first_owner s s1 l1 x l2 bs1 ->
  let r := if sole (uids (mem s) (baddr x)) then sweep (mem s) pool (used_of l2) else stays (pair_of x) (sweep (mem s) pool (used_of l2)) in
  (forall s' bs', swept_to s l1 (x :: l2) s' bs' r.2 -> ends Q r.1 s') ->
  wp (walk_from fuel s (heap_start (geo s) + tsize l1 + bsize x) pool) never Q s1.
Proof.
  intros IH Hw Hf Hlen Hm Hsp HR r HQ. subst r.
  assert (used_of [x] = [pair_of x]) as Eux by (by rewrite used_of_cons, Hf).
  assert (used_of (x :: l2) = pair_of x :: used_of l2) as Eu by (by rewrite used_of_cons, Hf).
  pose proof (released_others _ s s1 l1 x l2 bs1 Hw Hf HR) as Hothers. destruct HR as [Hpl HW _ Hh Hbs _]. cbv zeta in Hbs. fold (sole (uids (mem s) (baddr x))) in Hbs. pose proof Hpl as [Eg _].
  assert (sweep (mem s1) pool (used_of l2) = sweep (mem s) pool (used_of l2)) as Esw.
  { apply sweep_ext. intros p Hp. apply pair_kept_word; [|apply Hothers, elem_of_app; by right].
    destruct (used_pair s _ p Hw) as (_ & _ & _ & _ & _ & ?); [|done]. rewrite used_of_app, Eu. apply elem_of_app; right. by apply list_elem_of_further. }
  assert (forall p, p ∈ used_of [x] -> ~ untouched (mem s) p) as Hnt.
  { rewrite Eux. intros p ->%list_elem_of_singleton [?|?]; congruence. }
  destruct (sole (uids (mem s) (baddr x))).
  2:{ subst bs1. replace (heap_start (geo s) + tsize l1 + bsize x) with (heap_start (geo s1) + tsize (l1 ++ [x])) by (rewrite Eg, tsize_app; cbn [tsize]; lia).
      rewrite <- Eg. apply (IH fuel ltac:(lia) s1 (l1 ++ [x]) l2 pool); [by rewrite <- app_assoc|lia|]. rewrite Esw. intros s' bs' HS.
      apply (HQ s' bs'). apply (swept_step s l1 x l2 s1 (l1 ++ [x]) l2 s' bs' [pair_of x]); try done; [by rewrite used_of_app, Eux|].
      intros p Hp Hun. by destruct (Hnt p Hp). }
  subst bs1. destruct (goes_on s s1 l1 x l2 Hw Hf Eg Hh) as (k1 & k2 & Ek & E1 & E2 & Hpos). rewrite Ek in HW.
  pose proof (walk_position s l1 x l2 Hw) as (Ex & _). rewrite Ex, <- Eg.
  assert (forall s' bs', swept_to s1 k1 k2 s' bs' (sweep (mem s) pool (used_of l2)).2 -> ends Q (sweep (mem s) pool (used_of l2)).1 s') as HQ'.
  { intros s' bs' HS. apply (HQ s' bs'). apply (swept_step s l1 x l2 s1 k1 k2 s' bs' []); try done; [by rewrite app_nil_r|].
    intros p Hp Hun. by destruct (Hnt p Hp). }
  destruct Hpos as [[Epos Hl]|(z & Hst & Hl)].
  * rewrite Epos. apply (IH fuel ltac:(lia) s1 k1 k2 pool HW); [lia|]. by rewrite E2, Esw.
  * destruct fuel as [|fuel]; [lia|]. apply (wp_walk_stale _ _ fuel 0 s1 k1 k2 _ z pool HW Hst).
    apply (IH fuel ltac:(lia) s1 k1 k2 pool HW); [lia|]. by rewrite E2, Esw.
Qed.

Lemma wp_sweep fuel : sweeps fuel.
Proof.
  induction fuel as [fuel IH] using lt_wf_ind. intros s l1 l2 pool Hw Hlen r HQ. destruct fuel as [|fuel]; [lia|].
  destruct l2 as [|x l2].
  { rewrite app_nil_r in Hw. rewrite (walk_at_end s l1 Hw). cbn [walk]. rewrite Z.ltb_irrefl. apply wp_ret.
    apply (HQ s (l1 ++ [])). apply swept_here. by rewrite app_nil_r. }
  cbn [length] in Hlen. pose proof (in_split l1 l2 x) as Hx.
  pose proof (fun pool' => sweeps_pass fuel s l1 x l2 pool' (IH fuel ltac:(lia)) Hw ltac:(lia)) as Hpass.
  subst r. rewrite used_of_cons in HQ. apply (wp_walk_block _ Q fuel s l1 x l2 pool Hw).
  - intros Hskip. apply Hpass. intros s' bs' HS. destruct (bfree x) eqn:Ef; cbn [app sweep] in HQ.
    + apply (HQ s' bs'). by rewrite used_of_cons, Ef in HS.
    + destruct Hskip as [?|Hm]; [done|]. change (baddr x, bsize x) with (pair_of x) in HQ. change (marked (mem s) (pair_of x) = false) in Hm. rewrite Hm in HQ. cbn [negb stays fst snd] in HQ.
      apply (HQ s' bs'). by rewrite used_of_cons, Ef in HS.
  - intros Hf Hm. rewrite Hf in HQ. cbn [app sweep] in HQ. change (baddr x, bsize x) with (pair_of x) in HQ. change (marked (mem s) (pair_of x) = true) in Hm. rewrite Hm in HQ. cbn [negb] in HQ.
    assert (forall pl, (forall s' bs', swept_to s l1 (x :: l2) s' bs' (pair_of x :: used_of l2) -> ends Q (- Errno.ENOMEM, pl) s') ->
      wp (unlock_ret (WReturn (- Errno.ENOMEM), pl)) never Q s) as Hfull.
    { intros pl HQ'. apply wp_leave; [apply Hw|apply Hw|]. apply (HQ' s (l1 ++ x :: l2)).
      assert (pair_of x :: used_of l2 = used_of (x :: l2)) as -> by (by rewrite used_of_cons, Hf). by apply swept_here. }
    apply wp_bind, (wp_collect h Hnz _ s l1 x l2 pool Hw Hf Hm).
    + intros Hle. rewrite (proj2 (Z.leb_le _ _) Hle) in HQ. change (- Errno.ENOMEM <? 0) with true. by apply Hfull.
    + intros Hlt Hsp. rewrite (proj2 (Z.leb_gt _ _) Hlt), Hsp in HQ. cbv zeta. destruct (Gc.POOL_SIZE <=? _) eqn:E.
      * change (- Errno.ENOMEM <? 0) with true. by apply Hfull.
      * change (0 <? 0) with false. apply Hpass. by rewrite used_of_cons, Hf.
    + intros Hlt Hsp s1 bs1 HR. rewrite (proj2 (Z.leb_gt _ _) Hlt), Hsp in HQ. change (0 <? 0) with false. cbn match.
      by apply (sweeps_release fuel s l1 x l2 pool s1 bs1); [intros n Hn; apply IH; lia|..].
Qed.
End sweep.

(** The operation on a pool at rest: one round, without restarts. *)
Lemma collector_walk_run rounds fuel s bs h pool : pool_ok s bs -> h <> 0 -> rounds <> 0%nat -> heap_size (geo s) / 128 < Z.of_nat fuel ->
  let r := sweep (mem s) pool (used_of bs) in
  exists s' bs', tlsf_free_uid_blocks rounds fuel h 0 (Some (Gc.destructor_fn h)) pool s = Ret r.1 s' /\
    pool_ok s' bs' /\ used_of bs' = r.2 /\ (forall p, p ∈ used_of bs -> untouched (mem s) p -> pair_kept (mem s) (mem s') p).
Proof.
  intros Hpool Hnz Hrounds Hfuel r.
  cut (wp (tlsf_free_uid_blocks rounds fuel h 0 (Some (Gc.destructor_fn h)) pool) never (fun r' s' => exists bs', r' = r.1 /\ pool_ok s' bs' /\
    used_of bs' = r.2 /\ forall p, p ∈ used_of bs -> untouched (mem s) p -> pair_kept (mem s) (mem s') p) s).
  { intros H. apply wp_never in H as (r' & s' & E & bs' & -> & H). by exists s', bs'. }
  apply (wp_walk_begin _ _ rounds fuel s bs h 0 pool Hpool Hnz). intros s1 Hw Eg Em. apply wp_one_round; [done|].
  apply (wp_sweep h Hnz _ fuel s1 [] bs pool Hw); [by eapply fuel_enough; [|rewrite Eg]|].
  rewrite Em. fold r. intros s' bs' [W P U _ K]. cbn [used_of] in U. change (used_of bs' = r.2) in U. rewrite Em in K. unfold ends.
  pose proof (leave_pool s' bs' W) as Hp. destruct (Z.eqb_spec r.1.1 0) as [E|E].
  - apply wp_leave; [apply W|apply W|]. exists bs'. split_and!; try done. by rewrite <- E, <- surjective_pairing.
  - exists bs'. split_and!; try done. by destruct r as [[rc p] l].
Qed.

(** What the sweep computes: while the array has room, all special marked blocks are
    gathered and the plain ones with one owner go; when it fills up the sweep ends. *)
Definition gathers (m : gmap Z Z) (p : Z * Z) : bool := marked m p && special m p.
Definition frees (m : gmap Z Z) (p : Z * Z) : bool := marked m p && negb (special m p) && sole (uids m p.1).
Definition gathered_of (m : gmap Z Z) (l : list (Z * Z)) : list Gc.gc_elm := elm_of m <$> filter (fun p => gathers m p = true) l.

Lemma sweep_room m l : forall pool, Gc.count pool + Z.of_nat (length (gathered_of m l)) < Gc.POOL_SIZE ->
  let r := sweep m pool l in
  r.1.1 = 0 /\ Gc.count r.1.2 = Gc.count pool + Z.of_nat (length (gathered_of m l)) /\ Gc.elm r.1.2 = Gc.elm pool ++ gathered_of m l /\
  r.2 = filter (fun p => frees m p = false) l.
Proof.
  induction l as [|p l IH]; intros pool Hn; [cbn; rewrite app_nil_r; split_and!; [done|lia|done|done]|].
  assert (gathered_of m (p :: l) = (if gathers m p then [elm_of m p] else []) ++ gathered_of m l) as Eg.
  { unfold gathered_of. rewrite filter_cons. by destruct (gathers m p). }
  assert (filter (fun p => frees m p = false) (p :: l) = (if frees m p then [] else [p]) ++ filter (fun p => frees m p = false) l) as Ef.
  { rewrite filter_cons. by destruct (frees m p). }
  rewrite Eg in *. rewrite Ef. clear Eg Ef. unfold gathers, frees in *. cbn [sweep].
  destruct (marked m p), (special m p); cbn [negb andb app length] in *; try (destruct (IH pool Hn) as (R1 & R2 & R3 & R4)); rewrite ?app_nil_l in *.
  - rewrite (proj2 (Z.leb_gt _ _)) by lia. rewrite (proj2 (Z.leb_gt _ _)) by (cbn [Gc.gc_add Gc.count]; lia).
    destruct (IH (Gc.gc_add (elm_of m p) pool)) as (R1 & R2 & R3 & R4); [cbn [Gc.gc_add Gc.count]; lia|].
    unfold stays. cbn [fst snd]. rewrite R1, R2, R3, R4. cbn [Gc.gc_add Gc.count Gc.elm]. rewrite <- app_assoc. split_and!; [done|lia|done|done].
  - rewrite (proj2 (Z.leb_gt _ _)) by lia. destruct (sole (uids m p.1)); [done|]. unfold stays. cbn [fst snd]. by rewrite R4.
  - unfold stays. cbn [fst snd]. by rewrite R4.
  - unfold stays. cbn [fst snd]. by rewrite R4.
Qed.

(** A full array ends the sweep with an error, at the special block that fills it; what
    comes after it stays. *)
Lemma sweep_full m l : forall pool, Gc.count pool <= Gc.POOL_SIZE - 1 -> Gc.POOL_SIZE <= Gc.count pool + Z.of_nat (length (gathered_of m l)) ->
  exists l1 p l2, l = l1 ++ p :: l2 /\ gathers m p = true /\ Gc.count pool + Z.of_nat (length (gathered_of m l1)) = Gc.POOL_SIZE - 1 /\
  let r := sweep m pool l in
  r.1.1 = - Errno.ENOMEM /\ Gc.count r.1.2 = Gc.POOL_SIZE /\ Gc.elm r.1.2 = Gc.elm pool ++ gathered_of m (l1 ++ [p]) /\
  r.2 = filter (fun p => frees m p = false) l1 ++ p :: l2.
Proof.
  induction l as [|p l IH]; intros pool Hc Hn; [cbn in Hn; lia|].
  assert (forall k, gathered_of m (p :: k) = (if gathers m p then [elm_of m p] else []) ++ gathered_of m k) as Eg.
  { intros k. unfold gathered_of. rewrite filter_cons. by destruct (gathers m p). }
  assert (forall k, filter (fun p => frees m p = false) (p :: k) = (if frees m p then [] else [p]) ++ filter (fun p => frees m p = false) k) as Ef.
  { intros k. rewrite filter_cons. by destruct (frees m p). }
  rewrite Eg, length_app in Hn. cbn [sweep]. rewrite (proj2 (Z.leb_gt Gc.POOL_SIZE (Gc.count pool))) by lia.
  destruct (gathers m p) eqn:Egp.
  - pose proof Egp as Egp'. apply andb_true_iff in Egp' as [Em Esp]. rewrite Em, Esp. cbn [negb]. cbn [length] in Hn.
    destruct (Z.leb_spec Gc.POOL_SIZE (Gc.count (Gc.gc_add (elm_of m p) pool))) as [Hle|Hlt]; cbn [Gc.gc_add Gc.count] in *.
    + exists [], p, l. cbn [app]. rewrite Eg. cbn. split_and!; try done; try lia.
    + destruct (IH (Gc.gc_add (elm_of m p) pool)) as (l1 & q & l2 & -> & Hq & Hn1 & R1 & R2 & R3 & R4); [cbn [Gc.gc_add Gc.count]; lia..|].
      exists (p :: l1), q, l2. cbn [Gc.gc_add Gc.count Gc.elm] in *. unfold stays. cbn [fst snd]. rewrite <- !app_comm_cons, Eg, Eg, Ef, R1, R2, R3, R4. rewrite length_app. cbn [length].
      assert (frees m p = false) as -> by (unfold frees; by rewrite Em, Esp). cbn [app]. rewrite <- app_assoc. split_and!; try done; lia.
  - cbn [length Nat.add] in Hn. destruct (IH pool Hc) as (l1 & q & l2 & -> & Hq & Hn1 & R1 & R2 & R3 & R4); [lia|].
    exists (p :: l1), q, l2. rewrite <- !app_comm_cons, Eg, Eg, Ef. cbn [app].
    assert (frees m p = marked m p && negb (special m p) && sole (uids m p.1)) as -> by done. unfold gathers in Egp.
    destruct (marked m p), (special m p); try done; cbn [negb andb]; [destruct (sole (uids m p.1))|..]; unfold stays; cbn [fst snd app]; rewrite ?R4; by split_and!.
Qed.
