(* ===== verification/CollectionSpec.v ===== *)
(** One pass of the collector ([libsrpc_shm_gc.c]) over heap and segment: the walk that
    gathers the special blocks, the test of each for references, and the release of
    those that nobody holds. *)
From S2P Require Import Prelude Machine TlsfTypes TlsfBul TlsfHeap TlsfAlloc TlsfApi TlsfFacts TlsfHoare TlsfOwners TlsfOwnership TlsfSpec TlsfLists TlsfTiling TlsfBlocks TlsfMalloc TlsfFree TlsfPool TlsfWalk ProcMemory World Trash Gc GcSpec Collection.
From S2P Require Request Registry RegistrySpec RequestSpec Shmem RpcSpec.

(** ** Under the lock of the pool *)

Lemma wp_tlsf_lock (Q : Z -> tlsf -> Prop) s bs h : h <> 0 -> pool_ok s bs ->
  (forall s', at_work s' bs -> same_place s s' -> mem s' = mem s -> Q 0 s') -> wp (tlsf_lock h) never Q s.
Proof.
  intros Hh ((Hg & Hm & Ht & Hx & Hs) & Ha & Hpg & Hset & F & Hok) HQ. unfold tlsf_lock. rewrite (proj2 (Z.eqb_neq h NULL)) by done.
  apply wp_bind, wp_gets. rewrite (proj1 Hg), Z.eqb_refl. cbn [negb]. apply wp_bind. eapply wp_on_mutex.
  { rewrite Hx. unfold mutex_lock, mutex_free. cbn [mx_owner mx_unrecoverable mx_dead]. rewrite (proj2 (Z.eqb_neq 0 (self (thr s)))) by congruence. reflexivity. }
  { by apply never_dies. }
  change (0 =? EOWNERDEAD) with false. cbn match. unfold tlsf_lock_end. change (negb (0 =? 0)) with false. cbn match. rewrite life_None_ticked by done.
  apply wp_bind, wp_gets. apply wp_bind, wp_upd_txn; [by apply never_dies|]. rewrite life_None_ticked by done.
  apply wp_bind, wp_set_errno, wp_ret. apply HQ; try done. split; try done. exists F. eapply heap_ok_same; [..|exact Hok]; done.
Qed.
Lemma wp_tlsf_unlock (Q : Z -> tlsf -> Prop) s bs h : h <> 0 -> at_work s bs -> Q 0 (set_mutex mutex_free s) -> wp (tlsf_unlock h) never Q s.
Proof.
  intros Hh [_ Ha _ Hx _ _ _] HQ. unfold tlsf_unlock. rewrite (proj2 (Z.eqb_neq h NULL)) by done. apply wp_bind. eapply wp_on_mutex.
  { rewrite Hx. unfold mutex_unlock. cbn [mx_owner mx_count mx_dead]. rewrite Z.eqb_refl. reflexivity. }
  { by apply never_dies. }
  rewrite life_None_ticked by done. by apply wp_ret.
Qed.

(** ** Freeing what was gathered *)

(** The blocks of [L] leave, unless they have owners besides the one that [own] picks. *)
Definition leaves (own : list Z -> Z) (m : gmap Z Z) (L : list (Z * Z)) (p : Z * Z) : bool :=
  bool_decide (p ∈ L) && sole_for (own (uids m p.1)) (uids m p.1).
(** A block that stays loses that owner and nothing else. *)
Record owner_gone (own : list Z -> Z) (m m' : gmap Z Z) (p : Z * Z) : Prop := OwnerGone {
  og_uids : uids m' p.1 = drop_owner (own (uids m p.1)) (uids m p.1);
  og_word : word_of m' p = word_of m p;
  og_payload : forall o, HEADER_SIZE <= o < p.2 -> rdm m' (p.1 + o) = rdm m (p.1 + o) }.

Lemma filter_id {A} (P : A -> Prop) `{!forall x, Decision (P x)} (l : list A) : (forall x, x ∈ l -> P x) -> filter P l = l.
Proof.
  induction l as [|x l IH]; intros Hl; [done|]. rewrite filter_cons, decide_True by apply Hl, list_elem_of_here.
  f_equal. apply IH. intros y Hy. by apply Hl, list_elem_of_further.
Qed.
Record freed_all (own : list Z -> Z) (s : tlsf) (bs : list blk) (L : list (Z * Z)) (s' : tlsf) (bs' : list blk) : Prop := FreedAll {
  fa_work : at_work s' bs';
  fa_place : same_place s s';
  fa_used : used_of bs' = filter (fun p => leaves own (mem s) L p = false) (used_of bs);
  fa_kept : forall p, p ∈ used_of bs -> p ∉ L -> pair_kept (mem s) (mem s') p;
  fa_rest : forall p, p ∈ used_of bs -> p ∈ L -> leaves own (mem s) L p = false -> owner_gone own (mem s) (mem s') p }.

Lemma pair_kept_payload m m' p o : pair_kept m m' p -> HEADER_SIZE <= o < p.2 -> rdm m' (p.1 + o) = rdm m (p.1 + o).
Proof. intros K Ho. apply K; unfold HEADER_SIZE in Ho; offs; lia. Qed.
Lemma owner_gone_after own m m1 m' p : 128 <= p.2 -> pair_kept m m1 p -> owner_gone own m1 m' p -> owner_gone own m m' p.
Proof.
  intros Hs K [H1 H2 H3]. destruct (pair_kept_word m m1 p Hs K) as [Ew Eu]. rewrite Eu in H1. split; [done|congruence|].
  intros o Ho. rewrite H3 by done. by apply pair_kept_payload.
Qed.
Lemma owner_gone_before own m m1 m' p : 128 <= p.2 -> owner_gone own m m1 p -> pair_kept m1 m' p -> owner_gone own m m' p.
Proof.
  intros Hs [H1 H2 H3] K. destruct (pair_kept_word m1 m' p Hs K) as [Ew Eu]. split; [congruence|congruence|].
  intros o Ho. rewrite <- H3 by done. by apply pair_kept_payload.
Qed.
Lemma released_self own s s1 l1 x l2 bs1 : at_work s (l1 ++ x :: l2) -> released own s s1 l1 x l2 bs1 ->
  sole_for (own (uids (mem s) (baddr x))) (uids (mem s) (baddr x)) = false -> owner_gone own (mem s) (mem s1) (pair_of x).
Proof.
  intros Hw HR Hs. destruct (rl_self _ _ _ _ _ _ _ HR Hs) as [Eu Hk]. split; [done|apply (Hk (baddr x + _)); offs; lia|].
  intros o Ho. cbn [pair_of fst] in *. apply Hk. unfold HEADER_SIZE in Ho. offs. lia.
Qed.

Section own.
Context (own : list Z -> Z).
Lemma released_kept s s1 l1 x l2 bs1 : at_work s (l1 ++ x :: l2) -> bfree x = false -> released own s s1 l1 x l2 bs1 ->
  forall q, q ∈ used_of (l1 ++ x :: l2) -> q <> pair_of x -> pair_kept (mem s) (mem s1) q /\ uids (mem s1) q.1 = uids (mem s) q.1.
Proof.
  intros Hw Hf HR q Hq Hne. assert (pair_kept (mem s) (mem s1) q) as K.
  { apply (released_others own s s1 l1 x l2 bs1 Hw Hf HR). rewrite used_of_app, used_of_cons, Hf in Hq. cbn [app] in Hq.
    rewrite elem_of_app, elem_of_cons in Hq. apply elem_of_app. change (baddr x, bsize x) with (pair_of x) in Hq. tauto. }
  split; [done|]. destruct (used_pair s _ q Hw Hq) as (_ & _ & _ & _ & _ & Hsz). by apply pair_kept_word.
Qed.
(** One block more. *)
Lemma freed_more s l1 x l2 s1 bs1 L s' bs' : at_work s (l1 ++ x :: l2) -> bfree x = false -> pair_of x ∉ L -> released own s s1 l1 x l2 bs1 ->
  freed_all own s1 bs1 L s' bs' -> freed_all own s (l1 ++ x :: l2) (pair_of x :: L) s' bs'.
Proof.
  intros Hw Hf Hni HR [W P U K G]. pose proof (released_kept s s1 l1 x l2 bs1 Hw Hf HR) as Hk. pose proof (used_nodup s _ Hw) as Hnd.
  pose proof (released_self own s s1 l1 x l2 bs1 Hw HR) as Hself. destruct HR as [Hpl _ _ _ Hbs _]. cbv zeta in Hbs. assert (forall q, q ∈ used_of (l1 ++ x :: l2) -> q <> pair_of x ->
    (leaves own (mem s) (pair_of x :: L) q = false <-> leaves own (mem s1) L q = false)) as Hl.
  { intros q Hq Hne. destruct (Hk q Hq Hne) as [_ E]. unfold leaves. rewrite E. by rewrite (bool_decide_ext (q ∈ pair_of x :: L) (q ∈ L)) by (rewrite elem_of_cons; tauto). }
  assert (used_of (l1 ++ x :: l2) = used_of l1 ++ pair_of x :: used_of l2) as Eu by (by rewrite used_of_app, used_of_cons, Hf).
  assert (forall q, q ∈ used_of (l1 ++ x :: l2) -> q <> pair_of x -> q ∈ used_of bs1) as Hafter.
  { intros q Hq Hne. rewrite Hbs. destruct (sole_for _ _); [|done]. rewrite used_of_give_back. rewrite Eu, elem_of_app, elem_of_cons in Hq. rewrite elem_of_app. tauto. }
  split; [done|by destruct Hpl, P; split; congruence| | |].
  - rewrite U, Hbs. change (uids (mem s) (baddr x)) with (uids (mem s) (pair_of x).1). 
    set (gone := sole_for (own (uids (mem s) (pair_of x).1)) (uids (mem s) (pair_of x).1)) in *.
    assert (leaves own (mem s) (pair_of x :: L) (pair_of x) = gone) as Ex.
    { unfold leaves. by rewrite bool_decide_eq_true_2 by apply list_elem_of_here. }
    destruct gone eqn:Es.
    + rewrite used_of_give_back, Eu, !filter_app, filter_cons, Ex, decide_False by done. rewrite Eu in *.
      apply NoDup_app in Hnd as (_ & Hn1 & Hn2). apply NoDup_cons in Hn2 as [Hn2 _].
      f_equal; apply filter_same; intros q Hq; symmetry; apply Hl.
      * apply elem_of_app. by left.
      * intros ->. apply (Hn1 _ Hq), list_elem_of_here.
      * apply elem_of_app. right. by apply list_elem_of_further.
      * by intros ->.
    + apply filter_same. intros q Hq. destruct (decide (q = pair_of x)) as [->|Hne]; [|by symmetry; apply Hl].
      rewrite Ex. unfold leaves. by rewrite bool_decide_eq_false_2.
  - intros q Hq Hnq. apply not_elem_of_cons in Hnq as [Hne Hnq]. destruct (Hk q Hq Hne) as [Hkq _]. eapply pair_kept_trans; [exact Hkq|]. apply K; [|done].
    by apply Hafter.
  - intros q Hq HqL Hlv. destruct (used_pair s _ q Hw Hq) as (_ & _ & _ & _ & _ & Hsz). destruct (decide (q = pair_of x)) as [->|Hne].
    + eapply owner_gone_before; [done|apply Hself|].
      * revert Hlv. unfold leaves. by rewrite bool_decide_eq_true_2 by apply list_elem_of_here.
      * apply K; [|done]. rewrite Hbs. unfold leaves in Hlv. rewrite bool_decide_eq_true_2 in Hlv by apply list_elem_of_here. cbn [andb pair_of fst] in Hlv. by rewrite Hlv.
    + destruct (Hk q Hq Hne) as [Hkq _]. eapply owner_gone_after; [done|exact Hkq|].
      apply G; [by apply Hafter|by apply elem_of_cons in HqL as [?|?]|]. by apply Hl.
Qed.

Context (el : Z * Z -> gc_elm) (m : gmap Z Z) (L0 : list (Z * Z)).
Context (Hel : forall p, p ∈ L0 -> e_ptr (el p) = ptr_of p /\ e_uid (el p) = own (uids m p.1)).
Context (Hown : forall p, p ∈ L0 -> own (uids m p.1) <> 0 -> own (uids m p.1) ∈ uids m p.1).
Lemma wp_free_each (Q : unit -> tlsf -> Prop) h : h <> 0 -> forall L s bs, (forall p, p ∈ L -> p ∈ L0) -> at_work s bs -> NoDup L -> (forall p, p ∈ L -> p ∈ used_of bs) ->
  (forall p, p ∈ L -> uids (mem s) p.1 = uids m p.1) ->
  (forall s' bs', freed_all own s bs L s' bs' -> Q tt s') -> wp (free_each h (el <$> L)) never Q s.
Proof.
  intros Hh L. induction L as [|p L IH]; intros s bs HL Hw Hnd Hin Hes HQ.
  - apply wp_ret. apply (HQ s bs). split; try done; [|by intros p _ Hp%not_elem_of_nil].
    symmetry. apply filter_id. intros q Hq. unfold leaves. by rewrite bool_decide_eq_false_2 by apply not_elem_of_nil.
  - apply NoDup_cons in Hnd as [Hni Hnd].
    destruct (used_pair s bs p Hw (Hin p (list_elem_of_here _ _))) as (x & Hx & Hf & -> & _). apply list_elem_of_split in Hx as (l1 & l2 & ->).
    pose proof (Hes (pair_of x) (list_elem_of_here _ _)) as Ex. cbn [fmap list_fmap free_each]. destruct (Hel (pair_of x)) as [-> ->]; [apply HL, list_elem_of_here|]. rewrite <- Ex.
    apply wp_bind. apply (wp_release h Hh own _ s l1 x l2 Hw Hf); [cbn [pair_of fst] in Ex; rewrite Ex; apply (Hown (pair_of x)), HL, list_elem_of_here|]. intros s1 bs1 HR.
    pose proof (released_kept s s1 l1 x l2 bs1 Hw Hf HR) as Hk.
    assert (forall q, q ∈ L -> q ∈ used_of (l1 ++ x :: l2) /\ q <> pair_of x) as Hq.
    { intros q Hq. split; [by apply Hin, list_elem_of_further|by intros ->]. }
    apply (IH s1 bs1); [by intros q Hq'; apply HL, list_elem_of_further|apply HR|done| | |].
    + intros q HqL. destruct (Hq q HqL) as [Hq' Hne]. rewrite (rl_block _ _ _ _ _ _ _ HR).
      destruct (sole_for _ _); [|done]. rewrite used_of_give_back. rewrite used_of_app, used_of_cons, Hf, elem_of_app in Hq'. cbn [app] in Hq'.
      rewrite elem_of_cons in Hq'. rewrite elem_of_app. destruct Hq' as [?|[->|?]]; [tauto|done|tauto].
    + intros q HqL. destruct (Hq q HqL) as [Hq' Hne]. destruct (Hk q Hq' Hne) as [_ ->]. by apply Hes, list_elem_of_further.
    + intros s' bs' HF. apply (HQ s' bs'). by eapply freed_more.
Qed.

(** The critical section of [gc_pool_destroy]. *)
Lemma release_run s bs h : pool_ok s bs -> h <> 0 -> NoDup L0 -> (forall p, p ∈ L0 -> p ∈ used_of bs) -> (forall p, p ∈ L0 -> uids (mem s) p.1 = uids m p.1) ->
  exists s' bs', (tlsf_lock h ;; free_each h (el <$> L0) ;; tlsf_unlock h) s = Ret 0 s' /\ pool_ok s' bs' /\
    used_of bs' = filter (fun p => leaves own m L0 p = false) (used_of bs) /\ (forall p, p ∈ used_of bs -> p ∉ L0 -> pair_kept (mem s) (mem s') p) /\
    (forall p, p ∈ L0 -> leaves own m L0 p = false -> owner_gone own (mem s) (mem s') p).
Proof.
  intros Hp Hh Hnd Hin Hu.
  cut (wp (tlsf_lock h ;; free_each h (el <$> L0) ;; tlsf_unlock h) never (fun rc s' => rc = 0 /\ exists bs', pool_ok s' bs' /\
    used_of bs' = filter (fun p => leaves own m L0 p = false) (used_of bs) /\ (forall p, p ∈ used_of bs -> p ∉ L0 -> pair_kept (mem s) (mem s') p) /\
    (forall p, p ∈ L0 -> leaves own m L0 p = false -> owner_gone own (mem s) (mem s') p)) s).
  { intros H. apply wp_never in H as (rc & s' & E & -> & bs' & H). by exists s', bs'. }
  apply wp_bind, (wp_tlsf_lock _ s bs h Hh Hp). intros s1 W1 _ Em. apply wp_bind. rewrite <- Em in *.
  assert (forall p, leaves own (mem s1) L0 p = leaves own m L0 p) as El.
  { intros p. unfold leaves. destruct (decide (p ∈ L0)) as [HpL|HpL]; [by rewrite (Hu p HpL)|]. by rewrite bool_decide_eq_false_2. }
  apply (wp_free_each _ h Hh L0 s1 bs (fun p H => H) W1 Hnd Hin Hu). intros s2 bs2 [W2 _ U K G]. apply (wp_tlsf_unlock _ s2 bs2 h Hh W2).
  split; [done|]. exists bs2. split; [by apply leave_pool|]. split; [|split; [exact K|]].
  - rewrite U. apply filter_same. intros p _. by rewrite El.
  - intros p HpL Hl. apply G; [by apply Hin|done|by rewrite El].
Qed.
End own.

Section pass.
Context (k : Z) (fuel : nat) (l : list Z) (rl items : Z -> list Z) (Hk : 1 <= k <= 61).
Context (w : world) (bs : list blk).
Abbreviation m := (mem (pool w)).
Abbreviation U := (used_of bs).

(** A block goes when it is marked, has one owner, and nobody needs it. *)
Definition needed (p : Z * Z) : bool := special m p && held l rl items w (elm_of m p).
Definition collected (p : Z * Z) : bool := marked m p && sole (uids m p.1) && negb (needed p).
(** The special blocks that the pass frees. *)
Definition chosen : list (Z * Z) := filter (fun p => held l rl items w (elm_of m p) = false) (filter (fun p => gathers m p = true) U).

Lemma victims_chosen s1 : victims l rl items (set_pool s1 w) (gathered_of m U) = elm_of m <$> chosen.
Proof.
  unfold victims, gathered_of, chosen. induction (filter _ U) as [|p L IH]; [done|]. cbn [fmap list_fmap]. rewrite !filter_cons.
  change (held l rl items (set_pool s1 w) (elm_of m p)) with (held l rl items w (elm_of m p)).
  destruct (decide (held l rl items w (elm_of m p) = false)); cbn [fmap list_fmap]; by rewrite IH.
Qed.
Lemma chosen_parts p : p ∈ chosen -> p ∈ U /\ marked m p = true /\ special m p = true /\ held l rl items w (elm_of m p) = false.
Proof. intros [Hh [[? ?]%andb_true_iff ?]%list_elem_of_filter]%list_elem_of_filter. done. Qed.
Lemma remaining_used : filter (fun p => leaves first_owner m chosen p = false) (filter (fun p => frees m p = false) U) = filter (fun p => collected p = false) U.
Proof.
  rewrite list_filter_filter. apply filter_same. intros p Hp. unfold collected, needed, leaves, frees, sole.
  destruct (bool_decide_reflect (p ∈ chosen)) as [Hc|Hc].
  - apply chosen_parts in Hc as (_ & -> & -> & ->). cbn. destruct (sole_for _ (uids m p.1)); cbn; tauto.
  - assert (marked m p = true -> special m p = true -> held l rl items w (elm_of m p) = true) as Hheld.
    { intros E1 E2. destruct (held l rl items w (elm_of m p)) eqn:E; [done|]. destruct Hc. apply list_elem_of_filter. split; [done|].
      apply list_elem_of_filter. split; [unfold gathers; by rewrite E1, E2|done]. }
    destruct (marked m p), (special m p); cbn; try tauto; [rewrite Hheld by done; cbn; rewrite andb_false_r; tauto|].
    destruct (sole_for _ (uids m p.1)); cbn; intuition congruence.
Qed.

(** What a pass leaves of the segment. *)
Record pass_done (s' : tlsf) (bs' : list blk) (R : gmap Z Request.request) (P : gmap Z proc) : Prop := PassDone {
  pd_pool : pool_ok s' bs';
  pd_used : used_of bs' = filter (fun p => collected p = false) U;
  pd_kept : forall p, p ∈ U -> marked m p = false \/ needed p = true -> pair_kept m (mem s') p;
  pd_reqs : forall a, R !! a = if gone l rl items w (gathered_of m U) Shmem.SHMDT_REQUEST a then destroyed <$> reqs w !! a else reqs w !! a;
  pd_procs : forall a, P !! a = if gone l rl items w (gathered_of m U) Shmem.SHMDT_PROC a then buried <$> procs w !! a else procs w !! a }.

Context (Hseg : segment k fuel l rl items w) (Hpool : pool_ok (pool w) bs).
Context (Hroom : Z.of_nat (length (gathered_of m U)) < POOL_SIZE).
Context (Hdet : forall p, p ∈ U -> gathers m p = true -> detached l rl w (elm_of m p)).

Lemma gathered_ok s1 : Forall (gathered l rl (set_pool s1 w)) (gathered_of m U).
Proof.
  apply Forall_forall. intros e He. apply list_elem_of_fmap in He as (p & -> & Hp). apply list_elem_of_filter in Hp as [Hg Hp].
  split; [by apply Hdet|done].
Qed.
Lemma pool_destroy_done shm s1 bs1 pool0 : poolptr_of shm <> 0 -> elm pool0 = gathered_of m U -> pool_ok s1 bs1 ->
  used_of bs1 = filter (fun p => frees m p = false) U -> (forall p, p ∈ U -> untouched m p -> pair_kept m (mem s1) p) ->
  exists rc s' bs' R P, gc_pool_destroy (2 ^ k) fuel shm pool0 (set_pool s1 w) = Ret rc (set_pool s' (set_procs P (set_reqs R w))) /\ pass_done s' bs' R P.
Proof.
  intros Hshm Eelm Hp1 Hu1 Hk1. assert (segment k fuel l rl items (set_pool s1 w)) as Hseg1 by (destruct Hseg; by split).
  pose proof (gathered_ok s1) as Hgo. rewrite <- Eelm in Hgo.
  destruct (gc_pool_destroy_run k fuel l rl items Hk (set_pool s1 w) shm pool0 Hseg1 Hgo) as (R & P & E & HR & HP). cbv zeta in E.
  rewrite Eelm, victims_chosen in *. pose proof remaining_used as Hrem. rewrite <- Hu1 in Hrem.
  assert (forall p, p ∈ chosen -> p ∈ used_of bs1) as Hin.
  { intros p Hc. rewrite Hu1. apply chosen_parts in Hc as (Hp & E1 & E2 & _). apply list_elem_of_filter. split; [|done]. unfold frees. by rewrite E1, E2. }
  assert (forall p, p ∈ U -> marked m p = false \/ needed p = true -> untouched m p /\ p ∉ chosen) as Hun.
  { intros p Hp Hn. split; [|intros (_ & E1 & E2 & E3)%chosen_parts; destruct Hn as [?|[_ ?]%andb_true_iff]; congruence].
    destruct Hn as [?|[? _]%andb_true_iff]; [by left|by right]. }
  destruct chosen as [|c cs] eqn:Ec; cbn [fmap list_fmap] in E.
  - exists 0, s1, bs1, R, P. split; [exact E|]. split; try done; [|by intros p Hp Hn; apply Hk1; [done|apply Hun]].
    rewrite <- Hrem. symmetry. apply filter_id. intros p _. unfold leaves. by rewrite bool_decide_eq_false_2 by apply not_elem_of_nil.
  - rewrite <- Ec in Hin, Hrem, Hun.
    destruct (release_run first_owner (elm_of m) m chosen (fun p _ => conj eq_refl eq_refl) (fun p _ => first_owner_in _) s1 bs1 (poolptr_of shm) Hp1 Hshm) as (s2 & bs2 & E2 & Hp2 & Hu2 & Hk2 & _); [|exact Hin| |].
    + unfold chosen. apply NoDup_filter, NoDup_filter. destruct Hpool as (_ & _ & Hg & _ & F & Hh).
      pose proof (hp_tiled _ _ _ Hh) as T. apply tiled_used in T as [Hn _]; [by apply NoDup_fmap_1 in Hn|by apply start_aligned].
    + intros p Hc. apply chosen_parts in Hc as (Hp & _ & Esp & _). apply pair_kept_word; [|apply Hk1; [done|by right]].
      destruct Hpool as (_ & _ & Hg & _ & F & Hh). destruct p as [a n]. apply used_of_in in Hp as (x & Hx & _ & _ & <-).
      destruct (block_facts _ _ F Hg Hh x Hx) as ([? _] & _). cbn. lia.
    + eexists _, s2, bs2, R, P. split.
      { rewrite Ec in E2. cbn [fmap list_fmap] in E2. rewrite E.
        rewrite (RpcSpec.bind_ret _ _ 0 _ (set_pool s2 (set_procs P (set_reqs R (set_pool s1 w))))); [reflexivity|].
        unfold lift_pool. cbn [pool set_procs set_reqs set_pool]. by rewrite E2. }
      split; try done; [by rewrite Hu2|]. intros p Hp Hn. destruct (Hun p Hp Hn) as [Hut Hnc]. eapply pair_kept_trans; [by apply Hk1|]. apply Hk2; [|done].
      rewrite Hu1. apply list_elem_of_filter. split; [|done]. unfold frees. destruct Hut as [-> | ->]; [done|]. by rewrite andb_false_r.
Qed.
End pass.

(** Heap and segment as they are when the trash lists have been cleared. *)
Lemma collection_run k fuel l rl items w bs rounds shm tr : 1 <= k <= 61 -> let m := mem (pool w) in
  segment k fuel l rl items w -> pool_ok (pool w) bs -> poolptr_of shm <> 0 -> rounds <> 0%nat -> heap_size (geo (pool w)) / 128 < Z.of_nat fuel ->
  Z.of_nat (length (gathered_of m (used_of bs))) < POOL_SIZE -> (forall p, p ∈ used_of bs -> gathers m p = true -> detached l rl w (elm_of m p)) ->
  exists s' bs' R P, ('(_, pool0) ← lift_world (lift_pool (tlsf_free_uid_blocks rounds fuel (poolptr_of shm) 0 (Some (destructor_fn (poolptr_of shm))) empty_pool));
      if count pool0 =? 0 then mret tt else lift_world (gc_pool_destroy (2 ^ k) fuel shm pool0) ;; mret tt) (GWorld w tr) =
      Ret tt (GWorld (set_pool s' (set_procs P (set_reqs R w))) tr) /\ pass_done l rl items w bs s' bs' R P.
Proof.
  intros Hk m Hseg Hpool Hshm Hrounds Hfuel Hroom Hdet.
  destruct (collector_walk_run rounds fuel (pool w) bs (poolptr_of shm) empty_pool Hpool Hshm Hrounds Hfuel) as (s1 & bs1 & E & Hp1 & Hu1 & Hk1).
  destruct (sweep_room (mem (pool w)) (used_of bs) empty_pool) as (R1 & R2 & R3 & R4); [change (Gc.count empty_pool) with 0; subst m; lia|].
  cbv zeta in *. fold m in E, Hu1, Hk1, R1, R2, R3, R4. destruct (sweep m empty_pool (used_of bs)) as [[rc0 pool0] left]. cbn [fst snd] in *. change (Gc.count empty_pool) with 0 in R2. change (Gc.elm empty_pool) with (@nil gc_elm) in R3. cbn [app] in R3. rewrite R1 in E. rewrite R4 in Hu1.
  rewrite (RpcSpec.bind_ret _ _ (0, pool0) _ (GWorld (set_pool s1 w) tr)) by (unfold lift_world, lift_pool; cbn [gw]; by rewrite E). cbn match.
  rewrite R2. destruct (Z.eqb_spec (0 + Z.of_nat (length (gathered_of m (used_of bs)))) 0) as [E0|E0].
  - assert (gathered_of m (used_of bs) = []) as En by (destruct (gathered_of m (used_of bs)); [done|cbn in E0; lia]).
    exists s1, bs1, (reqs w), (procs w). split; [by destruct w|]. split; try done.
    + rewrite Hu1. apply filter_same. intros p Hp. assert (gathers m p = false) as Hg.
      { destruct (gathers m p) eqn:Hg; [|done]. assert (elm_of m p ∈ gathered_of m (used_of bs)) as Hin; [|rewrite En in Hin; by apply not_elem_of_nil in Hin].
        apply list_elem_of_fmap. exists p. split; [done|]. by apply list_elem_of_filter. }
      unfold collected, needed, frees. unfold gathers in Hg. fold m. destruct (marked m p), (special m p), (sole (uids m p.1)); done.
    + intros p Hp Hn. apply Hk1; [done|]. destruct Hn as [?|[? _]%andb_true_iff]; [by left|by right].
    + intros a. fold m. by rewrite En.
    + intros a. fold m. by rewrite En.
  - destruct (pool_destroy_done k fuel l rl items Hk w bs Hseg Hpool Hdet shm s1 bs1 pool0 Hshm R3 Hp1 Hu1 Hk1) as (rc & s' & bs' & R & P & E' & HD).
    exists s', bs', R, P. split; [|exact HD]. rewrite (RpcSpec.bind_ret _ _ rc _ (GWorld (set_pool s' (set_procs P (set_reqs R w))) tr)); [done|].
    unfold lift_world. cbn [gw]. by rewrite E'.
Qed.


(** A pool whose only block in use is a request left to the collector, in the segment of
    [demo_gc]: nobody has it, and it goes. *)
Lemma pool_marked s l1 x l2 : pool_ok s (l1 ++ x :: l2) -> bfree x = false -> pool_ok (set_mem (marked_mem x (mem s)) s) (l1 ++ x :: l2).
Proof.
  intros ((Hg & Hm & Ht & Hx & Hs) & Ha & Hpg & Hset & F & Hh) Hf. pose proof (in_split l1 l2 x) as Hin.
  destruct (block_facts s _ F Hpg Hh x Hin) as ([Hsz _] & _). destruct (block_reads s _ F Hh x Hin) as [_ Esig].
  assert (mem_ok (marked_mem x (mem s))) as Hm' by (apply mem_ok_put; [done|]; by apply dc_word_range).
  destruct (heap_inside s _ F x (marked_mem x (mem s)) Hpg Hh Hin) as [H' _]; [by rewrite (proj1 (Hset x Hin))|done| | |].
  { intros q Hqq. apply rdm_insert_ne. offs. lia. }
  { unfold marked_mem. rewrite rdm_insert_eq. by rewrite (proj2 (proj2 (set_dc_word _))). }
  split; [done|]. split; [done|]. split; [done|]. split; [done|]. by exists F.
Qed.
Definition demo_request_ptr : Z := demo_block + HEADER_SIZE.
Definition demo_left (s : tlsf) : world :=
  set_pool s (set_reqs {[ 4096 := RequestSpec.demo_request; demo_request_ptr := RequestSpec.demo_request ]} demo_gc).
Lemma segment_grown k fuel l rl items v s rq n : segment k fuel l rl items v ->
  (forall p a, p ∈ l -> a ∈ rl p -> exists r, rq !! a = Some r) -> (fuel <= n)%nat -> segment k n l rl items (set_pool s (set_reqs rq v)).
Proof.
  intros [H1 H2 H3 H4 H5 H6 H7] Hr Hn. split; try done; [lia|]. intros p Hp. destruct (H6 p Hp). split; [done|lia].
Qed.
Lemma demo_left_segment s : segment 1 20 [700] (fun _ => [4096]) (fun _ => [77]) (demo_left s).
Proof.
  apply segment_grown with (fuel := 5%nat); [exact demo_segment| |apply Nat.leb_le; reflexivity].
  intros p a _ ->%list_elem_of_singleton. by eexists.
Qed.
Lemma clear_nothing fuel w tr n : RegistrySpec.mapped w -> ListSpin.heads (lists w) !! gc_list_of (shm_ptr (loc w)) = Some (ListSpin.LHead NULL n) ->
  libsrpc_shm_trash_clear_list fuel (GWorld w tr) = Ret 0 (GWorld w tr).
Proof.
  intros Hm E. unfold libsrpc_shm_trash_clear_list.
  rewrite (RpcSpec.bind_ret _ _ (shm_ptr (loc w)) _ (GWorld w tr)) by (unfold lift_world; cbn [gw]; by rewrite RegistrySpec.shmem_get_run).
  rewrite (proj2 (Z.eqb_neq _ NULL)) by apply Hm.
  rewrite (RpcSpec.bind_ret _ _ (ListSpin.LHead NULL n) _ (GWorld w tr)).
  - by destruct fuel.
  - unfold lift_world, lift_list, ListSpin.get_head. cbn [gw]. rewrite E. by destruct w.
Qed.
Lemma clear_nothing_same fuel v s rq tr n : RegistrySpec.mapped v -> ListSpin.heads (lists v) !! gc_list_of (shm_ptr (loc v)) = Some (ListSpin.LHead NULL n) ->
  libsrpc_shm_trash_clear_list fuel (GWorld (set_pool s (set_reqs rq v)) tr) = Ret 0 (GWorld (set_pool s (set_reqs rq v)) tr).
Proof. apply (clear_nothing fuel (set_pool s (set_reqs rq v))). Qed.
