(* ===== verification/Deferred.v ===== *)
(** What becomes of the memory of a process that is gone while it holds locks
    ([libsrpc_proc.c], [libsrpc_shm_gc.c]): the heap walk lists its blocks instead of
    freeing them, and the collector frees the listed ones once the locks are released. *)
From S2P Require Import Prelude Machine TlsfTypes TlsfBul TlsfHeap TlsfAlloc TlsfApi TlsfFacts TlsfHoare TlsfOwners TlsfOwnership TlsfSpec TlsfLists TlsfTiling TlsfBlocks TlsfMalloc TlsfFree TlsfPool TlsfWalk ProcMemory World Trash Gc GcSpec Collection CollectionSpec.
From S2P Require Errno Request RequestSpec Shmem Proc RpcSpec Rpc RpcCall ListSpin RegistrySpec.

(** ** The blocks seen so far *)

Definition plain_type (t : Z) : Prop := ~ special_type t.
#[export] Instance plain_type_dec t : Decision (plain_type t).
Proof. unfold plain_type. apply _. Defined.
(** The plain memory of [uid]. *)
Abbreviation plain_of uid := (typed uid plain_type).

Lemma used_snoc l x : bfree x = false -> used_of (l ++ [x]) = used_of l ++ [pair_of x].
Proof. intros Hf. by rewrite used_of_app, used_of_cons, Hf. Qed.
Lemma typed_snoc uid T `{!forall t, Decision (T t)} m l x : bfree x = false ->
  typed uid T m (l ++ [x]) = typed uid T m l ++ if decide (owned_of uid T m (pair_of x)) then [pair_of x] else [].
Proof. intros Hf. unfold typed. by rewrite used_snoc, filter_app, filter_cons, filter_nil. Qed.
Lemma orphans_snoc uid m l x : bfree x = false ->
  orphans uid m (l ++ [x]) = orphans uid m l ++ if decide (owned_of uid request_type m (pair_of x) /\ unmarked m (pair_of x)) then [pair_of x] else [].
Proof.
  intros Hf. unfold orphans. rewrite typed_snoc, filter_app by done. f_equal. destruct (decide (owned_of _ _ _ _)).
  - rewrite filter_cons, filter_nil. destruct (decide (unmarked _ _)); [by rewrite decide_True|by rewrite decide_False by (by intros [_ ?])].
  - by rewrite decide_False by (by intros [? _]).
Qed.
Lemma passed_snoc uid m l x : bfree x = true \/ uid ∉ uids m (baddr x) ->
  orphans uid m (l ++ [x]) = orphans uid m l /\ plain_of uid m (l ++ [x]) = plain_of uid m l.
Proof.
  intros Hp. destruct (bfree x) eqn:Hf.
  - unfold orphans, typed. rewrite used_of_app, used_of_cons, Hf. cbn. by rewrite !app_nil_r.
  - rewrite orphans_snoc, typed_snoc by done. assert (forall T, ~ owned_of uid T m (pair_of x)) as H by (intros T [? _]; by destruct Hp).
    rewrite !decide_False by (by intros H'; apply (H request_type), H' || apply (H plain_type)). by rewrite !app_nil_r.
Qed.
Lemma seen_apart s l1 x l2 : at_work s (l1 ++ x :: l2) -> bfree x = false -> pair_of x ∉ used_of l1.
Proof.
  intros Hw Hf Hin. pose proof (used_nodup s _ Hw) as Hn. rewrite used_of_app, used_of_cons, Hf in Hn.
  apply NoDup_app in Hn as (_ & Hn & _). apply (Hn _ Hin), list_elem_of_here.
Qed.
Lemma orphans_sub uid m l p : p ∈ orphans uid m l -> p ∈ used_of l.
Proof. intros [_ Hp]%list_elem_of_filter. by eapply typed_sub. Qed.

(** Marking one block. *)
Lemma marked_pairs s l1 x l2 : at_work s (l1 ++ x :: l2) -> bfree x = false -> let m := mem s in let m' := marked_mem x m in
  word_of m' (pair_of x) = Z.lor (word_of m (pair_of x)) SIG_DC_DC_BIT /\
  forall p, p ∈ used_of (l1 ++ x :: l2) -> uids m' p.1 = uids m p.1 /\ (p <> pair_of x -> word_of m' p = word_of m p) /\
    forall o, HEADER_SIZE <= o < p.2 -> rdm m' (p.1 + o) = rdm m (p.1 + o).
Proof.
  intros Hw Hf m m'. split; [apply rdm_insert_eq|]. pose proof (mark_left (fun _ => True) s l1 x l2 Hw Hf I) as HL. intros p Hp.
  destruct (decide (p = pair_of x)) as [->|Hne]; [split; [exact (li_uids _ _ _ _ _ _ HL)|]; split; [done|exact (li_payload _ _ _ _ _ _ HL)]|].
  assert (pair_kept m m' p) as K.
  { destruct (used_pair s _ p Hw Hp) as (y & Hy & Hfy & -> & _). apply (li_kept _ _ _ _ _ _ HL). apply (others_in_use s l1 x l2 y Hw Hy Hfy).
    intros E. apply Hne. by eapply used_apart; [done|done|apply pair_in|]. }
  destruct (used_pair s _ p Hw Hp) as (_ & _ & _ & _ & _ & Hsz). destruct (pair_kept_word m m' p Hsz K) as [Ew Eu].
  split; [done|]. split; [done|]. intros o Ho. by apply pair_kept_payload.
Qed.

(** ** The destructor with a list *)

Section listing.
Context (realloc : trash_store -> Z -> Z -> Z) (garbage : Z -> nat -> list Z) (h uid : Z) (unused_addr : Z -> Prop).
Context (bs : list blk) (m0 : gmap Z Z) (u0 : Proc.duser) (t0 : trash).
Abbreviation ts0 := (Proc.d_trashes u0).
Abbreviation a0 := (Proc.d_trash u0).
Hypothesis Hh : h <> 0.
Hypothesis Hknown : forall p, p ∈ requests_of uid m0 bs -> is_Some (Proc.d_reqs u0 !! ptr_of p).
Hypothesis Hmany : Z.of_nat (length bs) < 2 ^ 29.
Hypothesis Hgarbage : forall b n, length (garbage b n) = n.
(** [realloc] finds memory: where it was or where no list is. *)
Hypothesis Hrealloc : forall ts a n, a <> NULL -> realloc ts a n <> NULL /\ (realloc ts a n = a \/ (ts !! realloc ts a n = None /\ unused_addr (realloc ts a n))).

(** What holds of the list, of the requests and of the heap when [l1] has been seen. *)
Record list_so_far (l1 : list blk) (a : Z) (t : trash) : Prop := ListSoFar {
  lf_ok : trash_ok t;
  lf_room : 4 <= t_num t < 2 ^ 30;
  lf_uid : t_uid t = t_uid t0;
  lf_ptrs : ptrs_of t = ptr_of <$> plain_of uid m0 l1;
  lf_addr : a <> NULL /\ (a = a0 \/ (ts0 !! a = None /\ unused_addr a)) }.
Record listed (l1 l2 : list blk) (m : gmap Z Z) (u : Proc.duser) : Prop := Listed {
  ls_blocks : l1 ++ l2 = bs;
  ls_word : forall p, p ∈ used_of bs -> word_of m p = if decide (p ∈ orphans uid m0 l1) then Z.lor (word_of m0 p) SIG_DC_DC_BIT else word_of m0 p;
  ls_uids : forall p, p ∈ used_of bs -> uids m p.1 = uids m0 p.1;
  ls_payload : forall p o, p ∈ used_of bs -> HEADER_SIZE <= o < p.2 -> rdm m (p.1 + o) = rdm m0 (p.1 + o);
  ls_count : Proc.dc_count u = Z.of_nat (length (orphans uid m0 l1));
  ls_reqs : forall q, Proc.d_reqs u !! q = if decide (q ∈ ptr_of <$> orphans uid m0 l1) then destroyed_request <$> Proc.d_reqs u0 !! q else Proc.d_reqs u0 !! q;
  ls_list : exists t, Proc.d_trashes u = <[Proc.d_trash u := t]> (delete a0 ts0) /\ list_so_far l1 (Proc.d_trash u) t }.

Lemma listed_starts : ts0 !! a0 = Some t0 -> a0 <> NULL -> trash_ok t0 -> 4 <= t_num t0 < 2 ^ 30 -> t_cnt t0 = 0 -> Proc.dc_count u0 = 0 -> listed [] bs m0 u0.
Proof.
  intros Et Ha Hok Hn Hc Hd. assert (orphans uid m0 [] = []) as Eo by done. split; rewrite ?Eo; try done.
  exists t0. split; [by rewrite insert_delete_eq, insert_id|]. split; try done; [|by split; [|left]].
  unfold ptrs_of. by rewrite Hc.
Qed.
Lemma listed_passes : passes_by uid listed.
Proof.
  intros l1 x l2 m u [H1 H2 H3 H4 H5 H6 (t & H7 & [? ? ? H8 ?])] Hp. destruct (passed_snoc uid m0 l1 x) as [Eo Ep].
  { destruct (bfree x) eqn:Hf; [by left|right]. destruct Hp as [?|Hp]; [done|]. pose proof (H3 (pair_of x)) as E. rewrite <- H1 in E. specialize (E ltac:(by apply pair_in)). change (baddr x) with (pair_of x).1. by rewrite <- E. }
  split; rewrite ?Eo; try done; [by rewrite <- app_assoc|]. exists t. split; [done|]. split; try done. by rewrite Ep.
Qed.

Section step.
Context (s : tlsf) (l1 : list blk) (x : blk) (l2 : list blk) (u : Proc.duser).
Context (Hw : at_work s (l1 ++ x :: l2)) (HJ : listed l1 (x :: l2) (mem s) u) (Hf : bfree x = false) (Hin : uid ∈ uids (mem s) (baddr x)).
Abbreviation px := (pair_of x).

Lemma here_used : px ∈ used_of bs.
Proof. rewrite <- (ls_blocks _ _ _ _ HJ). by apply pair_in. Qed.
Lemma here_new : px ∉ orphans uid m0 l1.
Proof. intros H%orphans_sub. by apply (seen_apart s l1 x l2). Qed.
Lemma here_word : word_of m0 px = word_of (mem s) px.
Proof. rewrite (ls_word _ _ _ _ HJ _ here_used), decide_False; [done|apply here_new]. Qed.
Lemma here_owned T : owned_of uid T m0 px <-> T (sig_type (word_of (mem s) px)).
Proof. unfold owned_of. rewrite <- (ls_uids _ _ _ _ HJ _ here_used), here_word. cbn [pair_of fst]. tauto. Qed.
Lemma blocks_on : (l1 ++ [x]) ++ l2 = bs.
Proof. rewrite <- (ls_blocks _ _ _ _ HJ). by rewrite <- app_assoc. Qed.

(** A block that is left as it is. *)
Lemma listed_skip : special_type (sig_type (word_of (mem s) px)) -> ~ (request_type (sig_type (word_of (mem s) px)) /\ unmarked (mem s) px) ->
  listed (l1 ++ [x]) l2 (mem s) u.
Proof.
  intros Hsp Hn. assert (orphans uid m0 (l1 ++ [x]) = orphans uid m0 l1) as Eo.
  { rewrite orphans_snoc, decide_False; [by rewrite app_nil_r| |done]. rewrite here_owned. unfold unmarked in *. by rewrite here_word. }
  assert (plain_of uid m0 (l1 ++ [x]) = plain_of uid m0 l1) as Ep.
  { rewrite typed_snoc, decide_False; [by rewrite app_nil_r| |done]. rewrite here_owned. by intros H. }
  destruct HJ as [H1 H2 H3 H4 H5 H6 (t & H7 & [? ? ? H8 ?])]. split; rewrite ?Eo; try done; [apply blocks_on|].
  exists t. split; [done|]. split; try done. by rewrite Ep.
Qed.
(** A request is destroyed and marked. *)
Lemma listed_mark : request_type (sig_type (word_of (mem s) px)) -> unmarked (mem s) px ->
  exists r, Proc.d_reqs u !! (baddr x + HEADER_SIZE) = Some r /\
    listed (l1 ++ [x]) l2 (marked_mem x (mem s)) (Proc.DUser (<[baddr x + HEADER_SIZE := destroyed_request r]> (Proc.d_reqs u)) (Proc.d_trashes u) (u64 (Proc.dc_count u + 1)) (Proc.d_trash u)).
Proof.
  intros Hr Hum. set (q := baddr x + HEADER_SIZE). pose proof here_new as Hnew. pose proof here_used as Hused.
  assert (orphans uid m0 (l1 ++ [x]) = orphans uid m0 l1 ++ [px]) as Eo.
  { rewrite orphans_snoc, decide_True; [done|split|done]. { by apply here_owned. } unfold unmarked. by rewrite here_word. }
  assert (plain_of uid m0 (l1 ++ [x]) = plain_of uid m0 l1) as Ep.
  { rewrite typed_snoc, decide_False; [by rewrite app_nil_r| |done]. rewrite here_owned. intros H. apply H. by do 2 right. }
  destruct (marked_pairs s l1 x l2 Hw Hf) as [Ew Ho]. rewrite (ls_blocks _ _ _ _ HJ) in Ho. pose proof blocks_on as Eb.
  assert (q ∉ ptr_of <$> orphans uid m0 l1) as Hq.
  { intros Hqd. apply list_elem_of_fmap in Hqd as (p & E & Hp). apply Hnew. assert (p = px) as ->; [|done]. apply orphans_sub in Hp.
    eapply used_apart; [exact Hw| |by apply pair_in|unfold ptr_of, q in E; cbn [pair_of fst]; lia]. rewrite used_of_app. apply elem_of_app. by left. }
  destruct (Hknown px) as [r Er]. { apply list_elem_of_filter. split; [by apply here_owned|done]. }
  destruct HJ as [H1 H2 H3 H4 H5 H6 (t & H7 & [L1 L2 L3 L4 L5])]. exists r. split; [rewrite H6, decide_False by done; exact Er|].
  split; cbn [Proc.dc_count Proc.d_reqs Proc.d_trashes Proc.d_trash]; rewrite ?Eo; [done|..].
  - intros p Hp. destruct (decide (p = px)) as [->|Hne].
    + rewrite Ew, H2, decide_False, decide_True by (done || apply elem_of_app; right; apply list_elem_of_here). done.
    + destruct (Ho p Hp) as (_ & -> & _); [|done]. rewrite H2 by done. apply decide_ext. rewrite elem_of_app, list_elem_of_singleton. tauto.
  - intros p Hp. destruct (Ho p Hp) as (-> & _ & _). by apply H3.
  - intros p o Hp Hoo. destruct (Ho p Hp) as (_ & _ & ->); [|done]. by apply H4.
  - rewrite H5, length_app. cbn [length]. assert (length (orphans uid m0 l1) <= length bs)%nat.
    { rewrite <- H1, length_app. unfold orphans, typed, used_of. repeat (etrans; [apply length_filter|]). rewrite length_fmap. etrans; [apply length_filter|]. lia. }
    rewrite u64_small by lia. lia.
  - intros q'. rewrite fmap_app, lookup_insert. destruct (decide (q = q')) as [<-|Hne].
    + rewrite decide_True by (apply elem_of_app; right; apply list_elem_of_here). by change q with (ptr_of px); rewrite Er.
    + rewrite H6. apply decide_ext. rewrite elem_of_app. cbn [fmap list_fmap]. rewrite list_elem_of_singleton. split; [tauto|]. intros [?|E]; [done|]. by destruct Hne.
  - exists t. split; [done|]. split; try done. by rewrite Ep.
Qed.

(** Plain memory is added to the list. *)
Lemma seen_few : Z.of_nat (length (plain_of uid m0 l1)) < 2 ^ 29.
Proof.
  assert (length (plain_of uid m0 l1) <= length bs)%nat; [|lia]. rewrite <- (ls_blocks _ _ _ _ HJ), length_app.
  unfold typed, used_of. etrans; [apply length_filter|]. rewrite length_fmap. etrans; [apply length_filter|]. lia.
Qed.
Lemma list_grows a t t' b : list_so_far l1 a t -> trash_ok t' -> t_uid t' = t_uid t -> ptrs_of t' = ptrs_of t ++ [baddr x + HEADER_SIZE] ->
  4 <= t_num t' < 2 ^ 30 -> plain_type (sig_type (word_of (mem s) px)) -> b <> NULL -> b = a0 \/ (ts0 !! b = None /\ unused_addr b) -> list_so_far (l1 ++ [x]) b t'.
Proof.
  intros [L1 L2 L3 L4 L5] Hok Eu Ep Hn Hpl Hb1 Hb2. split; try done; [congruence|].
  rewrite typed_snoc, decide_True, fmap_app by (done || by apply here_owned). by rewrite Ep, L4.
Qed.
Lemma listed_plain : plain_type (sig_type (word_of (mem s) px)) ->
  exists b ts, libsrpc_shm_trash_add_ptr realloc garbage (Proc.d_trashes u) (Proc.d_trash u) (baddr x + HEADER_SIZE) = Some (0, b, ts) /\
    listed (l1 ++ [x]) l2 (mem s) (Proc.DUser (Proc.d_reqs u) ts (Proc.dc_count u) b).
Proof.
  intros Hpl. assert (orphans uid m0 (l1 ++ [x]) = orphans uid m0 l1) as Eo.
  { rewrite orphans_snoc, decide_False; [by rewrite app_nil_r| |done]. rewrite here_owned. intros [H _]. apply Hpl. by do 2 right. }
  pose proof (walk_position s l1 x l2 Hw) as (_ & _ & _ & Hpos & _). pose proof blocks_on as Eb. pose proof seen_few as Hfew.
  pose proof (fun a t t' b => list_grows a t t' b) as Hgrow. destruct HJ as [H1 H2 H3 H4 H5 H6 (t & H7 & HL)].
  destruct u as [rq ts dc a]. cbn [Proc.d_trashes Proc.d_trash Proc.d_reqs Proc.dc_count] in *. pose proof HL as [L1 L2 L3 L4 [L5 L6]].
  assert (forall b t', b <> NULL -> b = a0 \/ (ts0 !! b = None /\ unused_addr b) -> trash_ok t' -> t_uid t' = t_uid t -> ptrs_of t' = ptrs_of t ++ [baddr x + HEADER_SIZE] -> 4 <= t_num t' < 2 ^ 30 ->
    listed (l1 ++ [x]) l2 (mem s) (Proc.DUser rq (<[b := t']> (delete a0 ts0)) dc b)) as Hdone.
  { intros. split; cbn [Proc.d_trashes Proc.d_trash Proc.d_reqs Proc.dc_count]; rewrite ?Eo; try done. exists t'. split; [done|]. by eapply Hgrow. }
  assert (ts !! a = Some t) as Et by (rewrite H7; apply lookup_insert_eq).
  pose proof (trash_add_ptr_spec realloc garbage ts a (baddr x + HEADER_SIZE) t Et L1 L2 L5 ltac:(unfold HEADER_SIZE; lia) Hgarbage) as Hadd. cbv zeta in Hadd.
  destruct (Hrealloc ts a (trash_bytes (t_num t + t_num t / 4)) L5) as [Hb0 Hb]. rewrite (proj2 (Z.eqb_neq _ NULL)) in Hadd by done.
  destruct (Z.ltb_spec (t_cnt t) (t_num t)) as [Hroom|Hfull].
  - destruct Hadd as (t' & -> & (Hok & Ep & Eu) & En). exists a, (<[a := t']> (delete a0 ts0)). rewrite H7, insert_insert_eq. split; [done|].
    apply Hdone; try done. by rewrite En.
  - destruct Hadd as (t' & -> & (Hok & Ep & Eu) & En). set (b := realloc ts a _) in *. exists b, (<[b := t']> (delete a0 ts0)). split.
    + rewrite H7, delete_insert_eq. destruct L6 as [-> | [L6 _]]; [by rewrite delete_delete_eq|].
      rewrite (delete_id (delete a0 ts0)); [done|]. by rewrite lookup_delete_None; right.
    + pose proof (ptrs_of_length t L1) as El. rewrite L4, length_fmap in El. pose proof L1 as [Hc Hn _].
      assert (t_num t / 4 <= 2 ^ 27) by (apply Z.div_le_upper_bound; lia). assert (0 <= t_num t / 4) by (apply Z.div_pos; lia).
      apply Hdone; try done; [|lia]. destruct Hb as [-> | [Hb Hun]]; [done|]. rewrite H7, lookup_insert_None, lookup_delete_None in Hb. destruct Hb as [[?|?] _]; [by left|by right].
Qed.
End step.

Lemma destructor_looks : looks (Proc.destructor_fn realloc garbage h) uid listed.
Proof.
  intros s l1 x l2 u Hw HJ Hf Hin. pose proof (live_block s _ x Hw (in_split l1 l2 x) Hf) as Hl. pose proof (proj1 (aw_geo _ _ Hw)) as Hg.
  pose proof (proj1 (proj2 Hl)) as Hpos. unfold Proc.destructor_fn.
  rewrite !(proj2 (Z.eqb_neq _ _)) by (done || unfold HEADER_SIZE; lia). cbn [orb].
  apply wp_bind. eapply wp_mono; [apply wp_tlsf_get_data_type; done|done|]. intros ty s1 [-> ->].
  apply wp_bind. eapply wp_mono; [apply wp_tlsf_getdc; done|done|]. intros dc s1 [-> ->].
  unfold rd. change (rdm (mem s) (baddr x + OFF_sig_dc)) with (word_of (mem s) (pair_of x)).
  pose proof (listed_skip s l1 x l2 u Hw HJ Hf Hin) as Hskip. pose proof (listed_mark s l1 x l2 u Hw HJ Hf Hin) as Hmark.
  pose proof (listed_plain s l1 x l2 u Hw HJ Hf Hin) as Hplain. unfold unmarked in Hskip, Hmark. set (ty := sig_type _) in *.
  destruct (Z.eqb_spec ty Shmem.SHMDT_REGFN) as [E|Er]; [|destruct (Z.eqb_spec ty Shmem.SHMDT_PROC) as [E|Ep]]; cbn [orb].
  1,2: apply wp_ret; do 3 (split; [done|]); apply Hskip; [unfold special_type; tauto|]; intros [Hr _]; unfold request_type in Hr; by rewrite E in Hr.
  destruct (Z.eqb_spec ty Shmem.SHMDT_REQUEST) as [E|Eq].
  - destruct (sig_dc_flag (word_of (mem s) (pair_of x))) eqn:Ef.
    { apply wp_ret. do 3 (split; [done|]). apply Hskip; [unfold special_type; tauto|]. by intros [_ ?]. }
    destruct Hmark as (r & Hr & HJ'); [done|done|]. cbn [Z.eqb]. rewrite Hr.
    apply wp_bind, (wp_mark _ s l1 x l2); [done|done|done|]. apply wp_ret. do 2 (split; [done|]). split; [|exact HJ'].
    by apply (li_work _ _ _ _ _ _ (mark_left (fun _ => True) s l1 x l2 Hw Hf I)).
  - destruct Hplain as (b & ts & Hadd & HJ'); [unfold plain_type, special_type; tauto|].
    pose proof HJ as [_ _ _ _ _ _ (t & _ & [_ _ _ _ [Ha _]])]. rewrite (proj2 (Z.eqb_neq (Proc.d_trash u) NULL)) by done. cbn [negb]. rewrite Hadd.
    apply wp_ret. do 3 (split; [done|]). exact HJ'.
Qed.
End listing.

(** What the walk does to the heap: the orphans get the mark of deferred cleaning, all
    blocks keep their owners and contents. *)
Record only_marked (uid : Z) (s : tlsf) (bs : list blk) (s' : tlsf) : Prop := OnlyMarked {
  om_word : forall p, p ∈ used_of bs ->
    word_of (mem s') p = if decide (p ∈ orphans uid (mem s) bs) then Z.lor (word_of (mem s) p) SIG_DC_DC_BIT else word_of (mem s) p;
  om_uids : forall p, p ∈ used_of bs -> uids (mem s') p.1 = uids (mem s) p.1;
  om_payload : forall p o, p ∈ used_of bs -> HEADER_SIZE <= o < p.2 -> rdm (mem s') (p.1 + o) = rdm (mem s) (p.1 + o) }.
(** The requests that are destroyed on the way. *)
Definition orphans_destroyed (uid : Z) (s : tlsf) (bs : list blk) (R R' : gmap Z Request.request) : Prop :=
  forall q, R' !! q = if decide (q ∈ ptr_of <$> orphans uid (mem s) bs) then destroyed_request <$> R !! q else R !! q.

Section run.
Context (realloc : trash_store -> Z -> Z -> Z) (garbage : Z -> nat -> list Z) (unused_addr : Z -> Prop).
Hypothesis Hgarbage : forall b n, length (garbage b n) = n.
Hypothesis Hrealloc : forall ts a n, a <> NULL -> realloc ts a n <> NULL /\ (realloc ts a n = a \/ (ts !! realloc ts a n = None /\ unused_addr (realloc ts a n))).

Lemma listing_walk_run fuel rounds h uid a t w tr bs : let s := pool w in
  pool_ok s bs -> h <> 0 -> uid <> 0 -> heap_size (geo s) / 128 < Z.of_nat fuel -> rounds <> 0%nat -> heap_size (geo s) < 2 ^ 36 ->
  (forall p, p ∈ requests_of uid (mem s) bs -> is_Some (reqs w !! ptr_of p)) ->
  tr !! a = Some t -> a <> NULL -> trash_ok t -> 4 <= t_num t < 2 ^ 30 -> t_cnt t = 0 ->
  exists s' R b t', Proc.free_uid_blocks fuel realloc garbage rounds h uid a (GWorld w tr) =
      Ret (0, (Z.of_nat (length (orphans uid (mem s) bs)), b)) (GWorld (set_pool s' (set_reqs R (Proc.moved_node a b w))) (<[b := t']> (delete a tr))) /\
    pool_ok s' bs /\ only_marked uid s bs s' /\ orphans_destroyed uid s bs (reqs w) R /\
    t_uid t' = t_uid t /\ ptrs_of t' = ptr_of <$> plain_of uid (mem s) bs /\ trash_ok t' /\ b <> NULL /\ (b = a \/ (tr !! b = None /\ unused_addr b)).
Proof.
  intros s Hp Hh Hu Hfuel Hrounds Hsize Hknown Et Ha Hok Hn Hc. set (u0 := Proc.DUser (reqs w) tr 0 a).
  assert (Z.of_nat (length bs) < 2 ^ 29) as Hmany.
  { destruct Hp as (_ & _ & Hg & _ & F & Hheap). pose proof (hp_tiled _ _ _ Hheap) as T. pose proof (tiled_end _ _ _ _ _ T) as E.
    pose proof (tiled_sizes _ _ _ _ _ T). lia. }
  destruct (free_uid_blocks_once (Proc.destructor_fn realloc garbage h) uid (listed uid unused_addr bs (mem s) u0 t) Hu) with (rounds := rounds) (fuel := fuel) (s := s) (bs := bs) (h := h) (u := u0)
    as (s' & u' & E & Hp' & [_ J2 J3 J4 J5 J6 (t' & J7 & [L1 L2 L3 L4 [L5 L6]])]); try done.
  - by apply destructor_looks.
  - apply listed_passes.
  - by apply listed_starts.
  - exists s', (Proc.d_reqs u'), (Proc.d_trash u'), t'. split; [|by split_and!].
    unfold Proc.free_uid_blocks. cbn [gw trashes]. fold s. fold u0. rewrite E, J5, J7. reflexivity.
Qed.
End run.

(** ** The node of the list *)

Lemma world_run {A} (m : WM A) w tr a w' : m w = Ret a w' -> lift_world m (GWorld w tr) = Ret a (GWorld w' tr).
Proof. intros E. unfold lift_world. cbn [gw trashes]. by rewrite E. Qed.
Lemma list_run {A} (m : M ListSpin.list_store A) w tr a s : m (lists w) = Ret a s -> lift_world (lift_list m) (GWorld w tr) = Ret a (GWorld (set_lists s w) tr).
Proof. intros E. apply world_run. unfold lift_list. by rewrite E. Qed.
Lemma list_read_run {A} (m : M ListSpin.list_store A) w tr a : m (lists w) = Ret a (lists w) -> lift_world (lift_list m) (GWorld w tr) = Ret a (GWorld w tr).
Proof. intros E. rewrite (list_run m w tr a (lists w) E). by destruct w. Qed.
Lemma shm_run {A} (f : Z -> GM A) w tr : RegistrySpec.mapped w -> (shm ← lift_world libsrpc_shmem_get; f shm) (GWorld w tr) = f (shm_ptr (loc w)) (GWorld w tr).
Proof. intros Hm. rewrite (RpcSpec.bind_ret _ _ (shm_ptr (loc w)) _ (GWorld w tr)); [done|]. by apply world_run, RegistrySpec.shmem_get_run. Qed.

(** Nodes that are on no list do not count. *)
Lemma chain_ext ns ns' h : (forall n nx, ns !! n = Some (ListSpin.Node nx h) -> ns' !! n = Some (ListSpin.Node nx h)) ->
  forall l cur, ListSpin.chain ns h cur l -> ListSpin.chain ns' h cur l.
Proof.
  intros H. induction l as [|n l IH]; intros cur Hc; [done|]. destruct Hc as (-> & Hn & nx & E & Hc).
  split; [done|]. split; [done|]. exists nx. split; [by apply H|by apply IH].
Qed.
Lemma lists_ok_ext s s' ls : ListSpin.heads s' = ListSpin.heads s ->
  (forall n nx h, h <> NULL -> ListSpin.nodes s' !! n = Some (ListSpin.Node nx h) <-> ListSpin.nodes s !! n = Some (ListSpin.Node nx h)) ->
  ListSpin.lists_ok s ls -> ListSpin.lists_ok s' ls.
Proof.
  intros Eh Hn Hok h l El. destruct (Hok h l El) as [Hh [H1 H2 H3 H4]]. split; [done|]. split; [by rewrite Eh| |done|].
  - eapply chain_ext; [|exact H2]. intros n nx. by apply Hn.
  - intros n [nx h'] E Eh'. cbn in Eh'. subst h'. by eapply (H4 n); [apply Hn|].
Qed.
Lemma lists_ok_free s ls n : (forall x, ListSpin.nodes s !! n = Some x -> ListSpin.node_head x = NULL) -> ListSpin.lists_ok s ls ->
  ListSpin.lists_ok (ListSpin.LStore (<[n := ListSpin.Node NULL NULL]> (ListSpin.nodes s)) (ListSpin.heads s)) ls /\
  ListSpin.lists_ok (ListSpin.LStore (delete n (ListSpin.nodes s)) (ListSpin.heads s)) ls.
Proof.
  intros Hfree Hok. split; (eapply lists_ok_ext; [| |exact Hok]; [done|]); intros n' nx h Hh; cbn.
  - rewrite lookup_insert. destruct (decide (n = n')) as [<-|]; [|done]. split; intros E; [congruence|]. apply Hfree in E. done.
  - rewrite lookup_delete. destruct (decide (n = n')) as [<-|]; [|done]. split; intros E; [done|]. apply Hfree in E. done.
Qed.

(** The node moves with the list. *)
Definition moved_lists (a b : Z) (s : ListSpin.list_store) : ListSpin.list_store :=
  match ListSpin.nodes s !! a with
  | Some x => if a =? b then s else ListSpin.LStore (<[b := x]> (delete a (ListSpin.nodes s))) (ListSpin.heads s)
  | None => s
  end.
Lemma moved_node_lists a b w : Proc.moved_node a b w = set_lists (moved_lists a b (lists w)) w.
Proof. unfold Proc.moved_node, moved_lists, node_of. destruct w. cbn. case_match; [|done]. by destruct (a =? b). Qed.
Lemma moved_lists_ok s ls a b : ListSpin.lists_ok s ls -> ListSpin.nodes s !! a = Some (ListSpin.Node NULL NULL) -> b = a \/ ListSpin.nodes s !! b = None ->
  ListSpin.lists_ok (moved_lists a b s) ls /\ ListSpin.nodes (moved_lists a b s) !! b = Some (ListSpin.Node NULL NULL).
Proof.
  intros Hok Ea Hb. unfold moved_lists. rewrite Ea. destruct (Z.eqb_spec a b) as [<-|Hne]; [done|]. destruct Hb as [?|Hb]; [congruence|].
  split; [|apply lookup_insert_eq]. destruct (lists_ok_free s ls a) as [_ Hd]; [by rewrite Ea; intros ? [= <-]|done|].
  apply (lists_ok_free _ ls b) in Hd as [Hi _]; [exact Hi|]. cbn. intros x. by rewrite lookup_delete_ne, Hb.
Qed.

(** [libsrpc_shm_trash_add_node]. *)
Lemma add_node_run w tr ls b T : RegistrySpec.mapped w -> b <> NULL -> ListSpin.lists_ok (lists w) ls -> ls !! gc_list_of (shm_ptr (loc w)) = Some T ->
  ListSpin.nodes (lists w) !! b = Some (ListSpin.Node NULL NULL) ->
  exists L', libsrpc_shm_trash_add_node b (GWorld w tr) = Ret 0 (GWorld (set_lists L' w) tr) /\ ListSpin.lists_ok L' (<[gc_list_of (shm_ptr (loc w)) := b :: T]> ls).
Proof.
  intros Hm Hb Hok El En. destruct (ListSpin.push_front_ok (lists w) ls _ T b _ Hok El Hb En) as (rc & L' & E & Erc & Hok').
  exists L'. split; [|exact Hok']. unfold libsrpc_shm_trash_add_node. rewrite shm_run by done.
  rewrite (proj2 (Z.eqb_neq b NULL)), (proj2 (Z.eqb_neq _ NULL)) by (done || apply Hm). cbn [orb].
  rewrite (RpcSpec.bind_ret _ _ rc _ (GWorld (set_lists L' w) tr)) by (by apply list_run). by rewrite Erc.
Qed.
Lemma wake_run w tr n : RegistrySpec.mapped w -> lift_world (Proc.wake_if n) (GWorld w tr) = Ret tt (GWorld (set_gc_sem (gc_sem w + (if 0 <? n then 1 else 0)) w) tr).
Proof.
  intros Hm. apply world_run. unfold Proc.wake_if. destruct (0 <? n).
  - rewrite (RpcSpec.bind_ret _ _ 0 _ (set_gc_sem (gc_sem w + 1) w)); [done|]. unfold RpcCall.libsrpc_shm_gc_wakeup.
    rewrite with_shm by done. by rewrite (proj2 (Z.eqb_neq _ NULL)) by apply Hm.
  - rewrite Z.add_0_r. by destruct w.
Qed.

(** ** The release of a process that holds locks *)

Section release.
Context (malloc : trash_store -> Z -> Z) (realloc : trash_store -> Z -> Z -> Z) (garbage : Z -> nat -> list Z) (w : world) (tr : trash_store).
Abbreviation unused_addr := (fun b => ListSpin.nodes (lists w) !! b = None).
(** There is memory: [malloc] and [realloc] answer a block, and a fresh one is nobody's. *)
Hypothesis Hmalloc : forall n, malloc tr n <> NULL /\ tr !! malloc tr n = None /\ unused_addr (malloc tr n).
Hypothesis Hrealloc : forall ts a n, a <> NULL -> realloc ts a n <> NULL /\ (realloc ts a n = a \/ (ts !! realloc ts a n = None /\ unused_addr (realloc ts a n))).
Hypothesis Hgarbage : forall b n, length (garbage b n) = n.

(** The list that is left for the collector: the plain memory of [uid], in the order of
    the addresses. *)
Record left_for (uid : Z) (bs : list blk) (b : Z) (t : trash) : Prop := LeftFor {
  le_uid : t_uid t = uid;
  le_ptrs : ptrs_of t = ptr_of <$> plain_of uid (mem (pool w)) bs;
  le_ok : trash_ok t;
  le_addr : b <> NULL /\ tr !! b = None }.

Lemma create_node_run : let a := malloc tr (trash_bytes 1024) in
  libsrpc_shm_trash_create_node malloc garbage 1024 (GWorld w tr) =
    Ret a (GWorld (set_lists (ListSpin.LStore (<[a := ListSpin.Node NULL NULL]> (ListSpin.nodes (lists w))) (ListSpin.heads (lists w))) w)
      (<[a := Trash 0 1024 0 (garbage a 1024)]> tr)).
Proof.
  intros a. destruct (Hmalloc (trash_bytes 1024)) as [Ha _]. fold a in Ha. unfold libsrpc_shm_trash_create_node.
  rewrite (RpcSpec.bind_ret get _ (GWorld w tr) _ (GWorld w tr)) by done. cbn [trashes]. fold a. rewrite (proj2 (Z.eqb_neq a NULL)) by done.
  rewrite (RpcSpec.bind_ret (set_trashes _) _ tt _ (GWorld w (<[a := Trash 0 1024 0 (garbage a 1024)]> tr))) by done.
  rewrite (RpcSpec.bind_ret _ _ tt _ (GWorld (set_lists (ListSpin.LStore (<[a := ListSpin.Node NULL NULL]> (ListSpin.nodes (lists w))) (ListSpin.heads (lists w))) w)
     (<[a := Trash 0 1024 0 (garbage a 1024)]> tr))); [done|].
  apply list_run. unfold ListSpin.libsrpc_list_node_init. unfold node_of. by rewrite (proj2 (Z.eqb_neq a NULL)).
Qed.

Lemma release_locked_run fuel rounds uid bs ls T : let s := pool w in let shm := shm_ptr (loc w) in
  RegistrySpec.mapped w -> poolptr_of shm <> 0 -> pool_ok s bs -> uid <> 0 -> heap_size (geo s) / 128 < Z.of_nat fuel -> rounds <> 0%nat -> heap_size (geo s) < 2 ^ 36 ->
  (forall p, p ∈ requests_of uid (mem s) bs -> is_Some (reqs w !! ptr_of p)) ->
  ListSpin.lists_ok (lists w) ls -> ls !! gc_list_of shm = Some T ->
  exists s' R L' n b t, Proc.release_locked fuel malloc realloc garbage rounds shm uid (GWorld w tr) =
      Ret (false, 0) (GWorld (set_lists L' (set_gc_sem n (set_pool s' (set_reqs R w)))) (<[b := t]> tr)) /\
    pool_ok s' bs /\ only_marked uid s bs s' /\ orphans_destroyed uid s bs (reqs w) R /\ left_for uid bs b t /\
    ListSpin.lists_ok L' (<[gc_list_of shm := b :: T]> ls) /\
    n = gc_sem w + (if 0 <? Z.of_nat (length (orphans uid (mem s) bs)) then 1 else 0).
Proof.
  intros s shm Hm Hshm Hp Hu Hfuel Hrounds Hsize Hknown Hok El. destruct (Hmalloc (trash_bytes 1024)) as (Ha & Hfresh & Hun).
  unfold Proc.release_locked. rewrite (RpcSpec.bind_ret _ _ _ _ _ create_node_run). set (a := malloc tr (trash_bytes 1024)) in *.
  set (w1 := set_lists _ w). rewrite (proj2 (Z.eqb_neq a NULL)) by done.
  rewrite (RpcSpec.bind_ret (get_trash a) _ (Trash 0 1024 0 (garbage a 1024)) _ (GWorld w1 (<[a := Trash 0 1024 0 (garbage a 1024)]> tr)))
    by (unfold get_trash; cbn [trashes]; by rewrite lookup_insert_eq).
  rewrite (RpcSpec.bind_ret get _ _ _ _ eq_refl). cbn [t_num t_cnt t_cells trashes]. rewrite insert_insert_eq.
  set (t0 := Trash uid 1024 0 (garbage a 1024)). rewrite (RpcSpec.bind_ret (set_trashes _) _ tt _ (GWorld w1 (<[a := t0]> tr))) by done.
  destruct (listing_walk_run realloc garbage unused_addr Hgarbage Hrealloc fuel rounds (poolptr_of shm) uid a t0 w1 (<[a := t0]> tr) bs)
    as (s' & R & b & t & E & Hp' & HM & HR & Et & Ept & Hto & Hb & Hba); try done.
  { apply lookup_insert_eq. }
  { split; cbn; [lia|lia|apply Hgarbage]. }
  rewrite (RpcSpec.bind_ret _ _ _ _ _ E). cbn match. rewrite delete_insert_eq, delete_id by done.
  destruct (lists_ok_free (lists w) ls a) as [Hok1 _]; [by rewrite Hun|done|].
  destruct (moved_lists_ok (lists w1) ls a b Hok1) as [Hok2 Hnb].
  { cbn. apply lookup_insert_eq. }
  { destruct Hba as [->|[Hba Hbun]]; [by left|right]. cbn. rewrite lookup_insert_ne; [done|]. intros <-. by rewrite lookup_insert_eq in Hba. }
  rewrite moved_node_lists. set (w2 := set_pool s' _). rewrite (RpcSpec.bind_ret _ _ tt _ _ (wake_run w2 _ _ Hm)). set (w3 := set_gc_sem _ w2).
  destruct (add_node_run w3 (<[b := t]> tr) ls b T Hm Hb Hok2 El Hnb) as (L' & EA & HL). rewrite (RpcSpec.bind_ret _ _ _ _ _ EA).
  exists s', R, L', (gc_sem w + (if 0 <? Z.of_nat (length (orphans uid (mem s) bs)) then 1 else 0)), b, t. split; [reflexivity|].
  do 3 (split; [done|]). split; [|done]. split; try done. split; [done|].
  destruct Hba as [->|[Hba _]]; [done|]. destruct (decide (a = b)) as [<-|]; [done|by rewrite lookup_insert_ne in Hba].
Qed.
End release.

(** ** The lists that wait *)

(** The uid is in the lock table of a request that a live process has. *)
Definition holds_uid (w : world) (uid a : Z) : bool :=
  (0 <? uid) && (uid <? 0x10000) &&
  match reqs w !! a with
  | Some r => negb (Request.libsrpc_req_is_corrupted (Some r) None) && existsb (fun u => u =? u16 uid) (Request.gc_lock_uid r)
  | None => false
  end.
Definition uid_locked (l : list Z) (rl : Z -> list Z) (w : world) (uid : Z) : bool :=
  existsb (fun p => live_proc w p && existsb (holds_uid w uid) (rl p)) l.

Lemma chain_nonnull ns h l : forall cur n, ListSpin.chain ns h cur l -> n ∈ l -> n <> NULL.
Proof.
  induction l as [|m l IH]; intros cur n Hc Hn; [by apply not_elem_of_nil in Hn|]. destruct Hc as (_ & Hm & nx & _ & Hc).
  apply elem_of_cons in Hn as [->|Hn]; [done|by eapply IH].
Qed.
Section locked.
Context (k : Z) (fuel : nat) (l : list Z) (rl items : Z -> list Z).
Abbreviation seg := (segment k fuel l rl items).
Abbreviation locked w := (uid_locked l rl w).

Lemma is_locked_proc_run w p uid : seg w -> p ∈ l -> Rpc.libsrpc_shmem_is_locked_uid_proc fuel p uid w = Ret (if existsb (holds_uid w uid) (rl p) then 1 else 0) w.
Proof.
  intros Hs Hin. destruct (sg_reqs _ _ _ _ _ _ Hs p Hin) as [Hlk Hlen]. unfold Rpc.libsrpc_shmem_is_locked_uid_proc.
  eapply foreach_exists; [done|done|]. intros a Ha. destruct (sg_req _ _ _ _ _ _ Hs p a Hin Ha) as [r Er].
  assert (a <> NULL) as Hnz by (eapply chain_nonnull; [apply (ListSpin.lk_chain _ _ _ Hlk)|done]).
  unfold Rpc.libsrpc_shmem_check_uid_lock, holds_uid. rewrite Er.
  destruct (Z.leb_spec uid 0) as [H0|H0]; [rewrite (proj2 (Z.ltb_ge 0 uid)) by done; done|]. rewrite (proj2 (Z.ltb_lt 0 uid)) by done.
  destruct (Z.leb_spec 0x10000 uid) as [H1|H1]; [rewrite (proj2 (Z.ltb_ge uid _)) by done; done|]. rewrite (proj2 (Z.ltb_lt uid _)) by done. cbn [orb andb].
  assert (req_or_null a w = Ret (Some r) w) as E.
  { unfold req_or_null. rewrite (proj2 (Z.eqb_neq a NULL)) by done. by rewrite (RpcSpec.bind_ret _ _ _ _ _ (RpcSpec.get_req_run _ _ _ Er)). }
  destruct (Request.libsrpc_req_is_corrupted (Some r) None) eqn:Ec; cbn [negb andb].
  - rewrite (RpcSpec.bind_ret _ _ (- Errno.ENOTAVAILABLE) _ w); [done|]. rewrite (RpcSpec.bind_ret _ _ _ _ _ E). by rewrite Ec.
  - rewrite (RpcSpec.bind_ret _ _ (if existsb (fun u => u =? u16 uid) (Request.gc_lock_uid r) then 1 else 0) _ w); [by destruct (existsb _ _)|].
    rewrite (RpcSpec.bind_ret _ _ _ _ _ E). by rewrite Ec.
Qed.
Lemma is_locked_run w uid : seg w -> Rpc.libsrpc_shmem_is_locked_uid fuel uid w = Ret (if locked w uid then 1 else 0) w.
Proof.
  intros Hs. pose proof Hs as [Hm Hl Hf _ Hp _ _]. unfold Rpc.libsrpc_shmem_is_locked_uid. rewrite with_shm by done.
  rewrite (proj2 (Z.eqb_neq _ NULL)) by apply Hm. unfold uid_locked. eapply foreach_exists; [done|done|]. intros p Hin. destruct (Hp p Hin) as (x & Ex & _).
  rewrite (RpcSpec.bind_ret _ _ _ _ _ (RpcSpec.get_proc_run _ _ _ Ex)). unfold live_proc. rewrite Ex.
  destruct (libsrpc_proc_is_valid x); cbn [negb andb]; [|done].
  rewrite (RpcSpec.bind_ret _ _ _ _ _ (is_locked_proc_run w p uid Hs Hin)). by destruct (existsb _ _).
Qed.
End locked.

(** ** What clearing does to the heap

    [D]: uids with the blocks listed for them, in the order in which they are released. *)
Abbreviation lists_of_blocks := (list (Z * list (Z * Z))).
Fixpoint dropped (D : lists_of_blocks) (p : Z * Z) (us : list Z) : list Z :=
  match D with
  | [] => us
  | (u, P) :: D => dropped D p (if bool_decide (p ∈ P) then drop_owner u us else us)
  end.
Fixpoint emptied (D : lists_of_blocks) (p : Z * Z) (us : list Z) : bool :=
  match D with
  | [] => false
  | (u, P) :: D => if bool_decide (p ∈ P) then bool_decide (owners (drop_owner u us) = []) || emptied D p (drop_owner u us) else emptied D p us
  end.
Record cleared (m : gmap Z Z) (bs : list blk) (D : lists_of_blocks) (m' : gmap Z Z) (bs' : list blk) : Prop := Cleared {
  cl_used : used_of bs' = filter (fun p => emptied D p (uids m p.1) = false) (used_of bs);
  cl_uids : forall p, p ∈ used_of bs' -> uids m' p.1 = dropped D p (uids m p.1);
  cl_word : forall p, p ∈ used_of bs' -> word_of m' p = word_of m p;
  cl_payload : forall p o, p ∈ used_of bs' -> HEADER_SIZE <= o < p.2 -> rdm m' (p.1 + o) = rdm m (p.1 + o) }.
(** The blocks of a list are in use and belong to its uid. *)
Record pending (m : gmap Z Z) (bs : list blk) (e : Z * list (Z * Z)) : Prop := Pending {
  pe_uid : e.1 <> 0;
  pe_nodup : NoDup e.2;
  pe_used : forall p, p ∈ e.2 -> p ∈ used_of bs;
  pe_owned : forall p, p ∈ e.2 -> e.1 ∈ uids m p.1 }.

Lemma cleared_nothing m bs : cleared m bs [] m bs.
Proof. split; try done. symmetry. by apply filter_id. Qed.
Lemma cleared_cons m bs e m1 bs1 D m' bs' : cleared m bs [e] m1 bs1 -> cleared m1 bs1 D m' bs' -> cleared m bs (e :: D) m' bs'.
Proof.
  destruct e as [u P]. intros [U1 O1 W1 P1] [U2 O2 W2 P2]. assert (forall p, p ∈ used_of bs' -> p ∈ used_of bs1) as Hs.
  { intros p. rewrite U2. by intros [_ ?]%list_elem_of_filter. }
  assert (forall p, p ∈ used_of bs1 -> uids m1 p.1 = if bool_decide (p ∈ P) then drop_owner u (uids m p.1) else uids m p.1) as O1' by exact O1.
  split.
  - rewrite U2, U1, list_filter_filter. apply filter_same. intros p Hp. cbn [emptied]. specialize (O1' p). rewrite U1 in O1'.
    case_bool_decide as H1; cbn in *.
    + rewrite orb_false_r in *. destruct (bool_decide (owners (drop_owner u (uids m p.1)) = [])) eqn:E; cbn; [intuition congruence|].
      rewrite O1'; [tauto|]. apply list_elem_of_filter. split; [|done]. cbn. by rewrite bool_decide_eq_true_2, E.
    + rewrite O1'; [tauto|]. apply list_elem_of_filter. split; [|done]. cbn. by rewrite bool_decide_eq_false_2.
  - intros p Hp. rewrite O2 by done. rewrite O1' by by apply Hs. done.
  - intros p Hp. rewrite W2 by done. by apply W1, Hs.
  - intros p o Hp Ho. rewrite P2 by done. by apply P1; [apply Hs|].
Qed.
(** Another list is still pending. *)
Lemma pending_stays m bs e m1 bs1 e' : cleared m bs [e] m1 bs1 -> e'.1 <> e.1 -> pending m bs e' -> pending m1 bs1 e'.
Proof.
  destruct e as [u P]. intros [U1 O1 _ _] Hne [H0 Hn Hu Ho]. cbn [fst] in *.
  assert (forall p, p ∈ e'.2 -> p ∈ used_of bs1) as Hs.
  { intros p Hp. rewrite U1. apply list_elem_of_filter. split; [|by apply Hu]. cbn. case_bool_decide; [|done]. rewrite orb_false_r.
    apply bool_decide_eq_false_2. intros E. pose proof (drop_owner_stays u e'.1 _ Hne (Ho p Hp)) as Hin.
    assert (e'.1 ∈ owners (drop_owner u (uids m p.1))) as Hown by (by apply list_elem_of_filter). rewrite E in Hown. by apply not_elem_of_nil in Hown. }
  split; try done. intros p Hp. rewrite O1 by by apply Hs. cbn. case_bool_decide; [|by apply Ho]. apply drop_owner_stays; [done|by apply Ho].
Qed.
(** What is left of a listed block does not belong to the uid. *)
Lemma dropped_sub D p : forall us v, v <> 0 -> v ∈ dropped D p us -> v ∈ us.
Proof.
  induction D as [|[u P] D IH]; intros us v Hv Hin; [done|]. cbn in Hin. apply IH in Hin; [|done]. case_bool_decide; [|done].
  unfold drop_owner in Hin. apply list_elem_of_fmap in Hin as (y & -> & Hy). by destruct (y =? u).
Qed.
Lemma dropped_gone D p u P : (u, P) ∈ D -> p ∈ P -> u <> 0 -> forall us, u ∉ dropped D p us.
Proof.
  intros Hin Hp Hu. induction D as [|[v Q] D IH]; [by apply not_elem_of_nil in Hin|]. intros us. cbn. apply elem_of_cons in Hin as [[= -> ->]|Hin]; [|by apply IH].
  rewrite bool_decide_eq_true_2 by done. intros H%dropped_sub; [|done]. by eapply drop_owner_gone.
Qed.

(** ** Clearing one list *)

Lemma free_all_each h u ptrs : free_all h u ptrs = free_each h ((fun p => GcElm p 0 u 0) <$> ptrs).
Proof. induction ptrs as [|p ptrs IH]; [done|]. cbn [free_all fmap list_fmap free_each e_ptr e_uid]. by rewrite IH. Qed.
Lemma cleared_run s bs h e : pool_ok s bs -> h <> 0 -> pending (mem s) bs e ->
  exists s' bs', (tlsf_lock h ;; free_all h e.1 (ptr_of <$> e.2) ;; tlsf_unlock h) s = Ret 0 s' /\ pool_ok s' bs' /\ cleared (mem s) bs [e] (mem s') bs'.
Proof.
  destruct e as [u P]. intros Hp Hh [Hu Hn Hus Ho]. cbn [fst snd] in *. rewrite free_all_each, <- list_fmap_compose.
  destruct (release_run (fun _ => u) (fun p => GcElm (ptr_of p) 0 u 0) (mem s) P) with (s := s) (bs := bs) (h := h) as (s' & bs' & E & Hp' & U & K & G); try done; [by intros p Hp' _; apply Ho|].
  assert (forall p, p ∈ used_of bs -> leaves (fun _ => u) (mem s) P p = emptied [(u, P)] p (uids (mem s) p.1)) as El.
  { intros p _. unfold leaves, sole_for. cbn. rewrite (proj2 (Z.eqb_neq u 0)) by done. cbn. case_bool_decide; [by rewrite orb_false_r|done]. }
  assert (forall p, p ∈ used_of bs' -> p ∈ used_of bs /\ leaves (fun _ => u) (mem s) P p = false) as Hs.
  { intros p. rewrite U. by intros [? ?]%list_elem_of_filter. }
  assert (forall p, p ∈ used_of bs' -> p ∉ P -> pair_kept (mem s) (mem s') p /\ 128 <= p.2) as Hk.
  { intros p Hpp HpP. destruct (Hs p Hpp) as [Hpu _]. split; [by apply K|]. destruct p as [a n]. apply used_of_in in Hpu as (x & Hx & _ & _ & <-).
    destruct Hp as (_ & _ & Hg & _ & F & Hheap). destruct (block_facts s bs F Hg Hheap x Hx) as ([? _] & _). cbn. lia. }
  exists s', bs'. split; [exact E|]. split; [done|]. split.
  - rewrite U. apply filter_same. intros p Hpp. by rewrite El.
  - intros p Hpp. cbn. case_bool_decide as H; [apply (G p H), Hs, Hpp|]. destruct (Hk p Hpp H) as [Kp Hsz]. by apply pair_kept_word.
  - intros p Hpp. destruct (decide (p ∈ P)) as [H|H]; [apply (G p H), Hs, Hpp|]. destruct (Hk p Hpp H) as [Kp Hsz]. by apply pair_kept_word.
  - intros p o Hpp Hoo. destruct (decide (p ∈ P)) as [H|H]; [apply (G p H); [apply Hs, Hpp|done]|]. destruct (Hk p Hpp H) as [Kp Hsz]. by apply pair_kept_payload.
Qed.
Lemma destroy_node_run fuel w tr bs ls a t e T : RegistrySpec.mapped w -> poolptr_of (shm_ptr (loc w)) <> 0 -> pool_ok (pool w) bs -> pending (mem (pool w)) bs e ->
  tr !! a = Some t -> t_uid t = e.1 -> ptrs_of t = ptr_of <$> e.2 ->
  ListSpin.lists_ok (lists w) ls -> ls !! gc_list_of (shm_ptr (loc w)) = Some T -> a ∈ T -> (length T <= fuel)%nat ->
  exists s' bs' L', libsrpc_shm_trash_destroy_node fuel a (GWorld w tr) = Ret tt (GWorld (set_lists L' (set_pool s' w)) (delete a tr)) /\
    pool_ok s' bs' /\ cleared (mem (pool w)) bs [e] (mem s') bs' /\ ListSpin.lists_ok L' (<[gc_list_of (shm_ptr (loc w)) := filter (fun n => n <> a) T]> ls).
Proof.
  intros Hm Hshm Hp He Et Eu Ep Hok El Ha Hfuel. destruct (Hok _ _ El) as [_ Hlk].
  assert (a <> NULL) as Hnz by (eapply chain_nonnull; [apply (ListSpin.lk_chain _ _ _ Hlk)|done]).
  destruct (ListSpin.chain_lookup _ _ _ _ a (ListSpin.lk_chain _ _ _ Hlk) Ha) as [nx En].
  destruct (cleared_run (pool w) bs (poolptr_of (shm_ptr (loc w))) e Hp Hshm He) as (s' & bs' & E & Hp' & HC).
  destruct (ListSpin.list_remove_ok (lists w) ls a _ fuel Hok Hnz En) as [_ Hrm]. destruct (Hrm T El Hfuel) as (L' & EL & HL & _).
  exists s', bs', L'. split; [|by split_and!]. unfold libsrpc_shm_trash_destroy_node. rewrite shm_run by done.
  rewrite (proj2 (Z.eqb_neq a NULL)), (proj2 (Z.eqb_neq _ NULL)) by (done || apply Hm). cbn [orb].
  rewrite (RpcSpec.bind_ret (get_trash a) _ t _ (GWorld w tr)) by (unfold get_trash; cbn [trashes]; by rewrite Et).
  rewrite Eu. change (take (Z.to_nat (t_cnt t)) (t_cells t)) with (ptrs_of t). rewrite Ep.
  rewrite (RpcSpec.bind_ret _ _ 0 _ (GWorld (set_pool s' w) tr)) by (apply world_run; unfold lift_pool; by rewrite E).
  rewrite (RpcSpec.bind_ret _ _ ListSpin.LIST_OK _ (GWorld (set_lists L' (set_pool s' w)) tr)) by (by apply list_run).
  reflexivity.
Qed.

(** ** Clearing all lists *)

(** The segment with other lists, as long as those of its processes are the same. *)
Lemma segment_from k fuel l rl items w l' w' ls' : segment k fuel l rl items w -> (forall p, p ∈ l' -> p ∈ l) -> (length l' <= length l)%nat ->
  simplerpc_data (loc w') = simplerpc_data (loc w) -> shm_ptr (loc w') = shm_ptr (loc w) -> (forall p, p ∈ l' -> procs w' !! p = procs w !! p) ->
  (forall p a, p ∈ l' -> a ∈ rl p -> is_Some (reqs w' !! a)) -> ListSpin.lists_ok (lists w') ls' ->
  ls' !! proc_head_of (shm_ptr (loc w)) = Some l' -> (forall p, p ∈ l' -> ls' !! req_head_of p = Some (rl p)) -> segment k fuel l' rl items w'.
Proof.
  intros [H1 H2 H3 H4 H5 H6 H7] Hsub Hlen E1 E2 Epr Hrq Hok Hp Hr. split; rewrite ?E2.
  - unfold RegistrySpec.mapped. by rewrite E1, E2.
  - by apply Hok.
  - lia.
  - intros Hn. by apply H4, Hsub.
  - intros p Hin. rewrite Epr by done. by apply H5, Hsub.
  - intros p Hin. split; [by apply Hok, Hr|by apply H6, Hsub].
  - intros p a Hin Ha. destruct (Hrq p a Hin Ha) as [r Er]. by exists r.
Qed.
(** When only the list of the collector changes. *)
Lemma segment_relisted k fuel l rl items w ls w' X : let gc := gc_list_of (shm_ptr (loc w)) in segment k fuel l rl items w ->
  ls !! proc_head_of (shm_ptr (loc w)) = Some l -> (forall p, p ∈ l -> ls !! req_head_of p = Some (rl p) /\ req_head_of p <> gc) ->
  loc w' = loc w -> procs w' = procs w -> (forall p a, p ∈ l -> a ∈ rl p -> exists r, reqs w' !! a = Some r) -> ListSpin.lists_ok (lists w') (<[gc := X]> ls) ->
  segment k fuel l rl items w'.
Proof.
  intros gc Hs Hp Hr El Epr Hrq Hok. eapply segment_from; [exact Hs|done|done|by rewrite El|by rewrite El|by rewrite Epr| |exact Hok| |].
  - intros p a Hin Ha. destruct (Hrq p a Hin Ha) as [r Er]. by exists r.
  - rewrite lookup_insert_ne; [exact Hp|]. unfold gc, gc_list_of, proc_head_of, GC_LIST_OFF, PROC_HEAD_OFF. lia.
  - intros p Hin. destruct (Hr p Hin) as [E Hne]. by rewrite lookup_insert_ne.
Qed.

Section clearing.
Context (k : Z) (fuel : nat) (l : list Z) (rl items : Z -> list Z) (w : world) (ls : gmap Z (list Z)) (entry : Z -> Z * list (Z * Z)).
Abbreviation gc := (gc_list_of (shm_ptr (loc w))).
Abbreviation held_back a := (uid_locked l rl w (entry a).1 = true).
Abbreviation let_go a := (uid_locked l rl w (entry a).1 = false).
Hypothesis Hseg : segment k fuel l rl items w.
Hypothesis Hshm : poolptr_of (shm_ptr (loc w)) <> 0.
Hypothesis Hprocs : ls !! proc_head_of (shm_ptr (loc w)) = Some l.
Hypothesis Hreqs : forall p, p ∈ l -> ls !! req_head_of p = Some (rl p) /\ req_head_of p <> gc.

(** A list that waits, with its blocks in the heap. *)
Definition waits (m : gmap Z Z) (bs : list blk) (tr : trash_store) (a : Z) : Prop :=
  exists t, tr !! a = Some t /\ t_uid t = (entry a).1 /\ ptrs_of t = ptr_of <$> (entry a).2 /\ pending m bs (entry a).

Lemma segment_kept L s X : ListSpin.lists_ok L (<[gc := X]> ls) -> segment k fuel l rl items (set_lists L (set_pool s w)).
Proof. intros Hok. eapply segment_relisted; [exact Hseg|exact Hprocs|exact Hreqs|done|done|apply Hseg|exact Hok]. Qed.
Definition clear_one (a : Z) : GM unit :=
  t ← get_trash a;
  locked ← lift_world (Rpc.libsrpc_shmem_is_locked_uid fuel (t_uid t));
  if negb (locked =? 0) then mret tt else libsrpc_shm_trash_destroy_node fuel a.
Lemma clear_one_run L s tr a t X : ListSpin.lists_ok L (<[gc := X]> ls) -> tr !! a = Some t -> t_uid t = (entry a).1 ->
  clear_one a (GWorld (set_lists L (set_pool s w)) tr) =
    (if uid_locked l rl w (entry a).1 then mret tt else libsrpc_shm_trash_destroy_node fuel a) (GWorld (set_lists L (set_pool s w)) tr).
Proof.
  intros Hok Et Eu. unfold clear_one.
  rewrite (RpcSpec.bind_ret (get_trash a) _ t _ (GWorld (set_lists L (set_pool s w)) tr)) by (unfold get_trash; cbn [trashes]; by rewrite Et). rewrite Eu.
  rewrite (RpcSpec.bind_ret _ _ _ _ _ (world_run _ _ tr _ _ (is_locked_run k fuel l rl items _ (entry a).1 (segment_kept L s X Hok)))).
  change (uid_locked l rl (set_lists L (set_pool s w)) (entry a).1) with (uid_locked l rl w (entry a).1).
  by destruct (uid_locked _ _ _ _).
Qed.
Lemma next_node L X K a T : ListSpin.lists_ok L (<[gc := X]> ls) -> X = K ++ a :: T ->
  ListSpin.nodes L !! a = Some (ListSpin.Node (List.hd NULL T) gc) /\ a <> NULL /\ NoDup X.
Proof.
  intros Hok ->. destruct (Hok gc _ (lookup_insert_eq _ _ _)) as [_ Hl].
  destruct (ListSpin.chain_next _ _ _ _ _ _ (ListSpin.lk_chain _ _ _ Hl)) as [E Hn]. split; [done|]. split; [done|]. apply Hl.
Qed.
Lemma filter_out (a : Z) K T : NoDup (K ++ a :: T) -> filter (fun n => n <> a) (K ++ a :: T) = K ++ T.
Proof.
  intros Hn. apply NoDup_app in Hn as (_ & H1 & H2). apply NoDup_cons in H2 as [H2 _].
  rewrite filter_app, filter_cons, decide_False by (intros H; by apply H). rewrite !filter_id; [done|..].
  - intros x Hx ->. done.
  - intros x Hx ->. apply (H1 _ Hx), list_elem_of_here.
Qed.

Lemma clear_loop : forall T n K L s bs tr, (length T <= n)%nat -> pool_ok s bs -> ListSpin.lists_ok L (<[gc := K ++ T]> ls) -> (length (K ++ T) <= fuel)%nat ->
  (forall a, a ∈ T -> waits (mem s) bs tr a) -> NoDup (entry <$> T).*1 ->
  exists s' bs' L' tr', foreach_safe n (List.hd NULL T) clear_one (GWorld (set_lists L (set_pool s w)) tr) = Ret tt (GWorld (set_lists L' (set_pool s' w)) tr') /\
    pool_ok s' bs' /\ cleared (mem s) bs (entry <$> filter (fun a => let_go a) T) (mem s') bs' /\
    ListSpin.lists_ok L' (<[gc := K ++ filter (fun a => held_back a) T]> ls) /\
    forall x, tr' !! x = if decide (x ∈ T /\ let_go x) then None else tr !! x.
Proof.
  induction T as [|a T IH]; intros n K L s bs tr Hn Hp Hok Hfuel HT Hnd.
  - exists s, bs, L, tr. split; [by destruct n|]. do 2 (split; [done || apply cleared_nothing|]). split; [done|].
    intros x. rewrite decide_False; [done|]. by intros [?%not_elem_of_nil _].
  - destruct n as [|n]; [cbn in Hn; lia|]. destruct (next_node L _ K a T Hok eq_refl) as (En & Ha & HX). cbn [fmap list_fmap] in Hnd. apply NoDup_cons in Hnd as [Hna Hnd].
    destruct (HT a (list_elem_of_here _ _)) as (t & Et & Eu & Ept & Hpe). cbn [List.hd foreach_safe]. rewrite (proj2 (Z.eqb_neq a NULL)) by done.
    rewrite (RpcSpec.bind_ret _ _ (ListSpin.Node (List.hd NULL T) gc) _ (GWorld (set_lists L (set_pool s w)) tr))
      by (apply list_read_run; unfold ListSpin.get_node; cbn [lists set_lists]; by rewrite En). cbn [ListSpin.next].
    rewrite !filter_cons. pose proof (clear_one_run L s tr a t _ Hok Et Eu) as E1. destruct (uid_locked l rl w (entry a).1) eqn:El.
    + rewrite (RpcSpec.bind_ret _ _ tt _ _ E1). rewrite (decide_False (P := true = false)), decide_True by done.
      destruct (IH n (K ++ [a]) L s bs tr) as (s' & bs' & L' & tr' & E & Hp' & HC & HL & Htr); try done; [cbn in Hn; lia|by rewrite <- app_assoc|by rewrite <- app_assoc| |].
      { intros b Hb. by apply HT, list_elem_of_further. }
      exists s', bs', L', tr'. split; [exact E|]. do 2 (split; [done|]). split; [by rewrite <- app_assoc in HL|].
      intros x. rewrite Htr. apply decide_ext. rewrite elem_of_cons. split; [tauto|]. intros [[->|?] ?]; [congruence|done].
    + rewrite (decide_True (P := false = false)), (decide_False (P := false = true)) by done.
      destruct (destroy_node_run fuel (set_lists L (set_pool s w)) tr bs _ a t (entry a) (K ++ a :: T) (sg_map _ _ _ _ _ _ Hseg) Hshm Hp Hpe Et Eu Ept Hok) as (s1 & bs1 & L1 & ED & Hp1 & HC1 & HL1);
        [apply lookup_insert_eq|apply elem_of_app; right; apply list_elem_of_here|done|].
      rewrite (RpcSpec.bind_ret _ _ tt _ (GWorld (set_lists L1 (set_pool s1 w)) (delete a tr))) by (rewrite E1; exact ED).
      change (gc_list_of (shm_ptr (loc (set_lists L (set_pool s w))))) with gc in HL1. rewrite insert_insert_eq, filter_out in HL1 by done.
      apply NoDup_app in HX as (_ & _ & HX). apply NoDup_cons in HX as [HaT _].
      destruct (IH n K L1 s1 bs1 (delete a tr)) as (s' & bs' & L' & tr' & E & Hp' & HC & HL & Htr); try done; [cbn in Hn; lia|rewrite length_app in *; cbn in Hfuel; lia| |].
      { intros b Hb. destruct (HT b) as (tb & Etb & Eub & Eptb & Hpb); [by apply list_elem_of_further|]. exists tb. split; [rewrite lookup_delete_ne; [done|by intros ->]|].
        do 2 (split; [done|]). eapply pending_stays; [exact HC1| |done]. intros E. apply Hna. rewrite <- E. apply list_elem_of_fmap. exists (entry b). split; [done|]. by apply list_elem_of_fmap_2. }
      exists s', bs', L', tr'. split; [exact E|]. split; [done|]. split; [by eapply cleared_cons|]. split; [done|].
      intros x. rewrite Htr. destruct (decide (x = a)) as [->|Hne].
      * rewrite lookup_delete_eq. rewrite (decide_True (P := a ∈ a :: T /\ _)) by (split; [apply list_elem_of_here|done]). by case_decide.
      * rewrite lookup_delete_ne by done. apply decide_ext. rewrite elem_of_cons. tauto.
Qed.

Lemma clear_list_run T bs tr : pool_ok (pool w) bs -> ListSpin.lists_ok (lists w) ls -> ls !! gc = Some T -> (length T <= fuel)%nat ->
  (forall a, a ∈ T -> waits (mem (pool w)) bs tr a) -> NoDup (entry <$> T).*1 ->
  exists s' bs' L' tr', libsrpc_shm_trash_clear_list fuel (GWorld w tr) = Ret 0 (GWorld (set_lists L' (set_pool s' w)) tr') /\
    pool_ok s' bs' /\ cleared (mem (pool w)) bs (entry <$> filter (fun a => let_go a) T) (mem s') bs' /\
    ListSpin.lists_ok L' (<[gc := filter (fun a => held_back a) T]> ls) /\
    forall x, tr' !! x = if decide (x ∈ T /\ let_go x) then None else tr !! x.
Proof.
  intros Hp Hok El Hfuel HT Hnd. pose proof Hseg as [Hm _ _ _ _ _ _]. destruct (Hok gc T El) as [_ Hl]. destruct (ListSpin.lk_head _ _ _ Hl) as [wr Eh].
  destruct (clear_loop T fuel [] (lists w) (pool w) bs tr) as (s' & bs' & L' & tr' & E & H); try done; [by rewrite insert_id|].
  exists s', bs', L', tr'. split; [|exact H]. unfold libsrpc_shm_trash_clear_list. rewrite shm_run by done. rewrite (proj2 (Z.eqb_neq _ NULL)) by apply Hm.
  rewrite (RpcSpec.bind_ret _ _ (ListSpin.LHead (List.hd NULL T) wr) _ (GWorld w tr))
    by (apply list_read_run; unfold ListSpin.get_head; by rewrite Eh). cbn [ListSpin.first].
  assert (GWorld w tr = GWorld (set_lists (lists w) (set_pool (pool w) w)) tr) as -> by (by destruct w).
  by rewrite (RpcSpec.bind_ret _ _ _ _ _ E).
Qed.
End clearing.

(** ** The theorems *)

(** The owners of a block that is in use; of another, nobody. *)
Definition owned_uids (m : gmap Z Z) (bs : list blk) (p : Z * Z) : list Z := if bool_decide (p ∈ used_of bs) then uids m p.1 else [].

Lemma left_pending uid s bs s' : pool_ok s bs -> uid <> 0 -> only_marked uid s bs s' -> pending (mem s') bs (uid, plain_of uid (mem s) bs).
Proof.
  intros (_ & _ & Hg & _ & F & Hh) Hu HM. assert (forall p, p ∈ plain_of uid (mem s) bs -> p ∈ used_of bs /\ uid ∈ uids (mem s) p.1) as H.
  { intros p [[? _] ?]%list_elem_of_filter. done. }
  split; cbn; [done| |intros p Hp; by apply H|].
  - pose proof (hp_tiled _ _ _ Hh) as T. apply tiled_used in T as [Hn _]; [|by apply start_aligned]. apply NoDup_fmap_1 in Hn. by apply NoDup_filter.
  - intros p Hp. rewrite (om_uids _ _ _ _ HM) by by apply H. by apply H.
Qed.

(** (C7) A process that is gone while it holds locks: the heap walk visits every block
    once and frees none; its requests are destroyed and marked for the collector, its
    plain memory is entered, all of it and in the order of the addresses, in a list that
    grows as needed and that the collector finds in front of those that wait; blocks keep
    their owners and contents.  The condition is that [malloc] and [realloc] never answer
    NULL here: when [realloc] does, the block is neither freed nor listed
    ([full_list_forgets]). *)
Theorem locked_memory_listed malloc realloc garbage w tr fuel rounds uid bs ls T : let s := pool w in let shm := shm_ptr (loc w) in
  (forall n, malloc tr n <> NULL /\ tr !! malloc tr n = None /\ ListSpin.nodes (lists w) !! malloc tr n = None) ->
  (forall ts a n, a <> NULL -> realloc ts a n <> NULL /\ (realloc ts a n = a \/ (ts !! realloc ts a n = None /\ ListSpin.nodes (lists w) !! realloc ts a n = None))) ->
  (forall b n, length (garbage b n) = n) ->
  RegistrySpec.mapped w -> poolptr_of shm <> 0 -> pool_ok s bs -> uid <> 0 -> heap_size (geo s) / 128 < Z.of_nat fuel -> rounds <> 0%nat -> heap_size (geo s) < 2 ^ 36 ->
  (forall p, p ∈ requests_of uid (mem s) bs -> is_Some (reqs w !! ptr_of p)) ->
  ListSpin.lists_ok (lists w) ls -> ls !! gc_list_of shm = Some T ->
  exists s' R L' n b t, Proc.release_locked fuel malloc realloc garbage rounds shm uid (GWorld w tr) =
      Ret (false, 0) (GWorld (set_lists L' (set_gc_sem n (set_pool s' (set_reqs R w)))) (<[b := t]> tr)) /\
    pool_ok s' bs /\ only_marked uid s bs s' /\ orphans_destroyed uid s bs (reqs w) R /\ left_for w tr uid bs b t /\
    ListSpin.lists_ok L' (<[gc_list_of shm := b :: T]> ls) /\ pending (mem s') bs (uid, plain_of uid (mem s) bs).
Proof.
  intros s shm H1 H2 H3 Hm Hshm Hp Hu Hfuel Hrounds Hsize Hknown Hok El.
  destruct (release_locked_run malloc realloc garbage w tr H1 H2 H3 fuel rounds uid bs ls T) as (s' & R & L' & n & b & t & E & Hp' & HM & HR & HL & HK & _); try done.
  exists s', R, L', n, b, t. do 6 (split; [done|]). by apply left_pending.
Qed.

(** (C8) Once the locks are gone the collector releases the lists that wait: exactly those
    whose uid no live process' request has locked leave the list of lists and the daemon's
    memory; their blocks lose that owner, and those without another one, and no other
    blocks, go back to the heap, which stays well-formed; blocks that stay keep type and
    contents. *)
Theorem waiting_lists_cleared k fuel l rl items w ls entry T bs tr : let gc := gc_list_of (shm_ptr (loc w)) in let locked a := uid_locked l rl w (entry a).1 in
  segment k fuel l rl items w -> poolptr_of (shm_ptr (loc w)) <> 0 -> pool_ok (pool w) bs ->
  ListSpin.lists_ok (lists w) ls -> ls !! proc_head_of (shm_ptr (loc w)) = Some l -> (forall p, p ∈ l -> ls !! req_head_of p = Some (rl p) /\ req_head_of p <> gc) ->
  ls !! gc = Some T -> (length T <= fuel)%nat -> (forall a, a ∈ T -> waits entry (mem (pool w)) bs tr a) -> NoDup (entry <$> T).*1 ->
  exists s' bs' L' tr', libsrpc_shm_trash_clear_list fuel (GWorld w tr) = Ret 0 (GWorld (set_lists L' (set_pool s' w)) tr') /\
    pool_ok s' bs' /\ cleared (mem (pool w)) bs (entry <$> filter (fun a => locked a = false) T) (mem s') bs' /\
    (forall a p, a ∈ T -> locked a = false -> p ∈ (entry a).2 -> (entry a).1 ∉ owned_uids (mem s') bs' p) /\
    ListSpin.lists_ok L' (<[gc := filter (fun a => locked a = true) T]> ls) /\
    forall x, tr' !! x = if decide (x ∈ T /\ locked x = false) then None else tr !! x.
Proof.
  intros gc locked Hseg Hshm Hp Hok Hprocs Hreqs El Hfuel HT Hnd.
  destruct (clear_list_run k fuel l rl items w ls entry Hseg Hshm Hprocs Hreqs T bs tr) as (s' & bs' & L' & tr' & E & Hp' & HC & HL & Htr); try done.
  exists s', bs', L', tr'. do 3 (split; [done|]). split; [|done]. intros a p Ha Hl Hpa. unfold owned_uids. case_bool_decide as Hu; [|apply not_elem_of_nil].
  rewrite (cl_uids _ _ _ _ _ HC p Hu). destruct (HT a Ha) as (_ & _ & _ & _ & [H0 _ _ _]).
  eapply (dropped_gone _ p (entry a).1 (entry a).2); [|done|done]. rewrite <- surjective_pairing. apply list_elem_of_fmap. exists a. split; [done|]. by apply list_elem_of_filter.
Qed.

(** The segment of [demo_gc] with a pool whose only block in use is plain memory of uid 7. *)
Definition demo_shm : Z := TlsfSpec.demo_pool - POOL_OFF.
Definition demo_malloc (ts : trash_store) (n : Z) : Z := 8192.
Definition demo_zeros (b : Z) (n : nat) : list Z := replicate n 0.
Definition demo_ls : gmap Z (list Z) := {[ gc_list_of demo_shm := []; proc_head_of demo_shm := [700]; req_head_of 700 := [4096] ]}.
Lemma demo_ls_ok : ListSpin.lists_ok (lists demo_gc) demo_ls.
Proof.
  intros h lst E. unfold demo_ls in E. apply lookup_insert_Some in E as [[<- <-]|[_ E]]; [|apply lookup_insert_Some in E as [[<- <-]|[_ E]]; [|apply lookup_singleton_Some in E as [<- <-]]].
  - split; [discriminate|]. split; [eexists; reflexivity|reflexivity|constructor|].
    intros n x En Eh. cbn in En. apply lookup_insert_Some in En as [[_ <-]|[_ En]]; [discriminate Eh|]. apply lookup_singleton_Some in En as [_ <-]. discriminate Eh.
  - split; [discriminate|]. exact (sg_procs _ _ _ _ _ _ demo_segment).
  - split; [discriminate|]. refine (proj1 (sg_reqs _ _ _ _ _ _ demo_segment 700 _)). apply list_elem_of_here.
Qed.
Lemma demo_no_requests s : uids (mem s) demo_block = [7; 0; 0; 0; 0; 0; 0; 0; 0; 0; 0; 0] ->
  rdm (mem s) (demo_block + OFF_sig_dc) = make_sig_dc false Shmem.SHMDT_USER ->
  requests_of 7 (mem s) cut_pool = [] /\ plain_of 7 (mem s) cut_pool = [(demo_block, 192)].
Proof.
  intros Hu Hs. split.
  - by rewrite (demo_typed request_type s _ Hu Hs).
  - rewrite (demo_typed plain_type s _ Hu Hs), decide_True; [done|]. unfold plain_type, special_type. vm_compute. intuition discriminate.
Qed.
(** For any world, so that the concrete one is not unfolded. *)
Lemma lists_set_pool s v : lists (set_pool s v) = lists v.
Proof. done. Qed.
Lemma demo_ls_in s : ListSpin.lists_ok (lists (set_pool s demo_gc)) demo_ls.
Proof. rewrite (lists_set_pool s demo_gc). exact demo_ls_ok. Qed.
Lemma demo_node_free s : ListSpin.nodes (lists (set_pool s demo_gc)) !! 8192 = None.
Proof. rewrite (lists_set_pool s demo_gc). reflexivity. Qed.
Lemma demo_malloc_fresh s n : demo_malloc ∅ n <> NULL /\ (∅ : trash_store) !! demo_malloc ∅ n = None /\ ListSpin.nodes (lists (set_pool s demo_gc)) !! demo_malloc ∅ n = None.
Proof. split; [discriminate|]. split; [reflexivity|exact (demo_node_free s)]. Qed.
Lemma demo_realloc_ok s (ts : trash_store) a (n : Z) : a <> NULL ->
  demo_realloc ts a n <> NULL /\ (demo_realloc ts a n = a \/ (ts !! demo_realloc ts a n = None /\ ListSpin.nodes (lists (set_pool s demo_gc)) !! demo_realloc ts a n = None)).
Proof. intros Ha. split; [exact Ha|left; reflexivity]. Qed.
Lemma locked_memory_listed_witness : exists s g b t,
  Proc.release_locked 20 demo_malloc demo_realloc demo_zeros 1 demo_shm 7 (GWorld (set_pool s demo_gc) ∅) = Ret (false, 0) g /\
  trashes g !! b = Some t /\ t_uid t = 7 /\ ptrs_of t = [demo_block + HEADER_SIZE] /\ pool_ok (pool (gw g)) cut_pool.
Proof.
  destruct (cut_pool_typed Shmem.SHMDT_USER) as (s & P & U & S & E). destruct (demo_no_requests s U S) as [N1 N2]. exists s.
  destruct (locked_memory_listed demo_malloc demo_realloc demo_zeros (set_pool s demo_gc) ∅ 20 1 7 cut_pool demo_ls [])
    as (s' & R & L' & n & b & t & ER & P' & _ & _ & [Hu Hptr _ _] & _).
  - exact (demo_malloc_fresh s).
  - exact (demo_realloc_ok s).
  - intros b n. apply length_replicate.
  - split; discriminate.
  - discriminate.
  - exact P.
  - discriminate.
  - cbn [pool set_pool]. rewrite E. reflexivity.
  - discriminate.
  - cbn [pool set_pool]. rewrite E. reflexivity.
  - cbn [pool set_pool]. rewrite N1. intros p Hp. by apply not_elem_of_nil in Hp.
  - exact (demo_ls_in s).
  - reflexivity.
  - eexists _, b, t. split; [exact ER|]. split; [apply lookup_insert_eq|]. split; [exact Hu|]. split; [|exact P'].
    rewrite Hptr. cbn [pool set_pool]. rewrite N2. reflexivity.
Defined.

Lemma demo_unlocked w : reqs w !! 4096 = Some RequestSpec.demo_request -> uid_locked [700] (fun _ => [4096]) w 7 = false.
Proof. intros E. unfold uid_locked. cbn [existsb]. assert (holds_uid w 7 4096 = false) as -> by (unfold holds_uid; rewrite E; reflexivity). by destruct (live_proc w 700). Qed.
Lemma same_segment_relisted k fuel l rl items v ls L n s R s0 X N : segment k fuel l rl items v -> (fuel <= N)%nat ->
  ls !! proc_head_of (shm_ptr (loc v)) = Some l -> (forall p, p ∈ l -> ls !! req_head_of p = Some (rl p) /\ req_head_of p <> gc_list_of (shm_ptr (loc v))) ->
  (forall p a, p ∈ l -> a ∈ rl p -> exists r, R !! a = Some r) -> ListSpin.lists_ok L (<[gc_list_of (shm_ptr (loc v)) := X]> ls) ->
  segment k N l rl items (set_lists L (set_gc_sem n (set_pool s (set_reqs R (set_pool s0 v))))).
Proof.
  intros Hs HN H1 H2 H3 Hok. assert (segment k N l rl items v) as Hs' by (destruct Hs as [? ? ? ? ? H6 ?]; split; try done; [lia|]; intros p Hp; destruct (H6 p Hp); split; [done|lia]).
  by apply (segment_relisted k N l rl items v ls _ X).
Qed.
Lemma demo_relisted L n s R s0 X : R !! 4096 = Some RequestSpec.demo_request -> ListSpin.lists_ok L (<[gc_list_of demo_shm := X]> demo_ls) ->
  segment 1 20 [700] (fun _ => [4096]) (fun _ => [77]) (set_lists L (set_gc_sem n (set_pool s (set_reqs R (set_pool s0 demo_gc))))).
Proof.
  intros ER Hok. apply (same_segment_relisted 1 5 _ _ _ demo_gc demo_ls L n s R s0 X 20 demo_segment); [by apply Nat.leb_le|reflexivity| | |exact Hok].
  - intros p ->%list_elem_of_singleton. split; [reflexivity|discriminate].
  - intros p a _ ->%list_elem_of_singleton. exists RequestSpec.demo_request. exact ER.
Qed.
(** The list that the walk has left is cleared. *)
Lemma waiting_lists_cleared_witness : exists s g b g' bs',
  Proc.release_locked 20 demo_malloc demo_realloc demo_zeros 1 demo_shm 7 (GWorld (set_pool s demo_gc) ∅) = Ret (false, 0) g /\
  is_Some (trashes g !! b) /\ libsrpc_shm_trash_clear_list 20 g = Ret 0 g' /\
  trashes g' !! b = None /\ pool_ok (pool (gw g')) bs' /\ used_of bs' = [].
Proof.
  destruct (cut_pool_typed Shmem.SHMDT_USER) as (s & P & U & S & E). destruct (demo_no_requests s U S) as [N1 N2]. exists s.
  destruct (release_locked_run demo_malloc demo_realloc demo_zeros (set_pool s demo_gc) ∅) with (fuel := 20%nat) (rounds := 1%nat) (uid := 7) (bs := cut_pool) (ls := demo_ls) (T := @nil Z)
    as (s' & R & L' & n & b & t & ER & P' & HM & HR & [Hu Hptr Hto [Hb _]] & HL & _).
  { exact (demo_malloc_fresh s). }
  { exact (demo_realloc_ok s). }
  { intros b n. apply length_replicate. }
  { split; discriminate. }
  { discriminate. }
  { exact P. }
  { discriminate. }
  { cbn [pool set_pool]. by rewrite E. }
  { discriminate. }
  { cbn [pool set_pool]. by rewrite E. }
  { cbn [pool set_pool]. rewrite N1. intros p Hp. by apply not_elem_of_nil in Hp. }
  { exact (demo_ls_in s). }
  { reflexivity. }
  cbn [pool set_pool] in HM, HR, Hptr. rewrite N2 in Hptr. pose proof (left_pending 7 s cut_pool s' P ltac:(done) HM) as Hpe. rewrite N2 in Hpe.
  assert (R !! 4096 = Some RequestSpec.demo_request) as ER4.
  { rewrite HR. unfold orphans. rewrite N1. reflexivity. }
  set (w1 := set_lists L' (set_gc_sem n (set_pool s' (set_reqs R (set_pool s demo_gc))))) in *.
  pose proof (demo_unlocked w1 ER4) as Hlock.
  destruct (waiting_lists_cleared 1 20 [700] (fun _ => [4096]) (fun _ => [77]) w1 (<[gc_list_of demo_shm := [b]]> demo_ls) (fun _ => (7, [(demo_block, 192)])) [b] cut_pool (<[b := t]> ∅))
    as (s2 & bs2 & L2 & tr2 & E2 & P2 & HC & _ & _ & Htr).
  - eapply demo_relisted; [exact ER4|exact HL].
  - discriminate.
  - exact P'.
  - exact HL.
  - reflexivity.
  - intros p ->%list_elem_of_singleton. split; [reflexivity|discriminate].
  - apply lookup_insert_eq.
  - cbn [length]. lia.
  - intros a ->%list_elem_of_singleton. exists t. split; [apply lookup_insert_eq|]. split; [exact Hu|]. split; [exact Hptr|exact Hpe].
  - apply NoDup_singleton.
  - eexists _, b, _, bs2. split; [exact ER|]. split; [exists t; apply lookup_insert_eq|]. split; [exact E2|]. split.
    + rewrite Htr, decide_True; [reflexivity|]. split; [apply list_elem_of_here|exact Hlock].
    + split; [exact P2|]. rewrite (cl_used _ _ _ _ _ HC). cbn [fst]. rewrite filter_cons, decide_True, filter_nil by exact Hlock.
      change (used_of cut_pool) with [(demo_block, 192)]. rewrite filter_cons, filter_nil, decide_False; [done|].
      cbn [fmap list_fmap emptied]. rewrite bool_decide_eq_true_2 by apply list_elem_of_here. 
      assert (uids (mem (pool w1)) (demo_block, 192).1 = [7; 0; 0; 0; 0; 0; 0; 0; 0; 0; 0; 0]) as ->; [|vm_compute; discriminate].
      change (mem (pool w1)) with (mem s'). rewrite (om_uids _ _ _ _ HM); [exact U|]. apply list_elem_of_here.
Defined.

(** The destructor looks at no result of [libsrpc_shm_trash_add_ptr]: when [realloc] fails
    the block is on no list, nothing is reported, and nobody frees it later. *)
Lemma full_list_forgets realloc garbage h uid (s : tlsf) l1 x l2 u t : at_work s (l1 ++ x :: l2) -> bfree x = false -> h <> 0 ->
  plain_type (sig_type (word_of (mem s) (pair_of x))) ->
  Proc.d_trash u <> NULL -> Proc.d_trashes u !! Proc.d_trash u = Some t -> t_num t <= t_cnt t ->
  realloc (Proc.d_trashes u) (Proc.d_trash u) (trash_bytes (u32 (t_num t + t_num t / 4))) = NULL ->
  wp (Proc.destructor_fn realloc garbage h u (baddr x + HEADER_SIZE) (baddr x) uid) never (fun r s' => r = (0, u) /\ s' = s) s.
Proof.
  intros Hw Hf Hh Hpl Ha Et Hfull Hr. pose proof (live_block s _ x Hw (in_split l1 l2 x) Hf) as Hl. pose proof (proj1 (aw_geo _ _ Hw)) as Hg.
  pose proof (proj1 (proj2 Hl)) as Hpos. unfold Proc.destructor_fn.
  rewrite !(proj2 (Z.eqb_neq _ _)) by (done || unfold HEADER_SIZE; lia). cbn [orb].
  apply wp_bind. eapply wp_mono; [apply wp_tlsf_get_data_type; done|done|]. intros ty s1 [-> ->].
  apply wp_bind. eapply wp_mono; [apply wp_tlsf_getdc; done|done|]. intros dc s1 [-> ->].
  unfold rd. change (rdm (mem s) (baddr x + OFF_sig_dc)) with (word_of (mem s) (pair_of x)). unfold plain_type, special_type in Hpl.
  rewrite !(proj2 (Z.eqb_neq (sig_type _) _)) by tauto. cbn [orb negb].
  unfold libsrpc_shm_trash_add_ptr. rewrite (proj2 (Z.eqb_neq (Proc.d_trash u) NULL)), (proj2 (Z.eqb_neq (baddr x + HEADER_SIZE) NULL)) by (done || unfold HEADER_SIZE; lia). cbn [orb].
  rewrite Et, (proj2 (Z.leb_le _ _)) by done. cbv zeta. rewrite Hr. change (NULL =? NULL) with true. cbn match. apply wp_ret. by destruct u.
Qed.
