(* ===== verification/Socket.v ===== *)
(** How a client tells the daemon which functions it implements
    ([libsrpc_unix_socket.c]): complete sends and reads over a stream socket, and the
    registration message. *)
From S2P Require Import Prelude Machine Bytes World Rpc RpcSpec Registry RegistrySpec Proc ProcSpec.
From S2P Require ListSpin MpmcQueue.

(** ** Complete transfers *)

(** What one [send] or [read] answers: up to so many bytes moved (fewer if there are
    fewer), [EINTR], or another error. *)
Inductive io_result := IoBytes (n : nat) | IoIntr | IoError.

(** The result and the stream afterwards; [None]: the call waits. *)
Fixpoint send_full (rs : list io_result) (buf wire : list Z) : option (Z * list Z) :=
  match buf with
  | [] => Some (0, wire)
  | _ =>
      match rs with
      | [] => None
      | IoIntr :: rs => send_full rs buf wire
      | IoError :: _ => Some (-1, wire)
      | IoBytes n :: rs => send_full rs (drop n buf) (wire ++ take n buf)
      end
  end.
(** The result, the bytes stored and the stream afterwards. A [read] that moves no
    byte is the end of the stream; one on an empty stream waits. *)
Fixpoint read_full (rs : list io_result) (len : nat) (got wire : list Z) : option (Z * list Z * list Z) :=
  match len with
  | O => Some (0, got, wire)
  | _ =>
      match rs with
      | [] => None
      | IoIntr :: rs => read_full rs len got wire
      | IoError :: _ => Some (-1, got, wire)
      | IoBytes O :: _ => Some (-1, got, wire)
      | IoBytes n :: rs =>
          let chunk := take (Nat.min n len) wire in
          match chunk with
          | [] => None
          | _ => read_full rs (len - length chunk) (got ++ chunk) (drop (length chunk) wire)
          end
      end
  end.

(** ** The registration message *)

(** [regfn_msg_t], its size and the offsets of its fields; [sRPC_BmpFuncSz] is 1. *)
Record regfn_msg := RegfnMsg { m_size : Z; m_sign : list Z; m_bmp : list Z }.
Definition sizeof_regfn_msg := 48%nat.
Definition sizeof_sign := 32%nat.
Definition offsetof_sign := 4%nat.
Definition offsetof_bmp := 40%nat.
Definition msg_bytes (m : regfn_msg) : list Z :=
  word_bytes 4 (m_size m) ++ m_sign m ++ replicate 4 0 ++ word_bytes 8 (default 0 (m_bmp m !! 0%nat)).
Definition msg_of_bytes (b : list Z) : regfn_msg :=
  RegfnMsg (word_at 4 0 b) (slice offsetof_sign sizeof_sign b) [word_at 8 offsetof_bmp b].

(** C strings are given without their terminator. *)
Definition strncpy (src : list Z) (n : nat) : list Z := take n src ++ replicate (n - length src) 0.
Fixpoint strncmp_eq (n : nat) (a b : list Z) : bool :=
  match n with
  | O => true
  | S n =>
      let x := List.hd 0 a in
      let y := List.hd 0 b in
      if negb (x =? y) then false
      else if x =? 0 then true
      else strncmp_eq n (List.tl a) (List.tl b)
  end.

Section registration.
Context (libsrpc_daemon_name : list Z).

Definition send_msg_regfn (rs : list io_result) (srpc_fn : list (Z * Z)) (wire : list Z) : option (Z * list Z) :=
  let sign := strncpy libsrpc_daemon_name (sizeof_sign - 1) ++ [0] in
  send_full rs (msg_bytes (RegfnMsg (Z.of_nat sizeof_regfn_msg) sign (libsrpc_bmp_func_set srpc_fn [0]))) wire.

Definition read_msg_regfn (fuel : nat) (garbage : Z -> nat -> list Z) (rs : list io_result) (wire : list Z) (pid : Z) : WM Z :=
  proc ← libsrpc_proc_get fuel pid;
  if proc =? NULL then mret (-1)
  else
    match read_full rs sizeof_regfn_msg [] wire with
    | None => hang
    | Some (rc, bytes, _) =>
        if rc <? 0 then mret (-1)
        else
          let msg := msg_of_bytes bytes in
          if negb (m_size msg =? Z.of_nat sizeof_regfn_msg) then mret (-1)
          else if negb (strncmp_eq sizeof_sign (m_sign msg) libsrpc_daemon_name) then mret (-1)
          else libsrpc_reg_func_form_bmp garbage proc (m_bmp msg) ;; mret 0
    end.
End registration.

(** ** Transfers are complete *)

(** Results of a transfer of [n] bytes that never fails and ends. *)
Fixpoint delivers (n : nat) (rs : list io_result) : Prop :=
  match n with
  | O => True
  | S _ =>
      match rs with
      | [] => False
      | IoIntr :: rs => delivers n rs
      | IoError :: _ => False
      | IoBytes k :: rs => (0 < k)%nat /\ delivers (n - k) rs
      end
  end.

Lemma send_full_delivers rs : forall buf wire, delivers (length buf) rs -> send_full rs buf wire = Some (0, wire ++ buf).
Proof.
  induction rs as [|r rs IH]; intros buf wire H; (destruct buf as [|b buf]; [by rewrite app_nil_r|]); [done|].
  destruct r as [k| |]; cbn [send_full].
  - cbn [delivers length] in H. destruct H as [Hk H]. rewrite IH.
    + by rewrite <- app_assoc, take_drop.
    + by rewrite length_drop.
  - by apply IH.
  - done.
Qed.
Lemma read_full_delivers rs : forall buf got rest, delivers (length buf) rs ->
  read_full rs (length buf) got (buf ++ rest) = Some (0, got ++ buf, rest).
Proof.
  induction rs as [|r rs IH]; intros buf got rest H; (destruct buf as [|b buf]; [by rewrite app_nil_r|]); [done|].
  destruct r as [k| |]; [|by apply (IH (b :: buf))|done]. cbn [delivers length] in H. destruct H as [Hk H].
  destruct k as [|k]; [lia|]. set (v := b :: buf) in *. change (S (length buf)) with (length v) in H.
  assert (take (Nat.min (S k) (length v)) (v ++ rest) = take (S k) v) as Et.
  { rewrite take_app_le by lia. destruct (decide (S k <= length v)%nat); [by rewrite Nat.min_l by lia|].
    rewrite Nat.min_r by lia. by rewrite !take_ge by lia. }
  assert (read_full (IoBytes (S k) :: rs) (length v) got (v ++ rest) =
    read_full rs (length v - length (take (S k) v)) (got ++ take (S k) v) (drop (length (take (S k) v)) (v ++ rest))) as ->.
  { cbn [read_full]. rewrite Et. reflexivity. }
  assert (length v - length (take (S k) v) = length (drop (S k) v))%nat as -> by (rewrite length_take, length_drop; lia).
  assert (drop (length (take (S k) v)) (v ++ rest) = drop (S k) v ++ rest) as ->.
  { rewrite <- (take_drop (S k) v) at 2. rewrite <- app_assoc. apply drop_app_length. }
  rewrite IH by (by rewrite length_drop). by rewrite <- app_assoc, take_drop.
Qed.

(** ** The message survives the transfer *)

Lemma word_at_app n v a b : length a = n -> 0 <= v < 2 ^ (8 * Z.of_nat n) -> a = word_bytes n v -> word_at n 0 (a ++ b) = v.
Proof.
  intros Hl Hv ->. unfold word_at, slice. rewrite drop_0. rewrite take_app_length' by done.
  unfold word_bytes. rewrite little_endian_to_Z_to_little_endian by lia. apply Z.mod_small. by replace (Z.of_nat n * 8) with (8 * Z.of_nat n) by lia.
Qed.
Lemma word_at_shift n off a b : length a = off -> word_at n off (a ++ b) = word_at n 0 b.
Proof. intros <-. unfold word_at, slice. by rewrite drop_app_length. Qed.

Lemma length_strncpy src n : length (strncpy src n) = n.
Proof. unfold strncpy. rewrite length_app, length_take, length_replicate. lia. Qed.

Lemma msg_roundtrip m : 0 <= m_size m < 2 ^ 32 -> length (m_sign m) = sizeof_sign ->
  (exists y, m_bmp m = [y] /\ 0 <= y < 2 ^ 64) ->
  msg_of_bytes (msg_bytes m) = m /\ length (msg_bytes m) = sizeof_regfn_msg.
Proof.
  intros Hs Hl (y & Ey & Hy). pose proof (length_word_bytes 4 (m_size m)) as L4. pose proof (length_word_bytes 8 y) as L8.
  unfold msg_of_bytes, msg_bytes. rewrite Ey. change (default 0 ([y] !! 0%nat)) with y. split.
  - destruct m as [sz sg bm]. cbn [m_size m_sign m_bmp] in *. subst bm. f_equal.
    + by apply word_at_app.
    + unfold slice. rewrite drop_app_length' by (by rewrite L4). by apply take_app_length'.
    + f_equal. rewrite !app_assoc, word_at_shift; [|rewrite !length_app, length_replicate, L4, Hl; done].
      rewrite <- (app_nil_r (word_bytes 8 y)). by apply word_at_app.
  - rewrite !length_app, length_replicate, L4, L8, Hl. done.
Qed.

(** A name of at most 31 characters passes the comparison, a longer one never does:
    the copy is cut where the comparison still looks. *)
Lemma strncmp_self name : (0 : Z) ∉ name -> forall n, (length name < n)%nat ->
  strncmp_eq n (strncpy name (n - 1) ++ [0]) name = true.
Proof.
  intros H. unfold strncpy. induction name as [|c name IH]; intros n Hn; (destruct n as [|n]; [cbn in Hn; lia|]).
  - cbn [strncmp_eq]. replace (S n - 1)%nat with n by lia. rewrite take_nil. cbn [app length]. rewrite Nat.sub_0_r.
    by destruct n.
  - apply not_elem_of_cons in H as [Hc H]. destruct n as [|n]; [cbn in Hn; lia|].
    replace (S (S n) - 1)%nat with (S n) by lia. cbn [take app length strncmp_eq List.hd List.tl].
    rewrite Z.eqb_refl. cbn [negb]. rewrite (proj2 (Z.eqb_neq c 0)) by congruence.
    specialize (IH H (S n) ltac:(cbn in Hn; lia)). replace (S n - 1)%nat with n in IH by lia.
    replace (S n - S (length name))%nat with (n - length name)%nat by lia. exact IH.
Qed.
Lemma strncmp_long n : forall name, (0 : Z) ∉ name -> (S n <= length name)%nat ->
  strncmp_eq (S n) (strncpy name n ++ [0]) name = false.
Proof.
  unfold strncpy. induction n as [|n IH]; intros name H Hl; (destruct name as [|c name]; [cbn in Hl; lia|]);
    apply not_elem_of_cons in H as [Hc H].
  - rewrite take_0. cbn [app length Nat.sub replicate]. unfold strncmp_eq. cbn [List.hd].
    by rewrite (proj2 (Z.eqb_neq 0 c)) by done.
  - remember (S n) as n1. cbn [strncmp_eq]. subst n1. cbn [take app length List.hd List.tl]. rewrite Z.eqb_refl. cbn [negb].
    rewrite (proj2 (Z.eqb_neq c 0)) by congruence. apply IH; [done|]. cbn in Hl. lia.
Qed.

Lemma bmp_word tab : forall i y, 0 <= y < 2 ^ 64 -> exists y', bmp_bits tab i [y] = [y'] /\ 0 <= y' < 2 ^ 64.
Proof.
  induction tab as [|[a b] tab IH]; intros i y Hy; cbn [bmp_bits]; [by exists y|].
  destruct (negb (a =? b)); [|by apply IH].
  destruct (Z.to_nat (i / 64)); cbn [alter list_alter]; [|by apply IH]. apply IH.
  pose proof (u64_range (Z.shiftl 1 (i mod 64))). set (x := u64 _) in *. split; [apply Z.lor_nonneg; lia|].
  apply Z.log2_lt_cancel. destruct (decide (y = 0)) as [->|]; [rewrite Z.lor_0_l|].
  - destruct (decide (x = 0)) as [->|]; [done|]. rewrite Z.log2_pow2 by done. apply Z.log2_lt_pow2; lia.
  - rewrite Z.log2_lor, Z.log2_pow2 by lia. apply Z.max_lub_lt; [apply Z.log2_lt_pow2; lia|].
    destruct (decide (x = 0)) as [->|]; [done|]. apply Z.log2_lt_pow2; lia.
Qed.

(** What the daemon does with a message that arrives whole. *)
Lemma registration_message name tab rs1 rs2 fuel garbage pid p w : (0 : Z) ∉ name ->
  delivers sizeof_regfn_msg rs1 -> delivers sizeof_regfn_msg rs2 ->
  libsrpc_proc_get fuel pid w = Ret p w -> p <> NULL ->
  exists wire, send_msg_regfn name rs1 tab [] = Some (0, wire) /\
    read_msg_regfn name fuel garbage rs2 wire pid w =
      (if (length name <? 32)%nat then libsrpc_reg_func_form_bmp garbage p (libsrpc_bmp_func_set tab [0]) ;; mret 0 else mret (-1)) w.
Proof.
  intros Hn H1 H2 Hp Hnn. unfold send_msg_regfn. set (sign := strncpy name (sizeof_sign - 1) ++ [0]).
  set (m := RegfnMsg _ sign _). destruct (bmp_word tab 0 0 ltac:(lia)) as (y & Ey & Hy).
  assert (length sign = sizeof_sign) as Hl by (unfold sign; by rewrite length_app, length_strncpy).
  destruct (msg_roundtrip m) as [Hm Hlen]; [done|done|by exists y|]. exists (msg_bytes m). split.
  - rewrite send_full_delivers; [done|by rewrite Hlen].
  - unfold read_msg_regfn. rewrite (bind_ret _ _ _ _ _ Hp), (proj2 (Z.eqb_neq p NULL)) by done.
    assert (read_full rs2 sizeof_regfn_msg [] (msg_bytes m) = Some (0, msg_bytes m, [])) as ->.
    { pose proof (read_full_delivers rs2 (msg_bytes m) [] [] ltac:(by rewrite Hlen)) as Er. by rewrite Hlen, app_nil_r in Er. }
    change (0 <? 0) with false. cbv beta iota zeta. rewrite Hm. cbn [m_size m]. rewrite Z.eqb_refl. cbn [negb].
    destruct (Nat.ltb_spec (length name) 32).
    + change (strncmp_eq sizeof_sign (m_sign m) name) with (strncmp_eq 32 (strncpy name (32 - 1) ++ [0]) name).
      by rewrite (strncmp_self name Hn 32) by lia.
    + change (strncmp_eq sizeof_sign (m_sign m) name) with (strncmp_eq 32 (strncpy name 31 ++ [0]) name).
      by rewrite (strncmp_long 31 name Hn) by lia.
Qed.

(** From the client's table to the daemon's registry: whatever way the kernel cuts the
    48 bytes of the message into sends and reads, and however often it interrupts
    them, the daemon registers the client's process for exactly the functions whose
    local and remote addresses differ in the client. The name of the daemon must have
    less than 32 characters. *)
Theorem client_registration name tab rs1 rs2 fuel garbage pid p w : (0 : Z) ∉ name -> (length name < 32)%nat ->
  delivers sizeof_regfn_msg rs1 -> delivers sizeof_regfn_msg rs2 ->
  libsrpc_proc_get fuel pid w = Ret p w -> p <> NULL ->
  mapped w -> registry_ok w -> length tab = Z.to_nat sRPC_FNNUM -> (forall k, overrides tab k = true -> room w k) ->
  exists wire w', send_msg_regfn name rs1 tab [] = Some (0, wire) /\
    read_msg_regfn name fuel garbage rs2 wire pid w = Ret 0 w' /\ registry_ok w' /\
    forall k, if overrides tab k then registered w' k ≡ₚ p :: registered w k else registered w' k = registered w k.
Proof.
  intros Hn Hl H1 H2 Hp Hnn Hm Hok Ht Hroom.
  destruct (registration_message name tab rs1 rs2 fuel garbage pid p w Hn H1 H2 Hp Hnn) as (wire & E1 & E2).
  destruct (registration_run garbage w p tab Hm Hok Hnn Ht Hroom) as (w' & E & Hok' & _ & Hc).
  exists wire, w'. split; [done|]. split; [|split; [done|]].
  - rewrite E2, (proj2 (Nat.ltb_lt _ _) Hl). by rewrite (bind_ret _ _ _ _ _ E).
  - intros k. specialize (Hc k). destruct (overrides tab k); [by apply took_registered|]. unfold registered. by rewrite Hc.
Qed.

(** A daemon whose name is longer rejects every registration. *)
Lemma long_name_rejected name tab rs1 rs2 fuel garbage pid p w : (0 : Z) ∉ name -> (32 <= length name)%nat ->
  delivers sizeof_regfn_msg rs1 -> delivers sizeof_regfn_msg rs2 ->
  libsrpc_proc_get fuel pid w = Ret p w -> p <> NULL ->
  exists wire, send_msg_regfn name rs1 tab [] = Some (0, wire) /\ read_msg_regfn name fuel garbage rs2 wire pid w = Ret (-1) w.
Proof.
  intros Hn Hl H1 H2 Hp Hnn.
  destruct (registration_message name tab rs1 rs2 fuel garbage pid p w Hn H1 H2 Hp Hnn) as (wire & E1 & E2).
  exists wire. split; [done|]. by rewrite E2, (proj2 (Nat.ltb_ge _ _) Hl).
Qed.

(** ** A concrete registration

    The process with pid 500 registers with the demonstration registry, whose process
    list has it at 900; the message arrives in pieces of 4 and 7 bytes. *)
Definition demo_server : world :=
  set_lists (ListSpin.LStore {[ 900 := ListSpin.Node NULL demo_head ]} {[ demo_head := ListSpin.LHead 900 1 ]})
    (set_procs {[ 900 := Proc LIBSRPC_PROC_SIGN PROC_STATUS_INIT 2 500 1 0 0 (MpmcQueue.Queue 0 0 ∅ ∅ 0) [NULL] ]} demo_registry).
Definition demo_name : list Z := [115; 105; 109; 112; 108; 101].
Lemma registry_same w w' : ebs w' = ebs w -> funcs w' = funcs w -> registry_ok w -> registry_ok w'.
Proof.
  intros Ee Ef [[H1 H2 H3 H4] H5]. split; [split|].
  - by rewrite Ef.
  - intros k f. rewrite Ef. apply H2.
  - intros k f. rewrite Ef. unfold ext_ok. rewrite Ee. apply H3.
  - intros j k f g. rewrite Ef. apply H4.
  - intros k n. unfold numf, registered, cells, usable. rewrite Ef, Ee. apply H5.
Qed.
Lemma demo_server_same : ebs demo_server = ebs demo_registry /\ funcs demo_server = funcs demo_registry.
Proof.
  assert (forall v1 v2 w, ebs (set_lists v1 (set_procs v2 w)) = ebs w) as He by reflexivity.
  assert (forall v1 v2 w, funcs (set_lists v1 (set_procs v2 w)) = funcs w) as Hf by reflexivity.
  unfold demo_server. by rewrite He, Hf.
Qed.
Lemma demo_server_ok : registry_ok demo_server.
Proof. destruct demo_server_same. by eapply registry_same, demo_registry_ok. Qed.
Lemma demo_server_room k : overrides demo_table k = true -> room demo_server k.
Proof. intros H%demo_room. destruct demo_server_same as [Ee Ef]. unfold room. by rewrite Ee, Ef. Qed.
Lemma demo_server_get : libsrpc_proc_get 5 500 demo_server = Ret 900 demo_server.
Proof.
  rewrite (proc_get_run demo_server [900]); [reflexivity|split; discriminate|split; [split|]|cbn [length]; lia].
  - eexists. reflexivity.
  - split; [reflexivity|]. split; [discriminate|]. exists NULL. split; reflexivity.
  - apply NoDup_singleton.
  - intros n x E _. cbn in E. apply lookup_singleton_Some in E as [<- _]. apply list_elem_of_here.
  - intros p ->%list_elem_of_singleton. eexists. reflexivity.
Qed.
Lemma client_registration_witness : exists wire w',
  send_msg_regfn demo_name (IoIntr :: replicate 12 (IoBytes 4)) demo_table [] = Some (0, wire) /\
  read_msg_regfn demo_name 5 no_garbage (replicate 7 (IoBytes 7)) wire 500 demo_server = Ret 0 w' /\
  registered w' 1 ≡ₚ 900 :: registered demo_server 1.
Proof.
  destruct (client_registration demo_name demo_table (IoIntr :: replicate 12 (IoBytes 4)) (replicate 7 (IoBytes 7)) 5 no_garbage
    500 900 demo_server) as (wire & w' & E1 & E2 & _ & H).
  - apply (bool_decide_unpack _). exact I.
  - vm_compute. lia.
  - vm_compute. intuition lia.
  - vm_compute. intuition lia.
  - exact demo_server_get.
  - discriminate.
  - split; discriminate.
  - exact demo_server_ok.
  - reflexivity.
  - exact demo_server_room.
  - exists wire, w'. split; [exact E1|]. split; [exact E2|]. exact (H 1%nat).
Defined.
