(* ===== verification/Departure.v ===== *)
(** The destruction of a process ([libsrpc_proc_destroy] of [libsrpc_proc.c]) as a whole:
    the registry, the list of processes, the queue of requests, its memory, and the block
    of the process itself. *)
From S2P Require Import Prelude Machine Errno Request TlsfTypes TlsfBul TlsfHeap TlsfAlloc TlsfApi TlsfFacts TlsfHoare TlsfOwners TlsfOwnership TlsfSpec TlsfLists TlsfTiling TlsfBlocks TlsfMalloc TlsfFree TlsfPool TlsfWalk ProcMemory World Rpc RpcSpec RpcCall Trash Gc GcSpec Collection CollectionSpec Deferred.
From S2P Require RequestSpec Shmem Proc ProcSpec ListSpin Registry RegistrySpec RegistryGrowth Socket MpmcQueue MpmcAlone.

(** ** The requests that wait in its queue *)

(** What happens to a request in the queue of [p]: its slot for [p], if nobody has decided
    it, says that the call was cancelled, and its caller is woken. *)
Definition cancelled (p uid : Z) (r : request) : request :=
  if libsrpc_req_is_corrupted (Some r) None then r
  else
    let resp := own_slot libsrpc_req_get_response (Z.to_nat (retnum r)) 0 r p uid None in
    if negb (is_own_slot r p uid resp) then r
    else
      match resp with
      | None => r
      | Some o =>
          let r' := (cas_resp_rc o 0 (rc_make RC_ST_ERROR (- ECANCELLED)) r).2 in
          if sign r =? LIBSRPC_REQ_SIGN then set_sem (sem_wakeup r' + 1) r' else r'
      end.
Fixpoint cancel_all (p uid : Z) (l : list Z) (R : gmap Z request) : gmap Z request :=
  match l with
  | [] => R
  | a :: l => cancel_all p uid l (alter (cancelled p uid) a R)
  end.

Lemma set_reqs_same w : set_reqs (reqs w) w = w.
Proof. by destruct w. Qed.
Lemma cancel_one_run p a w x r : a <> NULL -> reqs w !! a = Some r -> procs w !! p = Some x ->
  RpcCall.clear_one p a w = Ret tt (set_reqs (alter (cancelled p (proc_uid x)) a (reqs w)) w).
Proof.
  intros Ha Er Ex. unfold RpcCall.clear_one. assert (req_or_null a w = Ret (Some r) w) as E.
  { unfold req_or_null. rewrite (proj2 (Z.eqb_neq a NULL)) by done. by rewrite (bind_ret _ _ _ _ _ (get_req_run _ _ _ Er)). }
  rewrite (bind_ret _ _ _ _ _ E). assert (forall f, f r = r -> Ret tt w = Ret tt (set_reqs (alter f a (reqs w)) w)) as Hsame.
  { intros f Hf. rewrite alter_id, set_reqs_same; [done|]. intros r' Er'. rewrite Er in Er'. by injection Er' as <-. }
  destruct (libsrpc_req_is_corrupted (Some r) None) eqn:Ec; [apply Hsame; unfold cancelled; by rewrite Ec|].
  rewrite (bind_ret _ _ _ _ _ (get_proc_run _ _ _ Ex)). cbv zeta.
  destruct (is_own_slot r p (proc_uid x) (own_slot libsrpc_req_get_response (Z.to_nat (retnum r)) 0 r p (proc_uid x) None)) eqn:Eo; cbn [negb];
    [|apply Hsame; unfold cancelled; by rewrite Ec, Eo].
  destruct (own_slot libsrpc_req_get_response _ _ _ _ _ _) as [o|] eqn:Es; [|done].
  assert (forall f, alter f a (reqs w) = <[a := f r]> (reqs w)) as Ha'.
  { intros f. apply map_eq. intros b. rewrite lookup_alter, lookup_insert. destruct (decide (a = b)) as [<-|]; [by rewrite Er|done]. }
  rewrite Ha'. unfold cancelled. rewrite Ec, Es, Eo. cbn [negb]. set (r' := (cas_resp_rc _ _ _ _).2).
  rewrite (bind_ret (put_req a r') _ tt _ (set_reqs (<[a := r']> (reqs w)) w)) by done.
  destruct (sign r =? LIBSRPC_REQ_SIGN); [|done]. unfold sem_post_req. rewrite (upd_req_run a _ r') by apply lookup_insert_eq.
  cbn [reqs set_reqs]. by rewrite insert_insert_eq.
Qed.

Lemma cancel_all_some p uid l : forall R a, is_Some (R !! a) -> is_Some (cancel_all p uid l R !! a).
Proof.
  induction l as [|b l IH]; intros R a Ha; [done|]. apply IH. rewrite lookup_alter. destruct (decide (b = a)) as [<-|]; [|done]. by destruct Ha as [r ->]; eexists.
Qed.
Section queue.
Context (k : Z) (Hk : 1 <= k <= 61).

Lemma queue_clear_run p : forall its n w x, (length its <= n)%nat -> procs w !! p = Some x -> MpmcAlone.represents k (p_queue x) its ->
  (forall a, a ∈ its -> a <> NULL /\ is_Some (reqs w !! a)) ->
  exists q, libsrpc_thread_rcv_queue_clear (2 ^ k) n p w =
      Ret tt (set_procs (<[p := set_p_queue q x]> (procs w)) (set_reqs (cancel_all p (proc_uid x) its (reqs w)) w)) /\
    MpmcAlone.represents k q [].
Proof.
  assert (5 <= queue_fuel (2 ^ k))%nat as Hfuel.
  { unfold queue_fuel. pose proof (Z.pow_pos_nonneg 2 k ltac:(lia) ltac:(lia)). lia. }
  induction its as [|a its IH]; intros n w x Hn Ex Hq Hits.
  - destruct (MpmcAlone.dequeue_alone k Hk (p_queue x) [] _ Hq Hfuel) as (q & E & Hq'). exists q. split; [|exact Hq'].
    assert (queue_try_dequeue (2 ^ k) p w = Ret (MpmcQueue.LF_QUEUE_EMPTY, NULL) (set_procs (<[p := set_p_queue q x]> (procs w)) w)) as ED.
    { unfold queue_try_dequeue. rewrite (bind_ret _ _ _ _ _ (get_proc_run _ _ _ Ex)). by rewrite E. }
    cbn [cancel_all]. rewrite set_reqs_same. destruct n; cbn [libsrpc_thread_rcv_queue_clear]; by rewrite (bind_ret _ _ _ _ _ ED).
  - destruct n as [|n]; [cbn in Hn; lia|]. destruct (MpmcAlone.dequeue_alone k Hk (p_queue x) (a :: its) _ Hq Hfuel) as (q & E & Hq').
    assert (queue_try_dequeue (2 ^ k) p w = Ret (MpmcQueue.LF_QUEUE_OK, a) (set_procs (<[p := set_p_queue q x]> (procs w)) w)) as ED.
    { unfold queue_try_dequeue. rewrite (bind_ret _ _ _ _ _ (get_proc_run _ _ _ Ex)). by rewrite E. }
    cbn [libsrpc_thread_rcv_queue_clear]. rewrite (bind_ret _ _ _ _ _ ED). rewrite bool_decide_eq_true_2 by done. cbn [negb].
    destruct (Hits a (list_elem_of_here _ _)) as [Ha [r Er]]. set (w1 := set_procs _ w).
    rewrite (bind_ret _ _ _ _ _ (cancel_one_run p a w1 (set_p_queue q x) r Ha Er (lookup_insert_eq _ _ _))).
    destruct (IH n (set_reqs (alter (cancelled p (proc_uid (set_p_queue q x))) a (reqs w1)) w1) (set_p_queue q x)) as (q' & E' & Hq2).
    + cbn in Hn. lia.
    + apply lookup_insert_eq.
    + exact Hq'.
    + intros b Hb. destruct (Hits b (list_elem_of_further _ _ _ Hb)) as [? Hs]. split; [done|].
      cbn [reqs set_reqs]. rewrite lookup_alter. destruct (decide (a = b)) as [<-|]; [by apply fmap_is_Some|done].
    + exists q'. split; [|exact Hq2]. rewrite E'. cbn [procs set_procs set_reqs reqs w1 proc_uid set_p_queue cancel_all]. by rewrite insert_insert_eq.
Qed.
End queue.

(** ** Single steps *)

(** Removal from a list touches the nodes of that list only. *)
Lemma unlinked_fresh s h l1 n l2 wr m : ListSpin.linked s h (l1 ++ n :: l2) -> ListSpin.nodes s !! m = None -> ListSpin.nodes (ListSpin.unlinked s h n wr l1 l2) !! m = None.
Proof.
  intros Hl Hm. assert (forall a, a ∈ l1 ++ n :: l2 -> a <> m) as Hne.
  { intros a Ha ->. destruct (ListSpin.chain_lookup _ _ _ _ m (ListSpin.lk_chain _ _ _ Hl) Ha) as [nx E]. congruence. }
  unfold ListSpin.unlinked. cbn [ListSpin.nodes]. rewrite lookup_insert_ne by (apply Hne, elem_of_app; right; apply list_elem_of_here).
  destruct (ListSpin.last_app_split l1) as [->|(k1 & y & ->)]; [done|]. rewrite List.last_last.
  assert (y <> m) as Hy by (apply Hne; rewrite <- app_assoc; apply elem_of_app; right; apply list_elem_of_here).
  destruct y; [done|by rewrite lookup_insert_ne..].
Qed.
Lemma list_remove_run s ls h l n fuel : ListSpin.lists_ok s ls -> ls !! h = Some l -> n ∈ l -> (length l <= fuel)%nat ->
  exists s', ListSpin.libsrpc_list_remove fuel n s = Ret ListSpin.LIST_OK s' /\ ListSpin.lists_ok s' (<[h := filter (fun m => m <> n) l]> ls) /\
    (forall m, ListSpin.nodes s !! m = None -> ListSpin.nodes s' !! m = None) /\
    forall m y, ListSpin.nodes s' !! m = Some y -> ListSpin.node_head y <> NULL -> ListSpin.node_head y = h \/ ListSpin.nodes s !! m = Some y.
Proof.
  intros Hok El Hin Hf. destruct (Hok h l El) as [Hh Hl]. pose proof (ListSpin.lk_nodup _ _ _ Hl) as Hd.
  assert (n <> NULL) as Hn by (eapply chain_nonnull; [apply (ListSpin.lk_chain _ _ _ Hl)|done]).
  destruct (ListSpin.chain_lookup _ _ _ _ n (ListSpin.lk_chain _ _ _ Hl) Hin) as [nx En]. destruct (ListSpin.lk_head _ _ _ Hl) as [wr Eh].
  apply list_elem_of_split in Hin as (l1 & l2 & ->). exists (ListSpin.unlinked s h n wr l1 l2). split; [|split; [|split]].
  - unfold ListSpin.libsrpc_list_remove. rewrite (proj2 (Z.eqb_neq n 0)) by done. unfold mbind, M_bind, ListSpin.get_node. rewrite En. cbn [ListSpin.node_head].
    rewrite (proj2 (Z.eqb_neq h 0)) by done. by apply ListSpin.remove_locked_exec.
  - rewrite filter_out by done. by apply ListSpin.lists_ok_remove.
  - intros m. by apply unlinked_fresh.
  - unfold ListSpin.unlinked. cbn [ListSpin.nodes]. intros m y E Hy. apply lookup_insert_Some in E as [[_ <-]|[_ E]]; [done|].
    destruct (List.last l1 NULL); [by right|..]; (apply lookup_insert_Some in E as [[_ <-]|[_ E]]; [by left|by right]).
Qed.

(** Owners and contents are what others look at. *)
Lemma spares_same uid s bs s' : (forall p, p ∈ used_of bs -> uids (mem s') p.1 = uids (mem s) p.1) ->
  (forall p o, p ∈ used_of bs -> HEADER_SIZE <= o < p.2 -> rdm (mem s') (p.1 + o) = rdm (mem s) (p.1 + o)) -> spares_others uid s bs s' bs.
Proof.
  intros Hu Hp y v Hy Hf Hv H0 Hne. assert (pair_of y ∈ used_of bs) as Hin by (apply used_of_in; by exists y).
  exists y. do 4 (split; [done|]). split; [change (baddr y) with (pair_of y).1; by rewrite Hu|]. intros o Ho. by apply (Hp (pair_of y)).
Qed.

(** [tlsf_setdc] on a pool at rest. *)
Lemma work_of_pool s bs : pool_ok s bs -> at_work (set_mutex (Mutex (self (thr s)) 1 false false) s) bs.
Proof.
  intros ((Hg & Hm & Ht & Hx & Hs) & Ha & Hpg & Hset & F & Hh). split; try done. exists F. eapply heap_ok_same; [..|exact Hh]; done.
Qed.
Lemma setdc_run s l1 x l2 h : pool_ok s (l1 ++ x :: l2) -> bfree x = false -> h <> 0 ->
  tlsf_setdc h (baddr x + HEADER_SIZE) s = Ret 0 (set_mem (marked_mem x (mem s)) s).
Proof.
  intros Hp Hf Hh. pose proof (in_use_live s _ x Hp (in_split l1 l2 x) Hf) as Hl. destruct Hp as ((Hg & Hm & Ht & Hx & Hs) & Ha & _).
  cut (wp (tlsf_setdc h (baddr x + HEADER_SIZE)) never (fun rc s' => rc = 0 /\ s' = set_mem (marked_mem x (mem s)) s) s).
  { intros H. apply wp_never in H as (rc & s' & E & -> & ->). done. }
  apply wp_bind, wp_dc_precheck; [done..|]. destruct Hl as (Hhd & _).
  apply wp_bind, wp_load_fld; [done..|]. apply wp_bind, wp_store_fld; [done..|by apply dc_word_range|]. by apply wp_ret.
Qed.
Lemma setdc_facts s l1 x l2 : pool_ok s (l1 ++ x :: l2) -> bfree x = false -> let m' := marked_mem x (mem s) in
  sig_dc_flag (word_of m' (pair_of x)) = true /\
  forall p, p ∈ used_of (l1 ++ x :: l2) -> uids m' p.1 = uids (mem s) p.1 /\ (sig_dc_flag (word_of (mem s) p) = true -> sig_dc_flag (word_of m' p) = true) /\
    forall o, HEADER_SIZE <= o < p.2 -> rdm m' (p.1 + o) = rdm (mem s) (p.1 + o).
Proof.
  intros Hp Hf m'. destruct (marked_pairs _ l1 x l2 (work_of_pool s _ Hp) Hf) as [Ew Ho]. cbn [mem set_mutex] in Ew, Ho. fold m' in Ew, Ho.
  assert (sig_dc_flag (word_of m' (pair_of x)) = true) as Hflag by (rewrite Ew; apply set_dc_word). split; [done|].
  intros p Hin. destruct (Ho p Hin) as (Eu & En & Epl). split; [done|]. split; [|done]. intros Hfl. destruct (decide (p = pair_of x)) as [->|Hne]; [done|by rewrite En].
Qed.
Lemma free_dc_world w l1 x l2 : RegistrySpec.mapped w -> poolptr_of (shm_ptr (loc w)) <> 0 -> pool_ok (pool w) (l1 ++ x :: l2) -> bfree x = false ->
  Shmem.libsrpc_shmem_free_dc (baddr x + HEADER_SIZE) w =
    Ret tt (set_loc (set_libsrpc_errno 0 (loc w)) (set_pool (set_mem (marked_mem x (mem (pool w))) (pool w)) w)).
Proof.
  intros Hm Hh Hp Hf. unfold Shmem.libsrpc_shmem_free_dc. rewrite with_shm by done. rewrite (proj2 (Z.eqb_neq _ NULL)) by apply Hm.
  rewrite (bind_ret _ _ 0 _ (set_pool (set_mem (marked_mem x (mem (pool w))) (pool w)) w)); [done|].
  unfold lift_pool. by rewrite (setdc_run _ l1 x l2).
Qed.
Lemma free_dc_run w tr l1 x l2 : RegistrySpec.mapped w -> poolptr_of (shm_ptr (loc w)) <> 0 -> pool_ok (pool w) (l1 ++ x :: l2) -> bfree x = false ->
  lift_world (Shmem.libsrpc_shmem_free_dc (baddr x + HEADER_SIZE)) (GWorld w tr) =
    Ret tt (GWorld (set_loc (set_libsrpc_errno 0 (loc w)) (set_pool (set_mem (marked_mem x (mem (pool w))) (pool w)) w)) tr).
Proof. intros Hm Hh Hp Hf. by apply world_run, (free_dc_world w l1 x l2). Qed.
Lemma gc_wakeup_run w : RegistrySpec.mapped w -> exists rc, RpcCall.libsrpc_shm_gc_wakeup w = Ret rc (set_gc_sem (gc_sem w + 1) w).
Proof. intros Hm. eexists. unfold RpcCall.libsrpc_shm_gc_wakeup. rewrite with_shm by done. by rewrite (proj2 (Z.eqb_neq _ NULL)) by apply Hm. Qed.

(** ** The whole destruction *)

Section departure.
Context (k : Z) (fuel : nat) (l : list Z) (rl items : Z -> list Z) (Hk : 1 <= k <= 61).
Context (malloc : trash_store -> Z -> Z) (realloc : trash_store -> Z -> Z -> Z) (garbage : Z -> nat -> list Z) (rounds : nat).
Context (w : world) (tr : trash_store) (ls : gmap Z (list Z)) (T : list Z) (bs : list blk) (p : Z) (x : proc) (l1 : list blk) (xb : blk) (l2 : list blk).
Abbreviation shm := (shm_ptr (loc w)).
Abbreviation uid := (proc_uid x).
Abbreviation others := (filter (fun q => q <> p) l).

(** The segment and the daemon before. *)
Record ready : Prop := Ready {
  rd_segment : segment k fuel l rl items w;
  rd_lists : ListSpin.lists_ok (lists w) ls;
  rd_procs : ls !! proc_head_of shm = Some l;
  rd_reqs : forall q, q ∈ l -> ls !! req_head_of q = Some (rl q) /\ req_head_of q <> proc_head_of shm /\ req_head_of q <> gc_list_of shm;
  rd_waiting : ls !! gc_list_of shm = Some T;
  rd_registry : RegistrySpec.registry_ok w;
  rd_pool : pool_ok (pool w) bs;
  rd_handle : poolptr_of shm <> 0;
  rd_fuel : heap_size (geo (pool w)) / 128 < Z.of_nat fuel;
  rd_rounds : heap_size (geo (pool w)) / 128 < Z.of_nat rounds;
  rd_size : heap_size (geo (pool w)) < 2 ^ 36 }.
(** The process: listed, the only one with its pid, its block owned by somebody else (the
    daemon); its queue and its blocks hold requests that are there. *)
Record leaving : Prop := Leaving {
  lv_in : p ∈ l;
  lv_proc : procs w !! p = Some x;
  lv_only : forall q, q ∈ l -> ProcSpec.pid_of w q = p_pid x -> q = p;
  lv_uid : uid <> 0;
  lv_queue : (length (items p) <= fuel)%nat /\ forall a, a ∈ items p -> a <> NULL /\ is_Some (reqs w !! a);
  lv_requests : forall b, b ∈ requests_of uid (mem (pool w)) bs -> is_Some (reqs w !! ptr_of b);
  lv_block : bs = l1 ++ xb :: l2 /\ bfree xb = false /\ p = baddr xb + HEADER_SIZE;
  lv_owner : exists v, v ∈ uids (mem (pool w)) (baddr xb) /\ v <> 0 /\ v <> uid }.
(** That the daemon has memory for the list it makes when the process holds locks: not a
    promise of the C library, whose [malloc] and [realloc] may answer NULL, but the
    condition under which the list is complete ([Deferred.full_list_forgets] is the other
    case: a block that is neither freed nor listed).  What [malloc] and [realloc] do
    promise is the rest: the block is nobody else's, a moved one too, and uninitialised
    memory has the length asked for. *)
Record library : Prop := Library {
  lb_malloc : forall n, malloc tr n <> NULL /\ tr !! malloc tr n = None /\ ListSpin.nodes (lists w) !! malloc tr n = None;
  lb_realloc : forall ts a n, a <> NULL -> realloc ts a n <> NULL /\ (realloc ts a n = a \/ (ts !! realloc ts a n = None /\ ListSpin.nodes (lists w) !! realloc ts a n = None));
  lb_garbage : forall b n, length (garbage b n) = n }.

(** The process when everything but its memory has been dealt with. *)
Definition left_proc (q : MpmcQueue.lf_mpmc_queue) : proc := set_p_queue q (set_p_status PROC_STATUS_DELETE (set_p_sign 0 x)).
Definition cancelled_reqs : gmap Z request := cancel_all p uid (items p) (reqs w).
Definition holds_locks : bool := uid_locked others rl (set_reqs cancelled_reqs w) uid.

(** The world after. *)
Record departed (w' : world) (tr' : trash_store) (bs' : list blk) : Prop := Departed {
  dp_registry : RegistrySpec.registry_ok w' /\ forall j, RegistrySpec.registered w' j = filter (fun c => c <> p) (RegistrySpec.registered w j);
  dp_segment : segment k fuel others rl items w';
  dp_proc : exists q, procs w' = <[p := left_proc q]> (procs w) /\ MpmcAlone.represents k q [];
  dp_reqs : orphans_destroyed uid (pool w) bs cancelled_reqs (reqs w');
  dp_pool : pool_ok (pool w') bs';
  dp_block : pair_of xb ∈ used_of bs' /\ sig_dc_flag (word_of (mem (pool w')) (pair_of xb)) = true;
  dp_marked : forall b, b ∈ requests_of uid (mem (pool w)) bs -> sig_dc_flag (word_of (mem (pool w')) b) = true;
  dp_spares : spares_others uid (pool w) bs (pool w') bs';
  dp_woken : gc_sem w < gc_sem w';
  dp_memory : if holds_locks
    then used_of bs' = used_of bs /\ exists b t, tr' = <[b := t]> tr /\ left_for w tr uid bs b t /\
      ListSpin.lists_ok (lists w') (<[gc_list_of shm := b :: T]> (<[proc_head_of shm := others]> ls))
    else tr' = tr /\ owned_by uid (mem (pool w')) (used_of bs') = specials_of uid (mem (pool w)) bs /\
      ListSpin.lists_ok (lists w') (<[proc_head_of shm := others]> ls) }.

Context (HR : ready) (HL : leaving).

Lemma get_leaving : Proc.libsrpc_proc_get fuel (p_pid x) w = Ret p w.
Proof.
  destruct HR as [Hseg _ _ _ _ _ _ _ _ _ _], HL as [Hin Ex Honly _ _ _ _ _]. destruct Hseg as [Hm Hl Hf _ Hp _ _].
  assert (ProcSpec.procs_listed w (proc_head_of shm) l) as Hpl by (split; [done|intros q Hq; destruct (Hp q Hq) as (y & Ey & _); by exists y]).
  rewrite (ProcSpec.proc_get_run w l fuel (p_pid x) Hm Hpl Hf). f_equal.
  destruct (ProcSpec.first_some _ l) as [q|] eqn:E.
  - apply ProcSpec.first_some_Some in E as (y & Hy & Ey). destruct (Z.eqb_spec (ProcSpec.pid_of w y) (p_pid x)) as [Eq|]; [|done]. injection Ey as <-. cbn. by apply Honly.
  - rewrite ProcSpec.first_some_None in E. specialize (E p Hin). cbn in E. unfold ProcSpec.pid_of in E. rewrite Ex in E. cbn in E. by rewrite Z.eqb_refl in E.
Qed.

(** Everything up to the question whether the process holds locks. *)
Definition cleaned (w1 : world) (L : ListSpin.list_store) (q : MpmcQueue.lf_mpmc_queue) : world :=
  set_procs (<[p := left_proc q]> (procs w)) (set_reqs cancelled_reqs (set_lists L w1)).
Definition finish (failed : bool) (rc : Z) : GM Z :=
  if failed then mret rc else lift_world (Shmem.libsrpc_shmem_free_dc p) ;; lift_world RpcCall.libsrpc_shm_gc_wakeup ;; mret rc.
Lemma destroy_begins : exists w1 L q, RegistrySpec.registry_ok w1 /\
  (forall j, RegistrySpec.registered w1 j = filter (fun c => c <> p) (RegistrySpec.registered w j)) /\ RegistrySpec.same_rest w w1 /\
  ListSpin.lists_ok L (<[proc_head_of shm := others]> ls) /\ (forall m, ListSpin.nodes (lists w) !! m = None -> ListSpin.nodes L !! m = None) /\
  MpmcAlone.represents k q [] /\ segment k fuel others rl items (cleaned w1 L q) /\
  Proc.libsrpc_proc_destroy (2 ^ k) fuel malloc realloc garbage rounds (p_pid x) (GWorld w tr) =
    ('(failed, rc) ← (if holds_locks then Proc.release_locked fuel malloc realloc garbage rounds shm uid else Proc.release_unlocked fuel realloc garbage rounds shm uid ListSpin.LIST_OK);
     finish failed rc) (GWorld (cleaned w1 L q) tr).
Proof.
  destruct HR as [Hseg Hlok Elp Elr Elg Hreg _ _ _ _ _], HL as [Hin Ex _ _ [Hql Hqr] _ (_ & _ & _) _]. pose proof Hseg as [Hm Hlk Hf Hnn Hpr _ Hrq].
  destruct (RegistrySpec.unreg_run w p Hm Hreg) as (w1 & E1 & Hreg1 & Ec1 & Hrest & _); [by intros ->|]. pose proof Hrest as (R1 & R2 & R3 & R4 & R5 & R6 & R7).
  destruct (Hpr p Hin) as (x0 & Ex0 & Hq0 & _). rewrite Ex in Ex0. injection Ex0 as <-.
  destruct (list_remove_run (lists w) ls _ l p fuel Hlok Elp Hin Hf) as (L & EL & HL' & Hfresh & _).
  set (x2 := set_p_status PROC_STATUS_DELETE (set_p_sign 0 x)). set (w4 := set_lists L (set_procs (<[p := x2]> (procs w1)) w1)).
  destruct (queue_clear_run k Hk p (items p) fuel w4 x2) as (q & EQ & Hq); [done|apply lookup_insert_eq|done|cbn; by rewrite R2|].
  assert (set_procs (<[p := set_p_queue q x2]> (procs w4)) (set_reqs (cancel_all p (proc_uid x2) (items p) (reqs w4)) w4) = cleaned w1 L q) as E5.
  { unfold cleaned, left_proc, cancelled_reqs. cbn [procs reqs w4 set_lists set_procs proc_uid x2 set_p_status set_p_sign]. rewrite insert_insert_eq, R2, R3. reflexivity. }
  rewrite E5 in EQ. exists w1, L, q. split; [done|]. split; [intros j; unfold RegistrySpec.registered; by rewrite Ec1, RegistrySpec.filter_clear|].
  do 4 (split; [done|]). assert (segment k fuel others rl items (cleaned w1 L q)) as Hseg5.
  { assert (forall q', q' ∈ others -> q' ∈ l) as Hsub by (by intros q' [_ ?]%list_elem_of_filter).
    eapply (segment_from k fuel l rl items w others (cleaned w1 L q)); [exact Hseg|done|apply length_filter|cbn; by rewrite R7..| | |exact HL'|apply lookup_insert_eq|].
    - intros q' [Hne Hq']%list_elem_of_filter. cbn. by rewrite lookup_insert_ne.
    - intros q' a Hq' Ha. apply cancel_all_some. destruct (Hrq q' a (Hsub q' Hq') Ha) as [r Er]. by exists r.
    - intros q' Hq'. destruct (Elr q' (Hsub q' Hq')) as (E & Hne & _). by rewrite lookup_insert_ne. }
  split; [done|]. unfold Proc.libsrpc_proc_destroy.
  rewrite (bind_ret _ _ _ _ _ (world_run _ _ tr _ _ get_leaving)), shm_run by done. rewrite (proj2 (Z.eqb_neq p NULL)) by (by intros ->).
  rewrite (bind_ret _ _ _ _ _ (world_run _ _ tr _ _ E1)).
  rewrite (bind_ret _ _ _ _ _ (world_run _ _ tr _ _ (upd_proc_run p w1 x _ ltac:(by rewrite R3)))).
  rewrite (bind_ret _ _ _ _ _ (world_run _ _ tr _ _ (upd_proc_run p _ (set_p_sign 0 x) (set_p_status PROC_STATUS_DELETE) (lookup_insert_eq _ _ _)))).
  cbn [procs set_procs]. rewrite insert_insert_eq. fold x2.
  rewrite (bind_ret _ _ ListSpin.LIST_OK _ (GWorld w4 tr)) by (unfold w4; apply list_run; cbn [lists set_procs]; by rewrite R1).
  rewrite (bind_ret _ _ _ _ _ (world_run _ _ tr _ _ EQ)).
  assert (get_proc p (cleaned w1 L q) = Ret (left_proc q) (cleaned w1 L q)) as EG by (apply get_proc_run, lookup_insert_eq).
  rewrite (bind_ret _ _ _ _ _ (world_run _ _ tr _ _ EG)). change (proc_uid (left_proc q)) with uid.
  rewrite (bind_ret _ _ _ _ _ (world_run _ _ tr _ _ (is_locked_run k fuel others rl items _ uid Hseg5))).
  assert (uid_locked others rl (cleaned w1 L q) uid = holds_locks) as ->.
  { unfold holds_locks, uid_locked. apply existsb_ext_in. intros q' [Hne Hq']%list_elem_of_filter. unfold live_proc. cbn [procs cleaned set_procs set_reqs].
    by rewrite lookup_insert_ne. }
  by destruct holds_locks.
Qed.

(** The end: the block of the process is marked, the collector woken. *)
Definition closed (y : blk) (v : world) : world :=
  set_gc_sem (gc_sem v + 1) (set_loc (set_libsrpc_errno 0 (loc v)) (set_pool (set_mem (marked_mem y (mem (pool v))) (pool v)) v)).
Lemma finish_run v tv k1 y k2 rc : RegistrySpec.mapped v -> poolptr_of (shm_ptr (loc v)) <> 0 -> pool_ok (pool v) (k1 ++ y :: k2) -> bfree y = false -> p = baddr y + HEADER_SIZE ->
  finish false rc (GWorld v tv) = Ret rc (GWorld (closed y v) tv).
Proof.
  intros Hm Hh Hp Hf Ep. unfold finish. rewrite Ep, (bind_ret _ _ _ _ _ (free_dc_run v tv k1 y k2 Hm Hh Hp Hf)).
  set (v1 := set_loc _ _). rewrite (bind_ret _ _ 0 _ (GWorld (set_gc_sem (gc_sem v1 + 1) v1) tv)); [done|].
  apply world_run. unfold RpcCall.libsrpc_shm_gc_wakeup. assert (RegistrySpec.mapped v1) as Hm1 by exact Hm. rewrite with_shm by done.
  by rewrite (proj2 (Z.eqb_neq _ NULL)) by apply Hm1.
Qed.
(** What that leaves of the facts about the pool. *)
Lemma closed_facts v k1 y k2 : pool_ok (pool v) (k1 ++ y :: k2) -> bfree y = false -> pair_of y = pair_of xb -> gc_sem w <= gc_sem v -> let bs' := k1 ++ y :: k2 in
  pool_ok (pool (closed y v)) bs' /\ pair_of xb ∈ used_of bs' /\ sig_dc_flag (word_of (mem (pool (closed y v))) (pair_of xb)) = true /\ gc_sem w < gc_sem (closed y v) /\
  owned_by uid (mem (pool (closed y v))) (used_of bs') = owned_by uid (mem (pool v)) (used_of bs') /\
  (forall b, b ∈ used_of bs' -> sig_dc_flag (word_of (mem (pool v)) b) = true -> sig_dc_flag (word_of (mem (pool (closed y v))) b) = true) /\
  spares_others uid (pool v) bs' (pool (closed y v)) bs'.
Proof.
  intros Hp Hf Ey Hs bs'. destruct (setdc_facts (pool v) k1 y k2 Hp Hf) as [Hflag Ho]. rewrite Ey in Hflag. split; [by apply pool_marked|].
  split; [rewrite <- Ey; by apply pair_in|]. split; [exact Hflag|]. split; [cbn; lia|]. split.
  - apply owned_ext. intros b Hb. by apply Ho.
  - split; [intros b Hb; by apply Ho|]. apply spares_same; [intros b Hb; by apply Ho|]. intros b o Hb. by apply Ho.
Qed.
Lemma segment_closed w1 L q y R n s' L' lt : segment k fuel others rl items (cleaned w1 L q) -> RegistrySpec.same_rest w w1 ->
  (forall a, is_Some (cancelled_reqs !! a) -> is_Some (R !! a)) -> ListSpin.lists_ok L' lt -> lt !! proc_head_of shm = Some others ->
  (forall q', q' ∈ others -> lt !! req_head_of q' = Some (rl q')) ->
  segment k fuel others rl items (closed y (set_lists L' (set_gc_sem n (set_pool s' (set_reqs R (cleaned w1 L q)))))).
Proof.
  intros Hseg (_ & _ & _ & _ & _ & _ & R7) HRq Hok Hph Hrh. eapply (segment_from _ _ _ _ _ _ others _ lt Hseg); try done.
  - intros q' a Hq' Ha. apply HRq. destruct (sg_req _ _ _ _ _ _ Hseg q' a Hq' Ha) as [r Er]. by exists r.
  - cbn. by rewrite R7.
Qed.

Lemma others_requests b : b ∈ requests_of uid (mem (pool w)) bs -> is_Some (cancelled_reqs !! ptr_of b).
Proof. intros Hb. by apply cancel_all_some, (lv_requests HL). Qed.
Lemma destroyed_some s R : orphans_destroyed uid s bs cancelled_reqs R -> forall a, is_Some (cancelled_reqs !! a) -> is_Some (R !! a).
Proof. intros H a Ha. rewrite H. case_decide; [by apply fmap_is_Some|done]. Qed.
Lemma others_lists q : q ∈ others -> (<[proc_head_of shm := others]> ls) !! req_head_of q = Some (rl q) /\ req_head_of q <> gc_list_of shm.
Proof. intros [_ Hq]%list_elem_of_filter. destruct (rd_reqs HR q Hq) as (E & Hne & Hg). by rewrite lookup_insert_ne. Qed.

Lemma destroy_unlocked : holds_locks = false -> exists w' bs',
  Proc.libsrpc_proc_destroy (2 ^ k) fuel malloc realloc garbage rounds (p_pid x) (GWorld w tr) = Ret 0 (GWorld w' tr) /\ departed w' tr bs'.
Proof.
  intros Hlocks. destruct destroy_begins as (w1 & L & q & Hreg & Hcells & Hrest & HLok & _ & Hq & Hseg & ->). rewrite Hlocks. pose proof Hrest as (_ & _ & _ & _ & R5 & R6 & R7).
  set (w5 := cleaned w1 L q) in *. assert (pool w5 = pool w) as E5 by exact R5. pose proof (rd_pool HR) as Hp.
  destruct (free_uid_blocks_done fuel realloc garbage rounds (poolptr_of shm) uid (GWorld w5 tr) bs) as (s' & bs' & R & E & Hp' & [A1 A2 A3] & HRq); cbn [gw]; rewrite ?E5; [exact Hp|exact (rd_handle HR)|exact (lv_uid HL)|exact (rd_fuel HR)|exact (rd_rounds HR)|exact others_requests|].
  cbn [gw trashes] in *. rewrite E5 in *. unfold Proc.release_unlocked.
  set (n := Z.of_nat (length (orphans uid (mem (pool w)) bs))) in *. set (w6 := set_pool s' (set_reqs R w5)) in *.
  assert (RegistrySpec.mapped w6) as Hm by (unfold RegistrySpec.mapped; cbn; rewrite R7; apply (sg_map _ _ _ _ _ _ (rd_segment HR))).
  rewrite (bind_bind_ret _ _ _ _ _ _ E). cbn match. rewrite (bind_bind_ret _ _ _ _ _ _ (wake_run w6 tr n Hm)). set (w7 := set_gc_sem _ w6). rewrite bind_mret.
  destruct (lv_block HL) as (Ebs & Hfx & Epx), (lv_owner HL) as (v & Hv & Hv0 & Hvu).
  destruct (A3 xb v) as (y & Hy & Hfy & Ea & Es & _); try done; [rewrite Ebs; apply in_split|].
  assert (pair_of y = pair_of xb) as Ey by (unfold pair_of; congruence). apply list_elem_of_split in Hy as (k1 & k2 & ->).
  assert (loc w7 = loc w) as El7 by exact R7. assert (gc_sem w <= gc_sem w7) as Hgc.
  { change (gc_sem w7) with (gc_sem w1 + (if 0 <? n then 1 else 0)). rewrite R6. destruct (0 <? n); lia. }
  rewrite (finish_run w7 tr k1 y k2); [|exact Hm|rewrite El7; exact (rd_handle HR)|exact Hp'|done|congruence].
  destruct (closed_facts w7 k1 y k2 Hp' Hfy Ey Hgc) as (F1 & F2 & F3 & F4 & F5 & F6 & F7).
  exists (closed y w7), (k1 ++ y :: k2). split; [done|]. split; try done.
  - split; [by apply (Socket.registry_same w1)|]. intros j. rewrite <- Hcells. unfold RegistrySpec.registered. by rewrite (RegistryGrowth.cells_same_objects w1).
  - refine (segment_closed w1 L q y R (gc_sem w7) s' L (<[proc_head_of shm := others]> ls) Hseg Hrest _ HLok (lookup_insert_eq _ _ _) _); [by eapply destroyed_some|].
    intros q' Hq'. by apply others_lists.
  - by exists q.
  - intros b Hb. apply F6; [|by apply A2]. assert (b ∈ specials_of uid (mem (pool w)) bs) as Hbs.
    { apply list_elem_of_filter in Hb as [[? ?] ?]. apply list_elem_of_filter. split; [|done]. split; [done|]. by do 2 right. }
    rewrite <- A1 in Hbs. by apply list_elem_of_filter in Hbs as [_ ?].
  - eapply spares_trans; [exact A3|exact F7].
  - rewrite Hlocks. split; [done|]. split; [|exact HLok]. rewrite F5. exact A1.
Qed.

Lemma destroy_locked : library -> holds_locks = true -> exists w' tr',
  Proc.libsrpc_proc_destroy (2 ^ k) fuel malloc realloc garbage rounds (p_pid x) (GWorld w tr) = Ret 0 (GWorld w' tr') /\ departed w' tr' bs.
Proof.
  intros HC Hlocks. destruct destroy_begins as (w1 & L & q & Hreg & Hcells & Hrest & HLok & Hfresh & Hq & Hseg & ->). rewrite Hlocks. pose proof Hrest as (_ & _ & _ & _ & R5 & R6 & R7).
  set (w5 := cleaned w1 L q) in *. assert (pool w5 = pool w) as E5 by exact R5. assert (loc w5 = loc w) as L5 by exact R7. pose proof (rd_pool HR) as Hp.
  assert (gc_list_of shm <> proc_head_of shm) as Hgp by (unfold gc_list_of, proc_head_of, GC_LIST_OFF, PROC_HEAD_OFF; lia).
  assert (RegistrySpec.mapped w5) as Hm by (unfold RegistrySpec.mapped; rewrite L5; apply (sg_map _ _ _ _ _ _ (rd_segment HR))).
  destruct (release_locked_run malloc realloc garbage w5 tr) with (fuel := fuel) (rounds := rounds) (uid := uid) (bs := bs) (ls := <[proc_head_of shm := others]> ls) (T := T)
    as (s' & R & L' & n & b & t & E & Hp' & HM & HRq & HLf & HL' & En); rewrite ?E5, ?L5; try done.
  { intros n. destruct (lb_malloc HC n) as (? & ? & Hnode). split; [done|]. split; [done|]. by apply Hfresh. }
  { intros ts a n Ha. destruct (lb_realloc HC ts a n Ha) as [Hr Hor]. split; [done|]. destruct Hor as [?|[? Hnode]]; [by left|right]. split; [done|]. by apply Hfresh. }
  { apply HC. }
  { exact (rd_handle HR). }
  { exact (lv_uid HL). }
  { exact (rd_fuel HR). }
  { pose proof (rd_rounds HR) as Hr. intros ->. destruct Hp as (_ & _ & _ & _ & F & Hheap). pose proof (hp_tiled _ _ _ Hheap) as Ti.
    pose proof (tiled_end _ _ _ _ _ Ti). pose proof (tiled_sizes _ _ _ _ _ Ti). pose proof (Z.div_pos (heap_size (geo (pool w))) 128 ltac:(lia) ltac:(lia)). lia. }
  { exact (rd_size HR). }
  { exact others_requests. }
  { rewrite lookup_insert_ne by done. exact (rd_waiting HR). }
  rewrite E5, L5 in *. rewrite (bind_ret _ _ _ _ _ E). cbn match. set (w7 := set_lists L' _) in *.
  destruct (lv_block HL) as (Ebs & Hfx & Epx). assert (pool_ok (pool w7) (l1 ++ xb :: l2)) as Hp7 by (rewrite <- Ebs; exact Hp').
  assert (loc w7 = loc w) as L7 by exact R7. assert (gc_sem w <= gc_sem w7) as Hgc.
  { cbn [gc_sem w7 set_lists set_gc_sem]. rewrite En. change (gc_sem w5) with (gc_sem w1). rewrite R6. destruct (0 <? _); lia. }
  rewrite (finish_run w7 _ l1 xb l2); [|unfold RegistrySpec.mapped; rewrite L7; apply (sg_map _ _ _ _ _ _ (rd_segment HR))|rewrite L7; exact (rd_handle HR)|exact Hp7|done|done].
  destruct (closed_facts w7 l1 xb l2 Hp7 Hfx eq_refl Hgc) as (F1 & F2 & F3 & F4 & F5 & F6 & F7). rewrite <- Ebs in *.
  exists (closed xb w7), (<[b := t]> tr). split; [done|]. split; try done.
  - split; [by apply (Socket.registry_same w1)|]. intros j. rewrite <- Hcells. unfold RegistrySpec.registered. by rewrite (RegistryGrowth.cells_same_objects w1).
  - refine (segment_closed w1 L q xb R n s' L' _ Hseg Hrest _ HL' _ _); [by eapply destroyed_some|rewrite lookup_insert_ne by done; apply lookup_insert_eq|].
    intros q' Hq'. destruct (others_lists q' Hq') as [El Hne]. by rewrite lookup_insert_ne.
  - by exists q.
  - intros d Hd. pose proof Hd as [[Hu Ht] Hused]%list_elem_of_filter. apply F6; [done|]. change (mem (pool w7)) with (mem s'). rewrite (om_word _ _ _ _ HM d Hused).
    case_decide as Ho; [apply set_dc_word|]. destruct (sig_dc_flag (word_of (mem (pool w)) d)) eqn:Ef; [done|]. destruct Ho. by apply list_elem_of_filter.
  - eapply spares_trans; [|exact F7]. apply spares_same; [exact (om_uids _ _ _ _ HM)|exact (om_payload _ _ _ _ HM)].
  - rewrite Hlocks. split; [done|]. exists b, t. split; [done|]. split; [|exact HL'].
    destruct HLf as [H1 H2 H3 H4]. split; try done. by rewrite <- E5.
Qed.
Lemma destroy_run : (holds_locks = true -> library) -> exists w' tr' bs',
  Proc.libsrpc_proc_destroy (2 ^ k) fuel malloc realloc garbage rounds (p_pid x) (GWorld w tr) = Ret 0 (GWorld w' tr') /\ departed w' tr' bs'.
Proof.
  intros HC. destruct holds_locks eqn:E; [destruct (destroy_locked (HC eq_refl) E) as (w' & tr' & H); by exists w', tr', bs|destruct (destroy_unlocked E) as (w' & bs' & H); by exists w', tr, bs'].
Qed.
End departure.
#[global] Arguments rd_segment {k fuel l rl items rounds w ls T bs} _.
#[global] Arguments rd_lists {k fuel l rl items rounds w ls T bs} _.
#[global] Arguments rd_procs {k fuel l rl items rounds w ls T bs} _.
#[global] Arguments rd_reqs {k fuel l rl items rounds w ls T bs} _.
#[global] Arguments rd_waiting {k fuel l rl items rounds w ls T bs} _.
#[global] Arguments rd_registry {k fuel l rl items rounds w ls T bs} _.
#[global] Arguments rd_pool {k fuel l rl items rounds w ls T bs} _.
#[global] Arguments rd_handle {k fuel l rl items rounds w ls T bs} _.
#[global] Arguments rd_fuel {k fuel l rl items rounds w ls T bs} _.
#[global] Arguments rd_rounds {k fuel l rl items rounds w ls T bs} _.
#[global] Arguments rd_size {k fuel l rl items rounds w ls T bs} _.
#[global] Arguments lv_in {fuel l items w bs p x l1 xb l2} _.
#[global] Arguments lv_proc {fuel l items w bs p x l1 xb l2} _.
#[global] Arguments lv_only {fuel l items w bs p x l1 xb l2} _.
#[global] Arguments lv_uid {fuel l items w bs p x l1 xb l2} _.
#[global] Arguments lv_queue {fuel l items w bs p x l1 xb l2} _.
#[global] Arguments lv_requests {fuel l items w bs p x l1 xb l2} _.
#[global] Arguments lv_block {fuel l items w bs p x l1 xb l2} _.
#[global] Arguments lv_owner {fuel l items w bs p x l1 xb l2} _.

(** (C9) [libsrpc_proc_destroy] for a listed process: it returns 0, and the process is an
    executor of no function (every other one stays), is off the list, has no signature
    and an empty queue; the callers of the requests in its queue are told that the call
    was cancelled; its own requests are destroyed and left to the collector; its plain
    memory is free again, or on the list that waits when a live process' request has
    locked it; the block of the process itself is there, marked; blocks that others own
    keep their place, owners and contents; the pool is well-formed, the segment sound for
    the processes that remain, and the collector is woken.  One condition, for a process
    that holds locks only: the daemon's C library has memory for the list ([library]); when
    it has not, [Deferred.full_list_forgets] shows a block neither freed nor listed. *)
Theorem process_destroyed k fuel l rl items malloc realloc garbage rounds w tr ls T bs p x l1 xb l2 : 1 <= k <= 61 ->
  ready k fuel l rl items rounds w ls T bs -> leaving fuel l items w bs p x l1 xb l2 ->
  (holds_locks l rl items w p x = true -> library malloc realloc garbage w tr) ->
  exists w' tr' bs', Proc.libsrpc_proc_destroy (2 ^ k) fuel malloc realloc garbage rounds (p_pid x) (GWorld w tr) = Ret 0 (GWorld w' tr') /\
    departed k fuel l rl items w tr ls T bs p x xb w' tr' bs'.
Proof. intros Hk HR HL HC. by eapply destroy_run. Qed.

(** ** A concrete destruction

    The process lies in the block in use of the demonstration pool, which uid 7 (the
    daemon) owns; it executes function 0, and its queue holds request 77. *)
Definition demo_process : Z := demo_block + HEADER_SIZE.
Definition demo_departing : world :=
  let empty := RpcFunc 0 NULL (replicate 8 NULL) in
  set_funcs [RpcFunc 1 NULL (NULL :: demo_process :: replicate 6 NULL); empty; empty; empty; empty]
    (set_lists (ListSpin.LStore {[ demo_process := ListSpin.Node NULL (proc_head_of demo_shm) ]}
        {[ proc_head_of demo_shm := ListSpin.LHead demo_process 1; req_head_of demo_process := ListSpin.LHead NULL 1; gc_list_of demo_shm := ListSpin.LHead NULL 1 ]})
      (set_procs {[ demo_process := Proc LIBSRPC_PROC_SIGN PROC_STATUS_RUN 2 500 1 0 0 MpmcAlone.one_element [NULL] ]}
        (set_reqs {[ 77 := RequestSpec.demo_request ]} Shmem.demo_world))).
Definition demo_departing_ls : gmap Z (list Z) := {[ gc_list_of demo_shm := []; proc_head_of demo_shm := [demo_process]; req_head_of demo_process := [] ]}.
Lemma demo_departing_registry : RegistrySpec.registry_ok demo_departing.
Proof.
  split; [split|].
  - reflexivity.
  - intros k f E. RegistrySpec.each_func E; reflexivity.
  - intros k f E. RegistrySpec.each_func E; left; reflexivity.
  - intros j k f g Ef Eg. RegistrySpec.each_func Ef; RegistrySpec.each_func Eg; try (left; reflexivity); right; reflexivity.
  - intros k n E. unfold RegistrySpec.numf in E. apply fmap_Some in E as (f & E & ->). RegistrySpec.each_func E; reflexivity.
Qed.
Lemma demo_departing_lists : ListSpin.lists_ok (lists demo_departing) demo_departing_ls.
Proof.
  assert (forall h n x, ListSpin.nodes (lists demo_departing) !! n = Some x -> ListSpin.node_head x = h -> h = proc_head_of demo_shm /\ n = demo_process) as Hn.
  { intros h n x E <-. cbn in E. apply lookup_singleton_Some in E as [<- <-]. split; reflexivity. }
  intros h lst E. unfold demo_departing_ls in E.
  apply lookup_insert_Some in E as [[<- <-]|[_ E]]; [|apply lookup_insert_Some in E as [[<- <-]|[_ E]]; [|apply lookup_singleton_Some in E as [<- <-]]]; (split; [discriminate|]).
  - split; [eexists; reflexivity|reflexivity|constructor|]. intros n x En Eh. destruct (Hn _ _ _ En Eh) as [Hc _]. discriminate Hc.
  - split; [eexists; reflexivity| |apply NoDup_singleton|].
    + split; [reflexivity|]. split; [discriminate|]. exists NULL. split; reflexivity.
    + intros n x En Eh. destruct (Hn _ _ _ En Eh) as [_ ->]. apply list_elem_of_here.
  - split; [eexists; reflexivity|reflexivity|constructor|]. intros n x En Eh. destruct (Hn _ _ _ En Eh) as [Hc _]. discriminate Hc.
Qed.
Lemma demo_departing_segment : segment 1 20 [demo_process] (fun _ => []) (fun _ => [77]) demo_departing.
Proof.
  split.
  - split; discriminate.
  - apply (demo_departing_lists (proc_head_of demo_shm)). reflexivity.
  - cbn [length]. lia.
  - apply not_elem_of_cons. split; [discriminate|apply not_elem_of_nil].
  - intros p ->%list_elem_of_singleton. eexists. split; [reflexivity|]. split; [apply MpmcAlone.one_element_ok|]. apply Nat.leb_le. vm_compute. reflexivity.
  - intros p ->%list_elem_of_singleton. split; [|cbn [length]; lia]. apply (demo_departing_lists (req_head_of demo_process)). reflexivity.
  - intros p a _ Ha. by apply not_elem_of_nil in Ha.
Qed.
(** With another pool; for any world, so that the concrete one is not unfolded. *)
Lemma segment_set_pool k fuel l rl items s v : segment k fuel l rl items v -> segment k fuel l rl items (set_pool s v).
Proof. intros [H1 H2 H3 H4 H5 H6 H7]. by split. Qed.
Lemma registry_set_pool s v : RegistrySpec.registry_ok v -> RegistrySpec.registry_ok (set_pool s v).
Proof. by apply Socket.registry_same. Qed.
Lemma reqs_set_pool s v : reqs (set_pool s v) = reqs v.
Proof. done. Qed.
Lemma procs_set_pool s v : procs (set_pool s v) = procs v.
Proof. done. Qed.
Lemma shm_set_pool s v : shm_ptr (loc (set_pool s v)) = shm_ptr (loc v).
Proof. done. Qed.
Lemma registered_set_pool s v : RegistrySpec.registered (set_pool s v) = RegistrySpec.registered v.
Proof. done. Qed.
Definition demo_leaver : proc := Proc LIBSRPC_PROC_SIGN PROC_STATUS_RUN 2 500 1 0 0 MpmcAlone.one_element [NULL].
Lemma demo_departing_ready s : pool_ok s cut_pool -> heap_size (geo s) = 1472 ->
  ready 1 20 [demo_process] (fun _ => []) (fun _ => [77]) 20 (set_pool s demo_departing) demo_departing_ls [] cut_pool.
Proof.
  intros P E. split.
  - apply segment_set_pool. exact demo_departing_segment.
  - rewrite (lists_set_pool s demo_departing). exact demo_departing_lists.
  - rewrite (shm_set_pool s demo_departing). reflexivity.
  - rewrite (shm_set_pool s demo_departing). intros q ->%list_elem_of_singleton. split; [reflexivity|]. split; discriminate.
  - rewrite (shm_set_pool s demo_departing). reflexivity.
  - apply registry_set_pool. exact demo_departing_registry.
  - exact P.
  - rewrite (shm_set_pool s demo_departing). discriminate.
  - cbn [pool set_pool]. rewrite E. reflexivity.
  - cbn [pool set_pool]. rewrite E. reflexivity.
  - cbn [pool set_pool]. rewrite E. reflexivity.
Qed.
Lemma demo_nothing_owned s : uids (mem s) demo_block = [7; 0; 0; 0; 0; 0; 0; 0; 0; 0; 0; 0] -> owned_by 2 (mem s) (used_of cut_pool) = [] /\ requests_of 2 (mem s) cut_pool = [].
Proof.
  intros U. assert (2 ∉ uids (mem s) demo_block) as Hn by (rewrite U; apply (bool_decide_unpack _); exact I).
  unfold owned_by, requests_of, typed. change (used_of cut_pool) with [(demo_block, 192)].
  rewrite !filter_cons, !filter_nil. split; (rewrite decide_False; [done|]); [exact Hn|]. intros [Hc _]. exact (Hn Hc).
Qed.
Lemma demo_departing_leaves s : uids (mem s) demo_block = [7; 0; 0; 0; 0; 0; 0; 0; 0; 0; 0; 0] ->
  leaving 20 [demo_process] (fun _ => [77]) (set_pool s demo_departing) cut_pool demo_process demo_leaver
    [] (Blk demo_block 192 false false false false) [Blk (demo_block + 192) 1280 true true true false].
Proof.
  intros U. split.
  - apply list_elem_of_here.
  - rewrite (procs_set_pool s demo_departing). reflexivity.
  - by intros q ->%list_elem_of_singleton _.
  - discriminate.
  - rewrite (reqs_set_pool s demo_departing). split; [cbn [length]; lia|]. intros a ->%list_elem_of_singleton. split; [discriminate|]. by eexists.
  - cbn [pool set_pool]. change (proc_uid demo_leaver) with 2. rewrite (proj2 (demo_nothing_owned s U)). intros b Hb. by apply not_elem_of_nil in Hb.
  - split; [reflexivity|]. split; reflexivity.
  - exists 7. cbn [pool set_pool baddr]. rewrite U. split; [apply list_elem_of_here|]. split; discriminate.
Qed.
Lemma demo_departing_library s : library demo_malloc demo_realloc demo_zeros (set_pool s demo_departing) ∅.
Proof.
  split.
  - intros n. split; [discriminate|]. split; [reflexivity|]. rewrite (lists_set_pool s demo_departing). reflexivity.
  - intros ts a n Ha. split; [exact Ha|left; reflexivity].
  - intros b n. apply length_replicate.
Qed.
Lemma demo_unregistered : filter (fun c => c <> demo_process) (RegistrySpec.registered demo_departing 0) = [].
Proof. reflexivity. Qed.
Lemma process_destroyed_witness : exists s w' bs',
  Proc.libsrpc_proc_destroy (2 ^ 1) 20 demo_malloc demo_realloc demo_zeros 20 500 (GWorld (set_pool s demo_departing) ∅) = Ret 0 (GWorld w' ∅) /\
  pool_ok s cut_pool /\ pool_ok (pool w') bs' /\ (demo_block, 192) ∈ used_of bs' /\ sig_dc_flag (word_of (mem (pool w')) (demo_block, 192)) = true /\
  RegistrySpec.registered w' 0 = [] /\ segment 1 20 [] (fun _ => []) (fun _ => [77]) w' /\
  exists q, procs w' !! demo_process = Some (left_proc demo_leaver q) /\ MpmcAlone.represents 1 q [].
Proof.
  destruct (cut_pool_typed Shmem.SHMDT_PROC) as (s & P & U & _ & E). exists s.
  destruct (process_destroyed 1 20 [demo_process] (fun _ => []) (fun _ => [77]) demo_malloc demo_realloc demo_zeros 20 (set_pool s demo_departing) ∅ demo_departing_ls [] cut_pool
    demo_process demo_leaver [] (Blk demo_block 192 false false false false) [Blk (demo_block + 192) 1280 true true true false])
    as (w' & tr' & bs' & ED & [[_ D1] D2 (q & D3 & D3') _ D5 [D6 D6'] _ _ _ D7]).
  - split; discriminate.
  - apply demo_departing_ready; [exact P|exact E].
  - apply demo_departing_leaves. exact U.
  - intros _. apply demo_departing_library.
  - rewrite (procs_set_pool s demo_departing) in D3. exists w', bs'.
    assert (filter (fun c => c <> demo_process) [demo_process] = []) as EF by reflexivity. rewrite EF in D2, D7.
    assert (holds_locks [demo_process] (fun _ => []) (fun _ => [77]) (set_pool s demo_departing) demo_process demo_leaver = false) as EH.
    { unfold holds_locks. rewrite EF. reflexivity. }
    rewrite EH in D7. destruct D7 as [-> _]. split; [exact ED|]. split; [exact P|]. split; [exact D5|]. split; [exact D6|]. split; [exact D6'|]. split.
    + rewrite (D1 0%nat), (registered_set_pool s demo_departing). exact demo_unregistered.
    + split; [exact D2|]. exists q. rewrite D3. split; [apply lookup_insert_eq|exact D3'].
Defined.
