(* ===== verification/Arrival.v ===== *)
(** The creation of a process ([libsrpc_proc_create] of [libsrpc_proc.c]) as a whole, on
    every branch: the block of the process, its record, its uid, its place in the list. *)
From S2P Require Import Prelude Machine Errno Request TlsfTypes TlsfBul TlsfHeap TlsfAlloc TlsfApi TlsfFacts TlsfHoare TlsfOwners TlsfOwnership TlsfSpec TlsfLists TlsfTiling TlsfBlocks TlsfMalloc TlsfFree TlsfPool TlsfWalk TlsfRealloc ProcMemory World Rpc RpcSpec RpcCall RpcCallSpec Trash Gc GcSpec Collection CollectionSpec Deferred Departure.
From S2P Require RequestSpec Shmem Proc ProcSpec ListSpin Registry RegistrySpec RegistryGrowth Socket MpmcQueue MpmcAlone.

(** ** Free memory *)

(** The addresses of the heap that are in no block in use. *)
Definition free_at (bs : list blk) (a : Z) : Prop := exists x, x ∈ bs /\ bfree x = true /\ baddr x <= a < baddr x + bsize x.
Definition used_at (bs : list blk) (a : Z) : Prop := exists p, p ∈ used_of bs /\ p.1 <= a < p.1 + p.2.

Lemma tiled_covers m bs : forall p a e q, tiled m p a bs e -> a <= q < e -> exists x, x ∈ bs /\ baddr x <= q < baddr x + bsize x.
Proof.
  induction bs as [|x bs IH]; intros p a e q T Hq; [cbn in T; lia|]. destruct T as (Ea & _ & _ & _ & _ & _ & T).
  destruct (decide (q < a + bsize x)); [exists x; split; [apply list_elem_of_here|lia]|].
  destruct (IH _ _ _ q T) as (y & Hy & ?); [lia|]. exists y. split; [by apply list_elem_of_further|done].
Qed.
Lemma free_not_used s bs a : pool_ok s bs -> free_at bs a -> ~ used_at bs a.
Proof.
  intros (_ & _ & Hg & _ & F & Hh) (x & Hx & Hf & Ha) ([b n] & Hp & Hb). apply used_of_in in Hp as (y & Hy & Hfy & <- & <-). cbn in Hb.
  destruct (decide (baddr x = baddr y)) as [E|Hne].
  - pose proof (tiled_addr_inj _ _ _ _ _ x y (hp_tiled _ _ _ Hh) (start_aligned _ Hg) Hx Hy E). congruence.
  - destruct (tiled_disjoint _ _ _ _ _ x y (hp_tiled _ _ _ Hh) (start_aligned _ Hg) Hx Hy Hne); lia.
Qed.
(** Where blocks in use stay in use, memory does not become free. *)
Lemma free_shrinks s bs s' bs' : pool_ok s bs -> pool_ok s' bs' -> geo s' = geo s -> (forall p, p ∈ used_of bs -> p ∈ used_of bs') ->
  forall a, free_at bs' a -> free_at bs a.
Proof.
  intros Hp Hp' Eg Hsub a Hfr. pose proof (free_not_used s' bs' a Hp' Hfr) as Hn. destruct Hfr as (y & Hy & _ & Ha).
  pose proof Hp' as (_ & _ & Hg' & _ & F' & Hh'). destruct (tiled_in _ _ _ _ _ y (hp_tiled _ _ _ Hh') Hy (start_aligned _ Hg')) as (H1 & _ & H2 & _). rewrite Eg in H1, H2.
  destruct Hp as (_ & _ & _ & _ & F & Hh). destruct (tiled_covers _ _ _ _ _ a (hp_tiled _ _ _ Hh)) as (x & Hx & Hxa); [lia|].
  exists x. split; [done|]. split; [|done]. destruct (bfree x) eqn:Ef; [done|]. destruct Hn. exists (baddr x, bsize x). split; [|done].
  apply Hsub, used_of_in. by exists x.
Qed.

(** ** Calls of the allocator *)

Lemma request_room size : 0 < size <= 2 ^ 64 - 128 -> size + HEADER_SIZE <= request_to_block_size size.
Proof.
  intros Hs. rewrite request_to_block_size_fits by done. pose proof (Z.div_mod (size + 63) 64 ltac:(done)). pose proof (Z.mod_pos_bound (size + 63) 64 ltac:(done)).
  unfold HEADER_SIZE. lia.
Qed.

Definition with_errno (s : tlsf) (w : world) : world := set_loc (set_libsrpc_errno (tlsf_errno (thr s)) (loc w)) (set_pool s w).
Lemma malloc_type_run w sz ty a s' : RegistrySpec.mapped w -> tlsf_malloc (poolptr_of (shm_ptr (loc w))) sz (my_uid (loc w)) ty (pool w) = Ret a s' ->
  Shmem.libsrpc_shmem_malloc_type sz ty w = Ret a (with_errno s' w).
Proof.
  intros [H1 H2] E. unfold Shmem.libsrpc_shmem_malloc_type, Shmem.with_pool. rewrite with_shm by done.
  unfold mbind, M_bind, getl, gets. rewrite (proj2 (Z.eqb_neq _ _) H1), (proj2 (Z.eqb_neq _ _) H2). unfold lift_pool at 1. rewrite E. reflexivity.
Qed.
Lemma free_run w a s' : RegistrySpec.mapped w -> tlsf_free (poolptr_of (shm_ptr (loc w))) a (my_uid (loc w)) (pool w) = Ret tt s' ->
  Shmem.libsrpc_shmem_free a w = Ret tt (with_errno s' w).
Proof.
  intros [H1 H2] E. unfold Shmem.libsrpc_shmem_free, Shmem.with_pool. rewrite with_shm by done.
  unfold mbind, M_bind, getl, gets. rewrite (proj2 (Z.eqb_neq _ _) H1), (proj2 (Z.eqb_neq _ _) H2). unfold lift_pool at 1. rewrite E. reflexivity.
Qed.

(** Between two operations of the daemon: the nodes that are on lists are on those of
    [ls], and neither they nor the heads lie in free memory; uids and pids are unique. *)
Record orderly (l : list Z) (w : world) (ls : gmap Z (list Z)) (bs : list blk) : Prop := Orderly {
  or_me : my_uid (loc w) = DAEMON_PROC_UID;
  or_nodes : forall n x, ListSpin.nodes (lists w) !! n = Some x -> ListSpin.node_head x <> NULL -> is_Some (ls !! ListSpin.node_head x);
  or_lists : forall h lst a, ls !! h = Some lst -> a ∈ lst -> ~ free_at bs a;
  or_heads : forall h, is_Some (ls !! h) -> ~ free_at bs h;
  or_uids : NoDup (ProcSpec.uids_in_use w l);
  or_pids : NoDup (ProcSpec.pid_of w <$> l);
  or_known : forall b, b ∈ used_of bs -> request_type (sig_type (word_of (mem (pool w)) b)) -> is_Some (reqs w !! ptr_of b) }.
#[global] Arguments or_me {l w ls bs} _.
#[global] Arguments or_nodes {l w ls bs} _.
#[global] Arguments or_lists {l w ls bs} _.
#[global] Arguments or_heads {l w ls bs} _.
#[global] Arguments or_uids {l w ls bs} _.
#[global] Arguments or_pids {l w ls bs} _.
#[global] Arguments or_known {l w ls bs} _.

Section arrival.
Context (k : Z) (fuel : nat) (l : list Z) (rl items : Z -> list Z) (rounds : nat) (Hk : 1 <= k <= 40).
Context (nproc sem_rc spin_rc pid next : Z).
Context (w : world) (ls : gmap Z (list Z)) (T : list Z) (bs : list blk).
Abbreviation shm := (shm_ptr (loc w)).
Abbreviation phead := (proc_head_of (shm_ptr (loc w))).
Abbreviation me := (my_uid (loc w)).

Context (HR : ready k fuel l rl items rounds w ls T bs) (HO : orderly l w ls bs).
Context (Hf : (length l < fuel)%nat) (Hnext : 2 <= next < 2 ^ 16).

Lemma processes_listed : ProcSpec.plist_ok w phead l.
Proof.
  destruct HR as [[Hm Hl _ _ Hp _ _] _ _ _ _ _ _ _ _ _ _], HO as [_ _ _ _ Hu Hpd _]. split; [|done..]. split; [done|].
  intros q Hq. destruct (Hp q Hq) as (x & Ex & _). by exists x.
Qed.

(** The block that the process gets. *)
Definition proc_size : Z := Proc.sizeof_proc (2 ^ k) + nproc * Proc.sizeof_thread.
Definition proc_total : Z := request_to_block_size proc_size.
Lemma pow_bounds : 2 <= 2 ^ k <= 2 ^ 40.
Proof. split; [change 2 with (2 ^ 1) at 1|]; apply Z.pow_le_mono_r; lia. Qed.
Lemma size_computed : 0 < nproc <= 1024 -> u64 (Proc.sizeof_proc (2 ^ k) + u64 (nproc * Proc.sizeof_thread)) = proc_size /\ Proc.sizeof_proc (2 ^ k) <= proc_size /\ 400 <= proc_size < 2 ^ 47.
Proof.
  intros Hn. pose proof pow_bounds. unfold proc_size, Proc.sizeof_proc, Proc.sizeof_thread, u64.
  rewrite (Z.mod_small (nproc * 16)) by lia. rewrite Z.mod_small by lia. lia.
Qed.

(** The block is new to the lists. *)
Section block.
Context (x : blk) (Hx : x ∈ bs) (Hfree : bfree x = true) (Hbig : proc_total <= bsize x) (Hn : 0 < nproc <= 1024).
Abbreviation p := (baddr x + HEADER_SIZE).
Lemma in_block o : 0 <= o < 400 -> free_at bs (p + o).
Proof.
  intros Ho. destruct (size_computed Hn) as (_ & _ & Hs). exists x. split; [done|]. split; [done|].
  pose proof (request_room proc_size ltac:(lia)) as Hr. fold proc_total in Hr. unfold HEADER_SIZE in *. lia.
Qed.
Lemma block_positive : 0 < baddr x.
Proof. destruct (rd_pool HR) as (_ & _ & Hg & _ & F & Hh). destruct (block_facts _ _ F Hg Hh x Hx) as (_ & [_ Hpos] & _). lia. Qed.
Lemma new_to_lists h lst : ls !! h = Some lst -> p ∉ lst.
Proof. intros E Hin. apply (or_lists HO h lst p E Hin). rewrite <- (Z.add_0_r p). apply in_block. lia. Qed.
Lemma new_head : ls !! req_head_of p = None.
Proof.
  destruct (ls !! req_head_of p) as [lst|] eqn:E; [|done]. destruct (or_heads HO (req_head_of p)); [by exists lst|].
  unfold req_head_of. apply in_block. unfold REQ_HEAD_OFF. lia.
Qed.
Lemma new_process_addr : p ∉ l.
Proof. eapply new_to_lists, (rd_procs HR). Qed.
Lemma new_node y : ListSpin.nodes (lists w) !! p = Some y -> ListSpin.node_head y = NULL.
Proof.
  intros E. destruct (decide (ListSpin.node_head y = NULL)) as [|Hne]; [done|]. destruct (or_nodes HO p y E Hne) as [lst El].
  destruct (rd_lists HR _ _ El) as [_ Hl]. exfalso. by apply (new_to_lists _ lst El), (ListSpin.lk_member _ _ _ Hl p y E).
Qed.
Lemma no_old_node n y : ListSpin.nodes (lists w) !! n = Some y -> ListSpin.node_head y <> req_head_of p.
Proof.
  intros E Hh. assert (ListSpin.node_head y <> NULL) as Hne. { rewrite Hh. unfold req_head_of, REQ_HEAD_OFF, HEADER_SIZE. pose proof block_positive. lia. }
  destruct (or_nodes HO n y E Hne) as [lst El]. rewrite Hh, new_head in El. done.
Qed.

(** The lists with the node of the process, and then with its head for requests. *)
Definition lists_noded : ListSpin.list_store := ListSpin.LStore (<[p := ListSpin.Node NULL NULL]> (ListSpin.nodes (lists w))) (ListSpin.heads (lists w)).
Definition lists_headed : ListSpin.list_store := ListSpin.LStore (ListSpin.nodes lists_noded) (<[req_head_of p := ListSpin.LHead NULL 0]> (ListSpin.heads (lists w))).
Lemma noded_ok : ListSpin.lists_ok lists_noded ls.
Proof. apply (lists_ok_free (lists w) ls p new_node (rd_lists HR)). Qed.
Lemma headed_ok : ListSpin.lists_ok lists_headed (<[req_head_of p := []]> ls).
Proof.
  intros h lst E. apply lookup_insert_Some in E as [[<- <-]|[Hne E]].
  - split; [pose proof block_positive; unfold req_head_of, REQ_HEAD_OFF, HEADER_SIZE; lia|]. split.
    + eexists. apply lookup_insert_eq.
    + done.
    + constructor.
    + intros n y En Eh. cbn in En. apply lookup_insert_Some in En as [[<- <-]|[_ En]]; [|by apply no_old_node in En].
      cbn in Eh. pose proof block_positive. unfold req_head_of, REQ_HEAD_OFF, HEADER_SIZE in Eh. lia.
  - destruct (noded_ok h lst E) as [Hh Hl]. split; [done|]. by apply (ProcSpec.linked_head lists_noded).
Qed.

(** What follows the allocation, in a world [v] that differs from [w] in the pool only. *)
Definition staged (y : proc) (L : ListSpin.list_store) (v : world) : world := set_procs (<[p := y]> (procs v)) (set_lists L v).
Definition proc_record (sgn uid : Z) (q : MpmcQueue.lf_mpmc_queue) : proc := Proc sgn PROC_STATUS_INIT uid pid 0 0 0 q (replicate (Z.to_nat nproc) NULL).
Abbreviation no_queue := (MpmcQueue.Queue 0 0 ∅ ∅ 0).
Definition empty_queue : MpmcQueue.lf_mpmc_queue := MpmcQueue.lf_mpmc_queue_init (2 ^ k) no_queue.
Definition lists_pushed (ops : Z) : ListSpin.list_store :=
  ListSpin.LStore (<[p := ListSpin.Node (List.hd NULL l) phead]> (ListSpin.nodes lists_headed))
    (<[phead := ListSpin.LHead p (u64 (ops + 1))]> (ListSpin.heads lists_headed)).
Lemma staged_again y z L L' v : set_procs (<[p := z]> (procs (staged y L v))) (set_lists L' (staged y L v)) = staged z L' v.
Proof. unfold staged. cbn [procs set_procs set_lists]. by rewrite insert_insert_eq. Qed.
Lemma upd_staged f y L v : upd_proc p f (staged y L v) = Ret tt (staged (f y) L v).
Proof. rewrite (upd_proc_run p _ y) by apply lookup_insert_eq. f_equal. unfold staged. cbn [procs set_procs]. by rewrite insert_insert_eq. Qed.
Lemma lift_staged {A} (m : M ListSpin.list_store A) a L L' y v : m L = Ret a L' -> lift_list m (staged y L v) = Ret a (staged y L' v).
Proof. intros E. unfold lift_list. cbn [lists staged set_procs set_lists]. by rewrite E. Qed.
Lemma pushed_run : exists ops, ListSpin.libsrpc_list_push_front phead p lists_headed = Ret ListSpin.LIST_OK (lists_pushed ops) /\
  ListSpin.lists_ok (lists_pushed ops) (<[phead := p :: l]> (<[req_head_of p := []]> ls)).
Proof.
  assert (phead <> req_head_of p) as Hne by (intros E; pose proof (rd_procs HR) as Hl; rewrite E, new_head in Hl; done).
  destruct (rd_lists HR _ _ (rd_procs HR)) as [Hh Hl]. destruct (ListSpin.lk_head _ _ _ Hl) as [ops Eops]. exists ops.
  assert (p <> NULL) as Hp by (pose proof block_positive; unfold HEADER_SIZE; lia).
  assert (ListSpin.nodes lists_headed !! p = Some (ListSpin.Node NULL NULL)) as En by apply lookup_insert_eq.
  assert (ListSpin.heads lists_headed !! phead = Some (ListSpin.LHead (List.hd NULL l) ops)) as Eh by (cbn; by rewrite lookup_insert_ne).
  split; [by apply (ListSpin.push_front_exec lists_headed phead p NULL)|].
  eapply (ListSpin.lists_ok_push lists_headed); [exact headed_ok|rewrite lookup_insert_ne by done; exact (rd_procs HR)|done|exact En|exact Eh].
Qed.

Definition fill_end (uid next' ops : Z) (v : world) : outcome world (Z * Z) :=
  if uid =? 0 then Proc.create_failed p (- Proc.PROC_EBADF) next' (staged (proc_record 0 uid no_queue) lists_noded v)
  else if sem_rc <? 0 then Proc.create_failed p sem_rc next' (staged (proc_record 0 uid no_queue) lists_noded v)
  else if negb (spin_rc =? 0) then Proc.create_failed p ListSpin.LIST_ELOCK next' (staged (proc_record 0 uid empty_queue) lists_noded v)
  else Ret (0, next') (staged (proc_record LIBSRPC_PROC_SIGN uid empty_queue) (lists_pushed ops) v).
Lemma fill_run v : lists v = lists w -> procs v = procs w -> RegistrySpec.mapped v -> shm_ptr (loc v) = shm ->
  exists uid next' ops, 2 <= next' < 2 ^ 16 /\ (uid <> 0 -> DAEMON_PROC_UID < uid < 2 ^ 16 /\ uid ∉ ProcSpec.uids_in_use w l) /\
  ((length l <= 100)%nat -> next + 100 < 2 ^ 16 -> uid <> 0) /\
  ListSpin.lists_ok (lists_pushed ops) (<[phead := p :: l]> (<[req_head_of p := []]> ls)) /\
  ProcSpec.fill (2 ^ k) fuel nproc sem_rc spin_rc pid next w p v = fill_end uid next' ops v.
Proof.
  intros El Ep Hm Es. set (y := Proc 0 PROC_STATUS_INIT 0 0 0 0 0 no_queue (replicate (Z.to_nat nproc) NULL)). set (v3 := staged y lists_noded v).
  pose proof processes_listed as [[_ Hrec] _ _].
  assert (forall q, q ∈ l -> procs v3 !! q = procs w !! q) as Hsame.
  { intros q Hq. cbn. rewrite lookup_insert_ne, Ep by (intros <-; by apply new_process_addr). done. }
  destruct (ProcSpec.proc_get_uid_spec v3 l fuel next) as (uid & next' & Eu & Hn' & Hok & Hthere); [exact Hm| |lia|done|].
  { change (loc v3) with (loc v). rewrite Es. split; [apply (noded_ok _ _ (rd_procs HR))|]. intros q Hq. rewrite Hsame by done. by apply Hrec. }
  destruct pushed_run as (ops & Epush & Hpush). exists uid, next', ops. split; [done|]. split.
  { rewrite (proj1 (ProcSpec.uids_same w v3 l Hsame)) in Hok. exact Hok. }
  do 2 (split; [done|]). unfold ProcSpec.fill, fill_end.
  assert (p <> NULL) as Hp by (pose proof block_positive; unfold HEADER_SIZE; lia).
  set (v2 := set_procs (<[p := y]> (procs v)) v).
  rewrite (bind_ret (put_proc p y) _ tt _ v2) by done.
  rewrite (bind_ret _ _ tt _ v3).
  2: { unfold lift_list, node_of, ListSpin.libsrpc_list_node_init. rewrite (proj2 (Z.eqb_neq p NULL)) by done.
       unfold ListSpin.put_node, modify. cbn [lists v2 set_procs]. rewrite El. reflexivity. }
  rewrite (bind_ret _ _ _ _ _ Eu). cbn match. unfold v3. rewrite (bind_ret _ _ _ _ _ (upd_staged _ _ _ _)).
  destruct (uid =? 0); [done|]. destruct (sem_rc <? 0); [done|].
  do 2 rewrite (bind_ret _ _ _ _ _ (upd_staged _ _ _ _)).
  assert (req_head_of p <> NULL) as Hrh by (pose proof block_positive; unfold req_head_of, REQ_HEAD_OFF, HEADER_SIZE; lia).
  assert (ListSpin.libsrpc_list_head_init spin_rc (req_head_of p) lists_noded =
    if negb (spin_rc =? 0) then Ret ListSpin.LIST_ELOCK lists_noded else Ret ListSpin.LIST_OK lists_headed) as Einit.
  { unfold ListSpin.libsrpc_list_head_init. rewrite (proj2 (Z.eqb_neq _ NULL)) by done. by destruct (spin_rc =? 0). }
  destruct (negb (spin_rc =? 0)); rewrite (bind_ret _ _ _ _ _ (lift_staged _ _ _ _ _ _ Einit)); [done|].
  change (ListSpin.LIST_OK <? 0) with false. cbn match. rewrite (bind_ret _ _ _ _ _ (upd_staged _ _ _ _)).
  by rewrite (bind_ret _ _ _ _ _ (lift_staged _ _ _ _ _ _ Epush)).
Qed.
End block.

(** ** What stays *)

(** The parts of the world that a creation leaves alone, and the blocks in use with all
    that is in them. *)
Record kept_world (w' : world) (bs' : list blk) : Prop := KeptWorld {
  kw_objects : reqs w' = reqs w /\ ebs w' = ebs w /\ funcs w' = funcs w /\ gc_sem w' = gc_sem w;
  kw_loc : exists e, loc w' = set_libsrpc_errno e (loc w);
  kw_procs : forall q, q ∈ l -> procs w' !! q = procs w !! q;
  kw_pool : pool_ok (pool w') bs' /\ geo (pool w') = geo (pool w);
  kw_blocks : forall b, b ∈ used_of bs -> b ∈ used_of bs' /\ pair_kept (mem (pool w)) (mem (pool w')) b;
  kw_nodes : forall m, ListSpin.nodes (lists w) !! m = None -> ListSpin.nodes (lists w') !! m = None \/ free_at bs m }.
Lemma kept_loc w' bs' : kept_world w' bs' -> simplerpc_data (loc w') = simplerpc_data (loc w) /\ shm_ptr (loc w') = shm /\ my_uid (loc w') = me.
Proof. by intros [_ [e ->] _ _ _ _]. Qed.
Lemma pair_size s bs0 b : pool_ok s bs0 -> b ∈ used_of bs0 -> 128 <= b.2 /\ heap_start (geo s) <= b.1.
Proof.
  destruct b as [a n]. intros (_ & _ & Hg & _ & F & Hh) (y & Hy & _ & <- & <-)%used_of_in.
  destruct (tiled_in _ _ _ _ _ y (hp_tiled _ _ _ Hh) Hy (start_aligned _ Hg)) as (? & ? & _). done.
Qed.
Lemma block_kept w' bs' b : kept_world w' bs' -> b ∈ used_of bs -> word_of (mem (pool w')) b = word_of (mem (pool w)) b /\ uids (mem (pool w')) b.1 = uids (mem (pool w)) b.1.
Proof. intros [_ _ _ _ H _] Hb. apply pair_kept_word; [by eapply pair_size; [apply (rd_pool HR)|]|by apply H]. Qed.

(** The whole state when the list of processes has not changed. *)
Lemma still_ready w' bs' : kept_world w' bs' -> ListSpin.lists_ok (lists w') ls -> ready k fuel l rl items rounds w' ls T bs'.
Proof.
  intros Hkw Hok. destruct (kept_loc w' bs' Hkw) as (E1 & E2 & _). destruct Hkw as [(K1 & K2 & K3 & _) _ K5 [K6 K7] _ _].
  destruct HR as [R1 R2 R3 R4 R5 R6 R7 R8 R9 R10 R11]. split; rewrite ?E2, ?K7; try done.
  - eapply segment_from; [exact R1|done..|exact K5| |exact Hok|done|intros q Hq; by apply R4].
    intros q a Hq Ha. rewrite K1. destruct (sg_req _ _ _ _ _ _ R1 q a Hq Ha) as [r Er]. by exists r.
  - by eapply Socket.registry_same.
Qed.
Lemma still_orderly w' bs' : kept_world w' bs' -> used_of bs' = used_of bs ->
  (forall n y, ListSpin.nodes (lists w') !! n = Some y -> ListSpin.node_head y <> NULL -> is_Some (ls !! ListSpin.node_head y)) -> orderly l w' ls bs'.
Proof.
  intros Hkw Hused Hn. destruct (kept_loc w' bs' Hkw) as (_ & _ & E3). pose proof Hkw as [(K1 & _) _ K5 [K6 K7] K8 _].
  destruct HO as [O1 O2 O3 O4 O5 O6 O7]. destruct (ProcSpec.uids_same w w' l K5) as [Eu Ep].
  assert (forall a, free_at bs' a -> free_at bs a) as Hfr by (eapply free_shrinks; [apply (rd_pool HR)|done|done|intros b Hb; by rewrite Hused]).
  split; [congruence|done|..].
  - intros h lst a E Ha Hfa. by eapply O3, Hfr.
  - intros h Hh Hfa. by eapply O4, Hfr.
  - by rewrite Eu.
  - by rewrite Ep.
  - intros b Hb. rewrite Hused in Hb. rewrite (proj1 (block_kept w' bs' b Hkw Hb)), K1. by apply O7.
Qed.

(** ** With the block allocated *)

Section allocated.
Context (l1 : list blk) (x : blk) (l2 : list blk) (s1 : tlsf).
Context (Ebs : bs = l1 ++ x :: l2) (Hfree : bfree x = true) (Hbig : proc_total <= bsize x) (Hn : 0 < nproc <= 1024).
Context (Hp1 : pool_ok s1 (l1 ++ carve x proc_total l2)) (Eg1 : geo s1 = geo (pool w))
  (HH : handed_out (in_use (l1 ++ l2)) (pool w) s1 (carved x proc_total) me Shmem.SHMDT_PROC).
Abbreviation p := (baddr x + HEADER_SIZE).
Abbreviation bs1 := (l1 ++ carve x proc_total l2).
Definition process_block : Z * Z := (baddr x, bsize (carved x proc_total)).
Lemma carve_head y total l3 : exists l4, carve y total l3 = carved y total :: l4.
Proof. unfold carve, carved. destruct (_ <=? _); by eexists. Qed.
Lemma taken_in : x ∈ bs.
Proof. rewrite Ebs. apply in_split. Qed.
Lemma used_at_first : used_of bs = used_of l1 ++ used_of l2.
Proof. by rewrite Ebs, used_of_app, used_of_cons, Hfree. Qed.
Lemma used_after b : b ∈ used_of bs1 <-> b = process_block \/ b ∈ used_of bs.
Proof. rewrite used_of_carve, used_at_first, !elem_of_app, elem_of_cons. unfold process_block. change (baddr (carved x proc_total)) with (baddr x). tauto. Qed.
Lemma allocation_keeps b : b ∈ used_of bs -> pair_kept (mem (pool w)) (mem s1) b.
Proof.
  rewrite used_at_first, <- used_of_app. destruct b as [a n]. intros (y & Hy & Hfy & <- & <-)%used_of_in. refine (ho_kept _ _ _ _ _ _ HH y _). split; [done|].
  pose proof (rd_pool HR) as (_ & _ & _ & Hset & _). destruct (Hset y) as [-> _]; [|done]. rewrite Ebs. apply elem_of_app in Hy as [Hy|Hy]; [by apply elem_of_app; left|].
  apply elem_of_app. right. by apply list_elem_of_further.
Qed.
Lemma block_start : free_at bs p.
Proof. rewrite <- (Z.add_0_r p). apply (in_block x taken_in Hfree Hbig Hn). lia. Qed.
Lemma me_small : u16 me = 1 /\ me <> 0.
Proof. rewrite (or_me HO). done. Qed.
Lemma block_is_ours : uids (mem s1) (baddr x) = 1 :: replicate 11 0.
Proof. pose proof (ho_uids _ _ _ _ _ _ HH) as E. rewrite (proj1 me_small) in E. exact E. Qed.
Lemma block_typed : sig_type (word_of (mem s1) process_block) = Shmem.SHMDT_PROC.
Proof. unfold word_of. cbn [fst process_block]. change (baddr x) with (baddr (carved x proc_total)). rewrite (ho_sig _ _ _ _ _ _ HH). vm_compute. reflexivity. Qed.
Lemma block_used : bfree (carved x proc_total) = false.
Proof. done. Qed.

(** A creation that fails here gives the block back. *)
Lemma given_up y rc next' : exists s2 bs2, let w' := with_errno s2 (staged x y (lists_noded x) (with_errno s1 w)) in
  Proc.create_failed p rc next' (staged x y (lists_noded x) (with_errno s1 w)) = Ret (rc, next') w' /\
  kept_world w' bs2 /\ used_of bs2 = used_of bs /\ ready k fuel l rl items rounds w' ls T bs2 /\ orderly l w' ls bs2.
Proof.
  destruct (carve_head x proc_total l2) as [l3 Ec].
  set (v := staged x y (lists_noded x) (with_errno s1 w)). assert (RegistrySpec.mapped v) as Hm by exact (sg_map _ _ _ _ _ _ (rd_segment HR)).
  assert (pool_ok s1 (l1 ++ carved x proc_total :: l3)) as Hp by (rewrite <- Ec; exact Hp1).
  destruct (tlsf_free_run s1 l1 (carved x proc_total) l3 (poolptr_of shm) me Hp) as (s2 & E2 & Hp2 & Eg2 & HG); [done|exact (rd_handle HR)|apply me_small|..].
  { change (baddr (carved x proc_total)) with (baddr x). rewrite block_is_ours, (or_me HO). apply list_elem_of_here. }
  { change (baddr (carved x proc_total)) with (baddr x). rewrite block_is_ours, (or_me HO), drop_sole; done. }
  assert (used_of (give_back l1 (carved x proc_total) l3) = used_of bs) as Eu.
  { rewrite used_of_give_back, used_at_first. f_equal. pose proof (used_of_carve l1 x l2 proc_total) as E. rewrite Ec, used_of_app, used_of_cons in E. cbn in E.
    apply app_inv_head in E. by injection E. }
  exists s2, (give_back l1 (carved x proc_total) l3). cbv zeta.
  assert (kept_world (with_errno s2 v) (give_back l1 (carved x proc_total) l3)) as Hkw.
  { split; [done|by eexists|..].
    - intros q Hq. cbn. rewrite lookup_insert_ne; [done|]. intros <-. by apply (new_process_addr x taken_in Hfree Hbig Hn).
    - split; [exact Hp2|]. cbn [pool with_errno set_loc set_pool]. by rewrite Eg2.
    - intros b Hb. rewrite Eu. split; [done|]. intros o Ho Hne. cbn [pool with_errno set_loc set_pool]. rewrite <- (allocation_keeps b Hb o Ho Hne).
      rewrite <- Eu, used_of_give_back, <- used_of_app in Hb. destruct b as [a n]. apply used_of_in in Hb as (z & Hz & Hfz & <- & <-).
      refine (gb_kept _ _ _ _ HG z _ o Ho Hne). split; [done|]. destruct Hp as (_ & _ & _ & Hset & _). destruct (Hset z) as [-> _]; [|done].
      rewrite elem_of_app, elem_of_cons in *. tauto.
    - intros m Em. cbn. rewrite lookup_insert. destruct (decide (p = m)) as [<-|]; [right; by apply block_start|by left]. }
  split; [|split; [done|split; [done|split]]].
  - unfold Proc.create_failed. by rewrite (bind_ret _ _ _ _ _ (free_run v p s2 Hm E2)).
  - apply still_ready; [done|]. apply (noded_ok x taken_in Hfree Hbig Hn).
  - apply still_orderly; [done|done|]. intros n z E Hz. cbn in E. apply lookup_insert_Some in E as [[_ <-]|[_ E]]; [done|]. by apply (or_nodes HO n z).
Qed.

(** A creation that succeeds. *)
Definition with_new (f : Z -> list Z) (q : Z) : list Z := if decide (q = p) then [] else f q.
Abbreviation ls' := (<[phead := p :: l]> (<[req_head_of p := []]> ls)).
Section success.
Context (uid ops : Z) (Huid : DAEMON_PROC_UID < uid < 2 ^ 16) (Hnew : uid ∉ ProcSpec.uids_in_use w l) (Hpid : pid ∉ (ProcSpec.pid_of w <$> l)).
Context (Hpush : ListSpin.lists_ok (lists_pushed x ops) ls').
Definition newcomer : proc := proc_record LIBSRPC_PROC_SIGN uid empty_queue.
Definition arrived_world : world := staged x newcomer (lists_pushed x ops) (with_errno s1 w).
Abbreviation w' := arrived_world.
Lemma newcomer_here : procs w' !! p = Some newcomer.
Proof. apply lookup_insert_eq. Qed.
Lemma arrival_keeps : kept_world w' bs1.
Proof.
  split; [done|by eexists|..].
  - intros q Hq. cbn. rewrite lookup_insert_ne; [done|]. intros <-. by apply (new_process_addr x taken_in Hfree Hbig Hn).
  - split; [exact Hp1|exact Eg1].
  - intros b Hb. split; [apply used_after; by right|by apply allocation_keeps].
  - intros m Em. cbn. rewrite !lookup_insert. destruct (decide (p = m)) as [<-|]; [right; by apply block_start|by left].
Qed.
Lemma with_new_p f : with_new f p = [].
Proof. unfold with_new. by rewrite decide_True. Qed.
Lemma with_new_old f q : q ∈ l -> with_new f q = f q.
Proof. intros Hq. unfold with_new. rewrite decide_False; [done|]. intros ->. by apply (new_process_addr x taken_in Hfree Hbig Hn). Qed.
Lemma new_lists h lst : ls !! h = Some lst -> h <> phead -> ls' !! h = Some lst.
Proof.
  intros E Hne. rewrite !lookup_insert_ne; [done| |done]. intros <-. rewrite (new_head x taken_in Hfree Hbig Hn) in E. done.
Qed.
Lemma new_req_head : req_head_of p <> phead /\ ls' !! req_head_of p = Some [].
Proof.
  assert (req_head_of p <> phead) as Hne by (intros E; pose proof (rd_procs HR) as Hl; rewrite <- E, (new_head x taken_in Hfree Hbig Hn) in Hl; done).
  split; [done|]. rewrite lookup_insert_ne by done. apply lookup_insert_eq.
Qed.

Lemma arrived_ready : ready k fuel (p :: l) (with_new rl) (with_new items) rounds w' ls' T bs1.
Proof.
  destruct HR as [R1 R2 R3 R4 R5 R6 R7 R8 R9 R10 R11]. pose proof R1 as [S1 S2 S3 S4 S5 S6 S7].
  assert (gc_list_of shm <> phead) as Hgp by (unfold gc_list_of, proc_head_of, GC_LIST_OFF, PROC_HEAD_OFF; lia). destruct new_req_head as [Hrh Erh].
  assert (p <> NULL) as Hp0 by (pose proof (block_positive x taken_in); unfold HEADER_SIZE; lia).
  split; try done.
  - split; [exact S1|apply (Hpush phead); apply lookup_insert_eq|cbn [length]; lia|apply not_elem_of_cons; done|..].
    + intros q [->|Hq]%elem_of_cons.
      * exists newcomer. split; [apply newcomer_here|]. rewrite with_new_p. split; [apply MpmcAlone.represents_init; lia|].
        unfold queue_fuel. pose proof pow_bounds. cbn [length]. lia.
      * rewrite with_new_old by done. rewrite (kw_procs _ _ arrival_keeps q Hq). by apply S5.
    + intros q [->|Hq]%elem_of_cons; [rewrite with_new_p; split; [by apply (Hpush _ _ Erh)|cbn; lia]|]. rewrite with_new_old by done.
      destruct (R4 q Hq) as (E & Hne & _). split; [apply (Hpush (req_head_of q)); by apply new_lists|by apply S6].
    + intros q a [->|Hq]%elem_of_cons; [rewrite with_new_p; by intros ?%not_elem_of_nil|]. rewrite with_new_old by done. by apply S7.
  - apply lookup_insert_eq.
  - intros q [->|Hq]%elem_of_cons; [rewrite with_new_p; split; [done|split; [done|]]|].
    + intros E. assert (ls !! req_head_of p = Some T) as E5 by (rewrite E; exact R5). by rewrite (new_head x taken_in Hfree Hbig Hn) in E5.
    + rewrite with_new_old by done. destruct (R4 q Hq) as (E & Hne & Hg). split; [by apply new_lists|done].
  - by apply new_lists.
  - by apply (Socket.registry_same w).
  - cbn [pool w' arrived_world staged with_errno set_procs set_lists set_loc set_pool]. by rewrite Eg1.
  - cbn [pool w' arrived_world staged with_errno set_procs set_lists set_loc set_pool]. by rewrite Eg1.
  - cbn [pool w' arrived_world staged with_errno set_procs set_lists set_loc set_pool]. by rewrite Eg1.
Qed.
Lemma arrived_orderly : orderly (p :: l) w' ls' bs1.
Proof.
  destruct HO as [O1 O2 O3 O4 O5 O6 O7]. destruct new_req_head as [Hrh Erh]. pose proof arrival_keeps as Hkw. pose proof Hkw as [_ _ K5 _ _ _].
  assert (forall a, free_at bs1 a -> free_at bs a) as Hfr.
  { eapply free_shrinks; [apply (rd_pool HR)|exact Hp1|exact Eg1|]. intros b Hb. apply used_after. by right. }
  assert (forall o, 0 <= o < 400 -> ~ free_at bs1 (p + o)) as Hours.
  { intros o Ho Hfa. eapply free_not_used; [exact Hp1|exact Hfa|]. exists process_block. split; [apply used_after; by left|]. cbn [process_block fst snd].
    destruct (size_computed Hn) as (_ & _ & Hs). pose proof (request_room proc_size ltac:(lia)) as Hr. fold proc_total in Hr.
    pose proof (carved_size x proc_total Hbig). unfold HEADER_SIZE in *. lia. }
  destruct (ProcSpec.uids_same w w' l K5) as [Eu Ep]. split.
  - exact O1.
  - intros n y E Hy. cbn in E. apply lookup_insert_Some in E as [[_ <-]|[_ E]]; [by exists (p :: l); apply lookup_insert_eq|].
    apply lookup_insert_Some in E as [[_ <-]|[_ E]]; [done|]. destruct (O2 n y E Hy) as [lst El].
    destruct (decide (ListSpin.node_head y = phead)) as [->|Hne]; [by exists (p :: l); apply lookup_insert_eq|]. exists lst. by apply new_lists.
  - intros h lst a E Ha Hfa. apply lookup_insert_Some in E as [[_ <-]|[_ E]].
    + apply elem_of_cons in Ha as [->|Ha]; [apply (Hours 0); [lia|by rewrite Z.add_0_r]|]. by apply (O3 phead l a (rd_procs HR) Ha), Hfr.
    + apply lookup_insert_Some in E as [[_ <-]|[_ E]]; [by apply not_elem_of_nil in Ha|]. by apply (O3 h lst a E Ha), Hfr.
  - intros h [lst E] Hfa. apply lookup_insert_Some in E as [[<- _]|[_ E]]; [apply (O4 phead); [exists l; apply (rd_procs HR)|by apply Hfr]|].
    apply lookup_insert_Some in E as [[<- _]|[_ E]]; [apply (Hours REQ_HEAD_OFF); [done|exact Hfa]|]. apply (O4 h); [by exists lst|by apply Hfr].
  - unfold ProcSpec.uids_in_use. rewrite fmap_cons. apply NoDup_cons. fold (ProcSpec.uids_in_use w' l). rewrite Eu. split; [|done].
    unfold ProcSpec.uid_of. rewrite newcomer_here. exact Hnew.
  - rewrite fmap_cons. apply NoDup_cons. rewrite Ep. split; [|done]. unfold ProcSpec.pid_of at 1. rewrite newcomer_here. exact Hpid.
  - intros b [->|Hb]%used_after Ht; [change (mem (pool w')) with (mem s1) in Ht; rewrite block_typed in Ht; discriminate Ht|].
    rewrite (proj1 (block_kept w' bs1 b Hkw Hb)) in Ht. by apply O7.
Qed.

Lemma arrived_leaves : exists l4, leaving fuel (p :: l) (with_new items) w' bs1 p newcomer l1 (carved x proc_total) l4.
Proof.
  destruct (carve_head x proc_total l2) as [l4 Ec]. exists l4. pose proof arrival_keeps as Hkw. pose proof Hkw as [_ _ K5 _ _ _]. split.
  - apply list_elem_of_here.
  - apply newcomer_here.
  - intros q [->|Hq]%elem_of_cons Eq; [done|]. destruct Hpid. apply list_elem_of_fmap. exists q. split; [|done]. unfold ProcSpec.pid_of in *. rewrite K5 in Eq by done. by rewrite Eq.
  - cbn. unfold DAEMON_PROC_UID in Huid. lia.
  - rewrite with_new_p. split; [cbn; lia|]. by intros a ?%not_elem_of_nil.
  - intros b [[_ Ht] Hb]%list_elem_of_filter. by apply (or_known arrived_orderly).
  - by rewrite <- Ec.
  - exists 1. change (mem (pool w')) with (mem s1). change (baddr (carved x proc_total)) with (baddr x). rewrite block_is_ours. split; [apply list_elem_of_here|]. split; [done|]. cbn. unfold DAEMON_PROC_UID in Huid. lia.
Qed.
End success.
End allocated.

(** ** All outcomes *)

(** What [libsrpc_proc_create] may answer, with the next uid and the world it leaves. *)
Inductive creation : Z -> Z -> world -> Prop :=
  | Refused : nproc <= 0 \/ 1024 < nproc \/ pid <= 0 -> creation (- EINVAL) next w
  | Known : 0 < nproc <= 1024 -> 0 < pid -> pid ∈ (ProcSpec.pid_of w <$> l) -> creation (- Proc.EEXIST) next w
  | NoMemory w' : (forall y, y ∈ bs -> bfree y = true -> class_lt (class_of y) (mapping_search proc_total)) ->
      kept_world w' bs -> ready k fuel l rl items rounds w' ls T bs -> orderly l w' ls bs -> creation (- ENOMEM) next w'
  | GivenUp rc next' w' bs' : 2 <= next' < 2 ^ 16 ->
      (rc = - Proc.PROC_EBADF /\ ((100 < length l)%nat \/ 2 ^ 16 <= next + 100)) \/ (rc = sem_rc /\ sem_rc < 0) \/ (rc = ListSpin.LIST_ELOCK /\ spin_rc <> 0) ->
      kept_world w' bs' -> used_of bs' = used_of bs -> ready k fuel l rl items rounds w' ls T bs' -> orderly l w' ls bs' -> creation rc next' w'
  | Created l1 x l2 l4 uid next' w' : 0 < nproc <= 1024 -> 0 < pid -> pid ∉ (ProcSpec.pid_of w <$> l) -> 0 <= sem_rc -> spin_rc = 0 -> 2 <= next' < 2 ^ 16 ->
      bs = l1 ++ x :: l2 -> fits (mapping_search proc_total) bs x ->
      let p := baddr x + HEADER_SIZE in let bs' := l1 ++ carved x proc_total :: l4 in
      let ls' := <[phead := p :: l]> (<[req_head_of p := []]> ls) in
      DAEMON_PROC_UID < uid < 2 ^ 16 -> uid ∉ ProcSpec.uids_in_use w l ->
      kept_world w' bs' -> (forall b, b ∈ used_of bs' <-> b = process_block x \/ b ∈ used_of bs) ->
      ready k fuel (p :: l) (with_new x rl) (with_new x items) rounds w' ls' T bs' -> orderly (p :: l) w' ls' bs' ->
      leaving fuel (p :: l) (with_new x items) w' bs' p (newcomer uid) l1 (carved x proc_total) l4 ->
      creation 0 next' w'.
Context (Hexact : forall y, y ∈ bs -> bfree y = true -> class_of y = mapping_search proc_total -> proc_total <= bsize y).

Lemma creation_run : exists rc next' w', Proc.libsrpc_proc_create (2 ^ k) fuel nproc sem_rc spin_rc pid next w = Ret (rc, next') w' /\ creation rc next' w'.
Proof.
  pose proof (rd_segment HR) as Hseg. pose proof (sg_map _ _ _ _ _ _ Hseg) as Hm. pose proof processes_listed as Hpl.
  unfold Proc.libsrpc_proc_create. rewrite with_shm by done.
  destruct ((nproc <=? 0) || (1024 <? nproc) || (pid <=? 0)) eqn:Ea.
  { exists (- EINVAL), next, w. split; [done|]. apply Refused. rewrite !orb_true_iff, !Z.leb_le, Z.ltb_lt in Ea. tauto. }
  rewrite !orb_false_iff, !Z.leb_gt, Z.ltb_ge in Ea. destruct Ea as [[Hn1 Hn2] Hpid0]. assert (0 < nproc <= 1024) as Hn by lia.
  rewrite (proj2 (Z.eqb_neq shm NULL)) by apply Hm.
  rewrite (bind_ret _ _ _ _ _ (ProcSpec.proc_get_run w l fuel pid Hm (ProcSpec.pl_listed _ _ _ Hpl) (sg_len _ _ _ _ _ _ Hseg))).
  destruct (Z.eqb_spec (default NULL (ProcSpec.first_some (fun q => if ProcSpec.pid_of w q =? pid then Some q else None) l)) NULL) as [Eg|Eg]; cbn [negb].
  2: { exists (- Proc.EEXIST), next, w. split; [done|]. apply Known; [done|lia|]. destruct (ProcSpec.first_some _ l) as [q|] eqn:E; [|done].
       apply ProcSpec.first_some_Some in E as (y & Hy & Ey). apply list_elem_of_fmap. exists y. split; [|done]. by destruct (Z.eqb_spec (ProcSpec.pid_of w y) pid). }
  apply ProcSpec.proc_get_absent in Eg; [|apply (sg_null _ _ _ _ _ _ Hseg)].
  destruct (size_computed Hn) as (-> & Hsz & Hsz2). rewrite (proj2 (Z.ltb_ge _ _) Hsz). cbv zeta.
  destruct (tlsf_malloc_run (pool w) bs (poolptr_of shm) proc_size me Shmem.SHMDT_PROC (rd_pool HR) (rd_handle HR)) as
    [(s' & E & Hp' & Em & Ei & Egeo & Hnone)|(l1 & x & l2 & s' & E & Ebs & Hfit & Hle & Hp' & Egeo & HH)];
    [rewrite (or_me HO); done|lia|exact Hexact| |]; rewrite (bind_ret _ _ _ _ _ (malloc_type_run w _ _ _ _ Hm E)).
  - exists (- ENOMEM), next, (with_errno s' w). split; [done|].
    assert (kept_world (with_errno s' w) bs) as Hkw.
    { split; [done|by eexists|done|done|..].
      - intros b Hb. split; [done|]. intros o _ _. cbn [pool with_errno set_loc set_pool]. by rewrite Em.
      - by left. }
    apply NoMemory; [done|done|apply still_ready; [done|apply (rd_lists HR)]|apply still_orderly; [done|done|apply (or_nodes HO)]].
  - fold proc_total in Hle, Hp', HH. destruct Hfit as [Hfree Hfit]. assert (x ∈ bs) as Hx by (rewrite Ebs; apply in_split).
    pose proof (block_positive x Hx) as Hpos. rewrite (proj2 (Z.eqb_neq _ NULL)) by (unfold HEADER_SIZE; lia).
    destruct (fill_run x Hx Hfree Hle Hn (with_errno s' w)) as (uid & next' & ops & Hn' & Huid & Hthere & Hpush & Efill); [done..|].
    change (exists rc next' w', ProcSpec.fill (2 ^ k) fuel nproc sem_rc spin_rc pid next w (baddr x + HEADER_SIZE) (with_errno s' w) = Ret (rc, next') w' /\ creation rc next' w').
    rewrite Efill. unfold fill_end.
    pose proof (fun y rc => given_up l1 x l2 s' Ebs Hfree Hle Hn Hp' Egeo HH y rc next') as Hback.
    destruct (Z.eqb_spec uid 0) as [->|Hu].
    { destruct (Hback (proc_record 0 0 (MpmcQueue.Queue 0 0 ∅ ∅ 0)) (- Proc.PROC_EBADF)) as (s2 & bs2 & Eb & K1 & K2 & K3 & K4). rewrite Eb. eexists _, _, _. split; [done|].
      eapply GivenUp; try done. left. split; [done|]. destruct (decide (length l <= 100)%nat); [|left; lia]. right. apply Z.nlt_ge. intros Hlt. by apply Hthere. }
    destruct (Z.ltb_spec sem_rc 0) as [Hs|Hs].
    { destruct (Hback (proc_record 0 uid (MpmcQueue.Queue 0 0 ∅ ∅ 0)) sem_rc) as (s2 & bs2 & Eb & K1 & K2 & K3 & K4). rewrite Eb. eexists _, _, _. split; [done|].
      eapply GivenUp; try done. tauto. }
    destruct (Z.eqb_spec spin_rc 0) as [Hsp|Hsp]; cbn [negb].
    2: { destruct (Hback (proc_record 0 uid empty_queue) ListSpin.LIST_ELOCK) as (s2 & bs2 & Eb & K1 & K2 & K3 & K4). rewrite Eb. eexists _, _, _. split; [done|].
      eapply GivenUp; try done. tauto. }
    destruct (Huid Hu) as [Hur Hunew]. destruct (arrived_leaves l1 x l2 s' Ebs Hfree Hle Hn Hp' Egeo HH uid ops Hur Hunew Eg) as [l4 HL].
    pose proof (arrived_ready l1 x l2 s' Ebs Hfree Hle Hn Hp' Egeo HH uid ops Hpush) as HR'.
    pose proof (arrived_orderly l1 x l2 s' Ebs Hfree Hle Hn Hp' Egeo HH uid ops Hunew Eg) as HO'.
    pose proof (arrival_keeps l1 x l2 s' Ebs Hfree Hle Hn Hp' Egeo HH uid ops) as HK. pose proof (used_after l1 x l2 Ebs Hfree Hn) as Hused.
    pose proof (lv_block HL) as [Ec _]. rewrite Ec in HL, HR', HO', HK, Hused.
    eexists 0, next', _. split; [done|].
    apply (Created l1 x l2 l4 uid); [done|lia|done|lia|done|done|done|by split|done|done|exact HK|exact Hused|exact HR'|exact HO'|exact HL].
Qed.
End arrival.

(** (C34) When no free block of the size class of the process's block is smaller than that
    block (else [TlsfPool.undersized_block_taken]), [libsrpc_proc_create] returns on every
    branch and leaves the segment, the lists and the pool sound: bad arguments and a pid that is known are refused with nothing changed;
    without a large enough free block nothing is created; when no uid is left, or the
    semaphore or the list head cannot be initialised, the block is given back; otherwise
    the process is at the front of the list, with the pid asked for, a fresh uid, a valid
    signature, an empty queue and an empty list of requests, in a block of the daemon cut
    from the first block that fits.  Other processes, requests, the registry and the
    blocks in use are as before on every branch. *)
Theorem process_created k fuel l rl items rounds nproc sem_rc spin_rc pid next w ls T bs : 1 <= k <= 40 ->
  ready k fuel l rl items rounds w ls T bs -> orderly l w ls bs -> (length l < fuel)%nat -> 2 <= next < 2 ^ 16 ->
  (forall y, y ∈ bs -> bfree y = true -> class_of y = mapping_search (proc_total k nproc) -> proc_total k nproc <= bsize y) ->
  exists rc next' w', Proc.libsrpc_proc_create (2 ^ k) fuel nproc sem_rc spin_rc pid next w = Ret (rc, next') w' /\
    creation k fuel l rl items rounds nproc sem_rc spin_rc pid next w ls T bs rc next' w'.
Proof. intros Hk HR HO Hf Hn Hexact. by apply creation_run. Qed.

(** ** A concrete creation

    In an empty segment with the pool as [tlsf_create] leaves it. *)
Definition demo_vacant : world :=
  let empty := RpcFunc 0 NULL (replicate 8 NULL) in
  set_loc (Local 1 demo_shm 0 DAEMON_PROC_UID true false 0 0 [] 0 0 0)
    (set_funcs [empty; empty; empty; empty; empty]
      (set_lists (ListSpin.LStore ∅ {[ proc_head_of demo_shm := ListSpin.LHead NULL 0; gc_list_of demo_shm := ListSpin.LHead NULL 0 ]}) Shmem.demo_world)).
Definition demo_vacant_ls : gmap Z (list Z) := {[ gc_list_of demo_shm := []; proc_head_of demo_shm := [] ]}.
Lemma demo_vacant_registry : RegistrySpec.registry_ok demo_vacant.
Proof.
  split; [split|].
  - reflexivity.
  - intros k f E. RegistrySpec.each_func E; reflexivity.
  - intros k f E. RegistrySpec.each_func E; left; reflexivity.
  - intros j k f g Ef Eg. RegistrySpec.each_func Ef; RegistrySpec.each_func Eg; try (left; reflexivity); right; reflexivity.
  - intros k n E. unfold RegistrySpec.numf in E. apply fmap_Some in E as (f & E & ->). RegistrySpec.each_func E; reflexivity.
Qed.
Lemma demo_vacant_lists : ListSpin.lists_ok (lists demo_vacant) demo_vacant_ls.
Proof.
  assert (forall n, ListSpin.nodes (lists demo_vacant) !! n = None) as Hn by (intros n; apply lookup_empty).
  intros h lst E. unfold demo_vacant_ls in E.
  apply lookup_insert_Some in E as [[<- <-]|[_ E]]; [|apply lookup_singleton_Some in E as [<- <-]]; (split; [discriminate|]);
    (split; [eexists; reflexivity|reflexivity|constructor|intros n x En; rewrite Hn in En; discriminate En]).
Qed.
Lemma demo_vacant_segment : segment 1 20 [] (fun _ => []) (fun _ => []) demo_vacant.
Proof.
  split; [split; discriminate|by apply (demo_vacant_lists (proc_head_of demo_shm))|cbn; lia|apply not_elem_of_nil|by intros p ?%not_elem_of_nil|by intros p ?%not_elem_of_nil|by intros p a ?%not_elem_of_nil].
Qed.
Lemma demo_vacant_ready s : pool_ok s small_pool -> ready 1 20 [] (fun _ => []) (fun _ => []) 20 (set_pool s demo_vacant) demo_vacant_ls [] small_pool.
Proof.
  intros P. assert (heap_size (geo s) = 1472) as E.
  { destruct P as (_ & _ & _ & _ & F & Hh). pose proof (hp_tiled _ _ _ Hh) as Ti. apply tiled_end in Ti. cbn in Ti. lia. }
  split.
  - apply segment_set_pool. exact demo_vacant_segment.
  - rewrite (lists_set_pool s demo_vacant). exact demo_vacant_lists.
  - rewrite (shm_set_pool s demo_vacant). reflexivity.
  - intros q Hq. by apply not_elem_of_nil in Hq.
  - rewrite (shm_set_pool s demo_vacant). reflexivity.
  - apply registry_set_pool. exact demo_vacant_registry.
  - exact P.
  - rewrite (shm_set_pool s demo_vacant). discriminate.
  - cbn [pool set_pool]. rewrite E. reflexivity.
  - cbn [pool set_pool]. rewrite E. reflexivity.
  - cbn [pool set_pool]. rewrite E. reflexivity.
Qed.
Lemma demo_low a : a < demo_block -> ~ free_at small_pool a.
Proof. intros Ha (x & ->%list_elem_of_singleton & _ & Hx). cbn in Hx. lia. Qed.
Lemma demo_vacant_orderly s : orderly [] (set_pool s demo_vacant) demo_vacant_ls small_pool.
Proof.
  split.
  - reflexivity.
  - intros n x. rewrite (lists_set_pool s demo_vacant). assert (ListSpin.nodes (lists demo_vacant) !! n = None) as -> by apply lookup_empty. discriminate.
  - intros h lst a E Ha _. unfold demo_vacant_ls in E. apply lookup_insert_Some in E as [[_ <-]|[_ E]]; [|apply lookup_singleton_Some in E as [_ <-]]; by apply not_elem_of_nil in Ha.
  - intros h [lst E]. unfold demo_vacant_ls in E. apply lookup_insert_Some in E as [[<- _]|[_ E]]; [|apply lookup_singleton_Some in E as [<- _]]; apply demo_low; reflexivity.
  - constructor.
  - constructor.
  - intros b Hb. by apply not_elem_of_nil in Hb.
Qed.
Lemma process_created_witness : exists s next' w' bs' p,
  Proc.libsrpc_proc_create (2 ^ 1) 20 1 0 0 500 2 (set_pool s demo_vacant) = Ret (0, next') w' /\ pool_ok s small_pool /\
  segment 1 20 [p] (fun _ => []) (fun _ => []) w' /\ ProcSpec.pid_of w' p = 500 /\ pool_ok (pool w') bs' /\ exists n, (p - HEADER_SIZE, n) ∈ used_of bs'.
Proof.
  destruct fresh_pool as (s & _ & P). exists s.
  destruct (process_created 1 20 [] (fun _ => []) (fun _ => []) 20 1 0 0 500 2 (set_pool s demo_vacant) demo_vacant_ls [] small_pool) as (rc & next' & w' & E & C).
  - split; discriminate.
  - apply demo_vacant_ready. exact P.
  - apply demo_vacant_orderly.
  - cbn [length]. lia.
  - split; [discriminate|reflexivity].
  - by intros y ->%list_elem_of_singleton _ _.
  - destruct C as [H|_ _ H|w' H _ _ _|rc next' w' bs' _ H _ _ _ _|l1 x l2 l4 uid next' w' _ _ _ _ _ _ _ _ p bs' ls' _ _ _ _ HR _ HL].
    + exfalso. lia.
    + exfalso. by apply not_elem_of_nil in H.
    + exfalso. specialize (H _ (list_elem_of_here _ _) eq_refl). revert H. unfold class_lt. vm_compute. naive_solver.
    + exfalso. destruct H as [[_ [H|H]]|[[_ H]|[_ H]]]; cbn [length] in H; lia.
    + exists next', w', bs', p. split; [exact E|]. split; [exact P|]. split; [|split; [|split; [exact (rd_pool HR)|]]].
      * destruct (rd_segment HR) as [H1 H2 H3 H4 H5 H6 H7]. split; try assumption.
        -- intros q Hq. pose proof (H5 q Hq) as Hx. apply list_elem_of_singleton in Hq as ->. unfold with_new in Hx. rewrite decide_True in Hx by done. exact Hx.
        -- intros q Hq. pose proof (H6 q Hq) as Hx. apply list_elem_of_singleton in Hq as ->. unfold with_new in Hx. rewrite decide_True in Hx by done. exact Hx.
        -- intros q a _ Ha. by apply not_elem_of_nil in Ha.
      * unfold ProcSpec.pid_of. rewrite (lv_proc HL). reflexivity.
      * exists (bsize (carved x (proc_total 1 1))). replace (p - HEADER_SIZE) with (baddr (carved x (proc_total 1 1))) by (unfold p; cbn [baddr carved]; lia).
        apply pair_in. reflexivity.
Defined.
