(* ===== verification/RequestBlock.v ===== *)
(** The request block of a call, and the call, without assuming that they return: the
    caller's state, its list of requests and the pool are followed through
    [libsrpc_req_alloc] of [libsrpc.c]. *)
From S2P Require Import Prelude Machine Errno Request TlsfTypes TlsfBul TlsfHeap TlsfAlloc TlsfApi TlsfFacts TlsfHoare TlsfOwners TlsfOwnership TlsfSpec TlsfLists TlsfTiling TlsfBlocks TlsfMalloc TlsfFree TlsfPool TlsfWalk TlsfRealloc ProcMemory World Rpc RpcSpec RpcCall RequestSpec RpcCallSpec RemoteCall Trash Gc GcSpec Collection CollectionSpec Deferred Departure Arrival.
From S2P Require Marshal Shmem ListSpin Registry RegistrySpec MpmcQueue MpmcAlone.

(** What happens to memory in use: it stays in use, with its owners and its contents. *)
Definition left_alone (s : tlsf) (bs : list blk) (s' : tlsf) (bs' : list blk) : Prop := forall b, b ∈ used_of bs ->
  b ∈ used_of bs' /\ uids (mem s') b.1 = uids (mem s) b.1 /\ forall o, HEADER_SIZE <= o < b.2 -> rdm (mem s') (b.1 + o) = rdm (mem s) (b.1 + o).
Lemma left_alone_trans s bs s1 bs1 s2 bs2 : left_alone s bs s1 bs1 -> left_alone s1 bs1 s2 bs2 -> left_alone s bs s2 bs2.
Proof.
  intros H1 H2 b Hb. destruct (H1 b Hb) as (Hb1 & U1 & P1), (H2 b Hb1) as (Hb2 & U2 & P2). split; [done|]. split; [congruence|]. intros o Ho. by rewrite P2, P1.
Qed.
(** Nodes that are on a list are on [h] or were on their list before. *)
Definition only_joins (h : Z) (L L' : ListSpin.list_store) : Prop := forall m y,
  ListSpin.nodes L' !! m = Some y -> ListSpin.node_head y <> NULL -> ListSpin.node_head y = h \/ ListSpin.nodes L !! m = Some y.

Section caller.
Context (w : world) (ls : gmap Z (list Z)) (mine : list Z) (bs : list blk).
Abbreviation shm := (shm_ptr (loc w)).
Abbreviation me := (my_uid (loc w)).
Abbreviation rhead := (req_head_of (my_proc (loc w))).
Abbreviation cur := (current_req (loc w)).

(** A thread that is about to call: its pool is at rest, the lists are sound and their
    nodes in no free memory, its requests are the list [mine]; its current request is
    one of them, in a block in use. *)
Record calling : Prop := Calling {
  cg_map : RegistrySpec.mapped w;
  cg_handle : poolptr_of shm <> 0;
  cg_uid : 0 < me < 2 ^ 16;
  cg_pool : pool_ok (pool w) bs;
  cg_lists : ListSpin.lists_ok (lists w) ls;
  cg_mine : ls !! rhead = Some mine;
  cg_nodes : forall n x, ListSpin.nodes (lists w) !! n = Some x -> ListSpin.node_head x <> NULL -> is_Some (ls !! ListSpin.node_head x);
  cg_away : forall h lst a, ls !! h = Some lst -> a ∈ lst -> ~ free_at bs a;
  cg_current : cur <> NULL -> (cur ∈ mine) /\ exists y, y ∈ bs /\ bfree y = false /\ cur = baddr y + HEADER_SIZE }.
Context (HC : calling).

(** ** A new block *)

Section block.
Context (l1 : list blk) (x : blk) (l2 : list blk) (total size : Z) (s1 : tlsf) (locks : list Z).
Context (Ebs : bs = l1 ++ x :: l2) (Hfree : bfree x = true) (Htotal : HEADER_SIZE < total <= bsize x).
Context (Hp1 : pool_ok s1 (l1 ++ carve x total l2)) (Eg1 : geo s1 = geo (pool w)).
Abbreviation a := (baddr x + HEADER_SIZE).
Abbreviation bs1 := (l1 ++ carve x total l2).
Definition blank_request : request := Request 0 NULL LIBSRPC_REQ_SIGN 0 locks 0 0 0 0 0 (replicate (Z.to_nat (size - offsetof_request_buf)) 0).
Lemma request_pos : a <> NULL /\ free_at bs a.
Proof.
  assert (x ∈ bs) as Hx by (rewrite Ebs; apply in_split). destruct (cg_pool HC) as (_ & _ & Hg & _ & F & Hh). destruct (block_facts _ _ F Hg Hh x Hx) as (_ & [_ Hpos] & _).
  unfold HEADER_SIZE in *. split; [lia|]. exists x. split; [done|]. split; [done|]. lia.
Qed.
Lemma request_unlisted h lst : ls !! h = Some lst -> a ∉ lst.
Proof. intros E Hin. by apply (cg_away HC h lst a E Hin), request_pos. Qed.
Lemma request_node y : ListSpin.nodes (lists w) !! a = Some y -> ListSpin.node_head y = NULL.
Proof.
  intros E. destruct (decide (ListSpin.node_head y = NULL)) as [|Hne]; [done|]. destruct (cg_nodes HC a y E Hne) as [lst El].
  destruct (cg_lists HC _ _ El) as [_ Hl]. exfalso. by apply (request_unlisted _ lst El), (ListSpin.lk_member _ _ _ Hl a y E).
Qed.
(** Blocks in use stay in use. *)
Lemma still_used y : y ∈ bs -> bfree y = false -> exists m1 y' m2, bs1 = m1 ++ y' :: m2 /\ bfree y' = false /\ baddr y' = baddr y.
Proof.
  intros Hy Hfy. assert (pair_of y ∈ used_of bs1) as Hin.
  { rewrite used_of_carve, elem_of_app, elem_of_cons. assert (pair_of y ∈ used_of bs) as H by (apply used_of_in; by exists y).
    rewrite Ebs, used_of_app, used_of_cons, Hfree in H. cbn [app] in H. rewrite elem_of_app in H. tauto. }
  apply used_of_in in Hin as (y' & Hy' & Hf' & Ea & _). apply list_elem_of_split in Hy' as (m1 & m2 & E). by exists m1, y', m2.
Qed.

(** The block is initialised and put in front of the thread's requests. *)
Definition with_block (L : ListSpin.list_store) (v : world) : world := set_lists L (set_reqs (<[a := blank_request]> (reqs v)) v).
Lemma block_listed v : lists v = lists w -> exists L, ListSpin.lists_ok L (<[rhead := a :: mine]> ls) /\ only_joins rhead (lists w) L /\
  forall K : WM Z, (RpcCall.init_request a size locks ;; lift_list (ListSpin.libsrpc_list_push_front rhead (node_of a)) ;; K) v = K (with_block L v).
Proof.
  intros El. set (L1 := ListSpin.LStore (<[a := ListSpin.Node NULL NULL]> (ListSpin.nodes (lists w))) (ListSpin.heads (lists w))).
  assert (ListSpin.lists_ok L1 ls) as Hok1 by apply (lists_ok_free (lists w) ls a request_node (cg_lists HC)).
  destruct request_pos as [Ha _]. pose proof (cg_mine HC) as Em. destruct (Hok1 _ _ Em) as [Hh Hl]. destruct (ListSpin.lk_head _ _ _ Hl) as [ops Eops].
  assert (ListSpin.nodes L1 !! a = Some (ListSpin.Node NULL NULL)) as En by apply lookup_insert_eq.
  pose proof (ListSpin.push_front_exec L1 rhead a NULL _ ops Hh Ha En Eops) as Epush. set (L2 := ListSpin.LStore _ _) in Epush.
  exists L2. split; [exact (ListSpin.lists_ok_push L1 ls rhead mine a NULL ops _ Hok1 Em Ha En Eops)|]. split.
  { intros m y E Hy. cbn in E. apply lookup_insert_Some in E as [[_ <-]|[Hne E]]; [by left|]. rewrite lookup_insert_ne in E by done. by right. }
  intros K. rewrite (bind_ret _ _ tt _ (set_lists L1 (set_reqs (<[a := blank_request]> (reqs v)) v))).
  - rewrite (bind_ret _ _ ListSpin.LIST_OK _ (with_block L2 v)); [reflexivity|]. unfold lift_list, node_of. cbn [lists set_lists]. rewrite Epush. reflexivity.
  - unfold RpcCall.init_request. rewrite (bind_ret (put_req a blank_request) _ tt _ (set_reqs (<[a := blank_request]> (reqs v)) v)) by done.
    unfold lift_list, node_of, ListSpin.libsrpc_list_node_init. rewrite (proj2 (Z.eqb_neq a NULL)) by done. unfold ListSpin.put_node, modify. cbn [lists set_reqs]. rewrite El. reflexivity.
Qed.

(** The old request leaves the list and is left to the collector. *)
Lemma old_request_freed fuel L v : (length mine < fuel)%nat -> lists v = L -> ListSpin.lists_ok L (<[rhead := a :: mine]> ls) -> pool v = s1 ->
  simplerpc_data (loc v) = simplerpc_data (loc w) -> shm_ptr (loc v) = shm -> cur <> NULL ->
  exists v', libsrpc_req_free fuel cur v = Ret tt v' /\ reqs v' = reqs v /\ loc v' = set_libsrpc_errno 0 (loc v) /\ pool_ok (pool v') bs1 /\ geo (pool v') = geo s1 /\
    left_alone s1 bs1 (pool v') bs1 /\ (exists b, b ∈ used_of bs1 /\ b.1 + HEADER_SIZE = cur /\ sig_dc_flag (word_of (mem (pool v')) b) = true) /\
    only_joins rhead L (lists v') /\ ListSpin.lists_ok (lists v') (<[rhead := filter (fun q => q <> cur) (a :: mine)]> ls).
Proof.
  intros Hlen EL Hok Ep Ed Es Hcur. destruct (cg_current HC Hcur) as (Hin & y & Hy & Hfy & Ey).
  destruct (still_used y Hy Hfy) as (m1 & y' & m2 & Eb & Hf' & Ea).
  destruct (list_remove_run L _ rhead (a :: mine) cur fuel Hok (lookup_insert_eq _ _ _)) as (L' & Erem & Hok' & _ & Hjoin); [by apply list_elem_of_further|cbn; lia|].
  rewrite insert_insert_eq in Hok'. assert (RegistrySpec.mapped (set_lists L' v)) as Hm by (unfold RegistrySpec.mapped; cbn; rewrite Ed, Es; exact (cg_map HC)).
  assert (pool_ok (pool (set_lists L' v)) (m1 ++ y' :: m2)) as Hp by (cbn; rewrite Ep, <- Eb; exact Hp1).
  pose proof (free_dc_world (set_lists L' v) m1 y' m2 Hm) as Edc. cbn [loc set_lists] in Edc. rewrite Es in Edc. specialize (Edc (cg_handle HC) Hp Hf'). rewrite Ea, <- Ey in Edc.
  set (v2 := set_loc _ _) in Edc. destruct (gc_wakeup_run v2 Hm) as [rc Ew]. exists (set_gc_sem (gc_sem v2 + 1) v2). split; [|split; [done|split; [done|]]].
  { unfold libsrpc_req_free. rewrite (proj2 (Z.eqb_neq cur NULL)) by done.
    rewrite (bind_ret _ _ ListSpin.LIST_OK _ (set_lists L' v)) by (unfold lift_list, node_of; by rewrite EL, Erem).
    rewrite (bind_ret _ _ _ _ _ Edc). by rewrite (bind_ret _ _ _ _ _ Ew). }
  assert (pool (set_gc_sem (gc_sem v2 + 1) v2) = set_mem (marked_mem y' (mem s1)) s1) as -> by (cbn; by rewrite Ep).
  cbn [pool set_lists] in Hp. rewrite Ep in Hp. destruct (setdc_facts s1 m1 y' m2 Hp Hf') as [Hflag Ho]. rewrite Eb.
  split; [by apply pool_marked|]. split; [done|]. split; [intros b Hb; destruct (Ho b Hb) as (? & _ & ?); done|].
  split; [exists (pair_of y'); split; [apply used_of_in; exists y'; split; [apply in_split|done]|split; [cbn; lia|done]]|]. by split.
Qed.

(** Before the request is put together the other memory is as it was. *)
Lemma allocation_leaves uid ty : handed_out (in_use (l1 ++ l2)) (pool w) s1 (carved x total) uid ty -> left_alone (pool w) bs s1 bs1.
Proof.
  intros HH b Hb. pose proof (cg_pool HC) as Hp. destruct (pair_size _ _ _ Hp Hb) as [Hsz _].
  assert (b ∈ used_of (l1 ++ l2)) as Hb2 by (rewrite Ebs, used_of_app, used_of_cons, Hfree in Hb; by rewrite used_of_app).
  assert (pair_kept (mem (pool w)) (mem s1) b) as Hk.
  { destruct b as [p n]. apply used_of_in in Hb2 as (y & Hy & Hfy & <- & <-). refine (ho_kept _ _ _ _ _ _ HH y _). split; [done|].
    destruct Hp as (_ & _ & _ & Hset & _). destruct (Hset y) as [-> _]; [|done]. rewrite Ebs, elem_of_app, elem_of_cons. apply elem_of_app in Hy. tauto. }
  split; [rewrite used_of_carve, elem_of_app, elem_of_cons; rewrite used_of_app, elem_of_app in Hb2; tauto|].
  split; [by apply (pair_kept_word _ _ _ Hsz Hk)|]. intros o Ho. apply Hk; unfold OFF_prev_size, HEADER_SIZE in *; lia.
Qed.

(** Everything after the allocation. *)
Lemma new_request_run fuel fid sz off rs num : (length mine < fuel)%nat ->
  exists w', (modl (set_current_req a) ;; RpcCall.init_request a size locks ;; lift_list (ListSpin.libsrpc_list_push_front rhead (node_of a)) ;;
      libsrpc_req_free fuel cur ;; finish_alloc a fid sz off rs num) (with_errno s1 w) = Ret a w' /\
    pool_ok (pool w') bs1 /\ geo (pool w') = geo s1 /\ left_alone s1 bs1 (pool w') bs1 /\
    ListSpin.lists_ok (lists w') (<[rhead := a :: filter (fun q => q <> cur) mine]> ls) /\ only_joins rhead (lists w) (lists w') /\
    (cur <> NULL -> exists b, b ∈ used_of bs1 /\ b.1 + HEADER_SIZE = cur /\ sig_dc_flag (word_of (mem (pool w')) b) = true).
Proof.
  intros Hlen. set (v := set_loc (set_current_req a (loc (with_errno s1 w))) (with_errno s1 w)). rewrite (bind_ret _ _ tt _ v) by done.
  destruct (block_listed v eq_refl) as (L & HL & Hj & EK). set (v1 := with_block L v).
  assert (reqs v1 !! a = Some blank_request) as Er by apply lookup_insert_eq.
  enough (exists w', (libsrpc_req_free fuel cur ;; finish_alloc a fid sz off rs num) v1 = Ret a w' /\
    pool_ok (pool w') bs1 /\ geo (pool w') = geo s1 /\ left_alone s1 bs1 (pool w') bs1 /\
    ListSpin.lists_ok (lists w') (<[rhead := a :: filter (fun q => q <> cur) mine]> ls) /\ only_joins rhead (lists w) (lists w') /\
    (cur <> NULL -> exists b, b ∈ used_of bs1 /\ b.1 + HEADER_SIZE = cur /\ sig_dc_flag (word_of (mem (pool w')) b) = true)) as (w' & E & H).
  { exists w'. split; [|exact H]. rewrite <- E. exact (EK (fun _ => _)). }
  destruct (Z.eqb_spec cur NULL) as [Ec|Hc].
  - eexists. split.
    { unfold libsrpc_req_free. rewrite (proj2 (Z.eqb_eq cur NULL)) by done. rewrite bind_mret. by rewrite (finish_alloc_run _ _ _ _ _ _ _ _ Er). }
    split; [exact Hp1|]. split; [done|]. split; [by intros b Hb|]. split; [|split; [exact Hj|done]].
    rewrite filter_id; [exact HL|]. intros q Hq ->. destruct (cg_lists HC _ _ (cg_mine HC)) as [_ Hl].
    by apply (chain_nonnull _ _ _ _ _ (ListSpin.lk_chain _ _ _ Hl) Hq).
  - destruct (old_request_freed fuel L v1 Hlen eq_refl HL eq_refl eq_refl eq_refl Hc) as (v2 & E2 & R2 & L2 & P2 & G2 & A2 & F2 & J2 & O2).
    rewrite (bind_ret _ _ _ _ _ E2). rewrite <- R2 in Er. eexists. split; [by rewrite (finish_alloc_run _ _ _ _ _ _ _ _ Er)|].
    split; [exact P2|]. split; [exact G2|]. split; [exact A2|]. split; [|split; [|intros _; exact F2]].
    + rewrite filter_cons, decide_True in O2; [exact O2|]. intros E. destruct (cg_current HC Hc) as [Hin _]. rewrite <- E in Hin.
      by apply (request_unlisted _ _ (cg_mine HC)).
    + intros m y E Hy. destruct (J2 m y E Hy) as [|E']; [by left|by apply Hj].
Qed.
End block.
End caller.

(** ** The allocation returns *)

(** The size of the block that a call asks for. *)
Definition request_size (reqlen rlen num : Z) : Z := u64 ((req_layout reqlen rlen num).2 * 2).
Abbreviation request_total reqlen rlen num := (request_to_block_size (request_size reqlen rlen num)).
Lemma request_size_bounds reqlen rlen num : layout_fits reqlen rlen num -> 2 * (sizeof_request + (reqlen + 7) + (sizeof_response + rlen + 7) * num) < 2 ^ 32 ->
  0 < request_size reqlen rlen num < 2 ^ 32.
Proof.
  intros Hf Hb. destruct (req_layout_spec _ _ _ Hf) as (off & rs & El & H1 & _ & H3 & _ & H5). unfold request_size. rewrite El. cbn [snd].
  destruct Hf as (? & ? & ? & ?). unfold sizeof_request, sizeof_response in *. assert (0 <= rs * num) by nia.
  assert (rs * num <= (16 + rlen + 7) * num) by nia. rewrite u64_small by lia. lia.
Qed.

(** The thread may call again. *)
Lemma calling_again w ls mine bs w' bs' mine' a : calling w ls mine bs -> same_setup (loc w) (loc w') -> current_req (loc w') = a ->
  pool_ok (pool w') bs' -> geo (pool w') = geo (pool w) -> left_alone (pool w) bs (pool w') bs' ->
  let ls' := <[req_head_of (my_proc (loc w)) := mine']> ls in
  ListSpin.lists_ok (lists w') ls' -> only_joins (req_head_of (my_proc (loc w))) (lists w) (lists w') ->
  a ∈ mine' -> (forall q, q ∈ mine' -> q = a \/ q ∈ mine) -> (exists y, y ∈ bs' /\ bfree y = false /\ a = baddr y + HEADER_SIZE) ->
  calling w' ls' mine' bs'.
Proof.
  intros [C1 C2 C3 C4 C5 C6 C7 C8 C9] (S1 & S2 & S3 & S4 & _) Ea Hp Hg Hleft ls' Hok Hj Hin Hsub (y & Hy & Hfy & Ey). split.
  - unfold RegistrySpec.mapped in *. by rewrite S1, S2.
  - by rewrite S2.
  - by rewrite S4.
  - done.
  - exact Hok.
  - unfold ls'. rewrite S3. apply lookup_insert_eq.
  - intros n x En Hx. unfold ls'. rewrite lookup_insert. destruct (decide (_ = _)) as [|Hne]; [by eexists|].
    destruct (Hj n x En Hx) as [E|E]; [by destruct Hne|by apply (C7 n)].
  - intros h lst b El Hb Hfr. assert (free_at bs b) as Hfr0.
    { apply (free_shrinks (pool w) bs (pool w') bs' C4 Hp Hg); [|done]. intros p Hpb. apply (Hleft p Hpb). }
    assert (b = a \/ exists h0 lst0, ls !! h0 = Some lst0 /\ b ∈ lst0) as [->|(h0 & lst0 & E0 & Hb0)].
    { unfold ls' in El. apply lookup_insert_Some in El as [[<- <-]|[_ El]]; [|right; by exists h, lst].
      destruct (Hsub b Hb) as [->|Hb']; [by left|right; by exists (req_head_of (my_proc (loc w))), mine]. }
    + apply (free_not_used (pool w') bs' a Hp Hfr). exists (pair_of y). split; [apply used_of_in; by exists y|].
      assert (pair_of y ∈ used_of bs') as Hu by (apply used_of_in; by exists y). pose proof (pair_size _ _ _ Hp Hu) as [Hsz _].
      cbn in *. unfold HEADER_SIZE in *. lia.
    + by apply (C8 h0 lst0 b E0 Hb0).
  - intros _. rewrite Ea. split; [done|]. by exists y.
Qed.
Lemma calling_same w ls mine bs w' : calling w ls mine bs -> (exists e, loc w' = set_libsrpc_errno e (loc w)) -> lists w' = lists w -> pool_ok (pool w') bs -> calling w' ls mine bs.
Proof. intros [C1 C2 C3 C4 C5 C6 C7 C8 C9] [e E] El Hp. split; rewrite ?E, ?El; try done. unfold RegistrySpec.mapped in *. by rewrite E. Qed.

(** The ends of the allocation. *)
Definition no_room (bs : list blk) (total : Z) : Prop := forall y, y ∈ bs -> bfree y = true -> class_lt (class_of y) (mapping_search total).
Definition no_function (f : rpc_func) (w : world) (a : Z) (w' : world) : Prop :=
  a = NULL /\ num_all f = 0 /\ w' = set_loc (set_libsrpc_errno ENOREGFUN (loc w)) w.
Definition no_memory (w : world) (ls : gmap Z (list Z)) (mine : list Z) (bs : list blk) (total a : Z) (w' : world) : Prop :=
  a = NULL /\ libsrpc_errno (loc w') = ENOMEM /\ no_room bs total /\ mem (pool w') = mem (pool w) /\ calling w' ls mine bs.
Record has_request (w : world) (ls : gmap Z (list Z)) (mine : list Z) (bs : list blk) (a : Z) (w' : world) (mine' : list Z) (bs' : list blk) : Prop := HasRequest {
  hr_again : calling w' (<[req_head_of (my_proc (loc w)) := mine']> ls) mine' bs';
  hr_others : left_alone (pool w) bs (pool w') bs';
  hr_block : (a = current_req (loc w) /\ mine' = mine /\ bs' = bs) \/
    (free_at bs a /\ mine' = a :: filter (fun q => q <> current_req (loc w)) mine /\
     (current_req (loc w) <> NULL -> exists b, b ∈ used_of bs' /\ b.1 + HEADER_SIZE = current_req (loc w) /\
        sig_dc_flag (word_of (mem (pool w')) b) = true)) }.

Section returns.
Context (fuel : nat) (w : world) (ls : gmap Z (list Z)) (mine : list Z) (bs : list blk) (HC : calling w ls mine bs).
Context (Hcur : current_ok w) (Hlen : (length mine < fuel)%nat).
Context (fid reqlen rlen : Z) (f : rpc_func) (Hf : get_func (sRPC_ID2IDX fid) w = Ret f w).
Abbreviation num := (num_all f).
Abbreviation size := (request_size reqlen rlen num).
Abbreviation total := (request_to_block_size size).
Abbreviation cur := (current_req (loc w)).
Context (Hfits : num <> 0 -> layout_fits reqlen rlen num).
Context (Hbig : 2 * (sizeof_request + (reqlen + 7) + (sizeof_response + rlen + 7) * num) < 2 ^ 32).
Context (Hexact : forall y, y ∈ bs -> bfree y = true -> class_of y = mapping_search total -> total <= bsize y).

(** With the function known and no block to use again. *)
Lemma new_block_run locks off rs : num <> 0 ->
  exists a w', (b ← Shmem.libsrpc_shmem_malloc_type size Shmem.SHMDT_REQUEST;
      if b =? NULL then errno_set ENOMEM ;; mret NULL
      else modl (set_current_req b) ;; RpcCall.init_request b size locks ;;
        lift_list (ListSpin.libsrpc_list_push_front (req_head_of (my_proc (loc w))) (node_of b)) ;;
        libsrpc_req_free fuel cur ;; finish_alloc b fid size off rs num) w = Ret a w' /\
    (no_memory w ls mine bs total a w' \/
     exists bs', let mine' := a :: filter (fun q => q <> cur) mine in
       pool_ok (pool w') bs' /\ geo (pool w') = geo (pool w) /\ left_alone (pool w) bs (pool w') bs' /\ free_at bs a /\
       ListSpin.lists_ok (lists w') (<[req_head_of (my_proc (loc w)) := mine']> ls) /\ only_joins (req_head_of (my_proc (loc w))) (lists w) (lists w') /\
       (exists y, y ∈ bs' /\ bfree y = false /\ a = baddr y + HEADER_SIZE) /\
       (cur <> NULL -> exists b, b ∈ used_of bs' /\ b.1 + HEADER_SIZE = cur /\ sig_dc_flag (word_of (mem (pool w')) b) = true)).
Proof using HC Hlen Hfits Hbig Hexact.
  intros Hn. pose proof (request_size_bounds _ _ _ (Hfits Hn) Hbig) as Hsz.
  assert (0 < size <= 2 ^ 64 - 128) as Hsz' by lia.
  destruct (tlsf_malloc_run (pool w) bs (poolptr_of (shm_ptr (loc w))) size (my_uid (loc w)) Shmem.SHMDT_REQUEST (cg_pool _ _ _ _ HC) (cg_handle _ _ _ _ HC) (cg_uid _ _ _ _ HC) Hsz' Hexact)
    as [(s' & E & Hp' & Em & _ & _ & Hnone)|(l1 & x & l2 & s' & E & Ebs & [Hfree _] & Hle & Hp' & Eg & HH)];
    apply (malloc_type_run w _ _ _ _ (cg_map _ _ _ _ HC)) in E; rewrite (bind_ret _ _ _ _ _ E).
  - eexists _, _. split; [reflexivity|]. left. split; [done|]. split; [done|]. split; [exact Hnone|]. split; [exact Em|].
    apply (calling_same w); [done|by eexists|done|exact Hp'].
  - pose proof (request_room size Hsz') as Hroom.
    assert (HEADER_SIZE < total <= bsize x) as Htotal by (unfold HEADER_SIZE in *; lia).
    destruct (request_pos w ls mine bs HC l1 x l2 total Ebs Hfree Htotal) as [Ha Hfr].
    destruct (new_request_run w ls mine bs HC l1 x l2 total size s' locks Ebs Hfree Htotal Hp' fuel fid size off rs num Hlen) as (w' & E' & P & G & A & O & J & F).
    exists (baddr x + HEADER_SIZE), w'. split; [rewrite (proj2 (Z.eqb_neq _ NULL)) by done; exact E'|]. right. exists (l1 ++ carve x total l2).
    split; [exact P|]. split; [congruence|]. split; [eapply left_alone_trans; [eapply allocation_leaves; [exact HC|exact Ebs|exact Hfree|exact Htotal|exact HH]|exact A]|].
    split; [done|]. split; [exact O|]. split; [exact J|]. split; [|exact F]. exists (carved x total). split; [apply carved_in|]. by split.
Qed.

(** A block that is there already. *)
Lemma same_block_run rq off rs sz : cur <> NULL -> reqs w !! cur = Some rq ->
  exists w', finish_alloc cur fid sz off rs num w = Ret cur w' /\ calling w' (<[req_head_of (my_proc (loc w)) := mine]> ls) mine bs /\ left_alone (pool w) bs (pool w') bs.
Proof using HC.
  intros Hc Er. rewrite (finish_alloc_run _ _ _ _ _ _ _ _ Er). eexists. split; [done|]. split; [|by intros b Hb].
  rewrite (insert_id ls) by apply (cg_mine _ _ _ _ HC). by destruct HC.
Qed.

Lemma request_allocated_run : exists a w', libsrpc_req_alloc fuel fid reqlen rlen w = Ret a w' /\
  (no_function f w a w' \/ no_memory w ls mine bs total a w' \/
   (allocated fid reqlen rlen num a w w' /\ exists mine' bs', has_request w ls mine bs a w' mine' bs')).
Proof using HC Hcur Hlen Hf Hfits Hbig Hexact.
  enough (exists a w', libsrpc_req_alloc fuel fid reqlen rlen w = Ret a w' /\
    (no_function f w a w' \/ no_memory w ls mine bs total a w' \/
     (a <> NULL /\ (allocated fid reqlen rlen num a w w' -> exists mine' bs', has_request w ls mine bs a w' mine' bs')))) as (a & w' & E & H).
  { exists a, w'. split; [done|]. destruct H as [H|[H|[Ha H]]]; [by left|by right; left|]. right; right.
    destruct (req_alloc_run fuel fid reqlen rlen w f a w' Hcur Hf Hfits Hbig E) as [(? & _)|[_ Hal]]; [done|]. split; [done|by apply H]. }
  unfold libsrpc_req_alloc. rewrite with_shm by apply (cg_map _ _ _ _ HC). rewrite (bind_ret _ _ (my_proc (loc w)) _ w) by done.
  rewrite (proj2 (Z.eqb_neq (shm_ptr (loc w)) NULL)) by apply (cg_map _ _ _ _ HC). rewrite (bind_ret _ _ _ _ _ Hf).
  destruct (Z.eqb_spec num 0) as [E0|Hn]; [eexists _, _; split; [reflexivity|by left]|].
  destruct (req_layout reqlen rlen num) as [[off rs] sz] eqn:El. assert (u64 (sz * 2) = size) as Eu by (unfold request_size; by rewrite El).
  rewrite (bind_ret _ _ cur _ w) by done. rewrite Eu.
  assert (forall locks, exists a w', (b ← Shmem.libsrpc_shmem_malloc_type size Shmem.SHMDT_REQUEST;
      if b =? NULL then errno_set ENOMEM ;; mret NULL
      else modl (set_current_req b) ;; RpcCall.init_request b size locks ;;
        lift_list (ListSpin.libsrpc_list_push_front (req_head_of (my_proc (loc w))) (node_of b)) ;;
        libsrpc_req_free fuel cur ;; finish_alloc b fid size off rs num) w = Ret a w' /\
    (no_function f w a w' \/ no_memory w ls mine bs total a w' \/
     (a <> NULL /\ (allocated fid reqlen rlen num a w w' -> exists mine' bs', has_request w ls mine bs a w' mine' bs')))) as Hnew.
  { intros locks. destruct (new_block_run locks off rs Hn) as (a & w' & E & [H|(bs' & P & G & A & Fr & O & J & Y & M)]); exists a, w'; (split; [exact E|]); [right; by left|].
    right; right. split; [destruct Y as (y & Hy & _ & ->); destruct P as (_ & _ & Hg & _ & F & Hh); destruct (block_facts _ _ F Hg Hh y Hy) as (_ & [_ Hpos] & _); unfold HEADER_SIZE; lia|].
    intros (_ & Ec & _ & _ & Hset & _). exists (a :: filter (fun q => q <> cur) mine), bs'. split; [|done|by right].
    eapply calling_again; [exact HC|exact Hset|exact Ec|exact P|exact G|exact A|exact O|exact J|apply list_elem_of_here| |exact Y].
    intros q [->|Hq]%elem_of_cons; [by left|right]. by apply list_elem_of_filter in Hq as [_ ?]. }
  unfold req_or_null. destruct (Z.eqb_spec cur NULL) as [Ec|Hc].
  - rewrite bind_mret. specialize (Hnew [0; 0; 0; 0]). rewrite Ec in Hnew. exact Hnew.
  - destruct (Hcur Hc) as (rq & Er & _). rewrite (bind_bind_ret _ _ _ _ _ _ (get_req_run _ _ _ Er)), bind_mret.
    destruct (_ && _); [|exact (Hnew _)]. destruct (same_block_run rq off rs sz Hc Er) as (w' & E & H & A). exists cur, w'. split; [exact E|].
    right; right. split; [done|]. intros _. exists mine, bs. split; [done|done|by left].
Qed.
End returns.

(** (C10) [libsrpc_req_alloc] returns, for a function whose request fits and when no free
    block of the request's size class is smaller than the request.  It answers no block
    and error number [ENOREGFUN] when nobody executes the function, with nothing else
    changed; no block and [ENOMEM] exactly when all free blocks are of smaller classes;
    and else a request laid out for the call: in the thread's block, or in a new one that
    was free, first on the thread's list, the old one off the list and marked for the
    collector.  The pool and the lists are well formed again, memory in use keeps its
    owners and contents, and the thread may call once more. *)
Theorem request_allocated fuel w ls mine bs fid reqlen rlen f :
  calling w ls mine bs -> current_ok w -> (length mine < fuel)%nat -> get_func (sRPC_ID2IDX fid) w = Ret f w ->
  (num_all f <> 0 -> layout_fits reqlen rlen (num_all f)) ->
  2 * (sizeof_request + (reqlen + 7) + (sizeof_response + rlen + 7) * num_all f) < 2 ^ 32 ->
  let total := request_to_block_size (request_size reqlen rlen (num_all f)) in
  (forall y, y ∈ bs -> bfree y = true -> class_of y = mapping_search total -> total <= bsize y) ->
  exists a w', libsrpc_req_alloc fuel fid reqlen rlen w = Ret a w' /\
    (no_function f w a w' \/ no_memory w ls mine bs total a w' \/
     (allocated fid reqlen rlen (num_all f) a w w' /\ exists mine' bs', has_request w ls mine bs a w' mine' bs')).
Proof. intros HC Hcur Hlen Hf Hfits Hbig total Hexact. by apply request_allocated_run. Qed.

(** A thread whose block of 128 bytes is too small for a call to two executors. *)
Definition demo_block_request : request := Request 0 NULL LIBSRPC_REQ_SIGN 7 [0; 0; 0; 0] 19 128 8 24 1 (replicate 36 0).
Definition demo_cur : Z := TlsfSpec.demo_block + HEADER_SIZE.
Definition demo_calling (s : tlsf) : world :=
  set_pool s (set_reqs {[ demo_cur := demo_block_request ]}
    (set_lists (ListSpin.LStore {[ demo_cur := ListSpin.Node NULL (req_head_of 32768) ]} {[ req_head_of 32768 := ListSpin.LHead demo_cur 0 ]})
      (set_loc (Local 1 (TlsfSpec.demo_pool - POOL_OFF) 32768 7 true false demo_cur 0 [] 1000000 0 0) demo_sending))).
Lemma demo_nodes s n x : ListSpin.nodes (lists (demo_calling s)) !! n = Some x -> demo_cur = n /\ ListSpin.Node NULL (req_head_of 32768) = x.
Proof. apply lookup_singleton_Some. Qed.
Lemma demo_calling_ok s : pool_ok s cut_pool -> calling (demo_calling s) {[ req_head_of 32768 := [demo_cur] ]} [demo_cur] cut_pool.
Proof.
  intros Hp. split; try done.
  - intros h l E. apply lookup_singleton_Some in E as [<- <-]. split; [done|]. split.
    + by eexists.
    + split; [done|]. split; [done|]. by eexists.
    + apply NoDup_singleton.
    + intros n x E _. apply demo_nodes in E as [<- _]. apply list_elem_of_here.
  - intros n x E _. apply demo_nodes in E as [_ <-]. cbn. by eexists.
  - intros h lst a E Ha Hf. apply lookup_singleton_Some in E as [<- <-]. apply list_elem_of_singleton in Ha as ->.
    destruct Hf as (x & Hx & Hfx & Hax). unfold cut_pool in Hx. rewrite !elem_of_cons, elem_of_nil in Hx.
    destruct Hx as [->|[->|[]]]; [done|]. revert Hax. vm_compute. intuition congruence.
  - intros _. split; [apply list_elem_of_here|]. eexists. split; [apply list_elem_of_here|done].
Qed.
Lemma request_allocated_witness : exists s a w' mine' bs', pool_ok s cut_pool /\
  libsrpc_req_alloc 2 17 8 4 (demo_calling s) = Ret a w' /\ allocated 17 8 4 2 a (demo_calling s) w' /\
  has_request (demo_calling s) {[ req_head_of 32768 := [demo_cur] ]} [demo_cur] cut_pool a w' mine' bs'.
Proof.
  destruct cut_pool_reached as (s & Hp & _). exists s.
  destruct (request_allocated 2 (demo_calling s) {[ req_head_of 32768 := [demo_cur] ]} [demo_cur] cut_pool 17 8 4 (RpcFunc 2 0 [8192; 0; 16384; 0; 0; 0; 0; 0]))
    as (a & w' & E & [(_ & H & _)|[(_ & _ & H & _)|(Hal & mine' & bs' & Hr)]]).
  - by apply demo_calling_ok.
  - intros _. exists demo_block_request. split; [reflexivity|]. split; [reflexivity|]. vm_compute. intuition congruence.
  - simpl. lia.
  - reflexivity.
  - intros _. vm_compute. intuition congruence.
  - vm_compute. reflexivity.
  - intros y Hy Hfy _. unfold cut_pool in Hy. rewrite !elem_of_cons, elem_of_nil in Hy. destruct Hy as [->|[->|[]]]; [done|]. vm_compute. congruence.
  - done.
  - exfalso. specialize (H (Blk (TlsfSpec.demo_block + 192) 1280 true true true false) ltac:(apply list_elem_of_further, list_elem_of_here) eq_refl).
    revert H. unfold class_lt. vm_compute. naive_solver.
  - exists a, w', mine', bs'. split; [done|]. split; [exact E|]. by split.
Defined.
