(* ===== verification/Descriptors.v ===== *)
(** Addresses of the sockets and the passing of descriptors ([libsrpc_unix_socket.c]), on
    the bytes the kernel sees. *)
From S2P Require Import Prelude Machine Errno Bytes Socket.

(** ** Addresses *)

(** [sizeof(addr.sun_path)], [offsetof(struct sockaddr_un, sun_path)] *)
Definition SUN_PATH := 108.
Definition SUN_OFFSET := 2.
(** The address of server and client alike: [sun_path], and the length handed to [bind]
    and [connect]. *)
Definition sun_path (name : list Z) : list Z := splice 1 (strncpy name (Z.to_nat (SUN_PATH - 2))) (replicate (Z.to_nat SUN_PATH) 0).
Definition addr_len (name : list Z) : Z := u32 (SUN_OFFSET + 1 + Z.of_nat (length name)).
(** The kernel refuses a length beyond the structure; of an abstract address it takes
    the bytes that the length covers. *)
Definition kernel_address (path : list Z) (len : Z) : option (list Z) :=
  if (len <=? SUN_OFFSET) || (SUN_OFFSET + SUN_PATH <? len) then None else Some (take (Z.to_nat (len - SUN_OFFSET)) path).

(** [libsrpc_unix_scoket_server_create]: the answers of [socket], [bind] and [listen],
    each with its [errno]; the second result is the descriptor it closes. *)
Definition libsrpc_unix_scoket_server_create (sck errno bind_rc bind_errno listen_rc listen_errno : Z) : Z * option Z :=
  if sck <? 0 then (- errno, None)
  else if bind_rc <? 0 then (- bind_errno, Some sck)
  else if listen_rc <? 0 then (- listen_errno, Some sck)
  else (sck, None).

(** [libsrpc_epoll_add] on a record whose function is set or not; [ctl_rc]: what
    [epoll_ctl] answers. *)
Definition libsrpc_epoll_add (ed : option (Z * Z * bool)) (ctl_rc : Z) : Z :=
  match ed with
  | None => - EINVAL
  | Some (epfd, socket, func) => if (epfd <=? 0) || (socket <=? 0) || negb func then - EINVAL else ctl_rc
  end.

Lemma sun_path_short name : (length name <= 106)%nat -> take (1 + length name) (sun_path name) = 0 :: name.
Proof.
  intros Hn. unfold sun_path, strncpy, splice. change (Z.to_nat (SUN_PATH - 2)) with 106%nat. change (Z.to_nat SUN_PATH) with 108%nat.
  rewrite (take_ge name) by lia. change (take 1 (replicate 108 0)) with [0]. cbn [app Nat.add take]. f_equal. rewrite <- !app_assoc, take_app_le by lia.
  apply take_ge. lia.
Qed.

(** A server is found under its name: names of at most 106 characters give addresses
    of their own, which the kernel accepts. *)
Lemma address_of_name name : (length name <= 106)%nat -> kernel_address (sun_path name) (addr_len name) = Some (0 :: name).
Proof.
  intros Hn. unfold kernel_address, addr_len, SUN_OFFSET, SUN_PATH, u32. rewrite Z.mod_small by lia.
  rewrite (proj2 (Z.leb_gt _ _)), (proj2 (Z.ltb_ge _ _)) by lia. cbn [orb].
  replace (Z.to_nat (2 + 1 + Z.of_nat (length name) - 2)) with (1 + length name)%nat by lia. by rewrite sun_path_short.
Qed.
Lemma addresses_differ n1 n2 : (length n1 <= 106)%nat -> (length n2 <= 106)%nat ->
  kernel_address (sun_path n1) (addr_len n1) = kernel_address (sun_path n2) (addr_len n2) -> n1 = n2.
Proof. intros H1 H2. rewrite !address_of_name by done. congruence. Qed.
(** One character more and the last is dropped: two such names share an address. *)
Lemma long_names_collide n c d : length n = 106%nat ->
  kernel_address (sun_path (n ++ [c])) (addr_len (n ++ [c])) = kernel_address (sun_path (n ++ [d])) (addr_len (n ++ [d])).
Proof.
  intros Hn. unfold kernel_address, addr_len. rewrite !length_app. cbn [length]. do 2 f_equal. unfold sun_path, strncpy.
  change (Z.to_nat (SUN_PATH - 2)) with 106%nat. by rewrite !take_app_le, !length_app by lia.
Qed.

(** ** Control messages *)

Definition SOL_SOCKET := 1.
Definition SCM_RIGHTS := 1.
(** [struct cmsghdr]: length, level, type, data; [CMSG_LEN(sizeof(int))],
    [CMSG_SPACE(sizeof(int))]. *)
Definition CMSG_HDR := 16%nat.
Definition CMSG_LEN := 20.
Definition CMSG_SPACE := 24%nat.

(** [send_fd]: the control bytes of the message and its data, which [sendmsg] gets. *)
Definition send_fd (fd_to_send : Z) : list Z * list Z :=
  let b := replicate CMSG_SPACE 0 in
  let b := set_word 4 8 SOL_SOCKET b in
  let b := set_word 4 12 SCM_RIGHTS b in
  let b := set_word 8 0 CMSG_LEN b in
  let b := set_word 4 16 fd_to_send b in
  (take (Z.to_nat CMSG_LEN) b, [88]).
(** [recv_fd]: [rc] is what [recvmsg] answers and [control] the control bytes it leaves. *)
Definition recv_fd (rc : Z) (control : list Z) : Z :=
  if rc <? 0 then -1
  else if (length control <? CMSG_HDR)%nat then -1
  else if negb (i32 (word_at 4 8 control) =? SOL_SOCKET) then -1
  else if negb (i32 (word_at 4 12 control) =? SCM_RIGHTS) then -1
  else if word_at 8 0 control <? CMSG_LEN then -1
  else i32 (word_at 4 16 control).

(** What the kernel does to the control bytes on their way: the descriptor becomes one of
    the receiver's, and the rest stays. *)
Definition delivered (fd : Z) (control : list Z) : list Z := set_word 4 16 fd control.

Lemma send_fd_control fd : length (send_fd fd).1 = 20%nat /\ word_at 4 8 (send_fd fd).1 = SOL_SOCKET /\ word_at 4 12 (send_fd fd).1 = SCM_RIGHTS /\
  word_at 8 0 (send_fd fd).1 = CMSG_LEN /\ word_at 4 16 (send_fd fd).1 = fd mod 2 ^ 32.
Proof.
  unfold send_fd. cbn [fst]. change (Z.to_nat CMSG_LEN) with 20%nat.
  set (b0 := set_word 8 0 CMSG_LEN _). assert (length b0 = 24%nat) as Hb by reflexivity.
  assert (forall n off b, (off + n <= 20)%nat -> length b = 24%nat -> word_at n off (take 20 b) = word_at n off b) as Ht.
  { intros n off b Ho Hl. unfold word_at, slice. rewrite take_drop_commute, take_take. by replace ((off + n) `min` 20)%nat with (off + n)%nat by lia; rewrite <- take_drop_commute. }
  assert (length (set_word 4 16 fd b0) = 24%nat) as Hs by (rewrite length_set_word; [done|lia]).
  split; [rewrite length_take; lia|]. rewrite !Ht by (done || lia). rewrite !word_at_set_ne by lia. rewrite word_at_set by lia. by split_and!.
Qed.

(** The descriptor the kernel made for the receiver is what [recv_fd] answers; without
    control bytes (the daemon hung up) it answers -1. *)
Lemma passing fd fd' rc : 0 <= rc -> 0 <= fd' < 2 ^ 31 -> recv_fd rc (delivered fd' (send_fd fd).1) = fd'.
Proof.
  intros Hrc Hf. destruct (send_fd_control fd) as (Hl & H1 & H2 & H3 & _). unfold recv_fd, delivered.
  rewrite (proj2 (Z.ltb_ge rc 0)) by lia. rewrite length_set_word by lia. rewrite Hl. cbn [Nat.ltb Nat.leb CMSG_HDR].
  rewrite !word_at_set_ne by lia. rewrite H1, H2, H3, word_at_set_small by lia.
  change (i32 SOL_SOCKET =? SOL_SOCKET) with true. change (i32 SCM_RIGHTS =? SCM_RIGHTS) with true. change (CMSG_LEN <? CMSG_LEN) with false. cbn [negb].
  unfold i32, u32. rewrite Z.mod_small by lia. by rewrite (proj2 (Z.ltb_lt fd' (2 ^ 31))) by lia.
Qed.
Lemma no_descriptor rc : recv_fd rc [] = -1.
Proof. unfold recv_fd. by destruct (rc <? 0). Qed.
