(* ===== verification/Server.v ===== *)
(** The daemon's socket server ([libsrpc_unix_socket.c]): it accepts the clients,
    registers their processes, hands them the segment, and removes the processes of
    the clients that leave. *)
From S2P Require Import Prelude Machine Errno World Shmem Rpc RpcSpec RpcCall Registry Trash Proc Socket.
From S2P Require ListSpin FixBlock.

(** ** State *)

(** [libsrpc_epoll_t]; its [func] is [libsrpc_unix_client_worker] for all the records
    of the pool. *)
Record libsrpc_epoll := Epoll { ed_socket : Z; ed_epfd : Z; ed_events : Z; ed_pid : Z }.
Definition sizeof_epoll := 32.
(** [libsrpc_server_t]: [pshm_fd] is what the pointer of that name points at, if it is
    set; [pool_epcln] is empty for NULL. *)
Record libsrpc_server := Server { srv_socket : Z; srv_epfd : Z; pool_epcln : FixBlock.chain; pshm_fd : option Z; clients : Z; srv_init : bool }.
Definition set_pool_epcln v s := Server (srv_socket s) (srv_epfd s) v (pshm_fd s) (clients s) (srv_init s).
Definition set_clients v s := Server (srv_socket s) (srv_epfd s) (pool_epcln s) (pshm_fd s) v (srv_init s).

(** The daemon: the segment and its own lists, the server, the records in the blocks
    of its pool (blank where none was stored), the sockets its epoll instance watches
    with the record of each, the descriptors closed so far, the daemon's
    [libsrpc_proc_uid_next]. *)
Record daemon := Daemon { dg : gworld; srv : libsrpc_server; eds : gmap Z libsrpc_epoll; watched : gmap Z Z; closed : list Z; uid_next : Z }.
Abbreviation DM := (M daemon).
Definition set_srv v d := Daemon (dg d) v (eds d) (watched d) (closed d) (uid_next d).
Definition set_eds v d := Daemon (dg d) (srv d) v (watched d) (closed d) (uid_next d).
Definition set_watched v d := Daemon (dg d) (srv d) (eds d) v (closed d) (uid_next d).
Definition set_closed v d := Daemon (dg d) (srv d) (eds d) (watched d) v (uid_next d).
Definition set_uid_next v d := Daemon (dg d) (srv d) (eds d) (watched d) (closed d) v.
Definition lift_g {A} (m : GM A) : DM A := fun d =>
  let up g := Daemon g (srv d) (eds d) (watched d) (closed d) (uid_next d) in
  match m (dg d) with
  | Ret a g => Ret a (up g)
  | Fault => Fault
  | Hang => Hang
  | Crash g => Crash (up g)
  end.
Definition close (fd : Z) : DM unit := modify (fun d => set_closed (fd :: closed d) d).
Definition unwatch (sck : Z) : DM unit := modify (fun d => set_watched (delete sck (watched d)) d).
Definition blank : libsrpc_epoll := Epoll 0 0 0 0.
Definition ed_at (d : daemon) (ed : Z) : libsrpc_epoll := default blank (eds d !! ed).
Definition put_ed (ed : Z) (x : libsrpc_epoll) : DM unit := modify (fun d => set_eds (<[ed := x]> (eds d)) d).
Definition ENOENT := 2.

Section server.
(** The parameters of the parts the server uses: the capacity of the queues, the
    length up to which lists are followed and the restarts of a heap walk; the C
    library's allocator; [sysconf(_SC_NPROCESSORS_ONLN)]; the name of the daemon. *)
Context (cap : Z) (fuel rounds : nat) (nproc : Z) (libsrpc_daemon_name : list Z).
Context (chain_malloc : FixBlock.chain -> Z -> Z).
Context (malloc : trash_store -> Z -> Z) (realloc : trash_store -> Z -> Z -> Z) (garbage : Z -> nat -> list Z).

Definition pool_alloc : DM Z := fun d =>
  match FixBlock.srpc_pool_alloc chain_malloc (pool_epcln (srv d)) with
  | Some (ptr, c) => Ret ptr (set_srv (set_pool_epcln c (srv d)) d)
  | None => Hang
  end.
Definition pool_free (ed : Z) : DM Z := fun d =>
  let '(rc, c) := FixBlock.srpc_pool_free (pool_epcln (srv d)) ed in
  Ret rc (set_srv (set_pool_epcln c (srv d)) d).
(** [srpc_pool_free] from the [n]-th pool on. *)
Definition pool_free_from (n : nat) (ed : Z) : DM Z := fun d =>
  let '(rc, c) := FixBlock.srpc_pool_free (drop n (pool_epcln (srv d))) ed in
  Ret rc (set_srv (set_pool_epcln (take n (pool_epcln (srv d)) ++ c) (srv d)) d).
(** [srpc_pool_destroy]: the memory of all pools goes back to the C library. *)
Definition pool_destroy : DM Z := fun d =>
  let '(rc, _) := FixBlock.srpc_pool_destroy (pool_epcln (srv d)) in Ret rc (set_srv (set_pool_epcln [] (srv d)) d).
Definition proc_create (sem_rc spin_rc pid : Z) : DM Z :=
  d ← get;
  '(rc, next) ← lift_g (lift_world (libsrpc_proc_create cap fuel nproc sem_rc spin_rc pid (uid_next d)));
  modify (set_uid_next next) ;;
  mret rc.
Definition proc_destroy (pid : Z) : DM Z :=
  lift_g (libsrpc_proc_destroy cap fuel malloc realloc garbage rounds pid).

(** What the system calls of one connection answer: the peer's pid or the result of
    [getsockopt], [sem_init] and [pthread_spin_init] in the creation of the process,
    [setsockopt], the reads of the message and the stream they read, [sendmsg],
    [epoll_ctl]. *)
Record peer := Peer { cred : Z + Z; sem_rc : Z; spin_rc : Z; setsockopt_rc : Z; reads : list io_result; wire : list Z;
  send_fd_rc : Z; epoll_add_rc : Z }.

(** The labels [err] and [err_proc]. *)
Definition addclient_err (ed sck rc : Z) : DM Z :=
  (if ed =? NULL then mret 0 else pool_free ed) ;; close sck ;; mret rc.
Definition addclient_err_proc (ed sck rc : Z) : DM Z :=
  d ← get; proc_destroy (ed_pid (ed_at d ed)) ;; addclient_err ed sck rc.

Definition EPOLLIN := 1.
Definition EPOLLHUP := 16.
Definition EPOLLRDHUP := 8192.

Definition libsrpc_unix_server_addclient (c : peer) (sck : Z) : DM Z :=
  ed ← pool_alloc;
  if ed =? NULL then addclient_err ed sck (- ENOMEM)
  else
    match cred c with
    | inr rc => addclient_err ed sck rc
    | inl pid =>
        d ← get;
        put_ed ed (Epoll sck (srv_epfd (srv d)) (EPOLLIN + EPOLLRDHUP + EPOLLHUP) pid) ;;
        rc ← proc_create (sem_rc c) (spin_rc c) pid;
        if rc <? 0 then addclient_err ed sck rc
        else if setsockopt_rc c <? 0 then addclient_err ed sck (setsockopt_rc c)
        else
          rc ← lift_g (lift_world (read_msg_regfn libsrpc_daemon_name fuel garbage (reads c) (wire c) pid));
          if rc <? 0 then addclient_err ed sck rc
          else
            d ← get;
            let sent := match pshm_fd (srv d) with Some _ => send_fd_rc c | None => rc end in
            if sent <? 0 then addclient_err_proc ed sck sent
            else if epoll_add_rc c <? 0 then addclient_err_proc ed sck (epoll_add_rc c)
            else
              modify (fun d => set_watched (<[sck := ed]> (watched d)) d) ;;
              modify (fun d => set_srv (set_clients (i32 (clients (srv d) + 1)) (srv d)) d) ;;
              mret (epoll_add_rc c)
    end.

(** An event of a client: [hup] is [EPOLLHUP | EPOLLRDHUP], [rl] what [recv] answers. *)
Definition libsrpc_unix_client_worker (ed : Z) (hup : bool) (rl : Z) : DM Z :=
  if ed =? NULL then mret (- EINVAL)
  else if hup || (rl =? 0) then
    modify (fun d => set_srv (set_clients (i32 (clients (srv d) - 1)) (srv d)) d) ;;
    d ← get;
    unwatch (ed_socket (ed_at d ed)) ;;
    close (ed_socket (ed_at d ed)) ;;
    put_ed ed (Epoll 0 (ed_epfd (ed_at d ed)) (ed_events (ed_at d ed)) (ed_pid (ed_at d ed))) ;;
    proc_destroy (ed_pid (ed_at d ed)) ;;
    pool_free ed ;;
    mret 0
  else mret 0.

(** An event of the listening socket: [accept4]'s answer, or [errno]. *)
Definition libsrpc_unix_server_worker (sck errno : Z) (c : peer) : DM Z :=
  if sck <=? 0 then mret (- errno) else libsrpc_unix_server_addclient c sck.

(** One round of events. *)
Inductive event :=
  | EvAccept (sck errno : Z) (c : peer)
  | EvClient (ed : Z) (hup : bool) (rl : Z).
Definition dispatch (e : event) : DM Z :=
  match e with
  | EvAccept sck errno c => libsrpc_unix_server_worker sck errno c
  | EvClient ed hup rl => if ed =? NULL then mret 0 else libsrpc_unix_client_worker ed hup rl
  end.
Fixpoint dispatch_all (evs : list event) : DM unit :=
  match evs with [] => mret tt | e :: evs => dispatch e ;; dispatch_all evs end.
(** [epoll_wait] answers events or an [errno]. *)
Definition libsrpc_unix_server_epoll_wait (answer : list event + Z) : DM Z :=
  match answer with
  | inr errno => mret (- errno)
  | inl evs => dispatch_all evs ;; mret 0
  end.

(** [main] of the daemon, once the server and the segment are there: it serves until
    a wait fails or no client is left. *)
Fixpoint serve (answers : list (list event + Z)) : DM Z :=
  match answers with
  | [] => hang
  | a :: answers =>
      rc ← libsrpc_unix_server_epoll_wait a;
      if rc <? 0 then mret rc
      else d ← get; if clients (srv d) =? 0 then mret rc else serve answers
  end.

(** ** Start and end *)

(** The answers of [epoll_create1] with [errno], of [libsrpc_unix_scoket_server_create]
    and of [epoll_ctl]. *)
Definition libsrpc_unix_server_init (epfd errno sck add_rc : Z) : DM Z :=
  d ← get;
  if srv_init (srv d) then mret 0
  else
    let failed rc :=
      pool_destroy ;;
      d ← get;
      (if 0 <? srv_socket (srv d) then close (srv_socket (srv d)) else mret tt) ;;
      (if 0 <? srv_epfd (srv d) then close (srv_epfd (srv d)) else mret tt) ;;
      mret rc in
    let c := FixBlock.new_pool chain_malloc [] 128 sizeof_epoll in
    modify (fun d => set_srv (set_pool_epcln c (srv d)) d) ;;
    match c with
    | [] => failed (- ENOMEM)
    | _ =>
        modify (fun d => set_srv (Server (srv_socket (srv d)) epfd c (pshm_fd (srv d)) (clients (srv d)) (srv_init (srv d))) d) ;;
        if epfd <? 0 then failed (- errno)
        else if sck <=? 0 then failed sck
        else
          modify (fun d => set_srv (Server sck epfd c (pshm_fd (srv d)) (clients (srv d)) (srv_init (srv d))) d) ;;
          if (epfd <=? 0) then failed (- EINVAL)
          else if add_rc <? 0 then failed add_rc
          else
            modify (fun d => set_srv (Server sck epfd c (pshm_fd (srv d)) (clients (srv d)) true) d) ;;
            mret add_rc
    end.

(** The records of the [n]-th pool. *)
Fixpoint exit_blocks (n : nat) (blocks : list Z) : DM unit :=
  match blocks with
  | [] => mret tt
  | ed :: blocks =>
      d ← get;
      (if 0 <? ed_socket (ed_at d ed) then
         unwatch (ed_socket (ed_at d ed)) ;; close (ed_socket (ed_at d ed)) ;; pool_free_from n ed ;; mret tt
       else mret tt) ;;
      exit_blocks n blocks
  end.
Fixpoint exit_pools (n : nat) (c : FixBlock.chain) : DM unit :=
  match c with
  | [] => mret tt
  | (a, p) :: c => exit_blocks n (FixBlock.fba_foreach_block a p) ;; exit_pools (S n) c
  end.
Definition libsrpc_unix_server_exit : DM Z :=
  d ← get;
  if negb (srv_init (srv d)) then mret 0
  else
    modify (fun d => set_srv (Server (srv_socket (srv d)) (srv_epfd (srv d)) (pool_epcln (srv d)) (pshm_fd (srv d)) (clients (srv d)) false) d) ;;
    close (srv_epfd (srv d)) ;;
    close (srv_socket (srv d)) ;;
    exit_pools 1 (FixBlock.fba_foreach_pool (pool_epcln (srv d))) ;;
    pool_destroy ;;
    mret 0.
End server.
