(* ===== verification/ServerSpec.v ===== *)
(** What the socket server guarantees when a client connects: the whole path from the
    accepted socket to the registry, and what a connection that fails leaves behind. *)
From S2P Require Import Prelude Machine Errno World Shmem Rpc RpcSpec RpcCall RpcCallSpec Registry RegistrySpec RegistryGrowth Trash Proc ProcSpec Socket Server.
From S2P Require ListSpin FixBlock TlsfTypes TlsfSpec MpmcQueue.

(** ** The creation of a process leaves the registry alone *)

Definition same_registry (w w' : world) : Prop :=
  ebs w' = ebs w /\ funcs w' = funcs w /\ shm_ptr (loc w') = shm_ptr (loc w) /\ simplerpc_data (loc w') = simplerpc_data (loc w).
#[export] Instance same_registry_preorder : PreOrder same_registry.
Proof. split; [done|]. intros w1 w2 w3 (?&?&?&?) (?&?&?&?). repeat split; congruence. Qed.
Definition keeps_registry {A} (m : WM A) : Prop := forall w a w', m w = Ret a w' -> same_registry w w'.
Create HintDb registry.
Lemma kr_bind {A B} (m : WM A) (f : A -> WM B) : keeps_registry m -> (forall a, keeps_registry (f a)) -> keeps_registry (m ≫= f).
Proof. intros Hm Hf w b w'' (a & w' & E1 & E2)%bind_inv. etrans; [by eapply Hm|by eapply Hf]. Qed.
Lemma kr_ret {A} (a : A) : keeps_registry (mret a : WM A).
Proof. intros w b w' E. by injection E as _ <-. Qed.
Lemma kr_if {A} (b : bool) (m1 m2 : WM A) : keeps_registry m1 -> keeps_registry m2 -> keeps_registry (if b then m1 else m2).
Proof. by destruct b. Qed.
Lemma kr_deref {A} (f : world -> gmap Z A) a : keeps_registry (deref f a).
Proof. intros w b w' E. unfold deref in E. destruct (f w !! a); [|done]. by injection E as _ <-. Qed.
Lemma kr_get_proc a : keeps_registry (get_proc a).
Proof. apply kr_deref. Qed.
Lemma kr_put_proc a x : keeps_registry (put_proc a x).
Proof. intros w b w' E. unfold put_proc, modify in E. by injection E as _ <-. Qed.
Lemma kr_lift_list {A} (m : M ListSpin.list_store A) : keeps_registry (lift_list m).
Proof. intros w a w' E. unfold lift_list in E. destruct (m (lists w)); try done. by injection E as _ <-. Qed.
Lemma kr_lift_pool {A} (m : TlsfTypes.TM A) : keeps_registry (lift_pool m).
Proof. intros w a w' E. unfold lift_pool in E. destruct (m (pool w)); try done. by injection E as _ <-. Qed.
Lemma kr_getl {A} (f : local -> A) : keeps_registry (getl f).
Proof. intros w a w' E. unfold getl, gets in E. by injection E as _ <-. Qed.
Lemma kr_errno e : keeps_registry (errno_set e).
Proof. intros w a w' E. unfold errno_set, modl, modify in E. by injection E as _ <-. Qed.
Lemma kr_hang {A} : keeps_registry (hang : WM A).
Proof. done. Qed.
#[export] Hint Resolve kr_bind kr_ret kr_if kr_get_proc kr_put_proc kr_lift_list kr_lift_pool kr_getl kr_errno kr_hang : registry.
Lemma kr_shmem_get : keeps_registry libsrpc_shmem_get.
Proof. unfold libsrpc_shmem_get. auto 10 with registry. Qed.
Lemma kr_upd_proc a f : keeps_registry (upd_proc a f).
Proof. unfold upd_proc. auto with registry. Qed.
#[export] Hint Resolve kr_shmem_get kr_upd_proc : registry.
Lemma kr_take_errno : keeps_registry take_tlsf_errno.
Proof. unfold take_tlsf_errno. auto with registry. Qed.
#[export] Hint Resolve kr_take_errno : registry.
Lemma kr_with_pool {A} (fail : A) k : (forall a b, keeps_registry (k a b)) -> keeps_registry (with_pool fail k).
Proof. intros H. unfold with_pool. auto 15 with registry. Qed.
Lemma kr_malloc sz t : keeps_registry (libsrpc_shmem_malloc_type sz t).
Proof. apply kr_with_pool. auto with registry. Qed.
Lemma kr_free p : keeps_registry (libsrpc_shmem_free p).
Proof. apply kr_with_pool. auto with registry. Qed.
#[export] Hint Resolve kr_malloc kr_free : registry.
Lemma kr_foreach {R} (body : Z -> WM (option R)) : (forall a, keeps_registry (body a)) -> forall fuel cur,
  keeps_registry (foreach_until fuel cur body).
Proof.
  intros Hb. induction fuel as [|fuel IH]; intros cur; cbn [foreach_until]; apply kr_if; auto with registry.
  apply kr_bind; [apply Hb|]. intros [r|]; auto with registry.
Qed.
Lemma kr_list_foreach {R} fuel h (body : Z -> WM (option R)) : (forall a, keeps_registry (body a)) ->
  keeps_registry (list_foreach_until fuel h body).
Proof. intros Hb. unfold list_foreach_until. apply kr_bind; [auto with registry|]. intros hd. by apply kr_foreach. Qed.
#[export] Hint Resolve kr_list_foreach : registry.
Lemma kr_proc_get fuel pid : keeps_registry (libsrpc_proc_get fuel pid).
Proof. unfold libsrpc_proc_get. auto 20 with registry. Qed.
Lemma kr_uid_loop fuel tries : forall h next, keeps_registry (uid_loop fuel tries h next).
Proof.
  induction tries as [|tries IH]; intros h next; cbn [uid_loop]; (apply kr_bind; [auto 10 with registry|]);
    intros [r|]; auto 10 with registry.
Qed.
Lemma kr_get_uid fuel next : keeps_registry (libsrpc_proc_get_uid fuel next).
Proof. unfold libsrpc_proc_get_uid. apply kr_bind; [auto with registry|]. intros shm. apply kr_if; [auto with registry|]. apply kr_uid_loop. Qed.
#[export] Hint Resolve kr_proc_get kr_get_uid : registry.
Lemma kr_failed p rc n : keeps_registry (create_failed p rc n).
Proof. unfold create_failed. auto with registry. Qed.
#[export] Hint Resolve kr_failed : registry.
Lemma kr_create cap fuel nproc sem_rc spin_rc pid next : keeps_registry (libsrpc_proc_create cap fuel nproc sem_rc spin_rc pid next).
Proof.
  unfold libsrpc_proc_create. apply kr_bind; [auto with registry|]. intros shm. repeat apply kr_if; auto with registry.
  apply kr_bind; [auto with registry|]. intros old. repeat apply kr_if; auto with registry.
  apply kr_bind; [auto with registry|]. intros p.
  apply kr_if; [auto with registry|]. do 2 (apply kr_bind; [auto with registry|intros _]).
  apply kr_bind; [auto with registry|]. intros [uid n]. auto 30 with registry.
Qed.

(** ** One step of the daemon in its segment *)

Definition with_world (w : world) (d : daemon) : daemon :=
  Daemon (GWorld w (trashes (dg d))) (srv d) (eds d) (watched d) (closed d) (uid_next d).
Lemma lift_run {A} (m : WM A) d a w : m (gw (dg d)) = Ret a w -> lift_g (lift_world m) d = Ret a (with_world w d).
Proof. intros E. unfold lift_g, lift_world. by rewrite E. Qed.

Lemma proc_get_listed w p l fuel : mapped w -> plist_ok w (proc_head_of (shm_ptr (loc w))) (p :: l) -> (length (p :: l) <= fuel)%nat ->
  libsrpc_proc_get fuel (pid_of w p) w = Ret p w.
Proof.
  intros Hm Hl Hf. rewrite (proc_get_run w (p :: l) fuel _ Hm (pl_listed _ _ _ Hl) Hf). cbn [first_some]. by rewrite Z.eqb_refl.
Qed.

Section connect.
Context (cap : Z) (fuel rounds : nat) (nproc : Z) (libsrpc_daemon_name : list Z).
Context (chain_malloc : FixBlock.chain -> Z -> Z).
Context (malloc : trash_store -> Z -> Z) (realloc : trash_store -> Z -> Z -> Z) (garbage : Z -> nat -> list Z).
Context (Hmalloc : FixBlock.malloc_ok chain_malloc).
Abbreviation addclient := (libsrpc_unix_server_addclient cap fuel rounds nproc libsrpc_daemon_name chain_malloc malloc realloc garbage).

(** A connection from process [pid]: the daemon's list [l] of processes is sound, a
    record [ed] is found, and the creation of the process succeeds, in [w1]. *)
Context (d : daemon) (c : peer) (sck ed pid next : Z) (l : list Z) (c1 : FixBlock.chain) (w1 : world).
Abbreviation w := (gw (dg d)).
Abbreviation phead := (proc_head_of (shm_ptr (loc w))).
Context (Hm : mapped w) (Hh : phead <> NULL) (Hl : plist_ok w phead l) (Hf : (length l < fuel)%nat)
  (Hnext : 2 <= uid_next d < 2 ^ 16).
Context (Hfresh : forall p w0, libsrpc_shmem_malloc_type (u64 (sizeof_proc cap + u64 (nproc * sizeof_thread))) SHMDT_PROC w = Ret p w0 ->
  p = NULL \/ ((p ∉ l) /\ req_head_of p <> phead /\ req_head_of p <> NULL)).
Context (Hchain : FixBlock.chain_ok (pool_epcln (srv d)))
  (Halloc : FixBlock.srpc_pool_alloc chain_malloc (pool_epcln (srv d)) = Some (ed, c1)) (Hed : ed <> NULL).
Context (Hcred : cred c = inl pid)
  (Hcreate : libsrpc_proc_create cap fuel nproc (sem_rc c) (spin_rc c) pid (uid_next d) w = Ret (0, next) w1).

Definition new_ed : libsrpc_epoll := Epoll sck (srv_epfd (srv d)) (EPOLLIN + EPOLLRDHUP + EPOLLHUP) pid.
Definition started (w' : world) : daemon :=
  Daemon (GWorld w' (trashes (dg d))) (set_pool_epcln c1 (srv d)) (<[ed := new_ed]> (eds d)) (watched d) (closed d) next.

Lemma create_result : created nproc pid w l 0 w1.
Proof.
  destruct (proc_create_run cap fuel nproc (sem_rc c) (spin_rc c) pid (uid_next d) w l Hm Hh Hl ltac:(lia) Hnext Hfresh _ _ _ Hcreate)
    as [[H _]|H]; done.
Qed.
Lemma w1_registry : same_registry w w1.
Proof. eapply kr_create, Hcreate. Qed.
Lemma w1_mapped : mapped w1.
Proof. destruct w1_registry as (_ & _ & E1 & E2). unfold mapped. by rewrite E1, E2. Qed.
Lemma alloc_result : FixBlock.chain_ok c1 /\ ~ FixBlock.live (pool_epcln (srv d)) ed /\
  forall q, FixBlock.live c1 q <-> q = ed \/ FixBlock.live (pool_epcln (srv d)) q.
Proof.
  destruct (FixBlock.pool_alloc_run chain_malloc Hmalloc (pool_epcln (srv d)) Hchain) as (ptr & c' & E & Hc' & H).
  rewrite Halloc in E. injection E as <- <-. split; [done|]. destruct H as [(-> & _)|(_ & H)]; done.
Qed.

(** The error exit gives the record back and closes the socket. *)
Lemma err_run v rc w' : v = started w' -> exists c', FixBlock.srpc_pool_free c1 ed = (0, c') /\
  (forall q, FixBlock.live c' q <-> FixBlock.live (pool_epcln (srv d)) q) /\
  addclient_err ed sck rc v = Ret rc (set_closed (sck :: closed d) (set_srv (set_pool_epcln c' (srv d)) (started w'))).
Proof.
  intros ->. destruct alloc_result as (Hc1 & Hn & Hlive).
  destruct (FixBlock.pool_free_run c1 ed Hc1) as (c' & E & _ & H); [by apply Hlive; left|]. exists c'. split; [done|]. split.
  - intros q. rewrite H, Hlive. split; [|intros Hq; split; [by right|by intros ->]]. intros [[->|Hq] Hne]; done.
  - unfold addclient_err. rewrite (proj2 (Z.eqb_neq ed NULL)) by done. unfold mbind, M_bind, pool_free.
    cbn [srv started set_pool_epcln pool_epcln]. rewrite E. reflexivity.
Qed.

(** What follows the creation. *)
Definition after_creation : DM Z :=
  if setsockopt_rc c <? 0 then addclient_err ed sck (setsockopt_rc c)
  else
    rc ← lift_g (lift_world (read_msg_regfn libsrpc_daemon_name fuel garbage (reads c) (wire c) pid));
    if rc <? 0 then addclient_err ed sck rc
    else
      d ← get;
      let sent := match pshm_fd (srv d) with Some _ => send_fd_rc c | None => rc end in
      if sent <? 0 then addclient_err_proc cap fuel rounds malloc realloc garbage ed sck sent
      else if epoll_add_rc c <? 0 then addclient_err_proc cap fuel rounds malloc realloc garbage ed sck (epoll_add_rc c)
      else
        modify (fun d => set_watched (<[sck := ed]> (watched d)) d) ;;
        modify (fun d => set_srv (set_clients (i32 (clients (srv d) + 1)) (srv d)) d) ;;
        mret (epoll_add_rc c).
Lemma addclient_run : addclient c sck d = after_creation (started w1).
Proof.
  set (d1 := Daemon (dg d) (set_pool_epcln c1 (srv d)) (<[ed := new_ed]> (eds d)) (watched d) (closed d) (uid_next d)).
  assert (proc_create cap fuel nproc (sem_rc c) (spin_rc c) pid d1 = Ret 0 (started w1)) as Ec.
  { unfold proc_create, get. rewrite (bind_ret _ _ d1 _ d1) by reflexivity.
    rewrite (bind_ret _ _ _ _ _ (lift_run _ d1 _ _ Hcreate)). reflexivity. }
  unfold libsrpc_unix_server_addclient, mbind at 1, M_bind, pool_alloc. rewrite Halloc.
  rewrite (proj2 (Z.eqb_neq ed NULL)), Hcred by done. unfold get.
  rewrite (bind_ret _ _ (set_srv (set_pool_epcln c1 (srv d)) d) _ (set_srv (set_pool_epcln c1 (srv d)) d)) by reflexivity.
  rewrite (bind_ret _ _ tt _ d1) by reflexivity. rewrite (bind_ret _ _ _ _ _ Ec). reflexivity.
Qed.

Lemma new_process : exists p x, procs w1 !! p = Some x /\ plist_ok w1 (proc_head_of (shm_ptr (loc w1))) (p :: l) /\ p_pid x = pid /\
  pid_of w1 p = pid /\ p <> NULL /\ proc_uid x ∉ uids_in_use w l.
Proof.
  destruct create_result as (_ & p & x & Ex & Hp & Epid & _ & _ & Hu & _). exists p, x. split; [done|].
  destruct w1_registry as (_ & _ & -> & _). split; [done|]. split; [done|]. split; [unfold pid_of; by rewrite Ex|]. split; [|done].
  intros ->. apply (linked_nonnull _ _ _ (proj1 (pl_listed _ _ _ Hp))). apply list_elem_of_here.
Qed.
Lemma proc_get_new : exists p, libsrpc_proc_get fuel pid w1 = Ret p w1 /\ p <> NULL /\
  plist_ok w1 (proc_head_of (shm_ptr (loc w1))) (p :: l) /\ pid_of w1 p = pid /\ uid_of w1 p ∉ uids_in_use w l.
Proof.
  destruct new_process as (p & x & Ex & Hp & _ & Epid & Hn & Hu). exists p.
  pose proof (proc_get_listed w1 p l fuel w1_mapped Hp ltac:(cbn [length]; lia)) as E. rewrite Epid in E.
  split; [exact E|]. split; [done|]. split; [done|]. split; [done|]. unfold uid_of. by rewrite Ex.
Qed.
Lemma create_args : (nproc <=? 0) || (1024 <? nproc) || (pid <=? 0) = false.
Proof.
  pose proof Hcreate as E. unfold libsrpc_proc_create in E. rewrite (bind_ret _ _ _ _ _ (shmem_get_run w Hm)) in E.
  destruct (_ || _); [discriminate E|done].
Qed.
(** While a process with that pid is listed it cannot be created again, and a connection
    from it is refused. *)
Definition still_listed (v : world) : Prop := exists l', mapped v /\ plist_ok v (proc_head_of (shm_ptr (loc v))) l' /\
  pid ∈ (pid_of v <$> l') /\ (length l' <= fuel)%nat.
Lemma create_known v sem_rc spin_rc n : still_listed v ->
  libsrpc_proc_create cap fuel nproc sem_rc spin_rc pid n v = Ret (- EEXIST, n) v.
Proof.
  intros (l' & Hmv & Hlv & (p & Epid & Hin)%list_elem_of_fmap & Hfv). unfold libsrpc_proc_create.
  rewrite (bind_ret _ _ _ _ _ (shmem_get_run v Hmv)), create_args, (proj2 (Z.eqb_neq (shm_ptr (loc v)) NULL)) by apply Hmv.
  rewrite (bind_ret _ _ _ _ _ (proc_get_run v l' fuel pid Hmv (pl_listed _ _ _ Hlv) Hfv)).
  destruct (first_some _ l') as [q|] eqn:E.
  - apply first_some_Some in E as (y & Hy & Ey). destruct (_ =? _); [|done]. injection Ey as ->. change (default NULL (Some q)) with q.
    by rewrite (proj2 (Z.eqb_neq q NULL)) by (by intros ->; apply (linked_nonnull _ _ _ (proj1 (pl_listed _ _ _ Hlv)))).
  - rewrite first_some_None in E. specialize (E p Hin). cbn in E. by rewrite <- Epid, Z.eqb_refl in E.
Qed.
Lemma new_still_listed : still_listed w1.
Proof.
  destruct new_process as (p & x & _ & Hp & _ & Epid & _). exists (p :: l). split; [exact w1_mapped|]. split; [done|].
  split; [rewrite fmap_cons, Epid; apply list_elem_of_here|cbn [length]; lia].
Qed.
Definition refused (c2 : peer) (sck2 : Z) (d2 d3 : daemon) (rc : Z) : Prop :=
  addclient c2 sck2 d2 = Ret rc d3 /\ rc < 0 /\ dg d3 = dg d2 /\ closed d3 = sck2 :: closed d2 /\ watched d3 = watched d2 /\
  clients (srv d3) = clients (srv d2).
Lemma known_refused c2 sck2 d2 : still_listed (gw (dg d2)) -> FixBlock.chain_ok (pool_epcln (srv d2)) -> cred c2 = inl pid ->
  exists rc d3, refused c2 sck2 d2 d3 rc.
Proof.
  intros Hst Hc2 Ec. destruct (FixBlock.pool_alloc_run chain_malloc Hmalloc _ Hc2) as (q & c' & E & Hc' & _). unfold refused, libsrpc_unix_server_addclient.
  set (d3 := set_srv (set_pool_epcln c' (srv d2)) d2). rewrite (bind_ret _ _ q _ d3) by (unfold pool_alloc; by rewrite E).
  destruct (Z.eqb_spec q NULL) as [->|Hq]; [by eexists _, _|]. rewrite Ec. unfold get. rewrite (bind_ret _ _ d3 _ d3) by reflexivity.
  set (x2 := Epoll _ _ _ _). set (d4 := set_eds (<[q := x2]> (eds d3)) d3). rewrite (bind_ret _ _ tt _ d4) by reflexivity.
  assert (proc_create cap fuel nproc (sem_rc c2) (spin_rc c2) pid d4 = Ret (- EEXIST) d4) as Ecr.
  { unfold proc_create, get. rewrite (bind_ret _ _ d4 _ d4) by reflexivity. change (gw (dg d2)) with (gw (dg d4)) in Hst.
    rewrite (bind_ret _ _ _ _ _ (lift_run _ d4 _ _ (create_known _ (sem_rc c2) (spin_rc c2) (uid_next d4) Hst))). by destruct d2 as [[? ?] ? ? ? ? ?]. }
  rewrite (bind_ret _ _ _ _ _ Ecr). change (- EEXIST <? 0) with true. unfold addclient_err. rewrite (proj2 (Z.eqb_neq q NULL)) by done.
  unfold pool_free, mbind, M_bind. destruct (FixBlock.srpc_pool_free _ _). eexists _, _. split; [reflexivity|]. by split.
Qed.

(** The message does not arrive whole, has another size, or names another daemon. *)
Definition message_refused : Prop := exists rc bytes rest, read_full (reads c) sizeof_regfn_msg [] (wire c) = Some (rc, bytes, rest) /\
  (rc < 0 \/ m_size (msg_of_bytes bytes) <> Z.of_nat sizeof_regfn_msg \/
   strncmp_eq sizeof_sign (m_sign (msg_of_bytes bytes)) libsrpc_daemon_name = false).
Lemma message_refused_run : message_refused -> read_msg_regfn libsrpc_daemon_name fuel garbage (reads c) (wire c) pid w1 = Ret (-1) w1.
Proof.
  intros (rc & bytes & rest & Er & H). destruct proc_get_new as (p & E & Hn & _). unfold read_msg_regfn.
  rewrite (bind_ret _ _ _ _ _ E), (proj2 (Z.eqb_neq p NULL)) by done. rewrite Er. destruct (Z.ltb_spec rc 0) as [|Hrc]; [done|].
  destruct H as [?|[H|H]]; [lia|by rewrite (proj2 (Z.eqb_neq _ _) H)|]. cbv zeta. rewrite H. by destruct (negb _).
Qed.

(** (C36) A client whose registration fails after its process was created, because
    [setsockopt] fails, or because the message does not arrive whole, has another size or
    names another daemon, is refused: the socket is closed, nothing is watched, nobody is
    counted, the record is free again.  But the process stays in the list of the segment
    with that pid and a uid of its own; and in whatever state the daemon is later, as long
    as a process with that pid is listed, the client is refused when it connects again,
    and nothing else changes. *)
Theorem failed_registration_leaks : setsockopt_rc c < 0 \/ message_refused ->
  exists rc d', addclient c sck d = Ret rc d' /\ rc < 0 /\ closed d' = sck :: closed d /\ watched d' = watched d /\
    clients (srv d') = clients (srv d) /\
    (forall q, FixBlock.live (pool_epcln (srv d')) q <-> FixBlock.live (pool_epcln (srv d)) q) /\
    created nproc pid w l 0 (gw (dg d')) /\ still_listed (gw (dg d')) /\
    forall c2 sck2 d2, still_listed (gw (dg d2)) -> FixBlock.chain_ok (pool_epcln (srv d2)) -> cred c2 = inl pid ->
      exists rc2 d3, refused c2 sck2 d2 d3 rc2.
Proof.
  intros Hbad. rewrite addclient_run. unfold after_creation.
  destruct (Z.ltb_spec (setsockopt_rc c) 0) as [Hs|Hs].
  - destruct (err_run (started w1) (setsockopt_rc c) w1 eq_refl) as (c' & _ & Hlive & ->). eexists _, _. split; [done|].
    split_and!; try done; [apply create_result|apply new_still_listed|apply known_refused].
  - destruct Hbad as [?|Hbad]; [lia|]. apply message_refused_run in Hbad as Em. change w1 with (gw (dg (started w1))) in Em at 1.
    rewrite (bind_ret _ _ _ _ _ (lift_run _ (started w1) _ _ Em)). cbn [Z.ltb Z.compare].
    destruct (err_run (started w1) (-1) w1 eq_refl) as (c' & _ & Hlive & Ee).
    change (with_world w1 (started w1)) with (started w1). rewrite Ee. eexists _, _. split; [done|].
    split_and!; try done; [apply create_result|apply new_still_listed|apply known_refused].
Qed.

(** The connection once the process is there. *)
Definition joined (w2 : world) : daemon :=
  set_srv (set_clients (i32 (clients (srv d) + 1)) (set_pool_epcln c1 (srv d))) (set_watched (<[sck := ed]> (watched d)) (started w2)).
Lemma connects_run tab rs1 p : (0 : Z) ∉ libsrpc_daemon_name -> (length libsrpc_daemon_name < 32)%nat ->
  delivers sizeof_regfn_msg rs1 -> send_msg_regfn libsrpc_daemon_name rs1 tab [] = Some (0, wire c) ->
  delivers sizeof_regfn_msg (reads c) -> 0 <= setsockopt_rc c -> 0 <= send_fd_rc c -> 0 <= epoll_add_rc c ->
  length tab = Z.to_nat sRPC_FNNUM -> mapped w1 -> registry_ok w1 -> (forall k, overrides tab k = true -> room w1 k) ->
  libsrpc_proc_get fuel pid w1 = Ret p w1 -> p <> NULL ->
  exists w2, addclient c sck d = Ret (epoll_add_rc c) (joined w2) /\ registry_ok w2 /\ same_rest w1 w2 /\
    forall k, if overrides tab k then took (cells w1 k) (cells w2 k) p else cells w2 k = cells w1 k.
Proof.
  intros Hn Hlen Hd1 Hsend Hd2 Hs1 Hs2 Hs3 Ht Hm1 Hok1 Hroom1 E Hp.
  destruct (registration_run garbage w1 p tab Hm1 Hok1 Hp Ht Hroom1) as (w2 & E2 & Hok2 & Hr2 & Hc).
  destruct (registration_message libsrpc_daemon_name tab rs1 (reads c) fuel garbage pid p w1 Hn Hd1 Hd2 E Hp) as (wr & Es & Em).
  rewrite Hsend in Es. injection Es as <-. rewrite (proj2 (Nat.ltb_lt _ _) Hlen), (bind_ret _ _ _ _ _ E2) in Em.
  exists w2. split; [|done]. rewrite addclient_run. unfold after_creation. rewrite (proj2 (Z.ltb_ge _ _) Hs1).
  change w1 with (gw (dg (started w1))) in Em. rewrite (bind_ret _ _ _ _ _ (lift_run _ (started w1) _ _ Em)).
  change (0 <? 0) with false. change (with_world w2 (started w1)) with (started w2). cbv beta iota.
  rewrite (bind_ret _ _ (started w2) _ (started w2)) by reflexivity. cbv zeta.
  assert (((match pshm_fd (srv (started w2)) with Some _ => send_fd_rc c | None => 0 end) <? 0) = false) as ->.
  { apply Z.ltb_ge. by destruct (pshm_fd _). }
  by rewrite (proj2 (Z.ltb_ge _ _) Hs3).
Qed.

(** (C2) A client that connects and sends its message becomes part of the system: its
    process is in the list of the segment with the pid of the peer and a uid of its
    own, it is an executor of exactly the functions its table overrides, its socket is
    watched with its record, and it is counted.  This holds when the system calls and
    the creation of the process succeed, the name of the daemon has less than 32
    characters, and each function it overrides has a free cell or an extension block that
    is not counted full ([room]): otherwise the registration grows an extension block and registers what its memory held
    ([RegistryGrowth.growth_registers_garbage]). *)
Theorem client_connects tab rs1 : (0 : Z) ∉ libsrpc_daemon_name -> (length libsrpc_daemon_name < 32)%nat ->
  delivers sizeof_regfn_msg rs1 -> send_msg_regfn libsrpc_daemon_name rs1 tab [] = Some (0, wire c) ->
  delivers sizeof_regfn_msg (reads c) -> 0 <= setsockopt_rc c -> 0 <= send_fd_rc c -> 0 <= epoll_add_rc c ->
  registry_ok w -> length tab = Z.to_nat sRPC_FNNUM -> (forall k, overrides tab k = true -> room w k) ->
  exists d' p, addclient c sck d = Ret (epoll_add_rc c) d' /\ watched d' = <[sck := ed]> (watched d) /\
    ed_at d' ed = new_ed /\ closed d' = closed d /\ clients (srv d') = i32 (clients (srv d) + 1) /\
    plist_ok (gw (dg d')) phead (p :: l) /\ pid_of (gw (dg d')) p = pid /\ (uid_of (gw (dg d')) p ∉ uids_in_use w l) /\
    registry_ok (gw (dg d')) /\
    forall k, if overrides tab k then registered (gw (dg d')) k ≡ₚ p :: registered w k else registered (gw (dg d')) k = registered w k.
Proof.
  intros Hn Hlen Hd1 Hsend Hd2 Hs1 Hs2 Hs3 Hok Ht Hroom. destruct proc_get_new as (p & E & Hp & Hl1 & Epid & Hu).
  destruct w1_registry as (Ee & Efn & Eshm & _).
  assert (registry_ok w1) as Hok1 by (by eapply registry_same).
  assert (forall k, overrides tab k = true -> room w1 k) as Hroom1 by (intros k Hk; unfold room; rewrite Ee, Efn; by apply Hroom).
  destruct (connects_run tab rs1 p) as (w2 & -> & Hok2 & (El & _ & Ep & _) & Hc); try done; [exact w1_mapped|].
  eexists _, p. split; [reflexivity|]. split; [done|]. split.
  { unfold ed_at. cbn. by rewrite lookup_insert_eq. }
  split; [done|]. split; [done|]. rewrite <- Eshm. cbn [gw dg joined set_srv set_watched started]. split.
  { eapply plist_same; [exact Hl1|by rewrite Ep|]. rewrite El. apply Hl1. }
  split; [unfold pid_of; rewrite Ep; exact Epid|]. split; [unfold uid_of; rewrite Ep; exact Hu|]. split; [done|].
  intros k. specialize (Hc k). assert (registered w1 k = registered w k) as <-.
  { unfold registered, cells, usable. by rewrite Ee, Efn. }
  destruct (overrides tab k); [by apply took_registered|]. unfold registered. by rewrite Hc.
Qed.
End connect.

(** ** A concrete connection

    The daemon has one process, a record pool with one free block and the
    demonstration registry; the peer has pid 501. *)
Definition demo_daemon_world : world := set_ebs (ebs demo_registry) (set_funcs (funcs demo_registry) demo_procs).
Definition demo_daemon : daemon :=
  Daemon (GWorld demo_daemon_world ∅) (Server 4 3 FixBlock.demo_chain (Some 9) 1 true) ∅ ∅ [] 2.
Definition demo_wire : list Z := default [] (snd <$> send_msg_regfn demo_name [IoBytes 48] demo_table []).
Definition demo_peer (setsockopt_rc : Z) : peer := Peer (inl 501) 0 0 setsockopt_rc (replicate 7 (IoBytes 7)) demo_wire 1 0.
Definition demo_ed : Z := default 0 (fst <$> FixBlock.srpc_pool_alloc FixBlock.demo_malloc FixBlock.demo_chain).
Definition demo_created : world := default demo_daemon_world (final (libsrpc_proc_create 8 5 2 0 0 501 2 demo_daemon_world)).
Lemma demo_daemon_plist : plist_ok demo_daemon_world demo_head [700].
Proof.
  assert (forall v1 v2 w, lists (set_ebs v1 (set_funcs v2 w)) = lists w) as Hl by reflexivity.
  assert (forall v1 v2 w, procs (set_ebs v1 (set_funcs v2 w)) = procs w) as Hp by reflexivity.
  apply (plist_same demo_procs); [exact demo_plist|intros p _; unfold demo_daemon_world; by rewrite Hp|].
  unfold demo_daemon_world. rewrite Hl. apply demo_plist.
Qed.
Lemma demo_fresh p w0 :
  libsrpc_shmem_malloc_type (u64 (sizeof_proc 8 + u64 (2 * sizeof_thread))) SHMDT_PROC demo_daemon_world = Ret p w0 ->
  p = NULL \/ ((p ∉ [700]) /\ req_head_of p <> demo_head /\ req_head_of p <> NULL).
Proof.
  intros E. right. assert (p = TlsfSpec.demo_pool + 6976) as ->.
  { vm_compute in E. injection E as Ep _. vm_compute. congruence. }
  split; [|split]; [|discriminate..]. apply not_elem_of_cons. split; [discriminate|apply not_elem_of_nil].
Qed.
Lemma demo_creation : libsrpc_proc_create 8 5 2 0 0 501 2 demo_daemon_world = Ret (0, 3) demo_created.
Proof.
  unfold demo_created. destruct (libsrpc_proc_create 8 5 2 0 0 501 2 demo_daemon_world) as [[rc n] w'| | |] eqn:E;
    [|vm_compute in E; discriminate E..].
  assert (rc = 0 /\ n = 3) as [-> ->] by (vm_compute in E; injection E; intros; split; congruence). reflexivity.
Qed.
Lemma demo_registry_here : registry_ok demo_daemon_world.
Proof.
  assert (forall v1 v2 w, ebs (set_ebs v1 (set_funcs v2 w)) = v1) as He by reflexivity.
  assert (forall v1 v2 w, funcs (set_ebs v1 (set_funcs v2 w)) = v2) as Hf by reflexivity.
  apply (registry_same demo_registry); [by rewrite <- (He (ebs demo_registry) (funcs demo_registry) demo_procs)|
    by rewrite <- (Hf (ebs demo_registry) (funcs demo_registry) demo_procs)|apply demo_registry_ok].
Qed.

Lemma failed_registration_leaks_witness : exists rc d',
  libsrpc_unix_server_addclient 8 5 3 2 demo_name FixBlock.demo_malloc (fun _ _ => 0) (fun _ _ _ => 0) no_garbage
    (demo_peer (-1)) 20 demo_daemon = Ret rc d' /\ rc < 0 /\ created 2 501 demo_daemon_world [700] 0 (gw (dg d')).
Proof.
  destruct (failed_registration_leaks 8 5 3 2 demo_name FixBlock.demo_malloc (fun _ _ => 0) (fun _ _ _ => 0) no_garbage
    FixBlock.demo_malloc_ok demo_daemon (demo_peer (-1)) 20 demo_ed 501 3 [700] FixBlock.demo_chain2 demo_created)
    as (rc & d' & E & Hrc & _ & _ & _ & _ & H & _).
  - split; discriminate.
  - discriminate.
  - exact demo_daemon_plist.
  - cbn [length]. lia.
  - cbn [uid_next demo_daemon]. lia.
  - exact demo_fresh.
  - exact FixBlock.demo_chain_ok.
  - vm_compute. reflexivity.
  - vm_compute. discriminate.
  - reflexivity.
  - exact demo_creation.
  - left. reflexivity.
  - exists rc, d'. split; [exact E|]. split; [exact Hrc|exact H].
Defined.
Lemma demo_room_here k : overrides demo_table k = true -> room demo_daemon_world k.
Proof.
  intros H%demo_room. assert (forall v1 v2 w, ebs (set_ebs v1 (set_funcs v2 w)) = v1) as He by reflexivity.
  assert (forall v1 v2 w, funcs (set_ebs v1 (set_funcs v2 w)) = v2) as Hf by reflexivity.
  unfold room, demo_daemon_world. by rewrite He, Hf.
Qed.
Lemma client_connects_witness : exists d' p,
  libsrpc_unix_server_addclient 8 5 3 2 demo_name FixBlock.demo_malloc (fun _ _ => 0) (fun _ _ _ => 0) no_garbage
    (demo_peer 0) 20 demo_daemon = Ret 0 d' /\ watched d' = {[ 20 := demo_ed ]} /\ pid_of (gw (dg d')) p = 501 /\
  clients (srv d') = 2 /\ registered (gw (dg d')) 1 ≡ₚ p :: registered demo_daemon_world 1.
Proof.
  destruct (client_connects 8 5 3 2 demo_name FixBlock.demo_malloc (fun _ _ => 0) (fun _ _ _ => 0) no_garbage
    demo_daemon (demo_peer 0) 20 demo_ed 501 3 [700] FixBlock.demo_chain2 demo_created)
    with (tab := demo_table) (rs1 := [IoBytes 48]) as (d' & p & E & Hw & _ & _ & Hc & _ & Hp & _ & _ & Hr).
  - split; discriminate.
  - discriminate.
  - exact demo_daemon_plist.
  - cbn [length]. lia.
  - cbn [uid_next demo_daemon]. lia.
  - exact demo_fresh.
  - vm_compute. reflexivity.
  - vm_compute. discriminate.
  - reflexivity.
  - exact demo_creation.
  - apply (bool_decide_unpack _). exact I.
  - vm_compute. lia.
  - vm_compute. intuition lia.
  - vm_compute. reflexivity.
  - vm_compute. intuition lia.
  - cbn. lia.
  - cbn. lia.
  - cbn. lia.
  - exact demo_registry_here.
  - reflexivity.
  - exact demo_room_here.
  - exists d', p. split; [exact E|]. split; [exact Hw|]. split; [exact Hp|]. split; [exact Hc|]. exact (Hr 1%nat).
Defined.
