(* ===== verification/Session.v ===== *)
(** The session of a client as the daemon sees it: it connects, its process is created
    and registered, it hangs up, its process is destroyed ([libsrpc_unix_socket.c] over
    [libsrpc_proc.c], the registry and the allocator). *)
From S2P Require Import Prelude Machine Errno Request TlsfTypes TlsfBul TlsfHeap TlsfAlloc TlsfApi TlsfFacts TlsfHoare TlsfOwners TlsfOwnership TlsfSpec TlsfLists TlsfTiling TlsfBlocks TlsfMalloc TlsfFree TlsfPool TlsfWalk TlsfRealloc ProcMemory World Rpc RpcSpec RpcCall RpcCallSpec Registry RegistrySpec RegistryGrowth Trash Gc GcSpec Collection CollectionSpec Deferred Departure Arrival Socket Server ServerSpec.
From S2P Require Shmem Proc ProcSpec ListSpin FixBlock MpmcQueue MpmcAlone.

(** ** The end of a connection *)

Definition left_behind (d : daemon) (ed : Z) (g : gworld) (c : FixBlock.chain) : daemon :=
  let e := ed_at d ed in
  Daemon g (set_pool_epcln c (set_clients (i32 (clients (srv d) - 1)) (srv d))) (<[ed := Epoll 0 (ed_epfd e) (ed_events e) (ed_pid e)]> (eds d))
    (delete (ed_socket e) (watched d)) (ed_socket e :: closed d) (uid_next d).
Section leaving.
Context (cap : Z) (fuel rounds : nat) (malloc : trash_store -> Z -> Z) (realloc : trash_store -> Z -> Z -> Z) (garbage : Z -> nat -> list Z).
Abbreviation worker := (libsrpc_unix_client_worker cap fuel rounds malloc realloc garbage).
Lemma worker_run d ed hup rlen rc g rcf c : ed <> NULL -> hup || (rlen =? 0) = true ->
  Proc.libsrpc_proc_destroy cap fuel malloc realloc garbage rounds (ed_pid (ed_at d ed)) (dg d) = Ret rc g ->
  FixBlock.srpc_pool_free (pool_epcln (srv d)) ed = (rcf, c) -> worker ed hup rlen d = Ret 0 (left_behind d ed g c).
Proof.
  intros Hed Hend Edes Efree. unfold libsrpc_unix_client_worker. rewrite (proj2 (Z.eqb_neq ed NULL)), Hend by done.
  set (e := ed_at d ed). set (d1 := set_srv (set_clients (i32 (clients (srv d) - 1)) (srv d)) d).
  set (d2 := set_watched (delete (ed_socket e) (watched d)) d1). set (d3 := set_closed (ed_socket e :: closed d) d2).
  set (d4 := set_eds (<[ed := Epoll 0 (ed_epfd e) (ed_events e) (ed_pid e)]> (eds d)) d3).
  assert (ed_at d1 ed = e) as Ee by done. fold e in Edes.
  rewrite (bind_ret _ _ tt _ d1) by done. rewrite (bind_ret get _ d1 _ d1) by done. rewrite Ee.
  rewrite (bind_ret _ _ tt _ d2) by done. rewrite (bind_ret _ _ tt _ d3) by done. rewrite (bind_ret _ _ tt _ d4) by done.
  rewrite (bind_ret _ _ rc _ (Daemon g (srv d4) (eds d4) (watched d4) (closed d4) (uid_next d4))) by (unfold proc_destroy, lift_g; change (dg d4) with (dg d); by rewrite Edes).
  rewrite (bind_ret _ _ rcf _ (left_behind d ed g c)); [done|]. unfold pool_free. cbn [srv]. change (pool_epcln (srv d4)) with (pool_epcln (srv d)). by rewrite Efree.
Qed.

End leaving.

(** The process behind a connection is destroyed with it. *)
Lemma leaves_run k fuel l rl items malloc realloc garbage rounds d ls T bs p x l1 xb l2 ed hup rlen : 1 <= k <= 61 ->
  ready k fuel l rl items rounds (gw (dg d)) ls T bs -> leaving fuel l items (gw (dg d)) bs p x l1 xb l2 ->
  (holds_locks l rl items (gw (dg d)) p x = true -> library malloc realloc garbage (gw (dg d)) (trashes (dg d))) ->
  ed <> NULL -> FixBlock.chain_ok (pool_epcln (srv d)) -> FixBlock.live (pool_epcln (srv d)) ed -> ed_pid (ed_at d ed) = p_pid x -> hup || (rlen =? 0) = true ->
  exists w' tr' bs' c', libsrpc_unix_client_worker (2 ^ k) fuel rounds malloc realloc garbage ed hup rlen d = Ret 0 (left_behind d ed (GWorld w' tr') c') /\
    departed k fuel l rl items (gw (dg d)) (trashes (dg d)) ls T bs p x xb w' tr' bs' /\
    FixBlock.chain_ok c' /\ forall q, FixBlock.live c' q <-> FixBlock.live (pool_epcln (srv d)) q /\ q <> ed.
Proof.
  intros Hk HR HL HC Hed Hch Hlive Epid Hend.
  destruct (destroy_run k fuel l rl items Hk malloc realloc garbage rounds (gw (dg d)) (trashes (dg d)) ls T bs p x l1 xb l2 HR HL HC) as (w' & tr' & bs' & E & HD).
  destruct (FixBlock.pool_free_run (pool_epcln (srv d)) ed Hch Hlive) as (c' & Ef & Hc' & Hl'). exists w', tr', bs', c'. split; [|done].
  eapply worker_run; [done|done| |exact Ef]. rewrite Epid. destruct (dg d) as [w tr]. exact E.
Qed.

(** (C4) A client that hangs up: its socket is no longer watched and is closed, its record
    is free again, it is not counted any more, and its process is destroyed with all that
    [departed] says; when it was the last client the daemon's loop ends, whatever events
    would follow.  When a live process' request has locked the memory of the one that
    leaves, the daemon's C library has to have memory for the list of it ([library];
    [Deferred.full_list_forgets] shows what happens otherwise). *)
Theorem client_leaves k fuel l rl items malloc realloc garbage rounds nproc name chain_malloc d ls T bs p x l1 xb l2 ed hup rlen : 1 <= k <= 61 ->
  ready k fuel l rl items rounds (gw (dg d)) ls T bs -> leaving fuel l items (gw (dg d)) bs p x l1 xb l2 ->
  (holds_locks l rl items (gw (dg d)) p x = true -> library malloc realloc garbage (gw (dg d)) (trashes (dg d))) ->
  ed <> NULL -> FixBlock.chain_ok (pool_epcln (srv d)) -> FixBlock.live (pool_epcln (srv d)) ed -> ed_pid (ed_at d ed) = p_pid x -> hup || (rlen =? 0) = true ->
  exists d' bs', libsrpc_unix_client_worker (2 ^ k) fuel rounds malloc realloc garbage ed hup rlen d = Ret 0 d' /\
    departed k fuel l rl items (gw (dg d)) (trashes (dg d)) ls T bs p x xb (gw (dg d')) (trashes (dg d')) bs' /\
    watched d' = delete (ed_socket (ed_at d ed)) (watched d) /\ closed d' = ed_socket (ed_at d ed) :: closed d /\
    clients (srv d') = i32 (clients (srv d) - 1) /\ uid_next d' = uid_next d /\
    FixBlock.chain_ok (pool_epcln (srv d')) /\ (forall q, FixBlock.live (pool_epcln (srv d')) q <-> FixBlock.live (pool_epcln (srv d)) q /\ q <> ed) /\
    (clients (srv d) = 1 -> forall answers,
       serve (2 ^ k) fuel rounds nproc name chain_malloc malloc realloc garbage (inl [EvClient ed hup rlen] :: answers) d = Ret 0 d').
Proof.
  intros Hk HR HL HC Hed Hch Hlive Epid Hend.
  destruct (leaves_run k fuel l rl items malloc realloc garbage rounds d ls T bs p x l1 xb l2 ed hup rlen) as (w' & tr' & bs' & c' & E & HD & Hc' & Hl'); try done.
  eexists _, bs'. split; [exact E|]. do 7 (split; [done|]). intros Hlast answers. cbn [serve].
  rewrite (bind_ret _ _ 0 _ (left_behind d ed (GWorld w' tr') c')).
  - change (0 <? 0) with false. cbn match. rewrite (bind_ret get _ _ _ (left_behind d ed (GWorld w' tr') c')) by done.
    assert (clients (srv (left_behind d ed (GWorld w' tr') c')) = 0) as ->; [|done]. cbn. by rewrite Hlast.
  - unfold libsrpc_unix_server_epoll_wait. cbn [dispatch_all dispatch]. rewrite (proj2 (Z.eqb_neq ed NULL)) by done.
    rewrite (bind_bind_ret _ _ _ _ _ _ E). done.
Qed.

(** ** A whole session *)

(** A change of the registry only. *)
Lemma ready_same k fuel l rl items rounds w w' ls T bs : same_rest w w' -> registry_ok w' -> ready k fuel l rl items rounds w ls T bs -> ready k fuel l rl items rounds w' ls T bs.
Proof.
  intros (E1 & E2 & E3 & E4 & E5 & E6 & E7) Hr [[S1 S2 S3 S4 S5 S6 S7] R2 R3 R4 R5 R6 R7 R8 R9 R10 R11]. split; rewrite ?E1, ?E5, ?E7; try done.
  split; unfold mapped; rewrite ?E1, ?E2, ?E3, ?E7; done.
Qed.
Lemma leaving_same fuel l items w w' bs p x l1 xb l2 : same_rest w w' -> leaving fuel l items w bs p x l1 xb l2 -> leaving fuel l items w' bs p x l1 xb l2.
Proof.
  intros (E1 & E2 & E3 & E4 & E5 & E6 & E7) [L1 L2 L3 L4 L5 L6 L7 L8]. split; rewrite ?E2, ?E3, ?E5; try done.
  intros q Hq. unfold ProcSpec.pid_of. rewrite E3. by apply L3.
Qed.
Lemma segment_ext k fuel l rl rl' items items' w : (forall q, q ∈ l -> rl' q = rl q /\ items' q = items q) -> segment k fuel l rl items w -> segment k fuel l rl' items' w.
Proof.
  intros H [S1 S2 S3 S4 S5 S6 S7]. split; try done.
  - intros q Hq. rewrite (proj2 (H q Hq)). by apply S5.
  - intros q Hq. rewrite (proj1 (H q Hq)). by apply S6.
  - intros q a Hq. rewrite (proj1 (H q Hq)). by apply S7.
Qed.
Lemma filter_new (p : Z) (l : list Z) : p ∉ l -> filter (fun q => q <> p) l = l.
Proof. intros H. apply filter_id. intros q Hq ->. done. Qed.

Section session.
Context (k : Z) (fuel : nat) (l : list Z) (rl items : Z -> list Z) (rounds : nat) (nproc : Z) (libsrpc_daemon_name : list Z).
Context (chain_malloc : FixBlock.chain -> Z -> Z) (malloc : trash_store -> Z -> Z) (realloc : trash_store -> Z -> Z -> Z) (garbage : Z -> nat -> list Z).
Context (Hk : 1 <= k <= 40) (Hmalloc : FixBlock.malloc_ok chain_malloc).
Context (d : daemon) (ls : gmap Z (list Z)) (T : list Z) (bs : list blk) (c : peer) (sck ed pid : Z) (tab : list (Z * Z)) (rs1 : list io_result) (c1 : FixBlock.chain).
Abbreviation w := (gw (dg d)).
Abbreviation tr := (trashes (dg d)).
Abbreviation total := (proc_total k nproc).

(** The daemon and its segment between two events. *)
Record at_rest : Prop := AtRest {
  ar_ready : ready k fuel l rl items rounds w ls T bs;
  ar_orderly : orderly l w ls bs;
  ar_registered : forall j q, q ∈ registered w j -> q ∈ l;
  ar_chain : FixBlock.chain_ok (pool_epcln (srv d));
  ar_clients : 0 <= clients (srv d) < 2 ^ 31 - 1;
  ar_library : library malloc realloc garbage w tr /\ forall n, ~ free_at bs (malloc tr n);
  ar_realloc : forall ts a n, realloc ts a n <> a -> ~ free_at bs (realloc ts a n) }.
(** There is room for one more process. *)
Record room_for_one : Prop := RoomForOne {
  ro_processes : (length l < fuel)%nat /\ (length l <= 100)%nat /\ 2 <= uid_next d /\ uid_next d + 100 < 2 ^ 16;
  ro_exact : forall y, y ∈ bs -> bfree y = true -> class_of y = mapping_search total -> total <= bsize y;
  ro_block : exists y, y ∈ bs /\ bfree y = true /\ ~ class_lt (class_of y) (mapping_search total);
  ro_record : FixBlock.srpc_pool_alloc chain_malloc (pool_epcln (srv d)) = Some (ed, c1) /\ ed <> NULL;
  ro_registry : length tab = Z.to_nat sRPC_FNNUM /\ forall j, overrides tab j = true -> room w j }.
(** A client nobody knows yet, whose calls succeed and whose message arrives. *)
Record client_comes : Prop := ClientComes {
  cc_args : 0 < nproc <= 1024 /\ 0 < pid /\ cred c = inl pid /\ (pid ∉ (ProcSpec.pid_of w <$> l));
  cc_socket : 0 < sck /\ watched d !! sck = None;
  cc_answers : 0 <= sem_rc c /\ spin_rc c = 0 /\ 0 <= setsockopt_rc c /\ 0 <= send_fd_rc c /\ 0 <= epoll_add_rc c;
  cc_name : ((0 : Z) ∉ libsrpc_daemon_name) /\ (length libsrpc_daemon_name < 32)%nat;
  cc_message : delivers sizeof_regfn_msg rs1 /\ send_msg_regfn libsrpc_daemon_name rs1 tab [] = Some (0, wire c) /\ delivers sizeof_regfn_msg (reads c) }.
Context (HA : at_rest) (HRo : room_for_one) (HC : client_comes).

(** The connection: the daemon with the new process, ready and with nothing to hold it. *)
Lemma connected : exists l1 x l4 uid next' w2, let p := baddr x + HEADER_SIZE in let bs1 := l1 ++ carved x total :: l4 in
  let d1 := joined d sck ed pid next' c1 w2 in
  libsrpc_unix_server_addclient (2 ^ k) fuel rounds nproc libsrpc_daemon_name chain_malloc malloc realloc garbage c sck d = Ret (epoll_add_rc c) d1 /\
  (p ∉ l) /\ DAEMON_PROC_UID < uid < 2 ^ 16 /\ (uid ∉ ProcSpec.uids_in_use w l) /\
  ready k fuel (p :: l) (with_new x rl) (with_new x items) rounds w2 (<[proc_head_of (shm_ptr (loc w)) := p :: l]> (<[req_head_of p := []]> ls)) T bs1 /\
  leaving fuel (p :: l) (with_new x items) w2 bs1 p (newcomer k nproc pid uid) l1 (carved x total) l4 /\
  library malloc realloc garbage w2 tr /\
  (forall b, b ∈ used_of bs -> b ∈ used_of bs1 /\ pair_kept (mem (pool w)) (mem (pool w2)) b) /\
  (forall j, filter (fun q => q <> p) (registered w2 j) ≡ₚ registered w j) /\
  (process_block k nproc x ∉ used_of bs) /\ (exists w1, kept_world l w bs w1 bs1 /\ same_rest w1 w2).
Proof.
  destruct HA as [A1 A2 A3 A4 A5 [[B1 B2 B3] A6] A7], HRo as [(R1 & R2 & R3 & R4) R5 (y & Hy & Hfy & Hcl) [R7 R8] [R9 R10]].
  destruct HC as [(C1 & C2 & C3 & C4) _ (C6 & C7 & C8 & C9 & C10) (C11 & C12) (C13 & C14 & C15)].
  destruct (creation_run k fuel l rl items rounds Hk nproc (sem_rc c) (spin_rc c) pid (uid_next d) w ls T bs A1 A2 R1 ltac:(lia) R5) as (rc & next' & w1 & E1 & HCr).
  destruct HCr as [H|_ _ H|w1 H _ _ _|rc next' w1 bs' _ H _ _ _ _|l1 x l2 l4 uid next' w1 _ _ _ _ _ Hn' Ebs Hfit p bs1 ls' Hu Hun HK Hused HR' _ HL].
  - exfalso. lia.
  - done.
  - exfalso. by apply Hcl, H.
  - exfalso. destruct H as [[_ H]|[[_ H]|[_ H]]]; lia.
  - assert (x ∈ bs) as Hx by (rewrite Ebs; apply in_split).
    pose proof (sg_map _ _ _ _ _ _ (rd_segment HR')) as Hm1. destruct HK as [(K1 & K2 & K3 & K4) K5 K6 K7 K8 K9].
    assert (p <> NULL) as Hp0 by (intros E; apply (sg_null _ _ _ _ _ _ (rd_segment HR')); rewrite E; apply list_elem_of_here).
    pose proof (ListSpin.lk_nodup _ _ _ (sg_procs _ _ _ _ _ _ (rd_segment HR'))) as [Hpl _]%NoDup_cons.
    assert (registry_ok w1) as Hok1 by exact (rd_registry HR').
    assert (forall j, overrides tab j = true -> room w1 j) as Hroom by (intros j Hj; unfold room; rewrite K2, K3; by apply R10).
    destruct (connects_run (2 ^ k) fuel rounds nproc libsrpc_daemon_name chain_malloc malloc realloc garbage d c sck ed pid next' c1 w1 R7 R8 C3 E1 tab rs1 p)
      as (w2 & Econ & Hok2 & Hrest & Hcells); try done; [exact (get_leaving _ _ _ _ _ _ _ _ _ _ _ _ _ _ _ HR' HL)|].
    pose proof Hrest as (Q1 & Q2 & Q3 & Q4 & Q5 & Q6 & Q7). exists l1, x, l4, uid, next', w2. split; [exact Econ|]. do 3 (split; [done|]).
    split; [by apply (ready_same _ _ _ _ _ _ w1)|]. split; [by apply (leaving_same _ _ _ w1)|]. split; [|split; [|split; [|split]]].
    + split; [|intros ts a n Ha; destruct (B2 ts a n Ha) as [? [?|[? Hn]]]; (split; [done|]); [by left|]|done].
      * intros n. destruct (B1 n) as (? & ? & Hn). do 2 (split; [done|]). rewrite Q1. by destruct (K9 _ Hn) as [|?%A6].
      * destruct (decide (realloc ts a n = a)) as [|Hne]; [by left|]. right. split; [done|]. rewrite Q1. by destruct (K9 _ Hn) as [|?%A7].
    + intros b Hb. rewrite Q5. by apply K8.
    + intros j. assert (registered w1 j = registered w j) as E1j by (unfold registered; by rewrite (cells_same_objects w w1 j K2 K3)).
      assert (filter (fun q => q <> p) (registered w j) = registered w j) as Ej by (apply filter_new; intros Hin; by apply Hpl, (A3 j)).
      specialize (Hcells j). destruct (overrides tab j).
      * apply took_registered in Hcells; [|done]. rewrite Hcells, filter_cons, decide_False by (intros Hc; by apply Hc). rewrite E1j. fold p. by rewrite Ej.
      * unfold registered at 1. rewrite Hcells. fold (registered w1 j). rewrite E1j. fold p. by rewrite Ej.
    + intros Hin. pose proof (pair_size _ _ _ (rd_pool A1) Hin) as [Hs _]. destruct (free_not_used (pool w) bs (baddr x) (rd_pool A1)).
      * destruct (rd_pool A1) as (_ & _ & Hg & _ & F & Hh). destruct (tiled_in _ _ _ _ _ x (hp_tiled _ _ _ Hh) Hx (start_aligned _ Hg)) as (_ & ? & _).
        exists x. split; [done|]. split; [apply Hfit|]. lia.
      * exists (process_block k nproc x). split; [done|]. cbn [process_block fst snd] in *. lia.
    + by exists w1.
Qed.

Lemma counted_back n : 0 <= n < 2 ^ 31 - 1 -> i32 (i32 (n + 1) - 1) = n.
Proof. intros Hn. assert (i32 (n + 1) = n + 1) as -> by (apply i32_small; lia). rewrite Z.add_simpl_r. apply i32_small. lia. Qed.
(** A block that has another owner than the one that left. *)
Lemma session_spares w2 w' bs1 bs' uid b v : (forall b, b ∈ used_of bs -> b ∈ used_of bs1 /\ pair_kept (mem (pool w)) (mem (pool w2)) b) ->
  spares_others uid (pool w2) bs1 (pool w') bs' -> b ∈ used_of bs -> v ∈ uids (mem (pool w)) b.1 -> v <> 0 -> v <> uid ->
  b ∈ used_of bs' /\ v ∈ uids (mem (pool w')) b.1 /\ forall o, HEADER_SIZE <= o < b.2 -> rdm (mem (pool w')) (b.1 + o) = rdm (mem (pool w)) (b.1 + o).
Proof.
  intros Hkeep Hsp Hb Hv H0 Hne. destruct (Hkeep b Hb) as [Hb1 HK]. destruct (pair_size _ _ b (rd_pool (ar_ready HA)) Hb) as [Hsz _].
  destruct (pair_kept_word _ _ b Hsz HK) as [_ Eu]. destruct b as [a n]. apply used_of_in in Hb1 as (y & Hy & Hfy & <- & <-). cbn [fst snd] in *.
  destruct (Hsp y v Hy Hfy) as (y' & Hy' & Hfy' & Ea & Es & Hv' & Hpl); [by rewrite Eu|done|done|]. split; [apply used_of_in; by exists y'|].
  split; [done|]. intros o Ho. rewrite Hpl by done. by apply (pair_kept_payload _ _ (baddr y, bsize y)).
Qed.

Lemma session_run errno hup rlen : hup || (rlen =? 0) = true -> exists d' bs',
  dispatch_all (2 ^ k) fuel rounds nproc libsrpc_daemon_name chain_malloc malloc realloc garbage [EvAccept sck errno c; EvClient ed hup rlen] d = Ret tt d' /\
  watched d' = watched d /\ closed d' = sck :: closed d /\ clients (srv d') = clients (srv d) /\
  FixBlock.chain_ok (pool_epcln (srv d')) /\ (forall q, FixBlock.live (pool_epcln (srv d')) q <-> FixBlock.live (pool_epcln (srv d)) q) /\
  segment k fuel l rl items (gw (dg d')) /\ (forall q, q ∈ l -> procs (gw (dg d')) !! q = procs w !! q) /\
  registry_ok (gw (dg d')) /\ (forall j, registered (gw (dg d')) j ≡ₚ registered w j) /\ pool_ok (pool (gw (dg d'))) bs' /\
  (forall b v, b ∈ used_of bs -> v ∈ uids (mem (pool w)) b.1 -> v <> 0 -> v = DAEMON_PROC_UID \/ v ∈ ProcSpec.uids_in_use w l ->
     b ∈ used_of bs' /\ v ∈ uids (mem (pool (gw (dg d')))) b.1 /\
     forall o, HEADER_SIZE <= o < b.2 -> rdm (mem (pool (gw (dg d')))) (b.1 + o) = rdm (mem (pool w)) (b.1 + o)) /\
  exists b, b ∈ used_of bs' /\ (b ∉ used_of bs) /\ sig_dc_flag (word_of (mem (pool (gw (dg d')))) b) = true.
Proof.
  intros Hend. destruct connected as (l1 & x & l4 & uid & next' & w2 & Econ & Hpl & Hu & Hun & HR & HL & HB & Hkeep & Hreg & Hpb & w1 & HK & Hrest).
  set (p := baddr x + HEADER_SIZE) in *. set (bs1 := l1 ++ carved x total :: l4) in *. set (d1 := joined d sck ed pid next' c1 w2) in *. 
  destruct (ro_record HRo) as [Halloc Hed]. destruct (cc_args HC) as (_ & _ & Ecred & _), (cc_socket HC) as [Hsck Hnew].
  destruct (FixBlock.pool_alloc_run chain_malloc Hmalloc (pool_epcln (srv d)) (ar_chain HA)) as (ptr & c' & E & Hc1 & Hcase).
  rewrite Halloc in E. injection E as <- <-. destruct Hcase as [(-> & _)|(_ & Hndead & Hlive)]; [done|].
  destruct (leaves_run k fuel (p :: l) (with_new x rl) (with_new x items) malloc realloc garbage rounds d1 _ T bs1 p _ l1 _ l4 ed hup rlen ltac:(lia) HR HL (fun _ => HB) Hed Hc1)
    as (w' & tr' & bs' & c' & Ew & [[D1 D1'] D2 (q & D3 & _) _ D5 [D6 D6'] _ D8 _ _] & Hc' & Hl'); [by apply Hlive; left| |done|].
  { unfold ed_at. cbn. by rewrite lookup_insert_eq. }
  assert (ed_at d1 ed = new_ed d sck pid) as Eed by (unfold ed_at; cbn; by rewrite lookup_insert_eq).
  assert (filter (fun q => q <> p) (p :: l) = l) as El by (rewrite filter_cons, decide_False, filter_new by (done || intros Hc; by apply Hc); done).
  rewrite El in D2. exists (left_behind d1 ed (GWorld w' tr') c'), bs'. split; [|split; [|split; [|split; [|split; [exact Hc'|split; [|split; [|split; [|split; [exact D1|split; [|split; [exact D5|split]]]]]]]]]]].
  - cbn [dispatch_all dispatch]. unfold libsrpc_unix_server_worker. rewrite (proj2 (Z.leb_gt _ _)) by lia. rewrite (bind_ret _ _ _ _ _ Econ).
    rewrite (proj2 (Z.eqb_neq ed NULL)) by done. by rewrite (bind_ret _ _ _ _ _ Ew).
  - cbn [left_behind watched]. rewrite Eed. cbn [new_ed ed_socket]. change (watched d1) with (<[sck := ed]> (watched d)). by rewrite delete_insert_eq, delete_id.
  - cbn [left_behind closed]. by rewrite Eed.
  - cbn. apply counted_back, (ar_clients HA).
  - intros q'. cbn [left_behind srv set_pool_epcln pool_epcln]. rewrite Hl'. change (pool_epcln (srv d1)) with c1. rewrite Hlive. split; [intros [[->|?] ?]; done|]. intros Hq'. split; [by right|]. by intros ->.
  - eapply segment_ext; [|exact D2]. intros q' Hq'. unfold with_new. fold p. rewrite !decide_False; [done|..]; by intros ->.
  - intros q' Hq'. cbn [left_behind dg gw]. rewrite D3, lookup_insert_ne by (by intros <-). change (gw (dg d1)) with w2. destruct Hrest as (_ & _ & -> & _). by apply (kw_procs _ _ _ _ _ HK).
  - intros j. cbn [left_behind dg gw]. rewrite D1'. apply Hreg.
  - intros b v Hb Hv H0 Hown. eapply (session_spares w2 w' bs1 bs' uid b v); try done. intros ->. destruct Hown as [->|?]; [lia|done].
  - exists (process_block k nproc x). done.
Qed.
End session.

(** (C3) A client that connects and then hangs up leaves the daemon as it was: both events
    are served, the same sockets are watched, the new one is closed, the count and the
    records in use are as before; the segment is sound for the same processes, whose
    records have not changed, every function has the executors it had, and the pool is
    well-formed, with every block of the daemon or of another process in its place with
    its contents.  What remains of the process is its block, marked for the collector.
    The conditions are those of the three records: [at_rest], an orderly segment and a C
    library with memory for the daemon ([library]); [room_for_one], a free cell in the
    main or extension block of every function the client overrides (growth is
    [RegistryGrowth.growth_spec]), a free uid, a free record, and a free block for the
    process with none of the class of its size smaller than it (else
    [TlsfPool.undersized_block_taken]); [client_comes], a new client whose message arrives
    and whose system calls succeed (else [ServerSpec.failed_registration_leaks]). *)
Theorem client_session k fuel l rl items rounds nproc name chain_malloc malloc realloc garbage d ls T bs c sck ed pid tab rs1 c1 errno hup rlen :
  1 <= k <= 40 -> FixBlock.malloc_ok chain_malloc -> at_rest k fuel l rl items rounds malloc realloc garbage d ls T bs ->
  room_for_one k fuel l nproc chain_malloc d bs ed tab c1 -> client_comes l nproc name d c sck pid tab rs1 -> hup || (rlen =? 0) = true ->
  exists d' bs', dispatch_all (2 ^ k) fuel rounds nproc name chain_malloc malloc realloc garbage [EvAccept sck errno c; EvClient ed hup rlen] d = Ret tt d' /\
    watched d' = watched d /\ closed d' = sck :: closed d /\ clients (srv d') = clients (srv d) /\
    FixBlock.chain_ok (pool_epcln (srv d')) /\ (forall q, FixBlock.live (pool_epcln (srv d')) q <-> FixBlock.live (pool_epcln (srv d)) q) /\
    segment k fuel l rl items (gw (dg d')) /\ (forall q, q ∈ l -> procs (gw (dg d')) !! q = procs (gw (dg d)) !! q) /\
    registry_ok (gw (dg d')) /\ (forall j, registered (gw (dg d')) j ≡ₚ registered (gw (dg d)) j) /\ pool_ok (pool (gw (dg d'))) bs' /\
    (forall b v, b ∈ used_of bs -> v ∈ uids (mem (pool (gw (dg d)))) b.1 -> v <> 0 -> v = DAEMON_PROC_UID \/ v ∈ ProcSpec.uids_in_use (gw (dg d)) l ->
       b ∈ used_of bs' /\ v ∈ uids (mem (pool (gw (dg d')))) b.1 /\
       forall o, HEADER_SIZE <= o < b.2 -> rdm (mem (pool (gw (dg d')))) (b.1 + o) = rdm (mem (pool (gw (dg d)))) (b.1 + o)) /\
    exists b, b ∈ used_of bs' /\ (b ∉ used_of bs) /\ sig_dc_flag (word_of (mem (pool (gw (dg d')))) b) = true.
Proof. intros Hk Hm HA HRo HC Hend. by eapply session_run. Qed.

(** ** A concrete session

    The first client of a daemon with an empty segment; its process has pid 501 and
    overrides functions 0, 1 and 3. *)
Definition demo_idle (s : tlsf) : daemon := Daemon (GWorld (set_pool s demo_vacant) ∅) (Server 4 3 FixBlock.demo_chain (Some 9) 0 true) ∅ ∅ [] 2.
Lemma funcs_set_pool s v : funcs (set_pool s v) = funcs v /\ ebs (set_pool s v) = ebs v.
Proof. done. Qed.
Lemma demo_unused : forall j, registered demo_vacant j = [].
Proof. intros [|[|[|[|[|j]]]]]; reflexivity. Qed.
Lemma demo_idle_rest s : pool_ok s small_pool ->
  at_rest 1 20 [] (fun _ => []) (fun _ => []) 20 demo_malloc Trash.demo_realloc demo_zeros (demo_idle s) demo_vacant_ls [] small_pool.
Proof.
  intros P. split.
  - apply demo_vacant_ready. exact P.
  - apply demo_vacant_orderly.
  - intros j q. cbn [demo_idle dg gw]. rewrite (registered_set_pool s demo_vacant), demo_unused. done.
  - exact FixBlock.demo_chain_ok.
  - split; [discriminate|reflexivity].
  - split; [split|].
    + intros n. split; [discriminate|]. split; [reflexivity|]. cbn [demo_idle dg gw]. rewrite (lists_set_pool s demo_vacant). reflexivity.
    + intros ts a n Ha. split; [exact Ha|left; reflexivity].
    + intros b n. apply length_replicate.
    + intros n. apply demo_low. reflexivity.
  - intros ts a n Hne. destruct (Hne eq_refl).
Qed.
Lemma demo_idle_room s : room_for_one 1 20 [] 1 FixBlock.demo_malloc (demo_idle s) small_pool demo_ed demo_table FixBlock.demo_chain2.
Proof.
  split.
  - split; [cbn; lia|]. split; [cbn; lia|]. split; [discriminate|reflexivity].
  - by intros y ->%list_elem_of_singleton _ _.
  - eexists. split; [apply list_elem_of_here|]. split; [reflexivity|]. unfold class_lt. vm_compute. naive_solver.
  - split; [vm_compute; reflexivity|vm_compute; discriminate].
  - split; [reflexivity|]. intros j H. unfold room. cbn [demo_idle dg gw]. rewrite (proj1 (funcs_set_pool s demo_vacant)).
    destruct j as [|[|[|[|[|j]]]]]; try discriminate H; (eexists; split; [reflexivity|]; left; apply list_elem_of_here).
Qed.
Lemma demo_client_comes s : client_comes [] 1 demo_name (demo_idle s) (demo_peer 0) 20 501 demo_table [IoBytes 48].
Proof.
  split.
  - split; [split; [reflexivity|discriminate]|]. split; [reflexivity|]. split; [reflexivity|apply not_elem_of_nil].
  - split; reflexivity.
  - cbn. lia.
  - split; [apply (bool_decide_unpack _); exact I|vm_compute; lia].
  - split; [vm_compute; intuition lia|]. split; [vm_compute; reflexivity|vm_compute; intuition lia].
Qed.
Lemma client_session_witness : exists s d' bs',
  dispatch_all 2 20 20 1 demo_name FixBlock.demo_malloc demo_malloc Trash.demo_realloc demo_zeros
    [EvAccept 20 0 (demo_peer 0); EvClient demo_ed true 0] (demo_idle s) = Ret tt d' /\
  pool_ok s small_pool /\ watched d' = ∅ /\ closed d' = [20] /\ clients (srv d') = 0 /\ segment 1 20 [] (fun _ => []) (fun _ => []) (gw (dg d')) /\
  pool_ok (pool (gw (dg d'))) bs' /\ used_of bs' <> [].
Proof.
  destruct fresh_pool as (s & _ & P). exists s.
  destruct (client_session 1 20 [] (fun _ => []) (fun _ => []) 20 1 demo_name FixBlock.demo_malloc demo_malloc Trash.demo_realloc demo_zeros (demo_idle s)
    demo_vacant_ls [] small_pool (demo_peer 0) 20 demo_ed 501 demo_table [IoBytes 48] FixBlock.demo_chain2 0 true 0)
    as (d' & bs' & E & Hw & Hcl & Hn & _ & _ & Hseg & _ & _ & _ & Hp & _ & b & Hb & _).
  - split; discriminate.
  - exact FixBlock.demo_malloc_ok.
  - apply demo_idle_rest. exact P.
  - apply demo_idle_room.
  - apply demo_client_comes.
  - reflexivity.
  - exists d', bs'. split; [exact E|]. split; [exact P|]. split; [exact Hw|]. split; [exact Hcl|]. split; [exact Hn|]. split; [exact Hseg|]. split; [exact Hp|].
    intros En. rewrite En in Hb. by apply not_elem_of_nil in Hb.
Defined.

(** The client of the first session is the only one of its daemon. *)
Definition demo_occupied (s : tlsf) : daemon :=
  Daemon (GWorld (set_pool s demo_departing) ∅) (Server 4 3 FixBlock.demo_chain2 (Some 9) 1 true) {[ demo_ed := Epoll 20 3 0 500 ]} {[ 20 := demo_ed ]} [] 3.
Lemma demo_record : FixBlock.chain_ok FixBlock.demo_chain2 /\ FixBlock.live FixBlock.demo_chain2 demo_ed /\ demo_ed <> NULL.
Proof.
  destruct (FixBlock.pool_alloc_run FixBlock.demo_malloc FixBlock.demo_malloc_ok FixBlock.demo_chain FixBlock.demo_chain_ok) as (ptr & c' & E & Hc & Hcase).
  assert (FixBlock.srpc_pool_alloc FixBlock.demo_malloc FixBlock.demo_chain = Some (demo_ed, FixBlock.demo_chain2)) as E' by (vm_compute; reflexivity).
  rewrite E in E'. injection E' as -> ->. destruct Hcase as [(E0 & _)|(Hne & _ & Hl)]; [discriminate E0|]. split; [exact Hc|]. split; [by apply Hl; left|exact Hne].
Qed.
Lemma client_leaves_witness : exists s d' bs',
  libsrpc_unix_client_worker (2 ^ 1) 20 20 demo_malloc Trash.demo_realloc demo_zeros demo_ed true 0 (demo_occupied s) = Ret 0 d' /\
  serve (2 ^ 1) 20 20 2 demo_name FixBlock.demo_malloc demo_malloc Trash.demo_realloc demo_zeros [inl [EvClient demo_ed true 0]] (demo_occupied s) = Ret 0 d' /\
  pool_ok s cut_pool /\ watched d' = ∅ /\ closed d' = [20] /\ clients (srv d') = 0 /\ pool_ok (pool (gw (dg d'))) bs' /\
  exists q, procs (gw (dg d')) !! demo_process = Some (left_proc demo_leaver q).
Proof.
  destruct (cut_pool_typed Shmem.SHMDT_PROC) as (s & P & U & _ & E). exists s. destruct demo_record as (R1 & R2 & R3).
  destruct (client_leaves 1 20 [demo_process] (fun _ => []) (fun _ => [77]) demo_malloc Trash.demo_realloc demo_zeros 20 2 demo_name FixBlock.demo_malloc (demo_occupied s)
    demo_departing_ls [] cut_pool demo_process demo_leaver [] (Blk demo_block 192 false false false false) [Blk (demo_block + 192) 1280 true true true false] demo_ed true 0)
    as (d' & bs' & E1 & [_ _ (q & D3 & _) _ D5 _ _ _ _ _] & Hw & Hcl & Hn & _ & _ & _ & Hserve).
  - split; discriminate.
  - apply demo_departing_ready; [exact P|exact E].
  - apply demo_departing_leaves. exact U.
  - intros _. apply demo_departing_library.
  - exact R3.
  - exact R1.
  - exact R2.
  - vm_compute. reflexivity.
  - reflexivity.
  - exists d', bs'. split; [exact E1|]. split; [apply Hserve; reflexivity|]. split; [exact P|]. split; [|split; [|split; [exact Hn|split; [exact D5|]]]].
    + rewrite Hw. cbn [demo_occupied watched]. vm_compute. reflexivity.
    + rewrite Hcl. vm_compute. reflexivity.
    + exists q. rewrite D3. apply lookup_insert_eq.
Defined.
