(* ===== verification/Client.v ===== *)
(** The client side of the connection ([libsrpc_unix_socket.c], [libsrpc.c]): the
    thread that registers the process with the daemon, maps the segment, starts the
    workers and waits for the connection to end. *)
From S2P Require Import Prelude Machine Errno World Shmem Rpc RpcSpec RpcCall Proc ProcSpec.
From S2P Require ListSpin RegistrySpec MpmcQueue TlsfSpec.

(** ** State *)

(** [libsrpc_client_t]: its descriptors and the value of [sem_status]. *)
Record libsrpc_client := Client { cli_socket : Z; cli_epfd : Z; cli_shm_fd : Z; efd_exit : Z; sem_status : Z }.
(** The process: the segment and its variables, the client record, the descriptors
    closed so far, [srpc_thread_stop_flag]. *)
Record cstate := CState { cw : world; cli : libsrpc_client; cclosed : list Z; stop_flag : bool }.
Abbreviation CM := (M cstate).
Definition lift_c {A} (m : WM A) : CM A := fun s =>
  match m (cw s) with
  | Ret a w => Ret a (CState w (cli s) (cclosed s) (stop_flag s))
  | Fault => Fault
  | Hang => Hang
  | Crash w => Crash (CState w (cli s) (cclosed s) (stop_flag s))
  end.
Definition upd_cli (f : libsrpc_client -> libsrpc_client) : CM unit := modify (fun s => CState (cw s) (f (cli s)) (cclosed s) (stop_flag s)).
Definition get_cli {A} (f : libsrpc_client -> A) : CM A := gets (fun s => f (cli s)).
Definition close_fd (fd : Z) : CM unit := modify (fun s => CState (cw s) (cli s) (fd :: cclosed s) (stop_flag s)).
Definition set_socket v c := Client v (cli_epfd c) (cli_shm_fd c) (efd_exit c) (sem_status c).
Definition set_epfd v c := Client (cli_socket c) v (cli_shm_fd c) (efd_exit c) (sem_status c).
Definition set_shm_fd v c := Client (cli_socket c) (cli_epfd c) v (efd_exit c) (sem_status c).
Definition set_efd_exit v c := Client (cli_socket c) (cli_epfd c) (cli_shm_fd c) v (sem_status c).
Definition set_sem_status v c := Client (cli_socket c) (cli_epfd c) (cli_shm_fd c) (efd_exit c) v.
Definition post_status : CM unit := upd_cli (fun c => set_sem_status (sem_status c + 1) c).

Definition set_shm_ptr v l := Local (simplerpc_data l) v (my_proc l) (my_uid l) (rpc_enable l) (srpc_disable_rpc_recursion l) (current_req l) (rpc_timeout_oneshot l) (rpc_timeout l) (rpc_timeout_global l) (req_seq_num l) (libsrpc_errno l).
Definition set_my_proc v l := Local (simplerpc_data l) (shm_ptr l) v (my_uid l) (rpc_enable l) (srpc_disable_rpc_recursion l) (current_req l) (rpc_timeout_oneshot l) (rpc_timeout l) (rpc_timeout_global l) (req_seq_num l) (libsrpc_errno l).
Definition set_my_uid v l := Local (simplerpc_data l) (shm_ptr l) (my_proc l) v (rpc_enable l) (srpc_disable_rpc_recursion l) (current_req l) (rpc_timeout_oneshot l) (rpc_timeout l) (rpc_timeout_global l) (req_seq_num l) (libsrpc_errno l).
Definition set_rpc_enable v l := Local (simplerpc_data l) (shm_ptr l) (my_proc l) (my_uid l) v (srpc_disable_rpc_recursion l) (current_req l) (rpc_timeout_oneshot l) (rpc_timeout l) (rpc_timeout_global l) (req_seq_num l) (libsrpc_errno l).

Section client.
Context (cap : Z) (fuel : nat).

(** ** Connecting *)

(** What [connect] answers: success, or an [errno]. *)
Definition ECONNREFUSED := 111.
Fixpoint connect_loop (tries : nat) (rc : Z) (connects : list (option Z)) : option Z :=
  match tries with
  | O => Some rc
  | S tries =>
      match connects with
      | [] => None
      | None :: _ => Some 0
      | Some e :: connects => if e =? ECONNREFUSED then connect_loop tries (-1) connects else Some (-1)
      end
  end.
(** [libsrpc_unix_socket_client_create]: [sck] is what [socket] answers. *)
Definition libsrpc_unix_socket_client_create (sck : Z) (connects : list (option Z)) : CM Z :=
  if sck <? 0 then mret (-1)
  else
    match connect_loop (Z.to_nat 10000) 0 connects with
    | None => hang
    | Some rc => if rc <? 0 then close_fd sck ;; mret (-1) else mret sck
    end.

(** ** The workers of the process *)

Fixpoint post_times (n : nat) (p : Z) : WM unit :=
  match n with O => mret tt | S n => sem_post_proc p ;; post_times n p end.
(** The last loop of [libsrpc_thread_rcv_req_stop]: what the workers did before each
    look at [threads_run]. *)
Fixpoint wait_threads (others : list (world -> world)) (p : Z) : WM unit :=
  match others with
  | [] => hang
  | f :: others => modify f ;; x ← get_proc p; if 0 <? threads_run x then wait_threads others p else mret tt
  end.
Definition libsrpc_thread_rcv_req_stop (others : list (world -> world)) : CM Z :=
  p ← lift_c (getl my_proc);
  x ← lift_c (get_proc p);
  let n := u32 (threads_wait x + 1) in
  modify (fun s => CState (cw s) (cli s) (cclosed s) true) ;;
  lift_c (post_times (Z.to_nat n) p) ;;
  lift_c (libsrpc_thread_rcv_queue_clear cap fuel p) ;;
  lift_c (wait_threads others p) ;;
  mret 0.
(** [start_rc]: what [pthread_start_all_cpu] answers. *)
Definition libsrpc_thread_rcv_req_start (start_rc : Z) (others : list (world -> world)) : CM Z :=
  if negb (start_rc =? 0) then libsrpc_thread_rcv_req_stop others ;; mret start_rc else mret start_rc.

(** The destructor of a thread's data: its request block goes. *)
Definition libsrpc_cleanup_data (ptr : Z) : WM unit := if ptr =? NULL then mret tt else libsrpc_req_free fuel ptr.

(** ** The thread *)

Inductive client_event :=
  | EvWaitFailed                 (* epoll_wait fails *)
  | EvExit (rl : Z)              (* the alarm of the exit; what read answers *)
  | EvSocket (hup input : bool) (rl : Z).  (* the socket; what recv answers *)
(** The answers of the system calls and of the other threads, in the order of the
    thread. [others] is what happened to the segment until it is mapped. *)
Record answers := Answers { a_socket : Z; a_connects : list (option Z); a_send : Z; a_recv_fd : Z; a_open : Z; a_shm : Z;
  a_others : world -> world; a_pid : Z; a_start : Z; a_epoll : Z; a_add : Z; a_efd : Z; a_add_efd : Z;
  a_events : list client_event; a_workers : list (world -> world) }.

(** Where the thread goes when its preparation is over; [epfd] is the local variable. *)
Inductive label := LWait | LErr (epfd : Z) | LErrRecvFd.
Definition map_segment (a : answers) : CM Z :=
  if a_open a <? 0 then mret (a_open a)
  else
    lift_c (modify (a_others a)) ;;
    lift_c (modl (set_shm_ptr (a_shm a))) ;;
    mret (a_open a).
Definition prepare (a : answers) : CM label :=
  sck ← libsrpc_unix_socket_client_create (a_socket a) (a_connects a);
  upd_cli (set_socket sck) ;;
  if sck <=? 0 then mret LErrRecvFd
  else if a_send a <? 0 then mret LErrRecvFd
  else
    upd_cli (set_shm_fd (a_recv_fd a)) ;;
    if a_recv_fd a <=? 0 then mret LErrRecvFd
    else
      rc ← map_segment a;
      if rc <? 0 then mret (LErr (-1))
      else
        p ← lift_c (libsrpc_proc_get fuel (a_pid a));
        lift_c (modl (set_my_proc p)) ;;
        if p =? NULL then mret (LErr (-1))
        else
          x ← lift_c (get_proc p);
          lift_c (modl (set_my_uid (proc_uid x))) ;;
          rc ← libsrpc_thread_rcv_req_start (a_start a) (a_workers a);
          if negb (rc =? 0) then mret (LErr (-1))
          else
            lift_c (modl (set_rpc_enable true)) ;;
            if a_epoll a <? 0 then mret (LErr (-1))
            else
              upd_cli (set_epfd (a_epoll a)) ;;
              if a_add a <? 0 then mret (LErr (a_epoll a))
              else
                upd_cli (set_efd_exit (a_efd a)) ;;
                if a_efd a <? 0 then mret (LErr (a_epoll a))
                else if a_add_efd a <? 0 then mret (LErr (a_epoll a))
                else
                  lift_c (upd_proc p libsrpc_proc_set_run) ;;
                  post_status ;;
                  mret LWait.
(** The event loop: [true] for the label [end], [false] for [err]. *)
Fixpoint wait_events (evs : list client_event) : CM bool :=
  match evs with
  | [] => hang
  | EvWaitFailed :: _ => mret false
  | EvExit rl :: _ => mret (0 <? rl)
  | EvSocket hup input rl :: evs =>
      if hup then mret false
      else if input && (rl <=? 0) then mret false
      else wait_events evs
  end.
Definition close_if (fd : Z) : CM unit := if 0 <? fd then close_fd fd else mret tt.
(** The labels [close] and [err_recv_fd]; [epfd] is the local variable. *)
Definition err_recv_fd : CM unit :=
  sck ← get_cli cli_socket; close_if sck ;; upd_cli (set_socket (-1)).
Definition close_label (a : answers) (epfd : Z) : CM unit :=
  lift_c (modl (set_rpc_enable false)) ;;
  p ← lift_c (getl my_proc);
  lift_c (upd_proc p libsrpc_proc_set_stop) ;;
  libsrpc_thread_rcv_req_stop (a_workers a) ;;
  efd ← get_cli efd_exit;
  close_if efd ;;
  upd_cli (set_efd_exit (-1)) ;;
  close_if epfd ;;
  shm_fd ← get_cli cli_shm_fd;
  close_if shm_fd ;;
  upd_cli (set_shm_fd (-1)) ;;
  err_recv_fd.
(** After the preparation, if the thread does not go to wait for events. *)
Definition unix_client_prepared (a : answers) (l : label) : CM unit :=
  match l with
  | LWait => mret tt
  | LErr epfd => post_status ;; close_label a epfd
  | LErrRecvFd => err_recv_fd
  end.
Definition unix_client (a : answers) : CM unit :=
  l ← prepare a;
  match l with
  | LWait =>
      ok ← wait_events (a_events a);
      (if (ok : bool) then mret tt else post_status) ;;
      close_label a (a_epoll a)
  | _ => unix_client_prepared a l
  end.

(** [libsrpc_unix_client_init]: the thread runs until it waits for events or ends,
    then the semaphore is waited for. *)
Definition libsrpc_unix_client_init (sem_rc start_rc : Z) (a : answers) : CM Z :=
  if sem_rc <? 0 then mret sem_rc
  else
    upd_cli (set_sem_status 0) ;;
    if start_rc <? 0 then mret start_rc
    else
      (if 0 <? start_rc then mret tt else l ← prepare a; unix_client_prepared a l) ;;
      v ← get_cli sem_status;
      if 0 <? v then upd_cli (set_sem_status (v - 1)) ;; mret 0 else hang.
(** [libsrpc_unix_client_exit]: what [write] answers, [errno]. *)
Definition libsrpc_unix_client_exit (write_rc errno : Z) : CM Z := mret (if write_rc <? 0 then - errno else 0).
End client.

(** ** What the caller of [libsrpc_unix_client_init] sees *)

Section init.
Context (cap : Z) (fuel : nat) (a : answers) (s : cstate).

(** The process connected, and got the descriptor of the segment. *)
Definition connected : Prop := 0 < a_socket a /\ connect_loop (Z.to_nat 10000) 0 (a_connects a) = Some 0 /\
  0 <= a_send a /\ 0 < a_recv_fd a.
(** The segment as the thread finds it once mapped. *)
Definition seen : world := set_loc (set_shm_ptr (a_shm a) (loc (a_others a (cw s)))) (a_others a (cw s)).
Definition running (p : Z) (x : proc) : world :=
  let w := seen in
  let l := set_rpc_enable true (set_my_uid (proc_uid x) (set_my_proc p (loc w))) in
  set_procs (<[p := libsrpc_proc_set_run x]> (procs w)) (set_loc l w).

Lemma create_client_run v : connected -> libsrpc_unix_socket_client_create (a_socket a) (a_connects a) v = Ret (a_socket a) v.
Proof.
  intros (H1 & H2 & _). unfold libsrpc_unix_socket_client_create. rewrite (proj2 (Z.ltb_ge _ _)), H2 by lia. done.
Qed.
Lemma map_run v : 0 <= a_open a -> cw v = cw s -> map_segment a v = Ret (a_open a) (CState seen (cli v) (cclosed v) (stop_flag v)).
Proof. intros H E. unfold map_segment. rewrite (proj2 (Z.ltb_ge _ _) H). unfold seen. rewrite <- E. reflexivity. Qed.

(** The state in which the segment is mapped. *)
Definition mapped_state (c0 : libsrpc_client) : cstate :=
  CState (cw s) (set_shm_fd (a_recv_fd a) (set_socket (a_socket a) c0)) (cclosed s) (stop_flag s).
Definition after_map : CM label :=
  rc ← map_segment a;
  if rc <? 0 then mret (LErr (-1))
  else
    p ← lift_c (libsrpc_proc_get fuel (a_pid a));
    lift_c (modl (set_my_proc p)) ;;
    if p =? NULL then mret (LErr (-1))
    else
      x ← lift_c (get_proc p);
      lift_c (modl (set_my_uid (proc_uid x))) ;;
      rc ← libsrpc_thread_rcv_req_start cap fuel (a_start a) (a_workers a);
      if negb (rc =? 0) then mret (LErr (-1))
      else
        lift_c (modl (set_rpc_enable true)) ;;
        if a_epoll a <? 0 then mret (LErr (-1))
        else
          upd_cli (set_epfd (a_epoll a)) ;;
          if a_add a <? 0 then mret (LErr (a_epoll a))
          else
            upd_cli (set_efd_exit (a_efd a)) ;;
            if a_efd a <? 0 then mret (LErr (a_epoll a))
            else if a_add_efd a <? 0 then mret (LErr (a_epoll a))
            else
              lift_c (upd_proc p libsrpc_proc_set_run) ;;
              post_status ;;
              mret LWait.
Lemma prepare_run c0 : connected -> prepare cap fuel a (CState (cw s) c0 (cclosed s) (stop_flag s)) = after_map (mapped_state c0).
Proof.
  intros H. unfold prepare. rewrite (bind_ret _ _ _ _ _ (create_client_run _ H)). destruct H as (H1 & _ & H3 & H4).
  rewrite (bind_ret _ _ tt _ (CState (cw s) (set_socket (a_socket a) c0) (cclosed s) (stop_flag s))) by reflexivity.
  rewrite (proj2 (Z.leb_gt (a_socket a) 0)), (proj2 (Z.ltb_ge (a_send a) 0)) by lia.
  rewrite (bind_ret _ _ tt _ (mapped_state c0)) by reflexivity. by rewrite (proj2 (Z.leb_gt (a_recv_fd a) 0)) by lia.
Qed.

Lemma lift_c_run {A} (m : WM A) v x w' : m (cw v) = Ret x w' -> lift_c m v = Ret x (CState w' (cli v) (cclosed v) (stop_flag v)).
Proof. intros E. unfold lift_c. by rewrite E. Qed.

Lemma prepare_ok c0 p x : connected -> 0 <= a_open a -> libsrpc_proc_get fuel (a_pid a) seen = Ret p seen -> p <> NULL ->
  procs seen !! p = Some x -> a_start a = 0 -> 0 <= a_epoll a -> 0 <= a_add a -> 0 <= a_efd a -> 0 <= a_add_efd a ->
  prepare cap fuel a (CState (cw s) c0 (cclosed s) (stop_flag s)) =
    Ret LWait (CState (running p x)
      (Client (a_socket a) (a_epoll a) (a_recv_fd a) (a_efd a) (sem_status c0 + 1)) (cclosed s) (stop_flag s)).
Proof.
  intros Hc Ho Hg Hp Ex Hst He1 He2 He3 He4. rewrite prepare_run by done. unfold after_map.
  rewrite (bind_ret _ _ _ _ _ (map_run (mapped_state c0) Ho eq_refl)), (proj2 (Z.ltb_ge _ _) Ho).
  rewrite (bind_ret _ _ _ _ _ (lift_c_run _ (CState seen _ _ _) _ _ Hg)). cbn [cli cclosed stop_flag mapped_state].
  set (w1 := set_loc (set_my_proc p (loc seen)) seen).
  rewrite (bind_ret _ _ tt _ (CState w1 (set_shm_fd (a_recv_fd a) (set_socket (a_socket a) c0)) (cclosed s) (stop_flag s))) by reflexivity.
  rewrite (proj2 (Z.eqb_neq p NULL)) by done.
  rewrite (bind_ret _ _ _ _ _ (lift_c_run _ (CState w1 _ _ _) _ _ (get_proc_run p w1 x Ex))). cbn [cli cclosed stop_flag].
  set (w2 := set_loc (set_my_uid (proc_uid x) (loc w1)) w1).
  rewrite (bind_ret _ _ tt _ (CState w2 (set_shm_fd (a_recv_fd a) (set_socket (a_socket a) c0)) (cclosed s) (stop_flag s))) by reflexivity.
  unfold libsrpc_thread_rcv_req_start. rewrite Hst. cbn [Z.eqb negb]. rewrite bind_mret. cbn [Z.eqb negb].
  set (w3 := set_loc (set_rpc_enable true (loc w2)) w2).
  rewrite (bind_ret _ _ tt _ (CState w3 (set_shm_fd (a_recv_fd a) (set_socket (a_socket a) c0)) (cclosed s) (stop_flag s))) by reflexivity.
  rewrite (proj2 (Z.ltb_ge _ _) He1). unfold upd_cli, modify. unfold mbind at 1, M_bind. rewrite (proj2 (Z.ltb_ge _ _) He2).
  unfold mbind at 1, M_bind. rewrite (proj2 (Z.ltb_ge _ _) He3), (proj2 (Z.ltb_ge _ _) He4).
  rewrite (bind_ret _ _ _ _ _ (lift_c_run _ (CState w3 _ _ _) _ _ (upd_proc_run p w3 x _ Ex))). reflexivity.
Qed.

(** (C37) When the connection, the registration message, the descriptor, the mapping, the
    workers and the two descriptors of the loop all succeed, [libsrpc_unix_client_init]
    returns 0 to the program, and then the process runs: it knows its record and the
    uid the daemon gave it, remote calls are enabled, and its status is RUN, so that
    callers find it. *)
Theorem client_init_spec sem_rc p x : 0 <= sem_rc -> connected -> 0 <= a_open a ->
  libsrpc_proc_get fuel (a_pid a) seen = Ret p seen -> p <> NULL -> procs seen !! p = Some x ->
  a_start a = 0 -> 0 <= a_epoll a -> 0 <= a_add a -> 0 <= a_efd a -> 0 <= a_add_efd a ->
  exists s', libsrpc_unix_client_init cap fuel sem_rc 0 a s = Ret 0 s' /\ cw s' = running p x /\
    my_proc (loc (cw s')) = p /\ my_uid (loc (cw s')) = proc_uid x /\ rpc_enable (loc (cw s')) = true /\
    procs (cw s') !! p = Some (libsrpc_proc_set_run x) /\ sem_status (cli s') = 0 /\ cclosed s' = cclosed s.
Proof.
  intros Hs Hc Ho Hg Hp Ex Hst He1 He2 He3 He4. unfold libsrpc_unix_client_init. rewrite (proj2 (Z.ltb_ge _ _) Hs).
  rewrite (bind_ret _ _ tt _ (CState (cw s) (set_sem_status 0 (cli s)) (cclosed s) (stop_flag s))) by reflexivity.
  cbn [Z.ltb Z.compare]. rewrite (bind_bind_ret _ _ _ _ _ _ (prepare_ok (set_sem_status 0 (cli s)) p x Hc Ho Hg Hp Ex Hst He1 He2 He3 He4)).
  cbn [unix_client_prepared]. rewrite bind_mret. eexists. split; [reflexivity|]. split; [done|]. split; [done|]. split; [done|].
  split; [done|]. split; [|done]. cbn. apply lookup_insert_eq.
Qed.

(** ** Errors *)

(** The thread gave up before it had the descriptor of the segment. *)
Definition not_connected : Prop := a_socket a < 0 \/
  0 < a_socket a /\ connect_loop (Z.to_nat 10000) 0 (a_connects a) = Some (-1) \/
  0 < a_socket a /\ connect_loop (Z.to_nat 10000) 0 (a_connects a) = Some 0 /\ (a_send a < 0 \/ a_recv_fd a <= 0).
Lemma prepare_early c0 : not_connected -> exists s1, prepare cap fuel a (CState (cw s) c0 (cclosed s) (stop_flag s)) = Ret LErrRecvFd s1 /\
  sem_status (cli s1) = sem_status c0.
Proof.
  intros [H|[[H1 H2]|(H1 & H2 & H3)]]; unfold prepare, libsrpc_unix_socket_client_create.
  - rewrite (proj2 (Z.ltb_lt _ _) H), bind_mret. eexists. split; reflexivity.
  - rewrite (proj2 (Z.ltb_ge (a_socket a) 0)), H2 by lia. eexists. split; reflexivity.
  - rewrite (proj2 (Z.ltb_ge (a_socket a) 0)), H2 by lia. cbn [Z.ltb Z.compare]. rewrite bind_mret.
    rewrite (bind_ret _ _ tt _ (CState (cw s) (set_socket (a_socket a) c0) (cclosed s) (stop_flag s))) by reflexivity.
    rewrite (proj2 (Z.leb_gt (a_socket a) 0)) by done. destruct (Z.ltb_spec (a_send a) 0); [eexists; split; reflexivity|].
    destruct H3 as [?|H3]; [lia|]. rewrite (bind_ret _ _ tt _ (mapped_state c0)) by reflexivity.
    rewrite (proj2 (Z.leb_le _ _) H3). eexists. split; reflexivity.
Qed.
Lemma err_recv_fd_run v : exists v', err_recv_fd v = Ret tt v' /\ sem_status (cli v') = sem_status (cli v).
Proof.
  unfold err_recv_fd, get_cli, gets, close_if. unfold mbind at 1, M_bind. destruct (0 <? cli_socket (cli v)); eexists; split; reflexivity.
Qed.

(** An error before the thread has the descriptor leaves the semaphore as it was: the
    program, which calls [libsrpc_unix_client_init] from the library's constructor,
    waits for ever. So it does when [pthread_start] answers a positive number. *)
Lemma client_init_hangs sem_rc : 0 <= sem_rc -> not_connected -> libsrpc_unix_client_init cap fuel sem_rc 0 a s = Hang.
Proof.
  intros Hs H. unfold libsrpc_unix_client_init. rewrite (proj2 (Z.ltb_ge _ _) Hs).
  rewrite (bind_ret _ _ tt _ (CState (cw s) (set_sem_status 0 (cli s)) (cclosed s) (stop_flag s))) by reflexivity.
  cbn [Z.ltb Z.compare]. destruct (prepare_early (set_sem_status 0 (cli s)) H) as (s1 & E1 & Es1).
  rewrite (bind_bind_ret _ _ _ _ _ _ E1). cbn [unix_client_prepared]. destruct (err_recv_fd_run s1) as (s2 & E2 & Es2).
  rewrite (bind_ret _ _ _ _ _ E2). unfold get_cli, gets. unfold mbind at 1, M_bind. rewrite Es2, Es1. reflexivity.
Qed.
Lemma client_init_hangs_start sem_rc start_rc : 0 <= sem_rc -> 0 < start_rc -> libsrpc_unix_client_init cap fuel sem_rc start_rc a s = Hang.
Proof.
  intros Hs H. unfold libsrpc_unix_client_init. rewrite (proj2 (Z.ltb_ge _ _) Hs).
  rewrite (bind_ret _ _ tt _ (CState (cw s) (set_sem_status 0 (cli s)) (cclosed s) (stop_flag s))) by reflexivity.
  rewrite (proj2 (Z.ltb_ge start_rc 0)), (proj2 (Z.ltb_lt 0 start_rc)) by lia. reflexivity.
Qed.

(** A segment that cannot be mapped, or whose name differs: the thread goes on to
    clear the status of a process it does not have, through a NULL pointer. *)
Lemma client_init_null sem_rc : 0 <= sem_rc -> connected -> a_open a < 0 -> my_proc (loc (cw s)) = NULL -> procs (cw s) !! NULL = None ->
  libsrpc_unix_client_init cap fuel sem_rc 0 a s = Fault.
Proof.
  intros Hs Hc Ho Hp Hn. unfold libsrpc_unix_client_init. rewrite (proj2 (Z.ltb_ge _ _) Hs).
  rewrite (bind_ret _ _ tt _ (CState (cw s) (set_sem_status 0 (cli s)) (cclosed s) (stop_flag s))) by reflexivity.
  cbn [Z.ltb Z.compare].
  assert (prepare cap fuel a (CState (cw s) (set_sem_status 0 (cli s)) (cclosed s) (stop_flag s)) =
    Ret (LErr (-1)) (mapped_state (set_sem_status 0 (cli s)))) as E1.
  { rewrite prepare_run by done. unfold after_map, map_segment. by rewrite (proj2 (Z.ltb_lt _ _) Ho), bind_mret, (proj2 (Z.ltb_lt _ _) Ho). }
  rewrite (bind_bind_ret _ _ _ _ _ _ E1). cbn [unix_client_prepared].
  unfold post_status, close_label, upd_cli, modify, lift_c, modl, getl, gets, upd_proc, get_proc, deref. unfold mbind, M_bind.
  cbn. by rewrite Hp, Hn.
Qed.
End init.

(** ** A concrete start: the daemon has registered the process as 700 under uid 2 *)
Definition demo_before : world := set_loc (Local 1 NULL NULL 0 false false NULL 0 [] 0 0 0) (World (ListSpin.LStore ∅ ∅) ∅ ∅ ∅ [] [] (pool demo_procs) 0 (loc demo_procs)).
Definition demo_client : cstate := CState demo_before (Client 0 0 0 0 0) [] false.
Definition demo_others (w : world) : world := set_procs (procs demo_procs) (set_lists (lists demo_procs) w).
Definition demo_answers : answers := Answers 5 [Some ECONNREFUSED; None] 0 6 0 (TlsfSpec.demo_pool - POOL_OFF) demo_others 500 0 7 0 8 0 [] [].
Lemma demo_seen_get : libsrpc_proc_get 5 500 (seen demo_answers demo_client) = Ret 700 (seen demo_answers demo_client).
Proof.
  assert (forall l v1 v2 w, lists (set_loc l (set_procs v1 (set_lists v2 w))) = v2) as Hl by reflexivity.
  assert (forall l v1 v2 w, procs (set_loc l (set_procs v1 (set_lists v2 w))) = v1) as Hp by reflexivity.
  pose proof (pl_listed _ _ _ demo_plist) as [Hk Hr].
  rewrite (proc_get_run _ [700]); [reflexivity|split; discriminate|split; [exact Hk|exact Hr]|cbn [length]; lia].
Qed.
Lemma client_init_spec_witness : exists s',
  libsrpc_unix_client_init 8 5 0 0 demo_answers demo_client = Ret 0 s' /\ my_proc (loc (cw s')) = 700 /\ my_uid (loc (cw s')) = 2.
Proof.
  destruct (client_init_spec 8 5 demo_answers demo_client 0 700
    (Proc LIBSRPC_PROC_SIGN PROC_STATUS_RUN 2 500 1 0 0 (MpmcQueue.Queue 0 0 ∅ ∅ 0) [NULL])) as (s' & E & _ & Ep & Eu & _).
  - cbn. lia.
  - split; [cbn; lia|]. split; [vm_compute; reflexivity|]. cbn. lia.
  - cbn. lia.
  - exact demo_seen_get.
  - discriminate.
  - reflexivity.
  - reflexivity.
  - cbn. lia.
  - cbn. lia.
  - cbn. lia.
  - cbn. lia.
  - exists s'. split; [exact E|]. split; [exact Ep|exact Eu].
Defined.
