(* ===== verification/Segment.v ===== *)
(** Creating, opening and destroying the segment ([libsrpc_shmem.c]): the daemon makes
    it and fills it with empty structures, the processes map it. *)
From S2P Require Import Prelude Machine Errno World Shmem Rpc RpcSpec Trash Gc Socket.
From S2P Require ListSpin TlsfTypes TlsfApi TlsfSpec TlsfOwnership RegistrySpec ProcSpec.

(** ** State *)

Definition SHMEM_BASE_VADR := 0x200000000000.
Definition SHMEM_SIZE := 2 * 1024 * 1024.
(** The fields of [libsrpc_shmem_t] that are no structures of their own; the pool
    starts right after them, at [POOL_OFF]. *)
Record shm_header := Header { sign : list Z; basevadr : Z; shmsize : Z; poolsize : Z }.
(** A process: its world (of which [shm_ptr] is [pool->shm]), the header as it lies in
    the segment, the other fields of [libsrpc_shmem_pool_t], the descriptors closed
    and the mappings removed so far, and the daemon's [gc_init] and [gc_stop]. *)
Record seg_state := Seg { sw : world; header : option shm_header; shm_fd : Z; shm_size : Z; fds_closed : list Z; unmapped : list Z;
  gc_init : bool; gc_stop : bool }.
Abbreviation SM := (M seg_state).
Definition set_sw v s := Seg v (header s) (shm_fd s) (shm_size s) (fds_closed s) (unmapped s) (gc_init s) (gc_stop s).
Definition set_header v s := Seg (sw s) v (shm_fd s) (shm_size s) (fds_closed s) (unmapped s) (gc_init s) (gc_stop s).
Definition set_shm_fd v s := Seg (sw s) (header s) v (shm_size s) (fds_closed s) (unmapped s) (gc_init s) (gc_stop s).
Definition set_shm_size v s := Seg (sw s) (header s) (shm_fd s) v (fds_closed s) (unmapped s) (gc_init s) (gc_stop s).
Definition set_fds_closed v s := Seg (sw s) (header s) (shm_fd s) (shm_size s) v (unmapped s) (gc_init s) (gc_stop s).
Definition set_unmapped v s := Seg (sw s) (header s) (shm_fd s) (shm_size s) (fds_closed s) v (gc_init s) (gc_stop s).
Definition set_gc (i st : bool) s := Seg (sw s) (header s) (shm_fd s) (shm_size s) (fds_closed s) (unmapped s) i st.
Definition lift_s {A} (m : WM A) : SM A := fun s =>
  match m (sw s) with
  | Ret a w => Ret a (set_sw w s)
  | Fault => Fault
  | Hang => Hang
  | Crash w => Crash (set_sw w s)
  end.
Definition set_shm_ptr v l := Local (simplerpc_data l) v (my_proc l) (my_uid l) (rpc_enable l) (srpc_disable_rpc_recursion l) (current_req l) (rpc_timeout_oneshot l) (rpc_timeout l) (rpc_timeout_global l) (req_seq_num l) (libsrpc_errno l).
Definition set_shm (v : Z) : SM unit := lift_s (modl (set_shm_ptr v)).
Definition get_shm : SM Z := lift_s (getl shm_ptr).

(** [memset] of the segment: what its structures are when all bytes are zero. *)
Definition cleared (w : world) : world :=
  World (ListSpin.LStore ∅ ∅) ∅ ∅ ∅ (replicate (Z.to_nat sRPC_FNNUM) (RpcFunc 0 NULL (replicate (Z.to_nat LIBSRPC_RFMB_SZ) NULL)))
    (replicate (Z.to_nat sRPC_FNNUM) 0) (pool w) 0 (loc w).

(** ** Creation *)

(** What the system calls answer: [memfd_create], [ftruncate], [mmap] ([None]: it maps
    where it was asked to), each with its [errno], [madvise], and the calls that
    initialise the list and the collector. *)
Record create_answers := CreateAnswers { memfd : Z; memfd_errno : Z; ftruncate_rc : Z; ftruncate_errno : Z; mmap_errno : option Z;
  madvise_rc : Z; list_spin_rc : Z; gc_sem_rc : Z; gc_start_rc : Z }.

Definition create_err (size rc : Z) : SM Z :=
  shm ← get_shm;
  (if shm =? NULL then mret tt else modify (fun s => set_unmapped (shm :: unmapped s) s)) ;;
  set_shm NULL ;;
  fd ← gets shm_fd;
  (if 0 <? fd then modify (fun s => set_fds_closed (fd :: fds_closed s) s) else mret tt) ;;
  modify (set_shm_fd (-1)) ;;
  mret rc.
Definition start_gc (sem_rc start_rc : Z) : SM unit :=
  i ← gets gc_init;
  '(_, i) ← lift_s (libsrpc_shm_gc_init sem_rc start_rc i);
  modify (fun s => set_gc i (gc_stop s) s).
Definition libsrpc_shmem_create (a : create_answers) (name : option (list Z)) (size virtaddr : Z) : SM Z :=
  match name with
  | None => mret (- EINVAL)
  | Some name =>
      set_shm NULL ;;
      modify (set_shm_fd (memfd a)) ;;
      if memfd a <? 0 then create_err size (- memfd_errno a)
      else if ftruncate_rc a <? 0 then create_err size (- ftruncate_errno a)
      else
        modify (set_shm_size size) ;;
        match mmap_errno a with
        | Some e => create_err size (- e)
        | None =>
            set_shm virtaddr ;;
            if negb (madvise_rc a =? 0) then create_err size (madvise_rc a)
            else
              lift_s (modify cleared) ;;
              let psize := u64 (size - POOL_OFF) in
              modify (set_header (Some (Header (strncpy name 31 ++ [0]) virtaddr size psize))) ;;
              tlsf ← lift_s (lift_pool (TlsfApi.tlsf_create (poolptr_of virtaddr) psize));
              if tlsf =? NULL then create_err size (- ENOMEM)
              else
                rc ← lift_s (lift_list (ListSpin.libsrpc_list_head_init (list_spin_rc a) (proc_head_of virtaddr)));
                if rc <? 0 then create_err size rc
                else start_gc (gc_sem_rc a) (gc_start_rc a) ;; mret rc
        end
  end.

(** ** Opening *)

(** The answers of [fstat] (the size) and [mmap], each with its [errno], and of
    [madvise]. *)
Record open_answers := OpenAnswers { fstat : Z + Z; open_mmap_errno : option Z; open_madvise_rc : Z }.
Definition libsrpc_shmem_open (a : open_answers) (fd virtaddr : Z) (name : list Z) : SM Z :=
  match fstat a with
  | inr e => mret (- e)
  | inl size =>
      match open_mmap_errno a with
      | Some e => mret (- e)
      | None =>
          let failed rc : SM Z := modify (fun s => set_unmapped (virtaddr :: unmapped s) s) ;; mret rc in
          h ← gets header;
          match h with
          | None => fault
          | Some h =>
              if negb (strncmp_eq 32 (sign h) name) then failed (- EINVAL)
              else if negb (open_madvise_rc a =? 0) then failed (open_madvise_rc a)
              else
                set_shm virtaddr ;;
                modify (set_shm_fd fd) ;;
                modify (set_shm_size size) ;;
                mret (open_madvise_rc a)
          end
      end
  end.

(** ** Destruction *)

(** [destroy_rc]: what [pthread_spin_destroy] answers, [munmap_rc]: what [munmap]
    answers; the thread of the collector has ended when it is joined. *)
Definition libsrpc_shmem_destroy (destroy_rc munmap_rc : Z) : SM Z :=
  shm ← get_shm;
  if shm =? NULL then mret (- EINVAL)
  else
    s ← get;
    '(_, (i, st)) ← lift_s (libsrpc_shm_gc_destroy (gc_init s) (gc_stop s));
    modify (set_gc i st) ;;
    lift_s (lift_list (ListSpin.libsrpc_list_head_destroy destroy_rc (proc_head_of shm))) ;;
    lift_s (lift_pool (TlsfApi.tlsf_destroy (poolptr_of shm))) ;;
    modify (fun s => set_unmapped (shm :: unmapped s) s) ;;
    fd ← gets shm_fd;
    modify (fun s => set_fds_closed (fd :: fds_closed s) s) ;;
    modify (set_shm_fd (-1)) ;;
    set_shm NULL ;;
    mret munmap_rc.
