(* ===== verification/SegmentSpec.v ===== *)
(** A fresh segment satisfies everything the other theorems assume of a segment, and
    the processes the daemon is meant for can map it. *)
From S2P Require Import Prelude Machine Errno World Shmem Rpc RpcSpec Trash Gc Socket Segment.
From S2P Require ListSpin TlsfTypes TlsfApi TlsfHoare TlsfOwnership TlsfSpec RegistrySpec Proc ProcSpec.

(** ** The pool *)

(** The daemon's pool, with the constants of [libsrpc_local.h]. *)
Lemma create_pool_run s : TlsfTypes.self (TlsfTypes.thr s) <> 0 -> TlsfTypes.life (TlsfTypes.thr s) = None ->
  exists s', TlsfApi.tlsf_create (poolptr_of SHMEM_BASE_VADR) (SHMEM_SIZE - POOL_OFF) s = Ret (poolptr_of SHMEM_BASE_VADR) s' /\
    TlsfOwnership.quiet s' /\ TlsfTypes.life (TlsfTypes.thr s') = None.
Proof.
  destruct s as [g i t m me [e sf lf]]. cbn [TlsfTypes.thr TlsfTypes.self TlsfTypes.life]. intros Hs ->.
  let r := eval vm_compute in (TlsfApi.tlsf_create (poolptr_of SHMEM_BASE_VADR) (SHMEM_SIZE - POOL_OFF)
                                 (TlsfTypes.Tlsf g i t m me (TlsfTypes.Thread e sf None))) in
  match r with Ret _ ?x => exists x end.
  split; [vm_compute; reflexivity|]. split; [|reflexivity]. unfold TlsfOwnership.quiet. split_and!.
  - unfold TlsfHoare.geo_ok. vm_compute. intuition congruence.
  - apply TlsfSpec.mem_ok_check. refine (bool_decide_unpack _ _). vm_compute. exact I.
  - reflexivity.
  - reflexivity.
  - exact Hs.
Qed.

(** ** The structures *)

Lemma cleared_registry w p l : RegistrySpec.registry_ok (set_lists l (set_pool p (cleared w))).
Proof.
  assert (forall k f, funcs (set_lists l (set_pool p (cleared w))) !! k = Some f -> f = RpcFunc 0 NULL (replicate 8 NULL)) as Hf.
  { intros k f E. cbn [funcs set_lists set_pool cleared] in E. by apply lookup_replicate in E as [-> _]. }
  split; [split|].
  - reflexivity.
  - intros k f ->%Hf. reflexivity.
  - intros k f ->%Hf. by left.
  - intros j k f g ->%Hf _ _. by right.
  - intros k n E. unfold RegistrySpec.numf in E. apply fmap_Some in E as (f & Ef & ->). pose proof (Hf _ _ Ef) as ->.
    unfold RegistrySpec.registered, RegistrySpec.cells. rewrite Ef. reflexivity.
Qed.

Lemma gc_init_run sem_rc start_rc i w : RegistrySpec.mapped w -> exists rc j w2,
  libsrpc_shm_gc_init sem_rc start_rc i w = Ret (rc, j) w2 /\ (w2 = w \/ w2 = set_gc_sem 0 w).
Proof.
  intros H. unfold libsrpc_shm_gc_init. rewrite (bind_ret _ _ _ _ _ (RegistrySpec.shmem_get_run w H)).
  rewrite (proj2 (Z.eqb_neq (shm_ptr (loc w)) NULL) (proj2 H)). destruct i; [by eexists _, _, _; split; [|left]|].
  destruct (sem_rc <? 0); [by eexists _, _, _; split; [|left]|]. rewrite (bind_ret _ _ tt _ (set_gc_sem 0 w)) by reflexivity.
  destruct (start_rc <? 0); by eexists _, _, _; split; [|right].
Qed.

(** What the daemon has after a successful creation. *)
Record fresh (fd : Z) (name : list Z) (s : seg_state) : Prop := Fresh {
  fr_quiet : mapped_quiet (sw s);
  fr_shm : shm_ptr (loc (sw s)) = SHMEM_BASE_VADR;
  fr_registry : RegistrySpec.registry_ok (sw s);
  fr_procs : ProcSpec.plist_ok (sw s) (proc_head_of SHMEM_BASE_VADR) [];
  fr_header : header s = Some (Header (strncpy name 31 ++ [0]) SHMEM_BASE_VADR SHMEM_SIZE (SHMEM_SIZE - POOL_OFF));
  fr_fd : shm_fd s = fd }.

Definition create_succeeds (a : create_answers) : Prop :=
  0 < memfd a /\ 0 <= ftruncate_rc a /\ mmap_errno a = None /\ madvise_rc a = 0 /\ list_spin_rc a = 0.

Lemma create_run a name s : create_succeeds a -> simplerpc_data (loc (sw s)) <> NULL ->
  TlsfTypes.self (TlsfTypes.thr (pool (sw s))) <> 0 -> TlsfTypes.life (TlsfTypes.thr (pool (sw s))) = None ->
  exists s', libsrpc_shmem_create a (Some name) SHMEM_SIZE SHMEM_BASE_VADR s = Ret 0 s' /\ fresh (memfd a) name s'.
Proof.
  intros (H1 & H2 & H3 & H4 & H5) Hd Hself Hlife. unfold libsrpc_shmem_create.
  destruct (create_pool_run (pool (sw s)) Hself Hlife) as (p & Ep & Hq & Hl).
  set (s1 := set_shm_fd (memfd a) (set_sw (set_loc (set_shm_ptr NULL (loc (sw s))) (sw s)) s)).
  rewrite (bind_ret _ _ tt _ (set_sw (set_loc (set_shm_ptr NULL (loc (sw s))) (sw s)) s)) by reflexivity.
  rewrite (bind_ret _ _ tt _ s1) by reflexivity. rewrite (proj2 (Z.ltb_ge (memfd a) 0)), (proj2 (Z.ltb_ge (ftruncate_rc a) 0)), H3 by lia.
  rewrite (bind_ret _ _ tt _ (set_shm_size SHMEM_SIZE s1)) by reflexivity.
  set (w0 := set_loc (set_shm_ptr SHMEM_BASE_VADR (loc (sw s1))) (sw s1)).
  rewrite (bind_ret _ _ tt _ (set_sw w0 (set_shm_size SHMEM_SIZE s1))) by reflexivity. rewrite H4. cbn [Z.eqb negb].
  rewrite (bind_ret _ _ tt _ (set_sw (cleared w0) (set_shm_size SHMEM_SIZE s1))) by reflexivity. cbv zeta.
  change (u64 (SHMEM_SIZE - POOL_OFF)) with (SHMEM_SIZE - POOL_OFF).
  set (h := Header (strncpy name 31 ++ [0]) SHMEM_BASE_VADR SHMEM_SIZE (SHMEM_SIZE - POOL_OFF)).
  set (s2 := set_header (Some h) (set_sw (cleared w0) (set_shm_size SHMEM_SIZE s1))).
  rewrite (bind_ret _ _ tt _ s2) by reflexivity.
  assert (lift_s (lift_pool (TlsfApi.tlsf_create (poolptr_of SHMEM_BASE_VADR) (SHMEM_SIZE - POOL_OFF))) s2 =
    Ret (poolptr_of SHMEM_BASE_VADR) (set_sw (set_pool p (cleared w0)) s2)) as Et.
  { unfold lift_s, lift_pool. change (pool (sw s2)) with (pool (sw s)). by rewrite Ep. }
  rewrite (bind_ret _ _ _ _ _ Et). change (poolptr_of SHMEM_BASE_VADR =? NULL) with false. cbv beta iota.
  set (l := ListSpin.LStore ∅ {[ proc_head_of SHMEM_BASE_VADR := ListSpin.LHead NULL 0 ]}).
  set (w1 := set_lists l (set_pool p (cleared w0))).
  rewrite (bind_ret _ _ 0 _ (set_sw w1 s2)) by (rewrite H5; reflexivity). change (0 <? 0) with false. cbv beta iota.
  assert (RegistrySpec.mapped w1) as Hm by (split; [exact Hd|discriminate]).
  destruct (gc_init_run (gc_sem_rc a) (gc_start_rc a) (gc_init s) w1 Hm) as (rc & i & w2 & Eg & Hw).
  assert (start_gc (gc_sem_rc a) (gc_start_rc a) (set_sw w1 s2) = Ret tt (set_gc i (gc_stop s) (set_sw w2 s2))) as Es.
  { unfold start_gc. rewrite (bind_ret _ _ (gc_init s) _ (set_sw w1 s2)) by reflexivity.
    rewrite (bind_ret _ _ (rc, i) _ (set_sw w2 s2)); [reflexivity|]. unfold lift_s. cbn [sw set_sw]. by rewrite Eg. }
  rewrite (bind_ret _ _ _ _ _ Es). eexists. split; [reflexivity|].
  assert (lists w2 = l /\ funcs w2 = funcs w1 /\ ebs w2 = ebs w1 /\ loc w2 = loc w0 /\ pool w2 = p) as (E1 & E2 & E3 & E4 & E5).
  { destruct Hw as [-> | ->]; done. }
  split; cbn [sw set_gc set_sw header shm_fd]; try done.
  - unfold mapped_quiet. rewrite E4, E5. split; [exact Hd|]. split; [discriminate|]. split; [discriminate|]. done.
  - by rewrite E4.
  - apply (registry_same w1); [done|done|]. apply cleared_registry.
  - split; [split; [|intros q Hin; by apply not_elem_of_nil in Hin]|apply NoDup_nil_2|apply NoDup_nil_2]. rewrite E1. split.
    + exists 0. reflexivity.
    + done.
    + apply NoDup_nil_2.
    + intros n x E. cbn in E. by apply lookup_empty_Some in E.
Qed.

(** (C33) When its system calls succeed, the daemon's creation of the segment, with the
    constants of the code, leaves it in a state in which every invariant of the other parts holds: the pool is sound and
    idle, the registry sound and empty, the list of processes sound and empty; and a
    process that knows the same name of less than 32 characters maps it, at the same
    address. *)
Theorem segment_creation a name s : create_succeeds a -> simplerpc_data (loc (sw s)) <> NULL ->
  TlsfTypes.self (TlsfTypes.thr (pool (sw s))) <> 0 -> TlsfTypes.life (TlsfTypes.thr (pool (sw s))) = None ->
  exists s', libsrpc_shmem_create a (Some name) SHMEM_SIZE SHMEM_BASE_VADR s = Ret 0 s' /\ fresh (memfd a) name s' /\
    forall o fd t, header t = header s' -> fstat o = inl SHMEM_SIZE -> open_mmap_errno o = None -> open_madvise_rc o = 0 ->
      (0 : Z) ∉ name -> (length name < 32)%nat ->
      exists t', libsrpc_shmem_open o fd SHMEM_BASE_VADR name t = Ret 0 t' /\ shm_ptr (loc (sw t')) = SHMEM_BASE_VADR /\ shm_fd t' = fd.
Proof.
  intros Ha Hd Hs Hl. destruct (create_run a name s Ha Hd Hs Hl) as (s' & E & Hf). exists s'. split; [done|]. split; [done|].
  intros o fd t Et H1 H2 H3 Hn Hlen. unfold libsrpc_shmem_open. rewrite H1, H2, H3.
  rewrite (bind_ret _ _ (Some (Header (strncpy name 31 ++ [0]) SHMEM_BASE_VADR SHMEM_SIZE (SHMEM_SIZE - POOL_OFF))) _ t).
  2: { unfold gets. rewrite Et, (fr_header _ _ _ Hf). reflexivity. }
  cbn [sign]. pose proof (strncmp_self name Hn 32 Hlen) as Ec. change (32 - 1)%nat with 31%nat in Ec. rewrite Ec. eexists. split; [reflexivity|]. done.
Qed.

Lemma create_err_run size rc s : exists s', create_err size rc s = Ret rc s' /\ shm_ptr (loc (sw s')) = NULL /\ shm_fd s' = -1 /\
  header s' = header s /\ fds_closed s' = (if 0 <? shm_fd s then shm_fd s :: fds_closed s else fds_closed s) /\
  unmapped s' = (if shm_ptr (loc (sw s)) =? NULL then unmapped s else shm_ptr (loc (sw s)) :: unmapped s).
Proof.
  unfold create_err, get_shm. rewrite (bind_ret _ _ (shm_ptr (loc (sw s))) _ s) by (by destruct s as [[] ? ? ? ? ? ? ?]).
  set (s1 := if shm_ptr (loc (sw s)) =? NULL then s else set_unmapped (shm_ptr (loc (sw s)) :: unmapped s) s).
  rewrite (bind_ret _ _ tt _ s1) by (unfold s1; by destruct (_ =? NULL)).
  set (s2 := set_sw (set_loc (set_shm_ptr NULL (loc (sw s1))) (sw s1)) s1). rewrite (bind_ret _ _ tt _ s2) by reflexivity.
  rewrite (bind_ret _ _ (shm_fd s2) _ s2) by reflexivity.
  set (s3 := if 0 <? shm_fd s2 then set_fds_closed (shm_fd s2 :: fds_closed s2) s2 else s2).
  rewrite (bind_ret _ _ tt _ s3) by (unfold s3; by destruct (0 <? _)).
  exists (set_shm_fd (-1) s3). split; [reflexivity|]. unfold s3, s2, s1. destruct (_ =? NULL), (0 <? _) eqn:E; cbn in E |- *; by rewrite ?E.
Qed.

(** A failure undoes what was done: nothing stays mapped, the descriptor is closed. *)
Lemma segment_creation_fails a name s size virtaddr : virtaddr <> NULL ->
  0 < memfd a /\ ftruncate_rc a < 0 /\ 0 < ftruncate_errno a \/
  0 < memfd a /\ 0 <= ftruncate_rc a /\ (exists e, mmap_errno a = Some e /\ 0 < e) \/
  0 < memfd a /\ 0 <= ftruncate_rc a /\ mmap_errno a = None /\ madvise_rc a < 0 ->
  exists rc s', libsrpc_shmem_create a (Some name) size virtaddr s = Ret rc s' /\ rc < 0 /\ shm_ptr (loc (sw s')) = NULL /\
    shm_fd s' = -1 /\ header s' = header s /\ fds_closed s' = memfd a :: fds_closed s /\
    (mmap_errno a = None -> 0 <= ftruncate_rc a -> unmapped s' = virtaddr :: unmapped s).
Proof.
  intros Hv H. set (s0 := set_sw (set_loc (set_shm_ptr NULL (loc (sw s))) (sw s)) s).
  assert (0 < memfd a) as H0 by (destruct H as [(?&_)|[(?&_)|(?&_)]]; done). unfold libsrpc_shmem_create.
  rewrite (bind_ret _ _ tt _ s0) by reflexivity. rewrite (bind_ret _ _ tt _ (set_shm_fd (memfd a) s0)) by reflexivity.
  rewrite (proj2 (Z.ltb_ge (memfd a) 0)) by lia. apply Z.ltb_lt in H0 as Hb.
  destruct H as [(_ & H2 & H3)|[(_ & H2 & e & H3 & H4)|(_ & H2 & H3 & H4)]].
  - rewrite (proj2 (Z.ltb_lt _ _) H2). destruct (create_err_run size (- ftruncate_errno a) (set_shm_fd (memfd a) s0))
      as (s' & E & E1 & E2 & E3 & E4 & _). cbn in E4. rewrite Hb in E4. exists (- ftruncate_errno a), s'. split_and!; try done; lia.
  - rewrite (proj2 (Z.ltb_ge _ _) H2), H3. rewrite (bind_ret _ _ tt _ (set_shm_size size (set_shm_fd (memfd a) s0))) by reflexivity.
    destruct (create_err_run size (- e) (set_shm_size size (set_shm_fd (memfd a) s0))) as (s' & E & E1 & E2 & E3 & E4 & _).
    cbn in E4. rewrite Hb in E4. exists (- e), s'. split_and!; try done; lia.
  - rewrite (proj2 (Z.ltb_ge _ _) H2), H3. set (s1 := set_shm_size size (set_shm_fd (memfd a) s0)).
    rewrite (bind_ret _ _ tt _ s1) by reflexivity. set (s2 := set_sw (set_loc (set_shm_ptr virtaddr (loc (sw s1))) (sw s1)) s1).
    rewrite (bind_ret _ _ tt _ s2) by reflexivity. rewrite (proj2 (Z.eqb_neq (madvise_rc a) 0)) by lia. cbn [negb].
    destruct (create_err_run size (madvise_rc a) s2) as (s' & E & E1 & E2 & E3 & E4 & E5). cbn in E4, E5.
    rewrite Hb in E4. rewrite (proj2 (Z.eqb_neq virtaddr 0) Hv) in E5. exists (madvise_rc a), s'. split_and!; done.
Qed.

Definition demo_seg : seg_state := Seg Shmem.demo_world None 0 0 [] [] false false.
Lemma segment_creation_witness : exists s',
  libsrpc_shmem_create (CreateAnswers 9 0 0 0 None 0 0 0 0) (Some demo_name) SHMEM_SIZE SHMEM_BASE_VADR demo_seg = Ret 0 s' /\ fresh 9 demo_name s'.
Proof.
  destruct (segment_creation (CreateAnswers 9 0 0 0 None 0 0 0 0) demo_name demo_seg) as (s' & E & H & _).
  - split; [reflexivity|]. split; [discriminate|]. split; [reflexivity|]. split; reflexivity.
  - discriminate.
  - vm_compute. discriminate.
  - vm_compute. reflexivity.
  - exists s'. split; [exact E|exact H].
Defined.
