(* ===== verification/Daemon.v ===== *)
(** How the daemon comes to be and ends ([libsrpc_daemon.c], [libsrpc_loader.c]) and the
    constructor and destructor of the library ([libsrpc.c]). *)
From S2P Require Import Prelude Machine Errno World Shmem Rpc RpcSpec Registry Trash Proc Socket Segment Server.
From S2P Require ListSpin FixBlock Client SegmentSpec ServerSpec RegistrySpec.

(** ** [spawn_daemon] *)

(** How a process leaves the function: it returns, it ends, or it becomes another
    program with one argument and one variable of its environment. *)
Inductive ending := Returns | Exits (code : Z) | Becomes (fd : Z) (argv0 env0 : list Z).
Inductive who := Caller | Child | Grandchild.
#[export] Instance ending_eq_dec : EqDecision ending. Proof. solve_decision. Defined.
#[export] Instance who_eq_dec : EqDecision who. Proof. solve_decision. Defined.

(** The answers of the calls, in their order; [fork_rc] is what the parent sees,
    [dladdr] the path of the library, [written] what [write] answers, [exec_rc] whether
    [fexecve] fails. *)
Record spawn_answers := SpawnAnswers { fork_rc : Z; setsid_rc : Z; fork2_rc : Z; dladdr : option (list Z); memfd_rc : Z; written : Z;
  exec_fails : bool }.
(** "LIBSIMPLERPC_SO=" *)
Definition so_prefix : list Z := [76; 73; 66; 83; 73; 77; 80; 76; 69; 82; 80; 67; 95; 83; 79; 61].
Definition PATH_MAX := 4096.
(** [snprintf(pathso, sizeof(pathso), ...)] without the final NUL *)
Definition pathso (dli_fname : list Z) : list Z := take (Z.to_nat (PATH_MAX + 32 - 1)) (so_prefix ++ dli_fname).

Section spawn.
Context (loader_len : Z) (a : spawn_answers) (daemon_name : list Z).
Definition second_child : ending :=
  match dladdr a with
  | None => Exits 1
  | Some dli_fname =>
      if memfd_rc a <? 0 then Exits 1
      else if negb (written a =? loader_len) then Exits 1
      else if exec_fails a then Exits 1
      else Becomes (memfd_rc a) daemon_name (pathso dli_fname)
  end.
Definition first_child : list (who * ending) :=
  if setsid_rc a <? 0 then [(Child, Exits 1)]
  else if fork2_rc a <? 0 then [(Child, Exits 1)]
  else [(Child, Exits 0); (Grandchild, second_child)].
Definition spawn_daemon : list (who * ending) :=
  if fork_rc a <? 0 then [(Caller, Returns)] else (Caller, Returns) :: first_child.

(** The caller always goes on, and alone; a daemon starts when every call succeeds,
    under the name it was given, with the path of the library in its environment. *)
Lemma spawn_returns_once : filter (fun p => p.2 = Returns) spawn_daemon = [(Caller, Returns)].
Proof.
  unfold spawn_daemon, first_child. destruct (fork_rc a <? 0), (setsid_rc a <? 0), (fork2_rc a <? 0); try reflexivity.
  unfold second_child. destruct (dladdr a); [|reflexivity]. destruct (memfd_rc a <? 0), (written a =? loader_len), (exec_fails a); reflexivity.
Qed.
Lemma spawn_starts fd argv0 env0 : (exists w, (w, Becomes fd argv0 env0) ∈ spawn_daemon) <->
  0 <= fork_rc a /\ 0 <= setsid_rc a /\ 0 <= fork2_rc a /\ (exists p, dladdr a = Some p /\ env0 = pathso p) /\ memfd_rc a = fd /\ 0 <= fd /\
  written a = loader_len /\ exec_fails a = false /\ argv0 = daemon_name.
Proof.
  unfold spawn_daemon, first_child, second_child. split.
  - intros [w H]. destruct (Z.ltb_spec (fork_rc a) 0); [apply list_elem_of_singleton in H; congruence|].
    destruct (Z.ltb_spec (setsid_rc a) 0); [apply elem_of_cons in H as [H|H]; [congruence|]; apply list_elem_of_singleton in H; congruence|].
    destruct (Z.ltb_spec (fork2_rc a) 0); [apply elem_of_cons in H as [H|H]; [congruence|]; apply list_elem_of_singleton in H; congruence|].
    rewrite !elem_of_cons in H. destruct H as [H|[H|[H|H]]]; [congruence|congruence| |by apply not_elem_of_nil in H].
    destruct (dladdr a) as [p|]; [|congruence]. destruct (Z.ltb_spec (memfd_rc a) 0); [congruence|].
    destruct (Z.eqb_spec (written a) loader_len); [|cbn in H; congruence]. destruct (exec_fails a) eqn:E; [cbn in H; congruence|].
    cbn in H. injection H as _ -> -> ->. split_and!; try done. by exists p.
  - intros (H1 & H2 & H3 & (p & H4 & ->) & H5 & H6 & H7 & H8 & ->). exists Grandchild.
    rewrite !(proj2 (Z.ltb_ge _ _)) by lia. rewrite H4, H7, Z.eqb_refl, H8, H5. rewrite !elem_of_cons. tauto.
Qed.
End spawn.

(** ** [main] of the loader *)

(** [getenv], [dlopen] and [dlsym] answer or fail; [daemon_main] is the result of
    [simplerpc_daemon_main]. *)
Definition loader_main (getenv_ok dlopen_ok dlsym_ok : bool) (daemon_main : Z) : Z :=
  if negb getenv_ok then 1 else if negb dlopen_ok then 1 else if negb dlsym_ok then 1 else daemon_main.

(** ** The daemon's life *)

(** The daemon with its segment; the world is the server's, the one of [seg] follows. *)
Record dstate := DState { dmn : daemon; seg : seg_state; is_daemon : bool }.
Abbreviation DSM := (M dstate).
Definition lift_d {A} (m : DM A) : DSM A := fun s =>
  let up d := DState d (seg s) (is_daemon s) in
  match m (dmn s) with Ret a d => Ret a (up d) | Fault => Fault | Hang => Hang | Crash d => Crash (up d) end.
Definition lift_seg {A} (m : SM A) : DSM A := fun s =>
  let up g := DState (ServerSpec.with_world (sw g) (dmn s)) g (is_daemon s) in
  match m (set_sw (gw (dg (dmn s))) (seg s)) with Ret a g => Ret a (up g) | Fault => Fault | Hang => Hang | Crash g => Crash (up g) end.

(** What the calls answer: those of [libsrpc_unix_server_init], of the creation of the
    segment, the rounds of events, and those of its removal. *)
Record main_answers := MainAnswers { m_epfd : Z; m_errno : Z; m_socket : Z; m_add : Z; m_create : create_answers;
  m_rounds : list (list event + Z); m_destroy : Z; m_munmap : Z }.

Section main.
Context (cap : Z) (fuel rounds : nat) (nproc : Z) (libsrpc_daemon_name : list Z).
Context (chain_malloc : FixBlock.chain -> Z -> Z).
Context (malloc : trash_store -> Z -> Z) (realloc : trash_store -> Z -> Z -> Z) (garbage : Z -> nat -> list Z).

(** The label [end]. *)
Definition daemon_end (a : main_answers) (rc : Z) : DSM Z :=
  fd ← gets (fun s => shm_fd (seg s));
  (if 0 <? fd then lift_seg (libsrpc_shmem_destroy (m_destroy a) (m_munmap a)) ;; mret tt else mret tt) ;;
  mret rc.
(** [simplerpc_daemon_main] with the name [av[0]]; the pointer [pshm_fd] is followed
    here, because the descriptor does not change while the daemon serves. *)
Definition simplerpc_daemon_main (a : main_answers) (daemon_name : list Z) : DSM Z :=
  modify (fun s => DState (dmn s) (seg s) true) ;;
  lift_d (lift_g (lift_world (modl (Client.set_my_uid DAEMON_PROC_UID)))) ;;
  rc ← lift_d (libsrpc_unix_server_init chain_malloc (m_epfd a) (m_errno a) (m_socket a) (m_add a));
  if rc <? 0 then daemon_end a rc
  else
    rc ← lift_seg (libsrpc_shmem_create (m_create a) (Some daemon_name) SHMEM_SIZE SHMEM_BASE_VADR);
    if rc <? 0 then daemon_end a rc
    else
      fd ← gets (fun s => shm_fd (seg s));
      lift_d (modify (fun d => set_srv (Server (srv_socket (srv d)) (srv_epfd (srv d)) (pool_epcln (srv d)) (Some fd) (clients (srv d)) (srv_init (srv d))) d)) ;;
      rc ← lift_d (serve cap fuel rounds nproc libsrpc_daemon_name chain_malloc malloc realloc garbage (m_rounds a));
      lift_d libsrpc_unix_server_exit ;;
      daemon_end a rc.

(** [libsrpc_destructor] in the daemon; a client's end of it is
    [libsrpc_unix_client_exit]. *)
Definition daemon_destructor : DSM unit := lift_d libsrpc_unix_server_exit ;; mret tt.
(** The server starts when every call succeeds. *)
Lemma server_init_run d epfd errno sck add_rc c : srv_init (srv d) = false -> FixBlock.new_pool chain_malloc [] 128 sizeof_epoll = c -> c <> [] ->
  0 < epfd -> 0 < sck -> 0 <= add_rc ->
  libsrpc_unix_server_init chain_malloc epfd errno sck add_rc d = Ret add_rc (set_srv (Server sck epfd c (pshm_fd (srv d)) (clients (srv d)) true) d).
Proof.
  intros Hi Ec Hc H1 H2 H3. unfold libsrpc_unix_server_init. rewrite (bind_ret _ _ d _ d) by reflexivity. rewrite Hi. cbv zeta. rewrite Ec.
  destruct c as [|b c]; [done|]. rewrite (proj2 (Z.ltb_ge epfd 0)), (proj2 (Z.leb_gt sck 0)), (proj2 (Z.leb_gt epfd 0)), (proj2 (Z.ltb_ge add_rc 0)) by lia.
  reflexivity.
Qed.

(** Without a segment the daemon's [main] ends with the error and leaves the server as
    it is; the destructor of the library closes it. *)
Lemma daemon_without_segment a name s : srv_init (srv (dmn s)) = false -> FixBlock.new_pool chain_malloc [] 128 sizeof_epoll <> [] ->
  0 < m_epfd a -> 0 < m_socket a -> 0 <= m_add a -> 0 < memfd (m_create a) -> ftruncate_rc (m_create a) < 0 -> 0 < ftruncate_errno (m_create a) ->
  exists rc s', simplerpc_daemon_main a name s = Ret rc s' /\ rc < 0 /\ shm_fd (seg s') = -1 /\
    fds_closed (seg s') = memfd (m_create a) :: fds_closed (seg s) /\ srv_init (srv (dmn s')) = true /\ closed (dmn s') = closed (dmn s).
Proof.
  intros Hi Hc H1 H2 H3 H4 H5 H6. unfold simplerpc_daemon_main.
  set (s1 := DState (dmn s) (seg s) true). rewrite (bind_ret _ _ tt _ s1) by reflexivity.
  set (w1 := set_loc (Client.set_my_uid DAEMON_PROC_UID (loc (gw (dg (dmn s))))) (gw (dg (dmn s)))).
  set (s2 := DState (ServerSpec.with_world w1 (dmn s)) (seg s) true). rewrite (bind_ret _ _ tt _ s2) by reflexivity.
  set (c := FixBlock.new_pool chain_malloc [] 128 sizeof_epoll) in *.
  pose proof (server_init_run (dmn s2) (m_epfd a) (m_errno a) (m_socket a) (m_add a) c Hi eq_refl Hc H1 H2 H3) as Es.
  set (d3 := set_srv _ (dmn s2)) in Es. set (s3 := DState d3 (seg s) true).
  rewrite (bind_ret _ _ (m_add a) _ s3) by (unfold lift_d; by rewrite Es). rewrite (proj2 (Z.ltb_ge _ _)) by lia.
  destruct (SegmentSpec.segment_creation_fails (m_create a) name (set_sw (gw (dg d3)) (seg s)) SHMEM_SIZE SHMEM_BASE_VADR) as (rc & g & E & Hrc & _ & Hfd & _ & Hcl & _); [done|by left|].
  set (s4 := DState (ServerSpec.with_world (sw g) d3) g true). rewrite (bind_ret _ _ rc _ s4) by (unfold lift_seg; cbn [dmn seg s3]; by rewrite E).
  rewrite (proj2 (Z.ltb_lt _ _) Hrc). exists rc, s4. unfold daemon_end. rewrite (bind_ret _ _ (-1) _ s4) by (unfold gets; cbn [s4 seg]; by rewrite Hfd).
  split; [reflexivity|]. by split_and!.
Qed.
End main.

(** ** The constructor *)

(** What it leaves: the process has ended, or the library is loaded, with the real
    functions of the C library, [en_allocator], and what [spawn_daemon] made. *)
Record loaded := Loaded { real_functions : list Z; en_allocator : bool; spawned : list (who * ending) }.
(** [dlsyms]: the answers for malloc, calloc, realloc and free. *)
Definition libsrpc_init (cap : Z) (fuel : nat) (loader_len : Z) (dlsyms : list Z) (program_invocation_name libsrpc_daemon_name : list Z)
    (sp : spawn_answers) (sem_rc start_rc : Z) (an : Client.answers) : M Client.cstate (Z + loaded) :=
  if existsb (fun p => p =? NULL) dlsyms then mret (inl 1)
  else if bool_decide (program_invocation_name = libsrpc_daemon_name) then mret (inr (Loaded dlsyms false []))
  else
    let sp := spawn_daemon loader_len sp libsrpc_daemon_name in
    Client.libsrpc_unix_client_init cap fuel sem_rc start_rc an ;;
    mret (inr (Loaded dlsyms true sp)).
(** [libsrpc_destructor] *)
Definition libsrpc_destructor (d : dstate + Client.cstate) (write_rc errno : Z) : option (dstate + Client.cstate) :=
  match d with
  | inl s => if is_daemon s then match daemon_destructor s with Ret _ s => Some (inl s) | _ => None end else Some d
  | inr c => match Client.libsrpc_unix_client_exit write_rc errno c with Ret _ c => Some (inr c) | _ => None end
  end.

(** A daemon to which nobody comes in the first second ends: it closes the server,
    removes the segment, and its destructor finds nothing to do. *)
Definition demo_main : main_answers := MainAnswers 3 0 4 0 (CreateAnswers 9 0 0 0 None 0 0 0 0) [inl []] 0 0.
Definition demo_start : dstate :=
  DState (Daemon (GWorld Shmem.demo_world ∅) (Server 0 0 [] None 0 false) ∅ ∅ [] 2) SegmentSpec.demo_seg false.
Definition run_daemon : M dstate Z := simplerpc_daemon_main 8 5 5 2 Socket.demo_name FixBlock.demo_malloc (fun _ _ => NULL) (fun _ _ _ => NULL) (fun _ _ => []) demo_main Socket.demo_name.
Example lonely_daemon : exists s, run_daemon demo_start = Ret 0 s /\ closed (dmn s) = [4; 3] /\ fds_closed (seg s) = [9] /\ shm_fd (seg s) = -1 /\
  unmapped (seg s) = [SHMEM_BASE_VADR] /\ daemon_destructor s = Ret tt s.
Proof. eexists. split; [vm_compute; reflexivity|]. vm_compute. split_and!; reflexivity. Qed.
