(* ===== verification/Wrapper.v ===== *)
(** Times of the semaphore waits and the thread starter ([libsrpc_wrapper.h],
    [libsrpc_pthread.c]). *)
From S2P Require Import Prelude Machine Errno.

(** ** Deadlines *)

(** [struct timespec] with 64-bit fields; [now] is what [clock_gettime] stores. *)
Record timespec := Timespec { tv_sec : Z; tv_nsec : Z }.
Definition add_us (ts : timespec) (us : Z) : timespec :=
  let sec := i64 (tv_sec ts + us / 1000000) in
  let nsec := i64 (tv_nsec ts + us mod 1000000 * 1000) in
  if 1000000000 <=? nsec then Timespec (i64 (sec + 1)) (i64 (nsec - 1000000000)) else Timespec sec nsec.
(** The result and what is stored through [ts], NULL being [false]. *)
Definition libsrpc_sem_time_calc (ts : bool) (now : timespec) (timeout_us : Z) : Z * option timespec :=
  if negb ts || (timeout_us =? 0) then (- EINVAL, None) else (0, Some (add_us now timeout_us)).
(** The deadline [libsrpc_sem_wait_timeout_us] gives to [sem_timedwait], the span
    [libsrpc_usleep] gives to [nanosleep]. *)
Definition libsrpc_sem_wait_timeout_us (now : timespec) (timeout : Z) : timespec := add_us now timeout.
Definition libsrpc_usleep (us : Z) : timespec := add_us (Timespec 0 0) us.

Definition normal (ts : timespec) : Prop := 0 <= tv_nsec ts < 1000000000.
Definition nanos (ts : timespec) : Z := tv_sec ts * 1000000000 + tv_nsec ts.

Lemma add_us_run ts us : normal ts -> 0 <= us < 2 ^ 64 -> 0 <= tv_sec ts < 2 ^ 62 ->
  normal (add_us ts us) /\ nanos (add_us ts us) = nanos ts + us * 1000.
Proof.
  intros Hn Hu Hs. unfold normal, nanos, add_us in *.
  pose proof (Z.mod_pos_bound us 1000000 ltac:(lia)) as Hm. pose proof (Z.div_mod us 1000000 ltac:(lia)) as Hd.
  assert (0 <= us / 1000000 <= 2 ^ 64 / 1000000) as Hq by (split; [apply Z.div_pos; lia|apply Z.div_le_mono; lia]).
  change (2 ^ 64 / 1000000) with 18446744073709 in Hq.
  rewrite (i64_small (tv_nsec ts + _)), (i64_small (tv_sec ts + _)) by lia.
  destruct (Z.leb_spec 1000000000 (tv_nsec ts + us mod 1000000 * 1000)); cbn [tv_sec tv_nsec]; [rewrite !i64_small by lia|]; lia.
Qed.
(** The deadline is a normalised time exactly [timeout_us] microseconds from now. *)
Lemma time_calc_exact now us : normal now -> 0 < us < 2 ^ 64 -> 0 <= tv_sec now < 2 ^ 62 ->
  exists ts, libsrpc_sem_time_calc true now us = (0, Some ts) /\ normal ts /\ nanos ts = nanos now + us * 1000.
Proof.
  intros Hn Hu Hs. unfold libsrpc_sem_time_calc. rewrite (proj2 (Z.eqb_neq us 0)) by lia. cbn [negb orb].
  destruct (add_us_run now us Hn ltac:(lia) Hs) as [H1 H2]. by eexists.
Qed.

(** ** Starting threads *)

Definition THREAD_FLAG_JOINABLE := 1.
Definition THREAD_FLAG_DETACHED := 2.
Definition THREAD_FLAG_EXPLICIT_SCHED := 4.
Definition THREAD_FLAG_NICE := 8.
Definition PTHREAD_STACK_MIN := 16384.
(** [thread_flag_t]: [thread_out], [stack_addr] and [cpuset] by whether they are set,
    [name] as a C string. *)
Record thread_flags := ThreadFlags { flags : Z; thread_out : bool; sched_policy : Z; sched_priority : Z; nice_value : Z;
  stack_addr : bool; stack_size : Z; guard_size : Z; cpuset : bool; cpuset_size : Z; name : option (list Z) }.
Definition thread_flag_default : thread_flags := ThreadFlags 0 false 0 0 0 false 0 0 false 0 None.
Definition has (f : thread_flags) (bit : Z) : bool := negb (Z.land (flags f) bit =? 0).
Definition set_flag (bit : Z) (f : thread_flags) : thread_flags :=
  ThreadFlags (Z.lor (flags f) bit) (thread_out f) (sched_policy f) (sched_priority f) (nice_value f) (stack_addr f) (stack_size f)
    (guard_size f) (cpuset f) (cpuset_size f) (name f).

(** A thread as it was created: detached or not, what [start_thunk] does before the
    user's function: the name of at most 15 characters, the nice value. *)
Record started := Started { detached : bool; comm : option (list Z); niced : option Z }.
Definition start_thunk (f : thread_flags) (det : bool) : started :=
  Started det (take 15 <$> name f) (if has f THREAD_FLAG_NICE then Some (nice_value f) else None).
(** Attribute objects alive, blocks of memory owned by the caller, threads started. *)
Record pstate := PState { attrs : Z; blocks : Z; threads : list started; out_set : bool }.
Abbreviation PM := (M pstate).

(** What the pthread calls and the allocator answer. *)
Record pthread_answers := PthreadAnswers { attr_init : Z; setdetach : Z; prio_min : Z; prio_max : Z; setinherit : Z; setpolicy : Z;
  setparam : Z; setstack : Z; setguard : Z; setaffinity : Z; strdup_ok : bool; malloc_ok : bool; create : Z }.

Definition add_attr (d : Z) : PM unit := modify (fun s => PState (attrs s + d) (blocks s) (threads s) (out_set s)).
Definition add_block (d : Z) : PM unit := modify (fun s => PState (attrs s) (blocks s + d) (threads s) (out_set s)).
(** The label [out]. *)
Definition out (rc : Z) : PM Z := add_attr (-1) ;; mret rc.
(** A call whose non-zero answer leads to [out]. *)
Definition try_call (rc : Z) (k : PM Z) : PM Z := if negb (rc =? 0) then out rc else k.

(** The steps of [pthread_start], from the last to the first: the context and the
    thread, the processors, the guard, the stack, the scheduler. *)
Section start.
Context (a : pthread_answers) (f : thread_flags) (det : bool).
Definition start_create : PM Z :=
  if (match name f with Some _ => negb (strdup_ok a) | None => false end) then out ENOMEM
  else
    let named := match name f with Some _ => 1 | None => 0 end in
    add_block named ;;
    if negb (malloc_ok a) then add_block (- named) ;; out ENOMEM
    else
      add_block 1 ;;
      if negb (create a =? 0) then add_block (- named) ;; add_block (-1) ;; out (create a)
      else
        (* the thread owns the two blocks and frees them *)
        modify (fun s => PState (attrs s) (blocks s - named - 1) (threads s ++ [start_thunk f det]) (thread_out f || out_set s)) ;;
        out 0.
Definition start_cpu : PM Z := if cpuset f then try_call (setaffinity a) start_create else start_create.
Definition start_guard : PM Z := if negb (guard_size f =? 0) then try_call (setguard a) start_cpu else start_cpu.
Definition start_stack : PM Z :=
  if stack_addr f || negb (stack_size f =? 0) then
    if stack_size f <? PTHREAD_STACK_MIN then out EINVAL else try_call (setstack a) start_guard
  else start_guard.
Definition start_sched : PM Z :=
  if has f THREAD_FLAG_EXPLICIT_SCHED then
    if (prio_min a <? 0) || (prio_max a <? 0) || (sched_priority f <? prio_min a) || (prio_max a <? sched_priority f) then out EINVAL
    else try_call (setinherit a) (try_call (setpolicy a) (try_call (setparam a) start_stack))
  else start_stack.
End start.

Definition pthread_start (func : bool) (a : pthread_answers) (f : thread_flags) : PM Z :=
  if negb func then mret (- EINVAL)
  else if has f THREAD_FLAG_NICE && ((nice_value f <? -20) || (19 <? nice_value f)) then mret (- EINVAL)
  else
    let wants_join := has f THREAD_FLAG_JOINABLE in
    let wants_detach := has f THREAD_FLAG_DETACHED in
    if wants_join && wants_detach then mret (- EINVAL)
    else if wants_join && negb (thread_out f) then mret (- EINVAL)
    else
      let det := if wants_detach then true else if wants_join then false else negb (thread_out f) in
      if negb (attr_init a =? 0) then mret (- attr_init a)
      else
        add_attr 1 ;;
        try_call (setdetach a) (start_sched a f det).

(** [pthread_start_all_cpu]: the answers of [sched_getaffinity] (the processors) and
    of each start; the threads are detached and bound to one processor each. *)
Fixpoint start_each (cpus : list (Z * pthread_answers)) (func : bool) (f : thread_flags) : PM Z :=
  match cpus with
  | [] => mret 0
  | (cpu, a) :: cpus =>
      rc ← pthread_start func a f;
      if negb (rc =? 0) then mret rc else start_each cpus func f
  end.
Definition cpu_flags : thread_flags := ThreadFlags THREAD_FLAG_DETACHED false 0 0 0 false 0 0 true 128 None.
Definition pthread_start_all_cpu (func : bool) (getaffinity_rc : Z) (cpus : list (Z * pthread_answers)) : PM Z :=
  if negb (getaffinity_rc =? 0) then mret getaffinity_rc
  else
    match cpus with
    | [] => mret getaffinity_rc
    | _ => start_each cpus func cpu_flags
    end.

(** ** The starter releases what it took *)

(** Arguments the starter accepts. *)
Definition args_ok (func : bool) (f : thread_flags) : bool :=
  func && negb (has f THREAD_FLAG_NICE && ((nice_value f <? -20) || (19 <? nice_value f))) &&
  negb (has f THREAD_FLAG_JOINABLE && (has f THREAD_FLAG_DETACHED || negb (thread_out f))).
Definition det_of (f : thread_flags) : bool :=
  if has f THREAD_FLAG_DETACHED then true else if has f THREAD_FLAG_JOINABLE then false else negb (thread_out f).
(** The outcomes of a start from [s]: a thread and 0, or no thread and an error; the
    attributes are destroyed and the blocks freed or handed over either way. *)
Definition start_outcome (f : thread_flags) (s : pstate) (rc : Z) (s' : pstate) : Prop :=
  attrs s' = attrs s /\ blocks s' = blocks s /\
  ((rc = 0 /\ threads s' = threads s ++ [start_thunk f (det_of f)]) \/ (rc <> 0 /\ threads s' = threads s)).
(** A part of the starter, run while the attributes exist, has such an outcome. *)
Definition clean (f : thread_flags) (m : PM Z) : Prop := forall s0 s, attrs s = attrs s0 + 1 -> blocks s = blocks s0 -> threads s = threads s0 ->
  exists rc s', m s = Ret rc s' /\ start_outcome f s0 rc s'.

Lemma clean_out f rc : rc <> 0 -> clean f (out rc).
Proof.
  intros Hr s0 s Ha Hb Ht. eexists _, _. split; [reflexivity|]. unfold start_outcome. cbn. split; [lia|]. split; [done|]. by right.
Qed.
Lemma clean_try f rc m : clean f m -> clean f (try_call rc m).
Proof. intros Hm. unfold try_call. destruct (Z.eqb_spec rc 0); [exact Hm|by apply clean_out]. Qed.
Lemma clean_if f (b : bool) m1 m2 : clean f m1 -> clean f m2 -> clean f (if b then m1 else m2).
Proof. by destruct b. Qed.
Lemma clean_create a f : clean f (start_create a f (det_of f)).
Proof.
  unfold start_create. apply clean_if; [by apply clean_out|]. set (named := match name f with Some _ => 1 | None => 0 end).
  intros s0 s Ha Hb Ht. unfold mbind, M_bind, add_block, modify, out, add_attr, mbind, M_bind, modify.
  destruct (malloc_ok a); cbn [negb]; [destruct (Z.eqb_spec (create a) 0) as [Ec|Ec]; cbn [negb]|]; eexists _, _; (split; [reflexivity|]);
    unfold start_outcome; cbn [attrs blocks threads]; (split; [lia|]); (split; [lia|]).
  - left. by rewrite Ht.
  - by right.
  - by right.
Qed.
Lemma clean_sched a f : clean f (start_sched a f (det_of f)).
Proof.
  unfold start_sched, start_stack, start_guard, start_cpu.
  pose proof (clean_create a f). repeat first [done|discriminate|apply clean_try|apply clean_if|apply clean_out].
Qed.

(** Whatever the calls answer, [pthread_start] returns and leaves neither attributes
    nor memory behind; arguments it refuses have no effect at all. *)
Lemma pthread_start_clean func a f s : exists rc s', pthread_start func a f s = Ret rc s' /\
  (if args_ok func f then start_outcome f s rc s' else rc = - EINVAL /\ s' = s).
Proof.
  unfold pthread_start, args_ok. destruct func; cbn [negb andb]; [|by eexists _, _].
  destruct (has f THREAD_FLAG_NICE && _); cbn [negb andb]; [by eexists _, _|].
  destruct (has f THREAD_FLAG_JOINABLE && has f THREAD_FLAG_DETACHED) eqn:Ejd.
  { apply andb_true_iff in Ejd as [-> ->]. by eexists _, _. }
  destruct (has f THREAD_FLAG_JOINABLE && negb (thread_out f)) eqn:Ejo.
  { apply andb_true_iff in Ejo as [-> Eo]. rewrite Eo, orb_true_r. by eexists _, _. }
  assert (negb (has f THREAD_FLAG_JOINABLE && (has f THREAD_FLAG_DETACHED || negb (thread_out f))) = true) as ->.
  { destruct (has f THREAD_FLAG_JOINABLE); cbn in *; [by rewrite Ejd, Ejo|done]. }
  destruct (Z.eqb_spec (attr_init a) 0) as [Ea|Ea]; cbn [negb].
  2: { exists (- attr_init a), s. split; [done|]. split; [done|]. split; [done|]. right. split; [lia|done]. }
  apply (clean_try f (setdetach a) _ (clean_sched a f) s (PState (attrs s + 1) (blocks s) (threads s) (out_set s))); done.
Qed.

(** The header promises [-rc] where a pthread call fails; the code returns [rc], which
    the callers, testing for a negative number, take for success. *)
Lemma pthread_error_is_positive :
  let a := PthreadAnswers 0 0 0 0 0 0 0 0 0 0 true true 11 in
  pthread_start true a thread_flag_default (PState 0 0 [] false) = Ret 11 (PState 0 0 [] false).
Proof. reflexivity. Qed.
